(* ===== verification/_CoqProject ===== *)
-Q . S2P
Prelude.v
GoStrings.v
GoError.v
Codec.v
Store.v
Names.v
Netip.v
Content.v
Masters.v
NetipText.v
Ids.v
Authz.v
MemStore.v
Pdns.v
RecordSets.v
Recursor.v
World.v
AuditLog.v
Zones.v
ZonesSpec.v
Supermasters.v
Records.v
RecordsSpec.v
Templates.v
Backup.v
BackupSpec.v
Acme.v
AcmeSpec.v
IpamPlan.v
IpamSync.v
IpamSyncSpec.v
AuditTrail.v
Stream.v
Dnsconf.v
Sha256.v
ConfFiles.v
Url.v
ConfService.v
ConfServiceSpec.v
HttpText.v
PdnsHttp.v
RecursorHttp.v
Secrets.v
Sealed.v
ConfigFile.v
IpamConsumer.v
Dashboard.v
Prom.v
Sse.v
HttpApi.v
HttpRoutes.v
HttpSpec.v
SqlStore.v
SqlSpec.v
Grpc.v
Dnsclient.v
GrpcSpec.v
Manifest.v
App.v
