(* ===== verification/Prelude.v ===== *)
(** * go-tangra-dns: the DNS management plane, verified

    The program lets tenants manage zones and record sets on one shared PowerDNS
    Authoritative server.  A store holds who owns which zone, what templates,
    supermasters, IPAM bookkeeping and ACME challenges there are, and the audit
    log; PowerDNS holds the records; a PowerDNS Recursor forwards the managed
    zones.  Every service method checks the caller, reads the store, talks to
    PowerDNS first and to the store second, compensates when the second write
    fails, and then emits audit records, events and metrics.

    ** How the code is read

    A Go [string] is its bytes ([str]); an [error] is a value of the type [error]
    with [errors.Is] as [Is] (GoError); a method that may fail returns [res].  A
    service method is a computation [M] on a [World]: the store, the DNS server,
    the recursor, the audit, event and metric logs, the clock and the id source
    (World).  [x ←? m; k] is the early return on error.  The store, the PowerDNS
    client and the recursor client are Go interfaces and are type classes here
    ([RepoStore], [PDNSClient], [RecursorClient]): a call either fails in its own
    way, leaving the data as they are, or does what the function on the tables (or
    on the zones) does.  The services are proved against the classes; the in-memory
    store and server of the repository are instances, and every witness runs on
    them.  Background loops and locks are step relations whose steps are what runs
    under one lock or between two channel operations (the audit writer, the hub).

    ** The files, in order

    The standard library the code uses:
    - GoStrings, GoError, Codec: [strings], [strconv], UTF-8, [errors], base64 and
      hexadecimal; Netip, NetipText: [net/netip], parsing and printing byte by byte;
      Url: [net/url]; HttpText: header and query texts; Sha256: [crypto/sha256].

    Data, validation and authorization:
    - Store: [internal/store/models.go], [lists.go]; Ids: [internal/store/ids.go].
    - Names, Masters: [internal/validate/names.go]; Content:
      [internal/validate/content.go]; RecordSets: [internal/validate/recordset.go].
    - Authz: [internal/authz/authz.go].

    What the services stand on:
    - MemStore: [internal/repo/repo.go] (the class [RepoStore]) and
      [internal/memstore/memstore.go] (its instance).
    - SqlStore, SqlSpec: [internal/repo/repodb/db.go] and [internal/store/store.go]
      with the schema and the policies of its migrations.
    - Pdns: [internal/pdns/types.go], [fake.go] and the [Client] interface; PdnsHttp:
      [internal/pdns/client.go] over a transport that may answer anything.
    - Recursor: [internal/recursor/fake.go], [reconciler.go]; RecursorHttp:
      [internal/recursor/client.go].
    - World: [internal/events], and what the services emit.
    - AuditLog: [internal/audit/audit.go]; AuditTrail: what the services hand it.
    - Secrets: [internal/secrets/secrets.go]; Sealed: [internal/sealed/sealed.go].

    The services:
    - Zones, ZonesSpec: [internal/zones/zones.go].
    - Supermasters: [internal/supermasters/supermasters.go].
    - Records, RecordsSpec: [internal/records/records.go].
    - Templates: [internal/templates/expand.go], [templates.go].
    - Backup, BackupSpec: [internal/backup/backup.go].
    - Acme, AcmeSpec: [internal/acmechallenge/acmechallenge.go], [sweeper.go].
    - IpamPlan, IpamSync, IpamSyncSpec, IpamConsumer: [internal/ipamsync/plan.go],
      [decode.go], [sync.go], [consumer.go], [ipamclient.go].
    - Dnsconf: [internal/dnsconf/model.go], [render.go]; ConfFiles: [files.go];
      ConfService, ConfServiceSpec: [service.go], [docker.go].
    - Dashboard: [internal/dashboard/dashboard.go], [catalogue.go]; Prom: [prom.go].

    The edges:
    - Stream: [internal/stream/hub.go] and the in-process client of [client.go]; Sse:
      [sse.go] and the connection limiter.
    - HttpApi: the middleware and the router of [internal/httpapi] ([server.go],
      [middleware.go], [errors.go]); HttpRoutes: its handlers; HttpSpec: the whole.
    - Grpc: [internal/grpcapi]; Dnsclient: [pkg/dnsclient]; GrpcSpec: both together.
    - Manifest: [pkg/dnsmanifest/manifest.go] and [internal/app/permissions.go].
    - ConfigFile: [internal/config/config.go], and what each part is built from.
    - App: the wiring and release order of [internal/app/app.go], and the instruments
      of [internal/metrics/metrics.go].

    A definition has the name of the function it translates, with an underscore
    where Rocq reserves the name ([Record_], [delete_], [List_]) and lower case
    for the step inside a method ([create] and its halves [create_check] and
    [create_commit], between which requests interleave).

    ** What is proved

    - Zones: creation is atomic across the store and the server, deletion is
      complete, an update leaves row and server in step, no DNS name is under two
      tenants, and no operation of a tenant touches another tenant's zone on the
      server; for every sequence of operations and every failing call.
    - Records: a write changes exactly the addressed set of a zone of the caller's
      tenant, moves are one patch, a CNAME stays alone at its name, what was
      written is read back, and lists are in canonical order.
    - Templates: expansion is exact and stored templates stay valid.
    - ACME: presenting adds exactly one value, cleaning up takes exactly it away,
      both together are the identity, the sweeper removes only old challenges.
    - IPAM: an event reaches only the zones of its tenant; when a side reports no
      error its record is in the DNS; a released address leaves nothing behind;
      PTR owners are injective.
    - Audit: every event the services emit is one the log accepts; redaction hides
      exactly the forbidden positions; the writer refines a lossy queue that
      counts its losses; closing it drains the queue in as many rounds as rows.
    - Stream: what a reader receives is an ordered part of its tenant's stream
      addressed to it, and the connection limits hold.
    - Supermasters: creation is atomic and for administrators only.
    - Backup: an import touches only its tenant and reports every row exactly once,
      and importing an export brings back every lost zone row.
    - Server configuration: validation accepts exactly the well-formed settings, a
      validated configuration always renders and the files determine it; a file is
      replaced atomically under every failure; an update writes exactly the rendered
      files and restarts exactly the containers concerned.
    - Store: the schema's unique guards are an invariant and a tenant's operations
      leave the rows of the others alone.  On a database that may fail at every call
      each method of the SQL store fails and changes nothing, or refines the function
      of the in-memory store; the search pattern is literal.  Ids grow strictly, also
      when the clock stands still or goes back.
    - Clients: a PowerDNS or recursor call sends at most one request, for exactly its
      resource, with a recent key, and no error shows the key; the dashboard asks only
      its catalogue and its answer does not depend on the interleaving.
    - HTTP: nobody reaches a handler past the checks; a request, whatever it holds,
      stays inside the tenant of its token and is answered in the closed vocabulary;
      every declared route has its handler; the gateway and the auth service are told
      exactly what the server enforces, and no registered role opens the server
      configuration.
    - gRPC: challenges are for one identity only and every other call is refused and
      recorded; what a client reads is the tenant's row; paging reads everything once.
    - Wiring: the service starts completely or releases what it had opened.
    - Validation of names, contents, record sets and primaries is characterised
      exactly, and the reconciler makes the forwards equal to the managed zones.

    ** Bounds

    Where a loop is not structural, its fuel is the length of the string it
    consumes at least one byte of per round ([fields_loop], [replace_loop],
    [strip]) or the eight groups of an IPv6 address ([parse_groups]), so the fuel
    is never what stops it.  Addresses are 32- and 128-bit numbers, TTLs are cut to
    32 bits where the code converts, ids are laid out bit by bit.

    ** Third-party code

    [github.com/miekg/dns] (name and record parsing), the public suffix list, the
    sorting and paging of [go-tangra/listquery], the JSON and YAML decoders, the schema
    validation of the API document, the token verifier, the AEAD, the conversions of
    PostgreSQL, the remote permission checker, Prometheus, Docker and the IPAM service
    are parameters, with the documented behaviour a theorem needs as a class of laws
    ([MiekgDNSLaws], [PostgresLaws], [ListPaging] and the like) that a concrete
    function of the witnesses satisfies.

    A commit that reports an error is taken not to have happened.  The SQL and the
    in-memory store are compared where they are meant to agree ([proper]): not for a
    sweep with a limit below one, template names beyond ASCII, a challenge that is
    both a duplicate and without a zone, and addresses PostgreSQL prints in another
    form.  An instant is a number of nanoseconds, zero being Go's zero time.

    ** Not modelled

    The loops that register the module with the gateway and with auth, the timers of
    the workers (their loops take the ticks as input), log lines, the listeners, the
    files of the federated user interface, the connection pool and the migrations of
    the database, publishing an emitted event to the hub ([HubPublisher]), the Valkey
    adapter of the event bus (its contract is the class of Stream), the commands, the
    generated protobuf code and the store's contract tests: transport, timers and
    glue whose effects are the parameters above. *)
From Stdlib Require Import Ascii.
From stdpp Require Export base list gmap sets strings pretty.

(** ** Byte strings

    A Go [string] is a sequence of bytes.  It is a [list ascii] here (an
    [ascii] is eight bits), so that the list library applies; a Rocq string
    literal is coerced to it. *)
Abbreviation str := (list ascii).

Definition lit (s : string) : str := String.list_ascii_of_string s.
Coercion lit : string >-> list.
Arguments lit : simpl never.

(** ** Tactics *)

(** Case analysis on every [match] of the goal or of a hypothesis, keeping
    only the consistent cases. *)
Ltac go_cases := repeat (case_match; simplify_eq/=).

(** Expose the bytes of the literals of a hypothesis. *)
Ltac unlit H := unfold lit in H; simpl in H.

(** Turn boolean connectives into propositions, everywhere. *)
Ltac b2p :=
  repeat match goal with
  | H : _ && _ = true |- _ => apply andb_true_iff in H as [??]
  | H : _ || _ = false |- _ => apply orb_false_iff in H as [??]
  | H : negb _ = true |- _ => apply negb_true_iff in H
  | H : negb _ = false |- _ => apply negb_false_iff in H
  | H : bool_decide _ = true |- _ => apply bool_decide_eq_true in H
  | H : bool_decide _ = false |- _ => apply bool_decide_eq_false in H
  | H : (_ <? _)%Z = true |- _ => apply Z.ltb_lt in H
  | H : (_ <? _)%Z = false |- _ => apply Z.ltb_ge in H
  | H : (_ <=? _)%Z = true |- _ => apply Z.leb_le in H
  | H : (_ <=? _)%Z = false |- _ => apply Z.leb_gt in H
  | H : (_ =? _)%Z = true |- _ => apply Z.eqb_eq in H
  | H : (_ =? _)%Z = false |- _ => apply Z.eqb_neq in H
  | H : (_ <? _)%nat = true |- _ => apply Nat.ltb_lt in H
  | H : (_ <? _)%nat = false |- _ => apply Nat.ltb_ge in H
  | H : (_ =? _)%nat = true |- _ => apply Nat.eqb_eq in H
  | H : (_ =? _)%nat = false |- _ => apply Nat.eqb_neq in H
  end.

(** Case analysis on the outermost test of a hypothesis or of the goal. *)
Tactic Notation "case_if" "in" hyp(H) "as" ident(E) :=
  match type of H with
  | (if ?b then _ else _) = _ => destruct b eqn:E
  | (if ?b then _ else _) _ = _ => destruct b eqn:E
  end.
Tactic Notation "case_if" "as" ident(E) :=
  match goal with
  | |- (if ?b then _ else _) = _ → _ => destruct b eqn:E
  | |- (if ?b then _ else _) = _ => destruct b eqn:E
  | |- context [if ?b then _ else _] => destruct b eqn:E
  end.

(** ** Lists *)

(** [forallb] against [Forall]. *)
Lemma forallb_Forall {A} (f : A → bool) (l : list A) :
  forallb f l = true ↔ Forall (λ x, f x = true) l.
Proof.
  induction l as [|x l IH]; simpl; [naive_solver|].
  rewrite andb_true_iff, Forall_cons. naive_solver.
Qed.

(** A byte-wise map that fixes every element is the identity. *)
Lemma map_id_Forall {A} (f : A → A) (l : list A) :
  Forall (λ x, f x = x) l → map f l = l.
Proof. induction 1; simpl; congruence. Qed.

Lemma Forall_last {A} (P : A → Prop) (l : list A) (x : A) :
  Forall P l → last l = Some x → P x.
Proof. intros HP Hl. apply last_Some in Hl as [l' ->]. by apply Forall_app in HP as [_ ?%Forall_inv]. Qed.

(** [find] of the first element satisfying a test. *)
Fixpoint find_first {A} (p : A → bool) (l : list A) : option A :=
  match l with
  | [] => None
  | x :: l => if p x then Some x else find_first p l
  end.

Lemma find_first_Some {A} (p : A → bool) (l : list A) (x : A) :
  find_first p l = Some x → x ∈ l ∧ p x = true.
Proof. induction l as [|y l IH]; simpl; [done|]. case_match; set_solver. Qed.

Lemma find_first_None {A} (p : A → bool) (l : list A) :
  find_first p l = None ↔ Forall (λ x, p x = false) l.
Proof.
  induction l as [|y l IH]; simpl; [naive_solver|].
  rewrite Forall_cons. case_match; naive_solver.
Qed.

(** A stable insertion sort by a strict order: what [sort.SliceStable] gives,
    and [sort.Slice] where no two elements tie. *)
Fixpoint insert_by {A} (lt : A → A → bool) (x : A) (l : list A) : list A :=
  match l with
  | [] => [x]
  | y :: l' => if lt y x then y :: insert_by lt x l' else x :: l
  end.
Definition sort_by {A} (lt : A → A → bool) (l : list A) : list A := foldr (insert_by lt) [] l.

Lemma insert_by_perm {A} (lt : A → A → bool) x l : insert_by lt x l ≡ₚ x :: l.
Proof.
  induction l as [|y l IH]; simpl; [done|]. case_match; [|done].
  rewrite IH. apply Permutation_swap.
Qed.

Lemma sort_by_perm {A} (lt : A → A → bool) l : sort_by lt l ≡ₚ l.
Proof. induction l as [|x l IH]; simpl; [done|]. rewrite insert_by_perm. by constructor. Qed.

Lemma elem_of_sort_by {A} (lt : A → A → bool) l x : x ∈ sort_by lt l ↔ x ∈ l.
Proof. by rewrite sort_by_perm. Qed.

(** Where the order separates the elements the sorted list does not depend on the
    order they came in. *)
Lemma insert_by_comm {A} (lt : A → A → bool) x y l :
  (∀ a b c, lt a b = true → lt b c = true → lt a c = true) → lt x y = negb (lt y x) →
  insert_by lt x (insert_by lt y l) = insert_by lt y (insert_by lt x l).
Proof.
  intros Ht. assert (H : ∀ x y, lt x y = true → lt y x = false → insert_by lt x (insert_by lt y l) = insert_by lt y (insert_by lt x l)).
  { clear x y. intros x y Hxy Hyx. induction l as [|z l IH]; simpl; [by rewrite Hxy, Hyx|].
    destruct (lt z y) eqn:Ey, (lt z x) eqn:Ex; simpl; rewrite ?Ex, ?Ey, ?Hxy, ?Hyx; simpl; rewrite ?Ey; [by rewrite IH|done| |done].
    by rewrite (Ht z x y) in Ey. }
  destruct (lt y x) eqn:E; intros E'; [symmetry|]; by apply H.
Qed.
Lemma sort_by_unique {A} (lt : A → A → bool) l l' :
  (∀ a b c, lt a b = true → lt b c = true → lt a c = true) → (∀ a b, a ∈ l → b ∈ l → a ≠ b → lt a b = negb (lt b a)) →
  NoDup l → l ≡ₚ l' → sort_by lt l = sort_by lt l'.
Proof.
  intros Ht Hs Hd Hp. induction Hp as [|x l l' Hp IH|x y l|l1 l2 l3 Hp1 IH1 Hp2 IH2]; simpl.
  - done.
  - apply NoDup_cons in Hd as [_ Hd]. rewrite IH; [done| |done]. intros a b Ha Hb. apply Hs; by right.
  - apply insert_by_comm; [done|]. apply NoDup_cons in Hd as [Hx _]. apply Hs; [set_solver..|]. intros ->. apply Hx. left.
  - rewrite IH1 by done. apply IH2; [|by rewrite <- Hp1]. intros a b. rewrite <- Hp1. apply Hs.
Qed.

(** ** Maps *)

(** The values of a map, in the order of its representation: Go's iteration
    order is unspecified, and the code that ranges over a map either looks for
    the one element a uniqueness guard allows, or sorts. *)
Definition values_of {A} (m : gmap str A) : list A := map snd (map_to_list m).

Lemma elem_of_values_of {A} (m : gmap str A) x : x ∈ values_of m ↔ ∃ k, m !! k = Some x.
Proof.
  unfold values_of. rewrite list_elem_of_fmap. split.
  - intros ([k y] & -> & H%elem_of_map_to_list). by exists k.
  - intros (k & H%elem_of_map_to_list). by exists (k, x).
Qed.

Definition any_value {A} (p : A → bool) (m : gmap str A) : bool := existsb p (values_of m).

Lemma any_value_true {A} (p : A → bool) (m : gmap str A) :
  any_value p m = true ↔ ∃ k x, m !! k = Some x ∧ p x = true.
Proof.
  unfold any_value. rewrite existsb_exists. split.
  - intros (x & Hx%list_elem_of_In & Hp). apply elem_of_values_of in Hx as [k Hk]. eauto.
  - intros (k & x & Hk & Hp). exists x. split; [|done]. apply list_elem_of_In, elem_of_values_of. eauto.
Qed.

Lemma any_value_false {A} (p : A → bool) (m : gmap str A) :
  any_value p m = false ↔ ∀ k x, m !! k = Some x → p x = false.
Proof.
  rewrite <- not_true_iff_false, any_value_true. split.
  - intros H k x Hk. apply not_true_iff_false. intros Hp. apply H. eauto.
  - intros H (k & x & Hk & Hp). by rewrite (H k x Hk) in Hp.
Qed.

(** No two entries are related. *)
Definition uniq {A} (R : A → A → Prop) (m : gmap str A) : Prop :=
  ∀ i j x y, m !! i = Some x → m !! j = Some y → R x y → i = j.

Lemma uniq_empty {A} (R : A → A → Prop) : uniq R ∅.
Proof. intros ???? H. by rewrite lookup_empty in H. Qed.

Lemma uniq_insert {A} (R : A → A → Prop) (m : gmap str A) k x :
  uniq R m → (∀ j y, j ≠ k → m !! j = Some y → ¬ R x y ∧ ¬ R y x) → uniq R (<[k := x]> m).
Proof.
  intros Hu Hk i j y z. rewrite !lookup_insert_Some.
  intros [[<- <-]|[Hi Hy]] [[<- <-]|[Hj Hz]] HR; [done|..]; try (by apply (Hu i j y z)).
  - by destruct (Hk j z).
  - by destruct (Hk i y).
Qed.

Lemma uniq_delete {A} (R : A → A → Prop) (m : gmap str A) k : uniq R m → uniq R (delete k m).
Proof. intros Hu i j x y. rewrite !lookup_delete_Some. naive_solver. Qed.

(** ** Hints

    [dns] holds the lemmas that close the routine side conditions of the
    components. *)
Create HintDb dns discriminated.
#[export] Hint Resolve Forall_nil_2 Forall_cons_2 : dns.
