(* ===== verification/GoStrings.v ===== *)
(** * Go's byte strings: the parts of [strings], [unicode/utf8], [unicode]
    and [strconv] the module uses

    A string is a list of bytes.  UTF-8 decoding and encoding follow the
    language's rules (an invalid byte decodes to U+FFFD, one byte wide), the
    white-space set is Unicode's.  The case tables above U+007F are data of the
    [unicode] package: they are the class [Unicode], and nothing below assumes
    anything about them. *)
From Stdlib Require Import Ascii.
From S2P Require Import Prelude.
Local Open Scope Z_scope.

(** ** Bytes *)

Definition code (c : ascii) : Z := Z.of_N (N_of_ascii c).
Definition chr (z : Z) : ascii := ascii_of_N (Z.to_N z).

(** Every byte, to decide a property of bytes by evaluation. *)
Definition all_bytes : str := map (λ n, chr (Z.of_nat n)) (seq 0 256).

Lemma all_bytes_complete c : c ∈ all_bytes.
Proof.
  apply list_elem_of_In, in_map_iff. exists (nat_of_ascii c). split.
  - unfold chr. rewrite <- nat_N_Z, N2Z.id. apply (ascii_nat_embedding c).
  - apply in_seq. pose proof (nat_ascii_bounded c). lia.
Qed.

Lemma byte_dec (p : ascii → bool) : forallb p all_bytes = true → ∀ c, p c = true.
Proof. rewrite forallb_Forall, Forall_forall. auto using all_bytes_complete. Qed.

(** Prove [∀ c : ascii, ...] whose body is decided by evaluation. *)
Ltac by_bytes := apply byte_dec; vm_compute; reflexivity.

Lemma code_range c : 0 ≤ code c < 256.
Proof.
  assert (H : (0 <=? code c) && (code c <? 256) = true) by (revert c; by_bytes).
  b2p. lia.
Qed.

Definition isASCII (s : str) : bool := forallb (λ c, code c <? 128) s.

Definition lower_byte (c : ascii) : ascii :=
  if (65 <=? code c) && (code c <=? 90) then chr (code c + 32) else c.
Definition upper_byte (c : ascii) : ascii :=
  if (97 <=? code c) && (code c <=? 122) then chr (code c - 32) else c.

(** ** UTF-8 *)

Definition RuneError : Z := 65533.

Definition cont (lo hi : Z) (c : ascii) : bool := (lo <=? code c) && (code c <=? hi).
Definition low6 (c : ascii) : Z := Z.land (code c) 63.

(** The range of the second byte after a lead byte, and the width. *)
Definition lead2 (c : ascii) : bool := (194 <=? code c) && (code c <=? 223).
Definition lead3 (c : ascii) : option (Z * Z) :=
  let b := code c in
  if b =? 224 then Some (160, 191)
  else if b =? 237 then Some (128, 159)
  else if (225 <=? b) && (b <=? 239) then Some (128, 191) else None.
Definition lead4 (c : ascii) : option (Z * Z) :=
  let b := code c in
  if b =? 240 then Some (144, 191)
  else if b =? 244 then Some (128, 143)
  else if (241 <=? b) && (b <=? 243) then Some (128, 191) else None.

(** The runes a [for range] loop over the string yields. *)
Fixpoint runes (s : str) : list Z :=
  match s with
  | [] => []
  | c0 :: s1 =>
    if code c0 <? 128 then code c0 :: runes s1 else
    match s1 with
    | [] => RuneError :: runes s1
    | c1 :: s2 =>
      if lead2 c0 && cont 128 191 c1
      then Z.lor (Z.shiftl (Z.land (code c0) 31) 6) (low6 c1) :: runes s2 else
      match s2 with
      | [] => RuneError :: runes s1
      | c2 :: s3 =>
        if match lead3 c0 with Some (lo, hi) => cont lo hi c1 && cont 128 191 c2 | None => false end
        then Z.lor (Z.lor (Z.shiftl (Z.land (code c0) 15) 12) (Z.shiftl (low6 c1) 6)) (low6 c2) :: runes s3 else
        match s3 with
        | [] => RuneError :: runes s1
        | c3 :: s4 =>
          if match lead4 c0 with
             | Some (lo, hi) => cont lo hi c1 && cont 128 191 c2 && cont 128 191 c3
             | None => false end
          then Z.lor (Z.lor (Z.lor (Z.shiftl (Z.land (code c0) 7) 18) (Z.shiftl (low6 c1) 12))
                 (Z.shiftl (low6 c2) 6)) (low6 c3) :: runes s4
          else RuneError :: runes s1
        end
      end
    end
  end.

(** [utf8.AppendRune]. *)
Definition encode_rune (r : Z) : str :=
  let tail n := chr (128 + Z.land (Z.shiftr r n) 63) in
  if (0 <=? r) && (r <? 128) then [chr r]
  else if (128 <=? r) && (r <? 2048) then [chr (192 + Z.shiftr r 6); tail 0]
  else if (r <? 0) || ((55296 <=? r) && (r <=? 57343)) || (1114111 <? r) then [chr 239; chr 191; chr 189]
  else if r <? 65536 then [chr (224 + Z.shiftr r 12); tail 6; tail 0]
  else [chr (240 + Z.shiftr r 18); tail 12; tail 6; tail 0].

Definition RuneCountInString (s : str) : Z := Z.of_nat (length (runes s)).

(** [unicode.IsSpace] and [unicode.IsControl]. *)
Definition space_runes : list Z :=
  [9; 10; 11; 12; 13; 32; 133; 160; 5760; 8192; 8193; 8194; 8195; 8196; 8197; 8198; 8199; 8200; 8201; 8202;
   8232; 8233; 8239; 8287; 12288].
Definition IsControl (r : Z) : bool := (r <? 32) || ((127 <=? r) && (r <=? 159)).

(** ** Case mapping *)

(** The case tables of [unicode] above U+007F: lower, upper, and a
    representative of the simple-folding orbit. *)
Class Unicode := {
  u_lower : Z → Z;
  u_upper : Z → Z;
  u_fold : Z → Z
}.

(** The identity tables, with the two letters above U+007F whose lower case is
    an ASCII letter: U+0130 and the Kelvin sign U+212A. *)
Definition unicode_min : Unicode := {|
  u_lower := λ r, if r =? 304 then 105 else if r =? 8490 then 107 else r;
  u_upper := λ r, if r =? 305 then 73 else if r =? 383 then 83 else r;
  u_fold := λ r, if r =? 8490 then 107 else if r =? 383 then 115 else r
|}.

Section WithUnicode.
Context `{Unicode}.

Definition lower_rune (r : Z) : Z :=
  if r <? 128 then (if (65 <=? r) && (r <=? 90) then r + 32 else r) else u_lower r.
Definition upper_rune (r : Z) : Z :=
  if r <? 128 then (if (97 <=? r) && (r <=? 122) then r - 32 else r) else u_upper r.
Definition fold_rune (r : Z) : Z := if r <? 128 then lower_rune r else u_fold r.

Definition ToLower (s : str) : str :=
  if isASCII s then map lower_byte s else concat (map (λ r, encode_rune (lower_rune r)) (runes s)).
Definition ToUpper (s : str) : str :=
  if isASCII s then map upper_byte s else concat (map (λ r, encode_rune (upper_rune r)) (runes s)).
Definition EqualFold (s t : str) : bool :=
  bool_decide (map fold_rune (runes s) = map fold_rune (runes t)).

Lemma ToLower_ascii s : isASCII s = true → ToLower s = map lower_byte s.
Proof. unfold ToLower. by intros ->. Qed.

Lemma ToUpper_ascii s : isASCII s = true → ToUpper s = map upper_byte s.
Proof. unfold ToUpper. by intros ->. Qed.

Lemma runes_ascii s : isASCII s = true → runes s = map code s.
Proof. induction s as [|c s IH]; simpl; [done|]. intros [-> ?]%andb_true_iff. f_equal; auto. Qed.

Lemma fold_lower_code c : code c < 128 → fold_rune (code c) = code (lower_byte c).
Proof.
  intros Hc. unfold fold_rune, lower_rune. rewrite (proj2 (Z.ltb_lt _ _) Hc).
  assert (E : ((if (65 <=? code c) && (code c <=? 90) then code c + 32 else code c)
              =? code (lower_byte c)) = true) by (clear Hc; revert c; by_bytes).
  by apply Z.eqb_eq in E.
Qed.

#[global] Instance code_inj : Inj eq eq code.
Proof.
  intros c d. unfold code. intros E%N2Z.inj. by rewrite <- (ascii_N_embedding c), E, ascii_N_embedding.
Qed.

(** On ASCII strings, [EqualFold] compares the lower-cased bytes. *)
Lemma EqualFold_ascii s t :
  isASCII s = true → isASCII t = true →
  EqualFold s t = bool_decide (map lower_byte s = map lower_byte t).
Proof.
  intros Hs Ht. unfold EqualFold. rewrite !runes_ascii by done.
  assert (Hmap : ∀ u, isASCII u = true → map fold_rune (map code u) = map code (map lower_byte u)).
  { intros u Hu. rewrite !map_map. apply map_ext_Forall, Forall_forall. intros c Hc.
    apply forallb_Forall, Forall_forall with (x := c) in Hu; [|done].
    apply fold_lower_code. by b2p. }
  rewrite !Hmap by done. apply bool_decide_ext. split; [|by intros ->].
  apply (inj (fmap code)).
Qed.

Lemma EqualFold_refl s : EqualFold s s = true.
Proof. by apply bool_decide_eq_true. Qed.

Lemma EqualFold_sym s t : EqualFold s t = EqualFold t s.
Proof. apply bool_decide_ext. split; congruence. Qed.

Lemma EqualFold_trans s t u : EqualFold s t = true → EqualFold t u = true → EqualFold s u = true.
Proof. unfold EqualFold. rewrite !bool_decide_eq_true. congruence. Qed.
End WithUnicode.

(** ** Prefixes, suffixes and substrings *)

Definition HasPrefix (s p : str) : bool := bool_decide (p `prefix_of` s).
Definition HasSuffix (s p : str) : bool := bool_decide (p `suffix_of` s).
Definition TrimPrefix (s p : str) : str := if HasPrefix s p then drop (length p) s else s.
Definition TrimSuffix (s p : str) : str :=
  if HasSuffix s p then take (length s - length p) s else s.

Fixpoint Contains (s sub : str) : bool :=
  HasPrefix s sub || match s with [] => false | _ :: t => Contains t sub end.

(** [strings.ContainsAny] with an ASCII character set. *)
Definition ContainsAny (s chars : str) : bool := existsb (λ c, bool_decide (c ∈ chars)) s.

Lemma HasSuffix_app s p : HasSuffix (s ++ p) p = true.
Proof. apply bool_decide_eq_true. by exists s. Qed.

Lemma HasSuffix_spec s p : HasSuffix s p = true ↔ ∃ k, s = k ++ p.
Proof. apply bool_decide_eq_true. Qed.

Lemma TrimSuffix_app s p : TrimSuffix (s ++ p) p = s.
Proof.
  unfold TrimSuffix. rewrite HasSuffix_app, length_app.
  by rewrite take_app_length' by lia.
Qed.

Lemma Contains_spec s sub : Contains s sub = true ↔ ∃ k1 k2, s = k1 ++ sub ++ k2.
Proof.
  split.
  - induction s as [|c s IH]; simpl; rewrite orb_true_iff; intros [Hp|Hp].
    + apply bool_decide_eq_true in Hp as [k ->]. by exists [], k.
    + done.
    + apply bool_decide_eq_true in Hp as [k ->]. by exists [], k.
    + destruct (IH Hp) as (k1 & k2 & ->). by exists (c :: k1), k2.
  - intros (k1 & k2 & ->). induction k1 as [|c k1 IH]; simpl.
    + destruct (sub ++ k2) eqn:E; simpl; rewrite <-E; apply orb_true_iff; left;
        apply bool_decide_eq_true; by exists k2.
    + apply orb_true_iff; right. apply IH.
Qed.

Lemma Contains_app_false s t sub : Contains (s ++ t) sub = false → Contains t sub = false.
Proof.
  intros H. apply not_true_iff_false. intros (k1 & k2 & ->)%Contains_spec.
  apply not_true_iff_false in H. apply H, Contains_spec. exists (s ++ k1), k2. by rewrite <-app_assoc.
Qed.

Lemma ContainsAny_false s chars c : ContainsAny s chars = false → c ∈ s → c ∉ chars.
Proof.
  intros H Hc Hin. apply not_true_iff_false in H. apply H, existsb_exists.
  exists c. by rewrite <-list_elem_of_In, bool_decide_eq_true.
Qed.

(** ** White space *)

Definition spaces : list str := map encode_rune space_runes.

Definition strip_one (es : list str) (s : str) : option str :=
  match find_first (λ e, HasPrefix s e) es with
  | Some e => Some (drop (length e) s)
  | None => None
  end.

Fixpoint strip (fuel : nat) (es : list str) (s : str) : str :=
  match fuel with
  | O => s
  | S n => match strip_one es s with Some s' => strip n es s' | None => s end
  end.

(** A rune is dropped from the left as long as it is white space, then from
    the right; each step removes at least one byte, so [length s] steps are
    enough. *)
Definition TrimLeftSpace (s : str) : str := strip (length s) spaces s.
Definition TrimRightSpace (s : str) : str :=
  reverse (strip (length s) (map reverse spaces) (reverse s)).
Definition TrimSpace (s : str) : str := TrimRightSpace (TrimLeftSpace s).

Definition printable (c : ascii) : bool := (33 <=? code c) && (code c <=? 126).

(** No white-space encoding starts or ends with a printable ASCII byte. *)
Lemma strip_printable n es c s :
  Forall (λ e, match e with [] => false | d :: _ => negb (printable d) end = true) es →
  printable c = true → strip n es (c :: s) = c :: s.
Proof.
  intros Hes Hc. destruct n as [|n]; simpl; [done|]. unfold strip_one.
  destruct (find_first _ es) as [e|] eqn:E; [|done].
  apply find_first_Some in E as [Hin Hp]. apply bool_decide_eq_true in Hp as [k Hk].
  rewrite Forall_forall in Hes. specialize (Hes e Hin).
  destruct e as [|d e]; [done|]. simplify_eq/=. by rewrite Hc in Hes.
Qed.

Lemma TrimLeftSpace_printable c s : printable c = true → TrimLeftSpace (c :: s) = c :: s.
Proof. intros. apply strip_printable; [|done]. apply forallb_Forall. by vm_compute. Qed.

Lemma TrimRightSpace_printable s c : printable c = true → TrimRightSpace (s ++ [c]) = s ++ [c].
Proof.
  intros. unfold TrimRightSpace. rewrite reverse_snoc, strip_printable; [| |done].
  - by rewrite reverse_cons, reverse_involutive.
  - apply forallb_Forall. by vm_compute.
Qed.

(** [TrimSpace] keeps a string whose bytes are printable ASCII. *)
Lemma TrimSpace_printable s : Forall (λ c, printable c = true) s → TrimSpace s = s.
Proof.
  intros Hs. unfold TrimSpace. destruct s as [|c s]; [done|].
  rewrite TrimLeftSpace_printable by (by apply Forall_inv in Hs).
  destruct (exists_last (l := c :: s)) as (s' & d & E); [done|]. rewrite E in *.
  apply TrimRightSpace_printable. by apply Forall_app in Hs as [_ ?%Forall_inv].
Qed.

(** ** Splitting and joining *)

(** [strings.Split] with a one-byte separator. *)
Fixpoint SplitByte (sep : ascii) (s : str) : list str :=
  match s with
  | [] => [[]]
  | c :: t =>
    if bool_decide (c = sep) then [] :: SplitByte sep t
    else match SplitByte sep t with [] => [[c]] | w :: ws => (c :: w) :: ws end
  end.

Fixpoint Join (ls : list str) (sep : str) : str :=
  match ls with
  | [] => []
  | [w] => w
  | w :: ws => w ++ sep ++ Join ws sep
  end.

Lemma SplitByte_nonnil sep s : SplitByte sep s ≠ [].
Proof. destruct s; simpl; repeat case_match; congruence. Qed.

Lemma Join_SplitByte sep s : Join (SplitByte sep s) [sep] = s.
Proof.
  induction s as [|c s IH]; simpl; [done|]. case_bool_decide; subst.
  - pose proof (SplitByte_nonnil sep s). destruct (SplitByte sep s); [done|]. simpl in *. by rewrite <-IH.
  - pose proof (SplitByte_nonnil sep s). destruct (SplitByte sep s) as [|w ws]; [done|].
    destruct ws; simpl in *; by rewrite <-IH.
Qed.

Lemma SplitByte_nosep sep s : sep ∉ s → SplitByte sep s = [s].
Proof.
  induction s as [|c s IH]; simpl; [done|]. intros [Hc Hs]%not_elem_of_cons.
  rewrite bool_decide_false by congruence. by rewrite IH.
Qed.

Lemma SplitByte_app sep w s : sep ∉ w → SplitByte sep (w ++ sep :: s) = w :: SplitByte sep s.
Proof.
  induction w as [|c w IH]; simpl.
  - by rewrite bool_decide_true.
  - intros [Hc Hs]%not_elem_of_cons. rewrite bool_decide_false by congruence. by rewrite IH.
Qed.

Lemma SplitByte_Join sep ls :
  ls ≠ [] → Forall (λ w, sep ∉ w) ls → SplitByte sep (Join ls [sep]) = ls.
Proof.
  intros Hne H. induction H as [|w ws Hw Hws IH]; [done|].
  destruct ws as [|w' ws]; [by apply SplitByte_nosep|].
  change (Join (w :: w' :: ws) [sep]) with (w ++ sep :: Join (w' :: ws) [sep]).
  by rewrite SplitByte_app, IH.
Qed.

Lemma SplitByte_no_sep sep s : Forall (λ w, sep ∉ w) (SplitByte sep s).
Proof.
  induction s as [|c s IH]; simpl; [repeat constructor; set_solver|].
  case_bool_decide; [constructor; [set_solver|done]|].
  destruct (SplitByte sep s) as [|w ws]; [repeat constructor; set_solver|].
  apply Forall_cons in IH as [??]. constructor; [set_solver|done].
Qed.

Lemma elem_of_SplitByte sep s w c : w ∈ SplitByte sep s → c ∈ w → c ∈ s.
Proof.
  revert w. induction s as [|d s IH]; simpl; intros w.
  - intros ->%list_elem_of_singleton. done.
  - case_bool_decide.
    + intros [->|Hw]%elem_of_cons; [by intros ?%elem_of_nil|]. right. eauto.
    + destruct (SplitByte sep s) as [|w' ws] eqn:E.
      * intros ->%list_elem_of_singleton. set_solver.
      * intros [->|Hw]%elem_of_cons; set_solver.
Qed.

Lemma length_SplitByte_le sep s w : w ∈ SplitByte sep s → (length w ≤ length s)%nat.
Proof.
  revert w. induction s as [|d s IH]; simpl; intros w.
  - intros ->%list_elem_of_singleton. done.
  - case_bool_decide.
    + intros [->|Hw]%elem_of_cons; simpl; [lia|]. apply IH in Hw. lia.
    + destruct (SplitByte sep s) as [|w' ws] eqn:E.
      * intros ->%list_elem_of_singleton. simpl. lia.
      * intros [->|Hw]%elem_of_cons; simpl.
        -- specialize (IH w'). set_solver by lia.
        -- specialize (IH w). assert (length w ≤ length s)%nat by (apply IH; set_solver). lia.
Qed.

(** [strings.Fields]: the words between runs of white space. *)
Fixpoint fields_loop (fuel : nat) (word : str) (s : str) : list str :=
  let flush ws := if bool_decide (word = []) then ws else reverse word :: ws in
  match fuel with
  | O => flush []
  | S fuel =>
    match strip_one spaces s with
    | Some rest => flush (fields_loop fuel [] rest)
    | None => match s with [] => flush [] | c :: s => fields_loop fuel (c :: word) s end
    end
  end.
Definition Fields (s : str) : list str := fields_loop (S (length s)) [] s.

(** [strings.ReplaceAll] of a non-empty string. *)
Fixpoint replace_loop (fuel : nat) (s old new : str) : str :=
  match fuel, s with
  | O, _ | _, [] => s
  | S fuel, c :: t =>
    if HasPrefix s old then new ++ replace_loop fuel (drop (length old) s) old new
    else c :: replace_loop fuel t old new
  end.
Definition ReplaceAll (s old new : str) : str := replace_loop (length s) s old new.

(** ** Decimal numbers *)

Definition digit (c : ascii) : bool := (48 <=? code c) && (code c <=? 57).

(** [strconv.Itoa] and [strconv.Atoi] (64-bit [int]). *)
Definition Itoa (n : Z) : str := pretty n.

Definition atoi_digits (s : str) : Z := fold_left (λ n c, 10 * n + (code c - 48)) s 0.
Definition Atoi (s : str) : option Z :=
  let '(neg, d) :=
    match s with
    | c :: t => if bool_decide (c = "-"%char) then (true, t)
                else if bool_decide (c = "+"%char) then (false, t) else (false, s)
    | [] => (false, s)
    end in
  if bool_decide (d = []) || negb (forallb digit d) then None
  else let n := if (neg : bool) then - atoi_digits d else atoi_digits d in
       if (- 2 ^ 63 <=? n) && (n <? 2 ^ 63) then Some n else None.

(** The [%q] verb on printable ASCII. *)
Abbreviation dquote := ("034"%char).
Definition goquote (s : str) : str :=
  let esc c := if bool_decide (c = dquote ∨ c = "\"%char) then ["\"%char; c] else [c] in
  dquote :: concat (map esc s) ++ [dquote].

(** ** Ordering *)

(** Go's [<] on strings: byte-wise. *)
Fixpoint str_ltb (a b : str) : bool :=
  match a, b with
  | [], _ :: _ => true
  | _, [] => false
  | x :: a, y :: b => (code x <? code y) || ((code x =? code y) && str_ltb a b)
  end.

Lemma str_ltb_irrefl a : str_ltb a a = false.
Proof. induction a as [|x a IH]; simpl; [done|]. by rewrite Z.ltb_irrefl, Z.eqb_refl, IH. Qed.

Lemma str_ltb_trans a b c : str_ltb a b = true → str_ltb b c = true → str_ltb a c = true.
Proof.
  revert b c. induction a as [|x a IH]; intros [|y b] [|z c]; simpl; try done.
  rewrite !orb_true_iff, !andb_true_iff, !Z.ltb_lt, !Z.eqb_eq. intros [?|[? ?]] [?|[? ?]]; [left; lia..|right]. split; [lia|]. by eapply IH.
Qed.
Lemma str_ltb_total a b : a ≠ b → str_ltb a b = negb (str_ltb b a).
Proof.
  revert b. induction a as [|x a IH]; intros [|y b] Hne; simpl; try done.
  destruct (Z.ltb_spec (code x) (code y)), (Z.eqb_spec (code x) (code y)), (Z.ltb_spec (code y) (code x)), (Z.eqb_spec (code y) (code x)); simpl; try lia; [|done..].
  apply IH. intros ->. apply Hne. f_equal. by apply code_inj.
Qed.

Lemma str_ltb_app w a b : str_ltb (w ++ a) (w ++ b) = str_ltb a b.
Proof. induction w as [|x w IH]; simpl; [done|]. by rewrite Z.ltb_irrefl, Z.eqb_refl, IH. Qed.

Lemma str_ltb_longer w b : str_ltb w (w ++ b) = str_ltb [] b.
Proof. rewrite <- (str_ltb_app w [] b). by rewrite app_nil_r. Qed.
Lemma str_ltb_shorter w a : str_ltb (w ++ a) w = false.
Proof. rewrite <- (app_nil_r w) at 2. rewrite str_ltb_app. by destruct a. Qed.

(** Different words followed by something below all their bytes. *)
Lemma str_ltb_diff (v w x y : str) (b : Z) :
  Forall (λ c, b < code c) v → Forall (λ c, b < code c) w → v ≠ w →
  (∀ c, head x = Some c → code c ≤ b) → (∀ c, head y = Some c → code c ≤ b) →
  str_ltb (v ++ x) (w ++ y) = str_ltb v w.
Proof.
  revert w. induction v as [|c v IH]; intros [|d w] Hv Hw Hne Hx Hy; simpl.
  - done.
  - apply Forall_cons in Hw as [Hd _]. destruct x as [|e x]; [done|]. simpl. specialize (Hx e eq_refl).
    by rewrite (proj2 (Z.ltb_lt (code e) (code d))) by lia.
  - apply Forall_cons in Hv as [Hc _]. destruct y as [|e y]; [done|]. simpl. specialize (Hy e eq_refl).
    rewrite (proj2 (Z.ltb_ge _ _)), (proj2 (Z.eqb_neq _ _)) by lia. done.
  - apply Forall_cons in Hv as [_ Hv]. apply Forall_cons in Hw as [_ Hw].
    destruct (code c =? code d) eqn:E; [|by rewrite !andb_false_l]. apply Z.eqb_eq, code_inj in E as ->.
    rewrite IH; [done..|congruence|done|done].
Qed.

Lemma SplitByte_app_sep sep a b : SplitByte sep (a ++ sep :: b) = SplitByte sep a ++ SplitByte sep b.
Proof.
  induction a as [|c a IH]; simpl; [by rewrite bool_decide_eq_true_2|].
  case_bool_decide; [by rewrite IH|]. rewrite IH. pose proof (SplitByte_nonnil sep a). by destruct (SplitByte sep a).
Qed.

Lemma Join_cons w ws sep : ws ≠ [] → Join (w :: ws) sep = w ++ sep ++ Join ws sep.
Proof. by destruct ws. Qed.

Lemma Join_app xs ys sep : xs ≠ [] → ys ≠ [] → Join (xs ++ ys) sep = Join xs sep ++ sep ++ Join ys sep.
Proof.
  intros Hx Hy. induction xs as [|x xs IH]; [done|]. destruct xs as [|x' xs].
  - simpl. by destruct ys.
  - rewrite <- app_comm_cons, !Join_cons by done. rewrite IH by done. by rewrite <- !app_assoc.
Qed.
