(* ===== verification/GoError.v ===== *)
(** * Errors as values

    The sentinel errors of every package, and Go's error trees: a sentinel,
    [fmt.Errorf] with one or two [%w] verbs, and the typed errors the module
    inspects with [errors.As].  [Is] is [errors.Is].  Texts are kept where the
    code reads them again (a [RecordError]'s field and message, the text of a
    name error); elsewhere only the constant part is. *)
From Stdlib Require Import Ascii.
From S2P Require Import Prelude GoStrings.
Local Open Scope Z_scope.

Inductive sentinel :=
  (* validate *) | ErrName | ErrPublicSuffix | ErrMasters | ErrRecord
  (* repo *) | RepoErrNotFound | RepoErrConflict
  (* pdns *) | PdnsErrNotFound | PdnsErrConflict | PdnsErrUnavailable | PdnsErrTooLarge
  (* recursor *) | RecursorErrUnavailable
  (* authz *) | ErrForbidden
  (* zones *) | ZonesErrNotFound | ErrDuplicate | ErrInvalidKind | ZonesErrInvalid | ErrRejected
              | ErrTemplateNotFound | ErrExportTooLarge
  (* records *) | RecordsErrNotFound | RecordsErrConflict
  (* templates *) | TemplatesErrDuplicate | TemplatesErrInvalid
  (* acmechallenge *) | AcmeErrInvalid | AcmeErrNotFound | AcmeErrPrecondition
  (* ipamsync *) | ErrSkip | IpamErrNotFound | ErrMalformed | ErrIgnored
  (* supermasters *) | SupermastersErrNotFound | SupermastersErrDuplicate | SupermastersErrRejected
  (* dnsconf *) | DnsconfErrInvalid | ErrUnknownTarget | ErrDisabled | ErrNoContainer | ErrRestart | ErrUnvalidated | ErrUnsafeValue
  (* stream *) | StreamErrTooMany | StreamErrType | StreamErrPayload | StreamErrTargets | StreamErrReserved
  (* backup *) | BackupErrBadSchema | BackupErrTooLarge
  (* io/fs *) | FsErrNotExist
  (* secrets *) | SecretsErrNotConfigured | SecretsErrUnavailable | SecretsErrEmpty
  (* sealed *) | SealedErrKEK | SealedErrTampered | SealedErrTooLarge
  (* dashboard *) | DashboardErrWindow | DashboardErrQuery | DashboardErrTooLarge | DashboardErrUnreachable.

#[global] Instance sentinel_eq_dec : EqDecision sentinel.
Proof. solve_decision. Defined.

Definition sentinel_text (s : sentinel) : str :=
  match s with
  | ErrName => "validate: invalid name"
  | ErrPublicSuffix => "validate: public suffix"
  | ErrMasters => "validate: invalid primary address"
  | ErrRecord => "validate: invalid record"
  | RepoErrNotFound => "not found"
  | RepoErrConflict => "conflict"
  | PdnsErrNotFound => "pdns: not found"
  | PdnsErrConflict => "pdns: already exists"
  | PdnsErrUnavailable => "pdns: unavailable"
  | PdnsErrTooLarge => "pdns: response too large"
  | RecursorErrUnavailable => "recursor: unavailable"
  | ErrForbidden => "authz: forbidden"
  | ZonesErrNotFound => "zones: zone not found"
  | ErrDuplicate => "zones: duplicate zone"
  | ErrInvalidKind => "zones: invalid kind"
  | ZonesErrInvalid => "zones: invalid input"
  | ErrRejected => "zones: refused by PowerDNS"
  | ErrTemplateNotFound => "zones: template not found"
  | ErrExportTooLarge => "zones: zone too large to export"
  | RecordsErrNotFound => "records: record set not found"
  | RecordsErrConflict => "records: a record set with that name and type exists"
  | TemplatesErrDuplicate => "templates: a template with that name exists"
  | TemplatesErrInvalid => "templates: invalid template"
  | AcmeErrInvalid => "acmechallenge: invalid challenge"
  | AcmeErrNotFound => "acmechallenge: no zone of the tenant contains the name"
  | AcmeErrPrecondition => "acmechallenge: the name cannot hold a challenge value"
  | ErrSkip => "ipamsync: skipped"
  | IpamErrNotFound => "ipamsync: address not found in IPAM"
  | ErrMalformed => "ipamsync: malformed event"
  | ErrIgnored => "ipamsync: event ignored"
  | SupermastersErrNotFound => "supermasters: supermaster not found"
  | SupermastersErrDuplicate => "supermasters: that ip and nameserver pair exists"
  | SupermastersErrRejected => "supermasters: refused by PowerDNS"
  | DnsconfErrInvalid => "dnsconf: invalid configuration"
  | ErrUnknownTarget => "dnsconf: unknown restart target"
  | ErrDisabled => "dnsconf: container restarts are disabled"
  | ErrNoContainer => "dnsconf: container not found"
  | ErrRestart => "dnsconf: container restart failed"
  | ErrUnvalidated => "dnsconf: configuration not validated"
  | ErrUnsafeValue => "dnsconf: value unsafe to render"
  | StreamErrTooMany => "stream: too many open streams"
  | StreamErrType => "stream: invalid event type"
  | StreamErrPayload => "stream: payload too large or not JSON-safe"
  | StreamErrTargets => "stream: 1..1000 user ids or all=true"
  | StreamErrReserved => "stream: reserved event type"
  | BackupErrBadSchema => "backup: invalid backup document"
  | BackupErrTooLarge => "backup: document exceeds the row limit"
  | FsErrNotExist => "file does not exist"
  | SecretsErrNotConfigured => "secrets: reference not configured"
  | SecretsErrUnavailable => "secrets: secret source unavailable"
  | SecretsErrEmpty => "secrets: secret is empty"
  | SealedErrKEK => "sealed: KEK must be 32 bytes"
  | SealedErrTampered => "sealed: ciphertext rejected"
  | SealedErrTooLarge => "sealed: settings exceed 8 KiB"
  | DashboardErrWindow => "dashboard: window must be 1h, 6h or 24h"
  | DashboardErrQuery => "dashboard: metrics query failed"
  | DashboardErrTooLarge => "dashboard: metrics response too large"
  | DashboardErrUnreachable => "dashboard: metrics endpoint unreachable"
  end.

Inductive error :=
  | New (s : sentinel)
  | Plain (text : str)
  | Wrapf (e : error) (text : str)
  | Wrap2 (e1 e2 : error) (text : str)
  | RecordError (Field Msg : str)
  | FieldError (Field Msg : str)
  | APIError (Status : Z) (Message : str) (kind : option sentinel)
  | StatusError (Status : Z) (Message : str)
  | InjectedErr (method : str).

#[global] Instance error_eq_dec : EqDecision error.
Proof. solve_decision. Defined.

(** [errors.Is(e, s)]. *)
Fixpoint Is (e : error) (s : sentinel) : bool :=
  match e with
  | New s' => bool_decide (s = s')
  | Plain _ => false
  | Wrapf e _ => Is e s
  | Wrap2 e1 e2 _ => Is e1 s || Is e2 s
  | RecordError _ _ => bool_decide (s = ErrRecord)
  | FieldError _ _ => bool_decide (s = DnsconfErrInvalid)
  | APIError _ _ (Some k) => bool_decide (s = k)
  | APIError _ _ None => false
  | StatusError st _ => (500 <=? st)%Z && bool_decide (s = RecursorErrUnavailable)
  | InjectedErr _ => false
  end.

(** An error of none of the sentinels but those listed. *)
Definition only_kinds (l : list sentinel) (e : error) : Prop := ∀ s, Is e s = true → s ∈ l.

Lemma only_kinds_not l e s : only_kinds l e → s ∉ l → Is e s = false.
Proof. intros H Hs. destruct (Is e s) eqn:E; [by apply H in E|done]. Qed.

(** [errors.As] into [*validate.RecordError] and into [*pdns.APIError]. *)
Fixpoint asRecordError (e : error) : option (str * str) :=
  match e with
  | RecordError f m => Some (f, m)
  | Wrapf e _ => asRecordError e
  | Wrap2 e1 e2 _ => match asRecordError e1 with Some r => Some r | None => asRecordError e2 end
  | _ => None
  end.

Fixpoint asAPIError (e : error) : option Z :=
  match e with
  | APIError st _ _ => Some st
  | Wrapf e _ => asAPIError e
  | Wrap2 e1 e2 _ => match asAPIError e1 with Some r => Some r | None => asAPIError e2 end
  | _ => None
  end.

(** [err.Error()]. *)
Fixpoint Error (e : error) : str :=
  match e with
  | New s => sentinel_text s
  | Plain t => t
  | Wrapf e t => Error e ++ ": " ++ t
  | Wrap2 e1 e2 t => Error e1 ++ ": " ++ Error e2 ++ (if bool_decide (t = []) then [] else ": " ++ t)
  | RecordError f m => "validate: invalid record: " ++ f ++ ": " ++ m
  | FieldError f m => f ++ ": " ++ m
  | APIError st m _ => if bool_decide (m = []) then "pdns: status " ++ Itoa st
                       else "pdns: status " ++ Itoa st ++ ": " ++ m
  | StatusError st m => "recursor: status " ++ Itoa st ++ ": " ++ m
  | InjectedErr m => "memstore: injected failure in " ++ m
  end.

(** ** Fallible results: [(value, error)] whose value is only used when the
    error is nil *)

Inductive res (A : Type) := Ok (a : A) | Err (e : error).
Arguments Ok {A} a.
Arguments Err {A} e.

#[global] Instance res_ret : MRet res := @Ok.
#[global] Instance res_bind : MBind res := λ A B f x, match x with Ok a => f a | Err e => Err e end.
#[global] Instance res_fmap : FMap res := λ A B f x, match x with Ok a => Ok (f a) | Err e => Err e end.

#[global] Instance res_eq_dec `{EqDecision A} : EqDecision (res A).
Proof. solve_decision. Defined.

(** The error of a result as Go's nilable [error]. *)
Definition err_of {A} (r : res A) : option error := match r with Ok _ => None | Err e => Some e end.

Definition is_ok {A} (r : res A) : bool := match r with Ok _ => true | Err _ => false end.

Lemma bind_Ok {A B} (r : res A) (f : A → res B) b :
  (r ≫= f) = Ok b ↔ ∃ a, r = Ok a ∧ f a = Ok b.
Proof. destruct r; simpl; naive_solver. Qed.

(** The errors a computation may return. *)
Definition fails_with {A} (l : list sentinel) (r : res A) : Prop := ∀ e, r = Err e → only_kinds l e.

Lemma fails_Ok {A} l (a : A) : fails_with l (Ok a).
Proof. by intros ? ?. Qed.
Lemma fails_Err {A} l e : only_kinds l e → @fails_with A l (Err e).
Proof. by intros ? ? [= <-]. Qed.
Lemma fails_bind {A B} l (r : res A) (f : A → res B) :
  fails_with l r → (∀ a, fails_with l (f a)) → fails_with l (r ≫= f).
Proof. intros Hr Hf e. destruct r as [a|e']; simpl; [apply Hf|]. intros [= <-]. by apply Hr. Qed.
Lemma kinds_Wrapf l e t : only_kinds l e → only_kinds l (Wrapf e t).
Proof. done. Qed.
Lemma kinds_New l s : s ∈ l → only_kinds l (New s).
Proof. intros Hs s' Hs'. simpl in Hs'. by apply bool_decide_eq_true in Hs' as ->. Qed.
Lemma kinds_Record l f m : ErrRecord ∈ l → only_kinds l (RecordError f m).
Proof. intros Hs s' Hs'. simpl in Hs'. by apply bool_decide_eq_true in Hs' as ->. Qed.
#[export] Hint Resolve fails_Ok fails_Err fails_bind kinds_Wrapf kinds_New kinds_Record : dns.

(** Reduce the binds and boolean tests of known arguments, nothing else. *)
Ltac res_simpl := cbn [mbind res_bind mret res_ret fmap res_fmap negb andb orb fst snd].

(** ** Calls to a component

    A component seen by its clients: its state has a view, and an operation of
    it either fails for a reason of its own ([fault]: the transport, the
    database), leaving the view as it was, or does what the specification on
    the view says.  [ok] is what the component needs of its state. *)
Definition faithful {S V A} (ok : S → Prop) (view : S → V) (fault : error → Prop)
    (op : S → res A * S) (core : V → res A * V) : Prop :=
  ∀ s r s', ok s → op s = (r, s') →
    ok s' ∧ ((∃ e, r = Err e ∧ fault e ∧ view s' = view s) ∨ core (view s) = (r, view s')).
