(* ===== verification/Codec.v ===== *)
(** * A codec for the concrete instances

    Every countable type has a text encoding that reads back; the concrete
    instances use it where the program uses [encoding/json]. *)
From Stdlib Require Import Ascii.
From S2P Require Import Prelude GoStrings GoError.

Module Codec.
Fixpoint digits (p : positive) : str :=
  match p with xH => ["."%char] | xO p => "0"%char :: digits p | xI p => "1"%char :: digits p end.
Fixpoint undigits (s : str) : option positive :=
  match s with
  | [] => None
  | c :: s =>
    if bool_decide (c = "."%char) then Some xH
    else if bool_decide (c = "0"%char) then xO <$> undigits s
    else xI <$> undigits s
  end.
Lemma undigits_digits p : undigits (digits p) = Some p.
Proof. induction p as [p IH|p IH|]; cbn [digits undigits]; [..|done]; case_bool_decide; try done; case_bool_decide; try done; by rewrite IH. Qed.

Definition marshal {A} `{Countable A} (a : A) : str := digits (encode a).
Definition unmarshal {A} `{Countable A} (s : str) : res A :=
  match p ← undigits s; decode p with Some a => Ok a | None => Err (Plain "bad text") end.
Lemma unmarshal_marshal {A} `{Countable A} (a : A) : unmarshal (marshal a) = Ok a.
Proof. unfold unmarshal, marshal. rewrite undigits_digits. cbn. by rewrite decode_encode. Qed.
Lemma marshal_nonempty {A} `{Countable A} (a : A) : marshal a ≠ [].
Proof. unfold marshal. by destruct (encode a). Qed.
End Codec.
