(* ===== verification/Store.v ===== *)
(** * The domain model ([internal/store/models.go], [lists.go])

    The rows the module keeps and the pure functions on them.  A [time.Time] is
    the integer of its instant, [0] standing for the zero time; a slice is a list
    (a nil slice and an empty one are told apart only where the code does). *)
From Stdlib Require Import Ascii.
From S2P Require Import Prelude GoStrings.
Local Open Scope Z_scope.

Abbreviation dot := ("."%char).

Module Store.

Definition time := Z.
Definition IsZero (t : time) : bool := t =? 0.

Definition KindNative : str := "native".
Definition KindMaster : str := "master".
Definition KindSlave : str := "slave".
Definition KindProducer : str := "producer".
Definition KindConsumer : str := "consumer".

Definition OriginManual : str := "manual".
Definition OriginIPAM : str := "ipam".

Definition SyncCreated : str := "created".
Definition SyncUpdated : str := "updated".
Definition SyncScanned : str := "scanned".
Definition SyncDeleted : str := "deleted".
Definition SyncReconciled : str := "reconciled".

Definition Kinds : list str := [KindNative; KindMaster; KindSlave; KindProducer; KindConsumer].

Fixpoint contains (l : list str) (v : str) : bool :=
  match l with
  | [] => false
  | x :: l => if bool_decide (x = v) then true else contains l v
  end.

Definition ValidKind (k : str) : bool := contains Kinds k.
Definition ValidOrigin (o : str) : bool := bool_decide (o = OriginManual) || bool_decide (o = OriginIPAM).
Definition ValidSyncEvent (e : str) : bool :=
  contains [SyncCreated; SyncUpdated; SyncScanned; SyncDeleted; SyncReconciled] e.
Definition NeedsMasters (k : str) : bool := bool_decide (k = KindSlave) || bool_decide (k = KindConsumer).

Definition PDNSKind `{Unicode} (k : str) : str :=
  if negb (ValidKind k) then [] else ToUpper (take 1 k) ++ drop 1 k.
Definition KindFromPDNS `{Unicode} (k : str) : str :=
  let k := ToLower k in if negb (ValidKind k) then [] else k.

(** A tenant-owned zone. *)
Record Zone := mkZone {
  ID : str;
  TenantID : str;
  Name : str;
  PDNSID : str;
  Kind : str;
  Masters : list str;
  DNSSEC : bool;
  Description : str;
  TemplateID : str;
  Origin : str;
  Nameservers : list str;
  CreatedBy : str;
  CreatedAt : time;
  UpdatedAt : time
}.

#[global] Instance Zone_eq_dec : EqDecision Zone.
Proof. solve_decision. Defined.

Record ZoneFilter := mkZoneFilter { FQuery : str; FKind : str; FOrigin : str }.

Definition Matches `{Unicode} (f : ZoneFilter) (z : Zone) : bool :=
  if negb (bool_decide (FKind f = [])) && negb (bool_decide (Kind z = FKind f)) then false
  else if negb (bool_decide (FOrigin f = [])) && negb (bool_decide (Origin z = FOrigin f)) then false
  else let q := ToLower (TrimSpace (FQuery f)) in
       if negb (bool_decide (q = [])) && negb (Contains (Name z) q) then false else true.

Definition InZone (name zone : str) : bool := bool_decide (name = zone) || HasSuffix name ("." ++ zone).

(** The loop of [LongestZone]: [best] is the current candidate. *)
Fixpoint longest_loop (p : Zone → bool) (zones : list Zone) (best : option Zone) : option Zone :=
  match zones with
  | [] => best
  | z :: zones =>
    let better := match best with
                  | None => true
                  | Some b => Z.of_nat (length (Name b)) <? Z.of_nat (length (Name z)) end in
    longest_loop p zones (if p z && better then Some z else best)
  end.

Definition LongestZone (zones : list Zone) (fqdn : str) : option Zone :=
  longest_loop (λ z, InZone fqdn (Name z)) zones None.

Record TemplateRecord := mkTemplateRecord {
  TName : str; TType : str; TTTL : Z; TContent : str; TPriority : Z
}.

Definition MaxTemplateRecords : Z := 200.

Record Template := mkTemplate {
  TplID : str; TplTenantID : str; TplName : str; TplDescription : str;
  TplRecords : list TemplateRecord; TplCreatedAt : time; TplUpdatedAt : time
}.

Record Supermaster := mkSupermaster {
  SmID : str; SmTenantID : str; SmIP : str; SmNameserver : str; SmCreatedBy : str; SmCreatedAt : time
}.

Record IPAMSync := mkIPAMSync {
  SyTenantID : str; SyIPAddressID : str; SyAddress : str; SyHostname : str;
  SyForwardZoneID : str; SyForwardName : str; SyForwardType : str;
  SyReverseZoneID : str; SyReverseName : str; SyLastEvent : str; SyUpdatedAt : time
}.

(** The platform's configuration row; the sections are JSON text. *)
Record ServerConfig := mkServerConfig {
  ScRecursor : str; ScAuthoritative : str; ScRecursorHash : str; ScAuthHash : str;
  ScUpdatedBy : str; ScUpdatedAt : time
}.

(** An audit detail value ([any] of a decoded JSON document; [AOther] stands for
    the numbers, booleans and typed values nothing inspects). *)
Inductive any :=
  | AStr (s : str)
  | AMap (m : list (str * any))
  | AList (l : list any)
  | AOther (tag : Z).

Record AuditRow := mkAuditRow {
  ArID : str; ArTenantID : str; ArAt : time; ArActorKind : str; ArActorID : str; ArAction : str;
  ArSubjectKind : str; ArSubjectID : str; ArOutcome : str; ArReason : str; ArDetail : list (str * any)
}.
Definition NilTenant : str := "00000000-0000-0000-0000-000000000000".

Record Challenge := mkChallenge {
  ChID : str; ChTenantID : str; ChZoneID : str; ChFQDN : str; ChValue : str;
  ChRequestedBy : str; ChCreatedAt : time
}.

(** ** Properties *)

Lemma contains_elem l v : contains l v = true ↔ v ∈ l.
Proof.
  induction l as [|x l IH]; simpl; [split; [done|by intros ?%elem_of_nil]|].
  case_bool_decide; rewrite elem_of_cons; naive_solver.
Qed.

(** [n] lies in [z] exactly when [.z] is a suffix of [.n]. *)
Lemma InZone_suffix n z : InZone n z = true ↔ (dot :: z) `suffix_of` (dot :: n).
Proof.
  unfold InZone. rewrite orb_true_iff, bool_decide_eq_true, HasSuffix_spec. split.
  - intros [->|[k ->]]; [done|]. by exists (dot :: k).
  - intros [[|c k] E]; simplify_eq/=; [by left|]. right. by exists k.
Qed.

Lemma InZone_refl z : InZone z z = true.
Proof. by apply InZone_suffix. Qed.

Lemma InZone_trans a b c : InZone a b = true → InZone b c = true → InZone a c = true.
Proof. rewrite !InZone_suffix. intros ??. by transitivity (dot :: b). Qed.

Lemma InZone_antisym a b : InZone a b = true → InZone b a = true → a = b.
Proof.
  rewrite !InZone_suffix. intros [k1 E1] [k2 E2]. rewrite E1 in E2.
  assert (length k1 = 0%nat) as ->%nil_length_inv.
  { apply (f_equal length) in E2. rewrite !length_app in E2. lia. }
  by simplify_eq/=.
Qed.

(** Two zones that contain the same name are nested. *)
Lemma InZone_nested n a b :
  InZone n a = true → InZone n b = true → InZone a b = true ∨ InZone b a = true.
Proof.
  rewrite !InZone_suffix. intros [k1 E1] [k2 E2]. rewrite E1 in E2.
  destruct (app_eq_inv _ _ _ _ E2) as [[k [-> ->]]|[k [-> ->]]].
  - right. by exists k.
  - left. by exists k.
Qed.

Lemma InZone_length n z : InZone n z = true → (length z ≤ length n)%nat.
Proof. rewrite InZone_suffix. intros ?%suffix_length. simpl in *. lia. Qed.

Lemma InZone_same_length n a b :
  InZone n a = true → InZone n b = true → length a = length b → a = b.
Proof.
  intros Ha Hb El. destruct (InZone_nested n a b) as [H|H]; [done..| |];
    apply InZone_suffix in H as [[|c k] E]; simplify_eq/=; try done;
    rewrite length_app in El; simpl in El; lia.
Qed.

Section Longest.
Context (p : Zone → bool).

Definition nlen (z : Zone) : Z := Z.of_nat (length (Name z)).

(** A candidate is only replaced by a longer zone. *)
Lemma longest_loop_mono zs b0 : ∃ b, longest_loop p zs (Some b0) = Some b ∧ nlen b0 ≤ nlen b.
Proof.
  revert b0. induction zs as [|z zs IH]; simpl; intros b0; [by exists b0|].
  fold (nlen b0) (nlen z). destruct (p z), (Z.ltb_spec (nlen b0) (nlen z)); simpl; auto.
  destruct (IH z) as (b & ? & ?). exists b. split; [done|lia].
Qed.

Lemma longest_loop_from zs best b :
  longest_loop p zs best = Some b → best = Some b ∨ (b ∈ zs ∧ p b = true).
Proof.
  revert best. induction zs as [|z zs IH]; simpl; intros best; [by left|].
  intros [E|[??]]%IH; [|right; set_solver].
  destruct (p z) eqn:Hp; simpl in E; [|by left].
  case_match; [|by left]. simplify_eq. right. set_solver.
Qed.

Lemma longest_loop_max zs best z :
  z ∈ zs → p z = true → ∃ b, longest_loop p zs best = Some b ∧ nlen z ≤ nlen b.
Proof.
  revert best. induction zs as [|y zs IH]; intros best; [by intros ?%elem_of_nil|].
  intros [->|Hz]%elem_of_cons Hp; simpl; [|by apply IH]. rewrite Hp; simpl.
  destruct best as [b0|]; [|apply longest_loop_mono].
  fold (nlen b0) (nlen y). destruct (Z.ltb_spec (nlen b0) (nlen y)); [apply longest_loop_mono|].
  destruct (longest_loop_mono zs b0) as (b & ? & ?). exists b. split; [done|lia].
Qed.
End Longest.

Lemma LongestZone_Some zs f b :
  LongestZone zs f = Some b →
  b ∈ zs ∧ InZone f (Name b) = true ∧ ∀ z, z ∈ zs → InZone f (Name z) = true → nlen z ≤ nlen b.
Proof.
  unfold LongestZone. intros H. destruct (longest_loop_from _ _ _ _ H) as [?|[??]]; [done|].
  repeat split; [done..|]. intros z Hz Hf.
  destruct (longest_loop_max (λ z, InZone f (Name z)) zs None z) as (b' & E & ?); [done..|]. simplify_eq. done.
Qed.

Lemma LongestZone_None zs f :
  LongestZone zs f = None ↔ Forall (λ z, InZone f (Name z) = false) zs.
Proof.
  rewrite Forall_forall. split.
  - intros H z Hz. apply not_true_iff_false. intros Hf.
    destruct (longest_loop_max (λ z, InZone f (Name z)) zs None z) as (b' & E & ?); [done..|].
    unfold LongestZone in H. simplify_eq.
  - intros H. destruct (LongestZone zs f) as [b|] eqn:E; [|done].
    apply LongestZone_Some in E as (Hb & Hf & _). rewrite H in Hf; done.
Qed.
End Store.

(** ** The lists ([internal/store/lists.go]) *)

Module Lists.
Record Field := mkField { FName : str; FExpr : str; FDesc : bool; FNotNull : bool }.
Record Spec := mkSpec { Fields : list Field; SDefault : str; TieBreak : str; DefaultSize : Z; MaxSize : Z }.
Definition C (e : str) : str := e ++ " COLLATE " ++ [chr 34] ++ "C" ++ [chr 34].
Definition ZoneList : Spec := mkSpec [mkField "name" (C "name") false true; mkField "kind" (C "kind") false true; mkField "updated_at" "updated_at" true true] "name" "id" 0 0.
Definition RecordList : Spec := mkSpec [mkField "name" "name" false false; mkField "type" "type" false false; mkField "ttl" "ttl" false false] "name" "name,type" 100 200.
Definition TemplateList : Spec := mkSpec [mkField "name" (C "lower(name)") false true] "name" "id" 0 0.
Definition SupermasterList : Spec := mkSpec [mkField "ip" "ip" false true; mkField "nameserver" (C "nameserver") false true] "ip" "id" 0 0.
End Lists.
