(* ===== verification/Names.v ===== *)
(** * Names ([internal/validate/names.go], the name half)

    Canonicalisation and validation of zone names, record owner names and host
    names.  [github.com/miekg/dns] and [golang.org/x/net/publicsuffix] are
    third-party packages: classes of functions, with the documented behaviour the
    code relies on as the laws [MiekgDNSLaws]. *)
From Stdlib Require Import Ascii.
From S2P Require Import Prelude GoStrings GoError Store.
Local Open Scope Z_scope.

Abbreviation backslash := ("\"%char).

(** ** The third-party packages *)

Class MiekgDNS := {
  Fqdn : str → str;
  SplitDomainName : str → list str;
  IsDomainName : str → bool
}.

(** What the package documents: [Fqdn] appends the missing final dot (a name
    ending in an escaped dot is not fully qualified); [SplitDomainName] is
    [strings.Split] on a name without escapes. *)
Class MiekgDNSLaws `{MiekgDNS} : Prop := {
  Fqdn_ext s : Fqdn s = s ∨ Fqdn s = s ++ ".";
  Fqdn_plain s : backslash ∉ s → Fqdn s = if HasSuffix s "." then s else s ++ ".";
  SplitDomainName_plain s :
    backslash ∉ s → s ≠ [] → SplitDomainName (s ++ ".") = SplitByte dot s
}.

Class PublicSuffixList := {
  PublicSuffix : str → str;
  EffectiveTLDPlusOne : str → option str
}.

(** The functions on names without escapes, for evaluation. *)
Definition miekg_plain : MiekgDNS := {|
  Fqdn := λ s, if HasSuffix s "." then s else s ++ ".";
  SplitDomainName := λ s, if bool_decide (s = ".") then [] else SplitByte dot (TrimSuffix s ".");
  IsDomainName := λ s, Z.of_nat (length s) <=? 254
|}.

Lemma miekg_plain_laws : @MiekgDNSLaws miekg_plain.
Proof.
  split; simpl.
  - intros s. case_match; auto.
  - done.
  - intros s _ Hs. rewrite bool_decide_false, TrimSuffix_app; [done|].
    intros E%(app_inj_tail s []); naive_solver.
Qed.

(** Top-level labels are the public suffixes. *)
Definition psl_tld : PublicSuffixList := {|
  PublicSuffix := λ s, default [] (last (SplitByte dot s));
  EffectiveTLDPlusOne := λ s,
    match reverse (SplitByte dot s) with
    | tld :: sld :: _ => Some (sld ++ dot :: tld)
    | _ => None
    end
|}.

Module Validate.

Definition maxName : Z := 253.
Definition maxLabel : Z := 63.
Definition v4Suffix : str := "in-addr.arpa.".
Definition v6Suffix : str := "ip6.arpa.".

Definition nameErr (text : str) : error := Wrapf (New ErrName) text.

Abbreviation hyphen := ("-"%char).

(** The bytes of a label: [a-z0-9-], and [_] where allowed. *)
Definition label_byte (underscore : bool) (c : ascii) : bool :=
  ((97 <=? code c) && (code c <=? 122)) || digit c || bool_decide (c = hyphen)
  || (bool_decide (c = "_"%char) && underscore).

Definition labelOK (l : str) (underscore : bool) : bool :=
  if bool_decide (l = []) || (maxLabel <? Z.of_nat (length l))
     || bool_decide (head l = Some hyphen) || bool_decide (last l = Some hyphen)
  then false
  else forallb (label_byte underscore) l.

Section Names.
Context {U : Unicode} {DNS : MiekgDNS} {PSL : PublicSuffixList}.

Definition split (s : str) : res (str * list str) :=
  let s := ToLower (TrimSpace s) in
  if negb (forallb printable s)
  then Err (nameErr "only printable ASCII is allowed (use A-labels for IDNs)")
  else if bool_decide (s = [] ∨ s = ".") then Err (nameErr "the root is not allowed")
  else
    let fq := Fqdn s in
    if HasPrefix fq "." || Contains fq ".." || bool_decide (backslash ∈ fq)
    then Err (nameErr "empty label")
    else if maxName <? Z.of_nat (length fq) - 1
    then Err (nameErr ("longer than " ++ Itoa maxName ++ " octets"))
    else Ok (fq, SplitDomainName fq).

(** The loop over the labels of a zone: [_] is allowed except in the first. *)
Fixpoint zone_labels (i : nat) (labels : list str) : res unit :=
  match labels with
  | [] => Ok ()
  | l :: ls =>
    if negb (labelOK l (bool_decide (0 < i)%nat))
    then Err (nameErr ("label " ++ goquote l ++ " is not a valid zone label"))
    else zone_labels (S i) ls
  end.

Definition canonicalZone (s : str) : res str :=
  '(fq, labels) ← split s; _ ← zone_labels 0 labels; Ok fq.

Definition IsReverse (zone : str) : bool :=
  HasSuffix zone ("." ++ v4Suffix) || HasSuffix zone ("." ++ v6Suffix).

Definition octetOK (l : str) : bool :=
  match Atoi l with
  | Some n => negb ((n <? 0) || (255 <? n) || negb (bool_decide (Itoa n = l)))
  | None => false
  end.
Definition nibbleOK (l : str) : bool :=
  negb (negb (bool_decide (length l = 1%nat)) || negb (Contains "0123456789abcdef" l)).

Definition reverseOK (zone : str) : bool :=
  if HasSuffix zone ("." ++ v4Suffix) then
    let labels := SplitByte dot (TrimSuffix zone ("." ++ v4Suffix)) in
    if (4 <? Z.of_nat (length labels)) then false else forallb octetOK labels
  else
    let labels := SplitByte dot (TrimSuffix zone ("." ++ v6Suffix)) in
    if (32 <? Z.of_nat (length labels)) then false else forallb nibbleOK labels.

Definition ZoneName (s : str) : res str :=
  z ← canonicalZone s;
  if IsReverse z then
    if negb (reverseOK z) then Err (nameErr (goquote z ++ " is not a valid reverse zone")) else Ok z
  else
    let bare := TrimSuffix z "." in
    if bool_decide (PublicSuffix bare = bare)
    then Err (Wrap2 (New ErrName) (New ErrPublicSuffix) (goquote z ++ " cannot be claimed as a zone"))
    else Ok z.

(** The loop over the labels of an owner name: [*] only as the first. *)
Fixpoint record_labels (i : nat) (labels : list str) : res unit :=
  match labels with
  | [] => Ok ()
  | l :: ls =>
    if bool_decide (l = "*" ∧ i = 0%nat) then record_labels (S i) ls
    else if negb (labelOK l true) then Err (nameErr ("label " ++ goquote l ++ " is not valid"))
    else record_labels (S i) ls
  end.

Definition RecordName (zone name : str) : res str :=
  z ← canonicalZone zone;
  let n := TrimSpace name in
  if bool_decide (n = [] ∨ n = "@") then Ok z else
  if negb (HasSuffix n ".") && HasPrefix n "." then Err (nameErr "empty label") else
  let n := if negb (HasSuffix n ".") then n ++ "." ++ z else n in
  '(fq, labels) ← split n;
  _ ← record_labels 0 labels;
  if negb (bool_decide (fq = z)) && negb (HasSuffix fq ("." ++ z))
  then Err (nameErr (goquote fq ++ " is outside the zone " ++ goquote z))
  else Ok fq.

Fixpoint host_labels (labels : list str) : res unit :=
  match labels with
  | [] => Ok ()
  | l :: ls =>
    if negb (labelOK l false) then Err (nameErr ("label " ++ goquote l ++ " is not a valid host label"))
    else host_labels ls
  end.

Definition Hostname (s : str) : res str :=
  '(fq, labels) ← split s;
  if (Z.of_nat (length labels) <? 2)
  then Err (nameErr (goquote fq ++ " is not a fully qualified host name"))
  else
    _ ← host_labels labels;
    match Atoi (default [] (last labels)) with
    | Some _ => Err (nameErr (goquote fq ++ " looks like an IP address"))
    | None => Ok fq
    end.
End Names.

(** Every refusal is an [ErrName]. *)
Section Errors.
Context {U : Unicode} {DNS : MiekgDNS}.

Lemma nameErr_kinds l text : ErrName ∈ l → only_kinds l (nameErr text).
Proof. unfold nameErr. auto with dns. Qed.
#[local] Hint Resolve nameErr_kinds : dns.

Lemma split_err l s : ErrName ∈ l → fails_with l (split s).
Proof. intros. unfold split. repeat case_match; auto with dns. Qed.
Lemma zone_labels_err l i ls : ErrName ∈ l → fails_with l (zone_labels i ls).
Proof. intros. revert i. induction ls; intros; simpl; [|case_match]; auto with dns. Qed.
Lemma record_labels_err l i ls : ErrName ∈ l → fails_with l (record_labels i ls).
Proof. intros. revert i. induction ls; intros; simpl; repeat case_match; auto with dns. Qed.
#[local] Hint Resolve split_err zone_labels_err record_labels_err : dns.

Lemma canonicalZone_err l s : ErrName ∈ l → fails_with l (canonicalZone s).
Proof. intros. apply fails_bind; [auto with dns|]. intros [fq ls]. auto with dns. Qed.
#[local] Hint Resolve canonicalZone_err : dns.

Lemma RecordName_err l zone name : ErrName ∈ l → fails_with l (RecordName zone name).
Proof.
  intros. apply fails_bind; [auto with dns|]. intros z. cbv zeta. do 2 (case_if as E; [auto with dns|clear E]).
  apply fails_bind; [auto with dns|]. intros [fq ls]. apply fails_bind; [auto with dns|]. intros _.
  case_match; auto with dns.
Qed.
End Errors.

(** ** What a canonical name is *)

(** The bytes of a name the parsers keep as they are. *)
Definition name_byte (c : ascii) : bool :=
  printable c && negb ((65 <=? code c) && (code c <=? 90))
  && negb (bool_decide (c = dot)) && negb (bool_decide (c = backslash)).

(** A label as RFC 1035 presentation form has it: 1–63 octets of
    [[a-z0-9_-]], no hyphen at either end. *)
Definition label_wf (l : str) : Prop :=
  (1 ≤ length l ≤ 63)%nat
  ∧ (∀ c, c ∈ l → c ∈ ("abcdefghijklmnopqrstuvwxyz0123456789-_" : str))
  ∧ head l ≠ Some hyphen ∧ last l ≠ Some hyphen.

(** A canonical name: labels joined by dots with one final dot, at most 253
    octets without it. *)
Definition dotted (ls : list str) : str := Join ls "." ++ ".".
Definition name_of (P : list str → Prop) (z : str) : Prop :=
  ∃ ls, ls ≠ [] ∧ z = dotted ls ∧ (length z ≤ 254)%nat ∧ P ls.

Definition zone_form : str → Prop :=
  name_of (λ ls, Forall label_wf ls ∧ ∀ l, head ls = Some l → "_"%char ∉ l).
Definition owner_form : str → Prop :=
  name_of (λ ls, ∃ l rest, ls = l :: rest ∧ (l = "*" ∨ label_wf l) ∧ Forall label_wf rest).

Lemma label_byte_mono u c : label_byte u c = true → label_byte true c = true.
Proof. unfold label_byte. destruct u; [done|]. rewrite andb_false_r, orb_false_r. by intros ->. Qed.

Lemma label_byte_name u c : label_byte u c = true → name_byte c = true.
Proof.
  intros H%label_byte_mono.
  assert (E : implb (label_byte true c) (name_byte c) = true) by (clear; revert c; by_bytes).
  by rewrite H in E.
Qed.

Lemma label_byte_set c :
  label_byte true c = true → c ∈ ("abcdefghijklmnopqrstuvwxyz0123456789-_" : str).
Proof.
  intros H. assert (E : implb (label_byte true c)
    (bool_decide (c ∈ ("abcdefghijklmnopqrstuvwxyz0123456789-_" : str))) = true) by (clear; revert c; by_bytes).
  rewrite H in E. by apply bool_decide_eq_true in E.
Qed.

Lemma labelOK_spec l u :
  labelOK l u = true →
  label_wf l ∧ Forall (λ c, name_byte c = true) l ∧ (u = false → "_"%char ∉ l).
Proof.
  unfold labelOK. case_match eqn:E; [done|]. b2p. intros Hl. apply forallb_Forall in Hl.
  repeat split; [..|done|done| |].
  - destruct l; simpl in *; [done|lia].
  - unfold maxLabel in *. lia.
  - intros c Hc. rewrite Forall_forall in Hl. eauto using label_byte_set, label_byte_mono.
  - eapply Forall_impl; [done|]. intros c. apply label_byte_name.
  - intros -> Hin. rewrite Forall_forall in Hl. by apply Hl in Hin.
Qed.

Lemma labelOK_mono l u : labelOK l u = true → labelOK l true = true.
Proof.
  unfold labelOK. case_match; [done|]. rewrite !forallb_Forall.
  intros. eapply Forall_impl; [done|]. intros c. apply label_byte_mono.
Qed.

Lemma name_byte_dot l : Forall (λ c, name_byte c = true) l → (dot ∉ l) ∧ (backslash ∉ l).
Proof. rewrite Forall_forall. intros H. by split; intros ?%H. Qed.

(** ** Joined labels *)

Lemma elem_of_dotted ls c : c ∈ dotted ls → c = dot ∨ ∃ l, l ∈ ls ∧ c ∈ l.
Proof.
  unfold dotted. rewrite elem_of_app. intros [H|H]; [|left; set_solver].
  induction ls as [|l ls IH]; [by apply elem_of_nil in H|].
  destruct ls as [|l' ls]; [right; exists l; set_solver|].
  change (Join (l :: l' :: ls) ".") with (l ++ "." ++ Join (l' :: ls) ".") in H.
  rewrite !elem_of_app in H. destruct H as [H|[H|H]].
  - right. exists l. set_solver.
  - left. set_solver.
  - destruct (IH H) as [?|(m & ? & ?)]; [by left|right]. exists m. set_solver.
Qed.

Lemma dotted_cons l ls : ls ≠ [] → dotted (l :: ls) = l ++ dot :: dotted ls.
Proof.
  destruct ls as [|l' ls]; [done|]. intros _. unfold dotted.
  change (Join (l :: l' :: ls) ".") with (l ++ dot :: Join (l' :: ls) ".").
  by rewrite <-app_assoc.
Qed.

Lemma Contains_skip l s : dot ∉ l → Contains (l ++ s) ".." = Contains s "..".
Proof.
  induction l as [|c l IH]; [done|]. intros [Hc Hl]%not_elem_of_cons. simpl. rewrite IH by done.
  unfold HasPrefix. rewrite bool_decide_false; [done|]. intros [k Hk]. unlit Hk. congruence.
Qed.

Lemma Contains_dot c s : c ≠ dot → Contains (dot :: c :: s) ".." = Contains (c :: s) "..".
Proof.
  intros Hc. change (Contains (dot :: c :: s) "..") with
    (HasPrefix (dot :: c :: s) ".." || Contains (c :: s) "..").
  unfold HasPrefix. rewrite bool_decide_false; [done|]. intros [k Hk]. unlit Hk. congruence.
Qed.

Lemma dotted_no_empty ls :
  ls ≠ [] → Forall (λ l, l ≠ [] ∧ dot ∉ l) ls → Contains (dotted ls) ".." = false.
Proof.
  intros Hne H. induction H as [|l ls [Hl Hd] Hls IH]; [done|].
  destruct ls as [|l' ls]; [unfold dotted; simpl; by rewrite Contains_skip|].
  rewrite dotted_cons, Contains_skip by done. specialize (IH ltac:(done)).
  apply Forall_inv in Hls as [Hl' Hd']. destruct l' as [|c l']; [done|].
  assert (∃ t, dotted ((c :: l') :: ls) = c :: t) as [t Et] by (destruct ls; eexists; reflexivity).
  rewrite Et in *. rewrite Contains_dot by set_solver. done.
Qed.

Lemma SplitByte_dotted ls :
  ls ≠ [] → Forall (λ l, dot ∉ l) ls → SplitByte dot (Join ls ".") = ls.
Proof. apply (SplitByte_Join dot). Qed.

Lemma Join_nonnil ls l : head ls = Some l → l ≠ [] → Join ls "." ≠ [].
Proof. destruct ls as [|w [|w' ls]]; simpl; intros; simplify_eq; [done|]. destruct l; done. Qed.

(** ** Correctness of the parsers *)

(** The bytes of a canonical name are kept by lower-casing and trimming. *)
Lemma dotted_bytes ls :
  Forall (λ l, Forall (λ c, name_byte c = true) l) ls →
  ∀ c, c ∈ dotted ls → printable c = true ∧ lower_byte c = c ∧ code c < 128 ∧ c ≠ backslash.
Proof.
  intros Hls c [->|(l & Hl & Hcl)]%elem_of_dotted; [done|].
  rewrite Forall_forall in Hls. apply Hls in Hl. rewrite Forall_forall in Hl.
  apply Hl in Hcl. assert (E : implb (name_byte c) (printable c && bool_decide (lower_byte c = c)
    && (code c <? 128) && bool_decide (c ≠ backslash)) = true) by (clear; revert c; by_bytes).
  rewrite Hcl in E. simpl in E. b2p. naive_solver.
Qed.

Lemma dotted_lower `{Unicode} ls : Forall (λ l, Forall (λ c, name_byte c = true) l) ls → ToLower (dotted ls) = dotted ls.
Proof.
  intros Hls. pose proof (dotted_bytes ls Hls) as Hc.
  rewrite ToLower_ascii by (apply forallb_Forall, Forall_forall; intros c ?%Hc; apply Z.ltb_lt; naive_solver).
  by rewrite map_id_Forall by (apply Forall_forall; intros c ?%Hc; naive_solver).
Qed.

Lemma label_wf_bytes l : label_wf l → Forall (λ c, name_byte c = true) l.
Proof.
  intros (_ & H & _). apply Forall_forall. intros c Hc%H.
  assert (E : implb (bool_decide (c ∈ ("abcdefghijklmnopqrstuvwxyz0123456789-_" : str))) (name_byte c) = true)
    by (clear; revert c; by_bytes).
  by rewrite bool_decide_eq_true_2 in E.
Qed.

Lemma owner_form_bytes n c : owner_form n → c ∈ n → printable c = true ∧ lower_byte c = c ∧ code c < 128.
Proof.
  intros (ls & _ & -> & _ & l & ls' & -> & Hl & Hls') Hc.
  assert (Hb : Forall (λ l, Forall (λ c, name_byte c = true) l) (l :: ls')).
  { constructor; [destruct Hl as [->|Hl]; [by repeat constructor|by apply label_wf_bytes]|].
    eapply Forall_impl; [exact Hls'|]. apply label_wf_bytes. }
  destruct (dotted_bytes _ Hb c Hc) as (? & ? & ? & _). done.
Qed.

(** A canonical owner name is lower-case ASCII. *)
Lemma owner_form_lower n : owner_form n → isASCII n = true ∧ map lower_byte n = n.
Proof.
  intros Ho. split.
  - apply forallb_Forall, Forall_forall. intros c Hc. apply Z.ltb_lt. by eapply owner_form_bytes.
  - apply map_id_Forall, Forall_forall. intros c Hc. by eapply owner_form_bytes.
Qed.

Section Facts.
Context {U : Unicode} {DNS : MiekgDNS} {PSL : PublicSuffixList} {LAWS : MiekgDNSLaws}.

(** [split] returns a dotted name of at most 254 octets and its labels. *)
Lemma split_Ok s fq ls :
  split s = Ok (fq, ls) →
  ls ≠ [] ∧ Forall (λ l, dot ∉ l) ls ∧ fq = dotted ls ∧ (length fq ≤ 254)%nat.
Proof.
  unfold split. set (t := ToLower (TrimSpace s)). intros Hs. go_cases. b2p.
  assert (Hb : backslash ∉ t) by (destruct (Fqdn_ext t) as [E|E]; rewrite E in *; set_solver).
  assert (∃ body, Fqdn t = body ++ ".") as [body Eb].
  { rewrite Fqdn_plain by done. case_match eqn:E; [|by exists t]. by apply HasSuffix_spec in E. }
  assert (Hbody : body ≠ []).
  { intros ->. rewrite Eb in *. simpl in *. unfold HasPrefix in *. by rewrite bool_decide_eq_false in *. }
  rewrite Eb, SplitDomainName_plain by (done || rewrite Eb in *; set_solver).
  split; [apply SplitByte_nonnil|]. split; [apply SplitByte_no_sep|].
  split; [unfold dotted; f_equal; symmetry; apply (Join_SplitByte dot)|].
  rewrite Eb in *. unfold maxName in *. lia.
Qed.

(** Canonical names are fixed by [split]. *)
Lemma split_dotted ls :
  ls ≠ [] → Forall (λ l, l ≠ [] ∧ Forall (λ c, name_byte c = true) l) ls →
  (length (dotted ls) ≤ 254)%nat → split (dotted ls) = Ok (dotted ls, ls).
Proof.
  intros Hne Hls Hlen.
  assert (Hd : Forall (λ l, l ≠ [] ∧ dot ∉ l) ls).
  { eapply Forall_impl; [done|]. intros l [? ?%name_byte_dot]. naive_solver. }
  pose proof (dotted_bytes ls ltac:(eapply Forall_impl; [exact Hls|]; naive_solver)) as Hc.
  assert (Hbs : backslash ∉ dotted ls) by (intros ?%Hc; naive_solver).
  destruct ls as [|l ls]; [done|]. set (z := dotted (l :: ls)) in *.
  assert (Hhd : ∃ c t, z = c :: t ∧ c ≠ dot).
  { apply Forall_inv in Hd as [? Hd]. destruct l as [|c l]; [done|]. exists c.
    destruct ls; eexists; (split; [reflexivity|set_solver]). }
  unfold split. rewrite TrimSpace_printable by (apply Forall_forall; intros c ?%Hc; naive_solver).
  rewrite ToLower_ascii by (apply forallb_Forall, Forall_forall; intros c ?%Hc; apply Z.ltb_lt; naive_solver).
  rewrite map_id_Forall by (apply Forall_forall; intros c ?%Hc; naive_solver).
  replace (forallb printable z) with true
    by (symmetry; apply forallb_Forall, Forall_forall; intros c ?%Hc; naive_solver).
  destruct Hhd as (c & t & Ez & Hcd). simpl. rewrite bool_decide_false; cycle 1.
  { rewrite Ez. intros [E|E]; [done|]. unlit E. congruence. }
  rewrite Fqdn_plain by done. replace (HasSuffix z ".") with true by (symmetry; apply HasSuffix_app).
  replace (HasPrefix z ".") with false; cycle 1.
  { symmetry. apply bool_decide_eq_false. rewrite Ez. intros [k E]. unlit E. congruence. }
  replace (Contains z "..") with false by (symmetry; by apply dotted_no_empty).
  rewrite bool_decide_false by done. simpl.
  rewrite (proj2 (Z.ltb_ge _ _)) by (unfold maxName; lia).
  do 2 f_equal. unfold z, dotted. rewrite SplitDomainName_plain.
  - apply SplitByte_dotted; [done|]. eapply Forall_impl; [done|]. naive_solver.
  - unfold z, dotted in Hbs. set_solver.
  - apply Forall_inv in Hd as [? _]. by eapply Join_nonnil.
Qed.

Lemma zone_labels_Ok i ls :
  zone_labels i ls = Ok () ↔ ∀ j l, ls !! j = Some l → labelOK l (bool_decide (0 < i + j)%nat) = true.
Proof.
  revert i. induction ls as [|l ls IH]; intros i; simpl; [done|].
  case_match eqn:E; b2p.
  - split; [done|]. intros Hall. specialize (Hall 0%nat l eq_refl). rewrite Nat.add_0_r in Hall. congruence.
  - rewrite IH. split; intros Hall j l' Hj.
    + destruct j as [|j]; [simplify_eq/=; by rewrite Nat.add_0_r|].
      specialize (Hall j l' Hj). by rewrite bool_decide_true in * by lia.
    + specialize (Hall (S j) l' Hj). by rewrite bool_decide_true in * by lia.
Qed.

Lemma record_labels_Ok ls :
  record_labels 0 ls = Ok () ↔
  ∀ j (l : str), ls !! j = Some l → (l = "*" ∧ j = 0%nat) ∨ labelOK l true = true.
Proof.
  assert (Hgen : ∀ i, record_labels i ls = Ok () ↔
    ∀ j (l : str), ls !! j = Some l → (l = "*" ∧ (i + j = 0)%nat) ∨ labelOK l true = true); [|by rewrite Hgen].
  induction ls as [|l ls IH]; intros i; simpl; [done|].
  assert (Hstep : ∀ P, (P ↔ (l = "*" ∧ i = 0%nat) ∨ labelOK l true = true) →
    (P ∧ record_labels (S i) ls = Ok ()) ↔
    ∀ j (l' : str), (l :: ls) !! j = Some l' → (l' = "*" ∧ (i + j = 0)%nat) ∨ labelOK l' true = true).
  { intros P HP. rewrite HP, IH. split.
    - intros [Hl Hall] [|j] l' Hj; simplify_eq/=; [by rewrite Nat.add_0_r|].
      rewrite <-Nat.add_succ_comm. eauto.
    - intros Hall. split; [specialize (Hall 0%nat l eq_refl); by rewrite Nat.add_0_r in Hall|].
      intros j l' Hj. rewrite Nat.add_succ_comm. by apply Hall. }
  case_bool_decide; [rewrite <-(Hstep True); tauto|].
  destruct (labelOK l true) eqn:E; simpl; [rewrite <-(Hstep True); tauto|].
  split; [done|]. intros Hall. apply (proj2 (Hstep False ltac:(naive_solver))) in Hall. tauto.
Qed.

Lemma host_labels_Ok ls : host_labels ls = Ok () ↔ Forall (λ l, labelOK l false = true) ls.
Proof.
  induction ls as [|l ls IH]; simpl; [naive_solver|]. rewrite Forall_cons.
  destruct (labelOK l false); simpl; naive_solver.
Qed.

Lemma star_name_byte : Forall (λ c, name_byte c = true) "*".
Proof. by repeat constructor. Qed.

(** Labels accepted by one of the loops are kept by [split]. *)
Lemma record_labels_bytes ls :
  record_labels 0 ls = Ok () → Forall (λ l, l ≠ [] ∧ Forall (λ c, name_byte c = true) l) ls.
Proof.
  rewrite record_labels_Ok. intros Hall. apply Forall_lookup. intros j l Hj.
  destruct (Hall j l Hj) as [[-> _]|Hl]; [split; [done|apply star_name_byte]|].
  apply labelOK_spec in Hl as ((? & _) & ? & _). split; [|done]. intros ->. simpl in *. lia.
Qed.

Lemma zone_record_labels ls : zone_labels 0 ls = Ok () → record_labels 0 ls = Ok ().
Proof. rewrite zone_labels_Ok, record_labels_Ok. eauto using labelOK_mono. Qed.

Lemma host_zone_labels ls : host_labels ls = Ok () → zone_labels 0 ls = Ok ().
Proof.
  rewrite zone_labels_Ok, host_labels_Ok, Forall_lookup. intros Hall j l Hj.
  case_bool_decide; eauto using labelOK_mono.
Qed.

Lemma canonicalZone_inv s z :
  canonicalZone s = Ok z →
  ∃ ls, ls ≠ [] ∧ z = dotted ls ∧ (length z ≤ 254)%nat ∧ zone_labels 0 ls = Ok () ∧ split z = Ok (z, ls).
Proof.
  unfold canonicalZone. intros ([fq ls] & Hs & [[] [Hl [= ->]]]%bind_Ok)%bind_Ok.
  apply split_Ok in Hs as (? & ? & -> & ?). exists ls. repeat split; [done..|].
  apply split_dotted; [done| |done]. by apply record_labels_bytes, zone_record_labels.
Qed.

Lemma canonicalZone_idem s z : canonicalZone s = Ok z → canonicalZone z = Ok z.
Proof.
  intros (ls & _ & _ & _ & Hl & Hs)%canonicalZone_inv. unfold canonicalZone. rewrite Hs; simpl. by rewrite Hl.
Qed.

Lemma canonicalZone_lower s z : canonicalZone s = Ok z → ToLower z = z.
Proof.
  intros (ls & _ & -> & _ & Hl & _)%canonicalZone_inv. apply dotted_lower.
  apply zone_record_labels, record_labels_bytes in Hl. eapply Forall_impl; [exact Hl|]. naive_solver.
Qed.

Lemma zone_labels_wf ls :
  zone_labels 0 ls = Ok () → Forall label_wf ls ∧ ∀ l, head ls = Some l → "_"%char ∉ l.
Proof.
  rewrite zone_labels_Ok. intros Hall. split.
  - apply Forall_lookup. intros j l Hj. by apply Hall, labelOK_spec in Hj as [? _].
  - intros l Hl. destruct ls as [|l' ls]; simplify_eq/=.
    specialize (Hall 0%nat l eq_refl). apply labelOK_spec in Hall as (_ & _ & Hu). by apply Hu.
Qed.

Lemma canonicalZone_form s z : canonicalZone s = Ok z → zone_form z.
Proof.
  intros (ls & ? & ? & ? & Hl & _)%canonicalZone_inv. exists ls. eauto using zone_labels_wf.
Qed.

Lemma ZoneName_canonical s z : ZoneName s = Ok z → canonicalZone s = Ok z.
Proof. unfold ZoneName. intros (z' & Hz & H)%bind_Ok. by go_cases. Qed.
Lemma ZoneName_idem s z : ZoneName s = Ok z → ZoneName z = Ok z.
Proof.
  intros H. pose proof (ZoneName_canonical _ _ H) as Hc. unfold ZoneName in *. rewrite Hc in H.
  rewrite (canonicalZone_idem _ _ Hc). simpl in *. go_cases; b2p; done.
Qed.

(** An accepted zone name is canonical — lower-case labels of
    1–63 octets of [[a-z0-9_-]] without hyphens at their ends, no underscore in
    the first, exactly one final dot, at most 253 octets — it is a fixed point of
    the validation, and it is either a reverse zone that passed the reverse rules
    or a name that is not itself a public suffix. *)
Theorem ZoneName_spec s z :
  ZoneName s = Ok z →
  zone_form z ∧ ZoneName z = Ok z ∧
  (if IsReverse z then reverseOK z = true else PublicSuffix (TrimSuffix z ".") ≠ TrimSuffix z ".").
Proof.
  intros H. pose proof (ZoneName_canonical _ _ H) as Hc. split; [by eapply canonicalZone_form|].
  split; [by eapply ZoneName_idem|]. unfold ZoneName in H. rewrite Hc in H. simpl in H. go_cases; b2p; done.
Qed.

Lemma RecordName_inv zone name n :
  RecordName zone name = Ok n →
  ∃ z, canonicalZone zone = Ok z ∧ Store.InZone n z = true ∧ owner_form n ∧ RecordName z n = Ok n.
Proof.
  unfold RecordName at 1. intros (z & Hz & H)%bind_Ok. exists z. split; [done|].
  assert (Hn : Store.InZone n z = true ∧ ∃ ls, split n = Ok (n, ls) ∧ record_labels 0 ls = Ok ()
               ∧ ls ≠ [] ∧ n = dotted ls ∧ (length n ≤ 254)%nat).
  { case_bool_decide.
    - simplify_eq. split; [apply Store.InZone_refl|].
      apply canonicalZone_inv in Hz as (ls & ? & ? & ? & ? & ?). eauto 10 using zone_record_labels.
    - case_match; [done|]. apply bind_Ok in H as ([fq ls] & Hs & [[] [Hl H]]%bind_Ok).
      case_match eqn:E; simplify_eq. split.
      + unfold Store.InZone. destruct (bool_decide (n = z)); [done|]. by simpl in *; b2p.
      + apply split_Ok in Hs as (? & ? & -> & ?). exists ls. repeat split; [|done..].
        apply split_dotted; [done| |done]. by apply record_labels_bytes. }
  clear H. destruct Hn as (Hin & ls & Hs & Hl & Hne & Hd & Hlen). split; [done|]. split.
  - exists ls. repeat split; [done..|]. destruct ls as [|l ls]; [done|]. exists l, ls.
    rewrite record_labels_Ok in Hl. split; [done|]. split.
    + destruct (Hl 0%nat l eq_refl) as [[-> _]|[? _]%labelOK_spec]; auto.
    + apply Forall_lookup. intros j l' Hj. by destruct (Hl (S j) l' Hj) as [[_ ?]|[? _]%labelOK_spec].
  - unfold RecordName. rewrite (canonicalZone_idem _ _ Hz); res_simpl.
    assert (Hp : Forall (λ c, printable c = true) n).
    { apply Forall_forall. intros c Hc. rewrite Hd in Hc. apply elem_of_dotted in Hc as [->|(l & Hll & Hcl)]; [done|].
      apply record_labels_bytes in Hl. rewrite Forall_forall in Hl. apply Hl in Hll as [_ Hll].
      rewrite Forall_forall in Hll. apply Hll in Hcl. unfold name_byte in Hcl. by b2p. }
    rewrite TrimSpace_printable by done. rewrite bool_decide_false; cycle 1.
    { intros E. assert (El : last n = Some dot) by (rewrite Hd; apply last_snoc).
      destruct E as [-> | ->]; unlit El; done. }
    replace (HasSuffix n ".") with true by (rewrite Hd; symmetry; apply HasSuffix_app).
    res_simpl. rewrite Hs; res_simpl. rewrite Hl; res_simpl. unfold Store.InZone in Hin.
    destruct (bool_decide (n = z)), (HasSuffix n ("." ++ z)); done.
Qed.

(** Qualifying only depends on the canonical zone. *)
Lemma RecordName_zone zone z name : canonicalZone zone = Ok z → RecordName zone name = RecordName z name.
Proof. intros Hz. unfold RecordName. by rewrite Hz, (canonicalZone_idem _ _ Hz). Qed.

(** An accepted owner name lies in the canonical zone, is canonical
    (a [*] only as the whole first label, underscores anywhere) and is a fixed
    point: qualifying it again, against the canonical zone, changes nothing. *)
Theorem RecordName_spec zone name n :
  RecordName zone name = Ok n →
  ∃ z, canonicalZone zone = Ok z ∧ Store.InZone n z = true ∧ owner_form n ∧ RecordName z n = Ok n.
Proof. apply RecordName_inv. Qed.

Lemma Hostname_inv s h :
  Hostname s = Ok h →
  ∃ ls, split h = Ok (h, ls) ∧ h = dotted ls ∧ (2 ≤ length ls)%nat ∧ (length h ≤ 254)%nat ∧
        host_labels ls = Ok () ∧ Atoi (default [] (last ls)) = None.
Proof.
  unfold Hostname. intros ([fq ls] & Hs & H)%bind_Ok. case_match; [done|]. b2p.
  apply bind_Ok in H as ([] & Hl & H). case_match; simplify_eq.
  apply split_Ok in Hs as (? & ? & -> & ?). exists ls. repeat split; [|lia|done..].
  apply split_dotted; [done| |done]. by apply record_labels_bytes, zone_record_labels, host_zone_labels.
Qed.

(** An accepted host name is canonical: at least two labels without
    underscores, the last not a number, and a fixed point of the validation.  It
    is also a valid zone name syntactically. *)
Theorem Hostname_spec s h :
  Hostname s = Ok h →
  name_of (λ ls, Forall (λ l, label_wf l ∧ "_"%char ∉ l) ls ∧ (2 ≤ length ls)%nat
                 ∧ Atoi (default [] (last ls)) = None) h
  ∧ Hostname h = Ok h ∧ canonicalZone h = Ok h.
Proof.
  intros (ls & Hs & Hd & Hlen & ? & Hl & Ha)%Hostname_inv. split; [|split].
  - exists ls. split; [intros ->; simpl in *; lia|]. do 2 (split; [done|]). split; [|done].
    apply host_labels_Ok in Hl. eapply Forall_impl; [done|]. intros l (? & _ & ?)%labelOK_spec. auto.
  - unfold Hostname. rewrite Hs; res_simpl. rewrite (proj2 (Z.ltb_ge _ _)) by lia.
    rewrite Hl; res_simpl. by rewrite Ha.
  - unfold canonicalZone. rewrite Hs; res_simpl. by rewrite (host_zone_labels _ Hl).
Qed.
End Facts.

(** Witnesses, with the plain miekg functions, the identity case tables and
    top-level domains as public suffixes. *)
Lemma ZoneName_spec_witness :
  let U := unicode_min in let DNS := miekg_plain in let PSL := psl_tld in
  ZoneName " Example.COM " = Ok ("example.com." : str) ∧ zone_form "example.com.".
Proof.
  intros U DNS PSL. assert (E : ZoneName " Example.COM " = Ok ("example.com." : str)) by (vm_compute; reflexivity).
  split; [exact E|]. exact (proj1 (@ZoneName_spec U DNS PSL miekg_plain_laws _ _ E)).
Defined.

Lemma RecordName_spec_witness :
  let U := unicode_min in let DNS := miekg_plain in
  RecordName "example.com" "*.Web" = Ok ("*.web.example.com." : str) ∧ owner_form "*.web.example.com.".
Proof.
  intros U DNS. assert (E : RecordName "example.com" "*.Web" = Ok ("*.web.example.com." : str)) by (vm_compute; reflexivity).
  split; [exact E|].
  destruct (@RecordName_spec U DNS miekg_plain_laws _ _ _ E) as (z & _ & _ & H & _). exact H.
Defined.

Lemma Hostname_spec_witness :
  let U := unicode_min in let DNS := miekg_plain in
  Hostname "NS1.example.com" = Ok ("ns1.example.com." : str) ∧
  canonicalZone "ns1.example.com." = Ok ("ns1.example.com." : str).
Proof.
  intros U DNS. assert (E : Hostname "NS1.example.com" = Ok ("ns1.example.com." : str)) by (vm_compute; reflexivity).
  split; [exact E|]. exact (proj2 (proj2 (@Hostname_spec U DNS miekg_plain_laws _ _ E))).
Defined.

(** The check for printable ASCII comes after lower-casing: a name with the
    Kelvin sign U+212A, whose lower case is the ASCII letter k, is accepted. *)
Example ZoneName_kelvin :
  @ZoneName unicode_min miekg_plain psl_tld (encode_rune 8490 ++ "elvin.com") = Ok ("kelvin.com." : str).
Proof. vm_compute. reflexivity. Qed.
End Validate.
