(* ===== verification/Netip.v ===== *)
(** * Go's [net/netip]: the addresses the module parses, classifies and prints

    An address is invalid (the zero [Addr]), IPv4 (32 bits) or IPv6 (128 bits
    with a zone).  Parsing follows the package's grammar byte by byte: dotted
    decimal without leading zeros; up to eight hexadecimal groups, one [::], an
    embedded IPv4 tail, a [%zone]. *)
From Stdlib Require Import Ascii.
From S2P Require Import Prelude GoStrings Store.
Local Open Scope Z_scope.

Module Netip.

Inductive Addr :=
  | Invalid
  | V4 (bits : Z)
  | V6 (bits : Z) (zone : str).

#[global] Instance Addr_eq_dec : EqDecision Addr.
Proof. solve_decision. Defined.

(** ** Accessors *)

(** The [k]-th byte from the most significant of an [n]-byte number. *)
Definition byte_of (n : Z) (k : Z) (a : Z) : Z := Z.land (Z.shiftr a (8 * (n - 1 - k))) 255.
Definition v4 (k a : Z) : Z := byte_of 4 k a.
Definition v6u16 (k a : Z) : Z := Z.land (Z.shiftr a (16 * (7 - k))) 65535.

Definition IsValid (a : Addr) : bool := match a with Invalid => false | _ => true end.
Definition Is4 (a : Addr) : bool := match a with V4 _ => true | _ => false end.
Definition Is6 (a : Addr) : bool := match a with V6 _ _ => true | _ => false end.
Definition zone_of (a : Addr) : str := match a with V6 _ z => z | _ => [] end.
Definition Is4In6 (a : Addr) : bool :=
  match a with V6 b _ => Z.shiftr b 32 =? 65535 | _ => false end.
Definition Unmap (a : Addr) : Addr :=
  match a with V6 b _ => if Is4In6 a then V4 (Z.land b 4294967295) else a | _ => a end.

(** [AddrFrom4] and [AddrFrom16] of a byte list, most significant first. *)
Definition of_bytes (bs : list Z) : Z := fold_left (λ n b, Z.lor (Z.shiftl n 8) b) bs 0.
Definition As4 (a : Z) : list Z := map (λ k, v4 k a) [0; 1; 2; 3].
Definition As16 (a : Addr) : list Z :=
  let bytes n := map (λ k, byte_of 16 (Z.of_nat k) n) (seq 0 16) in
  match a with
  | Invalid => repeat 0 16
  | V4 b => bytes (Z.lor (Z.shiftl 65535 32) b)
  | V6 b _ => bytes b
  end.

(** ** Classification *)

Definition IsLoopback (a : Addr) : bool :=
  match a with V4 b => v4 0 b =? 127 | V6 b _ => b =? 1 | Invalid => false end.
Definition IsLinkLocalUnicast (a : Addr) : bool :=
  match a with
  | V4 b => (v4 0 b =? 169) && (v4 1 b =? 254)
  | V6 b _ => Z.land (v6u16 0 b) 65472 =? 65152
  | Invalid => false
  end.
Definition IsLinkLocalMulticast (a : Addr) : bool :=
  match a with
  | V4 b => (v4 0 b =? 224) && (v4 1 b =? 0) && (v4 2 b =? 0)
  | V6 b _ => Z.land (v6u16 0 b) 65295 =? 65282
  | Invalid => false
  end.
Definition IsInterfaceLocalMulticast (a : Addr) : bool :=
  match a with V6 b _ => Z.land (v6u16 0 b) 65295 =? 65281 | _ => false end.
Definition IsMulticast (a : Addr) : bool :=
  match a with
  | V4 b => Z.land (v4 0 b) 240 =? 224
  | V6 b _ => byte_of 16 0 b =? 255
  | Invalid => false
  end.
Definition IsUnspecified (a : Addr) : bool := bool_decide (a = V4 0) || bool_decide (a = V6 0 []).

(** [a.Compare(b) < 0]: by length, then by number, then by zone. *)
Definition BitLen (a : Addr) : Z := match a with Invalid => 0 | V4 _ => 32 | V6 _ _ => 128 end.
Definition bits_of (a : Addr) : Z := match a with Invalid => 0 | V4 b => b | V6 b _ => b end.
Definition addr_ltb (a b : Addr) : bool :=
  if BitLen a =? BitLen b then
    if bits_of a =? bits_of b then str_ltb (zone_of a) (zone_of b) else bits_of a <? bits_of b
  else BitLen a <? BitLen b.

(** ** Printing *)

Definition hex_digit (n : Z) : ascii := chr (if n <? 10 then 48 + n else 87 + n).

(** [appendHex]: lower-case, no leading zeros. *)
Definition hex16 (x : Z) : str :=
  (if 4096 <=? x then [hex_digit (Z.shiftr x 12)] else [])
  ++ (if 256 <=? x then [hex_digit (Z.land (Z.shiftr x 8) 15)] else [])
  ++ (if 16 <=? x then [hex_digit (Z.land (Z.shiftr x 4) 15)] else [])
  ++ [hex_digit (Z.land x 15)].

Definition string4 (b : Z) : str := Join (map Itoa (As4 b)) ".".

Definition groups (b : Z) : list Z := map (λ k, v6u16 (Z.of_nat k) b) (seq 0 8).

Fixpoint zeros (gs : list Z) : nat :=
  match gs with g :: gs => if g =? 0 then S (zeros gs) else 0 | [] => 0 end.

(** The first longest run of at least two zero groups, as (start, end). *)
Fixpoint zero_run (i : nat) (gs : list Z) (best : nat * nat) : nat * nat :=
  match gs with
  | [] => best
  | _ :: t =>
    let l := zeros gs in
    let best := if (2 <=? l)%nat && (best.2 - best.1 <? l)%nat then (i, (i + l)%nat) else best in
    zero_run (S i) t best
  end.

Definition string6 (b : Z) : str :=
  let gs := groups b in
  let '(zs, ze) := zero_run 0 gs (255, 255)%nat in
  if (zs <? 8)%nat
  then Join (map hex16 (take zs gs)) ":" ++ "::" ++ Join (map hex16 (drop ze gs)) ":"
  else Join (map hex16 gs) ":".

Definition String (a : Addr) : str :=
  match a with
  | Invalid => "invalid IP"
  | V4 b => string4 b
  | V6 b z => (if Is4In6 a then "::ffff:" ++ string4 (Z.land b 4294967295) else string6 b)
              ++ (if bool_decide (z = []) then [] else "%" ++ z)
  end.

(** ** Parsing *)

Definition octet (s : str) : option Z :=
  if bool_decide (s = []) || negb (forallb digit s) then None
  else if (1 <? Z.of_nat (length s)) && bool_decide (head s = Some "0"%char) then None
  else let n := atoi_digits s in if 255 <? n then None else Some n.

(** [parseIPv4Fields]: exactly four decimal octets. *)
Definition parse_fields (s : str) : option (list Z) :=
  let fs := SplitByte dot s in
  if negb (bool_decide (length fs = 4%nat)) then None else mapM octet fs.

Definition parseIPv4 (s : str) : option Addr := bs ← parse_fields s; Some (V4 (of_bytes bs)).

Definition hex_val (c : ascii) : option Z :=
  let b := code c in
  if (48 <=? b) && (b <=? 57) then Some (b - 48)
  else if (97 <=? b) && (b <=? 102) then Some (b - 87)
  else if (65 <=? b) && (b <=? 70) then Some (b - 55) else None.

(** The longest run of hexadecimal digits, its value, and the rest. *)
Fixpoint hex_run (n : nat) (acc : Z) (s : str) : option (nat * Z * str) :=
  match s with
  | [] => Some (n, acc, [])
  | c :: t =>
    match hex_val c with
    | None => Some (n, acc, s)
    | Some d => if (3 <? n)%nat then None else hex_run (S n) (Z.lor (Z.shiftl acc 4) d) t
    end
  end.

(** The group loop of [parseIPv6]: the bytes so far, the position of [::], the
    rest of the string.  At most eight rounds fill the sixteen bytes. *)
Fixpoint parse_groups (fuel : nat) (ip : list Z) (ell : option nat) (s : str) : option (list Z * option nat * str) :=
  match fuel with
  | O => Some (ip, ell, s)
  | S fuel =>
    '(off, acc, rest) ← hex_run 0 0 s;
    if (off =? 0)%nat then None else
    if bool_decide (head rest = Some dot) then
      if (match ell with None => negb (length ip =? 12)%nat | Some _ => false end)
         || (16 <? length ip + 4)%nat then None
      else bs ← parse_fields s; Some (ip ++ bs, ell, [])
    else
      let ip := ip ++ [Z.shiftr acc 8; Z.land acc 255] in
      match rest with
      | [] => Some (ip, ell, [])
      | c :: t =>
        if negb (bool_decide (c = ":"%char)) then None else
        match t with
        | [] => None
        | c' :: t' =>
          if bool_decide (c' = ":"%char) then
            match ell with
            | Some _ => None
            | None => match t' with
                      | [] => Some (ip, Some (length ip), [])
                      | _ => parse_groups fuel ip (Some (length ip)) t' end
            end
          else parse_groups fuel ip ell t
        end
      end
  end.

Definition parseIPv6 (s : str) : option Addr :=
  let '(s, zone) := match SplitByte "%" s with
                    | a :: r :: rs => (a, Some (Join (r :: rs) "%"))
                    | _ => (s, None) end in
  if bool_decide (zone = Some []) then None else
  let zone := default [] zone in
  let '(ell, s) := if HasPrefix s "::" then (Some 0%nat, drop 2 s) else (None, s) in
  if bool_decide (ell = Some 0%nat ∧ s = []) then Some (V6 0 zone) else
  '(ip, ell, rest) ← parse_groups 8 [] ell s;
  if negb (bool_decide (rest = [])) then None else
  let n := (16 - length ip)%nat in
  match ell with
  | None => if (0 <? n)%nat then None else Some (V6 (of_bytes ip) zone)
  | Some e => if (n =? 0)%nat then None
              else Some (V6 (of_bytes (take e ip ++ repeat 0 n ++ drop e ip)) zone)
  end.

Fixpoint parse_dispatch (s rest : str) : option Addr :=
  match rest with
  | [] => None
  | c :: t => if bool_decide (c = dot) then parseIPv4 s
              else if bool_decide (c = ":"%char) then parseIPv6 s
              else if bool_decide (c = "%"%char) then None
              else parse_dispatch s t
  end.

Definition ParseAddr (s : str) : option Addr := parse_dispatch s s.

(** [ParseUint(s, 10, 16)]. *)
Definition parse_port (s : str) : option Z :=
  if bool_decide (s = []) || negb (forallb digit s) then None
  else let n := atoi_digits s in if 65535 <? n then None else Some n.

Definition ParseAddrPort (s : str) : option (Addr * Z) :=
  match reverse (SplitByte ":" s) with
  | port :: (_ :: _) as host_rev =>
    let ip := Join (reverse host_rev) ":" in
    if bool_decide (ip = [] ∨ port = []) then None else
    let bracketed := bool_decide (head ip = Some "["%char) in
    if bracketed && ((Z.of_nat (length ip) <? 2) || negb (bool_decide (last ip = Some "]"%char))) then None else
    let ip := if bracketed then take (length ip - 2) (drop 1 ip) else ip in
    p ← parse_port port;
    a ← ParseAddr ip;
    if (bracketed && Is4 a) || (negb bracketed && Is6 a) then None else Some (a, p)
  | _ => None
  end.

(** [AddrPort.String]. *)
Definition AddrPortString (a : Addr) (p : Z) : str :=
  match a with
  | Invalid => "invalid AddrPort"
  | V4 _ => String a ++ ":" ++ Itoa p
  | V6 _ _ => "[" ++ String a ++ "]:" ++ Itoa p
  end.

(** ** Prefixes *)

(** [ParsePrefix]: an address without zone, one slash, a decimal length without
    sign or leading zero. *)
Definition ParsePrefix (s : str) : option (Addr * Z) :=
  match reverse (SplitByte "/" s) with
  | bits :: (_ :: _) as rest_rev =>
    a ← ParseAddr (Join (reverse rest_rev) "/");
    if negb (bool_decide (zone_of a = [])) then None else
    if (1 <? Z.of_nat (length bits))
       && negb (match bits with c :: _ => (49 <=? code c) && (code c <=? 57) | [] => false end) then None else
    n ← Atoi bits;
    if (n <? 0) || ((if Is6 a then 128 else 32) <? n) then None else Some (a, n)
  | _ => None
  end.
Definition ParsePrefixBits (s : str) : option Z := snd <$> ParsePrefix s.

(** [Prefix.Masked] and [Prefix.String]. *)
Definition mask (n len bits : Z) : Z := Z.shiftl (Z.shiftr bits (len - n)) (len - n).
Definition Masked (p : Addr * Z) : Addr * Z :=
  (match p.1 with Invalid => Invalid | V4 b => V4 (mask p.2 32 b) | V6 b z => V6 (mask p.2 128 b) z end, p.2).
Definition PrefixString (p : Addr * Z) : str := String p.1 ++ "/" ++ Itoa p.2.
End Netip.
