(* ===== verification/Content.v ===== *)
(** * Record values ([internal/validate/content.go])

    The type and content rules of one record value.  The RR parser and printer
    of [github.com/miekg/dns] are the class [RRParser]; a parsed record is the
    inductive [RR] with the fields the per-type rules read. *)
From Stdlib Require Import Ascii.
From S2P Require Import Prelude GoStrings GoError Store Names Netip.
Local Open Scope Z_scope.

(** ** Parsed records *)

Inductive RR :=
  | RR_A (A : Z)
  | RR_AAAA (AAAA : Z)
  | RR_CNAME (Target : str)
  | RR_NS (Ns : str)
  | RR_PTR (Ptr : str)
  | RR_MX (Preference : Z) (Mx : str)
  | RR_SRV (Priority Weight Port : Z) (Target : str)
  | RR_TXT (Txt : list str)
  | RR_SPF (Txt : list str)
  | RR_CAA (Flag : Z) (Tag Value : str)
  | RR_DS (KeyTag Algorithm DigestType : Z) (Digest : str)
  | RR_DNSKEY (Flags Protocol Algorithm : Z) (PublicKey : str)
  | RR_TLSA (Usage Selector MatchingType : Z) (Certificate : str)
  | RR_SSHFP (Algorithm Type_ : Z) (FingerPrint : str)
  | RR_NAPTR (Order Preference : Z) (Flags Service Regexp Replacement : str)
  | RR_other (text : str).

(** [NewRR] parses one RR line ([None]: an error or no record); [rdata] is
    [rr.String()] after the header. *)
Class RRParser := {
  NewRR : str → option RR;
  rdata : RR → str
}.

(** A small parser for evaluation: addresses, text, names; any other type is
    kept as it is. *)
Definition rr_plain : RRParser := {|
  NewRR := λ line,
    match SplitByte " " line with
    | _ :: _ :: _ :: t :: rest =>
      let v := Join rest " " in
      if bool_decide (t = "A") then match Netip.ParseAddr v with Some (Netip.V4 a) => Some (RR_A a) | _ => None end
      else if bool_decide (t = "AAAA")
      then match Netip.ParseAddr v with Some (Netip.V6 a []) => Some (RR_AAAA a) | _ => None end
      else if bool_decide (t = "TXT") then Some (RR_TXT [v])
      else if bool_decide (t = "CNAME") then Some (RR_CNAME v)
      else if bool_decide (t = "NS") then Some (RR_NS v)
      else if bool_decide (t = "PTR") then Some (RR_PTR v)
      else Some (RR_other v)
    | _ => None
    end;
  rdata := λ rr,
    match rr with
    | RR_A a => Netip.String (Netip.V4 a)
    | RR_AAAA a => Netip.String (Netip.V6 a [])
    | RR_TXT [v] | RR_CNAME v | RR_NS v | RR_PTR v | RR_other v => v
    | _ => []
    end
|}.

Module Content.
Import Validate.

Definition recErr {A} (field msg : str) : res A := Err (RecordError field msg).

Definition MaxContent : Z := 4096.

Definition EditableTypes : list str :=
  ["A" : str; "AAAA" : str; "CNAME" : str; "MX" : str; "NS" : str; "PTR" : str; "SRV" : str; "TXT" : str;
   "CAA" : str; "DS" : str; "DNSKEY" : str; "TLSA" : str; "SSHFP" : str; "SPF" : str; "NAPTR" : str].

Definition directives : list str := ["$include" : str; "$origin" : str; "$ttl" : str; "$generate" : str].

Definition hasControl (s : str) : bool := existsb (λ c, (code c <? 32) || (code c =? 127)) s.

Definition quotedType (t : str) : bool :=
  bool_decide (t = "TXT") || bool_decide (t = "SPF") || bool_decide (t = "CAA") || bool_decide (t = "NAPTR").

(** The characters refused outside a quoted string. *)
Definition refused (c : ascii) : bool :=
  bool_decide (c = dquote) || bool_decide (c = ";"%char) || bool_decide (c = "("%char)
  || bool_decide (c = ")"%char) || bool_decide (c = backslash) || bool_decide (c = "@"%char)
  || bool_decide (c = "$"%char).

(** The scanning loop: inside a quoted string, after an escape. *)
Fixpoint scan_loop (quoted inQ esc : bool) (v : str) : res unit :=
  match v with
  | [] => if inQ then recErr "content" "unterminated quoted string" else Ok ()
  | c :: v =>
    if inQ then
      if esc then scan_loop quoted true false v
      else if bool_decide (c = backslash) then scan_loop quoted true true v
      else if bool_decide (c = dquote) then scan_loop quoted false false v
      else scan_loop quoted true false v
    else if bool_decide (c = dquote) && quoted then scan_loop quoted true esc v
    else if refused c then recErr "content" ("character " ++ goquote [c] ++ " is not allowed here")
    else if 128 <=? code c
    then recErr "content" "non-ASCII characters are only allowed inside quoted strings"
    else scan_loop quoted false esc v
  end.

Definition scan (v : str) (quoted : bool) : res unit :=
  if hasControl v
  then recErr "content" "control characters (including line breaks and tabs) are not allowed"
  else scan_loop quoted false false v.

(** [txtQuoter]: a backslash before every backslash and quote. *)
Definition txtQuote (v : str) : str :=
  concat (map (λ c, if bool_decide (c = backslash ∨ c = dquote) then [backslash; c] else [c]) v).

(** ** Per-type rules *)

(** [hex.DecodeString] succeeds on a non-empty string. *)
Definition hex_byte (c : ascii) : bool :=
  digit c || ((97 <=? code c) && (code c <=? 102)) || ((65 <=? code c) && (code c <=? 70)).
Definition hexOK (s : str) : bool :=
  Nat.even (length s) && forallb hex_byte s && negb (bool_decide (s = [])).

(** [base64.StdEncoding.DecodeString]: the number of bytes decoded.  Line
    breaks are skipped; the last group of four may end in one or two [=]. *)
Definition b64_byte (c : ascii) : bool :=
  digit c || ((97 <=? code c) && (code c <=? 122)) || ((65 <=? code c) && (code c <=? 90))
  || bool_decide (c = "+"%char) || bool_decide (c = "/"%char).
Fixpoint b64_groups (s : str) : option Z :=
  match s with
  | [] => Some 0
  | a :: b :: c :: d :: t =>
    if negb (b64_byte a && b64_byte b) then None
    else if b64_byte c && b64_byte d then n ← b64_groups t; Some (3 + n)
    else if negb (bool_decide (t = [])) || negb (bool_decide (d = "="%char)) then None
    else if b64_byte c then Some 2 else if bool_decide (c = "="%char) then Some 1 else None
  | _ => None
  end.
Definition base64_len (s : str) : option Z :=
  b64_groups (List.filter (λ c, negb ((code c =? 10) || (code c =? 13))) s).

Definition dsDigestLen (t : Z) : option Z :=
  if t =? 1 then Some 40 else if t =? 2 then Some 64 else if t =? 4 then Some 96 else None.
Definition sshfpLen (t : Z) : option Z := if t =? 1 then Some 40 else if t =? 2 then Some 64 else None.
Definition tlsaLen (t : Z) : option Z := if t =? 1 then Some 64 else if t =? 2 then Some 128 else None.

Definition slen (s : str) : Z := Z.of_nat (length s).

Definition ds (DigestType : Z) (Digest : str) : res unit :=
  match dsDigestLen DigestType with
  | None => recErr "content" "the DS digest type must be 1, 2 or 4"
  | Some n =>
    if negb (hexOK Digest) then recErr "content" "the DS digest is not hex"
    else if negb (slen Digest =? n)
    then recErr "content" ("the DS digest must be " ++ Itoa n ++ " hex digits for digest type " ++ Itoa DigestType)
    else Ok ()
  end.

Definition dnskey (Flags Protocol : Z) (PublicKey : str) : res unit :=
  if negb (Flags =? 0) && negb (Flags =? 256) && negb (Flags =? 257)
  then recErr "content" "DNSKEY flags must be 0, 256 or 257"
  else if negb (Protocol =? 3) then recErr "content" "the DNSKEY protocol must be 3"
  else match base64_len PublicKey with
       | Some n => if n =? 0 then recErr "content" "the DNSKEY public key is not valid base64" else Ok ()
       | None => recErr "content" "the DNSKEY public key is not valid base64"
       end.

Definition tlsa (Usage Selector MatchingType : Z) (Certificate : str) : res unit :=
  if 3 <? Usage then recErr "content" "the TLSA usage must be 0-3"
  else if 1 <? Selector then recErr "content" "the TLSA selector must be 0 or 1"
  else if 2 <? MatchingType then recErr "content" "the TLSA matching type must be 0, 1 or 2"
  else if negb (hexOK Certificate) then recErr "content" "the TLSA certificate data is not hex"
  else match tlsaLen MatchingType with
       | Some n => if negb (slen Certificate =? n)
                   then recErr "content" ("the TLSA certificate data has the wrong length for matching type "
                          ++ Itoa MatchingType ++ " (" ++ Itoa n ++ " hex digits)")
                   else Ok ()
       | None => Ok ()
       end.

Definition sshfp (Algorithm Type_ : Z) (FingerPrint : str) : res unit :=
  if negb (bool_decide (Algorithm ∈ [1; 2; 3; 4; 6]))
  then recErr "content" "the SSHFP algorithm must be 1, 2, 3, 4 or 6"
  else match sshfpLen Type_ with
       | None => recErr "content" "the SSHFP fingerprint type must be 1 or 2"
       | Some n =>
         if negb (hexOK FingerPrint) then recErr "content" "the SSHFP fingerprint is not hex"
         else if negb (slen FingerPrint =? n)
         then recErr "content" ("the SSHFP fingerprint has the wrong length for fingerprint type "
                ++ Itoa Type_ ++ " (" ++ Itoa n ++ " hex digits)")
         else Ok ()
       end.

Definition alnum (c : ascii) : bool :=
  ((97 <=? code c) && (code c <=? 122)) || ((65 <=? code c) && (code c <=? 90)) || digit c.

Section Content.
Context {U : Unicode} {DNS : MiekgDNS} {P : RRParser}.

Definition Editable (t : str) : bool := Store.contains EditableTypes (ToUpper t).

Definition editableType (s : str) : res str :=
  let t := ToUpper (TrimSpace s) in
  if bool_decide (t = "SOA") then recErr "type" "SOA is read-only (serials are managed by PowerDNS)"
  else if negb (Editable t) then recErr "type" "this record type is not editable"
  else Ok t.

Definition hasDirective (s : str) : bool := existsb (Contains (ToLower s)) directives.

Fixpoint target_labels (ls : list str) : res unit :=
  match ls with
  | [] => Ok ()
  | l :: ls => if negb (labelOK (ToLower l) true)
               then recErr "content" ("label " ++ goquote l ++ " of the target is not valid")
               else target_labels ls
  end.

Definition target (name : str) (allowRoot : bool) : res unit :=
  if bool_decide (name = ".") then
    if allowRoot then Ok () else recErr "content" "the target cannot be the root"
  else target_labels (SplitDomainName name).

(** [caa] lower-cases the tag of the record it checks. *)
Definition caa (Flag : Z) (Tag Value : str) : res RR :=
  if negb (Flag =? 0) && negb (Flag =? 128) then recErr "content" "CAA flags must be 0 or 128"
  else
    let Tag := ToLower Tag in
    if bool_decide (Tag = "issue") || bool_decide (Tag = "issuewild") then Ok (RR_CAA Flag Tag Value)
    else if bool_decide (Tag = "iodef") then
      let v := ToLower Value in
      if negb (HasPrefix v "mailto:") && negb (HasPrefix v "https://") && negb (HasPrefix v "http://")
      then recErr "content" "a CAA iodef value must be a mailto: or http(s): URL"
      else Ok (RR_CAA Flag Tag Value)
    else recErr "content" "the CAA tag must be issue, issuewild or iodef".

(** [naptr] lower-cases the replacement. *)
Definition naptr (Order Preference : Z) (Flags Service Regexp Replacement : str) : res RR :=
  if negb (forallb alnum Flags) then recErr "content" "NAPTR flags must be letters or digits"
  else let Replacement := ToLower Replacement in
       _ ← target Replacement true;
       Ok (RR_NAPTR Order Preference Flags Service Regexp Replacement).

(** [semantic] checks a parsed record and returns it as the checks leave it. *)
Definition semantic (rr : RR) : res RR :=
  match rr with
  | RR_AAAA a => if Z.shiftr a 32 =? 65535
                 then recErr "content" "IPv4-mapped IPv6 addresses are not allowed (use an A record)"
                 else Ok rr
  | RR_CNAME t => _ ← target t false; Ok rr
  | RR_NS t => _ ← target t false; Ok rr
  | RR_PTR t => _ ← target t false; Ok rr
  | RR_MX p t =>
    if bool_decide (t = ".") && negb (p =? 0)
    then recErr "content" ("a null MX (target " ++ goquote "." ++ ") must have preference 0")
    else _ ← target t true; Ok rr
  | RR_SRV _ _ _ t => _ ← target t true; Ok rr
  | RR_CAA f t v => caa f t v
  | RR_DS _ _ dt d => _ ← ds dt d; Ok rr
  | RR_DNSKEY f p _ k => _ ← dnskey f p k; Ok rr
  | RR_TLSA u s m c => _ ← tlsa u s m c; Ok rr
  | RR_SSHFP a t f => _ ← sshfp a t f; Ok rr
  | RR_NAPTR o p f s r t => naptr o p f s r t
  | RR_A _ | RR_TXT _ | RR_SPF _ | RR_other _ => Ok rr
  end.

(** The case normalisation of a value before it is scanned. *)
Definition normal_case (t v : str) : str :=
  if bool_decide (t = "TXT") || bool_decide (t = "SPF") then
    if negb (HasPrefix v [dquote]) then dquote :: txtQuote v ++ [dquote] else v
  else if Store.contains ["A" : str; "AAAA" : str; "CNAME" : str; "NS" : str; "PTR" : str; "MX" : str; "SRV" : str] t
  then ToLower v
  else if Store.contains ["DS" : str; "TLSA" : str; "SSHFP" : str] t then ToUpper v
  else v.

Definition content (t z value : str) : res str :=
  let v := TrimSpace value in
  if bool_decide (v = []) then recErr "content" "content is empty"
  else if MaxContent <? slen v
  then recErr "content" ("content is too long (at most " ++ Itoa MaxContent ++ " octets)")
  else if hasDirective v then recErr "content" "zone-file directives are not allowed"
  else
    let v := normal_case t v in
    _ ← scan v (quotedType t);
    match NewRR (z ++ " 3600 IN " ++ t ++ " " ++ v) with
    | None => recErr "content" ("not a valid " ++ t ++ " value")
    | Some rr =>
      rr ← semantic rr;
      let out := rdata rr in
      if hasDirective out then recErr "content" "zone-file directives are not allowed" else Ok out
    end.

Definition Content (rtype zone value : str) : res str :=
  z ← canonicalZone zone; t ← editableType rtype; content t z value.
End Content.

(** ** The language the scanner accepts *)

(** The inside of a quoted string: no bare quote, every backslash escapes a
    byte. *)
Inductive qbody : str → Prop :=
  | qb_nil : qbody []
  | qb_char c s : c ≠ backslash → c ≠ dquote → qbody s → qbody (c :: s)
  | qb_esc c s : qbody s → qbody (backslash :: c :: s).

(** A value that stays on its RR line: plain ASCII bytes that are not special,
    and, for the types with character-strings, closed quoted strings. *)
Inductive one_line (quoted : bool) : str → Prop :=
  | ol_nil : one_line quoted []
  | ol_char c s : refused c = false → code c < 128 → one_line quoted s → one_line quoted (c :: s)
  | ol_quote b s : quoted = true → qbody b → one_line quoted s → one_line quoted (dquote :: b ++ dquote :: s).

#[local] Hint Constructors qbody one_line : dns.

Lemma scan_loop_body q b s : qbody b → scan_loop q true false (b ++ dquote :: s) = scan_loop q false false s.
Proof.
  induction 1 as [|c b Hc Hq _ IH|c b _ IH]; simpl; [done| |done].
  rewrite !bool_decide_false by done. done.
Qed.

Lemma scan_loop_complete q v : one_line q v → scan_loop q false false v = Ok ().
Proof.
  induction 1 as [|c s Hr Hc _ IH|b s -> Hb _ IH]; simpl; [done| |by rewrite scan_loop_body].
  rewrite Hr, (proj2 (Z.leb_gt _ _)) by done.
  rewrite bool_decide_false; [done|]. by intros ->.
Qed.

(** Both loop states at once: outside a string, and inside one. *)
Lemma scan_loop_sound q n v :
  (length v ≤ n)%nat →
  (scan_loop q false false v = Ok () → one_line q v) ∧
  (scan_loop q true false v = Ok () → ∃ b s, v = b ++ dquote :: s ∧ qbody b ∧ one_line q s).
Proof.
  revert v. induction n as [|n IH]; intros [|c v] Hlen; simpl in *; try lia; [by split; auto with dns..|].
  destruct (IH v ltac:(lia)) as [IHo IHi]. split.
  - destruct (bool_decide (c = dquote)) eqn:Ed, q eqn:Eq; simpl; [|case_match..]; try done; b2p.
    + subst c. intros (b & s & -> & ? & ?)%IHi. auto with dns.
    + by subst c.
    + destruct (Z.leb_spec 128 (code c)); [done|]. auto with dns.
    + destruct (Z.leb_spec 128 (code c)); [done|]. auto with dns.
  - case_bool_decide as Eb; [|case_bool_decide as Ed].
    + subst c. destruct v as [|c v]; [done|]. simpl in *.
      intros (b & s & -> & ? & ?)%(IH v ltac:(lia)). exists (backslash :: c :: b), s. auto with dns.
    + subst c. intros ?%IHo. exists [], v. auto with dns.
    + intros (b & s & -> & ? & ?)%IHi. exists (c :: b), s. auto with dns.
Qed.

Lemma scan_Ok v q : scan v q = Ok () ↔ hasControl v = false ∧ one_line q v.
Proof.
  unfold scan. destruct (hasControl v); [split; [done|by intros [? _]]|]. split.
  - intros Hs. split; [done|]. by apply (scan_loop_sound q (length v)).
  - intros [_ ?]. by apply scan_loop_complete.
Qed.

(** The scanner accepts exactly the values without control characters that
    stay on one RR line: outside quoted strings only plain ASCII bytes (no
    quote, comment, parenthesis, backslash, at-sign or dollar), quoted strings
    only for the character-string types, closed, with every backslash escaping
    one byte. *)
Theorem scan_spec v q : scan v q = Ok () ↔ hasControl v = false ∧ one_line q v.
Proof. apply scan_Ok. Qed.

Section Facts.
Context {U : Unicode} {DNS : MiekgDNS} {P : RRParser}.

Lemma content_Ok t z value out :
  content t z value = Ok out →
  hasDirective out = false ∧
  ∃ v rr rr', hasControl v = false ∧ one_line (quotedType t) v ∧
    NewRR (z ++ " 3600 IN " ++ t ++ " " ++ v) = Some rr ∧ semantic rr = Ok rr' ∧ out = rdata rr'.
Proof.
  unfold content. intros H. repeat (case_match; [done|]). apply bind_Ok in H as ([] & Hs & H).
  case_match eqn:Hn; [|done]. apply bind_Ok in H as (rr' & Hsem & H). case_match; simplify_eq.
  split; [done|]. apply scan_Ok in Hs as [??]. eauto 10.
Qed.

(** An accepted value was parsed from one RR line built from the zone, TTL
    3600, class IN, the type and a value that stays on that line; it passed the
    per-type rules, and the result is the parser's re-serialisation, free of
    zone-file directives. *)
Theorem content_spec t z value out :
  content t z value = Ok out →
  hasDirective out = false ∧
  ∃ v rr rr', hasControl v = false ∧ one_line (quotedType t) v ∧
    NewRR (z ++ " 3600 IN " ++ t ++ " " ++ v) = Some rr ∧ semantic rr = Ok rr' ∧ out = rdata rr'.
Proof. apply content_Ok. Qed.

(** Every refusal of a value is a [RecordError]. *)
Definition rec_only {A} (r : res A) : Prop :=
  match r with Err e => match e with RecordError _ _ => True | _ => False end | Ok _ => True end.

Lemma rec_only_bind {A B} (r : res A) (f : A → res B) :
  rec_only r → (∀ a, rec_only (f a)) → rec_only (r ≫= f).
Proof. destruct r; simpl; auto. Qed.

Lemma rec_only_err {A} f m : rec_only (A := A) (recErr f m).
Proof. exact I. Qed.
Lemma rec_only_Ok {A} (a : A) : rec_only (Ok a).
Proof. exact I. Qed.

Lemma scan_loop_rec q i x v : rec_only (scan_loop q i x v).
Proof. revert i x. induction v; intros; cbn [scan_loop]; repeat case_match; auto; exact I. Qed.

Lemma target_rec n r : rec_only (target n r).
Proof.
  unfold target. repeat case_match; try exact I.
  induction (SplitDomainName n); cbn [target_labels]; repeat case_match; done || exact I.
Qed.

Lemma semantic_rec rr : rec_only (semantic rr).
Proof.
  destruct rr; cbn [semantic]; unfold caa, naptr, ds, dnskey, tlsa, sshfp;
    repeat first [apply target_rec | apply rec_only_err | apply rec_only_Ok | case_match | apply rec_only_bind | intros ?].
Qed.

Lemma content_rec t z value : rec_only (content t z value).
Proof.
  unfold content, scan.
  repeat first [apply scan_loop_rec | apply semantic_rec | apply rec_only_err | apply rec_only_Ok | case_match | apply rec_only_bind | intros ?].
Qed.

Lemma content_err t z value e : content t z value = Err e → ∃ f m, e = RecordError f m.
Proof. intros E. pose proof (content_rec t z value) as H. rewrite E in H. destruct e; try done. eauto. Qed.
End Facts.

Lemma content_spec_witness :
  let U := unicode_min in let DNS := miekg_plain in let P := rr_plain in
  content "A" "example.com." " 192.0.2.1 " = Ok ("192.0.2.1" : str) ∧ hasDirective "192.0.2.1" = false.
Proof.
  intros U DNS P.
  assert (E : content "A" "example.com." " 192.0.2.1 " = Ok ("192.0.2.1" : str)) by (vm_compute; reflexivity).
  split; [exact E|]. exact (proj1 (@content_spec U DNS P _ _ _ _ E)).
Defined.
End Content.
