(* ===== verification/Masters.v ===== *)
(** * Primaries of secondary zones ([internal/validate/names.go], second half)

    [Validate.Masters] accepts the addresses a slave or consumer zone may be
    transferred from, and [IPGuard] the address of a supermaster.  Both stand
    between a tenant and the network of the DNS server, so the theorems are
    about which addresses get through. *)
From Stdlib Require Import Ascii.
From S2P Require Import Prelude GoStrings GoError Store Netip.
Local Open Scope Z_scope.

Module Masters.
Import Netip.

Definition MaxMasters : Z := 16.
Definition mastersErr (text : str) : error := Wrapf (New ErrMasters) text.
Definition broadcast : Addr := V4 4294967295.

Definition guard (a : Addr) : res Addr :=
  let a := Unmap a in
  if IsLoopback a || IsLinkLocalUnicast a || IsLinkLocalMulticast a || IsInterfaceLocalMulticast a
     || IsUnspecified a || IsMulticast a || bool_decide (a = broadcast)
  then Err (mastersErr (String a ++ " is not an allowed unicast address"))
  else Ok a.

Definition IPGuard (s : str) : res Addr :=
  match ParseAddr (TrimSpace s) with
  | Some a => if bool_decide (zone_of a = []) then guard a
              else Err (mastersErr (goquote s ++ " is not an IP literal"))
  | None => Err (mastersErr (goquote s ++ " is not an IP literal"))
  end.

(** One entry: an address, or an address with a port. *)
Definition master (raw : str) : res str :=
  let s := TrimSpace raw in
  let with_port :=
    match ParseAddrPort s with
    | Some (a, port) =>
      if negb (bool_decide (zone_of a = []))
      then Err (mastersErr (goquote s ++ " is not an IP literal with an optional port"))
      else if port =? 0 then Err (mastersErr "port must be within [1, 65535]")
      else g ← guard a; Ok (AddrPortString g port)
    | None => Err (mastersErr (goquote s ++ " is not an IP literal with an optional port"))
    end in
  match ParseAddr s with
  | Some a => if bool_decide (zone_of a = []) then g ← guard a; Ok (String g) else with_port
  | None => with_port
  end.

Fixpoint masters_loop (l seen : list str) : res (list str) :=
  match l with
  | [] => Ok []
  | raw :: l =>
    canon ← master raw;
    if bool_decide (canon ∈ seen) then Err (mastersErr ("duplicate primary " ++ canon))
    else rest ← masters_loop l (canon :: seen); Ok (canon :: rest)
  end.

Definition Masters (l : list str) : res (list str) :=
  if MaxMasters <? Z.of_nat (length l)
  then Err (mastersErr ("at most " ++ Itoa MaxMasters ++ " primaries"))
  else masters_loop l [].

(** ** The addresses that get through *)

(** The blocks of the address registries the guard keeps out, as ranges of the
    address read as a number. *)
Definition in_block (prefix len width bits : Z) : Prop := bits / 2 ^ (width - len) = prefix.
Definition blocked4 (b : Z) : Prop :=
  in_block 127 8 32 b                       (* 127.0.0.0/8, loopback *)
  ∨ in_block (169 * 256 + 254) 16 32 b      (* 169.254.0.0/16, link-local *)
  ∨ in_block 14 4 32 b                      (* 224.0.0.0/4, multicast *)
  ∨ b = 0                                   (* 0.0.0.0 *)
  ∨ b = 2 ^ 32 - 1.                         (* 255.255.255.255 *)
Definition blocked6 (b : Z) : Prop :=
  b = 0 ∨ b = 1                             (* ::, ::1 *)
  ∨ in_block 1018 10 128 b                  (* fe80::/10, link-local *)
  ∨ in_block 255 8 128 b.                   (* ff00::/8, multicast *)
Definition unicast (a : Addr) : Prop :=
  match a with
  | Invalid => False
  | V4 b => 0 ≤ b < 2 ^ 32 ∧ ¬ blocked4 b
  | V6 b z => 0 ≤ b < 2 ^ 128 ∧ z = [] ∧ ¬ blocked6 b ∧ ¬ in_block 65535 96 128 b
  end.
Definition in_range (a : Addr) : Prop :=
  match a with Invalid => False | V4 b => 0 ≤ b < 2 ^ 32 | V6 b _ => 0 ≤ b < 2 ^ 128 end.

(** ** Bits *)

Lemma lor_lt a b n : 0 ≤ n → 0 ≤ a < 2 ^ n → 0 ≤ b < 2 ^ n → 0 ≤ Z.lor a b < 2 ^ n.
Proof.
  intros Hn Ha Hb. assert (0 ≤ Z.lor a b) by (apply Z.lor_nonneg; lia). split; [done|].
  destruct (decide (Z.lor a b = 0)) as [E|E]; [rewrite E; lia|].
  apply Z.log2_lt_pow2; [lia|]. rewrite Z.log2_lor by lia.
  assert (Hl : ∀ x, 0 ≤ x < 2 ^ n → x ≠ 0 → Z.log2 x < n) by (intros x ??; apply (Z.log2_lt_pow2 x n); lia).
  destruct (decide (a = 0)) as [->|]; [rewrite Z.lor_0_l in E; simpl; rewrite Z.max_r by apply Z.log2_nonneg; auto|].
  destruct (decide (b = 0)) as [->|]; [simpl; rewrite Z.max_l by apply Z.log2_nonneg; auto|].
  apply Z.max_lub_lt; auto.
Qed.

Lemma of_bytes_range bs : Forall (λ b, 0 ≤ b < 256) bs → 0 ≤ of_bytes bs < 2 ^ (8 * Z.of_nat (length bs)).
Proof.
  intros Hb. unfold of_bytes.
  assert (H : ∀ n k, 0 ≤ k → 0 ≤ n < 2 ^ (8 * k) →
    0 ≤ fold_left (λ n b, Z.lor (Z.shiftl n 8) b) bs n < 2 ^ (8 * (k + Z.of_nat (length bs)))).
  { induction Hb as [|b bs Hb _ IH]; intros n k Hk Hn; cbn [fold_left length]; [by rewrite Z.add_0_r|].
    replace (k + Z.of_nat (S (length bs))) with (k + 1 + Z.of_nat (length bs)) by lia.
    apply IH; [lia|]. replace (8 * (k + 1)) with (8 * k + 8) by lia.
    assert (2 ^ (8 * k + 8) = 2 ^ (8 * k) * 256) by (rewrite Z.pow_add_r by lia; lia).
    pose proof (Z.pow_pos_nonneg 2 (8 * k)).
    apply lor_lt; [lia| |lia]. rewrite Z.shiftl_mul_pow2 by lia. change (2 ^ 8) with 256. lia. }
  apply (H 0 0); lia.
Qed.

Lemma byte_of_div n k a : 0 ≤ k ≤ n - 1 → byte_of n k a = (a / 2 ^ (8 * (n - 1 - k))) mod 256.
Proof.
  intros. unfold byte_of. change 255 with (Z.ones 8).
  by rewrite Z.land_ones, Z.shiftr_div_pow2 by lia.
Qed.

(** A property of every byte, by evaluation. *)
Lemma by_range (p : Z → bool) x :
  forallb (λ k, p (Z.of_nat k)) (seq 0 256) = true → 0 ≤ x < 256 → p x = true.
Proof.
  intros Hp Hx. rewrite forallb_forall in Hp. rewrite <- (Z2Nat.id x) by lia.
  apply Hp, in_seq. lia.
Qed.

Lemma div_range b k w : 0 ≤ k ≤ w → 0 ≤ b < 2 ^ w → 0 ≤ b / 2 ^ k < 2 ^ (w - k).
Proof.
  intros Hk Hb. split; [apply Z.div_pos; lia|]. apply Z.div_lt_upper_bound; [lia|].
  rewrite <- Z.pow_add_r by lia. replace (k + (w - k)) with w by lia. lia.
Qed.

Lemma div_split b k j : 0 ≤ k → 0 ≤ j → b / 2 ^ (k + j) = b / 2 ^ k / 2 ^ j.
Proof. intros. rewrite Z.div_div by lia. by rewrite Z.pow_add_r by lia. Qed.

Lemma v4_bytes b :
  0 ≤ b < 2 ^ 32 → v4 0 b = b / 2 ^ 24 ∧ v4 1 b = b / 2 ^ 16 - 256 * (b / 2 ^ 24) ∧ 0 ≤ b / 2 ^ 24 < 256.
Proof.
  intros Hb. unfold v4. rewrite !byte_of_div by lia.
  pose proof (div_range b 24 32 ltac:(lia) Hb) as H1. change (2 ^ (32 - 24)) with 256 in H1.
  pose proof (div_split b 16 8 ltac:(lia) ltac:(lia)) as H2. change (16 + 8) with 24 in H2.
  change (8 * (4 - 1 - 0)) with 24. change (8 * (4 - 1 - 1)) with 16. change (2 ^ 8) with 256 in H2.
  split_and!; try lia; [apply Z.mod_small; lia|]. rewrite Z.mod_eq by lia. lia.
Qed.

Lemma v6_group b : 0 ≤ b < 2 ^ 128 → v6u16 0 b = b / 2 ^ 112 ∧ 0 ≤ b / 2 ^ 112 < 65536.
Proof.
  intros Hb. unfold v6u16. change 65535 with (Z.ones 16). rewrite Z.land_ones, Z.shiftr_div_pow2 by lia.
  change (16 * (7 - 0)) with 112. pose proof (div_range b 112 128 ltac:(lia) Hb) as H.
  change (2 ^ (128 - 112)) with 65536 in H. split; [|done]. apply Z.mod_small. exact H.
Qed.

(** Masking the top ten of sixteen bits. *)
Lemma land_fec0 x : 0 ≤ x < 65536 → Z.land x 65472 = 64 * (x / 64).
Proof.
  intros Hx. change 65472 with (Z.shiftl (Z.ones 10) 6).
  assert (E : Z.land x (Z.shiftl (Z.ones 10) 6) = Z.shiftl (Z.land (Z.shiftr x 6) (Z.ones 10)) 6).
  { apply Z.bits_inj'. intros n Hn. rewrite Z.land_spec, !Z.shiftl_spec by lia.
    destruct (Z.lt_ge_cases n 6); [by rewrite !(Z.testbit_neg_r _ (n - 6)), andb_false_r by lia|].
    rewrite Z.land_spec, Z.shiftr_spec by lia. by replace (n - 6 + 6) with n by lia. }
  rewrite E, Z.land_ones, Z.shiftl_mul_pow2, Z.shiftr_div_pow2 by lia.
  change (2 ^ 6) with 64. rewrite Z.mod_small; [lia|]. split; [apply Z.div_pos; lia|].
  apply Z.div_lt_upper_bound; lia.
Qed.

Lemma land_high x m r : 0 ≤ x < 65536 → Z.land x m = r → Z.shiftr m 8 = 255 → Z.shiftr r 8 = 255 → x / 256 = 255.
Proof.
  intros Hx <- Hm. rewrite Z.shiftr_land, Hm. change (Z.land (Z.shiftr x 8) 255) with (Z.land (Z.shiftr x 8) (Z.ones 8)).
  rewrite Z.land_ones, Z.shiftr_div_pow2 by lia. change (2 ^ 8) with 256.
  rewrite Z.mod_small; [done|]. split; [apply Z.div_pos|apply Z.div_lt_upper_bound]; lia.
Qed.

(** ** The guard *)

Lemma blocked4_spec b :
  0 ≤ b < 2 ^ 32 →
  IsLoopback (V4 b) || IsLinkLocalUnicast (V4 b) || IsLinkLocalMulticast (V4 b) || IsInterfaceLocalMulticast (V4 b)
  || IsUnspecified (V4 b) || IsMulticast (V4 b) || bool_decide (V4 b = broadcast) = true ↔ blocked4 b.
Proof.
  intros Hb. destruct (v4_bytes b Hb) as (E0 & E1 & Hr). unfold blocked4, in_block.
  pose proof (div_split b 24 4 ltac:(lia) ltac:(lia)) as E28. change (24 + 4) with 28 in E28.
  cbn [IsLoopback IsLinkLocalUnicast IsLinkLocalMulticast IsInterfaceLocalMulticast IsMulticast].
  unfold IsUnspecified, broadcast. rewrite E0, E1. change (32 - 8) with 24. change (32 - 16) with 16. change (32 - 4) with 28.
  set (x := b / 2 ^ 24) in *. rewrite E28. change (2 ^ 4) with 16.
  assert (Em := by_range (λ x, eqb (Z.land x 240 =? 224) (x / 16 =? 14)) x ltac:(vm_compute; reflexivity) Hr).
  apply eqb_prop in Em. rewrite Em. rewrite !orb_true_iff, !andb_true_iff, !Z.eqb_eq, !bool_decide_eq_true.
  assert (E16 : 0 ≤ b / 2 ^ 16 - 256 * x < 256).
  { pose proof (Z.mod_pos_bound (b / 2 ^ 16) 256). rewrite Z.mod_eq in H by lia.
    assert (x = b / 2 ^ 16 / 256) by exact (div_split b 16 8 ltac:(lia) ltac:(lia)). lia. }
  assert (Hd : x / 16 = 14 ↔ 224 ≤ x < 240) by (clear; Z.to_euclidean_division_equations; lia).
  rewrite Hd. clearbody x. change (2 ^ 32 - 1) with 4294967295.
  assert (Ha : ∀ c, V4 b = V4 c ↔ b = c) by (split; congruence).
  assert (Hn : V4 b = V6 0 [] ↔ False) by done.
  rewrite !Ha, Hn. clear Ha Hn E0 E1 E28 Em Hd. lia.
Qed.

Lemma blocked6_spec b :
  0 ≤ b < 2 ^ 128 →
  let a := V6 b [] in
  IsLoopback a || IsLinkLocalUnicast a || IsLinkLocalMulticast a || IsInterfaceLocalMulticast a
  || IsUnspecified a || IsMulticast a || bool_decide (a = broadcast) = true ↔ blocked6 b.
Proof.
  intros Hb a. subst a. destruct (v6_group b Hb) as [E0 Hr]. unfold blocked6, in_block.
  pose proof (div_split b 112 6 ltac:(lia) ltac:(lia)) as E6.
  pose proof (div_split b 112 8 ltac:(lia) ltac:(lia)) as E8.
  cbn [IsLoopback IsLinkLocalUnicast IsLinkLocalMulticast IsInterfaceLocalMulticast IsMulticast].
  unfold IsUnspecified, broadcast. rewrite byte_of_div by lia. rewrite E0.
  change (128 - 10) with (112 + 6). change (128 - 8) with (112 + 8). change (8 * (16 - 1 - 0)) with (112 + 8).
  rewrite E6, E8. change (2 ^ 6) with 64. change (2 ^ 8) with 256. set (x := b / 2 ^ 112) in *.
  assert (H8 : (x / 256) mod 256 = x / 256) by (apply Z.mod_small; clear - Hr; Z.to_euclidean_division_equations; lia).
  rewrite H8, land_fec0 by done. rewrite !orb_true_iff, !Z.eqb_eq, !bool_decide_eq_true.
  pose proof (land_high x 65295 65282 Hr) as M2. pose proof (land_high x 65295 65281 Hr) as M1.
  assert (Ha : V6 b [] = V6 0 [] ↔ b = 0) by (split; congruence).
  assert (Hn : ∀ c, V6 b [] = V4 c ↔ False) by done.
  rewrite !Hn, Ha. specialize (λ H, M2 H eq_refl eq_refl). specialize (λ H, M1 H eq_refl eq_refl).
  clearbody x. clear - M1 M2. lia.
Qed.

(** Link-local and interface-local multicast are multicast. *)
Lemma IsMulticast_kinds a :
  in_range a → IsLinkLocalMulticast a || IsInterfaceLocalMulticast a || IsMulticast a = IsMulticast a.
Proof.
  destruct a as [|b|b z]; [done| |]; cbn [in_range IsLinkLocalMulticast IsInterfaceLocalMulticast IsMulticast]; intros Hb.
  { rewrite orb_false_r. destruct (Z.eqb_spec (v4 0 b) 224) as [->|]; [|done]. by destruct (_ && _). }
  destruct (v6_group b Hb) as [E0 Hr]. rewrite E0, byte_of_div by lia. change (8 * (16 - 1 - 0)) with (112 + 8). rewrite div_split by lia.
  change (2 ^ 8) with 256. set (x := b / 2 ^ 112) in *. clearbody x.
  pose proof (land_high x 65295 65282 Hr) as M2. pose proof (land_high x 65295 65281 Hr) as M1.
  destruct (Z.eqb_spec (Z.land x 65295) 65282) as [E2|]; [rewrite (M2 E2) by done; done|].
  destruct (Z.eqb_spec (Z.land x 65295) 65281) as [E1|]; [rewrite (M1 E1) by done; done|done].
Qed.

Lemma Unmap_range a : in_range a → in_range (Unmap a) ∧ (zone_of a = [] → zone_of (Unmap a) = []) ∧ Is4In6 (Unmap a) = false.
Proof.
  destruct a as [|b|b z]; cbn [in_range Unmap]; [done|auto|]. intros Hb.
  destruct (Is4In6 (V6 b z)) eqn:E; [|auto]. split; [|done]. cbn [in_range].
  change 4294967295 with (Z.ones 32). rewrite Z.land_ones by lia. apply Z.mod_pos_bound. lia.
Qed.

Lemma guard_Ok a g :
  in_range a → zone_of a = [] → guard a = Ok g ↔ g = Unmap a ∧ unicast g.
Proof.
  intros (Hr & Hz & H4)%Unmap_range Hza. specialize (Hz Hza). unfold guard. cbv zeta.
  destruct (Unmap a) as [|b|b z]; [done| |].
  - pose proof (blocked4_spec b Hr) as Hb. destruct (_ || _); split.
    + done.
    + intros [-> [_ []]]. by apply Hb.
    + intros [= <-]. split; [done|]. split; [done|]. by intros ?%Hb.
    + by intros [-> _].
  - simpl in Hz; subst z. pose proof (blocked6_spec b Hr) as Hb. cbv zeta in Hb.
    assert (Hm : in_block 65535 96 128 b → False).
    { unfold in_block. intros E. unfold Is4In6 in H4. rewrite Z.shiftr_div_pow2 in H4 by lia. by b2p. }
    destruct (_ || _); split.
    + done.
    + intros [-> (_ & _ & [] & _)]. by apply Hb.
    + intros [= <-]. split; [done|]. do 2 (split; [done|]). split; [by intros ?%Hb|done].
    + by intros [-> _].
Qed.

(** ** Parsed addresses are in range *)

Definition is_byte (b : Z) : Prop := 0 ≤ b < 256.

Lemma atoi_nonneg s : forallb digit s = true → 0 ≤ atoi_digits s.
Proof.
  unfold atoi_digits. cut (∀ n, 0 ≤ n → forallb digit s = true → 0 ≤ fold_left (λ n c, 10 * n + (code c - 48)) s n).
  { intros H. apply H. lia. }
  induction s as [|c s IH]; intros n Hn; simpl; [done|]. intros [Hc ?]%andb_true_iff.
  apply IH; [|done]. unfold digit in Hc. b2p. lia.
Qed.

Lemma octet_byte s n : octet s = Some n → is_byte n.
Proof.
  unfold octet. repeat case_match; try done. intros [= <-]. b2p. split; [by apply atoi_nonneg|lia].
Qed.

Lemma parse_fields_bytes s bs : parse_fields s = Some bs → Forall is_byte bs ∧ length bs = 4%nat.
Proof.
  unfold parse_fields. case_match eqn:E; [done|]. b2p. intros H. split.
  - apply Forall_forall. intros b Hb. apply mapM_Some in H.
    apply list_elem_of_lookup in Hb as [i Hi]. eapply Forall2_lookup_r in H as (x & _ & ?%octet_byte); done.
  - apply mapM_Some, Forall2_length in H. congruence.
Qed.

Lemma hex_val_range c d : hex_val c = Some d → 0 ≤ d < 16.
Proof. unfold hex_val. repeat case_match; try done; intros [= <-]; b2p; lia. Qed.

Lemma hex_run_range s n acc off acc' rest :
  (n ≤ 4)%nat → 0 ≤ acc < 2 ^ (4 * Z.of_nat n) → hex_run n acc s = Some (off, acc', rest) → 0 ≤ acc' < 2 ^ 16.
Proof.
  revert n acc. induction s as [|c s IH]; intros n acc Hn Ha; cbn [hex_run].
  - intros [= _ <- _]. split; [lia|]. eapply Z.lt_le_trans; [apply Ha|]. apply Z.pow_le_mono_r; lia.
  - destruct (hex_val c) as [d|] eqn:Ed; cycle 1.
    { intros [= _ <- _]. split; [lia|]. eapply Z.lt_le_trans; [apply Ha|]. apply Z.pow_le_mono_r; lia. }
    case_match eqn:E; [done|]. b2p. apply IH; [lia|]. apply hex_val_range in Ed.
    replace (4 * Z.of_nat (S n)) with (4 * Z.of_nat n + 4) by lia.
    pose proof (Z.pow_pos_nonneg 2 (4 * Z.of_nat n)).
    assert (2 ^ (4 * Z.of_nat n + 4) = 2 ^ (4 * Z.of_nat n) * 16) by (rewrite Z.pow_add_r by lia; lia).
    apply lor_lt; [lia| |lia]. rewrite Z.shiftl_mul_pow2 by lia. change (2 ^ 4) with 16. lia.
Qed.

Lemma group_bytes acc : 0 ≤ acc < 2 ^ 16 → Forall is_byte [Z.shiftr acc 8; Z.land acc 255].
Proof.
  intros H. change 255 with (Z.ones 8). rewrite Z.land_ones, Z.shiftr_div_pow2 by lia.
  change (2 ^ 16) with 65536 in H. change (2 ^ 8) with 256. unfold is_byte.
  repeat constructor; Z.to_euclidean_division_equations; lia.
Qed.

Lemma parse_groups_bytes fuel ip ell s ip' ell' rest :
  parse_groups fuel ip ell s = Some (ip', ell', rest) → Forall is_byte ip → (length ip + 2 * fuel ≤ 16)%nat →
  Forall is_byte ip' ∧ (length ip' ≤ 16)%nat.
Proof.
  revert ip ell s. induction fuel as [|fuel IH]; intros ip ell s; cbn [parse_groups].
  { intros [= <- _ _] ??. split; [done|lia]. }
  destruct (hex_run 0 0 s) as [[[off acc] tl]|] eqn:Eh; [|done]. cbn [mbind option_bind].
  intros H Hip Hlen. case_match; [done|].
  assert (Hg : Forall is_byte (ip ++ [Z.shiftr acc 8; Z.land acc 255])).
  { apply Forall_app; split; [done|]. eapply group_bytes, hex_run_range; [| |done]; simpl; lia. }
  assert (Hl : length (ip ++ [Z.shiftr acc 8; Z.land acc 255]) = (length ip + 2)%nat) by (rewrite length_app; done).
  case_match.
  - case_match eqn:El; [done|]. destruct (parse_fields s) as [bs|] eqn:Ef; [|done]. simplify_eq/=.
    apply parse_fields_bytes in Ef as [? Hbs]. b2p. rewrite length_app. split; [by apply Forall_app|lia].
  - repeat (case_match; simplify_eq; try done);
      first [split; [done|lia] | eapply IH; [done..|lia]].
Qed.

Lemma ParseAddr_range s a : ParseAddr s = Some a → in_range a.
Proof.
  assert (H4 : ∀ s a, parseIPv4 s = Some a → in_range a).
  { clear. intros s a. unfold parseIPv4. destruct (parse_fields s) as [bs|] eqn:E; [|done]. intros [= <-].
    apply parse_fields_bytes in E as [Hb Hl]. pose proof (of_bytes_range bs Hb) as H. by rewrite Hl in H. }
  assert (H6 : ∀ s a, parseIPv6 s = Some a → in_range a).
  { clear. intros s a. unfold parseIPv6.
    match goal with |- (let '(_, _) := ?p in _) = _ → _ => destruct p as [s' zo] end. destruct (bool_decide (zo = _)); [done|].
    match goal with |- (let '(_, _) := ?p in _) = _ → _ => destruct p as [ell s''] end. destruct (bool_decide (_ ∧ _)).
    { intros [= <-]. unfold in_range. lia. }
    destruct (parse_groups 8 [] ell s'') as [[[ip ell'] rest]|] eqn:E; [|done]. cbn [mbind option_bind].
    apply parse_groups_bytes in E as [Hb Hl]; [|constructor|simpl; lia].
    case_match; [done|]. destruct ell' as [e|]; case_match eqn:En; try done; intros [= <-]; b2p.
    - assert (Hb' : Forall is_byte (take e ip ++ repeat 0 (16 - length ip) ++ drop e ip)).
      { repeat (apply Forall_app; split); [by apply Forall_take| |by apply Forall_drop].
        apply Forall_forall. intros x Hx. apply list_elem_of_In, repeat_spec in Hx as ->. unfold is_byte; lia. }
      pose proof (of_bytes_range _ Hb') as Hr. rewrite !length_app, repeat_length, length_take, length_drop in Hr.
      replace (Init.Nat.min e (length ip) + (16 - length ip + (length ip - e)))%nat with 16%nat in Hr by lia. exact Hr.
    - pose proof (of_bytes_range _ Hb) as Hr. replace (length ip) with 16%nat in Hr by lia. exact Hr. }
  unfold ParseAddr. generalize s at 2. intros rest. induction rest as [|c rest IH]; cbn [parse_dispatch]; [done|].
  repeat case_match; eauto; done.
Qed.

(** ** Accepted primaries *)

Lemma ParseAddrPort_inv s a p : ParseAddrPort s = Some (a, p) → in_range a ∧ 0 ≤ p ≤ 65535.
Proof.
  unfold ParseAddrPort. destruct (reverse _) as [|port [|h t]]; [done..|].
  destruct (bool_decide (_ ∨ _)); [done|]. destruct (_ && _); [done|].
  destruct (parse_port port) as [p'|] eqn:Ep; [|done]. cbn [mbind option_bind].
  destruct (ParseAddr _) as [a'|] eqn:Ea; [|done]. cbn [mbind option_bind].
  destruct (_ || _); [done|]. intros [= -> ->]. split; [by eapply ParseAddr_range|].
  unfold parse_port in Ep. repeat case_match; simplify_eq; b2p; (split; [by apply atoi_nonneg|lia]).
Qed.

(** What an entry denotes: an address, with a port when it is not one by
    itself, IPv4-mapped addresses read as IPv4. *)
Inductive denotes (raw : str) : Addr → option Z → Prop :=
  | den_addr a : ParseAddr (TrimSpace raw) = Some a → zone_of a = [] → denotes raw (Unmap a) None
  | den_port a p : (∀ a', ParseAddr (TrimSpace raw) = Some a' → zone_of a' ≠ []) →
      ParseAddrPort (TrimSpace raw) = Some (a, p) → zone_of a = [] → 1 ≤ p ≤ 65535 → denotes raw (Unmap a) (Some p).

Definition canonical (a : Addr) (port : option Z) : str :=
  match port with None => String a | Some p => AddrPortString a p end.

Lemma master_Ok raw c :
  master raw = Ok c ↔ ∃ a p, denotes raw a p ∧ unicast a ∧ c = canonical a p.
Proof.
  unfold master.
  assert (Hp : ∀ W, (∀ a', ParseAddr (TrimSpace raw) = Some a' → zone_of a' ≠ []) →
    W = match ParseAddrPort (TrimSpace raw) with
    | Some (a, port) =>
      if negb (bool_decide (zone_of a = []))
      then Err (mastersErr (goquote (TrimSpace raw) ++ " is not an IP literal with an optional port"))
      else if port =? 0 then Err (mastersErr "port must be within [1, 65535]")
      else g ← guard a; Ok (AddrPortString g port)
    | None => Err (mastersErr (goquote (TrimSpace raw) ++ " is not an IP literal with an optional port"))
    end → W = Ok c ↔ ∃ a p, denotes raw a p ∧ unicast a ∧ c = canonical a p).
  { intros W Hn ->. destruct (ParseAddrPort (TrimSpace raw)) as [[a p]|] eqn:Ea.
    2:{ split; [done|]. intros (? & ? & [a Ha Hz|a p Hnn Hpp _] & _); [by destruct (Hn a)|congruence]. }
    destruct (ParseAddrPort_inv _ _ _ Ea) as [Hr Hrange].
    case_bool_decide as Hz; res_simpl.
    2:{ split; [done|]. intros (? & ? & [a' Ha ?|a' p' Hnn Hpp ?] & _); [by destruct (Hn a')|congruence]. }
    destruct (Z.eqb_spec p 0) as [->|Hp0].
    { split; [done|]. intros (? & ? & [a' Ha ?|a' p' Hnn Hpp ??] & _); [by destruct (Hn a')|simplify_eq; lia]. }
    rewrite bind_Ok. split.
    - intros (g & [-> Hu]%guard_Ok & [= <-]); [|done..]. exists (Unmap a), (Some p). split; [|done].
      constructor; [done..|lia].
    - intros (x & y & [a' Ha ?|a' p' Hnn Hpp ??] & Hu & ->); [by destruct (Hn a')|]. simplify_eq.
      eexists. split; [apply guard_Ok; [done..|]; by split|done]. }
  destruct (ParseAddr (TrimSpace raw)) as [a|] eqn:Ea; [|by apply Hp]. case_bool_decide as Hz; [|apply Hp; [congruence|done]].
  clear Hp. rewrite bind_Ok. pose proof (ParseAddr_range _ _ Ea). split.
  - intros (g & [-> Hu]%guard_Ok & [= <-]); [|done..]. exists (Unmap a), None. split; [by constructor|done].
  - intros (x & y & [a' Ha ?|a' p' Hnn Hpp ??] & Hu & ->); [|by destruct (Hnn a)]. simplify_eq.
    eexists. split; [apply guard_Ok; [done..|]; by split|done].
Qed.

Lemma masters_loop_Ok l seen out :
  masters_loop l seen = Ok out ↔
  Forall2 (λ raw c, master raw = Ok c) l out ∧ NoDup out ∧ ∀ c, c ∈ out → c ∉ seen.
Proof.
  revert seen out. induction l as [|raw l IH]; intros seen out; cbn [masters_loop].
  - split; [intros [= <-]; split; [constructor|split; [constructor|by intros ? ?%elem_of_nil]]|].
    by intros [->%Forall2_nil_inv_l _].
  - rewrite bind_Ok. split.
    + intros (c & Hc & H). case_bool_decide as Hs; [done|].
      apply bind_Ok in H as (rest & (H2 & Hnd & Hsn)%IH & [= <-]).
      split; [by constructor|]. split; [constructor; [|done]|]; [intros Hin; apply Hsn in Hin; set_solver|].
      intros c' [->|Hin]%elem_of_cons; [done|]. apply Hsn in Hin. set_solver.
    + intros (H2 & Hnd & Hsn). inversion H2 as [|? c ? rest Hc Hrest]; subst. exists c. split; [done|].
      apply NoDup_cons in Hnd as [Hnin Hnd]. rewrite bool_decide_eq_false_2 by (apply Hsn; set_solver).
      apply bind_Ok. exists rest. split; [|done]. apply IH. split_and!; [done..|].
      intros c' Hin [->|Hs]%elem_of_cons; [done|]. eapply Hsn; [|done]. set_solver.
Qed.

(** [Masters] accepts exactly the lists of at most sixteen entries each
    denoting an allowed address (with a port of 1 to 65535, if it has one) whose
    canonical forms are distinct, and returns those forms in order.  An allowed
    address is a 32- or 128-bit number outside loopback, link-local, multicast,
    unspecified and broadcast space, so no accepted primary of a secondary zone
    points the server at itself or at its link, IPv4-mapped forms included. *)
Theorem Masters_spec l out :
  Masters l = Ok out ↔
  (length l ≤ 16)%nat ∧ NoDup out ∧
  Forall2 (λ raw c, ∃ a p, denotes raw a p ∧ unicast a ∧ c = canonical a p) l out.
Proof.
  unfold Masters, MaxMasters. destruct (Z.ltb_spec 16 (Z.of_nat (length l))) as [Hl|Hl].
  { split; [done|lia]. }
  rewrite masters_loop_Ok. split.
  - intros (H2 & ? & _). split; [lia|]. split; [done|]. eapply Forall2_impl; [done|]. intros ??. apply master_Ok.
  - intros (_ & ? & H2). split_and!; [|done|set_solver]. eapply Forall2_impl; [done|]. intros ??. apply master_Ok.
Qed.

Lemma master_err raw e : master raw = Err e → Is e ErrMasters = true.
Proof.
  assert (Hg : ∀ A (f : Addr → res A) a e, (∀ g, is_ok (f g) = true) → (g ← guard a; f g) = Err e → Is e ErrMasters = true).
  { intros A f a e' Hf. unfold guard. destruct (_ || _); res_simpl; [by intros [= <-]|].
    intros E. specialize (Hf (Unmap a)). by rewrite E in Hf. }
  unfold master. repeat (case_match; try (intros [= <-]; reflexivity)); by apply Hg.
Qed.

Lemma Masters_err l e : Masters l = Err e → Is e ErrMasters = true.
Proof.
  unfold Masters. case_match; [by intros [= <-]|]. generalize (@nil str).
  induction l as [|raw l IH]; intros seen; cbn [masters_loop]; [done|].
  destruct (master raw) as [c|e'] eqn:Em; res_simpl; [|intros [= <-]; by eapply master_err].
  case_bool_decide; [by intros [= <-]|]. destruct (masters_loop l _) eqn:El; res_simpl; [done|].
  intros [= <-]. eapply IH; [|done]. rewrite Z.ltb_ge in *. simpl in *. lia.
Qed.

Example Masters_forms :
  Masters [" 192.0.2.1:5300" : str; "::ffff:192.0.2.7" : str; "2001:DB8:0::1" : str]
  = Ok ["192.0.2.1:5300" : str; "192.0.2.7" : str; "2001:db8::1" : str]
  ∧ is_ok (Masters ["[::ffff:127.0.0.1]:53" : str]) = false.
Proof. by vm_compute. Qed.
End Masters.
