(* ===== verification/NetipText.v ===== *)
(** * Addresses as text: what [net/netip] prints it reads back

    [String] of an address, as the module's validators canonicalise with it, is
    read by [ParseAddr] as that address, in all its forms: dotted decimal, eight
    groups, a [::] for the longest run of zeros, an IPv4-mapped tail.  The same for
    prefixes and for addresses with a port. *)
From Stdlib Require Import Ascii.
From S2P Require Import Prelude GoStrings GoError Store Names Netip Masters.
Local Open Scope Z_scope.

Module NetipText.
Import Netip Masters.

(** ** Bits *)

Lemma join_low y k : 0 ≤ k → Z.lor (Z.shiftl (Z.shiftr y k) k) (Z.land y (Z.ones k)) = y.
Proof.
  intros Hk. apply Z.bits_inj'. intros n Hn. rewrite Z.lor_spec, Z.land_spec, Z.shiftl_spec, Z.testbit_ones_nonneg by lia.
  destruct (Z.ltb_spec n k).
  - rewrite Z.testbit_neg_r by lia. by rewrite andb_true_r.
  - rewrite Z.shiftr_spec by lia. replace (n - k + k) with n by lia. by rewrite andb_false_r, orb_false_r.
Qed.
Lemma shiftr_small x k : 0 ≤ k → 0 ≤ x < 2 ^ k → Z.shiftr x k = 0.
Proof. intros Hk Hx. rewrite Z.shiftr_div_pow2 by lia. by apply Z.div_small. Qed.

Lemma of_bytes_snoc bs x : of_bytes (bs ++ [x]) = Z.lor (Z.shiftl (of_bytes bs) 8) x.
Proof. unfold of_bytes. by rewrite fold_left_app. Qed.

Lemma of_bytes_app p q : of_bytes (p ++ q) = Z.lor (Z.shiftl (of_bytes p) (8 * Z.of_nat (length q))) (of_bytes q).
Proof.
  induction q as [|x q IH] using rev_ind; [rewrite app_nil_r; simpl; by rewrite Z.shiftl_0_r, Z.lor_0_r|].
  rewrite app_assoc, !of_bytes_snoc, IH, Z.shiftl_lor, Z.shiftl_shiftl, <- Z.lor_assoc by lia. rewrite length_app. cbn [length]. f_equal. f_equal. lia.
Qed.

(** The bytes of an [n]-byte number. *)
Lemma of_bytes_bytes n b : 0 ≤ b < 2 ^ (8 * Z.of_nat n) → of_bytes (map (λ k, byte_of (Z.of_nat n) (Z.of_nat k) b) (seq 0 n)) = b.
Proof.
  intros Hb. cut (∀ m, (m ≤ n)%nat → of_bytes (map (λ k, byte_of (Z.of_nat n) (Z.of_nat k) b) (seq 0 m)) = Z.shiftr b (8 * (Z.of_nat n - Z.of_nat m))).
  { intros H. rewrite (H n) by lia. replace (8 * (Z.of_nat n - Z.of_nat n)) with 0 by lia. apply Z.shiftr_0_r. }
  induction m as [|m IH]; intros Hm.
  - replace (8 * (Z.of_nat n - Z.of_nat 0)) with (8 * Z.of_nat n) by lia. by rewrite shiftr_small by lia.
  - rewrite seq_S, map_app. cbn [map]. rewrite of_bytes_snoc, IH by lia. unfold byte_of. change 255 with (Z.ones 8).
    set (y := Z.shiftr b (8 * (Z.of_nat n - 1 - Z.of_nat (0 + m)))).
    replace (Z.shiftr b (8 * (Z.of_nat n - Z.of_nat m))) with (Z.shiftr y 8).
    + rewrite join_low by lia. unfold y. f_equal. lia.
    + unfold y. rewrite Z.shiftr_shiftr by lia. f_equal. lia.
Qed.

(** The bytes of 16-bit groups. *)
Definition G (gs : list Z) : list Z := flat_map (λ g, [Z.shiftr g 8; Z.land g 255]) gs.
Lemma G_app a b : G (a ++ b) = G a ++ G b.
Proof. apply flat_map_app. Qed.
Lemma length_G gs : length (G gs) = (2 * length gs)%nat.
Proof. induction gs as [|g gs IH]; [done|]. change (S (S (length (G gs))) = 2 * S (length gs))%nat. lia. Qed.
Lemma G_zeros n : G (repeat 0 n) = repeat 0 (2 * n).
Proof. induction n as [|n IH]; [done|]. replace (2 * S n)%nat with (S (S (2 * n))) by lia. change (0 :: 0 :: G (repeat 0 n) = 0 :: 0 :: repeat 0 (2 * n)). by rewrite IH. Qed.
Lemma of_bytes_G_snoc gs g : of_bytes (G (gs ++ [g])) = Z.lor (Z.shiftl (of_bytes (G gs)) 16) g.
Proof.
  rewrite G_app. change (G [g]) with ([Z.shiftr g 8] ++ [Z.land g 255]). rewrite app_assoc, !of_bytes_snoc.
  rewrite Z.shiftl_lor, Z.shiftl_shiftl by lia. change (8 + 8) with 16. rewrite <- Z.lor_assoc. f_equal. change 255 with (Z.ones 8). by apply join_low.
Qed.
Lemma of_bytes_groups b : 0 ≤ b < 2 ^ 128 → of_bytes (G (groups b)) = b.
Proof.
  intros Hb. cut (∀ m, (m ≤ 8)%nat → of_bytes (G (map (λ k, v6u16 (Z.of_nat k) b) (seq 0 m))) = Z.shiftr b (16 * (8 - Z.of_nat m))).
  { intros H. unfold groups. rewrite (H 8%nat) by lia. apply Z.shiftr_0_r. }
  induction m as [|m IH]; intros Hm.
  - change (16 * (8 - Z.of_nat 0)) with 128. by rewrite shiftr_small by lia.
  - rewrite seq_S, map_app. cbn [map]. rewrite of_bytes_G_snoc, IH by lia. unfold v6u16. change 65535 with (Z.ones 16).
    set (y := Z.shiftr b (16 * (7 - Z.of_nat (0 + m)))).
    replace (Z.shiftr b (16 * (8 - Z.of_nat m))) with (Z.shiftr y 16).
    + rewrite join_low by lia. unfold y. f_equal. lia.
    + unfold y. rewrite Z.shiftr_shiftr by lia. f_equal. lia.
Qed.
Lemma groups_range b : Forall (λ g, 0 ≤ g < 65536) (groups b).
Proof.
  unfold groups. apply Forall_map, Forall_true. intros k. unfold v6u16. change 65535 with (Z.ones 16). rewrite Z.land_ones by lia.
  by apply Z.mod_pos_bound.
Qed.

(** ** Hexadecimal groups *)

Definition hexc (c : ascii) : Prop := is_Some (hex_val c).
Lemma hex_val_digit d : 0 ≤ d < 16 → hex_val (hex_digit d) = Some d.
Proof.
  intros Hd. assert (Hin : d ∈ map Z.of_nat (seq 0 16)).
  { apply list_elem_of_fmap. exists (Z.to_nat d). split; [lia|]. apply elem_of_seq. lia. }
  revert Hin. clear Hd. cbn [seq map]. intros Hin. repeat (apply elem_of_cons in Hin as [->|Hin]; [vm_compute; reflexivity|]). by apply elem_of_nil in Hin.
Qed.
Lemma hex_run_digit n acc d t : (n ≤ 3)%nat → 0 ≤ d < 16 → hex_run n acc (hex_digit d :: t) = hex_run (S n) (Z.lor (Z.shiftl acc 4) d) t.
Proof. intros Hn Hd. cbn [hex_run]. rewrite hex_val_digit by done. destruct (Nat.ltb_spec 3 n); [lia|done]. Qed.
Lemma hex_run_end n acc rest : (∀ c, head rest = Some c → ¬ hexc c) → hex_run n acc rest = Some (n, acc, rest).
Proof. destruct rest as [|c t]; [done|]. intros H. cbn [hex_run]. destruct (hex_val c) eqn:E; [|done]. destruct (H c eq_refl). unfold hexc. by rewrite E. Qed.

Lemma land15_range x : 0 ≤ Z.land x 15 < 16.
Proof. change 15 with (Z.ones 4). rewrite Z.land_ones by lia. by apply Z.mod_pos_bound. Qed.

Lemma hex_run_hex16 x rest :
  0 ≤ x < 65536 → (∀ c, head rest = Some c → ¬ hexc c) → ∃ n, n ≠ 0%nat ∧ hex_run 0 0 (hex16 x ++ rest) = Some (n, x, rest).
Proof.
  intros Hx Hr. unfold hex16. rewrite <- !app_assoc.
  assert (J : ∀ j, 0 ≤ j → Z.lor (Z.shiftl (Z.shiftr x (j + 4)) 4) (Z.land (Z.shiftr x j) 15) = Z.shiftr x j).
  { intros j Hj. rewrite <- Z.shiftr_shiftr by lia. change 15 with (Z.ones 4). by apply join_low. }
  assert (H12 : 0 ≤ Z.shiftr x 12 < 16).
  { rewrite Z.shiftr_div_pow2 by lia. split; [apply Z.div_pos; lia|]. apply Z.div_lt_upper_bound; lia. }
  assert (Last : ∀ n acc, (n ≤ 3)%nat → acc = Z.shiftr x 4 → hex_run n acc ([hex_digit (Z.land x 15)] ++ rest) = Some (S n, x, rest)).
  { intros n acc Hn ->. cbn [app]. rewrite hex_run_digit, hex_run_end by (done || apply land15_range).
    pose proof (J 0 ltac:(lia)) as J0. rewrite Z.shiftr_0_r in J0. change (0 + 4) with 4 in J0. by rewrite J0. }
  assert (Third : ∀ n acc, (n ≤ 2)%nat → acc = Z.shiftr x 8 → (n ≠ 0%nat → 16 ≤ x) → ∃ m, m ≠ 0%nat ∧
    hex_run n acc ((if 16 <=? x then [hex_digit (Z.land (Z.shiftr x 4) 15)] else []) ++ [hex_digit (Z.land x 15)] ++ rest) = Some (m, x, rest)).
  { intros n acc Hn -> Hm. destruct (Z.leb_spec 16 x).
    - exists (S (S n)). split; [done|]. cbn [app]. rewrite hex_run_digit by (lia || apply land15_range). apply Last; [lia|]. exact (J 4 ltac:(lia)).
    - assert (n = 0%nat) as -> by lia. exists 1%nat. split; [done|]. apply Last; [lia|]. rewrite !shiftr_small by (simpl; lia). done. }
  assert (Second : ∀ n acc, (n ≤ 1)%nat → acc = Z.shiftr x 12 → (n ≠ 0%nat → 256 ≤ x) → ∃ m, m ≠ 0%nat ∧
    hex_run n acc ((if 256 <=? x then [hex_digit (Z.land (Z.shiftr x 8) 15)] else [])
      ++ (if 16 <=? x then [hex_digit (Z.land (Z.shiftr x 4) 15)] else []) ++ [hex_digit (Z.land x 15)] ++ rest) = Some (m, x, rest)).
  { intros n acc Hn -> Hm. destruct (Z.leb_spec 256 x).
    - cbn [app]. rewrite hex_run_digit by (lia || apply land15_range). apply Third; [lia|exact (J 8 ltac:(lia))|lia].
    - assert (n = 0%nat) as -> by lia. apply Third; [lia|by rewrite !shiftr_small by (simpl; lia)|lia]. }
  destruct (Z.leb_spec 4096 x).
  - cbn [app]. rewrite hex_run_digit by (lia || done). apply Second; [lia|done|lia].
  - apply Second; [lia|by rewrite shiftr_small by (simpl; lia)|lia].
Qed.

Lemma hexc_digit d : 0 ≤ d < 16 → hexc (hex_digit d).
Proof. intros Hd. unfold hexc. by rewrite hex_val_digit. Qed.
Lemma hex16_hex x : 0 ≤ x < 65536 → Forall hexc (hex16 x) ∧ hex16 x ≠ [].
Proof.
  intros Hx. unfold hex16. assert (H12 : hexc (hex_digit (Z.shiftr x 12))).
  { apply hexc_digit. rewrite Z.shiftr_div_pow2 by lia. split; [apply Z.div_pos; lia|]. apply Z.div_lt_upper_bound; lia. }
  pose proof (λ y, hexc_digit _ (land15_range y)) as Hd. split.
  - repeat (apply Forall_app; split); repeat case_match; repeat constructor; auto.
  - by intros [_ [_ [_ ?]%app_nil]%app_nil]%app_nil.
Qed.
Lemma hexc_sep c : hexc c → c ≠ ":"%char ∧ c ≠ dot ∧ c ≠ "%"%char ∧ c ≠ "/"%char ∧ c ≠ "["%char ∧ c ≠ "]"%char.
Proof. intros [d Hd]. split_and!; intros ->; vm_compute in Hd; discriminate Hd. Qed.
Lemma not_hexc c : hex_val c = None → ¬ hexc c.
Proof. intros H [d Hd]. congruence. Qed.

(** The text of a list of groups. *)
Definition joined (gs : list Z) : str := Join (map hex16 gs) ":".
Lemma joined_cons g h gs : joined (g :: h :: gs) = hex16 g ++ ":"%char :: joined (h :: gs).
Proof. done. Qed.
Lemma joined_head g gs : 0 ≤ g < 65536 → ∃ c t, joined (g :: gs) = c :: t ∧ hexc c.
Proof.
  intros Hg. destruct (hex16_hex g Hg) as [Hh Hne]. unfold joined. cbn [map Join]. destruct (hex16 g) as [|c t]; [done|]. inversion Hh; subst.
  destruct (map hex16 gs); [by exists c, t|]. by eexists _, _.
Qed.

Lemma parse_groups_step fuel ip ell g rest :
  0 ≤ g < 65536 → (∀ c, head rest = Some c → c = ":"%char) →
  parse_groups (S fuel) ip ell (hex16 g ++ rest) =
    let ip := ip ++ [Z.shiftr g 8; Z.land g 255] in
    match rest with
    | [] => Some (ip, ell, [])
    | _ :: [] => None
    | _ :: c' :: t' =>
      if bool_decide (c' = ":"%char) then
        match ell with
        | Some _ => None
        | None => match t' with [] => Some (ip, Some (length ip), []) | _ => parse_groups fuel ip (Some (length ip)) t' end
        end
      else parse_groups fuel ip ell (c' :: t')
    end.
Proof.
  intros Hg Hr. cbn [parse_groups]. destruct (hex_run_hex16 g rest Hg) as (n & Hn & E).
  { intros c Hc. rewrite (Hr c Hc). by apply not_hexc. }
  rewrite E. cbn [mbind option_bind]. destruct (Nat.eqb_spec n 0); [done|].
  destruct rest as [|c [|c' t']]; [done| |]; rewrite (Hr c eq_refl); rewrite bool_decide_eq_false_2 by done; rewrite bool_decide_eq_true_2 by done; done.
Qed.

(** Groups up to the end of the text. *)
Lemma parse_groups_end gs fuel ip ell :
  gs ≠ [] → Forall (λ g, 0 ≤ g < 65536) gs → (length gs ≤ fuel)%nat →
  parse_groups fuel ip ell (joined gs) = Some (ip ++ G gs, ell, []).
Proof.
  intros Hne H. revert fuel ip Hne. induction H as [|g gs Hg Hgs IH]; intros fuel ip Hne Hl; [done|]. destruct fuel as [|fuel]; [cbn [length] in Hl; lia|].
  destruct gs as [|h gs].
  - unfold joined. cbn [map Join]. rewrite <- (app_nil_r (hex16 g)). rewrite parse_groups_step by done. done.
  - rewrite joined_cons. rewrite parse_groups_step by (done || by intros ? [= <-]). cbv zeta. inversion Hgs; subst.
    destruct (joined_head h gs) as (c & t & E & (Hc & _)%hexc_sep); [done|]. rewrite E. rewrite bool_decide_eq_false_2 by done. rewrite <- E.
    rewrite IH by (done || cbn [length] in *; lia). rewrite <- app_assoc. done.
Qed.

(** Groups around a [::]. *)
Lemma parse_groups_mid gs1 gs2 fuel ip :
  gs1 ≠ [] → Forall (λ g, 0 ≤ g < 65536) gs1 → Forall (λ g, 0 ≤ g < 65536) gs2 → (length gs1 + length gs2 ≤ fuel)%nat →
  parse_groups fuel ip None (joined gs1 ++ "::" ++ joined gs2) = Some (ip ++ G gs1 ++ G gs2, Some (length ip + 2 * length gs1)%nat, []).
Proof.
  intros Hne H H2. revert fuel ip Hne. induction H as [|g gs Hg Hgs IH]; intros fuel ip Hne Hl; [done|]. destruct fuel as [|fuel]; [cbn [length] in Hl; lia|].
  destruct gs as [|h gs].
  - unfold joined at 1. cbn [map Join]. rewrite parse_groups_step by (done || by intros ? [= <-]). cbv zeta.
    change ("::" ++ joined gs2) with (":"%char :: ":"%char :: joined gs2). cbn iota. rewrite bool_decide_eq_true_2 by done.
    assert (El : length (ip ++ [Z.shiftr g 8; Z.land g 255]) = (length ip + 2 * 1)%nat) by (rewrite length_app; simpl; lia). rewrite El.
    destruct gs2 as [|g2 gs2]; [cbn [length]; by rewrite app_nil_r|]. inversion H2; subst.
    destruct (joined_head g2 gs2) as (c & t & E & _); [done|]. rewrite E, <- E. rewrite parse_groups_end by (done || cbn [length] in *; lia).
    by rewrite <- app_assoc.
  - rewrite joined_cons, <- app_assoc. cbn [app]. rewrite parse_groups_step by (done || by intros ? [= <-]). cbv zeta. inversion Hgs; subst.
    destruct (joined_head h gs) as (c & t & E & (Hc & _)%hexc_sep); [done|]. rewrite E. cbn [app]. rewrite bool_decide_eq_false_2 by done.
    change (c :: t ++ lit "::" ++ joined gs2) with ((c :: t) ++ lit "::" ++ joined gs2). rewrite <- E.
    rewrite IH by (done || cbn [length] in *; lia). rewrite length_app, <- app_assoc. cbn [length].
    replace (length ip + 2 + 2 * S (length gs))%nat with (length ip + 2 * S (S (length gs)))%nat by lia. done.
Qed.

(** ** The run of zeros behind [::] *)

Lemma zeros_spec gs : (zeros gs ≤ length gs)%nat ∧ take (zeros gs) gs = repeat 0 (zeros gs).
Proof.
  induction gs as [|g gs [IH1 IH2]]; [done|]. cbn [zeros]. destruct (Z.eqb_spec g 0) as [->|]; cbn [length take repeat]; [|split; [lia|done]].
  split; [lia|]. by rewrite IH2.
Qed.
(** [all] with its groups from [zs] to [ze] zero. *)
Definition zero_between (all : list Z) (zs ze : nat) : Prop :=
  (zs + 2 ≤ ze ≤ length all)%nat ∧ all = take zs all ++ repeat 0 (ze - zs) ++ drop ze all.
Lemma zero_run_between pre gs best :
  best = (255, 255)%nat ∨ zero_between (pre ++ gs) best.1 best.2 →
  zero_run (length pre) gs best = (255, 255)%nat ∨
  zero_between (pre ++ gs) (zero_run (length pre) gs best).1 (zero_run (length pre) gs best).2.
Proof.
  revert pre best. induction gs as [|g gs IH]; intros pre best Hb; [done|]. cbn [zero_run]. cbv zeta.
  specialize (IH (pre ++ [g])). rewrite length_app, <- app_assoc in IH. cbn [length] in IH. replace (length pre + 1)%nat with (S (length pre)) in IH by lia.
  apply IH. destruct ((2 <=? zeros (g :: gs))%nat && _) eqn:E; [|done]. right. apply andb_true_iff in E as [E _]. apply Nat.leb_le in E.
  destruct (zeros_spec (g :: gs)) as [Hl Ht]. cbn [fst snd app] in *. split; [rewrite length_app; lia|].
  rewrite take_app_length, drop_app_add. replace (length pre + zeros (g :: gs) - length pre)%nat with (zeros (g :: gs)) by lia.
  rewrite <- Ht. by rewrite take_drop.
Qed.

Lemma joined_no (c : ascii) gs : Forall (λ g, 0 ≤ g < 65536) gs → c ≠ ":"%char → ¬ hexc c → c ∉ joined gs.
Proof.
  intros H Hc Hx. induction H as [|g gs Hg Hgs IH]; [by apply not_elem_of_nil|]. destruct (hex16_hex g Hg) as [Hh _].
  assert (Hn : c ∉ hex16 g) by (intros Hin; rewrite Forall_forall in Hh; auto). destruct gs as [|h gs]; [done|].
  rewrite joined_cons, not_elem_of_app, not_elem_of_cons. done.
Qed.
Lemma parseIPv6_plain s :
  "%"%char ∉ s → HasPrefix s "::" = false → parseIPv6 s =
  ('(ip, ell, rest) ← parse_groups 8 [] None s;
  if negb (bool_decide (rest = [])) then None else
  let n := (16 - length ip)%nat in
  match ell with
  | None => if (0 <? n)%nat then None else Some (V6 (of_bytes ip) [])
  | Some e => if (n =? 0)%nat then None
              else Some (V6 (of_bytes (take e ip ++ repeat 0 n ++ drop e ip)) [])
  end).
Proof. intros Hp Hc. unfold parseIPv6. rewrite SplitByte_nosep by done. cbn iota. rewrite Hc. rewrite bool_decide_eq_false_2 by done. cbn [default]. rewrite bool_decide_eq_false_2 by (by intros [? _]). done. Qed.
Lemma parseIPv6_lead s :
  "%"%char ∉ s → s ≠ [] → parseIPv6 ("::" ++ s) =
  ('(ip, ell, rest) ← parse_groups 8 [] (Some 0%nat) s;
  if negb (bool_decide (rest = [])) then None else
  let n := (16 - length ip)%nat in
  match ell with
  | None => if (0 <? n)%nat then None else Some (V6 (of_bytes ip) [])
  | Some e => if (n =? 0)%nat then None
              else Some (V6 (of_bytes (take e ip ++ repeat 0 n ++ drop e ip)) [])
  end).
Proof.
  intros Hp Hne. unfold parseIPv6. assert (Hq : "%"%char ∉ "::" ++ s).
  { rewrite not_elem_of_app. split; [|done]. vm_compute. intros H. repeat (apply elem_of_cons in H as [H|H]; [discriminate H|]). by apply elem_of_nil in H. }
  rewrite SplitByte_nosep by done. cbn iota. assert (Hh : HasPrefix ("::" ++ s) "::" = true) by (apply bool_decide_eq_true; by exists s). rewrite Hh.
  rewrite bool_decide_eq_false_2 by done. cbn [default]. change (drop 2 ("::" ++ s)) with s. rewrite bool_decide_eq_false_2 by (by intros [_ ?]). done.
Qed.

Lemma string6_shape b :
  (∃ zs ze, zero_between (groups b) zs ze ∧ string6 b = joined (take zs (groups b)) ++ "::" ++ joined (drop ze (groups b)))
  ∨ string6 b = joined (groups b).
Proof.
  unfold string6. cbv zeta. pose proof (zero_run_between [] (groups b) (255, 255)%nat (or_introl eq_refl)) as Hz. cbn [length app] in Hz.
  destruct (zero_run 0 (groups b) (255, 255)%nat) as [zs ze]. cbn [fst snd] in Hz. destruct Hz as [[= -> ->]|Hz]; [right; done|].
  left. exists zs, ze. split; [done|]. destruct (Nat.ltb_spec zs 8) as [_|H]; [done|]. destruct Hz as [Hl _]. change (length (groups b)) with 8%nat in Hl. lia.
Qed.
Lemma not_prefix_hex c t : hexc c → HasPrefix (c :: t) "::" = false.
Proof.
  intros (Hc & _)%hexc_sep. apply bool_decide_eq_false. intros [k E]. change (c :: t = ":"%char :: ":"%char :: k) in E. by injection E as E _.
Qed.
Lemma percent_not_hexc : "%"%char ≠ ":"%char ∧ ¬ hexc "%"%char.
Proof. split; [done|]. by apply not_hexc. Qed.

Lemma parseIPv6_string6 b : 0 ≤ b < 2 ^ 128 → parseIPv6 (string6 b) = Some (V6 b []).
Proof.
  intros Hb. pose proof (groups_range b) as Hg. pose proof (of_bytes_groups b Hb) as Hof. destruct percent_not_hexc as [P1 P2].
  assert (Hl : length (groups b) = 8%nat) by reflexivity.
  destruct (string6_shape b) as [(zs & ze & [Hz Hzero] & ->)| ->]; set (gs := groups b) in *; clearbody gs.
  - rewrite Hl in Hz. assert (Ht : Forall (λ g, 0 ≤ g < 65536) (take zs gs)) by (by apply Forall_take).
    assert (Hd : Forall (λ g, 0 ≤ g < 65536) (drop ze gs)) by (by apply Forall_drop).
    assert (L1 : length (take zs gs) = zs) by (rewrite length_take; lia). assert (L2 : length (drop ze gs) = (8 - ze)%nat) by (rewrite length_drop; lia).
    assert (HG : G (take zs gs) ++ repeat 0 (16 - (2 * zs + 2 * (8 - ze))) ++ G (drop ze gs) = G gs).
    { rewrite Hzero at 3. rewrite !G_app, G_zeros. by replace (16 - (2 * zs + 2 * (8 - ze)))%nat with (2 * (ze - zs))%nat by lia. }
    destruct (take zs gs) as [|g1 t1] eqn:E1.
    + cbn [length] in L1. subst zs. change (joined []) with (@nil ascii). cbn [app]. destruct (drop ze gs) as [|g2 t2] eqn:E2.
      * change (joined []) with (@nil ascii). rewrite app_nil_r. change (G []) with (@nil Z) in HG. rewrite app_nil_r in HG. cbn [app] in HG.
        cbn [length] in L2. replace (16 - (2 * 0 + 2 * (8 - ze)))%nat with 16%nat in HG by lia. rewrite <- HG in Hof.
        change (of_bytes (repeat 0 16)) with 0 in Hof. rewrite <- Hof. vm_compute. reflexivity.
      * destruct (joined_head g2 t2) as (c & t & Ej & _); [by inversion Hd|]. rewrite parseIPv6_lead by (by apply joined_no || by rewrite Ej).
        rewrite parse_groups_end by (done || lia). cbn [mbind option_bind app]. rewrite bool_decide_eq_true_2 by done. cbn [negb]. cbv zeta.
        rewrite length_G. cbn [take drop app]. destruct (Nat.eqb_spec (16 - 2 * length (g2 :: t2)) 0); [lia|]. do 2 f_equal. rewrite <- Hof. f_equal. rewrite <- HG.
        cbn [app]. change (G []) with (@nil Z). cbn [app]. rewrite L2. by replace (16 - (2 * 0 + 2 * (8 - ze)))%nat with (16 - 2 * (8 - ze))%nat by lia.
    + destruct (joined_head g1 t1) as (c & t & Ej & Hc); [by inversion Ht|].
      rewrite parseIPv6_plain; [|rewrite !not_elem_of_app; split; [by apply joined_no|split; [|by apply joined_no]]; vm_compute; intros H; repeat (apply elem_of_cons in H as [H|H]; [discriminate H|]); by apply elem_of_nil in H|rewrite Ej; by apply not_prefix_hex].
      rewrite parse_groups_mid by (done || lia). cbn [mbind option_bind app]. rewrite bool_decide_eq_true_2 by done. cbn [negb]. cbv zeta.
      rewrite length_app, !length_G, L1, L2. destruct (Nat.eqb_spec (16 - (2 * zs + 2 * (8 - ze))) 0); [lia|].
      change (length (@nil Z)) with 0%nat. rewrite Nat.add_0_l. rewrite take_app_length', drop_app_length' by (rewrite length_G; lia). rewrite HG, Hof. done.
  - destruct gs as [|g gs]; [done|]. destruct (joined_head g gs) as (c & t & Ej & Hc); [by inversion Hg|].
    rewrite parseIPv6_plain by (by apply joined_no || (rewrite Ej; by apply not_prefix_hex)). rewrite parse_groups_end by (done || lia).
    cbn [mbind option_bind app]. rewrite bool_decide_eq_true_2 by done. cbn [negb]. cbv zeta. rewrite length_G, Hl. rewrite Hof. reflexivity.
Qed.

(** ** Dotted decimal *)

Definition octet_printed (x : Z) : bool :=
  match octet (Itoa x) with Some y => y =? x | None => false end
  && forallb (λ c, match hex_val c with Some _ => true | None => false end) (Itoa x)
  && (1 <=? length (Itoa x))%nat && (length (Itoa x) <=? 3)%nat.
Lemma octet_text x : 0 ≤ x < 256 → octet (Itoa x) = Some x ∧ Forall hexc (Itoa x) ∧ (1 ≤ length (Itoa x) ≤ 3)%nat.
Proof.
  intros Hx. assert (E : octet_printed x = true) by (apply (by_range octet_printed); [vm_compute; reflexivity|done]). unfold octet_printed in E.
  apply andb_true_iff in E as [E E4%Nat.leb_le]. apply andb_true_iff in E as [E E3%Nat.leb_le]. apply andb_true_iff in E as [E1 E2%forallb_Forall].
  destruct (octet (Itoa x)); [|done]. apply Z.eqb_eq in E1 as ->. split; [done|]. split; [|lia].
  eapply Forall_impl; [exact E2|]. intros c Hc. cbn beta in Hc. unfold hexc. destruct (hex_val c); [by eexists|discriminate Hc].
Qed.
Lemma v4_range k b : 0 ≤ v4 k b < 256.
Proof. unfold v4, byte_of. change 255 with (Z.ones 8). rewrite Z.land_ones by lia. change (2 ^ 8) with 256. by apply Z.mod_pos_bound. Qed.
Lemma As4_bytes b : 0 ≤ b < 2 ^ 32 → of_bytes (As4 b) = b.
Proof. intros Hb. exact (of_bytes_bytes 4 b Hb). Qed.

Lemma parse_fields_string4 b : parse_fields (string4 b) = Some (As4 b).
Proof.
  unfold parse_fields, string4. assert (Hs : SplitByte dot (Join (map Itoa (As4 b)) ".") = map Itoa (As4 b)).
  { apply (SplitByte_Join dot); [done|]. unfold As4. rewrite map_map. apply Forall_map, Forall_true. intros k Hin.
    destruct (octet_text _ (v4_range k b)) as (_ & Hh & _). rewrite Forall_forall in Hh. by apply Hh, hexc_sep in Hin as (_ & ? & _). }
  rewrite Hs, length_map. change (length (As4 b)) with 4%nat. rewrite bool_decide_eq_true_2 by done. cbn [negb].
  apply mapM_Some. apply Forall2_fmap_l, Forall2_same_length_lookup_2; [done|]. intros i x y Hx Hy. simplify_eq. apply octet_text.
  unfold As4 in Hx. apply list_lookup_fmap_Some in Hx as (k & -> & _). apply v4_range.
Qed.

(** The first separator of a text says what it is. *)
Lemma parse_dispatch_sep s w c r : Forall hexc w → parse_dispatch s (w ++ c :: r) = parse_dispatch s (c :: r).
Proof.
  induction 1 as [|d w (H1 & H2 & H3 & _)%hexc_sep _ IH]; [done|]. cbn [app parse_dispatch].
  rewrite !bool_decide_eq_false_2 by done. exact IH.
Qed.

(** [hex_run] stops at the end of the digits. *)
Lemma hex_run_digits w n acc c r :
  Forall hexc w → ¬ hexc c → (n + length w ≤ 4)%nat → ∃ acc', hex_run n acc (w ++ c :: r) = Some ((n + length w)%nat, acc', c :: r).
Proof.
  intros H Hc. revert n acc. induction H as [|d w [v Hd] _ IH]; intros n acc Hl.
  - exists acc. cbn [app length]. rewrite Nat.add_0_r. apply hex_run_end. by intros ? [= <-].
  - cbn [app hex_run length] in *. rewrite Hd. destruct (Nat.ltb_spec 3 n); [lia|]. destruct (IH (S n) (Z.lor (Z.shiftl acc 4) v)) as [acc' E]; [lia|].
    exists acc'. rewrite E. by replace (n + S (length w))%nat with (S n + length w)%nat by lia.
Qed.
Lemma string4_shape b : ∃ w r, string4 b = w ++ dot :: r ∧ Forall hexc w ∧ (1 ≤ length w ≤ 3)%nat.
Proof.
  destruct (octet_text _ (v4_range 0 b)) as (_ & Hh & Hl). eexists (Itoa (v4 0 b)), _. split; [reflexivity|]. done.
Qed.
Lemma string4_no_percent b : "%"%char ∉ string4 b.
Proof.
  unfold string4. intros Hin. assert (Hd : ∀ ls, Forall (Forall hexc) ls → "%"%char ∉ Join ls ".").
  { induction 1 as [|w ls Hw _ IH]; [by apply not_elem_of_nil|]. assert (Hn : "%"%char ∉ w).
    { intros H. rewrite Forall_forall in Hw. by apply Hw, hexc_sep in H as (_ & _ & ? & _). }
    destruct ls as [|w' ls]; [done|]. change ("%"%char ∉ w ++ dot :: Join (w' :: ls) "."). rewrite not_elem_of_app, not_elem_of_cons. done. }
  apply Hd in Hin; [done|]. unfold As4. rewrite map_map. apply Forall_map, Forall_true. intros k. apply octet_text, v4_range.
Qed.

(** An IPv4-mapped address. *)
Lemma parseIPv6_mapped v : 0 ≤ v < 2 ^ 32 → parseIPv6 ("::ffff:" ++ string4 v) = Some (V6 (Z.lor (Z.shiftl 65535 32) v) []).
Proof.
  intros Hv. change ("::ffff:" ++ string4 v) with ("::" ++ hex16 65535 ++ ":"%char :: string4 v).
  destruct (string4_shape v) as (w & r & Es & Hw & Hl). destruct percent_not_hexc as [P1 P2].
  assert (Hp : "%"%char ∉ hex16 65535 ++ ":"%char :: string4 v).
  { rewrite not_elem_of_app, not_elem_of_cons. split; [|split; [done|apply string4_no_percent]].
    intros Hin. destruct (hex16_hex 65535) as [Hh _]; [lia|]. rewrite Forall_forall in Hh. auto. }
  rewrite parseIPv6_lead by (done || by vm_compute). rewrite parse_groups_step by (lia || by intros ? [= <-]). cbv zeta. rewrite Es.
  destruct w as [|c w]; [cbn [length] in Hl; lia|]. cbn [app]. inversion Hw as [|? ? Hc Hw']; subst.
  rewrite bool_decide_eq_false_2 by (by apply hexc_sep in Hc as (? & _)).
  change (c :: w ++ dot :: r) with ((c :: w) ++ dot :: r). rewrite <- Es. cbn [parse_groups].
  destruct (hex_run_digits (c :: w) 0 0 dot r) as [acc' E]; [done|by apply not_hexc|cbn [length] in *; lia|]. rewrite <- Es in E. rewrite E. cbn [mbind option_bind].
  destruct (Nat.eqb_spec (0 + length (c :: w)) 0) as [E0|_]; [cbn [length] in E0; lia|]. cbn [head]. rewrite bool_decide_eq_true_2 by done.
  rewrite parse_fields_string4. pose proof (As4_bytes v Hv) as Hb. unfold As4 in *. cbn [map] in *. cbn [mbind option_bind app length].
  change (false || (16 <? 2 + 4)%nat) with false. cbn iota. cbn [mbind option_bind].
  rewrite bool_decide_eq_true_2 by done. cbn [negb]. cbv zeta. cbn [Nat.sub Nat.eqb take drop]. do 2 f_equal.
  change (Z.shiftr 65535 8) with 255. change (Z.land 65535 255) with 255.
  change (of_bytes ((repeat 0 10 ++ [255; 255]) ++ [v4 0 v; v4 1 v; v4 2 v; v4 3 v]) = Z.lor (Z.shiftl 65535 32) v).
  rewrite of_bytes_app, Hb. reflexivity.
Qed.

(** ** The characters of an address *)

Definition text_char (c : ascii) : Prop := hexc c ∨ c = ":"%char ∨ c = dot.
Lemma text_char_sep c : text_char c → c ≠ "%"%char ∧ c ≠ "/"%char ∧ c ≠ "["%char ∧ c ≠ "]"%char.
Proof. intros [H%hexc_sep|[-> | ->]]; [tauto|done|done]. Qed.
Lemma hexc_text w : Forall hexc w → Forall text_char w.
Proof. intros H. eapply Forall_impl; [exact H|]. intros c ?. by left. Qed.
Lemma Join_text ls sep : Forall (Forall hexc) ls → text_char sep → Forall text_char (Join ls [sep]).
Proof.
  intros H Hs. induction H as [|w ls Hw _ IH]; [constructor|]. destruct ls as [|v ls]; [by apply hexc_text|].
  change (Forall text_char (w ++ sep :: Join (v :: ls) [sep])). apply Forall_app. split; [by apply hexc_text|by constructor].
Qed.
Lemma joined_text gs : Forall (λ g, 0 ≤ g < 65536) gs → Forall text_char (joined gs).
Proof. intros H. apply Join_text; [|by right; left]. apply Forall_map. eapply Forall_impl; [exact H|]. intros g Hg. by apply hex16_hex. Qed.
Lemma string4_text b : Forall text_char (string4 b).
Proof.
  apply Join_text; [|by right; right]. unfold As4. rewrite map_map. apply Forall_map, Forall_true. intros k. apply octet_text, v4_range.
Qed.
Lemma string6_text b : Forall text_char (string6 b).
Proof.
  pose proof (groups_range b) as Hg. destruct (string6_shape b) as [(zs & ze & _ & ->)| ->]; [|by apply joined_text].
  apply Forall_app. split; [by apply joined_text, Forall_take|]. apply Forall_app. split; [|by apply joined_text, Forall_drop].
  do 2 (apply Forall_cons_2; [by right; left|]). constructor.
Qed.
Lemma String_text a : a ≠ Invalid → zone_of a = [] → Forall text_char (String a).
Proof.
  destruct a as [|b|b z]; [done| |]; cbn [zone_of String]; intros _ Hz; [apply string4_text|]. subst z. rewrite bool_decide_eq_true_2, app_nil_r by done.
  destruct (Is4In6 _); [|apply string6_text]. apply Forall_app. split; [|apply string4_text]. do 2 (apply Forall_cons_2; [by right; left|]).
  do 4 (apply Forall_cons_2; [left; by eexists|]). apply Forall_cons_2; [by right; left|]. constructor.
Qed.

(** ** Reading back *)

Lemma string6_first b : ∃ w r, string6 b = w ++ ":"%char :: r ∧ Forall hexc w.
Proof.
  pose proof (groups_range b) as Hg. assert (Hl : length (groups b) = 8%nat) by reflexivity.
  destruct (string6_shape b) as [(zs & ze & _ & ->)| ->].
  - destruct (take zs (groups b)) as [|g [|h gs]] eqn:E; [by eexists [], _|..].
    + exists (hex16 g), (":"%char :: joined (drop ze (groups b))). split; [done|]. apply hex16_hex.
      apply (Forall_take _ zs) in Hg. rewrite E in Hg. by inversion Hg.
    + rewrite joined_cons, <- app_assoc. eexists (hex16 g), _. split; [done|]. apply hex16_hex. apply (Forall_take _ zs) in Hg. rewrite E in Hg. by inversion Hg.
  - destruct (groups b) as [|g [|h gs]]; [done..|]. rewrite joined_cons. eexists (hex16 g), _. split; [done|]. apply hex16_hex. by inversion Hg.
Qed.

Lemma ParseAddr_String a : in_range a → zone_of a = [] → ParseAddr (String a) = Some a.
Proof.
  destruct a as [|b|b z]; [intros []| |]; unfold in_range; cbn [zone_of String]; intros Hb Hz; unfold ParseAddr.
  - destruct (string4_shape b) as (w & r & Es & Hw & _). rewrite Es at 2. rewrite parse_dispatch_sep by done. cbn [parse_dispatch].
    rewrite bool_decide_eq_true_2 by done. unfold parseIPv4. rewrite parse_fields_string4. cbn [mbind option_bind]. by rewrite As4_bytes.
  - subst z. rewrite bool_decide_eq_true_2, app_nil_r by done. destruct (Is4In6 (V6 b [])) eqn:E4.
    + change (parse_dispatch ("::ffff:" ++ string4 (Z.land b 4294967295)) ("::ffff:" ++ string4 (Z.land b 4294967295)))
        with (parseIPv6 ("::ffff:" ++ string4 (Z.land b 4294967295))).
      cbn [Is4In6] in E4. apply Z.eqb_eq in E4. change 4294967295 with (Z.ones 32). rewrite parseIPv6_mapped.
      * rewrite <- E4, join_low by lia. done.
      * rewrite Z.land_ones by lia. by apply Z.mod_pos_bound.
    + destruct (string6_first b) as (w & r & Es & Hw). rewrite Es at 2. rewrite parse_dispatch_sep by done. cbn [parse_dispatch].
      rewrite bool_decide_eq_false_2 by done. rewrite bool_decide_eq_true_2 by done. by apply parseIPv6_string6.
Qed.

Definition length_printed (n : Z) : bool :=
  match Atoi (Itoa n) with Some m => m =? n | None => false end
  && negb ((1 <? Z.of_nat (length (Itoa n)))
           && negb (match Itoa n with c :: _ => (49 <=? code c) && (code c <=? 57) | [] => false end))
  && forallb (λ c, negb (bool_decide (c = "/"%char))) (Itoa n).
Lemma ParsePrefix_String a n :
  in_range a → zone_of a = [] → 0 ≤ n ≤ BitLen a → ParsePrefix (PrefixString (a, n)) = Some (a, n).
Proof.
  intros Hr Hz Hn. assert (Ha : a ≠ Invalid) by (by intros ->). assert (Hn' : 0 ≤ n < 256) by (destruct a; cbn [BitLen] in Hn; lia).
  assert (E : length_printed n = true) by (apply (by_range length_printed); [vm_compute; reflexivity|done]). unfold length_printed in E.
  apply andb_true_iff in E as [E E3%forallb_Forall]. apply andb_true_iff in E as [E1 E2%negb_true_iff].
  unfold ParsePrefix, PrefixString. cbn [fst snd].
  assert (Hs : "/"%char ∉ String a).
  { intros Hin. pose proof (String_text a Ha Hz) as Ht. rewrite Forall_forall in Ht. apply Ht, text_char_sep in Hin as (_ & ? & _). done. }
  assert (Hs' : "/"%char ∉ Itoa n) by (intros Hin; rewrite Forall_forall in E3; apply E3 in Hin; by rewrite bool_decide_eq_true_2 in Hin).
  change (String a ++ "/" ++ Itoa n) with (String a ++ "/"%char :: Itoa n). rewrite SplitByte_app, SplitByte_nosep by done. cbn [reverse rev_append].
  change (reverse [String a]) with [String a]. cbn [Join]. rewrite ParseAddr_String by done. cbn [mbind option_bind].
  rewrite bool_decide_eq_true_2 by done. cbn [negb]. rewrite E2. destruct (Atoi (Itoa n)) as [m|]; [|done]. apply Z.eqb_eq in E1 as ->. cbn [mbind option_bind].
  destruct (Z.ltb_spec n 0); [lia|]. cbn [orb]. destruct a as [|b|b z]; [done| |]; cbn [Is6 BitLen] in *; [destruct (Z.ltb_spec 32 n)|destruct (Z.ltb_spec 128 n)]; done || lia.
Qed.

(** Decimal numbers: digits only, as many as the number has. *)
Lemma pretty_N_char_digit x : digit (pretty_N_char x) = true.
Proof. unfold pretty_N_char. by repeat case_match. Qed.
Lemma pretty_N_go_digits k x s :
  (x < 10 ^ N.of_nat k)%N →
  ∃ d, lit (pretty_N_go x s) = d ++ lit s ∧ Forall (λ c, digit c = true) d ∧ (length d ≤ k)%nat ∧ (x ≠ 0%N → d ≠ []).
Proof.
  revert x s. induction k as [|k IH]; intros x s Hx; (destruct (decide (x = 0%N)) as [->|Hn]; [exists []; rewrite pretty_N_go_0; repeat constructor; simpl; lia|]).
  { simpl in Hx. lia. }
  rewrite pretty_N_go_step by lia. destruct (IH (x `div` 10)%N (String.String (pretty_N_char (x `mod` 10)) s)) as (d & E & Hd & Hl & _).
  { rewrite Nat2N.inj_succ, N.pow_succ_r' in Hx. apply N.Div0.div_lt_upper_bound. lia. }
  exists (d ++ [pretty_N_char (x `mod` 10)]). rewrite E, <- app_assoc. split; [done|]. split.
  - apply Forall_app. split; [done|]. constructor; [apply pretty_N_char_digit|constructor].
  - rewrite length_app. split; [simpl; lia|]. by intros _ [_ ?]%app_nil.
Qed.
Lemma Itoa_digits k x :
  0 ≤ x < 10 ^ Z.of_nat k → (0 < k)%nat → Forall (λ c, digit c = true) (Itoa x) ∧ (length (Itoa x) ≤ k)%nat ∧ Itoa x ≠ [].
Proof.
  intros [H0 Hx] Hk. unfold Itoa, pretty, pretty_Z. destruct x as [|p|p]; [split; [by repeat constructor|done]| |lia].
  destruct (pretty_N_go_digits k (N.pos p) "") as (d & E & Hd & Hl & Hne).
  { apply N2Z.inj_lt. rewrite N2Z.inj_pow, nat_N_Z. done. }
  change (lit (pretty_N_go (N.pos p) "") = d ++ []) in E. rewrite app_nil_r in E.
  change (Forall (λ c, digit c = true) (lit (pretty_N_go (N.pos p) "")) ∧ (length (lit (pretty_N_go (N.pos p) "")) ≤ k)%nat ∧ lit (pretty_N_go (N.pos p) "") ≠ []).
  rewrite E. split; [exact Hd|]. split; [exact Hl|]. by apply Hne.
Qed.

(** They are read back. *)
Definition decimal (n : Z) (c : ascii) : Z := 10 * n + (code c - 48).
Lemma decimal_char x n : (x < 10)%N → decimal n (pretty_N_char x) = 10 * n + Z.of_N x.
Proof.
  intros Hx. unfold decimal. f_equal. assert (Hin : x ∈ map N.of_nat (seq 0 10)).
  { apply list_elem_of_fmap. exists (N.to_nat x). split; [lia|]. apply elem_of_seq. lia. }
  revert Hin. clear Hx. cbn [seq map]. intros Hin. repeat (apply elem_of_cons in Hin as [->|Hin]; [vm_compute; reflexivity|]). by apply elem_of_nil in Hin.
Qed.
Lemma decimal_pretty x s : fold_left decimal (lit (pretty_N_go x s)) 0 = fold_left decimal (lit s) (Z.of_N x).
Proof.
  revert s. induction (N.lt_wf_0 x) as [x _ IH]. intros s. destruct (decide (x = 0%N)) as [->|Hn]; [by rewrite pretty_N_go_0|].
  rewrite pretty_N_go_step by lia. rewrite IH by (apply N.div_lt; lia).
  change (lit (String.String (pretty_N_char (x `mod` 10)) s)) with (pretty_N_char (x `mod` 10) :: lit s). cbn [fold_left].
  rewrite decimal_char by (apply N.mod_lt; lia). f_equal. rewrite N2Z.inj_div, N2Z.inj_mod. pose proof (Z.div_mod (Z.of_N x) 10). lia.
Qed.
Lemma atoi_Itoa x : 0 ≤ x → atoi_digits (Itoa x) = x.
Proof.
  intros Hx. change (fold_left decimal (Itoa x) 0 = x). destruct x as [|p|p]; [reflexivity| |lia].
  change (fold_left decimal (lit (pretty_N_go (N.pos p) "")) 0 = Z.pos p). by rewrite decimal_pretty.
Qed.

Lemma digit_not c s : digit c = false → Forall (λ c, digit c = true) s → c ∉ s.
Proof. intros Hc Hs Hin. rewrite Forall_forall in Hs. apply Hs in Hin. congruence. Qed.
Lemma split_host host p :
  0 ≤ p ≤ 65535 → ∃ t, reverse (SplitByte ":" (host ++ ":" ++ Itoa p)) = Itoa p :: t ∧ t ≠ [] ∧ Join (reverse t) ":" = host ∧ parse_port (Itoa p) = Some p ∧ Itoa p ≠ [].
Proof.
  intros Hp. destruct (Itoa_digits 5 p) as (Hd & _ & Hne); [change (10 ^ Z.of_nat 5) with 100000; lia|lia|].
  exists (reverse (SplitByte ":" host)). change (host ++ ":" ++ Itoa p) with (host ++ ":"%char :: Itoa p).
  rewrite SplitByte_app_sep, (SplitByte_nosep _ (Itoa p)) by (by apply digit_not). rewrite reverse_snoc. split; [done|]. split.
  { intros E. apply (f_equal reverse) in E. rewrite reverse_involutive in E. by apply SplitByte_nonnil in E. }
  rewrite reverse_involutive. split; [apply (Join_SplitByte ":"%char)|]. split; [|done]. unfold parse_port.
  rewrite bool_decide_eq_false_2 by done. rewrite (proj2 (forallb_Forall _ _) Hd). cbn [negb orb]. rewrite atoi_Itoa by lia.
  destruct (Z.ltb_spec 65535 p); [lia|done].
Qed.
Lemma ParseAddrPort_String a p :
  in_range a → zone_of a = [] → 0 ≤ p ≤ 65535 → ParseAddrPort (AddrPortString a p) = Some (a, p).
Proof.
  intros Hr Hz Hp. assert (Ha : a ≠ Invalid) by (by intros ->). pose proof (ParseAddr_String a Hr Hz) as HP. pose proof (String_text a Ha Hz) as Ht.
  unfold ParseAddrPort. destruct a as [|b|b z]; [done| |]; unfold AddrPortString.
  - destruct (split_host (String (V4 b)) p Hp) as (t & E & Hne & Ej & Ep & Hp0). rewrite E. destruct t as [|h t]; [done|]. rewrite Ej.
    destruct (String (V4 b)) as [|c s] eqn:Es; [discriminate HP|]. rewrite bool_decide_eq_false_2 by (by intros [|]).
    assert (Hc : c ≠ "["%char) by (inversion Ht as [|? ? Hc _]; subst; by apply text_char_sep in Hc as (_ & _ & ? & _)).
    rewrite (bool_decide_eq_false_2 (head (c :: s) = Some "["%char)) by (by intros [= ->]). cbn [andb]. rewrite Ep. cbn [mbind option_bind]. rewrite HP. done.
  - set (S6 := String (V6 b z)) in *. clearbody S6. clear Ht. change ("[" ++ S6 ++ "]:" ++ Itoa p) with ("[" ++ S6 ++ "]" ++ ":" ++ Itoa p).
    replace ("[" ++ S6 ++ "]" ++ ":" ++ Itoa p) with (("[" ++ S6 ++ "]") ++ ":" ++ Itoa p) by (by rewrite <- !app_assoc).
    destruct (split_host ("[" ++ S6 ++ "]") p Hp) as (t & E & Hne & Ej & Ep & Hp0). rewrite E. destruct t as [|h t]; [done|]. rewrite Ej.
    rewrite bool_decide_eq_false_2 by (intros [H|H]; [discriminate H|exact (Hp0 H)]). rewrite (bool_decide_eq_true_2 (head ("[" ++ S6 ++ "]") = Some "["%char)) by done. cbn [andb].
    assert (Hlen : length ("[" ++ S6 ++ "]") = (2 + length S6)%nat) by (rewrite !length_app; simpl; lia). rewrite Hlen.
    destruct (Z.ltb_spec (Z.of_nat (2 + length S6)) 2); [lia|]. cbn [orb]. rewrite app_assoc. change (lit "]") with ["]"%char]. rewrite last_snoc. rewrite bool_decide_eq_true_2 by done. cbn [negb].
    replace (take (2 + length S6 - 2) (drop 1 (("[" ++ S6) ++ ["]"%char]))) with S6.
    + rewrite Ep. cbn [mbind option_bind]. rewrite HP. done.
    + rewrite <- app_assoc. change (drop 1 ("[" ++ S6 ++ ["]"%char])) with (S6 ++ ["]"%char]). replace (2 + length S6 - 2)%nat with (length S6) by lia. by rewrite take_app_length.
Qed.
End NetipText.
