(* ===== verification/Ids.v ===== *)
(** * Identifiers ([internal/store/ids.go])

    [NewID] mints time-ordered UUIDs (version 7): 48 bits of milliseconds, then a
    12-bit sequence that makes the ids of one millisecond grow.  Its state is the
    last millisecond and sequence used; the clock and the random bytes are inputs
    of a call. *)
From Stdlib Require Import Ascii Sorted.
From S2P Require Import Prelude GoStrings GoError Names Netip Masters.
Local Open Scope Z_scope.

Module Ids.

Record state := mkState { idLast : Z; idSeq : Z }.
Definition initial : state := mkState 0 0.

(** The millisecond and the sequence of an id, chosen under the lock.  The
    random bytes are numbered as in the array [b]. *)
Definition choose (b : list Z) (ms : Z) (s : state) : Z * Z * state :=
  if ms <=? idLast s then
    let seq := idSeq s + 1 in
    if Z.shiftl 1 12 <=? seq then (idLast s + 1, 0, mkState (idLast s + 1) 0)
    else (idLast s, seq, mkState (idLast s) seq)
  else
    let seq := Z.lor (Z.shiftl (Z.land (nth 6 b 0) 7) 8) (nth 7 b 0) in
    (ms, seq, mkState ms seq).

Definition byte (x : Z) : Z := x mod 256.
(** The sixteen bytes of the id. *)
Definition layout (b : list Z) (ms seq : Z) : list Z :=
  [byte (Z.shiftr ms 40); byte (Z.shiftr ms 32); byte (Z.shiftr ms 24); byte (Z.shiftr ms 16); byte (Z.shiftr ms 8); byte ms;
   Z.lor 112 (Z.land (byte (Z.shiftr seq 8)) 15); byte (Z.land seq 255); Z.lor (Z.land (nth 8 b 0) 63) 128] ++ drop 9 b.

Definition hex2 (x : Z) : str := [Netip.hex_digit (Z.shiftr x 4); Netip.hex_digit (Z.land x 15)].
Definition EncodeToString (b : list Z) : str := concat (map hex2 b).
Definition slice (h : str) (i j : nat) : str := take (j - i) (drop i h).
Definition text (b : list Z) : str :=
  let h := EncodeToString b in
  slice h 0 8 ++ "-" ++ slice h 8 12 ++ "-" ++ slice h 12 16 ++ "-" ++ slice h 16 20 ++ "-" ++ slice h 20 32.

Definition NewID (b : list Z) (ms : Z) (s : state) : str * state :=
  let '(ms, seq, s) := choose b ms s in (text (layout b ms seq), s).

(** A run of calls, each with its random bytes and its clock. *)
Fixpoint mint_all (calls : list (list Z * Z)) (s : state) : list str * state :=
  match calls with
  | [] => ([], s)
  | (b, ms) :: calls => let '(id, s) := NewID b ms s in let '(ids, s) := mint_all calls s in (id :: ids, s)
  end.

(** ** Order *)

(** What a call is given: sixteen bytes and a time. *)
Definition call_ok (c : list Z * Z) : Prop := length c.1 = 16%nat ∧ Forall (λ x, 0 ≤ x < 256) c.1 ∧ 0 ≤ c.2.

(** The number the first eight bytes spell. *)
Definition stamp (ms seq : Z) : Z := ms * 65536 + 28672 + seq.

(** Big-endian bytes. *)
Fixpoint be (n : nat) (v : Z) : list Z :=
  match n with O => [] | S n => (v / 256 ^ Z.of_nat n) mod 256 :: be n v end.

Inductive lexlt : list Z → list Z → Prop :=
  | lex_here x y l k : 0 ≤ x < 256 → 0 ≤ y < 256 → x < y → lexlt (x :: l) (y :: k)
  | lex_later x l k : lexlt l k → lexlt (x :: l) (x :: k).

Lemma be_lexlt n u v a b : u mod 256 ^ Z.of_nat n < v mod 256 ^ Z.of_nat n → lexlt (be n u ++ a) (be n v ++ b).
Proof.
  induction n as [|n IH]; [rewrite !Z.mod_1_r; lia|]. intros H. simpl.
  set (m := 256 ^ Z.of_nat n) in *. assert (Hm : 0 < m) by (apply Z.pow_pos_nonneg; lia).
  replace (256 ^ Z.of_nat (S n)) with (m * 256) in H by (rewrite Nat2Z.inj_succ, Z.pow_succ_r by lia; lia).
  rewrite !(Z.rem_mul_r _ m 256) in H by lia.
  pose proof (Z.mod_pos_bound (u / m) 256 ltac:(lia)). pose proof (Z.mod_pos_bound (v / m) 256 ltac:(lia)).
  pose proof (Z.mod_pos_bound u m Hm). pose proof (Z.mod_pos_bound v m Hm).
  destruct (Z.lt_trichotomy ((u / m) mod 256) ((v / m) mod 256)) as [Hl|[He|Hg]]; [by apply lex_here|rewrite He in *; apply lex_later, IH; nia|nia].
Qed.

(** The text of an id, byte by byte. *)
Definition dash (i : nat) : str := if bool_decide (i ∈ [3; 5; 7; 9]%nat) then "-" else [].
Fixpoint spell (i : nat) (b : list Z) : str := match b with [] => [] | x :: b => hex2 x ++ dash i ++ spell (S i) b end.

Lemma text_spell b : length b = 16%nat → text b = spell 0 b.
Proof. intros H. do 16 (destruct b as [|? b]; [done|]). destruct b; [|done]. reflexivity. Qed.

Lemma hex2_lt x y a b : 0 ≤ x < 256 → 0 ≤ y < 256 → x < y → str_ltb (hex2 x ++ a) (hex2 y ++ b) = true.
Proof.
  intros Hx Hy Hlt. assert (H : forallb (λ x, forallb (λ y, implb (x <? y) (let '(p, q) := (hex2 x, hex2 y) in
    match p, q with [p1; p2], [q1; q2] => (code p1 <? code q1) || (code p1 =? code q1) && (code p2 <? code q2) | _, _ => false end))
    (map Z.of_nat (seq 0 256))) (map Z.of_nat (seq 0 256)) = true) by (vm_compute; reflexivity).
  rewrite forallb_forall in H. specialize (H x). rewrite in_map_iff in H. specialize (H ltac:(exists (Z.to_nat x); rewrite in_seq; lia)).
  rewrite forallb_forall in H. specialize (H y). rewrite in_map_iff in H. specialize (H ltac:(exists (Z.to_nat y); rewrite in_seq; lia)).
  rewrite (proj2 (Z.ltb_lt x y) Hlt) in H. cbn [implb hex2] in H. unfold hex2. cbn [str_ltb app].
  apply orb_true_iff in H as [->|[-> ->]%andb_true_iff]; [done|]. cbn [orb andb]. apply orb_true_r.
Qed.

Lemma spell_lt i l k : lexlt l k → str_ltb (spell i l) (spell i k) = true.
Proof.
  intros H. revert i. induction H as [x y l k Hx Hy Hlt|x l k _ IH]; intros i; cbn [spell]; [by apply hex2_lt|]. by rewrite !str_ltb_app.
Qed.

(** The first eight bytes spell the stamp. *)
Lemma layout_be b ms seq :
  0 ≤ ms → 0 ≤ seq < 4096 → layout b ms seq = be 8 (stamp ms seq) ++ Z.lor (Z.land (nth 8 b 0) 63) 128 :: drop 9 b.
Proof.
  intros Hms Hs. assert (Hq : stamp ms seq / 65536 = ms) by (unfold stamp; symmetry; apply (Z.div_unique _ _ _ (28672 + seq)); lia).
  assert (Hhi : ∀ j, 0 ≤ j → stamp ms seq / 256 ^ (2 + j) = ms / 256 ^ j).
  { intros j Hj. rewrite Z.pow_add_r by lia. change (256 ^ 2) with 65536. rewrite <- Z.div_div, Hq by lia. done. }
  assert (H6 : Z.lor 112 (Z.land (byte (Z.shiftr seq 8)) 15) = (stamp ms seq / 256) mod 256).
  { unfold byte. rewrite Z.shiftr_div_pow2 by lia. change (2 ^ 8) with 256.
    replace (stamp ms seq / 256) with ((112 + seq / 256) + ms * 256) by (unfold stamp; apply (Z.div_unique _ _ _ (seq mod 256)); pose proof (Z.div_mod seq 256); pose proof (Z.mod_pos_bound seq 256); lia).
    rewrite Z.mod_add by lia. assert (Hr : 0 ≤ seq / 256 < 16) by (split; [apply Z.div_pos; lia|apply Z.div_lt_upper_bound; lia]).
    assert (H : forallb (λ x, Z.lor 112 (Z.land (x mod 256) 15) =? (112 + x) mod 256) (map Z.of_nat (List.seq 0 16)) = true) by (vm_compute; reflexivity).
    rewrite forallb_forall in H. specialize (H (seq / 256)). rewrite in_map_iff in H.
    specialize (H ltac:(exists (Z.to_nat (seq / 256)); rewrite in_seq; lia)). by apply Z.eqb_eq in H. }
  assert (H7 : byte (Z.land seq 255) = stamp ms seq mod 256).
  { unfold byte. change 255 with (Z.ones 8). rewrite Z.land_ones by lia. change (2 ^ 8) with 256. rewrite Z.mod_mod by lia. unfold stamp.
    replace (ms * 65536 + 28672 + seq) with (seq + (ms * 256 + 112) * 256) by lia. by rewrite Z.mod_add. }
  unfold layout. rewrite H6, H7. unfold byte. rewrite !Z.shiftr_div_pow2 by lia. cbn [be app].
  change (256 ^ Z.of_nat 7) with (256 ^ (2 + 5)). change (256 ^ Z.of_nat 6) with (256 ^ (2 + 4)). change (256 ^ Z.of_nat 5) with (256 ^ (2 + 3)).
  change (256 ^ Z.of_nat 4) with (256 ^ (2 + 2)). change (256 ^ Z.of_nat 3) with (256 ^ (2 + 1)). change (256 ^ Z.of_nat 2) with (256 ^ (2 + 0)).
  rewrite !Hhi by lia. change (256 ^ Z.of_nat 1) with 256. change (256 ^ Z.of_nat 0) with 1. by rewrite !Z.div_1_r.
Qed.

Definition seq_ok (s : state) : Prop := 0 ≤ idLast s ∧ 0 ≤ idSeq s < 4096.
Definition now_stamp (s : state) : Z := stamp (idLast s) (idSeq s).

Lemma choose_spec b ms s m q s' :
  call_ok (b, ms) → seq_ok s → choose b ms s = (m, q, s') →
  seq_ok s' ∧ idLast s' = m ∧ idSeq s' = q ∧ now_stamp s < now_stamp s' ∧ idLast s ≤ idLast s' ∧ ms ≤ idLast s'.
Proof.
  intros (Hl & Hb & Hms) [Hs1 Hs2]. unfold choose, now_stamp, stamp, seq_ok. simpl in *. destruct (Z.leb_spec ms (idLast s)).
  - change (Z.shiftl 1 12) with 4096. destruct (Z.leb_spec 4096 (idSeq s + 1)); intros [= <- <- <-]; simpl; lia.
  - assert (Hr : 0 ≤ Z.lor (Z.shiftl (Z.land (nth 6 b 0) 7) 8) (nth 7 b 0) < 2048).
    { assert (H7 : 0 ≤ nth 7 b 0 < 256) by (rewrite Forall_forall in Hb; apply Hb, list_elem_of_In, nth_In; lia).
      change (2048) with (2 ^ 11). apply Masters.lor_lt; [lia| |lia].
      rewrite Z.shiftl_mul_pow2 by lia. change (Z.land (nth 6 b 0) 7) with (Z.land (nth 6 b 0) (Z.ones 3)). rewrite Z.land_ones by lia.
      pose proof (Z.mod_pos_bound (nth 6 b 0) (2 ^ 3) ltac:(lia)). change (2 ^ 3) with 8 in *. change (2 ^ 8) with 256. change (2 ^ 11) with 2048. lia. }
    intros [= <- <- <-]. simpl. lia.
Qed.

(** The ids of a run grow, and so do their stamps. *)
Lemma NewID_lt b1 b2 m1 q1 m2 q2 :
  length b1 = 16%nat → length b2 = 16%nat → 0 ≤ m1 → m2 < 2 ^ 48 → 0 ≤ q1 < 4096 → 0 ≤ q2 < 4096 → stamp m1 q1 < stamp m2 q2 →
  str_ltb (text (layout b1 m1 q1)) (text (layout b2 m2 q2)) = true.
Proof.
  intros Hl1 Hl2 H1 H2 Hq1 Hq2 Hlt. unfold stamp in Hlt. assert (Hlen : ∀ b m q, length b = 16%nat → length (layout b m q) = 16%nat).
  { intros b m q Hb. unfold layout. rewrite length_app, length_drop. simpl. lia. }
  rewrite !text_spell by auto. apply spell_lt. rewrite !layout_be by lia. apply be_lexlt. change (Z.of_nat 8) with 8. change (256 ^ 8) with (2 ^ 48 * 65536).
  unfold stamp. rewrite !Z.mod_small by lia. lia.
Qed.

Lemma mint_all_bounds calls s ids s' :
  Forall call_ok calls → seq_ok s → mint_all calls s = (ids, s') → seq_ok s' ∧ idLast s ≤ idLast s' ∧ now_stamp s ≤ now_stamp s'.
Proof.
  revert s ids. induction calls as [|[b ms] calls IH]; intros s ids Hc Hs; cbn [mint_all]; [intros [= <- <-]; split; [done|lia]|].
  apply Forall_cons in Hc as [Hc1 Hc]. unfold NewID. destruct (choose b ms s) as [[m q] s1] eqn:E.
  apply choose_spec in E as (Hs1 & _ & _ & Hlt & Hle & _); [|done..]. destruct (mint_all calls s1) as [ids1 s2] eqn:E2. intros [= <- <-].
  apply IH in E2 as (? & ? & ?); [|done..]. split; [done|lia].
Qed.

(** Every id of a run is above any id of a smaller stamp. *)
Lemma mint_all_above calls s ids s' b m q :
  Forall call_ok calls → seq_ok s → mint_all calls s = (ids, s') → idLast s' < 2 ^ 48 →
  length b = 16%nat → 0 ≤ m → 0 ≤ q < 4096 → stamp m q ≤ now_stamp s →
  Forall (λ id, str_ltb (text (layout b m q)) id = true) ids.
Proof.
  revert s ids. induction calls as [|[b1 ms] calls IH]; intros s ids Hc Hs; cbn [mint_all]; [intros [= <- <-] **; constructor|].
  apply Forall_cons in Hc as [Hc1 Hc]. unfold NewID. destruct (choose b1 ms s) as [[m1 q1] s1] eqn:E.
  pose proof (choose_spec _ _ _ _ _ _ Hc1 Hs E) as (Hs1 & <- & <- & Hlt & Hle & _).
  destruct (mint_all calls s1) as [ids1 s2] eqn:E2. intros [= <- <-] Hb Hlen Hm Hq Hst.
  pose proof (mint_all_bounds _ _ _ _ Hc Hs1 E2) as (_ & Hb1 & _). constructor.
  - apply NewID_lt; try apply Hs1; try done; [apply Hc1|lia|]. unfold now_stamp in *. lia.
  - eapply IH; [done..|]. unfold now_stamp in *. lia.
Qed.

(** C40: the ids minted by any run of calls are strictly increasing as texts,
    whatever the clock does (it may stand still or run backwards) and whatever
    the random bytes are, as long as the 48-bit millisecond field does not
    overflow; so no id is ever minted twice, and sorting by id is sorting by
    creation. *)
Theorem NewID_increasing calls s ids s' :
  Forall call_ok calls → seq_ok s → mint_all calls s = (ids, s') → idLast s' < 2 ^ 48 →
  StronglySorted (λ a b, str_ltb a b = true) ids ∧ NoDup ids ∧ seq_ok s'.
Proof.
  intros Hc Hs Hm Hb. cut (StronglySorted (λ a b, str_ltb a b = true) ids).
  { intros H. split; [done|]. split; [|by eapply mint_all_bounds]. clear -H. induction H as [|x l _ IH Hx]; constructor; [|done].
    intros Hin. rewrite Forall_forall in Hx. specialize (Hx _ Hin). by rewrite str_ltb_irrefl in Hx. }
  revert s ids Hs Hm. induction Hc as [|[b ms] calls Hc1 Hc IH]; intros s ids Hs; cbn [mint_all]; [intros [= <- <-]; constructor|].
  unfold NewID. destruct (choose b ms s) as [[m q] s1] eqn:E. pose proof (choose_spec _ _ _ _ _ _ Hc1 Hs E) as (Hs1 & <- & <- & _ & _ & _).
  destruct (mint_all calls s1) as [ids1 s2] eqn:E2. intros [= <- <-]. constructor; [by eapply IH|].
  eapply mint_all_above; try done; [apply Hc1|apply Hs1|apply Hs1].
Qed.

Module Concrete.
Definition zeros : list Z := replicate 16 0.
Definition calls : list (list Z * Z) := [(zeros, 1000); (zeros, 1000); (zeros, 900)].
Lemma NewID_increasing_witness :
  Forall call_ok calls ∧ NoDup (mint_all calls initial).1 ∧
  (mint_all calls initial).1 = ["00000000-03e8-7000-8000-000000000000" : str; "00000000-03e8-7001-8000-000000000000" : str; "00000000-03e8-7002-8000-000000000000" : str].
Proof.
  assert (Hc : Forall call_ok calls) by (repeat constructor; cbn; lia). split; [exact Hc|]. split; [|vm_compute; reflexivity].
  destruct (mint_all calls initial) as [ids s'] eqn:E. assert (Hb : idLast s' < 2 ^ 48) by (change s' with ((ids, s').2); rewrite <- E; vm_compute; reflexivity).
  destruct (NewID_increasing calls initial ids s' Hc ltac:(unfold seq_ok; cbn; lia) E Hb) as (_ & H & _). exact H.
Defined.
End Concrete.
End Ids.
