(* ===== verification/Authz.v ===== *)
(** * The access model ([internal/authz/authz.go])

    Who a caller is ([Subjects], with the constructors that issue them) and what
    it may do.  The auth service behind a [Checker] is a parameter: a function of
    tenant, user and permission.  [acme] is unexported in the source, so only the
    constructors of this file set it; [issued] says which subjects exist. *)
From Stdlib Require Import Ascii.
From S2P Require Import Prelude GoStrings GoError Store.
Local Open Scope Z_scope.

Module Authz.

Definition ActorUser : str := "user".
Definition ActorModule : str := "module".
Definition ActorIPAMSync : str := "ipam-sync".
Definition ActorSystem : str := "system".
Definition IPAMSyncActorID : str := "ipam-sync".

Definition ZonesRead : str := "zones:read".
Definition ZonesManage : str := "zones:manage".
Definition TemplatesManage : str := "templates:manage".
Definition SupermastersManage : str := "supermasters:manage".
Definition DashboardRead : str := "dashboard:read".
Definition BackupManage : str := "backup:manage".
Definition ConfigManage : str := "config:manage".
Definition Permissions : list str :=
  [ZonesRead; ZonesManage; TemplatesManage; SupermastersManage; DashboardRead; BackupManage; ConfigManage].
Definition RolePlatformAdmin : str := "platform-admin".

Definition syncAllowed : list str := [ZonesRead; ZonesManage].
Definition moduleAllowed : list str := [ZonesRead].
Definition challengeAllowed : list str := [ZonesRead; ZonesManage].

Record Subjects := mkSubjects {
  STenantID : str; UserID : str; Roles : list str; ActorKind : str; PeerSPIFFE : str; acme : bool
}.

(** [Checker.Has]: tenant, user, permission. *)
Definition Checker : Type := str → str → str → bool.
Definition Static (m : str → list str) : Checker := λ _ user perm, Store.contains (m user) perm.

Definition User (tenant user : str) (roles : list str) : Subjects := mkSubjects tenant user roles ActorUser [] false.
Definition SystemFor (tenant : str) : Subjects := mkSubjects tenant IPAMSyncActorID [] ActorIPAMSync [] false.
Definition Internal (tenant : str) : Subjects := mkSubjects tenant ActorSystem [] ActorSystem [] false.
Definition ModuleSubject (tenant spiffe : str) : Subjects := mkSubjects tenant spiffe [] ActorModule spiffe false.

Definition HasRole (s : Subjects) (role : str) : bool := Store.contains (Roles s) role.

Definition IsPlatformAdmin (s : Subjects) : bool :=
  if bool_decide (ActorKind s = ActorSystem) then true
  else if bool_decide (ActorKind s = ActorUser)
  then negb (bool_decide (UserID s = [])) && HasRole s RolePlatformAdmin
  else false.

Definition ActorID (s : Subjects) : str := if bool_decide (UserID s = []) then ActorKind s else UserID s.
Definition IsHuman (s : Subjects) : bool := bool_decide (ActorKind s = ActorUser).
Definition Known (perm : str) : bool := Store.contains Permissions perm.

Definition forbidden (text : str) : error := Wrapf (New ErrForbidden) text.

Definition Require_ (c : option Checker) (s : Subjects) (perm : str) : res unit :=
  if bool_decide (STenantID s = []) then Err (forbidden "tenant required")
  else if negb (Known perm) then Err (forbidden ("unknown permission " ++ goquote perm))
  else
    let refused := Err (forbidden (perm ++ " required")) in
    if bool_decide (ActorKind s = ActorSystem) then Ok ()
    else if bool_decide (ActorKind s = ActorIPAMSync) then
      if Store.contains syncAllowed perm then Ok () else refused
    else if bool_decide (ActorKind s = ActorModule) then
      if negb (bool_decide (PeerSPIFFE s = [])) && (Store.contains moduleAllowed perm || (acme s && Store.contains challengeAllowed perm))
      then Ok () else refused
    else if bool_decide (ActorKind s = ActorUser) then
      match c with
      | Some has => if negb (bool_decide (UserID s = [])) && has (STenantID s) (UserID s) perm then Ok () else refused
      | None => refused
      end
    else refused.

Definition Allowed (c : option Checker) (s : Subjects) (perm : str) : bool := is_ok (Require_ c s perm).

Definition RequirePlatformAdmin (s : Subjects) : res unit :=
  if IsPlatformAdmin s then Ok () else Err (forbidden "platform-admin required").

Definition RequireAdmin (c : option Checker) (s : Subjects) (perm : str) : res unit :=
  _ ← RequirePlatformAdmin s; Require_ c s perm.

Definition RequireTenant (s : Subjects) (tenant : str) : res unit :=
  if bool_decide (tenant = []) || negb (bool_decide (STenantID s = tenant)) then Err (forbidden "tenant mismatch") else Ok ().

Definition CallerIs (s : Subjects) (spiffe : str) : res unit :=
  if negb (bool_decide (ActorKind s = ActorModule)) || bool_decide (spiffe = []) || bool_decide (PeerSPIFFE s = [])
     || negb (bool_decide (PeerSPIFFE s = spiffe)) || Contains spiffe "*"
  then Err (forbidden "caller not allowed") else Ok ().

Definition Challenger (s : Subjects) (allowed : str) : res Subjects :=
  _ ← CallerIs s allowed;
  Ok (mkSubjects (STenantID s) (UserID s) (Roles s) (ActorKind s) (PeerSPIFFE s) true).

(** ** Properties *)

(** The subjects the module issues, [spiffe] being the ACME caller's configured
    identity. *)
Inductive issued (spiffe : str) : Subjects → Prop :=
  | issued_user t u rs : issued spiffe (User t u rs)
  | issued_sync t : issued spiffe (SystemFor t)
  | issued_internal t : issued spiffe (Internal t)
  | issued_module t id : issued spiffe (ModuleSubject t id)
  | issued_challenger s s' : issued spiffe s → Challenger s spiffe = Ok s' → issued spiffe s'.

Lemma CallerIs_Ok s id :
  CallerIs s id = Ok () ↔ ActorKind s = ActorModule ∧ PeerSPIFFE s = id ∧ id ≠ [] ∧ Contains id "*" = false.
Proof.
  unfold CallerIs. destruct (Contains id "*"); [rewrite orb_true_r; naive_solver|].
  repeat case_bool_decide; cbn [negb orb]; naive_solver.
Qed.

(** The tenant and the actor survive [Challenger]; only [acme] is set. *)
Lemma Challenger_Ok s id s' :
  Challenger s id = Ok s' → CallerIs s id = Ok () ∧ STenantID s' = STenantID s ∧ ActorKind s' = ActorModule ∧ PeerSPIFFE s' = id ∧ acme s' = true.
Proof.
  unfold Challenger. intros ([] & Hc & [= <-])%bind_Ok. split; [done|]. by apply CallerIs_Ok in Hc as (? & ? & _).
Qed.

Lemma issued_kinds spiffe s :
  issued spiffe s → ActorKind s ∈ [ActorUser; ActorIPAMSync; ActorSystem; ActorModule] ∧
  (acme s = true → ActorKind s = ActorModule ∧ PeerSPIFFE s = spiffe ∧ spiffe ≠ []).
Proof.
  induction 1 as [| | | |s s' _ _ Hc]; try (split; [set_solver|done]).
  apply Challenger_Ok in Hc as (Hc & _ & Hk & Hp & _). apply CallerIs_Ok in Hc as (_ & _ & Hne & _).
  split; [rewrite Hk; set_solver|done].
Qed.

Lemma Require_inv c s perm :
  Require_ c s perm = Ok () →
  STenantID s ≠ [] ∧ perm ∈ Permissions ∧
  (ActorKind s = ActorSystem ∨
   (ActorKind s = ActorIPAMSync ∧ perm ∈ syncAllowed) ∨
   (ActorKind s = ActorModule ∧ PeerSPIFFE s ≠ [] ∧ (perm ∈ moduleAllowed ∨ acme s = true ∧ perm ∈ challengeAllowed)) ∨
   (ActorKind s = ActorUser ∧ UserID s ≠ [] ∧ ∃ has, c = Some has ∧ has (STenantID s) (UserID s) perm = true)).
Proof.
  unfold Require_, Known. case_bool_decide as Ht; [done|]. destruct (Store.contains Permissions perm) eqn:Ek; [|done].
  apply Store.contains_elem in Ek. intros H. split; [done|]. split; [done|]. cbn [negb] in H.
  case_bool_decide; [tauto|]. case_bool_decide.
  { destruct (Store.contains syncAllowed perm) eqn:E; [|done]. apply Store.contains_elem in E. tauto. }
  case_bool_decide.
  { case_if in H as E; [|done]. apply andb_true_iff in E as [E1 E2]. b2p.
    apply orb_true_iff in E2 as [E2|[E2 E3]%andb_true_iff]; [apply Store.contains_elem in E2|apply Store.contains_elem in E3]; tauto. }
  case_bool_decide; [|done]. destruct c as [has|]; [|done]. case_if in H as E; [|done].
  apply andb_true_iff in E as [E1 E2]. b2p. eauto 10.
Qed.

Lemma Require_err c s perm : fails_with [ErrForbidden] (Require_ c s perm).
Proof.
  assert (H : ∀ t, only_kinds [ErrForbidden] (forbidden t)) by (intros t; apply kinds_Wrapf, kinds_New; by left).
  unfold Require_. repeat case_match; try apply fails_Ok; by apply fails_Err.
Qed.

(** What each kind of caller can get past [Require], for any auth service:
    a caller always acts in a tenant and names a permission of the module; the
    IPAM sync only reads and manages zones; a mesh module only reads zones,
    unless it is the configured ACME identity admitted by [Challenger], which may
    also manage them; a user needs the auth service's yes; everything else needs
    the system scope. *)
Theorem Require_least_privilege spiffe c s perm :
  issued spiffe s → Require_ c s perm = Ok () →
  STenantID s ≠ [] ∧ perm ∈ Permissions ∧
  (ActorKind s = ActorIPAMSync → perm = ZonesRead ∨ perm = ZonesManage) ∧
  (ActorKind s = ActorModule → PeerSPIFFE s ≠ [] ∧
     (perm = ZonesRead ∨ (perm = ZonesManage ∧ PeerSPIFFE s = spiffe ∧ spiffe ≠ []))) ∧
  (ActorKind s = ActorUser → ∃ has, c = Some has ∧ has (STenantID s) (UserID s) perm = true).
Proof.
  intros [_ Ha]%issued_kinds (Ht & Hp & H)%Require_inv. split; [done|]. split; [done|].
  unfold syncAllowed, moduleAllowed, challengeAllowed in H.
  rewrite !elem_of_cons, !elem_of_nil in H.
  split_and!; intros Hk; rewrite Hk in *; destruct H as [E|[[E H]|[(E & H1 & H2)|(E & H1 & H2)]]]; try done; naive_solver.
Qed.

Lemma Require_least_privilege_witness :
  let s := ModuleSubject "t1" "spiffe://x/lcm" in
  Require_ None s ZonesRead = Ok () ∧ PeerSPIFFE s ≠ [].
Proof.
  split; [vm_compute; reflexivity|].
  destruct (Require_least_privilege "spiffe://x/acme" None (ModuleSubject "t1" "spiffe://x/lcm") ZonesRead) as (_ & _ & _ & H & _);
    [apply issued_module|vm_compute; reflexivity|]. exact (proj1 (H eq_refl)).
Defined.

(** Platform administration is only for the system scope and for users
    with the platform-admin role: no module, sync worker or ACME caller passes
    [RequireAdmin], whatever the auth service answers. *)
Theorem RequireAdmin_strict c s perm :
  RequireAdmin c s perm = Ok () →
  ActorKind s = ActorSystem ∨ (ActorKind s = ActorUser ∧ UserID s ≠ [] ∧ RolePlatformAdmin ∈ Roles s).
Proof.
  unfold RequireAdmin, RequirePlatformAdmin, IsPlatformAdmin. intros ([] & H & _)%bind_Ok.
  case_bool_decide; [by left|]. case_bool_decide; [|done]. right. case_if in H as E; [|done].
  apply andb_true_iff in E as [E1 E2]. b2p. apply Store.contains_elem in E2. done.
Qed.

Lemma RequireAdmin_strict_witness :
  RequireAdmin None (Internal "t1") ConfigManage = Ok () ∧ ActorKind (Internal "t1") = ActorSystem.
Proof.
  split; [vm_compute; reflexivity|].
  destruct (RequireAdmin_strict None (Internal "t1") ConfigManage) as [H|[H _]];
    [vm_compute; reflexivity|exact H|discriminate H].
Defined.
End Authz.
