(* ===== verification/MemStore.v ===== *)
(** * The store ([internal/repo/repo.go], [internal/memstore/memstore.go])

    [DB] is what the module persists: one map per table.  Every method of
    [repo.Store] is a function on it; the in-memory store [Mem] puts the error
    injection in front ([fail]).  The class [RepoStore] is the [repo.Store]
    interface: a method either fails for a reason of its own or does what the
    function on the tables does.  The invariant [db_wf] holds the unique guards
    and the foreign key of the schema; [tenant_rows] is one tenant's part. *)
From Stdlib Require Import Ascii.
From S2P Require Import Prelude GoStrings GoError Store Netip.
Local Open Scope Z_scope.

(** Sorting and paging of [go-tangra/listquery]. *)
Inductive sort_key := KStr (s : str) | KTime (t : Z) | KInt (n : Z) | KNil.
Class ListQuery := {
  Request : Type;
  SortSlice : ∀ {A}, list A → Request → (A → str → sort_key) → (A → str) → list A;
  Window : ∀ {A}, list A → Request → list A * Z * Request
}.
Class ListQueryLaws {LQ : ListQuery} : Prop := {
  SortSlice_perm {A} (l : list A) r k t : SortSlice l r k t ≡ₚ l;
  Window_page {A} (l : list A) r x : x ∈ (Window l r).1.1 → x ∈ l;
  Window_total {A} (l : list A) r : (Window l r).1.2 = Z.of_nat (length l)
}.

(** One page holding everything, unsorted. *)
Definition listquery_all : ListQuery := {|
  Request := unit; SortSlice A l _ _ _ := l; Window A l r := (l, Z.of_nat (length l), r)
|}.
Lemma listquery_all_laws : @ListQueryLaws listquery_all.
Proof. by split. Qed.

Module MemStore.
Import Store.

Record DB := mkDB {
  zones : gmap str Zone;
  templates : gmap str Template;
  supermasters : gmap str Supermaster;
  config : option ServerConfig;
  sync : gmap str IPAMSync;
  challenges : gmap str Challenge;
  audit : list AuditRow;
  Now : time
}.

Definition empty_db (now : time) : DB := mkDB ∅ ∅ ∅ None ∅ ∅ [] now.

Definition set_zones (m : gmap str Zone) (d : DB) : DB :=
  mkDB m (templates d) (supermasters d) (config d) (sync d) (challenges d) (audit d) (Now d).
Definition set_templates (m : gmap str Template) (d : DB) : DB :=
  mkDB (zones d) m (supermasters d) (config d) (sync d) (challenges d) (audit d) (Now d).
Definition set_supermasters (m : gmap str Supermaster) (d : DB) : DB :=
  mkDB (zones d) (templates d) m (config d) (sync d) (challenges d) (audit d) (Now d).
Definition set_config (c : option ServerConfig) (d : DB) : DB :=
  mkDB (zones d) (templates d) (supermasters d) c (sync d) (challenges d) (audit d) (Now d).
Definition set_sync (m : gmap str IPAMSync) (d : DB) : DB :=
  mkDB (zones d) (templates d) (supermasters d) (config d) m (challenges d) (audit d) (Now d).
Definition set_challenges (m : gmap str Challenge) (d : DB) : DB :=
  mkDB (zones d) (templates d) (supermasters d) (config d) (sync d) m (audit d) (Now d).

Definition NotFound {A} : res A := Err (New RepoErrNotFound).
Definition Conflict {A} : res A := Err (New RepoErrConflict).

Definition orNow (t now : time) : time := if IsZero t then now else t.

(** ** Zones *)

Definition create_zone (z : Zone) (d : DB) : res unit * DB :=
  if bool_decide (is_Some (zones d !! ID z)) then (Conflict, d)
  else if any_value (λ x, bool_decide (Name x = Name z) || bool_decide (PDNSID x = PDNSID z)) (zones d) then (Conflict, d)
  else
    let created := orNow (CreatedAt z) (Now d) in
    let z := mkZone (ID z) (TenantID z) (Name z) (PDNSID z)
               (if bool_decide (Kind z = []) then KindNative else Kind z) (Masters z) (DNSSEC z) (Description z)
               (TemplateID z) (if bool_decide (Origin z = []) then OriginManual else Origin z) (Nameservers z)
               (CreatedBy z) created (orNow (UpdatedAt z) created) in
    (Ok (), set_zones (<[ID z := z]> (zones d)) d).

Definition zone (tenant id : str) (d : DB) : res Zone :=
  match zones d !! id with
  | Some z => if bool_decide (TenantID z = tenant) then Ok z else NotFound
  | None => NotFound
  end.

Definition get_zone_by_name (tenant name : str) (d : DB) : res Zone :=
  match find_first (λ z, bool_decide (TenantID z = tenant ∧ Name z = name)) (values_of (zones d)) with
  | Some z => Ok z
  | None => NotFound
  end.

Definition tenantZones (tenant : str) (d : DB) : list Zone :=
  sort_by (λ a b, str_ltb (Name a) (Name b))
    (List.filter (λ z, bool_decide (TenantID z = tenant)) (values_of (zones d))).

Definition zoneKey (z : Zone) (field : str) : sort_key :=
  if bool_decide (field = "kind") then KStr (Kind z)
  else if bool_decide (field = "updated_at") then KTime (UpdatedAt z)
  else KStr (Name z).

Definition list_zones `{Unicode, ListQuery} (tenant : str) (f : ZoneFilter) (req : Request) (d : DB) : list Zone * Z * Request :=
  Window (SortSlice (List.filter (Matches f) (tenantZones tenant d)) req zoneKey ID) req.

Definition update_zone (z : Zone) (d : DB) : res Zone * DB :=
  match zone (TenantID z) (ID z) d with
  | Err e => (Err e, d)
  | Ok cur =>
    let cur := mkZone (ID cur) (TenantID cur) (Name cur) (PDNSID cur) (Kind z) (Masters z) (DNSSEC z) (Description z)
                 (TemplateID cur) (Origin cur) (Nameservers cur) (CreatedBy cur) (CreatedAt cur)
                 (orNow (UpdatedAt z) (Now d)) in
    (Ok cur, set_zones (<[ID cur := cur]> (zones d)) d)
  end.

(** The challenges of a deleted zone go with it. *)
Definition delete_zone (tenant id : str) (d : DB) : res unit * DB :=
  match zone tenant id d with
  | Err e => (Err e, d)
  | Ok _ =>
    (Ok (), set_challenges (filter (λ kc, ¬ (ChTenantID kc.2 = tenant ∧ ChZoneID kc.2 = id)) (challenges d))
              (set_zones (delete id (zones d)) d))
  end.

Definition Overlaps (a b : str) : bool :=
  bool_decide (a = b) || HasSuffix a ("." ++ b) || HasSuffix b ("." ++ a).

Definition zone_conflict `{Unicode} (tenant name : str) (d : DB) : bool :=
  let name := ToLower name in
  any_value (λ z, negb (bool_decide (TenantID z = tenant)) && Overlaps name (Name z)) (zones d).

Definition all_zone_names (d : DB) : list str := sort_by str_ltb (map Name (values_of (zones d))).

(** ** Templates *)

Definition templateNameTaken `{Unicode} (t : Template) (d : DB) : bool :=
  any_value (λ x, bool_decide (TplTenantID x = TplTenantID t) && negb (bool_decide (TplID x = TplID t))
                  && EqualFold (TplName x) (TplName t)) (templates d).

Definition create_template `{Unicode} (t : Template) (d : DB) : res unit * DB :=
  if bool_decide (is_Some (templates d !! TplID t)) || templateNameTaken t d then (Conflict, d)
  else
    let created := orNow (TplCreatedAt t) (Now d) in
    let t := mkTemplate (TplID t) (TplTenantID t) (TplName t) (TplDescription t) (TplRecords t) created
               (orNow (TplUpdatedAt t) created) in
    (Ok (), set_templates (<[TplID t := t]> (templates d)) d).

Definition template (tenant id : str) (d : DB) : res Template :=
  match templates d !! id with
  | Some t => if bool_decide (TplTenantID t = tenant) then Ok t else NotFound
  | None => NotFound
  end.

Definition template_ltb `{Unicode} (x y : Template) : bool :=
  let a := ToLower (TplName x) in let b := ToLower (TplName y) in
  if negb (bool_decide (a = b)) then str_ltb a b else str_ltb (TplID x) (TplID y).
Definition tenantTemplates `{Unicode} (tenant : str) (d : DB) : list Template :=
  sort_by template_ltb (List.filter (λ t, bool_decide (TplTenantID t = tenant)) (values_of (templates d))).
Definition list_templates `{Unicode, ListQuery} (tenant : str) (req : Request) (d : DB) : list Template * Z * Request :=
  Window (SortSlice (tenantTemplates tenant d) req (λ t _, KStr (TplName t)) TplID) req.

Definition update_template `{Unicode} (t : Template) (d : DB) : res Template * DB :=
  match template (TplTenantID t) (TplID t) d with
  | Err e => (Err e, d)
  | Ok cur =>
    if templateNameTaken t d then (Conflict, d)
    else
      let cur := mkTemplate (TplID cur) (TplTenantID cur) (TplName t) (TplDescription t) (TplRecords t)
                   (TplCreatedAt cur) (orNow (TplUpdatedAt t) (Now d)) in
      (Ok cur, set_templates (<[TplID cur := cur]> (templates d)) d)
  end.

Definition delete_template (tenant id : str) (d : DB) : res unit * DB :=
  match template tenant id d with
  | Err e => (Err e, d)
  | Ok _ => (Ok (), set_templates (delete id (templates d)) d)
  end.

(** ** Supermasters *)

Definition canonIP (s : str) : str :=
  match Netip.ParseAddr s with
  | None => []
  | Some a => Netip.String (Netip.Unmap a)
  end.

Definition create_supermaster (s : Supermaster) (d : DB) : res unit * DB :=
  let ip := canonIP (SmIP s) in
  if bool_decide (ip = []) then (Conflict, d)
  else if bool_decide (is_Some (supermasters d !! SmID s)) then (Conflict, d)
  else if any_value (λ x, bool_decide (SmIP x = ip ∧ SmNameserver x = SmNameserver s)) (supermasters d) then (Conflict, d)
  else
    let s := mkSupermaster (SmID s) (SmTenantID s) ip (SmNameserver s) (SmCreatedBy s) (orNow (SmCreatedAt s) (Now d)) in
    (Ok (), set_supermasters (<[SmID s := s]> (supermasters d)) d).

Definition supermaster (tenant id : str) (d : DB) : res Supermaster :=
  match supermasters d !! id with
  | Some s => if bool_decide (SmTenantID s = tenant) then Ok s else NotFound
  | None => NotFound
  end.

Definition supermaster_ltb (x y : Supermaster) : bool :=
  let ip s := default Netip.Invalid (Netip.ParseAddr (SmIP s)) in
  if Netip.addr_ltb (ip x) (ip y) then true
  else if Netip.addr_ltb (ip y) (ip x) then false
  else str_ltb (SmNameserver x) (SmNameserver y).
Definition tenantSupermasters (tenant : str) (d : DB) : list Supermaster :=
  sort_by supermaster_ltb (List.filter (λ s, bool_decide (SmTenantID s = tenant)) (values_of (supermasters d))).

Definition hex_byte (b : Z) : str := [Netip.hex_digit (Z.shiftr b 4); Netip.hex_digit (Z.land b 15)].
Definition supermasterKey (s : Supermaster) (field : str) : sort_key :=
  if bool_decide (field = "nameserver") then KStr (SmNameserver s)
  else match Netip.ParseAddr (SmIP s) with
  | None => KNil
  | Some a => KStr ((if Netip.Is4 a then "4" else "6") ++ concat (map hex_byte (Netip.As16 a)))
  end.
Definition list_supermasters `{ListQuery} (tenant : str) (req : Request) (d : DB) : list Supermaster * Z * Request :=
  Window (SortSlice (tenantSupermasters tenant d) req supermasterKey SmID) req.

Definition delete_supermaster (tenant id : str) (d : DB) : res unit * DB :=
  match supermaster tenant id d with
  | Err e => (Err e, d)
  | Ok _ => (Ok (), set_supermasters (delete id (supermasters d)) d)
  end.

(** ** Server configuration *)

Definition jsonOr (raw : str) : str := if bool_decide (raw = []) then lit "{}" else raw.

Definition get_server_config (d : DB) : res ServerConfig :=
  match config d with
  | None => NotFound
  | Some c => Ok (mkServerConfig (jsonOr (ScRecursor c)) (jsonOr (ScAuthoritative c)) (ScRecursorHash c) (ScAuthHash c)
                    (ScUpdatedBy c) (ScUpdatedAt c))
  end.

Definition save_server_config (c : ServerConfig) (d : DB) : res unit * DB :=
  let '(rh, ah) := match config d with Some o => (ScRecursorHash o, ScAuthHash o) | None => ([], []) end in
  (Ok (), set_config (Some (mkServerConfig (jsonOr (ScRecursor c)) (jsonOr (ScAuthoritative c)) rh ah
                              (ScUpdatedBy c) (orNow (ScUpdatedAt c) (Now d)))) d).

Definition set_config_hashes (rh ah : str) (at_ : time) (d : DB) : res unit * DB :=
  let c := match config d with
           | Some c => c
           | None => mkServerConfig (jsonOr []) (jsonOr []) [] [] [] (orNow at_ (Now d)) end in
  (Ok (), set_config (Some (mkServerConfig (ScRecursor c) (ScAuthoritative c) rh ah (ScUpdatedBy c) (ScUpdatedAt c))) d).

(** ** IPAM sync state *)

Definition syncKey (tenant id : str) : str := tenant ++ "|" ++ id.

Definition get_ipam_sync (tenant id : str) (d : DB) : res IPAMSync :=
  match sync d !! syncKey tenant id with Some s => Ok s | None => NotFound end.

Definition upsert_ipam_sync (s : IPAMSync) (d : DB) : res unit * DB :=
  let ip := canonIP (SyAddress s) in
  if bool_decide (ip = []) || bool_decide (SyIPAddressID s = []) then (Conflict, d)
  else
    let s := mkIPAMSync (SyTenantID s) (SyIPAddressID s) ip (SyHostname s) (SyForwardZoneID s) (SyForwardName s)
               (SyForwardType s) (SyReverseZoneID s) (SyReverseName s)
               (if bool_decide (SyLastEvent s = []) then SyncCreated else SyLastEvent s) (orNow (SyUpdatedAt s) (Now d)) in
    (Ok (), set_sync (<[syncKey (SyTenantID s) (SyIPAddressID s) := s]> (sync d)) d).

Definition delete_ipam_sync (tenant id : str) (d : DB) : res unit * DB :=
  match sync d !! syncKey tenant id with
  | None => (NotFound, d)
  | Some _ => (Ok (), set_sync (delete (syncKey tenant id) (sync d)) d)
  end.

Definition clear_one (tenant zid : str) (s : IPAMSync) : IPAMSync :=
  if negb (bool_decide (SyTenantID s = tenant)) then s else
  let fwd := bool_decide (SyForwardZoneID s = zid) in
  let rev := bool_decide (SyReverseZoneID s = zid) in
  mkIPAMSync (SyTenantID s) (SyIPAddressID s) (SyAddress s) (SyHostname s)
    (if fwd then [] else SyForwardZoneID s) (if fwd then [] else SyForwardName s) (if fwd then [] else SyForwardType s)
    (if rev then [] else SyReverseZoneID s) (if rev then [] else SyReverseName s) (SyLastEvent s) (SyUpdatedAt s).
Definition clear_sync_zone (tenant zid : str) (d : DB) : res unit * DB :=
  (Ok (), set_sync (clear_one tenant zid <$> sync d) d).

(** ** ACME challenges *)

Definition insert_challenge (c : Challenge) (d : DB) : res unit * DB :=
  if negb (is_ok (zone (ChTenantID c) (ChZoneID c) d)) then (NotFound, d)
  else if bool_decide (is_Some (challenges d !! ChID c)) then (Conflict, d)
  else if any_value (λ x, bool_decide (ChTenantID x = ChTenantID c ∧ ChFQDN x = ChFQDN c ∧ ChValue x = ChValue c)) (challenges d)
  then (Conflict, d)
  else
    let c := mkChallenge (ChID c) (ChTenantID c) (ChZoneID c) (ChFQDN c) (ChValue c) (ChRequestedBy c)
               (orNow (ChCreatedAt c) (Now d)) in
    (Ok (), set_challenges (<[ChID c := c]> (challenges d)) d).

Definition delete_challenge (tenant fqdn value : str) (d : DB) : res unit * DB :=
  match find_first (λ kc, bool_decide (ChTenantID kc.2 = tenant ∧ ChFQDN kc.2 = fqdn ∧ ChValue kc.2 = value))
          (map_to_list (challenges d)) with
  | Some (k, _) => (Ok (), set_challenges (delete k (challenges d)) d)
  | None => (NotFound, d)
  end.

Definition challenge_ltb (a b : Challenge) : bool :=
  if negb (ChCreatedAt a =? ChCreatedAt b) then ChCreatedAt a <? ChCreatedAt b else str_ltb (ChID a) (ChID b).
Definition challenges_older_than (before : time) (limit : Z) (d : DB) : list Challenge :=
  let out := sort_by challenge_ltb (List.filter (λ c, ChCreatedAt c <? before) (values_of (challenges d))) in
  if (0 <? limit) && (limit <? Z.of_nat (length out)) then take (Z.to_nat limit) out else out.

(** ** Backup and audit *)

Definition tenant_ids (d : DB) : list str :=
  sort_by str_ltb (remove_dups (map TenantID (values_of (zones d)) ++ map TplTenantID (values_of (templates d))
                                ++ map SmTenantID (values_of (supermasters d)))).

Definition append_audit (row : AuditRow) (d : DB) : res unit * DB :=
  (Ok (), mkDB (zones d) (templates d) (supermasters d) (config d) (sync d) (challenges d) (audit d ++ [row]) (Now d)).

(** ** The in-memory store *)

Record Mem := mkMem { db : DB; failNext : gset str }.
Definition NewMem (now : time) : Mem := mkMem (empty_db now) ∅.
Definition FailNext (method : str) (m : Mem) : Mem := mkMem (db m) ({[method]} ∪ failNext m).

(** [fail] disarms and reports an injected failure. *)
Definition fail (method : str) (m : Mem) : option error * Mem :=
  if bool_decide (method ∈ failNext m) then (Some (InjectedErr method), mkMem (db m) (failNext m ∖ {[method]}))
  else (None, m).

Definition gated {A} (method : str) (core : DB → res A * DB) (m : Mem) : res A * Mem :=
  match fail method m with
  | (Some e, m) => (Err e, m)
  | (None, m) => let '(r, d) := core (db m) in (r, mkMem d (failNext m))
  end.

(** A method that only reads. *)
Definition reading {A} (get : DB → res A) (d : DB) : res A * DB := (get d, d).

Section Methods.
Context {U : Unicode} {LQ : ListQuery}.

Definition CreateZone (z : Zone) := gated "CreateZone" (create_zone z).
Definition GetZone (tenant id : str) := gated "GetZone" (reading (zone tenant id)).
Definition GetZoneByName (tenant name : str) := gated "GetZoneByName" (reading (get_zone_by_name tenant name)).
Definition ListZones (tenant : str) (f : ZoneFilter) (req : Request) :=
  gated "ListZones" (reading (λ d, Ok (list_zones tenant f req d))).
Definition UpdateZone (z : Zone) := gated "UpdateZone" (update_zone z).
Definition DeleteZone (tenant id : str) := gated "DeleteZone" (delete_zone tenant id).
Definition ZoneConflict (tenant name : str) := gated "ZoneConflict" (reading (λ d, Ok (zone_conflict tenant name d))).
Definition AllZoneNames := gated "AllZoneNames" (reading (λ d, Ok (all_zone_names d))).
Definition ZonesForTenant (tenant : str) := gated "ZonesForTenant" (reading (λ d, Ok (tenantZones tenant d))).

Definition CreateTemplate (t : Template) := gated "CreateTemplate" (create_template t).
Definition GetTemplate (tenant id : str) := gated "GetTemplate" (reading (template tenant id)).
Definition ListTemplates (tenant : str) (req : Request) :=
  gated "ListTemplates" (reading (λ d, Ok (list_templates tenant req d))).
Definition UpdateTemplate (t : Template) := gated "UpdateTemplate" (update_template t).
Definition DeleteTemplate (tenant id : str) := gated "DeleteTemplate" (delete_template tenant id).

Definition CreateSupermaster (s : Supermaster) := gated "CreateSupermaster" (create_supermaster s).
Definition GetSupermaster (tenant id : str) := gated "GetSupermaster" (reading (supermaster tenant id)).
Definition ListSupermasters (tenant : str) (req : Request) :=
  gated "ListSupermasters" (reading (λ d, Ok (list_supermasters tenant req d))).
Definition DeleteSupermaster (tenant id : str) := gated "DeleteSupermaster" (delete_supermaster tenant id).

Definition GetServerConfig := gated "GetServerConfig" (reading get_server_config).
Definition SaveServerConfig (c : ServerConfig) := gated "SaveServerConfig" (save_server_config c).
Definition SetConfigHashes (rh ah : str) (at_ : time) := gated "SetConfigHashes" (set_config_hashes rh ah at_).

Definition GetIPAMSync (tenant id : str) := gated "GetIPAMSync" (reading (get_ipam_sync tenant id)).
Definition UpsertIPAMSync (s : IPAMSync) := gated "UpsertIPAMSync" (upsert_ipam_sync s).
Definition DeleteIPAMSync (tenant id : str) := gated "DeleteIPAMSync" (delete_ipam_sync tenant id).
Definition ClearSyncZone (tenant zid : str) := gated "ClearSyncZone" (clear_sync_zone tenant zid).

Definition InsertChallenge (c : Challenge) := gated "InsertChallenge" (insert_challenge c).
Definition DeleteChallenge (tenant fqdn value : str) := gated "DeleteChallenge" (delete_challenge tenant fqdn value).
Definition ChallengesOlderThan (before : time) (limit : Z) :=
  gated "ChallengesOlderThan" (reading (λ d, Ok (challenges_older_than before limit d))).

Definition AllTemplates (tenant : str) := gated "AllTemplates" (reading (λ d, Ok (tenantTemplates tenant d))).
Definition AllSupermasters (tenant : str) := gated "AllSupermasters" (reading (λ d, Ok (tenantSupermasters tenant d))).
Definition TenantIDs := gated "TenantIDs" (reading (λ d, Ok (tenant_ids d))).
Definition AppendAudit (row : AuditRow) := gated "AppendAudit" (append_audit row).
End Methods.

(** ** The [repo.Store] interface and what it promises *)

(** A failure of the store itself is none of the sentinels of the module. *)
Definition fault : error → Prop := only_kinds [].

Lemma fault_kinds e : fault e → Is e RepoErrNotFound = false ∧ Is e RepoErrConflict = false.
Proof. intros H. split; eapply only_kinds_not; try exact H; apply not_elem_of_nil. Qed.


Class RepoStore `{U : Unicode} (S : Type) := {
  repo_db : S → DB;
  repo_CreateZone : Zone → S → res unit * S;
  repo_GetZone : str → str → S → res Zone * S;
  repo_GetZoneByName : str → str → S → res Zone * S;
  repo_UpdateZone : Zone → S → res Zone * S;
  repo_DeleteZone : str → str → S → res unit * S;
  repo_ZoneConflict : str → str → S → res bool * S;
  repo_AllZoneNames : S → res (list str) * S;
  repo_ZonesForTenant : str → S → res (list Zone) * S;
  repo_CreateTemplate : Template → S → res unit * S;
  repo_GetTemplate : str → str → S → res Template * S;
  repo_UpdateTemplate : Template → S → res Template * S;
  repo_DeleteTemplate : str → str → S → res unit * S;
  repo_GetIPAMSync : str → str → S → res IPAMSync * S;
  repo_UpsertIPAMSync : IPAMSync → S → res unit * S;
  repo_DeleteIPAMSync : str → str → S → res unit * S;
  repo_ClearSyncZone : str → str → S → res unit * S;
  repo_InsertChallenge : Challenge → S → res unit * S;
  repo_DeleteChallenge : str → str → str → S → res unit * S;
  repo_ChallengesOlderThan : time → Z → S → res (list Challenge) * S;
  repo_ListZones : ∀ {LQ : ListQuery}, str → ZoneFilter → Request → S → res (list Zone * Z * Request) * S;
  repo_ListTemplates : ∀ {LQ : ListQuery}, str → Request → S → res (list Template * Z * Request) * S;
  repo_CreateSupermaster : Supermaster → S → res unit * S;
  repo_GetSupermaster : str → str → S → res Supermaster * S;
  repo_ListSupermasters : ∀ {LQ : ListQuery}, str → Request → S → res (list Supermaster * Z * Request) * S;
  repo_DeleteSupermaster : str → str → S → res unit * S;
  repo_GetServerConfig : S → res ServerConfig * S;
  repo_SaveServerConfig : ServerConfig → S → res unit * S;
  repo_SetConfigHashes : str → str → time → S → res unit * S;
  repo_AllTemplates : str → S → res (list Template) * S;
  repo_AllSupermasters : str → S → res (list Supermaster) * S;
  repo_TenantIDs : S → res (list str) * S;
  repo_AppendAudit : AuditRow → S → res unit * S;

  repo_CreateZone_ok z : faithful (λ _, True) repo_db fault (repo_CreateZone z) (create_zone z);
  repo_GetZone_ok t i : faithful (λ _, True) repo_db fault (repo_GetZone t i) (reading (zone t i));
  repo_GetZoneByName_ok t n : faithful (λ _, True) repo_db fault (repo_GetZoneByName t n) (reading (get_zone_by_name t n));
  repo_UpdateZone_ok z : faithful (λ _, True) repo_db fault (repo_UpdateZone z) (update_zone z);
  repo_DeleteZone_ok t i : faithful (λ _, True) repo_db fault (repo_DeleteZone t i) (delete_zone t i);
  repo_ZoneConflict_ok t n :
    faithful (λ _, True) repo_db fault (repo_ZoneConflict t n) (reading (λ d, Ok (zone_conflict t n d)));
  repo_AllZoneNames_ok : faithful (λ _, True) repo_db fault repo_AllZoneNames (reading (λ d, Ok (all_zone_names d)));
  repo_ZonesForTenant_ok t :
    faithful (λ _, True) repo_db fault (repo_ZonesForTenant t) (reading (λ d, Ok (tenantZones t d)));
  repo_CreateTemplate_ok t : faithful (λ _, True) repo_db fault (repo_CreateTemplate t) (create_template t);
  repo_GetTemplate_ok t i : faithful (λ _, True) repo_db fault (repo_GetTemplate t i) (reading (template t i));
  repo_UpdateTemplate_ok t : faithful (λ _, True) repo_db fault (repo_UpdateTemplate t) (update_template t);
  repo_DeleteTemplate_ok t i : faithful (λ _, True) repo_db fault (repo_DeleteTemplate t i) (delete_template t i);
  repo_GetIPAMSync_ok t i : faithful (λ _, True) repo_db fault (repo_GetIPAMSync t i) (reading (get_ipam_sync t i));
  repo_UpsertIPAMSync_ok s : faithful (λ _, True) repo_db fault (repo_UpsertIPAMSync s) (upsert_ipam_sync s);
  repo_DeleteIPAMSync_ok t i : faithful (λ _, True) repo_db fault (repo_DeleteIPAMSync t i) (delete_ipam_sync t i);
  repo_ClearSyncZone_ok t i : faithful (λ _, True) repo_db fault (repo_ClearSyncZone t i) (clear_sync_zone t i);
  repo_InsertChallenge_ok c : faithful (λ _, True) repo_db fault (repo_InsertChallenge c) (insert_challenge c);
  repo_DeleteChallenge_ok t f v : faithful (λ _, True) repo_db fault (repo_DeleteChallenge t f v) (delete_challenge t f v);
  repo_ChallengesOlderThan_ok b l :
    faithful (λ _, True) repo_db fault (repo_ChallengesOlderThan b l) (reading (λ d, Ok (challenges_older_than b l d)));
  repo_ListZones_ok {LQ : ListQuery} t f r :
    faithful (λ _, True) repo_db fault (repo_ListZones t f r) (reading (λ d, Ok (list_zones t f r d)));
  repo_ListTemplates_ok {LQ : ListQuery} t r :
    faithful (λ _, True) repo_db fault (repo_ListTemplates t r) (reading (λ d, Ok (list_templates t r d)));
  repo_CreateSupermaster_ok s : faithful (λ _, True) repo_db fault (repo_CreateSupermaster s) (create_supermaster s);
  repo_GetSupermaster_ok t i : faithful (λ _, True) repo_db fault (repo_GetSupermaster t i) (reading (supermaster t i));
  repo_ListSupermasters_ok {LQ : ListQuery} t r :
    faithful (λ _, True) repo_db fault (repo_ListSupermasters t r) (reading (λ d, Ok (list_supermasters t r d)));
  repo_DeleteSupermaster_ok t i : faithful (λ _, True) repo_db fault (repo_DeleteSupermaster t i) (delete_supermaster t i);
  repo_GetServerConfig_ok : faithful (λ _, True) repo_db fault repo_GetServerConfig (reading get_server_config);
  repo_SaveServerConfig_ok c : faithful (λ _, True) repo_db fault (repo_SaveServerConfig c) (save_server_config c);
  repo_SetConfigHashes_ok r a t : faithful (λ _, True) repo_db fault (repo_SetConfigHashes r a t) (set_config_hashes r a t);
  repo_AllTemplates_ok t :
    faithful (λ _, True) repo_db fault (repo_AllTemplates t) (reading (λ d, Ok (tenantTemplates t d)));
  repo_AllSupermasters_ok t :
    faithful (λ _, True) repo_db fault (repo_AllSupermasters t) (reading (λ d, Ok (tenantSupermasters t d)));
  repo_TenantIDs_ok : faithful (λ _, True) repo_db fault repo_TenantIDs (reading (λ d, Ok (tenant_ids d)));
  repo_AppendAudit_ok row : faithful (λ _, True) repo_db fault (repo_AppendAudit row) (append_audit row)
}.

Lemma gated_faithful {A} method (core : DB → res A * DB) : faithful (λ _, True) db fault (gated method core) core.
Proof.
  intros m r m' _. unfold gated, fail. case_bool_decide.
  - intros [= <- <-]. split; [done|]. left. eexists. split_and!; done.
  - destruct (core (db m)) as [r0 d] eqn:E. intros [= <- <-]. auto.
Qed.

#[global] Instance mem_store `{U : Unicode} : RepoStore Mem := {
  repo_db := db;
  repo_CreateZone := CreateZone; repo_GetZone := GetZone; repo_GetZoneByName := GetZoneByName;
  repo_UpdateZone := UpdateZone; repo_DeleteZone := DeleteZone; repo_ZoneConflict := ZoneConflict;
  repo_AllZoneNames := AllZoneNames; repo_ZonesForTenant := ZonesForTenant;
  repo_CreateTemplate := CreateTemplate; repo_GetTemplate := GetTemplate; repo_UpdateTemplate := UpdateTemplate;
  repo_DeleteTemplate := DeleteTemplate; repo_GetIPAMSync := GetIPAMSync; repo_UpsertIPAMSync := UpsertIPAMSync;
  repo_DeleteIPAMSync := DeleteIPAMSync; repo_ClearSyncZone := ClearSyncZone;
  repo_InsertChallenge := InsertChallenge; repo_DeleteChallenge := DeleteChallenge;
  repo_ChallengesOlderThan := ChallengesOlderThan;
  repo_ListZones LQ := ListZones; repo_ListTemplates LQ := ListTemplates; repo_ListSupermasters LQ := ListSupermasters;
  repo_CreateSupermaster := CreateSupermaster; repo_GetSupermaster := GetSupermaster; repo_DeleteSupermaster := DeleteSupermaster;
  repo_GetServerConfig := GetServerConfig; repo_SaveServerConfig := SaveServerConfig; repo_SetConfigHashes := SetConfigHashes;
  repo_AllTemplates := AllTemplates; repo_AllSupermasters := AllSupermasters; repo_TenantIDs := TenantIDs;
  repo_AppendAudit := AppendAudit;
  repo_CreateZone_ok _ := gated_faithful _ _; repo_GetZone_ok _ _ := gated_faithful _ _;
  repo_GetZoneByName_ok _ _ := gated_faithful _ _; repo_UpdateZone_ok _ := gated_faithful _ _;
  repo_DeleteZone_ok _ _ := gated_faithful _ _; repo_ZoneConflict_ok _ _ := gated_faithful _ _;
  repo_AllZoneNames_ok := gated_faithful _ _; repo_ZonesForTenant_ok _ := gated_faithful _ _;
  repo_CreateTemplate_ok _ := gated_faithful _ _; repo_GetTemplate_ok _ _ := gated_faithful _ _;
  repo_UpdateTemplate_ok _ := gated_faithful _ _; repo_DeleteTemplate_ok _ _ := gated_faithful _ _;
  repo_GetIPAMSync_ok _ _ := gated_faithful _ _; repo_UpsertIPAMSync_ok _ := gated_faithful _ _;
  repo_DeleteIPAMSync_ok _ _ := gated_faithful _ _; repo_ClearSyncZone_ok _ _ := gated_faithful _ _;
  repo_InsertChallenge_ok _ := gated_faithful _ _; repo_DeleteChallenge_ok _ _ _ := gated_faithful _ _;
  repo_ChallengesOlderThan_ok _ _ := gated_faithful _ _;
  repo_ListZones_ok _ _ _ _ := gated_faithful _ _; repo_ListTemplates_ok _ _ _ := gated_faithful _ _;
  repo_ListSupermasters_ok _ _ _ := gated_faithful _ _; repo_CreateSupermaster_ok _ := gated_faithful _ _;
  repo_GetSupermaster_ok _ _ := gated_faithful _ _; repo_DeleteSupermaster_ok _ _ := gated_faithful _ _;
  repo_GetServerConfig_ok := gated_faithful _ _; repo_SaveServerConfig_ok _ := gated_faithful _ _;
  repo_SetConfigHashes_ok _ _ _ := gated_faithful _ _; repo_AllTemplates_ok _ := gated_faithful _ _;
  repo_AllSupermasters_ok _ := gated_faithful _ _; repo_TenantIDs_ok := gated_faithful _ _;
  repo_AppendAudit_ok _ := gated_faithful _ _
}.

(** ** Invariants *)

(** The steps that change one tenant's rows, and the others. *)
Inductive tenant_step `{U : Unicode} (t : str) (d : DB) : DB → Prop :=
  | ts_create_zone z : TenantID z = t → tenant_step t d (create_zone z d).2
  | ts_update_zone z : TenantID z = t → tenant_step t d (update_zone z d).2
  | ts_delete_zone id : tenant_step t d (delete_zone t id d).2
  | ts_create_template x : TplTenantID x = t → tenant_step t d (create_template x d).2
  | ts_update_template x : TplTenantID x = t → tenant_step t d (update_template x d).2
  | ts_delete_template id : tenant_step t d (delete_template t id d).2
  | ts_create_supermaster s : SmTenantID s = t → tenant_step t d (create_supermaster s d).2
  | ts_delete_supermaster id : tenant_step t d (delete_supermaster t id d).2
  | ts_upsert_sync s : SyTenantID s = t → tenant_step t d (upsert_ipam_sync s d).2
  | ts_delete_sync id : tenant_step t d (delete_ipam_sync t id d).2
  | ts_clear_sync zid : tenant_step t d (clear_sync_zone t zid d).2
  | ts_insert_challenge c : ChTenantID c = t → tenant_step t d (insert_challenge c d).2
  | ts_delete_challenge f v : tenant_step t d (delete_challenge t f v d).2.
Inductive db_step `{U : Unicode} (d : DB) : DB → Prop :=
  | ds_tenant t d' : tenant_step t d d' → db_step d d'
  | ds_save_config c : db_step d (save_server_config c d).2
  | ds_config_hashes rh ah at_ : db_step d (set_config_hashes rh ah at_ d).2
  | ds_audit row : db_step d (append_audit row d).2
  | ds_clock now : db_step d (mkDB (zones d) (templates d) (supermasters d) (config d) (sync d) (challenges d) (audit d) now).

Definition same_zone (x y : Zone) : Prop := Name x = Name y ∨ PDNSID x = PDNSID y.
Definition same_template `{Unicode} (x y : Template) : Prop :=
  TplTenantID x = TplTenantID y ∧ EqualFold (TplName x) (TplName y) = true.
Definition same_supermaster (x y : Supermaster) : Prop := SmIP x = SmIP y ∧ SmNameserver x = SmNameserver y.
Definition same_challenge (x y : Challenge) : Prop :=
  ChTenantID x = ChTenantID y ∧ ChFQDN x = ChFQDN y ∧ ChValue x = ChValue y.

(** The guards of the schema: primary keys, the unique indexes (zone name and
    PowerDNS id over all tenants, supermaster over all tenants, template name per
    tenant without case, challenge per tenant), and the composite foreign key of
    the challenges. *)
Record db_wf `{U : Unicode} (d : DB) : Prop := {
  wf_zone_id : map_Forall (λ k z, ID z = k) (zones d);
  wf_zone_uniq : uniq same_zone (zones d);
  wf_template_id : map_Forall (λ k x, TplID x = k) (templates d);
  wf_template_uniq : uniq same_template (templates d);
  wf_supermaster_id : map_Forall (λ k x, SmID x = k) (supermasters d);
  wf_supermaster_uniq : uniq same_supermaster (supermasters d);
  wf_sync_key : map_Forall (λ k s, syncKey (SyTenantID s) (SyIPAddressID s) = k) (sync d);
  wf_challenge_uniq : uniq same_challenge (challenges d);
  wf_challenge_zone : map_Forall (λ _ c, ∃ z, zones d !! ChZoneID c = Some z ∧ TenantID z = ChTenantID c) (challenges d)
}.

Lemma zone_Ok t i d z : zone t i d = Ok z ↔ zones d !! i = Some z ∧ TenantID z = t.
Proof. unfold zone. destruct (zones d !! i); [case_bool_decide|]; naive_solver. Qed.
Lemma zone_err t i d e : zone t i d = Err e → e = New RepoErrNotFound ∧ ∀ z, zones d !! i = Some z → TenantID z ≠ t.
Proof. unfold zone. destruct (zones d !! i); [case_bool_decide|]; intros [= <-]; naive_solver. Qed.
Lemma template_Ok t i d x : template t i d = Ok x ↔ templates d !! i = Some x ∧ TplTenantID x = t.
Proof. unfold template. destruct (templates d !! i); [case_bool_decide|]; naive_solver. Qed.
Lemma supermaster_Ok t i d x : supermaster t i d = Ok x ↔ supermasters d !! i = Some x ∧ SmTenantID x = t.
Proof. unfold supermaster. destruct (supermasters d !! i); [case_bool_decide|]; naive_solver. Qed.

(** The row a successful insert of a zone writes. *)
Definition stored (z : Zone) (d : DB) : Zone :=
  let created := orNow (CreatedAt z) (Now d) in
  mkZone (ID z) (TenantID z) (Name z) (PDNSID z)
    (if bool_decide (Kind z = []) then KindNative else Kind z) (Masters z) (DNSSEC z) (Description z)
    (TemplateID z) (if bool_decide (Origin z = []) then OriginManual else Origin z) (Nameservers z)
    (CreatedBy z) created (orNow (UpdatedAt z) created).

Lemma create_zone_cases z d :
  (create_zone z d = (Ok (), set_zones (<[ID z := stored z d]> (zones d)) d) ∧ zones d !! ID z = None ∧
   map_Forall (λ _ x, Name x ≠ Name z ∧ PDNSID x ≠ PDNSID z) (zones d)) ∨ create_zone z d = (Conflict, d).
Proof.
  unfold create_zone. case_bool_decide as Hs; [by right|]. destruct (any_value _ _) eqn:E; [by right|]. left.
  split; [done|]. split; [by apply eq_None_not_Some|]. rewrite any_value_false in E.
  intros k x Hk. specialize (E k x Hk). cbn beta in E. b2p. done.
Qed.

(** A row that shares nothing unique with the others is inserted. *)
Lemma create_zone_fresh z d :
  (∀ k x, zones d !! k = Some x → k ≠ ID z ∧ Name x ≠ Name z ∧ PDNSID x ≠ PDNSID z) →
  create_zone z d = (Ok (), set_zones (<[ID z := stored z d]> (zones d)) d) ∧ zones d !! ID z = None.
Proof.
  intros H. assert (Hn : zones d !! ID z = None).
  { destruct (zones d !! ID z) as [x|] eqn:E; [|done]. by destruct (H _ x E) as [? _]. }
  split; [|done]. unfold create_zone. rewrite Hn. rewrite bool_decide_eq_false_2 by (by intros [? ?]).
  rewrite (proj2 (any_value_false _ _)); [done|]. intros k x Hx. destruct (H k x Hx) as (_ & ? & ?). cbn beta.
  by rewrite !bool_decide_eq_false_2.
Qed.

(** A row of the zones that keeps its identity may change anything else. *)
Lemma zones_update_wf `{U : Unicode} d i z z' :
  db_wf d → zones d !! i = Some z → ID z' = ID z → Name z' = Name z → PDNSID z' = PDNSID z → TenantID z' = TenantID z →
  db_wf (set_zones (<[i := z']> (zones d)) d).
Proof.
  intros [] Hz Hi Hn Hp Ht. constructor; simpl; try done.
  - apply map_Forall_insert_2; [|done]. rewrite Hi. by apply wf_zone_id0.
  - apply uniq_insert; [done|]. intros j y Hj Hy. unfold same_zone. rewrite Hn, Hp. split; intros HR.
    + apply Hj. symmetry. by apply (wf_zone_uniq0 i j z y).
    + apply Hj. by apply (wf_zone_uniq0 j i y z).
  - intros k c Hc. destruct (wf_challenge_zone0 k c Hc) as (x & Hx & Hxt).
    destruct (decide (ChZoneID c = i)) as [Ei|]; [rewrite Ei in *|exists x; by rewrite lookup_insert_ne].
    exists z'. rewrite lookup_insert_eq. split; [done|]. rewrite Hz in Hx. congruence.
Qed.

Section Wf.
Context {U : Unicode}.

Lemma create_zone_wf z d : db_wf d → db_wf (create_zone z d).2.
Proof.
  intros Hwf. destruct (create_zone_cases z d) as [(-> & Hn & Hf)| ->]; [|done].
  destruct Hwf. constructor; simpl; try done.
  - by apply map_Forall_insert_2.
  - apply uniq_insert; [done|]. intros j y Hj Hy. specialize (Hf j y Hy) as [??].
    unfold same_zone. simpl. naive_solver.
  - intros k c Hc. destruct (wf_challenge_zone0 k c Hc) as (x & Hx & Hxt). exists x.
    rewrite lookup_insert_ne; [done|]. intros Ei. rewrite <- Ei in Hx. congruence.
Qed.

Lemma update_zone_wf z d : db_wf d → db_wf (update_zone z d).2.
Proof.
  intros Hwf. unfold update_zone. destruct (zone (TenantID z) (ID z) d) as [cur|] eqn:E; [|done].
  apply zone_Ok in E as [E Et]. assert (Hid : ID cur = ID z) by (by apply (wf_zone_id d Hwf)).
  simpl. rewrite Hid. by eapply zones_update_wf.
Qed.

Lemma delete_zone_wf t i d : db_wf d → db_wf (delete_zone t i d).2.
Proof.
  intros Hwf. unfold delete_zone. destruct (zone t i d) as [z|] eqn:E; [|done]. apply zone_Ok in E as [E Et].
  destruct Hwf. constructor; simpl; try done.
  - by apply map_Forall_delete.
  - by apply uniq_delete.
  - intros k j x y [Hx _]%map_lookup_filter_Some [Hy _]%map_lookup_filter_Some. by apply wf_challenge_uniq0.
  - intros k c [Hc Hn]%map_lookup_filter_Some. simpl in Hn.
    destruct (wf_challenge_zone0 k c Hc) as (x & Hx & Hxt). exists x.
    rewrite lookup_delete_ne; [done|]. intros Ei. apply Hn. rewrite <- Ei in Hx. split; congruence.
Qed.

Lemma template_taken_false t d k x :
  templateNameTaken t d = false → templates d !! k = Some x → TplID x ≠ TplID t → ¬ same_template t x ∧ ¬ same_template x t.
Proof.
  unfold templateNameTaken. rewrite any_value_false. intros H Hk Hid. specialize (H k x Hk). cbn beta in H.
  rewrite (bool_decide_eq_false_2 (TplID x = TplID t)) in H by done. unfold same_template.
  rewrite (EqualFold_sym (TplName t)). case_bool_decide; cbn [andb negb] in H; split; intros [? ?]; congruence.
Qed.

Lemma insert_template_wf d i x :
  db_wf d → TplID x = i → (∀ j y, j ≠ i → templates d !! j = Some y → ¬ same_template x y ∧ ¬ same_template y x) →
  db_wf (set_templates (<[i := x]> (templates d)) d).
Proof.
  intros [] Hi Hn. constructor; simpl; try done; [by apply map_Forall_insert_2|by apply uniq_insert].
Qed.

Lemma create_template_wf t d : db_wf d → db_wf (create_template t d).2.
Proof.
  intros Hwf. unfold create_template. case_bool_decide as Hs; [done|]. cbn [orb].
  destruct (templateNameTaken t d) eqn:E; [done|]. apply insert_template_wf; [done..|].
  intros j y Hj Hy. pose proof (wf_template_id d Hwf j y Hy) as Hid. simpl in Hid.
  apply (template_taken_false t d j y E Hy). simpl in Hj. congruence.
Qed.

Lemma update_template_wf t d : db_wf d → db_wf (update_template t d).2.
Proof.
  intros Hwf. unfold update_template. destruct (template (TplTenantID t) (TplID t) d) as [cur|] eqn:Et; [|done].
  destruct (templateNameTaken t d) eqn:E; [done|]. apply template_Ok in Et as [Hc Ht].
  pose proof (wf_template_id d Hwf _ _ Hc) as Hi. simpl in Hi. apply insert_template_wf; [done..|].
  intros j y Hj Hy. pose proof (wf_template_id d Hwf j y Hy) as Hid. simpl in Hid, Hj.
  destruct (template_taken_false t d j y E Hy) as [H1 H2]; [congruence|].
  unfold same_template in *. simpl. by rewrite Ht.
Qed.

Lemma db_step_wf d d' : db_step d d' → db_wf d → db_wf d'.
Proof.
  intros Hs Hwf. destruct Hs as [t d' Hs|c|rh ah at_|row|now]; [destruct Hs|..].
  - by apply create_zone_wf.
  - by apply update_zone_wf.
  - by apply delete_zone_wf.
  - by apply create_template_wf.
  - by apply update_template_wf.
  - unfold delete_template. destruct (template t id d) eqn:E; [|done].
    destruct Hwf. constructor; simpl; try done; [by apply map_Forall_delete|by apply uniq_delete].
  - unfold create_supermaster. do 2 (case_bool_decide; [done|]). destruct (any_value _ _) eqn:E; [done|].
    rewrite any_value_false in E. destruct Hwf. constructor; simpl; try done; [by apply map_Forall_insert_2|]. apply uniq_insert; [done|].
    intros j y Hj Hy. specialize (E j y Hy). cbn beta in E. b2p. unfold same_supermaster. simpl. naive_solver.
  - unfold delete_supermaster. destruct (supermaster t id d) eqn:E; [|done].
    destruct Hwf. constructor; simpl; try done; [by apply map_Forall_delete|by apply uniq_delete].
  - unfold upsert_ipam_sync. case_if as E; [done|]. destruct Hwf. constructor; simpl; try done. by apply map_Forall_insert_2.
  - unfold delete_ipam_sync. destruct (sync d !! syncKey t id); [|done].
    destruct Hwf. constructor; simpl; try done. by apply map_Forall_delete.
  - destruct Hwf. constructor; simpl; try done. intros k s. rewrite lookup_fmap. intros (x & Hx & ->)%fmap_Some_1.
    specialize (wf_sync_key0 k x Hx). unfold clear_one. by destruct (negb _).
  - unfold insert_challenge. destruct (zone _ _ d) as [z|] eqn:Ez; [|done]. case_bool_decide; [done|].
    destruct (any_value _ _) eqn:E; [done|]. rewrite any_value_false in E. apply zone_Ok in Ez.
    destruct Hwf. constructor; simpl; try done.
    + apply uniq_insert; [done|]. intros j y Hj Hy. specialize (E j y Hy). cbn beta in E. b2p. unfold same_challenge. simpl. naive_solver.
    + apply map_Forall_insert_2; [by exists z|done].
  - unfold delete_challenge. destruct (find_first _ _) as [[k c]|]; [|done].
    destruct Hwf. constructor; simpl; try done; [by apply uniq_delete|by apply map_Forall_delete].
  - unfold save_server_config. destruct (config d); by destruct Hwf.
  - by destruct Hwf.
  - by destruct Hwf.
  - by destruct Hwf.
Qed.

Lemma empty_wf now : db_wf (empty_db now).
Proof. constructor; simpl; try apply map_Forall_empty; apply uniq_empty. Qed.

(** The store keeps the guards of the schema: from the empty store, after
    any sequence of its operations, rows sit under their own ids; no two zones,
    of any tenants, share a name or a PowerDNS id; no two supermasters, of any
    tenants, share an (address, nameserver) pair; no two templates of a tenant
    have names equal up to case; no two challenges of a tenant have the same name
    and value; and the zone of every challenge exists and belongs to the
    challenge's tenant (deleting a zone removes its challenges). *)
Theorem db_invariant now d : rtc db_step (empty_db now) d → db_wf d.
Proof. intros H. pose proof (empty_wf now). induction H; eauto using db_step_wf. Qed.

(** ** Tenant isolation *)

(** The rows of one table that belong to a tenant. *)
Definition rows {A} (ten : A → str) (t : str) (m : gmap str A) : gmap str A := filter (λ kx, ten kx.2 = t) m.

Lemma rows_insert {A} (ten : A → str) (t : str) (m : gmap str A) (k : str) (x : A) :
  ten x ≠ t → (∀ y, m !! k = Some y → ten y ≠ t) → rows ten t (<[k := x]> m) = rows ten t m.
Proof. intros Hx Hk. by apply map_filter_insert_not'. Qed.

Lemma rows_delete {A} (ten : A → str) (t : str) (m : gmap str A) (k : str) :
  (∀ y, m !! k = Some y → ten y ≠ t) → rows ten t (delete k m) = rows ten t m.
Proof. intros Hk. by apply map_filter_delete_not. Qed.

(** Everything a tenant can see. *)
Definition tenant_rows (t : str) (d : DB) :=
  (rows TenantID t (zones d), rows TplTenantID t (templates d), rows SmTenantID t (supermasters d),
   rows SyTenantID t (sync d), rows ChTenantID t (challenges d)).

Lemma syncKey_inj t i t' i' : "|"%char ∉ t → "|"%char ∉ t' → syncKey t i = syncKey t' i' → t = t' ∧ i = i'.
Proof.
  unfold syncKey. intros Ht Ht' E. change (lit "|") with ["|"%char] in E. simpl in E.
  revert t' Ht' E. induction t as [|c t IH]; intros [|c' t'] Ht' E; simplify_eq/=; [done|set_solver..|].
  destruct (IH ltac:(set_solver) t') as [-> ->]; [set_solver|done|done].
Qed.

Lemma delete_challenge_cases t f v d :
  delete_challenge t f v d = (NotFound, d) ∨
  ∃ k c, delete_challenge t f v d = (Ok (), set_challenges (delete k (challenges d)) d) ∧
    challenges d !! k = Some c ∧ ChTenantID c = t ∧ ChFQDN c = f ∧ ChValue c = v.
Proof.
  unfold delete_challenge. destruct (find_first _ _) as [[k c]|] eqn:E; [|by left]. right. exists k, c.
  apply find_first_Some in E as [E%elem_of_map_to_list Ep]. by b2p.
Qed.

Lemma clear_one_rows (t t' zid : str) (m : gmap str IPAMSync) :
  t ≠ t' → rows SyTenantID t' (clear_one t zid <$> m) = rows SyTenantID t' m.
Proof.
  intros Hn. apply map_eq. intros k. apply option_eq. intros s. unfold rows.
  rewrite !map_lookup_filter_Some, lookup_fmap, fmap_Some. simpl. unfold clear_one. split.
  - intros [(x & Hx & ->) Ht]. revert Ht. case_bool_decide; simpl; [congruence|done].
  - intros [Hs Ht]. split; [|done]. exists s. split; [done|]. by rewrite bool_decide_eq_false_2 by congruence.
Qed.

Lemma other_zone_rows (t t' : str) z i d :
  zone t i d = Ok z → t ≠ t' → ∀ y, zones d !! i = Some y → TenantID y ≠ t'.
Proof. intros [E <-]%zone_Ok Hn y Hy. congruence. Qed.

Lemma fresh_rows {A} (ten : A → str) (t : str) (m : gmap str A) (k : str) :
  ¬ is_Some (m !! k) → ∀ y, m !! k = Some y → ten y ≠ t.
Proof. intros Hs y Hy. destruct Hs. eauto. Qed.

(** An operation of one tenant keeps the rows of another, given that sync keys of
    the two cannot be the same, or that no sync row changes. *)
Lemma tenant_step_rows (t t' : str) d d' :
  ("|"%char ∉ t ∧ "|"%char ∉ t') ∨ sync d' = sync d → t ≠ t' → db_wf d → tenant_step t d d' → tenant_rows t' d' = tenant_rows t' d.
Proof.
  intros Hb Hn Hwf Hs. unfold tenant_rows. destruct Hs as [z Ht|z Ht|id|x Ht|x Ht|id|s Ht|id|s Ht|id|zid|c Ht|f v].
  - destruct (create_zone_cases z d) as [(-> & Hz & _)| ->]; [|done]. simpl.
    rewrite rows_insert; [done|simpl; congruence|by rewrite Hz].
  - unfold update_zone. destruct (zone _ _ d) as [cur|] eqn:E; [|done]. simpl.
    pose proof (other_zone_rows _ t' _ _ _ E ltac:(congruence)). apply zone_Ok in E as [E Et].
    rewrite (wf_zone_id d Hwf _ _ E), rows_insert; [done|simpl; congruence|done].
  - unfold delete_zone. destruct (zone _ _ d) as [cur|] eqn:E; [|done]. simpl.
    rewrite rows_delete by (by eapply other_zone_rows). unfold rows at 5.
    rewrite map_filter_filter_l; [done|]. simpl. intros k c _ ?. naive_solver.
  - unfold create_template. case_bool_decide as Hf; [done|]. cbn [orb]. destruct (templateNameTaken x d); [done|]. simpl.
    rewrite rows_insert; [done|simpl; congruence|by apply fresh_rows].
  - unfold update_template. destruct (template _ _ d) as [cur|] eqn:E; [|done]. destruct (templateNameTaken x d); [done|]. simpl.
    apply template_Ok in E as [E Et]. rewrite (wf_template_id d Hwf _ _ E), rows_insert; [done|simpl; congruence|].
    intros y Hy. congruence.
  - unfold delete_template. destruct (template _ _ d) as [cur|] eqn:E; [|done]. simpl. apply template_Ok in E as [E Et].
    rewrite rows_delete; [done|]. intros y Hy. congruence.
  - unfold create_supermaster. case_bool_decide; [done|]. case_bool_decide as Hf; [done|]. destruct (any_value _ _); [done|]. simpl.
    rewrite rows_insert; [done|simpl; congruence|by apply fresh_rows].
  - unfold delete_supermaster. destruct (supermaster _ _ d) as [cur|] eqn:E; [|done]. simpl.
    apply supermaster_Ok in E as [E Et]. rewrite rows_delete; [done|]. intros y Hy. congruence.
  - revert Hb. unfold upsert_ipam_sync. destruct (_ || _); [done|]. simpl. intros [[Hb Hb']| ->]; [|done].
    rewrite rows_insert; [done|simpl; congruence|].
    intros y Hy Hyt. pose proof (wf_sync_key d Hwf _ _ Hy) as Hk. simpl in Hk.
    apply syncKey_inj in Hk as [Hk _]; congruence.
  - revert Hb. unfold delete_ipam_sync. destruct (sync d !! _) eqn:E; [|done]. simpl. intros [[Hb Hb']| ->]; [|done].
    rewrite rows_delete; [done|].
    intros y Hy Hyt. pose proof (wf_sync_key d Hwf _ _ Hy) as Hk. simpl in Hk.
    apply syncKey_inj in Hk as [Hk _]; congruence.
  - simpl. by rewrite clear_one_rows.
  - unfold insert_challenge. destruct (zone _ _ d); [|done]. cbn [is_ok negb]. case_bool_decide as Hf; [done|].
    destruct (any_value _ _); [done|]. simpl. rewrite rows_insert; [done|simpl; congruence|by apply fresh_rows].
  - destruct (delete_challenge_cases t f v d) as [->|(k & c & -> & Hc & Hct & _)]; [done|]. simpl.
    rewrite rows_delete; [done|]. intros y Hy. congruence.
Qed.

(** Tenants are isolated in the store: an operation done for one tenant
    leaves everything another tenant can see — its zones, templates,
    supermasters, IPAM sync rows and challenges — exactly as it was, whether the
    operation succeeds or not.  (Tenant ids are UUIDs; they must not contain the
    separator of the sync keys.) *)
Theorem tenant_isolation (t t' : str) d d' :
  "|"%char ∉ t → "|"%char ∉ t' → t ≠ t' → db_wf d → tenant_step t d d' → tenant_rows t' d' = tenant_rows t' d.
Proof. intros. by apply (tenant_step_rows t); [left|..]. Qed.
End Wf.

(** A small store: one tenant's zone with a challenge. *)
Definition example_zone : Zone :=
  mkZone "z1" "t1" "a.com." "a.com." KindNative [] false [] [] OriginManual [] "u1" 5 5.
Definition example_db : DB := (create_zone example_zone (empty_db 7)).2.

Lemma db_invariant_witness :
  zones example_db !! ("z1" : str) = Some example_zone ∧ @db_wf unicode_min example_db.
Proof.
  split; [vm_compute; reflexivity|].
  apply (@db_invariant unicode_min 7). apply rtc_once. apply ds_tenant with (t := "t1"). by constructor.
Defined.

Lemma tenant_isolation_witness :
  tenant_rows "t2" (delete_zone "t1" "z1" example_db).2 = tenant_rows "t2" example_db
  ∧ tenant_rows "t1" (delete_zone "t1" "z1" example_db).2 ≠ tenant_rows "t1" example_db.
Proof.
  split.
  - apply (@tenant_isolation unicode_min "t1" "t2");
      [vm_compute; set_solver|vm_compute; set_solver|discriminate| |constructor].
    apply (@create_zone_wf unicode_min), empty_wf.
  - intros E. apply (f_equal (λ r, r.1.1.1.1 !! ("z1" : str))) in E. vm_compute in E. discriminate E.
Defined.
End MemStore.
