(* ===== verification/Pdns.v ===== *)
(** * The PowerDNS Authoritative server ([internal/pdns])

    [Pdns] holds the API types ([types.go]), the rrset operations and the
    in-memory server [Fake] ([fake.go]), whose operations are a failure gate
    ([begin]) in front of a function on the server's zones.  The class
    [PDNSClient] is the [Client] interface with its promise: a call either fails
    in transport, leaving the zones as they are, or does exactly what the
    function on the zones does. *)
From Stdlib Require Import Ascii.
From S2P Require Import Prelude GoStrings GoError Store.
Local Open Scope Z_scope.

Module Pdns.

Definition ChangeReplace : str := "REPLACE".
Definition ChangeDelete : str := "DELETE".

Record Record_ := mkRecord { RecContent : str; RecDisabled : bool }.
Record Comment := mkComment { ComContent : str; ComAccount : str; ComModifiedAt : Z }.

(** [Comments] is [None] for a nil slice: on REPLACE it keeps the comments. *)
Record RRset := mkRRset {
  RName : str;
  RType : str;
  RTTL : Z;
  RChangeType : str;
  RRecords : list Record_;
  RComments : option (list Comment)
}.

Record Zone := mkZone {
  PID : str;
  PName : str;
  PKind : str;
  PSerial : Z;
  PNotifiedSerial : Z;
  PMasters : list str;
  PDNSSEC : bool;
  PNameservers : list str;
  PAccount : str;
  PRRsets : list RRset
}.

Record Supermaster := mkSupermaster { SIP : str; SNameserver : str; SAccount : str }.

#[global] Instance Record_eq_dec : EqDecision Record_.
Proof. solve_decision. Defined.
#[global] Instance Comment_eq_dec : EqDecision Comment.
Proof. solve_decision. Defined.
#[global] Instance RRset_eq_dec : EqDecision RRset.
Proof. solve_decision. Defined.
#[global] Instance Zone_eq_dec : EqDecision Zone.
Proof. solve_decision. Defined.
#[global] Instance Supermaster_eq_dec : EqDecision Supermaster.
Proof. solve_decision. Defined.

Definition notFound (what : str) : error :=
  APIError 404 ("Could not find " ++ what) (Some PdnsErrNotFound).
Definition unprocessable (msg : str) : error := APIError 422 msg None.
Definition conflict (msg : str) : error := APIError 409 msg (Some PdnsErrConflict).

(** ** Record sets *)

(** Copying a slice with [append(nil, s...)] makes an empty one nil. *)
Definition clone_comments (c : option (list Comment)) : option (list Comment) :=
  match c with Some [] => None | _ => c end.
Definition cloneRRset (r : RRset) : RRset :=
  mkRRset (RName r) (RType r) (RTTL r) (RChangeType r) (RRecords r) (clone_comments (RComments r)).
Definition cloneRRsets (rs : list RRset) : list RRset := map cloneRRset rs.
Definition cloneZone (z : Zone) : Zone :=
  mkZone (PID z) (PName z) (PKind z) (PSerial z) (PNotifiedSerial z) (PMasters z) (PDNSSEC z)
    (PNameservers z) (PAccount z) (cloneRRsets (PRRsets z)).

Definition inZone (name zone : str) : bool := bool_decide (name = zone) || HasSuffix name ("." ++ zone).

Definition same_key (n t : str) (s : RRset) : bool := bool_decide (RName s = n ∧ RType s = t).

Definition set_change (r : RRset) (c : str) : RRset :=
  mkRRset (RName r) (RType r) (RTTL r) c (RRecords r) (RComments r).
Definition set_comments (r : RRset) (c : option (list Comment)) : RRset :=
  mkRRset (RName r) (RType r) (RTTL r) (RChangeType r) (RRecords r) c.
Definition set_rrsets (z : Zone) (rs : list RRset) (serial : Z) : Zone :=
  mkZone (PID z) (PName z) (PKind z) serial (PNotifiedSerial z) (PMasters z) (PDNSSEC z)
    (PNameservers z) (PAccount z) rs.

(** [replaceRRset]: in place when the key exists, appended otherwise. *)
Fixpoint replace_first (sets : list RRset) (r : RRset) : option (list RRset) :=
  match sets with
  | [] => None
  | s :: sets => if same_key (RName r) (RType r) s then Some (r :: sets)
                 else sets' ← replace_first sets r; Some (s :: sets')
  end.
Definition replaceRRset (sets : list RRset) (r : RRset) : list RRset :=
  let r := cloneRRset r in default (sets ++ [r]) (replace_first sets r).

Definition commentsOf (sets : list RRset) (name typ : str) : option (list Comment) :=
  match find_first (same_key name typ) sets with
  | Some s => clone_comments (RComments s)
  | None => None
  end.

(** One change of a patch.  The sets that stay are written over the front of
    the slice they are read from, so when the old comments are looked up the
    slice holds the kept sets followed by its own last elements. *)
Definition patch_one (sets : list RRset) (r : RRset) : list RRset :=
  let kept := List.filter (λ s, negb (same_key (RName r) (RType r) s)) sets in
  let shared := kept ++ drop (length kept) sets in
  let put := bool_decide (RChangeType r = ChangeReplace) && negb (bool_decide (RRecords r = [])) in
  let r := if put && bool_decide (RComments r = None)
           then set_comments r (commentsOf shared (RName r) (RType r)) else r in
  if put then kept ++ [cloneRRset (set_change r [])] else kept.

Definition apply_patch (sets rrsets : list RRset) : list RRset :=
  fold_left patch_one rrsets (cloneRRsets sets).

(** The checks that refuse a whole patch. *)
Fixpoint check_patch (zname : str) (rrsets : list RRset) : option error :=
  match rrsets with
  | [] => None
  | r :: rrsets =>
    if negb (inZone (RName r) zname)
    then Some (unprocessable ("RRset " ++ RName r ++ " IN " ++ RType r ++ ": Name is out of zone"))
    else if negb (bool_decide (RChangeType r = ChangeReplace)) && negb (bool_decide (RChangeType r = ChangeDelete))
    then Some (unprocessable "changetype must be REPLACE or DELETE")
    else if bool_decide (RType r = "SOA") && bool_decide (RChangeType r = ChangeDelete)
    then Some (unprocessable "SOA cannot be deleted")
    else check_patch zname rrsets
  end.

(** ** The server's operations on its zones *)

Abbreviation zmap := (gmap str Zone).

Definition uint32 (n : Z) : Z := n mod 2 ^ 32.

Definition lookup_zone (id : str) (m : zmap) : res Zone :=
  match m !! id with
  | Some z => Ok z
  | None => Err (notFound ("domain '" ++ id ++ "'"))
  end.

Definition get_zone (id : str) (m : zmap) : res Zone := cloneZone <$> lookup_zone id m.

(** The SOA and NS sets generated for a new zone. *)
Definition base_rrsets (name : str) (ns : list str) : list RRset :=
  let primary := match ns with n :: _ => n | [] => ("a.misconfigured.dns.server.invalid." : str) end in
  mkRRset name "SOA" 3600 []
    [mkRecord (primary ++ " hostmaster." ++ name ++ " 1 10800 3600 604800 3600") false] None
  :: match ns with
     | [] => []
     | _ => [mkRRset name "NS" 3600 [] (map (λ n, mkRecord n false) ns) None]
     end.

Fixpoint add_rrsets (name : str) (ns : list str) (sets rrsets : list RRset) : res (list RRset) :=
  match rrsets with
  | [] => Ok sets
  | r :: rrsets =>
    if negb (bool_decide (ns = [])) && bool_decide (RName r = name) && bool_decide (RType r = "NS")
    then Err (unprocessable "Nameservers list MUST NOT be mixed with zone-level NS in rrsets")
    else if negb (inZone (RName r) name)
    then Err (unprocessable ("RRset " ++ RName r ++ " IN " ++ RType r ++ ": Name is out of zone"))
    else add_rrsets name ns (replaceRRset sets (set_change r [])) rrsets
  end.

Definition create_zone (i : Zone) (m : zmap) : res Zone * zmap :=
  if bool_decide (PName i = []) || negb (HasSuffix (PName i) ".")
  then (Err (unprocessable ("DNS Name '" ++ PName i ++ "' is not canonical")), m)
  else match m !! PName i with
  | Some _ => (Err (conflict ("Domain '" ++ PName i ++ "' already exists")), m)
  | None =>
    match add_rrsets (PName i) (PNameservers i) (base_rrsets (PName i) (PNameservers i)) (PRRsets i) with
    | Err e => (Err e, m)
    | Ok sets =>
      let kind := if bool_decide (PKind i = []) then "Native" : str else PKind i in
      let z := mkZone (PName i) (PName i) kind 1 0 (PMasters i) (PDNSSEC i) (PNameservers i) (PAccount i) sets in
      (Ok (cloneZone z), <[PName i := z]> m)
    end
  end.

Definition update_zone_metadata (id : str) (i : Zone) (m : zmap) : res unit * zmap :=
  match lookup_zone id m with
  | Err e => (Err e, m)
  | Ok z =>
    let z' := mkZone (PID z) (PName z) (if bool_decide (PKind i = []) then PKind z else PKind i)
                (PSerial z) (PNotifiedSerial z) (PMasters i) (PDNSSEC i) (PNameservers z)
                (if bool_decide (PAccount i = []) then PAccount z else PAccount i) (PRRsets z) in
    (Ok (), <[id := z']> m)
  end.

Definition delete_zone (id : str) (m : zmap) : res unit * zmap :=
  match lookup_zone id m with
  | Err e => (Err e, m)
  | Ok _ => (Ok (), delete id m)
  end.

Definition patch_rrsets (id : str) (rrsets : list RRset) (m : zmap) : res unit * zmap :=
  match lookup_zone id m with
  | Err e => (Err e, m)
  | Ok z =>
    match check_patch (PName z) rrsets with
    | Some e => (Err e, m)
    | None => (Ok (), <[id := set_rrsets z (apply_patch (PRRsets z) rrsets) (uint32 (PSerial z + 1))]> m)
    end
  end.

Definition notify_zone `{Unicode} (id : str) (m : zmap) : res unit * zmap :=
  match lookup_zone id m with
  | Err e => (Err e, m)
  | Ok z =>
    let k := ToLower (PKind z) in
    if negb (bool_decide (k = "master")) && negb (bool_decide (k = "producer"))
    then (Err (unprocessable "Domain is not a master or producer zone"), m)
    else (Ok (), <[id := mkZone (PID z) (PName z) (PKind z) (PSerial z) (PSerial z) (PMasters z) (PDNSSEC z)
                         (PNameservers z) (PAccount z) (PRRsets z)]> m)
  end.

(** ** BIND export *)

Definition export_lt (a b : RRset) : bool :=
  let soa s := bool_decide (RType s = "SOA") in
  if negb (Bool.eqb (soa a) (soa b)) then soa a
  else if negb (bool_decide (RName a = RName b)) then str_ltb (RName a) (RName b)
  else str_ltb (RType a) (RType b).

Definition tab : str := [chr 9].
Definition newline : str := [chr 10].

Definition export_set (s : RRset) : str :=
  concat (map (λ r, if RecDisabled r then []
    else RName s ++ tab ++ Itoa (RTTL s) ++ tab ++ "IN" ++ tab ++ RType s ++ tab ++ RecContent r ++ newline)
    (RRecords s)).
Definition export_zone (id : str) (m : zmap) : res str :=
  (λ z, concat (map export_set (sort_by export_lt (cloneRRsets (PRRsets z))))) <$> lookup_zone id m.

Definition list_zone_names (m : zmap) : list str := sort_by str_ltb (map (λ kz, PName kz.2) (map_to_list m)).

(** ** Supermasters *)

Definition same_sm (ip ns : str) (x : Supermaster) : bool := bool_decide (SIP x = ip ∧ SNameserver x = ns).

Definition create_supermaster (s : Supermaster) (l : list Supermaster) : res unit * list Supermaster :=
  if existsb (same_sm (SIP s) (SNameserver s)) l
  then (Err (conflict "Supermaster already exists"), l) else (Ok (), l ++ [s]).

Fixpoint remove_first {A} (p : A → bool) (l : list A) : option (list A) :=
  match l with
  | [] => None
  | x :: l => if p x then Some l else l' ← remove_first p l; Some (x :: l')
  end.

Definition delete_supermaster (ip ns : str) (l : list Supermaster) : res unit * list Supermaster :=
  match remove_first (same_sm ip ns) l with
  | Some l' => (Ok (), l')
  | None => (Err (notFound ("supermaster " ++ ip ++ "/" ++ ns)), l)
  end.

(** ** The in-memory server *)

(** What the server holds. *)
Record Server := mkServer { zones : zmap; supermasters : list Supermaster }.

Record Fake := mkFake {
  srv : Server;
  failNext : gmap str error;
  Down : bool;
  Calls : list str
}.

Definition NewFake : Fake := mkFake (mkServer ∅ []) ∅ false [].

Definition FailNext (op : str) (e : error) (f : Fake) : Fake :=
  mkFake (srv f) (<[op := e]> (failNext f)) (Down f) (Calls f).
Definition SetDown (down : bool) (f : Fake) : Fake := mkFake (srv f) (failNext f) down (Calls f).
Definition Seed (z : Zone) (f : Fake) : Fake :=
  let id := if bool_decide (PID z = []) then PName z else PID z in
  let z := mkZone id (PName z) (PKind z) (PSerial z) (PNotifiedSerial z) (PMasters z) (PDNSSEC z)
             (PNameservers z) (PAccount z) (PRRsets z) in
  mkFake (mkServer (<[id := cloneZone z]> (zones (srv f))) (supermasters (srv f))) (failNext f) (Down f) (Calls f).

(** [begin] logs the call and returns an injected failure. *)
Definition begin (op id : str) (f : Fake) : option error * Fake :=
  let calls := Calls f ++ [TrimSpace (op ++ " " ++ id)] in
  if Down f
  then (Some (Wrapf (New PdnsErrUnavailable) "fake is down"), mkFake (srv f) (failNext f) (Down f) calls)
  else match failNext f !! op with
  | Some e => (Some e, mkFake (srv f) (delete op (failNext f)) (Down f) calls)
  | None => (None, mkFake (srv f) (failNext f) (Down f) calls)
  end.

Definition gated {A} (op id : str) (core : Server → res A * Server) (f : Fake) : res A * Fake :=
  match begin op id f with
  | (Some e, f) => (Err e, f)
  | (None, f) => let '(r, v) := core (srv f) in (r, mkFake v (failNext f) (Down f) (Calls f))
  end.

(** An operation of the zones, or of the supermasters, on the whole server. *)
Definition on_zones {A} (core : zmap → res A * zmap) (v : Server) : res A * Server :=
  let '(r, m) := core (zones v) in (r, mkServer m (supermasters v)).
Definition on_sms {A} (core : list Supermaster → res A * list Supermaster) (v : Server) : res A * Server :=
  let '(r, l) := core (supermasters v) in (r, mkServer (zones v) l).
Definition reading {A} (get : Server → res A) (v : Server) : res A * Server := (get v, v).

Definition Ping : Fake → res unit * Fake := gated "Ping" [] (reading (λ _, Ok ())).
Definition ListZoneNames : Fake → res (list str) * Fake :=
  gated "ListZoneNames" [] (reading (λ v, Ok (list_zone_names (zones v)))).
Definition GetZone (id : str) : Fake → res Zone * Fake := gated "GetZone" id (reading (λ v, get_zone id (zones v))).
Definition CreateZone (i : Zone) : Fake → res Zone * Fake := gated "CreateZone" (PName i) (on_zones (create_zone i)).
Definition UpdateZoneMetadata (id : str) (i : Zone) : Fake → res unit * Fake :=
  gated "UpdateZoneMetadata" id (on_zones (update_zone_metadata id i)).
Definition DeleteZone (id : str) : Fake → res unit * Fake := gated "DeleteZone" id (on_zones (delete_zone id)).
Definition PatchRRsets (id : str) (rrsets : list RRset) : Fake → res unit * Fake :=
  gated "PatchRRsets" id (on_zones (patch_rrsets id rrsets)).
Definition NotifyZone `{Unicode} (id : str) : Fake → res unit * Fake :=
  gated "NotifyZone" id (on_zones (notify_zone id)).
Definition ExportZone (id : str) : Fake → res str * Fake :=
  gated "ExportZone" id (reading (λ v, export_zone id (zones v))).
Definition ListSupermasters : Fake → res (list Supermaster) * Fake :=
  gated "ListSupermasters" [] (reading (λ v, Ok (supermasters v))).
Definition CreateSupermaster (s : Supermaster) : Fake → res unit * Fake :=
  gated "CreateSupermaster" (SIP s ++ "/" ++ SNameserver s) (on_sms (create_supermaster s)).
Definition DeleteSupermaster (ip ns : str) : Fake → res unit * Fake :=
  gated "DeleteSupermaster" (ip ++ "/" ++ ns) (on_sms (delete_supermaster ip ns)).

(** ** The [Client] interface and what it promises *)

(** A failure of the call itself: an unreachable server, an oversized reply or
    an error the module has no sentinel for. *)
Definition fault : error → Prop := only_kinds [PdnsErrUnavailable; PdnsErrTooLarge].

Lemma call_fault_kinds e : fault e → Is e PdnsErrNotFound = false ∧ Is e PdnsErrConflict = false.
Proof. intros H. split; eapply only_kinds_not; try exact H; by rewrite !elem_of_cons, elem_of_nil; intros [|[|]]. Qed.

Class PDNSClient `{U : Unicode} (P : Type) := {
  pdns_view : P → Server;
  pdns_ok : P → Prop;
  pdns_Ping : P → res unit * P;
  pdns_ListZoneNames : P → res (list str) * P;
  pdns_GetZone : str → P → res Zone * P;
  pdns_CreateZone : Zone → P → res Zone * P;
  pdns_UpdateZoneMetadata : str → Zone → P → res unit * P;
  pdns_DeleteZone : str → P → res unit * P;
  pdns_PatchRRsets : str → list RRset → P → res unit * P;
  pdns_NotifyZone : str → P → res unit * P;
  pdns_ExportZone : str → P → res str * P;
  pdns_ListSupermasters : P → res (list Supermaster) * P;
  pdns_CreateSupermaster : Supermaster → P → res unit * P;
  pdns_DeleteSupermaster : str → str → P → res unit * P;

  pdns_Ping_ok : faithful pdns_ok pdns_view fault pdns_Ping (reading (λ _, Ok ()));
  pdns_ListZoneNames_ok :
    faithful pdns_ok pdns_view fault pdns_ListZoneNames (reading (λ v, Ok (list_zone_names (zones v))));
  pdns_GetZone_ok id :
    faithful pdns_ok pdns_view fault (pdns_GetZone id) (reading (λ v, get_zone id (zones v)));
  pdns_CreateZone_ok i :
    faithful pdns_ok pdns_view fault (pdns_CreateZone i) (on_zones (create_zone i));
  pdns_UpdateZoneMetadata_ok id i :
    faithful pdns_ok pdns_view fault (pdns_UpdateZoneMetadata id i) (on_zones (update_zone_metadata id i));
  pdns_DeleteZone_ok id :
    faithful pdns_ok pdns_view fault (pdns_DeleteZone id) (on_zones (delete_zone id));
  pdns_PatchRRsets_ok id rs :
    faithful pdns_ok pdns_view fault (pdns_PatchRRsets id rs) (on_zones (patch_rrsets id rs));
  pdns_NotifyZone_ok id :
    faithful pdns_ok pdns_view fault (pdns_NotifyZone id) (on_zones (notify_zone id));
  pdns_ExportZone_ok id :
    faithful pdns_ok pdns_view fault (pdns_ExportZone id) (reading (λ v, export_zone id (zones v)));
  pdns_ListSupermasters_ok :
    faithful pdns_ok pdns_view fault pdns_ListSupermasters (reading (λ v, Ok (supermasters v)));
  pdns_CreateSupermaster_ok s :
    faithful pdns_ok pdns_view fault (pdns_CreateSupermaster s) (on_sms (create_supermaster s));
  pdns_DeleteSupermaster_ok ip ns :
    faithful pdns_ok pdns_view fault (pdns_DeleteSupermaster ip ns) (on_sms (delete_supermaster ip ns))
}.

(** Only real failures are injected into the in-memory server. *)
Definition fake_ok (f : Fake) : Prop := map_Forall (λ _ e, fault e) (failNext f).

Lemma fake_faithful {A} op id (core : Server → res A * Server) :
  faithful fake_ok srv fault (gated op id core) core.
Proof.
  intros f r f' Hok. unfold gated, begin. destruct (Down f); [|destruct (failNext f !! op) as [e|] eqn:Ef].
  - intros [= <- <-]. split; [done|]. left. eexists. split; [done|]. split; [|done].
    intros s Hs. simpl in Hs. apply bool_decide_eq_true in Hs as ->. by left.
  - intros [= <- <-]. split; [by apply map_Forall_delete|].
    left. exists e. split_and!; [done|by apply (Hok op)|done].
  - cbn [srv failNext]. destruct (core (srv f)) as [r0 v] eqn:E. intros [= <- <-]. auto.
Qed.

#[global] Instance fake_client `{U : Unicode} : PDNSClient Fake := {
  pdns_view := srv; pdns_ok := fake_ok;
  pdns_Ping := Ping; pdns_ListZoneNames := ListZoneNames;
  pdns_GetZone := GetZone; pdns_CreateZone := CreateZone;
  pdns_UpdateZoneMetadata := UpdateZoneMetadata; pdns_DeleteZone := DeleteZone;
  pdns_PatchRRsets := PatchRRsets; pdns_NotifyZone := NotifyZone; pdns_ExportZone := ExportZone;
  pdns_ListSupermasters := ListSupermasters; pdns_CreateSupermaster := CreateSupermaster;
  pdns_DeleteSupermaster := DeleteSupermaster;
  pdns_Ping_ok := fake_faithful _ _ _;
  pdns_ListZoneNames_ok := fake_faithful _ _ _;
  pdns_GetZone_ok _ := fake_faithful _ _ _;
  pdns_CreateZone_ok _ := fake_faithful _ _ _;
  pdns_UpdateZoneMetadata_ok _ _ := fake_faithful _ _ _;
  pdns_DeleteZone_ok _ := fake_faithful _ _ _;
  pdns_PatchRRsets_ok _ _ := fake_faithful _ _ _;
  pdns_NotifyZone_ok _ := fake_faithful _ _ _;
  pdns_ExportZone_ok _ := fake_faithful _ _ _;
  pdns_ListSupermasters_ok := fake_faithful _ _ _;
  pdns_CreateSupermaster_ok _ := fake_faithful _ _ _;
  pdns_DeleteSupermaster_ok _ _ := fake_faithful _ _ _
}.

(** ** Properties *)

Definition rkey (s : RRset) : str * str := (RName s, RType s).

Lemma same_key_spec n t s : same_key n t s = true ↔ rkey s = (n, t).
Proof. unfold same_key, rkey. rewrite bool_decide_eq_true. naive_solver. Qed.

Lemma same_key_false n t s : same_key n t s = false ↔ rkey s ≠ (n, t).
Proof. rewrite <- same_key_spec. by destruct (same_key n t s). Qed.

(** What a zone's sets mean: per (name, type), the TTL and the records. *)
Definition rrdata : Type := Z * list Record_.
Definition meaning (sets : list RRset) : gmap (str * str) rrdata :=
  list_to_map (map (λ s, (rkey s, (RTTL s, RRecords s))) sets).

(** What a patch means: REPLACE with records sets the entry to exactly those,
    DELETE and REPLACE with no record remove it. *)
Definition meaning_one (m : gmap (str * str) rrdata) (r : RRset) : gmap (str * str) rrdata :=
  if bool_decide (RChangeType r = ChangeReplace) && negb (bool_decide (RRecords r = []))
  then <[rkey r := (RTTL r, RRecords r)]> m else delete (rkey r) m.

Lemma rkey_clone r : rkey (cloneRRset r) = rkey r.
Proof. done. Qed.

Lemma meaning_clone sets : meaning (cloneRRsets sets) = meaning sets.
Proof. unfold meaning, cloneRRsets. by rewrite map_map. Qed.

Lemma meaning_lookup sets k :
  meaning sets !! k = (λ s, (RTTL s, RRecords s)) <$> find_first (λ s, bool_decide (rkey s = k)) sets.
Proof.
  unfold meaning. induction sets as [|s sets IH]; simpl; [by rewrite lookup_empty|].
  case_bool_decide as E; [subst k; by rewrite lookup_insert_eq|by rewrite lookup_insert_ne].
Qed.

Definition others (r : RRset) (sets : list RRset) : list RRset :=
  List.filter (λ s, negb (same_key (RName r) (RType r) s)) sets.

Lemma others_keys r sets : rkey r ∉ map rkey (others r sets).
Proof.
  unfold others. induction sets as [|s sets IH]; simpl; [by apply not_elem_of_nil|].
  destruct (same_key (RName r) (RType r) s) eqn:E; simpl; [done|].
  apply same_key_false in E. apply not_elem_of_cons. split; [by symmetry|done].
Qed.

Lemma meaning_others r sets : meaning (others r sets) = delete (rkey r) (meaning sets).
Proof.
  unfold others, meaning. induction sets as [|s sets IH]; simpl; [by rewrite delete_empty|].
  destruct (same_key (RName r) (RType r) s) eqn:E; simpl.
  - apply same_key_spec in E. rewrite E. change (RName r, RType r) with (rkey r).
    by rewrite delete_insert_eq.
  - apply same_key_false in E. by rewrite IH, delete_insert_ne.
Qed.

(** A patch step puts a set with the key, TTL and records of the change after
    the others, or leaves only the others. *)
Lemma patch_one_shape sets r :
  (∃ s, patch_one sets r = others r sets ++ [s] ∧ rkey s = rkey r ∧ RTTL s = RTTL r ∧
        RRecords s = RRecords r ∧ RChangeType s = [] ∧ RRecords r ≠ [] ∧ RChangeType r = ChangeReplace)
  ∨ (patch_one sets r = others r sets ∧ (RRecords r = [] ∨ RChangeType r ≠ ChangeReplace)).
Proof.
  unfold patch_one. case_bool_decide as E1; case_bool_decide as E2; cbn [andb negb]; try (right; split; [done|tauto]).
  left. eexists. split; [reflexivity|]. repeat case_match; done.
Qed.

Lemma elem_of_others r sets x : x ∈ others r sets → x ∈ sets ∧ rkey x ≠ rkey r.
Proof.
  unfold others. rewrite !list_elem_of_In, filter_In. intros [? Hk%negb_true_iff]. split; [done|].
  by apply same_key_false in Hk.
Qed.

(** With comments given, the change itself is stored. *)
Lemma patch_one_stored sets r :
  RChangeType r = ChangeReplace → RRecords r ≠ [] → RComments r ≠ None →
  patch_one sets r = others r sets ++ [cloneRRset (set_change r [])].
Proof.
  intros Hc Hr Hcom. unfold patch_one. rewrite bool_decide_eq_true_2, (bool_decide_eq_false_2 (RRecords r = [])) by done.
  simpl. by rewrite (bool_decide_eq_false_2 (RComments r = None)).
Qed.

(** What a patch step may leave in the zone. *)
Lemma patch_one_elem sets r x : x ∈ patch_one sets r → rkey x = rkey r ∨ (x ∈ sets ∧ rkey x ≠ rkey r).
Proof.
  destruct (patch_one_shape sets r) as [(s & -> & Hk & _)|[-> _]]; [|auto using elem_of_others].
  intros [Hx| ->%list_elem_of_singleton]%elem_of_app; auto using elem_of_others.
Qed.

Lemma delete_elem sets r x :
  RChangeType r ≠ ChangeReplace → x ∈ patch_one sets r → x ∈ sets ∧ rkey x ≠ rkey r.
Proof.
  intros Hc. destruct (patch_one_shape sets r) as [(s & _ & _ & _ & _ & _ & _ & ?)|[-> _]]; [done|].
  apply elem_of_others.
Qed.

Lemma meaning_app_new sets s :
  rkey s ∉ map rkey sets → meaning (sets ++ [s]) = <[rkey s := (RTTL s, RRecords s)]> (meaning sets).
Proof.
  intros Hs. unfold meaning. rewrite map_app. simpl.
  rewrite list_to_map_app. simpl. rewrite insert_empty. apply map_eq. intros k.
  destruct (decide (k = rkey s)) as [->|Hk].
  - rewrite lookup_insert_eq, lookup_union_r; [by rewrite lookup_singleton_eq|].
    apply not_elem_of_list_to_map. by rewrite map_map.
  - rewrite lookup_insert_ne by done. apply lookup_union_l. by rewrite lookup_singleton_ne.
Qed.

Lemma patch_one_meaning sets r : meaning (patch_one sets r) = meaning_one (meaning sets) r.
Proof.
  unfold meaning_one.
  destruct (patch_one_shape sets r) as [(s & -> & Hk & Ht & Hr & _ & Hne & Hc)|[-> Hn]].
  - rewrite bool_decide_eq_true_2, bool_decide_eq_false_2 by done. simpl.
    rewrite meaning_app_new by (rewrite Hk; apply others_keys).
    by rewrite Hk, Ht, Hr, meaning_others, insert_delete_eq.
  - rewrite meaning_others. repeat case_bool_decide; try done. naive_solver.
Qed.

Lemma apply_patch_meaning sets rs : meaning (apply_patch sets rs) = fold_left meaning_one rs (meaning sets).
Proof.
  unfold apply_patch. rewrite <- (meaning_clone sets). generalize (cloneRRsets sets). clear sets.
  induction rs as [|r rs IH]; intros sets; simpl; [done|]. by rewrite IH, patch_one_meaning.
Qed.

(** ** The server's invariant *)

(** The sets of a zone have distinct keys, lie in the zone and carry no change
    type. *)
Record sets_wf (zname : str) (sets : list RRset) : Prop := {
  wf_keys : NoDup (map rkey sets);
  wf_inzone : Forall (λ s, inZone (RName s) zname = true) sets;
  wf_change : Forall (λ s, RChangeType s = []) sets
}.
Definition zone_wf (id : str) (z : Zone) : Prop := PID z = id ∧ PName z = id ∧ sets_wf id (PRRsets z).
Definition server_wf (v : Server) : Prop := map_Forall zone_wf (zones v).

Lemma others_wf zn r sets : sets_wf zn sets → sets_wf zn (others r sets).
Proof.
  unfold others. intros [Hk Hz Hc]. constructor.
  - induction sets as [|s sets IH]; simpl; [constructor|].
    apply NoDup_cons in Hk as [Hn Hk]. apply Forall_cons in Hz as [_ Hz]. apply Forall_cons in Hc as [_ Hc].
    case_match; simpl; [|auto]. apply NoDup_cons. split; [|auto].
    intros (x & Hx & Hin)%list_elem_of_fmap. apply Hn, list_elem_of_fmap. exists x. split; [done|].
    apply list_elem_of_In, filter_In in Hin as [? _]. by apply list_elem_of_In.
  - apply List.Forall_forall. intros x [Hx _]%filter_In. by eapply List.Forall_forall in Hz.
  - apply List.Forall_forall. intros x [Hx _]%filter_In. by eapply List.Forall_forall in Hc.
Qed.

Lemma app_new_wf zn sets s :
  sets_wf zn sets → rkey s ∉ map rkey sets → inZone (RName s) zn = true → RChangeType s = [] →
  sets_wf zn (sets ++ [s]).
Proof.
  intros [Hk Hz Hc] Hn Hs Hcs. constructor.
  - rewrite map_app. apply NoDup_app. split_and!; [done| |apply NoDup_singleton].
    intros k Hin ->%list_elem_of_singleton. done.
  - apply Forall_app; auto.
  - apply Forall_app; auto.
Qed.

Lemma patch_one_wf zn sets r : inZone (RName r) zn = true → sets_wf zn sets → sets_wf zn (patch_one sets r).
Proof.
  intros Hr Hw. destruct (patch_one_shape sets r) as [(s & -> & Hk & _ & _ & Hc & _)|[-> _]]; [|by apply others_wf].
  apply app_new_wf; [by apply others_wf|rewrite Hk; apply others_keys| |done].
  by injection Hk as -> _.
Qed.

Lemma clone_wf zn sets : sets_wf zn sets → sets_wf zn (cloneRRsets sets).
Proof.
  unfold cloneRRsets. intros [Hk Hz Hc]. constructor; [by rewrite map_map| |]; by apply Forall_map.
Qed.

Lemma check_patch_None zn rs :
  check_patch zn rs = None →
  Forall (λ r, inZone (RName r) zn = true ∧ (RChangeType r = ChangeReplace ∨ RChangeType r = ChangeDelete)) rs.
Proof.
  induction rs as [|r rs IH]; simpl; [constructor|].
  destruct (inZone (RName r) zn) eqn:E; cbn [negb]; [|done].
  case_bool_decide as E1; [|case_bool_decide as E2]; cbn [negb andb]; [| |done];
    case_match; intros; try done; constructor; auto.
Qed.

Lemma check_patch_err zn rs e : check_patch zn rs = Some e → only_kinds [] e.
Proof. induction rs as [|r rs IH]; simpl; [done|]. repeat case_match; try apply IH; intros [= <-]; by intros ? ?. Qed.

Lemma patch_rrsets_err id rs m : fails_with [PdnsErrNotFound] (patch_rrsets id rs m).1.
Proof.
  unfold patch_rrsets, lookup_zone. destruct (m !! id) as [z|]; simpl.
  - destruct (check_patch _ rs) as [e|] eqn:E; simpl; [|apply fails_Ok]. apply fails_Err.
    intros s Hs. by apply (check_patch_err _ _ _ E), elem_of_nil in Hs.
  - apply fails_Err. intros s Hs. simpl in Hs. apply bool_decide_eq_true in Hs as ->. by left.
Qed.

Lemma apply_patch_wf zn sets rs : check_patch zn rs = None → sets_wf zn sets → sets_wf zn (apply_patch sets rs).
Proof.
  intros Hc%check_patch_None Hw%clone_wf. unfold apply_patch. revert Hw. generalize (cloneRRsets sets).
  clear sets. induction rs as [|r rs IH]; intros sets Hw; simpl; [done|].
  apply Forall_cons in Hc as [[? _] ?]. apply IH; [done|]. by apply patch_one_wf.
Qed.

Lemma replace_first_keys sets r sets' :
  replace_first sets r = Some sets' →
  map rkey sets' = map rkey sets ∧ ∀ P, P r → Forall P sets → Forall P sets'.
Proof.
  revert sets'. induction sets as [|s sets IH]; intros sets'; simpl; [done|].
  destruct (same_key (RName r) (RType r) s) eqn:E.
  - intros [= <-]. apply same_key_spec in E. split; [simpl; by rewrite E|].
    intros P Hr [_ ?]%Forall_cons. by constructor.
  - destruct (replace_first sets r) as [l|] eqn:El; simpl; [|done]. intros [= <-].
    destruct (IH l eq_refl) as [Hk HP]. split; [simpl; by rewrite Hk|].
    intros P Hr [? ?]%Forall_cons. constructor; auto.
Qed.

Lemma replace_first_None sets r : replace_first sets r = None → rkey r ∉ map rkey sets.
Proof.
  induction sets as [|s sets IH]; simpl; [intros _; by apply not_elem_of_nil|].
  destruct (same_key (RName r) (RType r) s) eqn:E; [done|]. apply same_key_false in E.
  destruct (replace_first sets r); simpl; [done|]. intros _. apply not_elem_of_cons. split; [by symmetry|auto].
Qed.

Lemma replaceRRset_wf zn sets r :
  inZone (RName r) zn = true → RChangeType r = [] → sets_wf zn sets → sets_wf zn (replaceRRset sets r).
Proof.
  intros Hz Hc Hw. unfold replaceRRset. destruct (replace_first sets (cloneRRset r)) as [l|] eqn:E; simpl.
  - destruct (replace_first_keys _ _ _ E) as [Hk HP]. destruct Hw as [? ? ?].
    constructor; [by rewrite Hk|by apply HP|by apply HP].
  - apply app_new_wf; [done|by apply replace_first_None|done|done].
Qed.

Lemma add_rrsets_wf zn ns sets rs out :
  add_rrsets zn ns sets rs = Ok out → sets_wf zn sets → sets_wf zn out.
Proof.
  revert sets. induction rs as [|r rs IH]; intros sets; cbn [add_rrsets]; [by intros [= ->]|].
  case_match; [done|]. destruct (inZone (RName r) zn) eqn:E; cbn [negb]; [|done].
  intros HIH Hw. eapply IH; [done|]. by apply replaceRRset_wf.
Qed.

Lemma inZone_refl z : inZone z z = true.
Proof. unfold inZone. by rewrite bool_decide_eq_true_2. Qed.

Lemma base_rrsets_wf zn ns : sets_wf zn (base_rrsets zn ns).
Proof.
  pose proof (inZone_refl zn). unfold base_rrsets. destruct ns; constructor; simpl;
    repeat (apply NoDup_cons; split; [|]); try apply NoDup_nil_2; repeat constructor; try done;
    try (intros []%elem_of_nil); intros [= ?]%list_elem_of_singleton.
Qed.

Lemma lookup_zone_Ok id m z : lookup_zone id m = Ok z ↔ m !! id = Some z.
Proof. unfold lookup_zone. destruct (m !! id); split; congruence. Qed.

(** The steps of a server: its state-changing operations. *)
Inductive srv_step `{U : Unicode} : Server → Server → Prop :=
  | step_create i v : srv_step v (on_zones (create_zone i) v).2
  | step_update id i v : srv_step v (on_zones (update_zone_metadata id i) v).2
  | step_delete id v : srv_step v (on_zones (delete_zone id) v).2
  | step_patch id rs v : srv_step v (on_zones (patch_rrsets id rs) v).2
  | step_notify id v : srv_step v (on_zones (notify_zone id) v).2
  | step_create_sm s v : srv_step v (on_sms (create_supermaster s) v).2
  | step_delete_sm ip ns v : srv_step v (on_sms (delete_supermaster ip ns) v).2.

Section wf.
Context {U : Unicode}.

Lemma server_create_wf i m : map_Forall zone_wf m → map_Forall zone_wf (create_zone i m).2.
Proof.
  intros Hm. unfold create_zone. do 2 (case_match; [done|]). case_match; [|done].
  apply map_Forall_insert_2; [|done]. split_and!; [done..|].
  by eapply add_rrsets_wf, base_rrsets_wf.
Qed.

(** An operation that replaces the zone it finds by one with the same identity
    and well-formed sets. *)
Lemma replace_wf (id : str) (z z' : Zone) (m : zmap) :
  map_Forall zone_wf m → m !! id = Some z → PID z' = PID z → PName z' = PName z →
  (sets_wf id (PRRsets z) → sets_wf id (PRRsets z')) → map_Forall zone_wf (<[id := z']> m).
Proof.
  intros Hm Hz Hi Hn Hs. apply map_Forall_insert_2; [|done].
  destruct (Hm id z Hz) as (? & ? & ?). split; [congruence|split; [congruence|auto]].
Qed.

Lemma srv_step_wf v v' : srv_step v v' → server_wf v → server_wf v'.
Proof.
  unfold server_wf. destruct 1; intros Hm; unfold on_zones, on_sms.
  - pose proof (server_create_wf i (zones v) Hm). by destruct (create_zone i (zones v)).
  - unfold update_zone_metadata. destruct (lookup_zone id (zones v)) as [z|] eqn:E; [|done].
    apply lookup_zone_Ok in E. by eapply replace_wf.
  - unfold delete_zone. destruct (lookup_zone id (zones v)); [|done]. by apply map_Forall_delete.
  - unfold patch_rrsets. destruct (lookup_zone id (zones v)) as [z|] eqn:E; [|done].
    destruct (check_patch (PName z) rs) eqn:Ec; [done|].
    apply lookup_zone_Ok in E. eapply replace_wf; [done..|].
    intros Hw. apply apply_patch_wf; [|done]. by destruct (Hm id z E) as (_ & <- & _).
  - unfold notify_zone. destruct (lookup_zone id (zones v)) as [z|] eqn:E; [|done].
    apply lookup_zone_Ok in E. destruct (negb _ && negb _); [done|]. by eapply replace_wf.
  - by destruct (create_supermaster s (supermasters v)).
  - by destruct (delete_supermaster ip ns (supermasters v)).
Qed.

(** The in-memory PowerDNS server keeps its zones well formed: from the
    empty server, after any sequence of operations, every zone is stored under
    its own name, its record sets have pairwise distinct (name, type) keys, all
    lie inside the zone, and none carries a change type. *)
Theorem server_invariant v : rtc srv_step (srv NewFake) v → server_wf v.
Proof.
  intros H. cut (server_wf (srv NewFake)); [|apply map_Forall_empty].
  induction H; eauto using srv_step_wf.
Qed.
End wf.

Lemma server_invariant_witness :
  let z := mkZone [] "a.com." [] 0 0 [] false ["ns.a.com." : str] [] [] in
  let v := (on_zones (create_zone z) (srv NewFake)).2 in
  zones v !! ("a.com." : str) ≠ None ∧ server_wf v.
Proof.
  split; [vm_compute; discriminate|].
  apply (@server_invariant unicode_min). apply rtc_once. constructor.
Defined.

(** A record-set patch does what its meaning says, atomically: an unknown
    zone or one bad change refuses the whole patch and nothing changes;
    otherwise exactly the patched zone changes, its serial advances by one
    modulo 2^32, and its (name, type) entries are the old ones with the changes
    applied in order, REPLACE setting the TTL and the records exactly and
    DELETE, or REPLACE with no record, removing the entry. *)
Theorem patch_rrsets_spec id rs m :
  match patch_rrsets id rs m with
  | (Err e, m') =>
      m' = m ∧ ((m !! id = None ∧ Is e PdnsErrNotFound = true) ∨
                ∃ z, m !! id = Some z ∧ check_patch (PName z) rs = Some e ∧ asAPIError e = Some 422)
  | (Ok _, m') =>
      ∃ z z', m !! id = Some z ∧ m' = <[id := z']> m ∧
        Forall (λ r, inZone (RName r) (PName z) = true) rs ∧
        meaning (PRRsets z') = fold_left meaning_one rs (meaning (PRRsets z)) ∧
        PSerial z' = (PSerial z + 1) mod 2 ^ 32 ∧
        (PID z', PName z', PKind z', PMasters z', PAccount z') = (PID z, PName z, PKind z, PMasters z, PAccount z)
  end.
Proof.
  unfold patch_rrsets, lookup_zone. destruct (m !! id) as [z|] eqn:E; [|split; [done|]; by left].
  destruct (check_patch (PName z) rs) as [e|] eqn:Ec.
  - split; [done|]. right. exists z. split_and!; [done..|].
    clear E. induction rs as [|r rs IH]; cbn [check_patch] in Ec; [done|]. repeat case_match; simplify_eq; auto.
  - eexists z, _. split_and!; [done|done| |apply apply_patch_meaning|done|done].
    apply check_patch_None in Ec. eapply Forall_impl; [done|]. by intros ? [? _].
Qed.

(** Replacing a record set with nil comments is documented to keep its
    comments, and does so only for the last set of the zone: the filter that
    drops the old set writes over the slice the comments are then looked up in,
    so the comments of an earlier set are lost. *)
Example patch_loses_comments :
  let com := Some [mkComment "why" "ops" 1] in
  let a := mkRRset "a." "A" 60 [] [mkRecord "192.0.2.1" false] com in
  let b := mkRRset "b." "A" 60 [] [mkRecord "192.0.2.2" false] None in
  let change := mkRRset "a." "A" 60 ChangeReplace [mkRecord "192.0.2.9" false] None in
  commentsOf (apply_patch [b; a] [change]) "a." "A" = com ∧
  commentsOf (apply_patch [a; b] [change]) "a." "A" = None.
Proof. by vm_compute. Qed.
End Pdns.
