(* ===== verification/RecordSets.v ===== *)
(** * Record sets ([internal/validate/recordset.go])

    [RecordSet] turns a submitted record set into the PowerDNS change that
    writes it.  It is where the DNS rules that involve more than one value are
    enforced: limits, distinct values, and a CNAME alone at its name. *)
From Stdlib Require Import Ascii.
From S2P Require Import Prelude GoStrings GoError Store Names Content Pdns.
Local Open Scope Z_scope.

Module RecordSets.
Import Validate Content.

Definition MaxComment : Z := 512.
Definition CNAME : str := "CNAME".

Record RecordValue := mkRecordValue { VContent : str; VDisabled : bool }.
Record RecordSetInput := mkRecordSetInput {
  IName : str; IType : str; ITTL : Z; IValues : list RecordValue; IComment : str
}.
Record Limits := mkLimits { MinTTL : Z; MaxTTL : Z; MaxValues : Z }.
Definition DefaultLimits : Limits := mkLimits 60 604800 100.

Section RecordSet.
Context {U : Unicode} {DNS : MiekgDNS} {RRP : RRParser}.

(** The CNAME rules against the sets the zone has. *)
Fixpoint conflicts (name t : str) (existing : list Pdns.RRset) : res unit :=
  match existing with
  | [] => Ok ()
  | e :: es =>
    if negb (EqualFold (Pdns.RName e) name) || EqualFold (Pdns.RType e) t then conflicts name t es
    else if bool_decide (t = CNAME)
    then recErr "type" ("other data exists at " ++ name ++ "; a CNAME must be alone at its name")
    else if EqualFold (Pdns.RType e) CNAME
    then recErr "type" ("a CNAME exists at " ++ name ++ "; no other data is allowed there")
    else conflicts name t es
  end.

(** The loop over the values; [i] is the index named in the errors. *)
Fixpoint values (t z : str) (i : Z) (vs : list RecordValue) (seen : list str) : res (list Pdns.Record_) :=
  match vs with
  | [] => Ok []
  | v :: vs =>
    let field := "values[" ++ Itoa i ++ "].content" in
    match content t z (VContent v) with
    | Err e => Err (RecordError field (match asRecordError e with Some (_, m) => m | None => [] end))
    | Ok c =>
      if bool_decide (c ∈ seen) then recErr field "duplicate value"
      else rest ← values t z (i + 1) vs (c :: seen); Ok (Pdns.mkRecord c (VDisabled v) :: rest)
    end
  end.

Definition RecordSet (l : Limits) (zone : str) (i : RecordSetInput) (existing : list Pdns.RRset) : res Pdns.RRset :=
  z ← canonicalZone zone;
  t ← editableType (IType i);
  name ← RecordName z (IName i);
  if (ITTL i <? MinTTL l) || (MaxTTL l <? ITTL i)
  then recErr "ttl" ("ttl must be within [" ++ Itoa (MinTTL l) ++ ", " ++ Itoa (MaxTTL l) ++ "] seconds")
  else if bool_decide (IValues i = []) || (MaxValues l <? Z.of_nat (length (IValues i)))
  then recErr "values" ("between 1 and " ++ Itoa (MaxValues l) ++ " values are required")
  else if (MaxComment <? slen (IComment i)) || hasControl (IComment i)
  then recErr "comment" ("the comment must be at most " ++ Itoa MaxComment ++ " characters without control characters")
  else if bool_decide (t = CNAME) && bool_decide (name = z)
  then recErr "type" "a CNAME is not allowed at the zone apex"
  else if bool_decide (t = CNAME) && (1 <? Z.of_nat (length (IValues i)))
  then recErr "values" "a CNAME set holds exactly one value"
  else
    _ ← conflicts name t existing;
    records ← values t z 0 (IValues i) [];
    let c := TrimSpace (IComment i) in
    Ok (Pdns.mkRRset name t (Pdns.uint32 (ITTL i)) Pdns.ChangeReplace records
          (Some (if bool_decide (c = []) then [] else [Pdns.mkComment c [] 0]))).
End RecordSet.

(** ** Properties *)

Section Facts.
Context {U : Unicode} {DNS : MiekgDNS} {LAWS : MiekgDNSLaws} {RRP : RRParser}.

Lemma editableType_Ok s t : editableType s = Ok t → t = ToUpper (TrimSpace s) ∧ Editable t = true ∧ t ≠ "SOA".
Proof. unfold editableType. case_bool_decide; [done|]. destruct (Editable _) eqn:E; [|done]. by intros [= <-]. Qed.

Lemma conflicts_Ok name t es :
  conflicts name t es = Ok () →
  Forall (λ e, EqualFold (Pdns.RName e) name = true → EqualFold (Pdns.RType e) t = true ∨
               (t ≠ CNAME ∧ EqualFold (Pdns.RType e) CNAME = false)) es.
Proof.
  induction es as [|e es IH]; cbn [conflicts]; [constructor|]. intros H. constructor.
  - intros E1. rewrite E1 in H. destruct (EqualFold (Pdns.RType e) t) eqn:E2; [by left|]. right.
    cbn [negb orb] in H. case_bool_decide; [done|]. by destruct (EqualFold (Pdns.RType e) CNAME).
  - apply IH. destruct (negb _ || _); [done|]. case_bool_decide; [done|]. by destruct (EqualFold (Pdns.RType e) CNAME).
Qed.

Lemma values_Ok t z i vs seen out :
  values t z i vs seen = Ok out →
  Forall2 (λ v r, content t z (VContent v) = Ok (Pdns.RecContent r) ∧ Pdns.RecDisabled r = VDisabled v) vs out
  ∧ NoDup (map Pdns.RecContent out) ∧ ∀ c, c ∈ map Pdns.RecContent out → c ∉ seen.
Proof.
  revert i seen out. induction vs as [|v vs IH]; intros i seen out; cbn [values].
  - intros [= <-]. split; [constructor|]. split; [constructor|]. by intros ? ?%elem_of_nil.
  - destruct (content t z (VContent v)) as [c|e] eqn:Ec; [|done]. case_bool_decide as Hs; [done|].
    intros (rest & (H2 & Hnd & Hn)%IH & [= <-])%bind_Ok. simpl.
    split; [by constructor|]. split; [constructor; [|done]|].
    + intros Hin. apply Hn in Hin. set_solver.
    + intros c' [->|Hin]%elem_of_cons; [done|]. apply Hn in Hin. set_solver.
Qed.

(** A refusal inside the loop names the value's index. *)
Lemma RecordSet_inv l zone i existing r :
  RecordSet l zone i existing = Ok r →
  ∃ z, canonicalZone zone = Ok z ∧ editableType (IType i) = Ok (Pdns.RType r) ∧ RecordName z (IName i) = Ok (Pdns.RName r) ∧
    MinTTL l ≤ ITTL i ≤ MaxTTL l ∧ Pdns.RTTL r = Pdns.uint32 (ITTL i) ∧
    (1 ≤ length (IValues i))%nat ∧ Z.of_nat (length (IValues i)) ≤ MaxValues l ∧
    values (Pdns.RType r) z 0 (IValues i) [] = Ok (Pdns.RRecords r) ∧
    conflicts (Pdns.RName r) (Pdns.RType r) existing = Ok () ∧
    (Pdns.RType r = CNAME → Pdns.RName r ≠ z ∧ length (IValues i) = 1%nat) ∧
    Pdns.RChangeType r = Pdns.ChangeReplace ∧ Pdns.RComments r ≠ None.
Proof.
  unfold RecordSet. intros (z & Hz & H)%bind_Ok. apply bind_Ok in H as (t & Ht & H).
  apply bind_Ok in H as (name & Hname & H). exists z. split; [done|].
  case_if in H as E1; [done|]. case_if in H as E2; [done|]. case_if in H as E5; [done|].
  case_if in H as E3; [done|]. case_if in H as E4; [done|]. apply bind_Ok in H as ([] & Hc & H).
  apply bind_Ok in H as (recs & Hv & [= <-]). cbn [Pdns.RType Pdns.RName Pdns.RTTL Pdns.RRecords Pdns.RChangeType Pdns.RComments].
  b2p. split_and!; try done; try lia.
  - destruct (IValues i); [done|simpl; lia].
  - intros ->. rewrite bool_decide_eq_true_2 in E3, E4 by done. simpl in *. b2p. split; [done|].
    destruct (IValues i); [done|]. simpl in *. lia.
Qed.

(** An accepted record set is the REPLACE change of one owner inside the
    zone: a canonical owner name, an editable type that is not SOA, the
    submitted TTL unchanged by the narrowing to 32 bits and within the limits, as
    many values as submitted (at least one, at most the limit) in the same order
    with their disabled flags, each a validated content and no two equal, and
    comments that are written explicitly.  A CNAME set is not at the apex and
    has one value. *)
Theorem RecordSet_spec l zone i existing r :
  0 ≤ MinTTL l → MaxTTL l < 2 ^ 32 →
  RecordSet l zone i existing = Ok r →
  ∃ z, canonicalZone zone = Ok z ∧ Store.InZone (Pdns.RName r) z = true ∧ owner_form (Pdns.RName r) ∧
    Editable (Pdns.RType r) = true ∧ Pdns.RType r ≠ "SOA" ∧
    Pdns.RTTL r = ITTL i ∧ MinTTL l ≤ Pdns.RTTL r ≤ MaxTTL l ∧
    Forall2 (λ v rec, content (Pdns.RType r) z (VContent v) = Ok (Pdns.RecContent rec)
                      ∧ Pdns.RecDisabled rec = VDisabled v) (IValues i) (Pdns.RRecords r) ∧
    1 ≤ Z.of_nat (length (Pdns.RRecords r)) ≤ MaxValues l ∧ NoDup (map Pdns.RecContent (Pdns.RRecords r)) ∧
    Pdns.RChangeType r = Pdns.ChangeReplace ∧ Pdns.RComments r ≠ None ∧
    (Pdns.RType r = CNAME → Pdns.RName r ≠ z ∧ length (Pdns.RRecords r) = 1%nat).
Proof.
  intros Hmin Hmax (z & Hz & Ht & Hn & Httl & Httl' & Hl1 & Hl2 & Hv & _ & Hc & Hch & Hcom)%RecordSet_inv.
  exists z. split; [done|]. apply RecordName_inv in Hn as (z' & Hz' & Hin & Hof & _).
  rewrite (canonicalZone_idem _ _ Hz) in Hz'. injection Hz' as <-.
  apply editableType_Ok in Ht as (_ & ? & ?). apply values_Ok in Hv as (H2 & Hnd & _).
  pose proof (Forall2_length _ _ _ H2) as Hlen.
  assert (Pdns.RTTL r = ITTL i) by (rewrite Httl'; apply Z.mod_small; lia).
  split_and!; try done; try lia. intros ?. destruct Hc as [? ?]; [done|]. split; [done|lia].
Qed.

(** ** CNAME exclusivity *)

Definition is_cname (s : Pdns.RRset) : bool := EqualFold (Pdns.RType s) CNAME.

(** No name, compared without case, has both a CNAME set and another one. *)
Definition cname_alone (sets : list Pdns.RRset) : Prop :=
  ∀ s s', s ∈ sets → s' ∈ sets → EqualFold (Pdns.RName s) (Pdns.RName s') = true → is_cname s = is_cname s'.

Lemma strip_incl n es s c : c ∈ strip n es s → c ∈ s.
Proof.
  revert s. induction n as [|n IH]; intros s; simpl; [done|].
  unfold strip_one. destruct (find_first _ es) as [e|]; [|done]. intros Hc%IH.
  rewrite <- (take_drop (length e) s). set_solver.
Qed.

Lemma TrimSpace_ascii s : isASCII s = true → isASCII (TrimSpace s) = true.
Proof.
  unfold isASCII. rewrite !forallb_Forall, !Forall_forall. intros H c Hc. apply H.
  unfold TrimSpace, TrimRightSpace, TrimLeftSpace in Hc.
  apply elem_of_reverse, strip_incl, elem_of_reverse, strip_incl in Hc. done.
Qed.

Lemma upper_byte_ascii s : isASCII s = true → isASCII (map upper_byte s) = true.
Proof.
  unfold isASCII. rewrite !forallb_Forall, Forall_map. intros H. eapply Forall_impl; [exact H|]. intros c Hc.
  assert (E : implb (code c <? 128) (code (upper_byte c) <? 128) = true) by (clear; revert c; by_bytes).
  by rewrite Hc in E.
Qed.

Lemma upper_byte_idem s : map upper_byte (map upper_byte s) = map upper_byte s.
Proof.
  rewrite map_map. apply map_ext. intros c.
  assert (E : bool_decide (upper_byte (upper_byte c) = upper_byte c) = true) by (revert c; by_bytes).
  by b2p.
Qed.

(** An ASCII type is one of the table's own spellings. *)
Lemma editableType_table s t : isASCII s = true → editableType s = Ok t → t ∈ EditableTypes.
Proof.
  intros Hs (-> & He & _)%editableType_Ok. apply TrimSpace_ascii in Hs.
  unfold Editable in He. rewrite (ToUpper_ascii _ Hs) in *.
  rewrite ToUpper_ascii in He by (by apply upper_byte_ascii).
  rewrite upper_byte_idem in He. by apply Store.contains_elem.
Qed.

Lemma table_cname t : t ∈ EditableTypes → EqualFold t CNAME = bool_decide (t = CNAME).
Proof.
  intros Ht. assert (Hall : forallb (λ t, eqb (EqualFold t CNAME) (bool_decide (t = CNAME))) EditableTypes = true)
    by (vm_compute; reflexivity).
  rewrite forallb_Forall, Forall_forall in Hall. by apply Hall, eqb_prop in Ht.
Qed.

(** A set that may stay beside [r]: of another name, or a CNAME like it. *)
Definition agrees (r e : Pdns.RRset) : Prop :=
  EqualFold (Pdns.RName e) (Pdns.RName r) = true → is_cname e = is_cname r.

Lemma cname_alone_with sets r final :
  cname_alone sets →
  (∀ x, x ∈ final → Pdns.rkey x = Pdns.rkey r ∨ ∃ e, e ∈ sets ∧ Pdns.rkey e = Pdns.rkey x ∧ agrees r e) →
  cname_alone final.
Proof.
  intros Ha Hf x y Hx Hy. apply Hf in Hx, Hy. unfold is_cname.
  destruct Hx as [[= -> ->]|(e & He & [= <- <-] & Hae)], Hy as [[= -> ->]|(e' & He' & [= <- <-] & Hae')]; [done|..].
  - rewrite EqualFold_sym. intros H. symmetry. by apply Hae'.
  - apply Hae.
  - by apply Ha.
Qed.

Lemma RecordSet_agrees l zone i existing r :
  isASCII (IType i) = true → RecordSet l zone i existing = Ok r → Forall (agrees r) existing.
Proof.
  intros Hasc (z & _ & Ht & _ & _ & _ & _ & _ & _ & Hc & _)%RecordSet_inv.
  apply editableType_table in Ht; [|done]. apply conflicts_Ok in Hc.
  eapply Forall_impl; [exact Hc|]. intros e He Hne. unfold is_cname. destruct (He Hne) as [Hf|[Hn Hf]].
  - apply bool_decide_ext. unfold EqualFold in Hf. b2p. by rewrite Hf.
  - rewrite Hf, table_cname by done. symmetry. by apply bool_decide_eq_false.
Qed.

(** Writing an accepted record set keeps CNAMEs alone at their names: if
    no name of the zone (names compared without case) holds a CNAME set and
    another set, and the set was validated against all the sets of the zone but
    the one it replaces, then the same holds after PowerDNS applied the change. *)
Theorem RecordSet_cname_alone l zone i existing sets r :
  isASCII (IType i) = true →
  RecordSet l zone i existing = Ok r →
  (∀ x, x ∈ sets → x ∈ existing ∨ Pdns.rkey x = Pdns.rkey r) →
  cname_alone sets → cname_alone (Pdns.apply_patch sets [r]).
Proof.
  intros Hasc Hr Hex Ha. apply (RecordSet_agrees _ _ _ _ _ Hasc) in Hr. rewrite Forall_forall in Hr.
  apply (cname_alone_with sets r); [done|]. intros x [Hk|(Hx & _)]%Pdns.patch_one_elem; [by left|].
  apply list_elem_of_fmap in Hx as (x0 & -> & Hx). destruct (Hex x0 Hx) as [Hin|Hin]; [|by left].
  right. exists x0. auto.
Qed.
End Facts.

Lemma RecordSet_spec_witness :
  let U := unicode_min in let DNS := miekg_plain in let RRP := rr_plain in
  let i := mkRecordSetInput "www" "a" 300 [mkRecordValue "192.0.2.1" false; mkRecordValue " 192.0.2.2" true] " web " in
  ∃ r, RecordSet DefaultLimits "Example.com" i [] = Ok r ∧ Pdns.RTTL r = 300 ∧ owner_form (Pdns.RName r).
Proof.
  intros U DNS RRP i.
  assert (E : is_ok (RecordSet DefaultLimits "Example.com" i []) = true) by (vm_compute; reflexivity).
  destruct (RecordSet DefaultLimits "Example.com" i []) as [r|] eqn:Er; [|discriminate]. exists r. split; [reflexivity|].
  edestruct (@RecordSet_spec U DNS miekg_plain_laws RRP DefaultLimits "Example.com" i [])
    as (z & _ & _ & Ho & _ & _ & Ht & _); [vm_compute; congruence|reflexivity|exact Er|].
  split; [exact Ht|exact Ho].
Defined.

Lemma RecordSet_cname_alone_witness :
  let U := unicode_min in let DNS := miekg_plain in let RRP := rr_plain in
  let i := mkRecordSetInput "www" "cname" 300 [mkRecordValue "a.example.com." false] [] in
  let sets := [Pdns.mkRRset "example.com." "NS" 300 [] [Pdns.mkRecord "ns.example.com." false] None] in
  ∃ r, RecordSet DefaultLimits "example.com" i sets = Ok r ∧ cname_alone (Pdns.apply_patch sets [r]).
Proof.
  intros U DNS RRP i sets.
  assert (E : is_ok (RecordSet DefaultLimits "example.com" i sets) = true) by (vm_compute; reflexivity).
  destruct (RecordSet DefaultLimits "example.com" i sets) as [r|] eqn:Er; [|discriminate]. exists r. split; [reflexivity|].
  apply (@RecordSet_cname_alone U DNS miekg_plain_laws RRP DefaultLimits "example.com" i sets); [reflexivity|exact Er|auto|].
  intros x y ->%list_elem_of_singleton ->%list_elem_of_singleton _. reflexivity.
Defined.
End RecordSets.
