(* ===== verification/Recursor.v ===== *)
(** * The resolver's forward zones ([internal/recursor])

    [Fake] is the in-memory recursor ([fake.go]); [Reconcile] is the pass that
    makes its forward zones equal to the managed zones ([reconciler.go]).  The
    HTTP client ([client.go]) is represented by the name canonicalisation it
    shares with the fake ([canon]); its transport is [RecursorHttp]. *)
From Stdlib Require Import Ascii.
From S2P Require Import Prelude GoStrings GoError Store.
Local Open Scope Z_scope.

(** The recursor client, as the services use it. *)
Class RecursorClient (R : Type) := {
  rec_SyncForward : str → R → res unit * R;
  rec_RemoveForward : str → R → res unit * R
}.

Module Recursor.

Record Fake := mkFake {
  enabled : bool;
  forwards : gmap str str;
  failNext : gmap str error;
  Target : str;
  Down : bool;
  NotReady : bool;
  Calls : list str
}.

Definition NewFake : Fake := mkFake true ∅ ∅ "172.20.0.5:53" false false [].
Definition FailNext (op : str) (e : error) (f : Fake) : Fake :=
  mkFake (enabled f) (forwards f) (<[op := e]> (failNext f)) (Target f) (Down f) (NotReady f) (Calls f).
Definition set_forwards (m : gmap str str) (f : Fake) : Fake :=
  mkFake (enabled f) m (failNext f) (Target f) (Down f) (NotReady f) (Calls f).

Definition begin (op zone : str) (f : Fake) : option error * Fake :=
  let calls := Calls f ++ [TrimSpace (op ++ " " ++ zone)] in
  let f' fn := mkFake (enabled f) (forwards f) fn (Target f) (Down f) (NotReady f) calls in
  if Down f then (Some (Wrapf (New RecursorErrUnavailable) "fake is down"), f' (failNext f))
  else match failNext f !! op with
  | Some e => (Some e, f' (delete op (failNext f)))
  | None => (None, f' (failNext f))
  end.

Section Names.
Context {U : Unicode}.

Definition Seed (zone target : str) (f : Fake) : Fake := set_forwards (<[ToLower zone := target]> (forwards f)) f.

Definition canon (zone : str) : res str :=
  let z := TrimSuffix (ToLower (TrimSpace zone)) "." in
  if bool_decide (z = []) then Err (Plain "recursor: zone name required") else Ok (z ++ ".").

Definition SyncForward (zone : str) (f : Fake) : res unit * Fake :=
  if negb (enabled f) then (Ok (), f)
  else match canon zone with
  | Err e => (Err e, f)
  | Ok name =>
    match begin "SyncForward" name f with
    | (Some e, f) => (Err e, f)
    | (None, f) => (Ok (), set_forwards (<[name := Target f]> (forwards f)) f)
    end
  end.

Definition RemoveForward (zone : str) (f : Fake) : res unit * Fake :=
  if negb (enabled f) then (Ok (), f)
  else match canon zone with
  | Err e => (Err e, f)
  | Ok name =>
    match begin "RemoveForward" name f with
    | (Some e, f) => (Err e, f)
    | (None, f) => (Ok (), set_forwards (delete name (forwards f)) f)
    end
  end.

Definition ListForwards (f : Fake) : res (list str) * Fake :=
  if negb (enabled f) then (Ok [], f)
  else match begin "ListForwards" [] f with
  | (Some e, f) => (Err e, f)
  | (None, f) => (Ok (sort_by str_ltb (map fst (map_to_list (forwards f)))), f)
  end.

Definition Ready (f : Fake) : res unit * Fake :=
  if negb (enabled f) then (Ok (), f)
  else match begin "Ready" [] f with
  | (Some e, f) => (Err e, f)
  | (None, f) => ((if NotReady f then Err (Wrapf (New RecursorErrUnavailable) "not ready") else Ok ()), f)
  end.

(** ** The reconciler *)

Definition canonicalForward (z : str) : str :=
  let z := ToLower (TrimSpace z) in if negb (HasSuffix z ".") then z ++ "." else z.

Definition result (r : res unit) : str :=
  match r with
  | Ok _ => "ok"
  | Err e => if Is e RecursorErrUnavailable then "unavailable" else "error"
  end.

(** The recursor, the first error, and the results reported so far. *)
Definition pass : Type := Fake * option error * list str.

Definition note (op : str → Fake → res unit * Fake) (zone : str) (p : pass) : pass :=
  let '(f, first, log) := p in
  let '(r, f) := op zone f in
  (f, match first with Some e => Some e | None => err_of r end, log ++ [result r]).

Definition countUnowned (managed served : list str) : Z :=
  let owned := map canonicalForward managed in
  Z.of_nat (length (List.filter (λ z, negb (bool_decide (canonicalForward z ∈ owned))) served)).

(** One pass.  [managed] is the answer of the store; [served] that of PowerDNS,
    when the unowned zones are counted.  Returned: the error, the recursor, the
    results reported, and the count. *)
Definition Reconcile (static : list str) (managed : res (list str)) (served : option (res (list str))) (f : Fake) :
    option error * Fake * list str * option Z :=
  let counting := match served with Some _ => true | None => false end in
  if negb (enabled f) && negb counting then (None, f, [], None)
  else match managed with
  | Err e => (Some (Wrapf e "recursor reconcile: zone names"), f, [], None)
  | Ok managed =>
    let '(unownedErr, n) := match served with
      | None => (None, None)
      | Some (Err e) => (Some (Wrapf e "recursor reconcile: PowerDNS zones"), None)
      | Some (Ok served) => (None, Some (countUnowned managed served)) end in
    if negb (enabled f) then (unownedErr, f, [], n)
    else
      let keep := ("." : str) :: map canonicalForward static ++ map canonicalForward managed in
      let '(f, first, log) := fold_left (λ p z, note SyncForward z p) managed (f, None, []) in
      match ListForwards f with
      | (Err e, f) => (Some (Wrapf e "recursor reconcile: list forwards"), f, log, n)
      | (Ok current, f) =>
        let stale := List.filter (λ z, negb (bool_decide (canonicalForward z ∈ keep))) current in
        let '(f, first, log) := fold_left (λ p z, note RemoveForward z p) stale (f, first, log) in
        (match first with Some e => Some e | None => unownedErr end, f, log, n)
      end
  end.

(** Poll for readiness at most [attempts] times, then one pass. *)
Fixpoint ReconcileNow (attempts : nat) (static : list str) (managed : res (list str)) (served : option (res (list str)))
    (last : option error) (f : Fake) : option error * Fake :=
  if negb (enabled f) then (None, f)
  else match attempts with
  | O => (last, f)
  | S n =>
    match Ready f with
    | (Ok _, f) => let '(e, f, _, _) := Reconcile static managed served f in (e, f)
    | (Err e, f) => ReconcileNow n static managed served (Some e) f
    end
  end.

(** [interval], in nanoseconds. *)
Definition interval (configured : Z) : Z := if 0 <? configured then configured else 300000000000.
(** One round of [Run]: what others did to the recursor before it, what the store and
    PowerDNS answer, and whether the context ended during the wait. *)
Record round := mkRound { others : Fake → Fake; names : res (list str); servedNames : res (list str); stops : bool }.
(** The loop over a schedule: the recursor and the error of each pass. *)
Fixpoint rounds_loop (counting : bool) (static : list str) (rounds : list round) (f : Fake) : Fake * list (option error) :=
  match rounds with
  | [] => (f, [])
  | r :: rounds =>
    let '(e, f, _, _) := Reconcile static (names r) (if counting then Some (servedNames r) else None) (others r f) in
    if stops r then (f, [e]) else let '(f, es) := rounds_loop counting static rounds f in (f, e :: es)
  end.
Definition Run (counting : bool) (static : list str) (rounds : list round) (f : Fake) : Fake * list (option error) :=
  if negb (enabled f) && negb counting then (f, []) else rounds_loop counting static rounds f.
End Names.

(** ** Properties *)

Section Facts.
Context {U : Unicode}.

Lemma TrimSuffix_dot z : HasSuffix z "." = true → TrimSuffix z "." ++ "." = z.
Proof. intros [k ->]%HasSuffix_spec. by rewrite TrimSuffix_app. Qed.

Lemma canon_Ok z n : canon z = Ok n → n = canonicalForward z ∧ n ≠ ".".
Proof.
  unfold canon, canonicalForward. set (y := ToLower (TrimSpace z)). case_bool_decide as E; [done|]. intros [= <-].
  split; [|intros Hd; apply E; by apply (app_inj_2 _ [] (lit ".") (lit ".")) in Hd as [? _]].
  destruct (HasSuffix y ".") eqn:Es; cbn [negb]; [by apply TrimSuffix_dot|]. unfold TrimSuffix. by rewrite Es.
Qed.

Lemma canon_some z : canonicalForward z ≠ "." → canon z = Ok (canonicalForward z).
Proof.
  intros Hn. destruct (canon z) as [n|e] eqn:E; [by apply canon_Ok in E as [-> _]|]. exfalso. apply Hn. revert E.
  unfold canon, canonicalForward. set (y := ToLower (TrimSpace z)). case_bool_decide as Ey; [|done]. intros _.
  destruct (HasSuffix y ".") eqn:Es; cbn [negb].
  - by rewrite <- (TrimSuffix_dot y Es), Ey.
  - unfold TrimSuffix in Ey. rewrite Es in Ey. by rewrite Ey.
Qed.

(** A step that reports no error did its work; [fwd] is the work. *)
Definition works (op : str → Fake → res unit * Fake) (fwd : str → str → gmap str str → gmap str str) : Prop :=
  ∀ z f f', enabled f = true → op z f = (Ok (), f') →
    enabled f' = true ∧ Target f' = Target f ∧ forwards f' = fwd (canonicalForward z) (Target f) (forwards f).

Lemma begin_None op z f f' : begin op z f = (None, f') → enabled f' = enabled f ∧ Target f' = Target f ∧ forwards f' = forwards f.
Proof. unfold begin. destruct (Down f); [done|]. destruct (failNext f !! op); [done|]. by intros [= <-]. Qed.

Lemma SyncForward_works : works SyncForward (λ k t m, <[k := t]> m).
Proof.
  intros z f f' He. unfold SyncForward. rewrite He. cbn [negb]. destruct (canon z) as [n|] eqn:Ec; [|done].
  apply canon_Ok in Ec as [-> _]. destruct (begin _ _ f) as [[e|] f1] eqn:Eb; [done|]. intros [= <-].
  apply begin_None in Eb as (He1 & Ht1 & Hf1). simpl. by rewrite He1, Ht1, Hf1.
Qed.
Lemma RemoveForward_works : works RemoveForward (λ k _ m, delete k m).
Proof.
  intros z f f' He. unfold RemoveForward. rewrite He. cbn [negb]. destruct (canon z) as [n|] eqn:Ec; [|done].
  apply canon_Ok in Ec as [-> _]. destruct (begin _ _ f) as [[e|] f1] eqn:Eb; [done|]. intros [= <-].
  apply begin_None in Eb as (He1 & Ht1 & Hf1). simpl. by rewrite He1, Ht1, Hf1.
Qed.

(** The first error is kept. *)
Lemma loop_first op zs f e log : ∃ f' log', fold_left (λ p z, note op z p) zs (f, Some e, log) = (f', Some e, log').
Proof.
  revert f log. induction zs as [|z zs IH]; intros f log; cbn [fold_left]; [eauto|].
  unfold note at 2. destruct (op z f). apply IH.
Qed.

(** A loop that ends without an error had none. *)
Lemma loop_works op fwd zs f first log f' log' :
  works op fwd → enabled f = true →
  fold_left (λ p z, note op z p) zs (f, first, log) = (f', None, log') →
  first = None ∧ enabled f' = true ∧ Target f' = Target f ∧
  forwards f' = fold_left (λ m z, fwd (canonicalForward z) (Target f) m) zs (forwards f).
Proof.
  intros Hw. revert f first log. induction zs as [|z zs IH]; intros f first log He; cbn [fold_left].
  { by intros [= <- -> <-]. }
  unfold note at 2. destruct (op z f) as [r f1] eqn:Eo. intros H.
  destruct first as [e|]; [destruct (loop_first op zs f1 e (log ++ [result r])) as (? & ? & E); by rewrite E in H|].
  destruct r as [[]|e]; [|destruct (loop_first op zs f1 e (log ++ [result (Err e)])) as (? & ? & E);
    cbn [err_of] in H; by rewrite E in H].
  destruct (Hw z f f1 He Eo) as (He1 & Ht1 & Hf1). apply IH in H as (_ & ? & ? & Hf'); [|done].
  split; [done|]. split; [done|]. split; [congruence|]. by rewrite Hf', Hf1, Ht1.
Qed.

Lemma insert_all_lookup (t : str) (zs : list str) (m : gmap str str) (k : str) :
  fold_left (λ m z, <[canonicalForward z := t]> m) zs m !! k
  = if bool_decide (k ∈ map canonicalForward zs) then Some t else m !! k.
Proof.
  revert m. induction zs as [|z zs IH]; intros m; cbn [fold_left map]; [done|]. rewrite IH.
  repeat case_bool_decide; try done; [set_solver| |].
  - apply elem_of_cons in H0 as [->|?]; [by rewrite lookup_insert_eq|done].
  - apply not_elem_of_cons in H0 as [? _]. by rewrite lookup_insert_ne.
Qed.

Lemma delete_all_lookup (zs : list str) (m : gmap str str) (k : str) :
  fold_left (λ m z, delete (canonicalForward z) m) zs m !! k
  = if bool_decide (k ∈ map canonicalForward zs) then None else m !! k.
Proof.
  revert m. induction zs as [|z zs IH]; intros m; cbn [fold_left map]; [done|]. rewrite IH.
  repeat case_bool_decide; try done; [set_solver| |].
  - apply elem_of_cons in H0 as [->|?]; [by rewrite lookup_delete_eq|done].
  - apply not_elem_of_cons in H0 as [? _]. by rewrite lookup_delete_ne.
Qed.

Lemma ListForwards_Ok f l f' :
  enabled f = true → ListForwards f = (Ok l, f') →
  enabled f' = true ∧ forwards f' = forwards f ∧ ∀ k, k ∈ l ↔ is_Some (forwards f !! k).
Proof.
  intros He. unfold ListForwards. rewrite He. cbn [negb]. destruct (begin _ _ f) as [[e|] f1] eqn:Eb; [done|].
  intros [= <- <-]. apply begin_None in Eb as (He1 & _ & Hf1). split; [congruence|]. split; [done|]. intros k.
  rewrite elem_of_sort_by, list_elem_of_fmap, Hf1. split.
  - intros ([k' v] & -> & H%elem_of_map_to_list). by exists v.
  - intros [v H%elem_of_map_to_list]. by exists (k, v).
Qed.

(** A reconciler pass that reports no error leaves exactly the right
    forward zones: every managed zone forwards to the authoritative server, every
    other forward is gone unless it is the root or a static one, and those are
    untouched.  (The recursor's zone names are canonical, as its API returns
    them.) *)
Theorem Reconcile_exact static managed served f f' log n (k : str) :
  enabled f = true → map_Forall (λ k _, canonicalForward k = k) (forwards f) →
  (∀ z, z ∈ managed → canonicalForward (canonicalForward z) = canonicalForward z) →
  Reconcile static (Ok managed) served f = (None, f', log, n) →
  forwards f' !! k =
    if bool_decide (k ∈ map canonicalForward managed) then Some (Target f)
    else if bool_decide (k = "." ∨ k ∈ map canonicalForward static) then forwards f !! k else None.
Proof.
  intros He Hcanon Hman. unfold Reconcile. rewrite He. cbn [negb andb].
  match goal with |- context [let '(_, _) := ?p in _] => destruct p as [ue cnt] end.
  destruct (fold_left _ managed _) as [[f1 first1] log1] eqn:E1.
  destruct (ListForwards f1) as [[current|e] f2] eqn:El; [|done].
  set (keep := _ :: _). set (stale := List.filter _ current).
  destruct (fold_left _ stale _) as [[f3 first3] log3] eqn:E3.
  destruct first3; [done|]. intros [= -> <- <- <-].
  destruct first1 as [e1|]; [destruct (loop_first RemoveForward stale f2 e1 log1) as (? & ? & E); by rewrite E in E3|].
  apply (loop_works _ _ _ _ _ _ _ _ SyncForward_works) in E1 as (_ & He1 & Ht1 & Hf1); [|done].
  apply ListForwards_Ok in El as (He2 & Hf2 & Hcur); [|done].
  apply (loop_works _ _ _ _ _ _ _ _ RemoveForward_works) in E3 as (_ & _ & _ & Hf3); [|done].
  assert (Hl : ∀ j, forwards f1 !! j = if bool_decide (j ∈ map canonicalForward managed) then Some (Target f) else forwards f !! j)
    by (intros j; by rewrite Hf1, insert_all_lookup).
  assert (Hkey : ∀ j, j ∈ current → canonicalForward j = j).
  { intros j Hj%Hcur. rewrite Hl in Hj. case_bool_decide as Hjm.
    - apply list_elem_of_fmap in Hjm as (z & -> & Hz). by apply Hman.
    - destruct Hj as [v Hv]. exact (Hcanon j v Hv). }
  assert (Hst : k ∈ map canonicalForward stale ↔ k ∈ current ∧ k ∉ keep).
  { unfold stale. rewrite list_elem_of_fmap. setoid_rewrite list_elem_of_In. setoid_rewrite filter_In.
    setoid_rewrite <- list_elem_of_In. split.
    - intros (z & -> & Hz & Hn). b2p. rewrite (Hkey z Hz) in *. done.
    - intros [Hk Hn]. exists k. rewrite (Hkey k Hk). split; [done|]. split; [done|]. by rewrite bool_decide_eq_false_2. }
  rewrite Hf3, delete_all_lookup, Hf2, Hl.
  assert (Hkeep : k ∈ keep ↔ (k = "." ∨ k ∈ map canonicalForward static) ∨ k ∈ map canonicalForward managed)
    by (unfold keep; rewrite elem_of_cons, elem_of_app; tauto).
  destruct (decide (k ∈ map canonicalForward managed)) as [Hm|Hm].
  - rewrite !(bool_decide_eq_true_2 (k ∈ map canonicalForward managed)), bool_decide_eq_false_2 by tauto. done.
  - rewrite !(bool_decide_eq_false_2 (k ∈ map canonicalForward managed)) by done.
    case_bool_decide as H1; case_bool_decide as H2; try done; [tauto|].
    destruct (forwards f !! k) eqn:Ek; [|done]. exfalso. apply H1, Hst. split; [|tauto].
    apply Hcur. rewrite Hl, bool_decide_eq_false_2 by done. by rewrite Ek.
Qed.

(** Nothing stands in the way of a call. *)
Definition healthy (f : Fake) : Prop := enabled f = true ∧ Down f = false ∧ failNext f = ∅.

Lemma begin_healthy op z f : healthy f → ∃ f', begin op z f = (None, f') ∧ healthy f'.
Proof.
  intros (He & Hd & Hf). unfold begin. rewrite Hd, Hf, lookup_empty. eexists. split; [done|]. by unfold healthy.
Qed.

Lemma loop_healthy op zs f log :
  (∀ z f, z ∈ zs → healthy f → ∃ f', op z f = (Ok (), f') ∧ healthy f') → healthy f →
  ∃ f' log', fold_left (λ p z, note op z p) zs (f, None, log) = (f', None, log') ∧ healthy f'.
Proof.
  intros Hop. revert f log. induction zs as [|z zs IH]; intros f log Hf; cbn [fold_left]; [eauto|].
  destruct (Hop z f) as (f1 & E1 & H1); [set_solver|done|]. unfold note at 2. rewrite E1. cbn [err_of].
  apply IH; [|done]. intros y g Hy. apply Hop. set_solver.
Qed.

Lemma op_healthy z f :
  canonicalForward z ≠ "." → healthy f →
  (∃ f', SyncForward z f = (Ok (), f') ∧ healthy f') ∧ (∃ f', RemoveForward z f = (Ok (), f') ∧ healthy f').
Proof.
  intros Hz Hf. unfold SyncForward, RemoveForward. rewrite (proj1 Hf), (canon_some z Hz). cbn [negb].
  destruct (begin_healthy "SyncForward" (canonicalForward z) f Hf) as (f1 & -> & H1).
  destruct (begin_healthy "RemoveForward" (canonicalForward z) f Hf) as (f2 & -> & H2). split; eexists; by split.
Qed.

(** The reconciler converges: when the recursor answers, the store lists
    the managed zones and PowerDNS is not asked or answers, one pass ends without
    error, whatever forwards were there before and whatever earlier passes left
    undone. *)
Theorem Reconcile_converges static managed served f :
  healthy f → (∀ z, z ∈ managed → canonicalForward z ≠ ".") → (∀ e, served ≠ Some (Err e)) →
  ∃ f' log n, Reconcile static (Ok managed) served f = (None, f', log, n) ∧ healthy f'.
Proof.
  intros Hf Hman Hsrv. unfold Reconcile. rewrite (proj1 Hf). cbn [negb andb].
  assert (∃ n, match served with
      | None => (None, None)
      | Some (Err e) => (Some (Wrapf e "recursor reconcile: PowerDNS zones"), None)
      | Some (Ok served) => (None, Some (countUnowned managed served)) end = (None, n)) as [n ->].
  { destruct served as [[l|e]|]; [eauto|by destruct (Hsrv e)|eauto]. }
  destruct (loop_healthy SyncForward managed f []) as (f1 & log1 & -> & H1).
  { intros z g Hz Hg. by apply (op_healthy z g (Hman z Hz) Hg). }
  { done. }
  unfold ListForwards. rewrite (proj1 H1). cbn [negb].
  destruct (begin_healthy "ListForwards" [] f1 H1) as (f2 & -> & H2).
  set (stale := List.filter _ _). destruct (loop_healthy RemoveForward stale f2 log1) as (f3 & log3 & -> & H3).
  { intros z g Hz Hg. unfold stale in Hz. apply list_elem_of_In, filter_In in Hz as [_ Hz]. b2p.
    apply (op_healthy z g); [|done]. intros E. apply Hz. rewrite E. set_solver. }
  { done. }
  eauto 10.
Qed.

Lemma rounds_loop_app counting static rs last f :
  forallb (λ r, negb (stops r)) rs = true →
  rounds_loop counting static (rs ++ [last]) f =
    let '(g, es) := rounds_loop counting static rs f in
    let '(e, f', _, _) := Reconcile static (names last) (if counting then Some (servedNames last) else None) (others last g) in (f', es ++ [e]).
Proof.
  revert f. induction rs as [|r rs IH]; intros f; cbn [app rounds_loop forallb].
  { intros _. destruct (Reconcile _ _ _ _) as [[[e f'] ?] ?]. by destruct (stops last). }
  intros [Hr Hrs]%andb_true_iff. destruct (Reconcile _ _ _ (others r f)) as [[[e f1] ?] ?]. apply negb_true_iff in Hr. rewrite Hr, (IH f1 Hrs).
  destruct (rounds_loop _ _ rs f1) as [g es]. by destruct (Reconcile _ _ _ _) as [[[e' f'] ?] ?].
Qed.

(** The worker recovers: however many rounds failed, whatever they left behind
    and whatever others did in between, the first round that finds the recursor, the
    store and PowerDNS answering ends without error and leaves exactly the right
    forwards. *)
Theorem Run_recovers counting static rs last f managed (k : str) :
  let g := others last (rounds_loop counting static rs f).1 in
  negb (enabled f) && negb counting = false → forallb (λ r, negb (stops r)) rs = true →
  healthy g → map_Forall (λ k _, canonicalForward k = k) (forwards g) →
  names last = Ok managed → is_ok (servedNames last) = true →
  (∀ z, z ∈ managed → canonicalForward z ≠ "." ∧ canonicalForward (canonicalForward z) = canonicalForward z) →
  ∃ f' es, Run counting static (rs ++ [last]) f = (f', es ++ [None]) ∧ healthy f' ∧
  forwards f' !! k =
    if bool_decide (k ∈ map canonicalForward managed) then Some (Target g)
    else if bool_decide (k = "." ∨ k ∈ map canonicalForward static) then forwards g !! k else None.
Proof.
  intros g Hrun Hrs Hg Hcanon Hn Hsv Hman. unfold Run. rewrite Hrun, (rounds_loop_app _ _ _ _ _ Hrs), Hn. subst g.
  destruct (rounds_loop _ _ rs f) as [g es]. cbn [fst] in *. set (sv := if counting then _ else _).
  assert (Hsv' : ∀ e, sv ≠ Some (Err e)) by (unfold sv; destruct counting, (servedNames last); naive_solver).
  destruct (Reconcile_converges static managed sv (others last g) Hg ltac:(intros z Hz; apply (Hman z Hz)) Hsv') as (f' & log & n & E & Hf'). rewrite E.
  exists f', es. split; [done|]. split; [done|]. eapply Reconcile_exact; [apply Hg|done|intros z Hz; apply (Hman z Hz)|exact E].
Qed.
End Facts.

(** A recursor with a stale forward, a static one and a missing one. *)
Definition example_fake : Fake :=
  set_forwards {[("old.com." : str) := ("10.0.0.1:53" : str); ("corp." : str) := ("10.0.0.9:53" : str)]} NewFake.

Lemma Reconcile_exact_witness :
  let f' := (Reconcile (U := unicode_min) ["corp" : str] (Ok ["a.com." : str]) None example_fake).1.1.2 in
  forwards f' !! ("a.com." : str) = Some ("172.20.0.5:53" : str) ∧ forwards f' !! ("old.com." : str) = None.
Proof.
  intros f'.
  assert (E : ∀ k : str, forwards f' !! k =
    if bool_decide (k ∈ map (canonicalForward (U := unicode_min)) ["a.com." : str]) then Some (Target example_fake)
    else if bool_decide (k = "." ∨ k ∈ map (canonicalForward (U := unicode_min)) ["corp" : str]) then forwards example_fake !! k else None).
  { intros k. destruct (Reconcile (U := unicode_min) ["corp" : str] (Ok ["a.com." : str]) None example_fake)
      as [[[e f1] log] n] eqn:Er. assert (e = None) as ->.
    { change e with (e, f1, log, n).1.1.1. rewrite <- Er. vm_compute. reflexivity. }
    eapply (@Reconcile_exact unicode_min) with (served := None); [reflexivity| | |exact Er].
    - apply (bool_decide_eq_true_1 (map_Forall (λ k _, canonicalForward (U := unicode_min) k = k) (forwards example_fake))).
      vm_compute. reflexivity.
    - intros z ->%list_elem_of_singleton. vm_compute. reflexivity. }
  split; rewrite E; vm_compute; reflexivity.
Defined.

Lemma Reconcile_converges_witness :
  ∃ f' log n, Reconcile (U := unicode_min) ["corp" : str] (Ok ["a.com." : str]) None example_fake = (None, f', log, n) ∧ healthy f'.
Proof.
  apply (@Reconcile_converges unicode_min); [vm_compute; repeat split| |discriminate].
  intros z ->%list_elem_of_singleton. vm_compute. discriminate.
Defined.

#[global] Instance fake_recursor `{U : Unicode} : RecursorClient Fake := {
  rec_SyncForward := SyncForward; rec_RemoveForward := RemoveForward
}.
End Recursor.
