(* ===== verification/World.v ===== *)
(** * The services' surroundings

    A service of the module holds its dependencies ([Deps] in each package): the
    store, the PowerDNS client, the recursor client, the event publisher, the
    audit recorder, the metrics, a clock and an id source.  [World] is the state
    behind them; a service method is a computation [M] on it.  Event payloads
    ([internal/events/events.go]) and audit events ([internal/audit/audit.go])
    are logged in the order they are emitted; log lines are not modelled. *)
From Stdlib Require Import Ascii.
From S2P Require Import Prelude GoStrings GoError Store Authz MemStore Pdns Recursor.
Local Open Scope Z_scope.

(** ** Computations on a state *)

Definition M (W A : Type) : Type := W → A * W.
#[global] Instance M_ret W : MRet (M W) := λ A a w, (a, w).
#[global] Instance M_bind W : MBind (M W) := λ A B f m w, let '(a, w) := m w in f a w.

(** Continue with the value of a successful call. *)
Definition try_ {W A B} (m : M W (res A)) (k : A → M W (res B)) : M W (res B) :=
  λ w, match m w with (Ok a, w) => k a w | (Err e, w) => (Err e, w) end.
Notation "x ←? m ; k" := (try_ m (λ x, k)) (at level 20, m at level 100, k at level 200, right associativity) : stdpp_scope.

(** ** Events *)

Module Events.
Definition ZoneCreated : str := "dns.zone.created".
Definition ZoneUpdated : str := "dns.zone.updated".
Definition ZoneDeleted : str := "dns.zone.deleted".
Definition RecordChanged : str := "dns.record.changed".
Definition ActionUpserted : str := "upserted".
Definition ActionDeleted : str := "deleted".
Definition SourceAPI : str := "api".
Definition SourceIPAM : str := "ipam".
Definition SourceACME : str := "acme".

Inductive payload :=
  | ZonePayload (ZoneID Zone Kind Origin ActorKind : str)
  | RecordPayload (ZoneID Zone Name Type_ Action Source : str).

Definition ZoneOf (z : Store.Zone) (actorKind : str) : payload :=
  ZonePayload (Store.ID z) (Store.Name z) (Store.Kind z) (Store.Origin z) actorKind.
Definition RecordOf (z : Store.Zone) (name rtype action source : str) : payload :=
  RecordPayload (Store.ID z) (Store.Name z) name rtype action source.

Record Recorded := mkRecorded { EvTenantID : str; EvType : str; EvPayload : payload }.
End Events.

(** ** Audit events, before persistence *)

Module AuditEvent.
Definition OutcomeOK : str := "ok".
Definition OutcomeRefused : str := "refused".
Definition OutcomeError : str := "error".
Definition SubjectZone : str := "zone".
Definition SubjectRecord : str := "record".
Definition SubjectTemplate : str := "template".
Definition SubjectSync : str := "sync".
Definition SubjectChallenge : str := "challenge".

Record Event := mkEvent {
  AeTenantID : str; AeType : str; AeActorKind : str; AeActorID : str; AeSubjectKind : str; AeSubjectID : str;
  AeOutcome : str; AeReason : str; AeDetails : list (str * str)
}.

Definition ActorOf (kind : str) : str :=
  if Store.contains [Authz.ActorModule; Authz.ActorIPAMSync; Authz.ActorSystem] kind then kind else Authz.ActorUser.
End AuditEvent.

(** ** Metrics *)

Module Metrics.
Definition ResultOK : str := "ok".
Definition ResultNotFound : str := "not_found".
Definition ResultConflict : str := "conflict".
Definition ResultUnavailable : str := "unavailable".
Definition ResultRefused : str := "refused".
Definition ResultSkipped : str := "skipped".
Definition ResultError : str := "error".
Inductive sample :=
  | PDNSCall (op result : str)
  | RecursorSync (result : str)
  | IPAMSync (action result : str)
  | Challenge (op result : str).
End Metrics.

(** ** The world *)

Record World (S P R : Type) := mkWorld {
  w_store : S;
  w_pdns : P;
  w_rec : option R;
  w_events : list Events.Recorded;
  w_audit : list AuditEvent.Event;
  w_metrics : list Metrics.sample;
  w_now : Store.time;
  w_minted : nat
}.
Arguments mkWorld {S P R}.
Arguments w_store {S P R}. Arguments w_pdns {S P R}. Arguments w_rec {S P R}. Arguments w_events {S P R}.
Arguments w_audit {S P R}. Arguments w_metrics {S P R}. Arguments w_now {S P R}. Arguments w_minted {S P R}.

Section Calls.
Context {S P R : Type}.
Abbreviation W := (World S P R).

Definition set_store (s : S) (w : W) : W :=
  mkWorld s (w_pdns w) (w_rec w) (w_events w) (w_audit w) (w_metrics w) (w_now w) (w_minted w).
Definition set_pdns (p : P) (w : W) : W :=
  mkWorld (w_store w) p (w_rec w) (w_events w) (w_audit w) (w_metrics w) (w_now w) (w_minted w).
Definition set_rec (r : R) (w : W) : W :=
  mkWorld (w_store w) (w_pdns w) (Some r) (w_events w) (w_audit w) (w_metrics w) (w_now w) (w_minted w).

Definition on_store {A} (op : S → res A * S) : M W (res A) :=
  λ w, let '(r, s) := op (w_store w) in (r, set_store s w).
Definition on_pdns {A} (op : P → res A * P) : M W (res A) :=
  λ w, let '(r, p) := op (w_pdns w) in (r, set_pdns p w).
Definition metric (m : Metrics.sample) : M W unit :=
  λ w, ((), mkWorld (w_store w) (w_pdns w) (w_rec w) (w_events w) (w_audit w) (w_metrics w ++ [m]) (w_now w) (w_minted w)).
Definition publish (tenant etype : str) (p : Events.payload) : M W unit :=
  λ w, ((), mkWorld (w_store w) (w_pdns w) (w_rec w) (w_events w ++ [Events.mkRecorded tenant etype p]) (w_audit w)
              (w_metrics w) (w_now w) (w_minted w)).
Definition record_audit (e : AuditEvent.Event) : M W unit :=
  λ w, ((), mkWorld (w_store w) (w_pdns w) (w_rec w) (w_events w) (w_audit w ++ [e]) (w_metrics w) (w_now w) (w_minted w)).
Definition now : M W Store.time := λ w, (w_now w, w).
Definition mint (newID : nat → str) : M W str :=
  λ w, (newID (w_minted w), mkWorld (w_store w) (w_pdns w) (w_rec w) (w_events w) (w_audit w) (w_metrics w) (w_now w)
                              (Datatypes.S (w_minted w))).

(** [EmitZone] and [EmitRecord] with a publisher wired. *)
Definition EmitZone (etype : str) (z : Store.Zone) (actorKind : str) : M W unit :=
  publish (Store.TenantID z) etype (Events.ZoneOf z actorKind).
Definition EmitRecord (z : Store.Zone) (name rtype action source : str) : M W unit :=
  publish (Store.TenantID z) Events.RecordChanged (Events.RecordOf z name rtype action source).

(** A computation that leaves the store and the DNS server as they are. *)
Definition quiet {A} (m : M W A) : Prop := ∀ w, w_store (m w).2 = w_store w ∧ w_pdns (m w).2 = w_pdns w.

Lemma quiet_bind {A B} (m : M W A) (k : A → M W B) : quiet m → (∀ a, quiet (k a)) → quiet (m ≫= k).
Proof.
  intros Hm Hk w. unfold mbind, M_bind. specialize (Hm w). destruct (m w) as [a w1]. simpl in Hm.
  destruct (Hk a w1) as [-> ->]. done.
Qed.
Lemma quiet_ret {A} (a : A) : quiet (mret a).
Proof. done. Qed.
Lemma quiet_metric m : quiet (metric m).
Proof. done. Qed.
Lemma quiet_publish t e p : quiet (publish t e p).
Proof. done. Qed.
Lemma quiet_audit e : quiet (record_audit e).
Proof. done. Qed.
End Calls.
#[export] Hint Resolve quiet_bind quiet_ret quiet_metric quiet_publish quiet_audit : dns.
