(* ===== verification/AuditLog.v ===== *)
(** * The audit log ([internal/audit/audit.go])

    The closed vocabulary of events and its check, the redaction of the details,
    and the writer: a bounded queue filled by [Record], emptied by a background
    loop, with [Flush] and [Close].  The writer is a step system: a step is one
    call under its lock or one round of the loop, and the steps may come in any
    order the locks and channels allow. *)
From Stdlib Require Import Ascii.
From S2P Require Import Prelude GoStrings GoError Store Authz MemStore World.
Local Open Scope Z_scope.

Module AuditLog.
Import Store.

(** ** Events *)

Definition Vocabulary : list str := [
  "zone.create" : str; "zone.update" : str; "zone.delete" : str; "zone.export" : str; "zone.notify" : str;
  "record.upsert" : str; "record.delete" : str;
  "template.create" : str; "template.update" : str; "template.delete" : str;
  "supermaster.create" : str; "supermaster.delete" : str;
  "config.update" : str; "config.apply" : str; "config.restart" : str;
  "sync.upsert" : str; "sync.delete" : str; "sync.skip" : str;
  "challenge.present" : str; "challenge.cleanup" : str; "challenge.refused" : str; "challenge.swept" : str;
  "backup.export" : str; "backup.import" : str;
  "access.refused" : str].
Definition Known (t : str) : bool := contains Vocabulary t.

Definition actorKinds : list str := [Authz.ActorUser; Authz.ActorModule; Authz.ActorIPAMSync; Authz.ActorSystem].
Definition subjectKinds : list str := ["zone" : str; "record" : str; "template" : str; "supermaster" : str; "config" : str;
  "container" : str; "sync" : str; "challenge" : str; "backup" : str; "system" : str].
Definition outcomes : list str := [AuditEvent.OutcomeOK; AuditEvent.OutcomeRefused; AuditEvent.OutcomeError].

Record Event := mkEvent {
  TenantID : str; EventType : str; ActorKind : str; ActorID : str; SubjectKind : str; SubjectID : str;
  Outcome : str; Reason : str; Details : list (str * any)
}.

(** The event a service emits, whose details are strings. *)
Definition of_service (e : AuditEvent.Event) : Event :=
  mkEvent (AuditEvent.AeTenantID e) (AuditEvent.AeType e) (AuditEvent.AeActorKind e) (AuditEvent.AeActorID e)
    (AuditEvent.AeSubjectKind e) (AuditEvent.AeSubjectID e) (AuditEvent.AeOutcome e) (AuditEvent.AeReason e)
    (map (λ '(k, v), (k, AStr v)) (AuditEvent.AeDetails e)).

Definition Validate (e : Event) : res unit :=
  if negb (Known (EventType e)) then Err (Plain ("audit: unknown event type " ++ EventType e))
  else if bool_decide (TenantID e = []) then Err (Plain "audit: tenant_id is required")
  else if negb (contains actorKinds (ActorKind e)) then Err (Plain ("audit: actor_kind " ++ ActorKind e))
  else if negb (contains subjectKinds (SubjectKind e)) then Err (Plain ("audit: subject_kind " ++ SubjectKind e))
  else if negb (contains outcomes (Outcome e)) then Err (Plain ("audit: outcome " ++ Outcome e))
  else Ok ().

(** ** Redaction *)

Definition forbidden : list str := ["api_key" : str; "apikey" : str; "x-api-key" : str; "password" : str; "token" : str;
  "secret" : str; "credential" : str; "authorization" : str; "content" : str; "value" : str; "rdata" : str; "record_data" : str;
  "file" : str; "rendered" : str; "body" : str].
Definition truncate (s : str) : str := if 256 <? Z.of_nat (length s) then take 256 s else s.

Section Redaction.
Context {U : Unicode}.

Definition forbiddenKey (k : str) : bool := let lk := ToLower k in existsb (λ f, Contains lk f) forbidden.

(** [guardMap] over the guard of the values. *)
Definition guard_entries (g : any → any) : list (str * any) → list (str * any) :=
  fix go m := match m with
  | [] => []
  | (k, v) :: m => if forbiddenKey k then go m else (k, g v) :: go m
  end.
Fixpoint guardValue (v : any) : any :=
  match v with
  | AStr s => AStr (if 256 <? Z.of_nat (length s) then take 256 s else s)
  | AMap m => AMap (guard_entries guardValue m)
  | AList l => AList (map guardValue l)
  | AOther t => AOther t
  end.
Definition guardMap (m : list (str * any)) : list (str * any) := guard_entries guardValue m.
Definition Redact (m : list (str * any)) : list (str * any) := guardMap m.
End Redaction.

(** ** The writer *)

(** What the writer needs of the store. *)
Class AuditStore (S : Type) := AppendAudit : AuditRow → S → res unit * S.
#[export] Instance mem_audit_store : AuditStore MemStore.Mem := MemStore.AppendAudit.

(** Where the loop is: at its [select], in the inner loop of a flush, or returned. *)
Inductive phase := Idle | Draining | Stopped.

Record Writer (S : Type) := mkWriter {
  st : S;                   (* the store *)
  ch : list AuditRow;       (* the rows in the channel *)
  queue : nat;              (* its capacity *)
  closed : bool;
  dropped : Z;
  errors : list error;      (* what onError was given *)
  waiting : nat;            (* the Flush calls that wait for the loop to take them *)
  loop : phase
}.
Arguments mkWriter {S}. Arguments st {S}. Arguments ch {S}. Arguments queue {S}. Arguments closed {S}. Arguments dropped {S}.
Arguments errors {S}. Arguments waiting {S}. Arguments loop {S}.

Section Writer.
Context {U : Unicode} {S : Type} {AS : AuditStore S}.
Implicit Types w : Writer S.

Definition newWriter (s : S) (cap : nat) : Writer S := mkWriter s [] cap false 0 [] 0 Idle.
Definition NewWriter (s : S) : Writer S := newWriter s (Z.to_nat 10000).

(** The row of an event, its id and time being given. *)
Definition row_of (id : str) (at_ : time) (e : Event) : AuditRow :=
  mkAuditRow id (TenantID e) at_ (ActorKind e) (ActorID e) (EventType e) (SubjectKind e) (SubjectID e) (Outcome e)
    (truncate (Reason e)) (guardMap (Details e)).

Definition Record_ (id : str) (at_ : time) (e : Event) (w : Writer S) : res unit * Writer S :=
  match Validate e with
  | Err err => (Err err, w)
  | Ok _ =>
    if closed w then
      (Err (Plain "audit: writer closed"),
       mkWriter (st w) (ch w) (queue w) (closed w) (dropped w + 1) (errors w) (waiting w) (loop w))
    else if (length (ch w) <? queue w)%nat then
      (Ok (), mkWriter (st w) (ch w ++ [row_of id at_ e]) (queue w) (closed w) (dropped w) (errors w) (waiting w) (loop w))
    else
      (Ok (), mkWriter (st w) (ch w) (queue w) (closed w) (dropped w + 1)
                (errors w ++ [Plain "audit: queue full, event dropped"]) (waiting w) (loop w))
  end.

(** The first half of [Flush]: the check under the lock, then the wait for the loop. *)
Definition Flush_call (w : Writer S) : Writer S :=
  if closed w then w
  else mkWriter (st w) (ch w) (queue w) (closed w) (dropped w) (errors w) (Datatypes.S (waiting w)) (loop w).
(** Its context is done before the loop took it. *)
Definition Flush_giveup (w : Writer S) : Writer S :=
  mkWriter (st w) (ch w) (queue w) (closed w) (dropped w) (errors w) (Nat.pred (waiting w)) (loop w).

Definition Dropped (w : Writer S) : Z := dropped w.

(** [Close] up to its wait for the loop. *)
Definition Close (w : Writer S) : Writer S :=
  if closed w then w else mkWriter (st w) (ch w) (queue w) true (dropped w) (errors w) (waiting w) (loop w).

Definition writeRow (r : AuditRow) (w : Writer S) : Writer S :=
  let '(x, s) := AppendAudit r (st w) in
  mkWriter s (ch w) (queue w) (closed w) (dropped w) (match x with Err e => errors w ++ [e] | Ok _ => errors w end) (waiting w) (loop w).

Definition set_ch (q : list AuditRow) (w : Writer S) : Writer S :=
  mkWriter (st w) q (queue w) (closed w) (dropped w) (errors w) (waiting w) (loop w).
Definition set_loop (p : phase) (n : nat) (w : Writer S) : Writer S :=
  mkWriter (st w) (ch w) (queue w) (closed w) (dropped w) (errors w) n p.

(** What a receive from the closed, empty channel gives. *)
Definition zeroRow : AuditRow := mkAuditRow [] [] 0 [] [] [] [] [] [] [] [].

(** What happens to a row: the queue takes it, it is lost, the loop hands it to
    the store.  [Spurious] is a write of a row nobody recorded. *)
Inductive obs := Accepted (r : AuditRow) | Lost (r : AuditRow) | Wrote (r : AuditRow) | Spurious.

(** One round of the loop: the row it wrote, if any, and the new state; [None]
    when it waits or has returned.  At its [select] it may take a waiting flush
    ([flush]) or receive from the channel. *)
Definition run_step (flush : bool) (w : Writer S) : option (list obs * Writer S) :=
  match loop w with
  | Stopped => None
  | Idle =>
    if flush then
      match waiting w with
      | O => None
      | Datatypes.S n => Some ([], set_loop Draining n w)
      end
    else
      match ch w with
      | r :: q => Some ([Wrote r], writeRow r (set_ch q w))
      | [] => if closed w then Some ([], set_loop Stopped (waiting w) w) else None
      end
  | Draining =>
    match ch w with
    | r :: q => Some ([Wrote r], writeRow r (set_ch q w))
    | [] => if closed w then Some ([Spurious], writeRow zeroRow w)
            else Some ([], set_loop Idle (waiting w) w)
    end
  end.

(** ** Executions *)

(** The fate of the row of a call of [Record]. *)
Definition record_obs (id : str) (at_ : time) (e : Event) (w : Writer S) : list obs :=
  match Validate e with
  | Err _ => []
  | Ok _ => if closed w then [Lost (row_of id at_ e)]
            else if (length (ch w) <? queue w)%nat then [Accepted (row_of id at_ e)] else [Lost (row_of id at_ e)]
  end.

Inductive wstep (w : Writer S) : list obs → Writer S → Prop :=
  | ws_record id at_ e : wstep w (record_obs id at_ e w) (Record_ id at_ e w).2
  | ws_flush : wstep w [] (Flush_call w)
  | ws_giveup : wstep w [] (Flush_giveup w)
  | ws_close : wstep w [] (Close w)
  | ws_run flush o w' : run_step flush w = Some (o, w') → wstep w o w'.

Inductive wrun (w : Writer S) : list obs → Writer S → Prop :=
  | wr_nil : wrun w [] w
  | wr_snoc tr w1 o w2 : wrun w tr w1 → wstep w1 o w2 → wrun w (tr ++ o) w2.

(** The rounds of the loop alone, counted. *)
Inductive loops (w : Writer S) : list obs → Writer S → nat → Prop :=
  | lp_nil : loops w [] w 0
  | lp_cons flush o w1 tr w2 n : run_step flush w = Some (o, w1) → loops w1 tr w2 n → loops w (o ++ tr) w2 (Datatypes.S n).

(** A flush that is under way when the channel is closed. *)
Definition spinning w : Prop := closed w = true ∧ loop w = Draining ∧ ch w = [].
End Writer.

(** ** The specification of the writer

    A queue that writes what it accepted in the order it accepted it, and counts
    what it lost. *)
Inductive lossy : list obs → list AuditRow → Z → Prop :=
  | lossy_new : lossy [] [] 0
  | lossy_put tr q n r : lossy tr q n → lossy (tr ++ [Accepted r]) (q ++ [r]) n
  | lossy_lose tr q n r : lossy tr q n → lossy (tr ++ [Lost r]) q (n + 1)
  | lossy_get tr q n r : lossy tr (r :: q) n → lossy (tr ++ [Wrote r]) q n.

Definition accepted (tr : list obs) : list AuditRow := omap (λ o, match o with Accepted r => Some r | _ => None end) tr.
Definition wrote (tr : list obs) : list AuditRow := omap (λ o, match o with Wrote r => Some r | _ => None end) tr.
Definition lost (tr : list obs) : list AuditRow := omap (λ o, match o with Lost r => Some r | _ => None end) tr.
Definition real (o : obs) : bool := match o with Spurious => false | _ => true end.

Lemma lossy_fifo tr q n : lossy tr q n → accepted tr = wrote tr ++ q ∧ n = Z.of_nat (length (lost tr)).
Proof.
  unfold accepted, wrote, lost. induction 1 as [|tr q n r _ [IH1 IH2]|tr q n r _ [IH1 IH2]|tr q n r _ [IH1 IH2]]; [done|..];
    rewrite !omap_app; simpl; rewrite ?app_nil_r, IH1.
  - by rewrite <- app_assoc.
  - split; [done|]. rewrite length_app. simpl. lia.
  - split; [by rewrite <- app_assoc|done].
Qed.

Section WriterSpec.
Context {U : Unicode} {S : Type} {AS : AuditStore S}.
Implicit Types w : Writer S.

(** A write changes only the store and the reported errors. *)
Lemma writeRow_frame r w :
  ch (writeRow r w) = ch w ∧ queue (writeRow r w) = queue w ∧ closed (writeRow r w) = closed w ∧
  dropped (writeRow r w) = dropped w ∧ waiting (writeRow r w) = waiting w ∧ loop (writeRow r w) = loop w.
Proof. unfold writeRow. by destruct (AppendAudit r (st w)). Qed.

(** The state of a writer after some events. *)
Record winv (cap : nat) (tr : list obs) (w : Writer S) : Prop := {
  wi_queue : queue w = cap;
  wi_bound : (length (ch w) ≤ cap)%nat;
  wi_spec : lossy (List.filter real tr) (ch w) (dropped w);
  wi_spurious : Spurious ∈ tr → spinning w
}.

Lemma winv_quiet cap tr w w' :
  winv cap tr w → queue w' = queue w → ch w' = ch w → dropped w' = dropped w → (spinning w → spinning w') → winv cap tr w'.
Proof. intros [] Hq Hc Hd Hs. split; rewrite ?Hq, ?Hc, ?Hd; auto. Qed.

Lemma winv_snoc cap tr o w w' :
  winv cap tr w → queue w' = queue w → (length (ch w') ≤ cap)%nat → (spinning w → spinning w') → real o = true →
  (∀ t, lossy t (ch w) (dropped w) → lossy (t ++ [o]) (ch w') (dropped w')) → winv cap (tr ++ [o]) w'.
Proof.
  intros [] Hq Hb Hs Ho Hl. split; [congruence|done| |].
  - rewrite List.filter_app. simpl. rewrite Ho. by apply Hl.
  - intros [?|H%list_elem_of_singleton]%elem_of_app; [auto|by rewrite <- H in Ho].
Qed.

Lemma record_winv cap tr id at_ e w : winv cap tr w → winv cap (tr ++ record_obs id at_ e w) (Record_ id at_ e w).2.
Proof.
  intros Hi. unfold record_obs, Record_. destruct (Validate e); simpl; [|by rewrite app_nil_r].
  destruct (closed w) eqn:Ec; simpl.
  { eapply winv_snoc; try done; [apply Hi| |]; [by intros (? & ? & ?)|]. intros t. apply lossy_lose. }
  assert (Hsp : ∀ P, spinning w → P) by (intros P (? & _); congruence).
  destruct (Nat.ltb_spec (length (ch w)) (queue w)) as [Hlt|]; simpl.
  - eapply winv_snoc; try done; [|by apply Hsp|intros t; apply lossy_put]. simpl. rewrite length_app. simpl.
    pose proof (wi_queue _ _ _ Hi). lia.
  - eapply winv_snoc; try done; [apply Hi|by apply Hsp|intros t; apply lossy_lose].
Qed.

Lemma run_winv cap tr flush o w w' : winv cap tr w → run_step flush w = Some (o, w') → winv cap (tr ++ o) w'.
Proof.
  intros Hi. unfold run_step.
  assert (Hwr : ∀ r q, ch w = r :: q → winv cap (tr ++ [Wrote r]) (writeRow r (set_ch q w))).
  { intros r q Eq. destruct (writeRow_frame r (set_ch q w)) as (Hc & Hq & Hcl & Hd & Hw & Hl). eapply winv_snoc; [exact Hi|done| | |done|].
    - pose proof (wi_bound _ _ _ Hi). rewrite Eq in *. rewrite Hc. simpl in *. lia.
    - intros (_ & _ & H). congruence.
    - intros t. rewrite Eq, Hc, Hd. apply lossy_get. }
  assert (Hq : ∀ p n, (spinning w → p = Draining) → winv cap (tr ++ []) (set_loop p n w)).
  { intros p n Hp. rewrite app_nil_r. eapply winv_quiet; [exact Hi|done..|]. intros Hs. specialize (Hp Hs). destruct Hs as (? & ? & ?). by subst. }
  destruct (loop w) eqn:El; [destruct flush| |done].
  - destruct (waiting w); [done|]. intros [= <- <-]. by apply Hq.
  - destruct (ch w) as [|r q] eqn:Eq; [destruct (closed w); [|done]|]; intros [= <- <-]; [|by apply Hwr].
    apply Hq. intros (_ & ? & _). congruence.
  - destruct (ch w) as [|r q] eqn:Eq; [destruct (closed w) eqn:Ec|]; intros [= <- <-]; [| |by apply Hwr].
    + destruct (writeRow_frame zeroRow w) as (Hch & Hqu & Hcl & Hd & Hw & Hl). destruct Hi as [H1 H2 H3 H4].
      split; [congruence|by rewrite Hch| |].
      * rewrite List.filter_app. simpl. by rewrite app_nil_r, Hch, Hd.
      * intros _. unfold spinning. by rewrite Hch, Hcl, Hl, Eq, Ec.
    + apply Hq. intros (? & _). congruence.
Qed.

Lemma wrun_winv s cap tr w : wrun (newWriter s cap) tr w → winv cap tr w.
Proof.
  induction 1 as [|tr w1 o w2 _ IH Hs]; [split; simpl; [done|lia|constructor|set_solver]|].
  destruct Hs; [by apply record_winv|rewrite app_nil_r..|by eapply run_winv].
  - unfold Flush_call. destruct (closed w1) eqn:E; [done|]. eapply winv_quiet; [exact IH|done..|by intros (? & _); congruence].
  - eapply winv_quiet; [exact IH|done..|done].
  - unfold Close. destruct (closed w1) eqn:E; [done|]. eapply winv_quiet; [exact IH|done..|by intros (? & _); congruence].
Qed.

(** C33: the writer refines a lossy first-in-first-out queue: through any
    interleaving of recordings, flushes, the closing and the loop, the rows it
    hands to the store are, in order, the rows it accepted less those still in
    its queue; every other valid event is counted as dropped; the queue never
    exceeds its capacity; and a row nobody recorded is written only when a flush
    was under way as the writer was closed. *)
Theorem writer_refines s cap tr w :
  wrun (newWriter s cap) tr w →
  lossy (List.filter real tr) (ch w) (dropped w) ∧ accepted tr = wrote tr ++ ch w ∧ Dropped w = Z.of_nat (length (lost tr)) ∧
  (length (ch w) ≤ cap)%nat ∧ (Spurious ∈ tr → spinning w).
Proof.
  intros [Hq Hb Hl Hs]%wrun_winv. split; [done|]. apply lossy_fifo in Hl as [Ha Hn].
  assert (Hf : ∀ {A} (f : obs → option A), f Spurious = None → omap f (List.filter real tr) = omap f tr).
  { intros A f Hf. clear -Hf. induction tr as [|o tr IH]; [done|]. destruct o; csimpl; rewrite ?Hf, IH; done. }
  unfold accepted, wrote, lost in *. rewrite !Hf in * by done. by split_and!.
Qed.

(** Rounds of the loop once the writer is closed and no flush waits. *)
Lemma closed_round w flush o w' :
  closed w = true → waiting w = 0%nat → loop w = Idle → run_step flush w = Some (o, w') →
  (∃ r q, ch w = r :: q ∧ o = [Wrote r] ∧ ch w' = q ∧ closed w' = true ∧ waiting w' = 0%nat ∧ loop w' = Idle) ∨
  (ch w = [] ∧ o = [] ∧ ch w' = [] ∧ loop w' = Stopped).
Proof.
  intros Hc Hw Hl. unfold run_step. rewrite Hl, Hc, Hw. destruct flush; [done|]. destruct (ch w) as [|r q] eqn:E; intros [= <- <-].
  - right. split_and!; auto.
  - left. exists r, q. destruct (writeRow_frame r (set_ch q w)) as (-> & _ & -> & _ & -> & ->). by split_and!.
Qed.

Lemma stopped_loops w tr w' n : loop w = Stopped → loops w tr w' n → tr = [] ∧ w' = w ∧ n = 0%nat.
Proof. intros Hl H. destruct H as [|flush o w1 tr w2 n H _]; [done|]. unfold run_step in H. by rewrite Hl in H. Qed.

Lemma closed_loops w tr w' n :
  closed w = true → waiting w = 0%nat → loop w = Idle → loops w tr w' n →
  (n ≤ length (ch w) + 1)%nat ∧ ((∀ flush, run_step flush w' = None) → loop w' = Stopped ∧ ch w' = [] ∧ tr = map Wrote (ch w)).
Proof.
  intros Hc Hw Hl H. induction H as [|w flush o w1 tr w2 n H Hr IH].
  { split; [lia|]. intros Hn. specialize (Hn false). unfold run_step in Hn. rewrite Hl, Hc in Hn. by destruct (ch w). }
  destruct (closed_round _ _ _ _ Hc Hw Hl H) as [(r & q & E & -> & E1 & Hc1 & Hw1 & Hl1)|(E & -> & E1 & Hl1)].
  - destruct (IH Hc1 Hw1 Hl1) as [IH1 IH2]. rewrite E, E1 in *. split; [simpl; lia|]. intros Hn. by destruct (IH2 Hn) as (? & ? & ->).
  - apply stopped_loops in Hr as (-> & -> & ->); [|done]. rewrite E. simpl. split; [lia|]. intros _. by split_and!.
Qed.

Lemma closed_completes w :
  closed w = true → waiting w = 0%nat → loop w = Idle → ∃ tr w' n, loops w tr w' n ∧ ∀ flush, run_step flush w' = None.
Proof.
  remember (ch w) as q eqn:E. revert w E. induction q as [|r q IH]; intros w E Hc Hw Hl.
  - exists ([] ++ []), (set_loop Stopped (waiting w) w), 1%nat. split; [|done]. eapply (lp_cons _ false); [|constructor].
    unfold run_step. by rewrite Hl, <- E, Hc.
  - destruct (writeRow_frame r (set_ch q w)) as (H1 & _ & H2 & _ & H3 & H4).
    destruct (IH (writeRow r (set_ch q w))) as (tr & w' & n & Hr & Hn); [by rewrite H1|by rewrite H2|by rewrite H3|by rewrite H4|].
    exists ([Wrote r] ++ tr), w', (Datatypes.S n). split; [|done]. eapply (lp_cons _ false); [|exact Hr]. unfold run_step. by rewrite Hl, <- E.
Qed.


(** A flush under way when the channel is closed never ends: the loop writes the
    empty row for ever. *)
Lemma spinning_round w flush : spinning w → run_step flush w = Some ([Spurious], writeRow zeroRow w) ∧ spinning (writeRow zeroRow w).
Proof.
  intros (Hc & Hl & Hq). unfold run_step. rewrite Hl, Hq, Hc. split; [done|].
  destruct (writeRow_frame zeroRow w) as (H1 & _ & H2 & _ & _ & H3). unfold spinning. by rewrite H1, H2, H3.
Qed.
Theorem spinning_forever w n : spinning w → ∃ w', loops w (replicate n Spurious) w' n ∧ spinning w'.
Proof.
  revert w. induction n as [|n IH]; intros w Hs; [exists w; split; [apply lp_nil|done]|].
  destruct (spinning_round w false Hs) as [Hr Hs']. destruct (IH _ Hs') as (w' & Hl & Hw). exists w'. split; [|done].
  change (replicate (Datatypes.S n) Spurious) with ([Spurious] ++ replicate n Spurious). by econstructor.
Qed.
End WriterSpec.

(** ** The specification of the redaction

    A position in a document: keys of maps and indices of lists. *)
Inductive pos := PKey (k : str) | PIdx (i : nat).
Definition entry (m : list (str * any)) (k : str) : option any :=
  match find_first (λ kv, bool_decide (kv.1 = k)) m with Some (_, v) => Some v | None => None end.
Definition child (v : any) (p : pos) : option any :=
  match v, p with
  | AMap m, PKey k => entry m k
  | AList l, PIdx i => l !! i
  | _, _ => None
  end.
Fixpoint at_path (v : any) (p : list pos) : option any :=
  match p with
  | [] => Some v
  | x :: p => match child v x with Some v => at_path v p | None => None end
  end.

Section RedactionSpec.
Context {U : Unicode}.
Definition hidden (p : pos) : bool := match p with PKey k => forbiddenKey k | PIdx _ => false end.

Lemma entry_guard m k : entry (guard_entries guardValue m) k = if forbiddenKey k then None else guardValue <$> entry m k.
Proof.
  unfold entry. induction m as [|[k' v] m IH]; simpl; [by destruct (forbiddenKey k)|].
  destruct (decide (k' = k)) as [->|Hk].
  - rewrite (bool_decide_eq_true_2 (k = k)) by done. destruct (forbiddenKey k) eqn:E; [by rewrite IH|]. simpl. by rewrite bool_decide_eq_true_2.
  - rewrite (bool_decide_eq_false_2 (k' = k)) by done. destruct (forbiddenKey k'); [done|]. simpl. by rewrite bool_decide_eq_false_2.
Qed.

Lemma child_guard v p : child (guardValue v) p = if hidden p then None else guardValue <$> child v p.
Proof.
  destruct v as [s|m|l|t], p as [k|i]; simpl; try (by destruct (forbiddenKey _)); try done.
  - apply entry_guard.
  - apply list_lookup_fmap.
Qed.

Lemma at_path_guard p v : at_path (guardValue v) p = if existsb hidden p then None else guardValue <$> at_path v p.
Proof.
  revert v. induction p as [|x p IH]; intros v; [done|]. simpl. rewrite child_guard. destruct (hidden x); [done|]. simpl.
  destruct (child v x); simpl; [apply IH|]. by destruct (existsb hidden p).
Qed.

(** A key that contains a forbidden name, whatever its letter case. *)
Definition secret (p : pos) : Prop :=
  match p with PKey k => ∃ f a b, f ∈ forbidden ∧ ToLower k = a ++ f ++ b | PIdx _ => False end.
(** What a kept position shows of the value it held. *)
Inductive shows : any → any → Prop :=
  | shows_str s : shows (AStr s) (AStr (take 256 s))
  | shows_map m m' : shows (AMap m) (AMap m')
  | shows_list l l' : length l' = length l → shows (AList l) (AList l')
  | shows_other t : shows (AOther t) (AOther t).

Lemma hidden_spec x : hidden x = true ↔ secret x.
Proof.
  destruct x as [k|i]; [|done]. cbn [hidden secret]. unfold forbiddenKey. rewrite existsb_exists. setoid_rewrite Contains_spec. setoid_rewrite <- list_elem_of_In.
  naive_solver.
Qed.
Lemma existsb_hidden p : existsb hidden p = true ↔ ∃ x, x ∈ p ∧ secret x.
Proof. rewrite existsb_exists. setoid_rewrite hidden_spec. by setoid_rewrite <- list_elem_of_In. Qed.
Lemma guardValue_shows v : shows v (guardValue v).
Proof.
  destruct v as [s|m|l|t]; cbn [guardValue]; [|constructor|constructor; apply length_map|constructor].
  destruct (Z.ltb_spec 256 (Z.of_nat (length s))); [constructor|]. rewrite <- (take_ge s 256) at 2 by lia. constructor.
Qed.

(** C35: redaction hides exactly what it must, at any depth: a position whose
    path has a key that contains a forbidden name (the letter case does not
    matter) is gone, every other position shows what it held, strings cut to 256
    bytes; redacting again changes nothing. *)
Theorem Redact_spec m :
  (∀ p, (∃ x, x ∈ p ∧ secret x) → at_path (AMap (Redact m)) p = None) ∧
  (∀ p, ¬ (∃ x, x ∈ p ∧ secret x) → option_Forall2 shows (at_path (AMap m) p) (at_path (AMap (Redact m)) p)) ∧
  Redact (Redact m) = Redact m.
Proof.
  split; [|split].
  - intros p Hp%existsb_hidden. change (AMap (Redact m)) with (guardValue (AMap m)). by rewrite at_path_guard, Hp.
  - intros p Hp. change (AMap (Redact m)) with (guardValue (AMap m)). rewrite at_path_guard.
    rewrite <- existsb_hidden in Hp. apply not_true_iff_false in Hp as ->. destruct (at_path (AMap m) p); constructor. apply guardValue_shows.
  - enough (H : ∀ v, guardValue (guardValue v) = guardValue v) by (specialize (H (AMap m)); by injection H).
    fix guard_idem 1. intros [s|l|l|t]; simpl; [| | |done].
    + f_equal. destruct (256 <? Z.of_nat (length s)) eqn:E; [|by rewrite E]. destruct (256 <? Z.of_nat (length (take 256 s))); [|done]. by rewrite take_take.
    + f_equal. revert l. fix go 1. intros [|[k v] l]; [done|]. simpl. destruct (forbiddenKey k) eqn:E; [apply go|]. simpl. rewrite E.
      by rewrite guard_idem, go.
    + f_equal. revert l. fix go 1. intros [|v l]; [done|]. simpl. by rewrite guard_idem, go.
Qed.
End RedactionSpec.

(** ** Witnesses *)
Module Concrete.
#[local] Existing Instance unicode_min.
Definition mem0 : MemStore.Mem := MemStore.NewMem 0.
Definition ev (tenant : str) : Event :=
  mkEvent tenant "zone.create" Authz.ActorUser "u1" "zone" "z1" AuditEvent.OutcomeOK [] [("zone" : str, AStr "example.com."); ("API_Key" : str, AStr "k")].
Definition w1 := (Record_ "i1" 5 (ev "t1") (newWriter mem0 1)).2.
Definition w2 := (Record_ "i2" 6 (ev "t1") w1).2.

Lemma writer_refines_witness : Dropped w2 = 1 ∧ ch w2 = ch w1.
Proof.
  assert (H : wrun (newWriter mem0 1) (([] ++ record_obs "i1" 5 (ev "t1") (newWriter mem0 1)) ++ record_obs "i2" 6 (ev "t1") w1) w2).
  { eapply wr_snoc; [eapply wr_snoc; [apply wr_nil|apply ws_record]|apply ws_record]. }
  destruct (writer_refines _ _ _ _ H) as (_ & _ & Hd & _). split; [exact Hd|reflexivity].
Defined.


(** A flush that the loop has taken when the writer is closed: after the queued
    row come empty rows, without end. *)
Definition racing : Writer MemStore.Mem :=
  match run_step true (Flush_call w1) with
  | Some (_, w) => match run_step false (Close w) with Some (_, w) => w | None => w1 end
  | None => w1
  end.
Example flush_close_race : spinning racing ∧ length (MemStore.audit (MemStore.db (st racing))) = 1%nat.
Proof. vm_compute. by repeat split. Qed.
End Concrete.
End AuditLog.
