(* ===== verification/Zones.v ===== *)
(** * The zone lifecycle ([internal/zones/zones.go])

    The service that creates, changes and deletes tenant-owned zones on the
    shared PowerDNS server: ownership checks against the store and the server,
    PowerDNS first, then the local row, with compensation when the second write
    fails.  [create] is the composition of its checks ([create_check]) and its
    writes ([create_commit]), the two parts between which concurrent requests
    interleave. *)
From Stdlib Require Import Ascii.
From S2P Require Import Prelude GoStrings GoError Store Names Masters Authz MemStore Pdns Recursor World.
Local Open Scope Z_scope.

(** What the zone service needs of the template service: the rrsets of a
    template for a zone, read from the store. *)
Class TemplateExpander `{U : Unicode} (S : Type) `{RS : MemStore.RepoStore S} := {
  Expand : str → str → str → S → res (list Pdns.RRset) * S;
  Expand_reads t i z s : MemStore.repo_db (Expand t i z s).2 = MemStore.repo_db s
}.

Module Zones.
Import Store.

Definition MaxDescription : Z := 1000.
Definition MaxNameservers : Z := 16.

Record CreateInput := mkCreateInput {
  CName : str; CKind : str; CMasters : list str; CNameservers : list str; CDNSSEC : bool;
  CDescription : str; CTemplateID : str; COrigin : str; CRRsets : list Pdns.RRset
}.
Record UpdateInput := mkUpdateInput {
  UKind : option str; UMasters : option (list str); UDNSSEC : option bool; UDescription : option str
}.
Record Detail := mkDetail { DZone : Zone; DSerial : option Z; DNotifiedSerial : option Z }.

(** The configuration of the service ([Deps] without the components). *)
Record Config := mkConfig {
  cChecker : option Authz.Checker; cTemplates : bool; cMaxExportBytes : Z; cNewID : nat → str
}.

Definition Result (r : option error) : str :=
  match r with
  | None => Metrics.ResultOK
  | Some e =>
    if Is e PdnsErrNotFound then Metrics.ResultNotFound
    else if Is e PdnsErrConflict then Metrics.ResultConflict
    else if Is e PdnsErrUnavailable || Is e RecursorErrUnavailable then Metrics.ResultUnavailable
    else Metrics.ResultError
  end.

(** A 4xx refusal of PowerDNS other than 404 and 409 becomes [ErrRejected]. *)
Definition mapPDNS (e : error) : error :=
  match asAPIError e with
  | Some st => if (400 <=? st) && (st <? 500) && negb (Is e PdnsErrNotFound) && negb (Is e PdnsErrConflict)
               then Wrapf (New ErrRejected) ("(status " ++ Itoa st ++ ")") else e
  | None => e
  end.

Fixpoint first_reason (l : list (sentinel * str)) (e : error) : str :=
  match l with
  | [] => "error"
  | (s, r) :: l => if Is e s then r else first_reason l e
  end.
Definition reasonOf : error → str := first_reason
  [(ErrDuplicate, "duplicate" : str); (ErrInvalidKind, "invalid_kind" : str); (ZonesErrInvalid, "bad_request" : str);
   (ErrRejected, "bad_request" : str); (ErrTemplateNotFound, "template_not_found" : str); (ErrName, "invalid_name" : str);
   (ErrMasters, "bad_request" : str); (PdnsErrUnavailable, "pdns_unavailable" : str); (ErrExportTooLarge, "bad_request" : str);
   (ZonesErrNotFound, "zone_not_found" : str)].
Definition outcomeOf (e : error) : str :=
  if bool_decide (reasonOf e = "error") || Is e PdnsErrUnavailable then AuditEvent.OutcomeError else AuditEvent.OutcomeRefused.

Definition checkDescription (d : str) : res unit :=
  if MaxDescription <? RuneCountInString d
  then Err (Wrapf (New ZonesErrInvalid) ("the description is longer than " ++ Itoa MaxDescription ++ " characters"))
  else Ok ().

(** Secondary kinds need a primary, the others take none. *)
Definition kindMasters (kind : str) (masters : list str) : res (list str) :=
  if negb (ValidKind kind) then Err (Wrapf (New ErrInvalidKind) "unknown zone kind")
  else
    m ← Masters.Masters masters;
    if NeedsMasters kind && bool_decide (m = [])
    then Err (Wrapf (New ErrInvalidKind) (kind ++ " zones need at least one primary"))
    else if negb (NeedsMasters kind) && negb (bool_decide (m = []))
    then Err (Wrapf (New ErrMasters) "primaries apply to slave and consumer zones only")
    else Ok m.

Section Pure.
Context {U : Unicode} {DNS : MiekgDNS}.

Fixpoint ns_loop (l seen : list str) : res (list str) :=
  match l with
  | [] => Ok []
  | n :: l =>
    h ← Validate.Hostname n;
    if bool_decide (h ∈ seen) then ns_loop l seen
    else rest ← ns_loop l (h :: seen); Ok (h :: rest)
  end.
Definition nameservers (kind : str) (l : list str) : res (list str) :=
  if NeedsMasters kind then Ok []
  else if MaxNameservers <? Z.of_nat (length l)
  then Err (Wrapf (New ZonesErrInvalid) ("at most " ++ Itoa MaxNameservers ++ " nameservers"))
  else ns_loop l [].

(** The index of the last apex NS set. *)
Fixpoint apex_ns (zone : str) (i : nat) (rrsets : list Pdns.RRset) (idx : option nat) : option nat :=
  match rrsets with
  | [] => idx
  | r :: rs => apex_ns zone (S i) rs
                 (if bool_decide (Pdns.RName r = zone) && EqualFold (Pdns.RType r) "NS" then Some i else idx)
  end.
Fixpoint add_ns (seen l : list str) : list Pdns.Record_ :=
  match l with
  | [] => []
  | n :: l => if bool_decide (n ∈ seen) then add_ns seen l else Pdns.mkRecord n false :: add_ns (n :: seen) l
  end.
Definition mergeApexNS (zone : str) (rrsets : list Pdns.RRset) (ns : list str) : list Pdns.RRset * list str :=
  match apex_ns zone 0 rrsets None with
  | None => (rrsets, ns)
  | Some idx =>
    if bool_decide (ns = []) then (rrsets, ns)
    else (alter (λ r, Pdns.mkRRset (Pdns.RName r) (Pdns.RType r) (Pdns.RTTL r) (Pdns.RChangeType r)
                        (Pdns.RRecords r ++ add_ns (map (λ x, ToLower (Pdns.RecContent x)) (Pdns.RRecords r)) ns)
                        (Pdns.RComments r)) idx rrsets, [])
  end.

Definition canonicalFQDN (s : str) : option str :=
  let n := Fqdn (ToLower (TrimSpace s)) in
  if IsDomainName n && negb (bool_decide (n = ".")) && negb (Contains n "..") then Some n else None.

Definition metadata (z : Zone) : Pdns.Zone :=
  Pdns.mkZone [] (Name z) (PDNSKind (Kind z)) 0 0 (Masters z) (DNSSEC z) [] (TenantID z) [].
End Pure.

(** ** The service *)

Section Service.
Context {U : Unicode} {DNS : MiekgDNS} {PSL : PublicSuffixList}.
Context {S P R : Type} {RS : MemStore.RepoStore S} {PC : Pdns.PDNSClient P} {RC : RecursorClient R}.
Context {TE : TemplateExpander S}.
Context (cfg : Config).
Abbreviation W := (World S P R).

(** The caller may use the permission within its tenant; users are checked
    here only when a checker is wired. *)
Definition guard (subj : Authz.Subjects) (perm : str) : res unit :=
  if bool_decide (Authz.STenantID subj = []) then Err (Authz.forbidden "tenant required")
  else match cChecker cfg with
  | None => if bool_decide (Authz.ActorKind subj = Authz.ActorUser) then Ok () else Authz.Require_ None subj perm
  | c => Authz.Require_ c subj perm
  end.

(** One PowerDNS call with its outcome metric. *)
Definition Call {A} (op : str) (f : P → res A * P) : M W (res A) :=
  r ← on_pdns f; _ ← metric (Metrics.PDNSCall op (Result (err_of r))); mret r.

Definition audit (subj : Authz.Subjects) (t id name outcome : str) (e : option error) : M W unit :=
  record_audit (AuditEvent.mkEvent (Authz.STenantID subj) t (AuditEvent.ActorOf (Authz.ActorKind subj)) (Authz.ActorID subj)
    AuditEvent.SubjectZone id outcome (match e with Some e => reasonOf e | None => [] end) [("zone" : str, name)]).

Definition syncForward (name : str) : M W unit := λ w,
  match w_rec w with
  | None => ((), w)
  | Some r => let '(x, r) := rec_SyncForward name r in
              metric (Metrics.RecursorSync (Result (err_of x))) (set_rec r w)
  end.
Definition removeForward (name : str) : M W unit := λ w,
  match w_rec w with
  | None => ((), w)
  | Some r => let '(x, r) := rec_RemoveForward name r in
              metric (Metrics.RecursorSync (Result (err_of x))) (set_rec r w)
  end.

Definition zeroZone : Zone := mkZone [] [] [] [] [] [] false [] [] [] [] [] 0 0.

(** The zone is returned with the error: the audit record names it. *)
Definition prepare (subj : Authz.Subjects) (i : CreateInput) : M W (Zone * option error) :=
  match Validate.ZoneName (CName i) with
  | Err e => mret (zeroZone, Some e)
  | Ok name =>
    id ← mint (cNewID cfg);
    let kind := ToLower (TrimSpace (CKind i)) in
    let mk masters ns origin :=
      mkZone id (Authz.STenantID subj) name name kind masters (CDNSSEC i) (TrimSpace (CDescription i)) (CTemplateID i)
        origin ns (Authz.ActorID subj) 0 0 in
    match kindMasters kind (CMasters i) with
    | Err e => mret (mk [] [] OriginManual, Some e)
    | Ok masters =>
      match nameservers kind (CNameservers i) with
      | Err e => mret (mk masters [] OriginManual, Some e)
      | Ok ns =>
        let z := mk masters ns OriginManual in
        match checkDescription (Description z) with
        | Err e => mret (z, Some e)
        | Ok _ =>
          if bool_decide (COrigin i = []) || bool_decide (COrigin i = OriginManual) then mret (z, None)
          else if bool_decide (COrigin i = OriginIPAM) then
            if Authz.IsHuman subj
            then mret (z, Some (Wrapf (New ZonesErrInvalid) "the ipam origin is reserved for the IPAM sync"))
            else mret (mk masters ns OriginIPAM, None)
          else mret (z, Some (Wrapf (New ZonesErrInvalid) "unknown origin"))
        end
      end
    end
  end.

(** The initial rrsets: the caller's, then the template's. *)
Definition initial_rrsets (z : Zone) (i : CreateInput) : M W (res (list Pdns.RRset)) :=
  if bool_decide (TemplateID z = []) then mret (Ok (CRRsets i))
  else if NeedsMasters (Kind z)
  then mret (Err (Wrapf (New ErrInvalidKind) "templates apply to native, master and producer zones"))
  else if negb (cTemplates cfg) then mret (Err (New ErrTemplateNotFound))
  else tpl ←? on_store (Expand (TenantID z) (TemplateID z) (Name z)); mret (Ok (CRRsets i ++ tpl)).

(** The ownership rules: not a zone of the tenant, no overlap with another
    tenant's, not on the server. *)
Definition create_check (z : Zone) (i : CreateInput) : M W (res (list Pdns.RRset)) :=
  rrsets ←? initial_rrsets z i;
  mine ← on_store (MemStore.repo_GetZoneByName (TenantID z) (Name z));
  match mine with
  | Ok _ => mret (Err (New ErrDuplicate))
  | Err e =>
    if negb (Is e RepoErrNotFound) then mret (Err e)
    else
      taken ←? on_store (MemStore.repo_ZoneConflict (TenantID z) (Name z));
      if (taken : bool) then mret (Err (New ErrDuplicate))
      else
        there ← Call "GetZone" (Pdns.pdns_GetZone (Name z));
        match there with
        | Ok _ => mret (Err (Wrapf (New ErrDuplicate) "the zone exists on the DNS server"))
        | Err e => if negb (Is e PdnsErrNotFound) then mret (Err (mapPDNS e)) else mret (Ok rrsets)
        end
  end.

(** PowerDNS, then the local row; if the row cannot be written the PowerDNS
    zone is deleted again. *)
Definition create_commit (z : Zone) (rrsets : list Pdns.RRset) : M W (Zone * option error) :=
  let '(rrsets, ns) := mergeApexNS (Name z) rrsets (Nameservers z) in
  created ← Call "CreateZone" (Pdns.pdns_CreateZone
    (Pdns.mkZone [] (Name z) (PDNSKind (Kind z)) 0 0 (Masters z) (DNSSEC z) ns (TenantID z) rrsets));
  match created with
  | Err e => mret (z, Some (if Is e PdnsErrConflict then New ErrDuplicate else mapPDNS e))
  | Ok c =>
    t ← now;
    let z := mkZone (ID z) (TenantID z) (Name z) (if bool_decide (Pdns.PID c = []) then PDNSID z else Pdns.PID c) (Kind z)
               (Masters z) (DNSSEC z) (Description z) (TemplateID z) (Origin z) (Nameservers z) (CreatedBy z) t t in
    ins ← on_store (MemStore.repo_CreateZone z);
    match ins with
    | Ok _ => mret (z, None)
    | Err e =>
      _ ← Call "DeleteZone" (Pdns.pdns_DeleteZone (PDNSID z));
      mret (z, Some (if Is e RepoErrConflict then New ErrDuplicate else e))
    end
  end.

Definition create (subj : Authz.Subjects) (i : CreateInput) : M W (Zone * option error) :=
  '(z, e) ← prepare subj i;
  match e with
  | Some e => mret (z, Some e)
  | None =>
    r ← create_check z i;
    match r with
    | Err e => mret (z, Some e)
    | Ok rrsets => create_commit z rrsets
    end
  end.

Definition Create (subj : Authz.Subjects) (i : CreateInput) : M W (res Zone) :=
  match guard subj Authz.ZonesManage with
  | Err e => mret (Err e)
  | Ok _ =>
    '(z, e) ← create subj i;
    match e with
    | Some e => _ ← audit subj "zone.create" (ID z) (Name z) (outcomeOf e) (Some e); mret (Err e)
    | None =>
      _ ← audit subj "zone.create" (ID z) (Name z) AuditEvent.OutcomeOK None;
      _ ← EmitZone Events.ZoneCreated z (Authz.ActorKind subj);
      _ ← syncForward (Name z);
      mret (Ok z)
    end
  end.

Definition owned (subj : Authz.Subjects) (id : str) : M W (res Zone) :=
  r ← on_store (MemStore.repo_GetZone (Authz.STenantID subj) id);
  mret match r with
       | Ok z => Ok z
       | Err e => if Is e RepoErrNotFound then Err (New ZonesErrNotFound) else Err e
       end.

Definition Owned (subj : Authz.Subjects) (id : str) : M W (res Zone) :=
  match guard subj Authz.ZonesRead with Err e => mret (Err e) | Ok _ => owned subj id end.

Definition Get (subj : Authz.Subjects) (id : str) : M W (res Detail) :=
  z ←? Owned subj id;
  r ← Call "GetZone" (Pdns.pdns_GetZone (PDNSID z));
  mret match r with
       | Ok pz => Ok (mkDetail z (Some (Pdns.PSerial pz)) (Some (Pdns.PNotifiedSerial pz)))
       | Err _ => Ok (mkDetail z None None)
       end.

(** One page of the tenant's zones ([nil] and empty lists are one here, so the
    [view] of a zone is the zone). *)
Definition List_ {LQ : ListQuery} (subj : Authz.Subjects) (f : ZoneFilter) (req : Request) : M W (res (list Zone * Z * Request)) :=
  match guard subj Authz.ZonesRead with
  | Err e => mret (Err e)
  | Ok _ => on_store (MemStore.repo_ListZones (Authz.STenantID subj) f req)
  end.

Definition ByName (subj : Authz.Subjects) (name : str) : M W (res Zone) :=
  match guard subj Authz.ZonesRead with
  | Err e => mret (Err e)
  | Ok _ =>
    match canonicalFQDN name with
    | None => mret (Err (New ZonesErrNotFound))
    | Some n =>
      r ← on_store (MemStore.repo_GetZoneByName (Authz.STenantID subj) n);
      mret match r with
           | Ok z => Ok z
           | Err e => if Is e RepoErrNotFound then Err (New ZonesErrNotFound) else Err e
           end
    end
  end.

Definition FindForName (subj : Authz.Subjects) (fqdn : str) : M W (res Zone) :=
  match guard subj Authz.ZonesRead with
  | Err e => mret (Err e)
  | Ok _ =>
    match canonicalFQDN fqdn with
    | None => mret (Err (New ZonesErrNotFound))
    | Some n =>
      all ←? on_store (MemStore.repo_ZonesForTenant (Authz.STenantID subj));
      mret match LongestZone all n with Some z => Ok z | None => Err (New ZonesErrNotFound) end
    end
  end.

(** The row the update asks for, validated. *)
Definition next_zone (prev : Zone) (i : UpdateInput) : res Zone :=
  let kind := match UKind i with Some k => ToLower (TrimSpace k) | None => Kind prev end in
  let masters := match UMasters i with
                 | Some m => m
                 | None => if negb (NeedsMasters kind) then [] else Masters prev end in
  m ← kindMasters kind masters;
  let desc := match UDescription i with Some d => TrimSpace d | None => Description prev end in
  _ ← match UDescription i with Some _ => checkDescription desc | None => Ok () end;
  Ok (mkZone (ID prev) (TenantID prev) (Name prev) (PDNSID prev) kind m
        (match UDNSSEC i with Some b => b | None => DNSSEC prev end) desc (TemplateID prev) (Origin prev)
        (Nameservers prev) (CreatedBy prev) (CreatedAt prev) (UpdatedAt prev)).

Definition metaChanged (prev next : Zone) : bool :=
  negb (bool_decide (Kind next = Kind prev)) || negb (Bool.eqb (DNSSEC next) (DNSSEC prev))
  || negb (bool_decide (Masters next = Masters prev)).

(** PowerDNS metadata when it changes, then the row; if the row cannot be
    written the previous metadata is put back. *)
Definition update (prev : Zone) (i : UpdateInput) : M W (res Zone) :=
  match next_zone prev i with
  | Err e => mret (Err e)
  | Ok next =>
    pushed ← (if metaChanged prev next
              then Call "UpdateZoneMetadata" (Pdns.pdns_UpdateZoneMetadata (PDNSID prev) (metadata next))
              else mret (Ok ()));
    match pushed with
    | Err e => mret (Err (mapPDNS e))
    | Ok _ =>
      t ← now;
      saved ← on_store (MemStore.repo_UpdateZone
        (mkZone (ID next) (TenantID next) (Name next) (PDNSID next) (Kind next) (Masters next) (DNSSEC next)
           (Description next) (TemplateID next) (Origin next) (Nameservers next) (CreatedBy next) (CreatedAt next) t));
      match saved with
      | Ok z => mret (Ok z)
      | Err e =>
        _ ← (if metaChanged prev next
             then Call "UpdateZoneMetadata" (Pdns.pdns_UpdateZoneMetadata (PDNSID prev) (metadata prev))
             else mret (Ok ()));
        mret (Err e)
      end
    end
  end.

Definition Update (subj : Authz.Subjects) (id : str) (i : UpdateInput) : M W (res Zone) :=
  match guard subj Authz.ZonesManage with
  | Err e => mret (Err e)
  | Ok _ =>
    prev ←? owned subj id;
    r ← update prev i;
    match r with
    | Err e => _ ← audit subj "zone.update" (ID prev) (Name prev) (outcomeOf e) (Some e); mret (Err e)
    | Ok next =>
      _ ← audit subj "zone.update" (ID next) (Name next) AuditEvent.OutcomeOK None;
      _ ← EmitZone Events.ZoneUpdated next (Authz.ActorKind subj);
      mret (Ok next)
    end
  end.

Definition delete_ (z : Zone) : M W (res unit) :=
  r ← Call "DeleteZone" (Pdns.pdns_DeleteZone (PDNSID z));
  match (match r with Err e => if Is e PdnsErrNotFound then None else Some e | Ok _ => None end) with
  | Some e => mret (Err (mapPDNS e))
  | None =>
    _ ← removeForward (Name z);
    _ ←? on_store (MemStore.repo_ClearSyncZone (TenantID z) (ID z));
    on_store (MemStore.repo_DeleteZone (TenantID z) (ID z))
  end.

Definition Delete (subj : Authz.Subjects) (id : str) : M W (res unit) :=
  match guard subj Authz.ZonesManage with
  | Err e => mret (Err e)
  | Ok _ =>
    z ←? owned subj id;
    r ← delete_ z;
    match r with
    | Err e => _ ← audit subj "zone.delete" (ID z) (Name z) (outcomeOf e) (Some e); mret (Err e)
    | Ok _ =>
      _ ← audit subj "zone.delete" (ID z) (Name z) AuditEvent.OutcomeOK None;
      _ ← EmitZone Events.ZoneDeleted z (Authz.ActorKind subj);
      mret (Ok ())
    end
  end.

(** The export is (zone name, text). *)
Definition Export (subj : Authz.Subjects) (id : str) : M W (res (str * str)) :=
  match guard subj Authz.ZonesManage with
  | Err e => mret (Err e)
  | Ok _ =>
    z ←? owned subj id;
    r ← Call "ExportZone" (Pdns.pdns_ExportZone (PDNSID z));
    match (match r with
           | Ok text => if cMaxExportBytes cfg <? Z.of_nat (length text)
                        then Err (Wrapf (New ErrExportTooLarge) ("more than " ++ Itoa (cMaxExportBytes cfg) ++ " bytes"))
                        else Ok text
           | Err e => Err e end) with
    | Err e =>
      let e := mapPDNS e in
      _ ← audit subj "zone.export" (ID z) (Name z) (outcomeOf e) (Some e); mret (Err e)
    | Ok text =>
      _ ← audit subj "zone.export" (ID z) (Name z) AuditEvent.OutcomeOK None; mret (Ok (Name z, text))
    end
  end.

Definition Notify (subj : Authz.Subjects) (id : str) : M W (res unit) :=
  match guard subj Authz.ZonesManage with
  | Err e => mret (Err e)
  | Ok _ =>
    z ←? owned subj id;
    r ← (if negb (bool_decide (Kind z = KindMaster)) && negb (bool_decide (Kind z = KindProducer))
         then mret (Err (Wrapf (New ErrInvalidKind) "NOTIFY applies to master and producer zones"))
         else r ← Call "NotifyZone" (Pdns.pdns_NotifyZone (PDNSID z));
              mret match r with Err e => Err (mapPDNS e) | Ok u => Ok u end);
    match r with
    | Err e => _ ← audit subj "zone.notify" (ID z) (Name z) (outcomeOf e) (Some e); mret (Err e)
    | Ok _ => _ ← audit subj "zone.notify" (ID z) (Name z) AuditEvent.OutcomeOK None; mret (Ok ())
    end
  end.

(** ** Running calls *)

Definition wdb (w : W) : MemStore.DB := MemStore.repo_db (w_store w).
Definition wsrv (w : W) : Pdns.Server := Pdns.pdns_view (w_pdns w).
Definition wok (w : W) : Prop := Pdns.pdns_ok (w_pdns w).

(** Two worlds with the same persistent state. *)
Definition same (w w' : W) : Prop := wdb w' = wdb w ∧ wsrv w' = wsrv w ∧ (wok w → wok w').

Lemma on_store_run {A} op core (r : res A) w w' :
  faithful (λ _, True) MemStore.repo_db MemStore.fault op core → on_store op w = (r, w') →
  wsrv w' = wsrv w ∧ (wok w → wok w') ∧ w_metrics w' = w_metrics w ∧
  ((∃ e, r = Err e ∧ MemStore.fault e ∧ wdb w' = wdb w) ∨ core (wdb w) = (r, wdb w')).
Proof.
  unfold on_store. intros Hf. destruct (op (w_store w)) as [r0 s] eqn:E. intros [= <- <-].
  destruct (Hf _ _ _ I E) as [_ H]. unfold wsrv, wok, wdb. simpl. auto.
Qed.

Lemma on_store_read {A} op get (r : res A) w w' :
  faithful (λ _, True) MemStore.repo_db MemStore.fault op (MemStore.reading get) → on_store op w = (r, w') →
  same w w' ∧ w_metrics w' = w_metrics w ∧ ((∃ e, r = Err e ∧ MemStore.fault e) ∨ r = get (wdb w)).
Proof.
  intros Hf H. destruct (on_store_run _ _ _ _ _ Hf H) as (Hs & Ho & Hm & [(e & -> & He & Hd)|[= Hr Hd]]).
  - split; [done|]. split; [done|]. left. by exists e.
  - split; [done|]. auto.
Qed.

Lemma Call_run {A} name op core (r : res A) w w' :
  faithful Pdns.pdns_ok Pdns.pdns_view Pdns.fault op core → wok w → Call name op w = (r, w') →
  wdb w' = wdb w ∧ wok w' ∧ w_metrics w' = w_metrics w ++ [Metrics.PDNSCall name (Result (err_of r))] ∧
  ((∃ e, r = Err e ∧ Pdns.fault e ∧ wsrv w' = wsrv w) ∨ core (wsrv w) = (r, wsrv w')).
Proof.
  unfold Call, on_pdns, metric, mbind, M_bind, mret, M_ret. intros Hf Hok.
  destruct (op (w_pdns w)) as [r0 p] eqn:E. intros [= <- <-].
  destruct (Hf _ _ _ Hok E) as [? H]. unfold wsrv, wok, wdb. simpl. auto.
Qed.

Lemma Call_read {A} name op get (r : res A) w w' :
  faithful Pdns.pdns_ok Pdns.pdns_view Pdns.fault op (Pdns.reading get) → wok w → Call name op w = (r, w') →
  same w w' ∧ ((∃ e, r = Err e ∧ Pdns.fault e) ∨ r = get (wsrv w)).
Proof.
  intros Hf Hok H. destruct (Call_run _ _ _ _ _ _ Hf Hok H) as (Hd & Ho & _ & [(e & -> & He & Hs)|[= Hr Hs]]).
  - split; [done|]. left. by exists e.
  - split; [done|]. by right.
Qed.

Lemma quiet_same {A} (m : M W A) w a w' : quiet m → m w = (a, w') → same w w'.
Proof. intros Hq E. specialize (Hq w). rewrite E in Hq. unfold same, wdb, wsrv, wok. simpl in Hq. destruct Hq as [-> ->]. done. Qed.

Lemma same_refl w : same w w.
Proof. done. Qed.
Lemma same_trans w1 w2 w3 : same w1 w2 → same w2 w3 → same w1 w3.
Proof. unfold same. intros (?&?&?) (?&?&?). split_and!; [congruence..|auto]. Qed.

Lemma quiet_syncForward n : quiet (syncForward n).
Proof. intros w. unfold syncForward. destruct (w_rec w); [|done]. by destruct (rec_SyncForward n r). Qed.
Lemma quiet_removeForward n : quiet (removeForward n).
Proof. intros w. unfold removeForward. destruct (w_rec w); [|done]. by destruct (rec_RemoveForward n r). Qed.
End Service.

(** Step through the calls of a computation in a hypothesis. *)
Ltac run_bind H a w1 E :=
  cbv beta iota in H;
  match type of H with
  | @mbind _ _ _ _ ?k ?m ?w = _ => unfold mbind at 1, M_bind at 1 in H; destruct (m w) as [a w1] eqn:E
  | try_ ?m ?k ?w = _ => unfold try_ at 1 in H; destruct (m w) as [a w1] eqn:E
  | (let '(_, _) := ?x in _) = _ => destruct x as [a w1] eqn:E
  end.
End Zones.
