(* ===== verification/ZonesSpec.v ===== *)
(** * Theorems about the zone lifecycle

    What [Zones] guarantees, for every store and PowerDNS client that keep
    their interfaces' promises: atomic creation, one tenant per DNS name, no
    operation of a tenant on another tenant's PowerDNS zone, metadata that stays
    in step with the row. *)
From Stdlib Require Import Ascii.
From S2P Require Import Prelude GoStrings GoError Store Names Masters Authz MemStore Pdns Recursor World Zones.
Local Open Scope Z_scope.

Module ZonesSpec.
Import Store Zones.

Section Spec.
Context {U : Unicode} {DNS : MiekgDNS} {PSL : PublicSuffixList} {LAWS : MiekgDNSLaws}.
Context {S P R : Type} {RS : MemStore.RepoStore S} {PC : Pdns.PDNSClient P} {RC : RecursorClient R}.
Context {TE : TemplateExpander S}.
Context (cfg : Config).
Abbreviation W := (World S P R).
Implicit Types w : World S P R.

(** ** Create, step by step *)

Lemma prepare_run subj i w z e w' :
  prepare cfg subj i w = ((z, e), w') →
  same w w' ∧ w_metrics w' = w_metrics w ∧
  (e = None → Validate.ZoneName (CName i) = Ok (Name z) ∧ PDNSID z = Name z ∧ TenantID z = Authz.STenantID subj ∧
     ID z = cNewID cfg (w_minted w) ∧ kindMasters (Kind z) (CMasters i) = Ok (Masters z) ∧
     (Origin z = OriginIPAM → Authz.IsHuman subj = false)).
Proof.
  unfold prepare. destruct (Validate.ZoneName (CName i)) as [name|e0] eqn:En; [|by intros [= <- <- <-]].
  unfold mbind, M_bind, mint, mret, M_ret.
  destruct (kindMasters _ (CMasters i)) as [ms|] eqn:Ek; [|by intros [= <- <- <-]].
  destruct (nameservers _ (CNameservers i)) as [ns|] eqn:Ens; [|by intros [= <- <- <-]].
  destruct (checkDescription _); [|by intros [= <- <- <-]].
  repeat case_match; intros [= <- <- <-]; (split; [done|]); (split; [done|]); intros ?; try done; by split_and!.
Qed.

Lemma initial_rrsets_run z i w r w' : initial_rrsets cfg z i w = (r, w') → same w w' ∧ w_metrics w' = w_metrics w.
Proof.
  unfold initial_rrsets. do 3 (case_if as Ec; [by intros [= <- <-]|clear Ec]). intros H. run_bind H x w1 E.
  assert (same w w1 ∧ w_metrics w1 = w_metrics w) as [? ?].
  { unfold on_store in E. destruct (Expand _ _ _ (w_store w)) as [r0 s] eqn:Ee. injection E as <- <-.
    pose proof (Expand_reads (TenantID z) (TemplateID z) (Name z) (w_store w)) as Hr. rewrite Ee in Hr. done. }
  destruct x; injection H as <- <-; done.
Qed.

Lemma create_check_run z i w r w' :
  wok w → create_check cfg z i w = (r, w') →
  same w w' ∧ ∀ rs, r = Ok rs →
    MemStore.zone_conflict (TenantID z) (Name z) (wdb w) = false ∧
    MemStore.get_zone_by_name (TenantID z) (Name z) (wdb w) = Err (New RepoErrNotFound) ∧
    Pdns.zones (wsrv w) !! Name z = None.
Proof.
  intros Hok H. unfold create_check in H. run_bind H x w1 E1. apply initial_rrsets_run in E1 as [S1 _].
  destruct x as [rs|e]; [|by injection H as <- <-].
  run_bind H x w2 E2. apply (on_store_read _ _ _ _ _ (MemStore.repo_GetZoneByName_ok _ _)) in E2 as (S2 & _ & E2).
  pose proof (same_trans _ _ _ S1 S2) as S12. destruct x as [y|e]; [by injection H as <- <-|].
  destruct (Is e RepoErrNotFound) eqn:Ee; cbn [negb] in H; [|by injection H as <- <-].
  destruct E2 as [(e' & [= <-] & [He _]%MemStore.fault_kinds)|E2]; [congruence|].
  run_bind H x w3 E3. apply (on_store_read _ _ _ _ _ (MemStore.repo_ZoneConflict_ok _ _)) in E3 as (S3 & _ & E3).
  pose proof (same_trans _ _ _ S12 S3) as S13. destruct x as [taken|e3]; [|by injection H as <- <-].
  destruct taken; [by injection H as <- <-|]. destruct E3 as [(e' & ? & _)|[= E3]]; [done|].
  run_bind H x w4 E4. apply (Call_read _ _ _ _ _ _ (Pdns.pdns_GetZone_ok _)) in E4 as [S4 E4]; [|by apply S13].
  pose proof (same_trans _ _ _ S13 S4) as S14. destruct x as [y|e4]; [by injection H as <- <-|].
  destruct (Is e4 PdnsErrNotFound) eqn:Ee4; cbn [negb] in H; [|by injection H as <- <-].
  destruct E4 as [(e' & [= <-] & [He _]%Pdns.call_fault_kinds)|E4]; [congruence|].
  injection H as <- <-. split; [done|]. intros rs' _.
  destruct S1 as (Hd1 & _ & _), S12 as (Hd2 & _ & _), S13 as (_ & Hs3 & _). rewrite Hd1 in E2. rewrite Hd2 in E3. rewrite Hs3 in E4.
  split; [done|]. split.
  - unfold MemStore.get_zone_by_name in *. by destruct (find_first _ _).
  - unfold Pdns.get_zone, Pdns.lookup_zone in E4. by destruct (_ !! Name z).
Qed.
(** A PowerDNS zone whose metadata is the row's. *)
Definition in_sync (z : Zone) (pz : Pdns.Zone) : Prop :=
  Pdns.PKind pz = PDNSKind (Kind z) ∧ Pdns.PMasters pz = Masters z ∧ Pdns.PDNSSEC pz = DNSSEC z ∧ Pdns.PAccount pz = TenantID z.

Lemma ValidKind_PDNSKind k : ValidKind k = true → k ≠ [] ∧ PDNSKind k ≠ [].
Proof.
  intros Hk. unfold PDNSKind. rewrite Hk. unfold ValidKind, Kinds in Hk. apply contains_elem in Hk.
  rewrite !elem_of_cons, elem_of_nil in Hk. cbn [negb].
  destruct Hk as [->|[->|[->|[->|[->|[]]]]]]; by vm_compute.
Qed.

Lemma kindMasters_Ok k l m :
  kindMasters k l = Ok m → ValidKind k = true ∧ Masters.Masters l = Ok m ∧ (NeedsMasters k = true ↔ m ≠ []).
Proof.
  unfold kindMasters. destruct (ValidKind k); [|done]. cbn [negb]. intros (m' & Hm & H)%bind_Ok.
  destruct (NeedsMasters k); case_bool_decide; cbn [andb negb] in H; simplify_eq; split_and!; naive_solver.
Qed.

Lemma create_zone_srv i v r v' :
  Pdns.on_zones (Pdns.create_zone i) v = (r, v') →
  match r with
  | Err _ => v' = v
  | Ok c => Pdns.PID c = Pdns.PName i ∧ Pdns.PName i ≠ [] ∧ Pdns.zones v !! Pdns.PName i = None ∧
      ∃ pz, v' = Pdns.mkServer (<[Pdns.PName i := pz]> (Pdns.zones v)) (Pdns.supermasters v) ∧
        (Pdns.PKind i ≠ [] → Pdns.PKind pz = Pdns.PKind i) ∧ Pdns.PMasters pz = Pdns.PMasters i ∧
        Pdns.PDNSSEC pz = Pdns.PDNSSEC i ∧ Pdns.PAccount pz = Pdns.PAccount i ∧ Pdns.PName pz = Pdns.PName i
  end.
Proof.
  unfold Pdns.on_zones, Pdns.create_zone. destruct v as [m l]. simpl.
  destruct (bool_decide _ || _) eqn:E1; [by intros [= <- <-]|]. b2p.
  destruct (m !! Pdns.PName i) eqn:Em; [by intros [= <- <-]|].
  destruct (Pdns.add_rrsets _ _ _ _) eqn:Ea; intros [= <- <-]; [|done].
  split; [done|]. split; [done|]. split; [done|]. eexists. split; [done|].
  split; [intros ?; simpl; by rewrite bool_decide_eq_false_2|done].
Qed.

(** What a commit leaves behind. *)
Lemma create_commit_run z rs w z' e w' :
  wok w → PDNSID z = Name z → ValidKind (Kind z) = true → create_commit z rs w = ((z', e), w') →
  wok w' ∧ Name z' = Name z ∧
  match e with
  | None => ∃ pz, z' = mkZone (ID z) (TenantID z) (Name z) (Name z) (Kind z) (Masters z) (DNSSEC z) (Description z)
                     (TemplateID z) (Origin z) (Nameservers z) (CreatedBy z) (CreatedAt z') (UpdatedAt z') ∧
      Pdns.zones (wsrv w) !! Name z = None ∧
      wsrv w' = Pdns.mkServer (<[Name z := pz]> (Pdns.zones (wsrv w))) (Pdns.supermasters (wsrv w)) ∧ in_sync z' pz ∧
      MemStore.create_zone z' (wdb w) = (Ok (), wdb w')
  | Some _ => wdb w' = wdb w ∧
      (wsrv w' = wsrv w ∨
       ∃ pz res, Pdns.zones (wsrv w) !! Name z = None ∧
         wsrv w' = Pdns.mkServer (<[Name z := pz]> (Pdns.zones (wsrv w))) (Pdns.supermasters (wsrv w)) ∧
         last (w_metrics w') = Some (Metrics.PDNSCall "DeleteZone" res) ∧ res ≠ Metrics.ResultOK)
  end.
Proof.
  intros Hok Hid Hk H. unfold create_commit in H. destruct (mergeApexNS _ _ _) as [rs' ns].
  run_bind H c w1 E1.
  apply (Call_run _ _ _ _ _ _ (Pdns.pdns_CreateZone_ok _)) in E1 as (Hd1 & Hok1 & _ & E1); [|done].
  destruct c as [c|e1]; cycle 1.
  { injection H as <- <- <-. split; [done|]. split; [done|]. split; [done|]. left. destruct E1 as [(? & _ & _ & ?)|E1]; [done|].
    by apply create_zone_srv in E1. }
  destruct E1 as [(? & ? & _)|E1]; [done|]. apply create_zone_srv in E1 as (Hpid & Hne & Hnone & pz & Hv1 & Hpk & Hpm & Hps & Hpa & _).
  cbn [Pdns.PName Pdns.PKind Pdns.PMasters Pdns.PDNSSEC Pdns.PAccount] in *. rewrite Hpid in H.
  rewrite (bool_decide_eq_false_2 (Name z = [])) in H by done.
  unfold now, mbind, M_bind in H. destruct (on_store _ w1) as [ins w2] eqn:E2.
  apply (on_store_run _ _ _ _ _ (MemStore.repo_CreateZone_ok _)) in E2 as (Hs2 & Hok2 & _ & E2).
  destruct ins as [[]|e2].
  - destruct E2 as [(? & ? & _)|E2]; [done|]. injection H as <- <- <-. split; [auto|]. split; [done|]. exists pz.
    split; [done|]. split; [done|]. split; [congruence|]. split; [|by rewrite Hd1 in E2].
    unfold in_sync. simpl. split; [|done]. by apply Hpk, ValidKind_PDNSKind.
  - assert (Hd2 : wdb w2 = wdb w1).
    { destruct E2 as [(? & _ & _ & ?)|E2]; [done|].
      match type of E2 with MemStore.create_zone ?x ?d = _ => destruct (MemStore.create_zone_cases x d) as [(Ec & _)|Ec] end;
        rewrite Ec in E2; congruence. }
    destruct (Call _ _ w2) as [dr w3] eqn:E3. injection H as <- <- <-. simpl in E3.
    apply (Call_run _ _ _ _ _ _ (Pdns.pdns_DeleteZone_ok _)) in E3 as (Hd3 & Hok3 & Hm3 & E3); [|auto].
    split; [done|]. split; [done|]. split; [congruence|]. destruct E3 as [(ed & -> & Hf & Hs3)|E3].
    + right. exists pz, (Result (Some ed)). split; [done|]. split; [congruence|]. split; [by rewrite Hm3, last_snoc|].
      simpl. apply Pdns.call_fault_kinds in Hf as [-> ->]. repeat case_match; done.
    + left. rewrite Hs2, Hv1 in E3. unfold Pdns.on_zones, Pdns.delete_zone, Pdns.lookup_zone in E3. simpl in E3.
      rewrite lookup_insert_eq in E3. injection E3 as _ <-. rewrite delete_insert_id by done. by destruct (wsrv w).
Qed.
(** A compensation that failed: the checks had passed, the server keeps the new
    zone, and the failed delete is the last call recorded. *)
Definition leftover subj i w w' (name : str) : Prop :=
  Validate.ZoneName (CName i) = Ok name ∧ MemStore.zone_conflict (Authz.STenantID subj) name (wdb w) = false ∧
  ∃ pz res, Pdns.zones (wsrv w) !! name = None ∧
    wsrv w' = Pdns.mkServer (<[name := pz]> (Pdns.zones (wsrv w))) (Pdns.supermasters (wsrv w)) ∧
    last (w_metrics w') = Some (Metrics.PDNSCall "DeleteZone" res) ∧ res ≠ Metrics.ResultOK.

(** What a successful creation did. *)
Record created (subj : Authz.Subjects) (i : CreateInput) (w w' : W) (z : Zone) : Prop := {
  cr_name : Validate.ZoneName (CName i) = Ok (Name z);
  cr_tenant : TenantID z = Authz.STenantID subj;
  cr_pdnsid : PDNSID z = Name z;
  cr_masters : kindMasters (Kind z) (CMasters i) = Ok (Masters z);
  cr_own : MemStore.get_zone_by_name (TenantID z) (Name z) (wdb w) = Err (New RepoErrNotFound);
  cr_free : MemStore.zone_conflict (TenantID z) (Name z) (wdb w) = false;
  cr_absent : Pdns.zones (wsrv w) !! Name z = None;
  cr_server : ∃ pz, wsrv w' = Pdns.mkServer (<[Name z := pz]> (Pdns.zones (wsrv w))) (Pdns.supermasters (wsrv w)) ∧ in_sync z pz;
  cr_row : MemStore.create_zone z (wdb w) = (Ok (), wdb w')
}.

Lemma create_run subj i w z e w' :
  wok w → create cfg subj i w = ((z, e), w') →
  wok w' ∧ match e with
           | None => created subj i w w' z
           | Some _ => wdb w' = wdb w ∧ (wsrv w' = wsrv w ∨ leftover subj i w w' (Name z))
           end.
Proof.
  intros Hok H. unfold create in H. run_bind H x w1 E1. destruct x as [z0 e0].
  apply prepare_run in E1 as ((Hd1 & Hs1 & Hok1) & _ & Hz0).
  destruct e0 as [e0|]; [injection H as <- <- <-; split; [auto|]; split; [done|]; by left|].
  destruct (Hz0 eq_refl) as (Hn & Hp & Ht & _ & Hm & _).
  run_bind H r w2 E2. apply create_check_run in E2 as ((Hd2 & Hs2 & Hok2) & Hc); [|auto].
  destruct r as [rs|e2]; cycle 1.
  { injection H as <- <- <-. split; [auto|]. split; [congruence|]. left. congruence. }
  destruct (Hc rs eq_refl) as (Hfree & Hown & Habs). rewrite Hd1 in Hfree, Hown. rewrite Hs1 in Habs.
  apply create_commit_run in H as (Hok3 & Hnm & H); [|by auto|done|by apply kindMasters_Ok in Hm as [? _]].
  split; [done|]. destruct e as [e|].
  - destruct H as [Hd H]. split; [congruence|]. rewrite Hnm. unfold leftover. rewrite Hs2, Hs1 in H.
    destruct H as [H|H]; [by left|]. right. by rewrite <- Ht.
  - destruct H as (pz & -> & Hnone & Hsrv & Hsync & Hrow). constructor; simpl; try done.
    + exists pz. split; [|done]. congruence.
    + rewrite Hd2, Hd1 in Hrow. exact Hrow.
Qed.

Lemma Create_run subj i w r w' :
  wok w → Create cfg subj i w = (r, w') →
  wok w' ∧ match r with
           | Ok z => guard cfg subj Authz.ZonesManage = Ok () ∧ ∃ w1, wok w1 ∧ created subj i w w1 z ∧ same w1 w'
           | Err _ => wdb w' = wdb w ∧ (wsrv w' = wsrv w ∨ ∃ name, leftover subj i w w' name)
           end.
Proof.
  intros Hok H. unfold Create in H. destruct (guard cfg subj Authz.ZonesManage) as [[]|eg] eqn:Eg; cycle 1.
  { injection H as <- <-. split; [done|]. split; [done|]. by left. }
  run_bind H x w1 E1. destruct x as [z e]. apply create_run in E1 as [Hok1 E1]; [|done]. destruct e as [e|].
  - injection H as <- <-. split; [done|]. destruct E1 as [Hd [Hs|Hl]]; (split; [done|]); [by left|].
    right. exists (Name z). exact Hl.
  - assert (same w1 w' ∧ r = Ok z) as [Hq ->].
    { unfold mbind at 1, M_bind at 1 in H. simpl in H. unfold mbind, M_bind in H. simpl in H.
      destruct (syncForward _ _) as [[] w2] eqn:E2. injection H as <- <-. split; [|done].
      apply (quiet_same _ _ _ _ (quiet_syncForward _)) in E2. destruct E2 as (?&?&?). done. }
    split; [by apply Hq|]. split; [done|]. by exists w1.
Qed.
(** ** Update and delete *)

Lemma owned_run subj id w r w' :
  owned subj id w = (r, w') →
  same w w' ∧ ∀ z, r = Ok z → MemStore.zone (Authz.STenantID subj) id (wdb w) = Ok z.
Proof.
  intros H. unfold owned in H. run_bind H x w1 E.
  apply (on_store_read _ _ _ _ _ (MemStore.repo_GetZone_ok _ _)) in E as (Hs & _ & E).
  injection H as <- <-. split; [done|]. intros z Hz. destruct x as [z0|e]; [|by case_match].
  injection Hz as <-. destruct E as [(? & ? & _)|E]; [done|]. by symmetry.
Qed.

Lemma next_zone_Ok prev i next :
  next_zone prev i = Ok next →
  ID next = ID prev ∧ TenantID next = TenantID prev ∧ Name next = Name prev ∧ PDNSID next = PDNSID prev ∧
  ValidKind (Kind next) = true.
Proof.
  unfold next_zone. intros (m & Hm & H)%bind_Ok. apply bind_Ok in H as ([] & _ & [= <-]).
  by apply kindMasters_Ok in Hm as [? _].
Qed.

Lemma metadata_srv id z v r v' :
  Pdns.on_zones (Pdns.update_zone_metadata id (metadata z)) v = (r, v') →
  match r with
  | Err _ => v' = v
  | Ok _ => ∃ pz pz', Pdns.zones v !! id = Some pz ∧
      v' = Pdns.mkServer (<[id := pz']> (Pdns.zones v)) (Pdns.supermasters v) ∧
      (ValidKind (Kind z) = true → Pdns.PAccount pz = TenantID z → in_sync z pz' ∧ Pdns.PAccount pz' = TenantID z)
  end.
Proof.
  unfold Pdns.on_zones, Pdns.update_zone_metadata, Pdns.lookup_zone. destruct v as [m l]. simpl.
  destruct (m !! id) as [pz|] eqn:E; intros [= <- <-]; [|done]. exists pz. eexists. split; [done|]. split; [done|].
  intros Hk Ha. unfold in_sync. simpl. rewrite (bool_decide_eq_false_2 (PDNSKind _ = [])) by (by apply ValidKind_PDNSKind).
  case_bool_decide; done.
Qed.

(** The server's zones outside one id. *)
Definition only_at (id : str) (v v' : Pdns.Server) : Prop :=
  (∀ k, k ≠ id → Pdns.zones v' !! k = Pdns.zones v !! k) ∧ Pdns.supermasters v' = Pdns.supermasters v.
Lemma only_at_refl id v : only_at id v v.
Proof. done. Qed.
Lemma only_at_trans id v1 v2 v3 : only_at id v1 v2 → only_at id v2 v3 → only_at id v1 v3.
Proof. intros [H1 ?] [H2 ?]. split; [|congruence]. intros k Hk. rewrite H2, H1; done. Qed.
Lemma only_at_insert id pz v :
  only_at id v (Pdns.mkServer (<[id := pz]> (Pdns.zones v)) (Pdns.supermasters v)).
Proof. split; [|done]. intros k Hk. simpl. by rewrite lookup_insert_ne. Qed.

(** One push of metadata, when it is made. *)
Lemma push_run b id z (r : res unit) w w' :
  wok w →
  (if (b : bool) then Call "UpdateZoneMetadata" (Pdns.pdns_UpdateZoneMetadata id (metadata z)) else mret (Ok ())) w = (r, w') →
  wdb w' = wdb w ∧ wok w' ∧ only_at id (wsrv w) (wsrv w') ∧
  match r with
  | Err _ => wsrv w' = wsrv w ∧ last (w_metrics w') = Some (Metrics.PDNSCall "UpdateZoneMetadata" (Result (err_of r)))
  | Ok _ => if b then ∃ pz pz', Pdns.zones (wsrv w) !! id = Some pz ∧ Pdns.zones (wsrv w') !! id = Some pz' ∧
                        (ValidKind (Kind z) = true → Pdns.PAccount pz = TenantID z → in_sync z pz')
            else wsrv w' = wsrv w
  end.
Proof.
  intros Hok H. destruct b; [|by injection H as <- <-].
  apply (Call_run _ _ _ _ _ _ (Pdns.pdns_UpdateZoneMetadata_ok _ _)) in H as (Hd & Hok' & Hm & H); [|done].
  split; [done|]. split; [done|]. destruct H as [(e & -> & _ & Hs)|H].
  - rewrite Hs. split; [apply only_at_refl|]. split; [done|]. by rewrite Hm, last_snoc.
  - apply metadata_srv in H. destruct r as [[]|e].
    + destruct H as (pz & pz' & Hz & -> & Hi). split; [apply only_at_insert|]. exists pz, pz'. simpl.
      split; [done|]. split; [by rewrite lookup_insert_eq|]. intros ??. by apply Hi.
    + rewrite H. split; [apply only_at_refl|]. split; [done|]. by rewrite Hm, last_snoc.
Qed.

(** A row and its PowerDNS zone agree. *)
Definition synced (z : Zone) (v : Pdns.Server) : Prop := ∃ pz, Pdns.zones v !! PDNSID z = Some pz ∧ in_sync z pz.

Lemma metaChanged_false prev next :
  metaChanged prev next = false → Kind next = Kind prev ∧ DNSSEC next = DNSSEC prev ∧ Masters next = Masters prev.
Proof. unfold metaChanged. intros H. b2p. split; [done|]. split; [|done]. by apply eqb_prop. Qed.

(** What an update of a row of the store does. *)
Lemma update_run prev i w r w' :
  wok w → MemStore.zone (TenantID prev) (ID prev) (wdb w) = Ok prev → ValidKind (Kind prev) = true →
  update prev i w = (r, w') →
  wok w' ∧ only_at (PDNSID prev) (wsrv w) (wsrv w') ∧
  match r with
  | Err _ => wdb w' = wdb w ∧
      (synced prev (wsrv w) → synced prev (wsrv w') ∨
         ∃ res, last (w_metrics w') = Some (Metrics.PDNSCall "UpdateZoneMetadata" res) ∧ res ≠ Metrics.ResultOK)
  | Ok z => (∃ z0, MemStore.update_zone z0 (wdb w) = (Ok z, wdb w') ∧ TenantID z0 = TenantID prev) ∧
      ID z = ID prev ∧ TenantID z = TenantID prev ∧ Name z = Name prev ∧ PDNSID z = PDNSID prev ∧
      ValidKind (Kind z) = true ∧ (synced prev (wsrv w) → synced z (wsrv w'))
  end.
Proof.
  intros Hok Hrow Hkind H. unfold update in H. destruct (next_zone prev i) as [next|en] eqn:En; cycle 1.
  { injection H as <- <-. split; [done|]. split; [apply only_at_refl|]. split; [done|]. by left. }
  apply next_zone_Ok in En as (Hi & Ht & Hn & Hp & Hv). run_bind H p w1 E1.
  apply push_run in E1 as (Hd1 & Hok1 & Ho1 & E1); [|done]. destruct p as [[]|ep]; cycle 1.
  { injection H as <- <-. split; [done|]. split; [done|]. split; [done|]. destruct E1 as [-> _]. by left. }
  unfold now, mbind, M_bind in H. destruct (on_store _ w1) as [sv w2] eqn:E2.
  apply (on_store_run _ _ _ _ _ (MemStore.repo_UpdateZone_ok _)) in E2 as (Hs2 & Hok2 & _ & E2).
  assert (Hsync1 : synced prev (wsrv w) → synced next (wsrv w1)).
  { intros (pz & Hpz & Hin). unfold synced. rewrite Hp. destruct (metaChanged prev next) eqn:Em.
    - destruct E1 as (pz0 & pz1 & Hz0 & Hz1 & Hi1). exists pz1. split; [done|]. apply Hi1; [done|].
      rewrite Hpz in Hz0. injection Hz0 as <-. rewrite Ht. apply Hin.
    - apply metaChanged_false in Em as (Hk & Hds & Hms). rewrite E1. exists pz. split; [done|].
      unfold in_sync in *. by rewrite Hk, Hds, Hms, Ht. }
  destruct sv as [z|es].
  - injection H as <- <-. split; [auto|]. split; [by rewrite Hs2|].
    destruct E2 as [(? & ? & _)|E2]; [done|]. rewrite Hd1 in E2. split.
    { eexists. split; [exact E2|done]. }
    unfold MemStore.update_zone in E2. cbn [TenantID ID] in E2. rewrite Ht, Hi, Hrow in E2. injection E2 as <- _.
    cbn [ID TenantID Name PDNSID Kind]. split_and!; try done.
    intros Hsy%Hsync1. rewrite Hs2. destruct Hsy as (pz & Hz & Hin). exists pz. rewrite Hp in Hz.
    split; [done|]. unfold in_sync in *. simpl. by rewrite Ht in Hin.
  - run_bind H rr w3 E3. injection H as <- <-.
    apply push_run in E3 as (Hd3 & Hok3 & Ho3 & E3); [|auto]. rewrite Hs2 in *.
    split; [done|]. split; [by eapply only_at_trans|].
    assert (Hd2 : wdb w2 = wdb w1).
    { destruct E2 as [(? & _ & _ & ?)|E2]; [done|]. unfold MemStore.update_zone in E2. cbn [TenantID ID] in E2.
      rewrite Ht, Hi, Hd1, Hrow in E2. discriminate E2. }
    split; [congruence|]. intros Hsy. destruct rr as [[]|er].
    + left. destruct (metaChanged prev next).
      * destruct E3 as (pz0 & pz1 & Hz0 & Hz1 & Hi1). exists pz1. split; [done|]. apply Hi1; [done|].
        destruct (Hsync1 Hsy) as (pz & Hpz & Hin). rewrite Hp, Hz0 in Hpz. injection Hpz as ->. rewrite <- Ht. apply Hin.
      * by rewrite E3, E1.
    + right. destruct E3 as [_ Hl]. eexists. split; [exact Hl|]. simpl. repeat case_match; done.
Qed.
Lemma delete_zone_srv id v r v' :
  Pdns.on_zones (Pdns.delete_zone id) v = (r, v') →
  only_at id v v' ∧ match r with
                    | Ok _ => Pdns.zones v' !! id = None
                    | Err e => Is e PdnsErrNotFound = true ∧ v' = v ∧ Pdns.zones v !! id = None
                    end.
Proof.
  unfold Pdns.on_zones, Pdns.delete_zone, Pdns.lookup_zone. destruct v as [m l]. simpl.
  destruct (m !! id) eqn:E; intros [= <- <-].
  - split; [|simpl; by rewrite lookup_delete_eq]. split; [|done]. intros k Hk. simpl. by rewrite lookup_delete_ne.
  - split; [apply only_at_refl|done].
Qed.

(** A delete removes both halves, or leaves the row to be deleted again. *)
Lemma delete_run z w r w' :
  wok w → delete_ z w = (r, w') →
  wok w' ∧ only_at (PDNSID z) (wsrv w) (wsrv w') ∧
  (∃ d1, (d1 = wdb w ∨ d1 = (MemStore.clear_sync_zone (TenantID z) (ID z) (wdb w)).2) ∧
    match r with
    | Ok _ => Pdns.zones (wsrv w') !! PDNSID z = None ∧ d1 = (MemStore.clear_sync_zone (TenantID z) (ID z) (wdb w)).2 ∧
              MemStore.delete_zone (TenantID z) (ID z) d1 = (Ok (), wdb w')
    | Err _ => wdb w' = d1
    end).
Proof.
  intros Hok H. unfold delete_ in H. run_bind H r1 w1 E1.
  apply (Call_run _ _ _ _ _ _ (Pdns.pdns_DeleteZone_ok _)) in E1 as (Hd1 & Hok1 & _ & E1); [|done].
  match type of H with match ?x with _ => _ end w1 = _ => destruct x as [e|] eqn:Ed end.
  { injection H as <- <-. split; [done|]. split.
    - destruct E1 as [(? & _ & _ & ->)|E1]; [apply only_at_refl|]. by apply delete_zone_srv in E1 as [? _].
    - exists (wdb w). auto. }
  assert (only_at (PDNSID z) (wsrv w) (wsrv w1) ∧ Pdns.zones (wsrv w1) !! PDNSID z = None) as [Ho1 Hn1].
  { destruct E1 as [(e & -> & [He _]%Pdns.call_fault_kinds & _)|E1]; [by rewrite He in Ed|].
    apply delete_zone_srv in E1 as [Ho E1]. split; [done|]. destruct r1; [done|]. destruct E1 as (_ & -> & ?). done. }
  run_bind H u w2 E2. apply (quiet_same _ _ _ _ (quiet_removeForward _)) in E2 as (Hd2 & Hs2 & Hok2).
  run_bind H c w3 E3. apply (on_store_run _ _ _ _ _ (MemStore.repo_ClearSyncZone_ok _ _)) in E3 as (Hs3 & Hok3 & _ & E3).
  assert (Hd3 : wdb w3 = wdb w ∨ c = Ok () ∧ wdb w3 = (MemStore.clear_sync_zone (TenantID z) (ID z) (wdb w)).2).
  { destruct E3 as [(? & _ & _ & ?)|E3]; [left; congruence|right]. rewrite Hd2, Hd1 in E3. by injection E3 as <- <-. }
  assert (Hs3' : wsrv w3 = wsrv w1) by congruence.
  destruct c as [[]|ec]; cycle 1.
  { injection H as <- <-. split; [auto|]. split; [congruence|]. exists (wdb w3). split; [|done]. naive_solver. }
  destruct E3 as [(? & ? & _)|E3]; [done|]. rewrite Hd2, Hd1 in E3. injection E3 as E3.
  apply (on_store_run _ _ _ _ _ (MemStore.repo_DeleteZone_ok _ _)) in H as (Hs4 & Hok4 & _ & H).
  split; [auto|]. rewrite Hs4, Hs3'. split; [done|]. exists (wdb w3). split; [by right|]. destruct r as [[]|er].
  - destruct H as [(? & ? & _)|H]; [done|]. done.
  - destruct H as [(? & _ & _ & ?)|H]; [done|]. unfold MemStore.delete_zone in H.
    by destruct (MemStore.zone _ _ (wdb w3)); injection H.
Qed.
(** ** Whole operations *)

Lemma owned_row subj id d z :
  MemStore.zone (Authz.STenantID subj) id d = Ok z → MemStore.db_wf d →
  ID z = id ∧ TenantID z = Authz.STenantID subj ∧ MemStore.zones d !! id = Some z ∧
  MemStore.zone (TenantID z) (ID z) d = Ok z.
Proof.
  intros H Hwf. pose proof H as [Hz Ht]%MemStore.zone_Ok. pose proof (MemStore.wf_zone_id d Hwf _ _ Hz) as Hi. simpl in Hi.
  split_and!; try done. by rewrite Hi, Ht.
Qed.

Definition kinds_ok (d : MemStore.DB) : Prop := map_Forall (λ _ z, ValidKind (Kind z) = true) (MemStore.zones d).

Lemma Update_run subj id i w r w' :
  wok w → MemStore.db_wf (wdb w) → kinds_ok (wdb w) → Update cfg subj id i w = (r, w') →
  (same w w' ∧ ∃ e, r = Err e) ∨
  ∃ prev w1, MemStore.zones (wdb w) !! id = Some prev ∧ TenantID prev = Authz.STenantID subj ∧ ID prev = id ∧
    wdb w1 = wdb w ∧ wsrv w1 = wsrv w ∧ wok w1 ∧
    ∃ r0 w2, update prev i w1 = (r0, w2) ∧ same w2 w' ∧ r = r0 ∧ w_metrics w' = w_metrics w2.
Proof.
  intros Hok Hwf Hk H. unfold Update in H. destruct (guard cfg subj Authz.ZonesManage); [|injection H as <- <-; left; split; [done|eauto]].
  run_bind H x w1 E1. apply owned_run in E1 as [(Hd1 & Hs1 & Hok1) Ho].
  destruct x as [prev|e]; [|injection H as <- <-; left; split; [done|eauto]]. right.
  destruct (owned_row _ _ _ _ (Ho prev eq_refl) Hwf) as (Hi & Ht & Hz & _).
  run_bind H r0 w2 E2. exists prev, w1. split_and!; try done; [auto|]. exists r0, w2. split; [done|].
  destruct r0; injection H as <- <-; done.
Qed.

Lemma Delete_run subj id w r w' :
  wok w → MemStore.db_wf (wdb w) → Delete cfg subj id w = (r, w') →
  (same w w' ∧ ∃ e, r = Err e) ∨
  ∃ z w1, MemStore.zones (wdb w) !! id = Some z ∧ TenantID z = Authz.STenantID subj ∧ ID z = id ∧
    wdb w1 = wdb w ∧ wsrv w1 = wsrv w ∧ wok w1 ∧ ∃ w2, delete_ z w1 = (r, w2) ∧ same w2 w'.
Proof.
  intros Hok Hwf H. unfold Delete in H. destruct (guard cfg subj Authz.ZonesManage); [|injection H as <- <-; left; split; [done|eauto]].
  run_bind H x w1 E1. apply owned_run in E1 as [(Hd1 & Hs1 & Hok1) Ho].
  destruct x as [z|e]; [|injection H as <- <-; left; split; [done|eauto]]. right.
  destruct (owned_row _ _ _ _ (Ho z eq_refl) Hwf) as (Hi & Ht & Hz & _).
  run_bind H r0 w2 E2. exists z, w1. split_and!; try done; [auto|]. exists w2.
  destruct r0 as [[]|]; injection H as <- <-; done.
Qed.

Lemma notify_srv id v r v' : Pdns.on_zones (Pdns.notify_zone id) v = (r, v') → only_at id v v'.
Proof.
  unfold Pdns.on_zones, Pdns.notify_zone, Pdns.lookup_zone. destruct v as [m l]. simpl.
  destruct (m !! id) eqn:E; [|intros [= <- <-]; apply only_at_refl].
  destruct (negb _ && negb _); intros [= <- <-]; [apply only_at_refl|apply (only_at_insert id _ (Pdns.mkServer m l))].
Qed.

(** Notifying touches the zone's own entry on the server, nothing else. *)
Lemma Notify_run subj id w r w' :
  wok w → MemStore.db_wf (wdb w) → Notify cfg subj id w = (r, w') →
  wok w' ∧ wdb w' = wdb w ∧
  (wsrv w' = wsrv w ∨ ∃ z, MemStore.zones (wdb w) !! id = Some z ∧ TenantID z = Authz.STenantID subj ∧
                           only_at (PDNSID z) (wsrv w) (wsrv w')).
Proof.
  intros Hok Hwf H. unfold Notify in H. destruct (guard cfg subj Authz.ZonesManage); [|injection H as <- <-; auto].
  run_bind H x w1 E1. apply owned_run in E1 as [(Hd1 & Hs1 & Hok1) Ho].
  destruct x as [z|e]; [|injection H as <- <-; auto].
  destruct (owned_row _ _ _ _ (Ho z eq_refl) Hwf) as (Hi & Ht & Hz & _).
  run_bind H r0 w2 E2.
  assert (same w2 w') as (Hd & Hs & Hok').
  { destruct r0; injection H as <- <-; done. }
  case_if in E2 as Ek; [injection E2 as <- <-; rewrite Hd, Hs; auto|].
  run_bind E2 r1 w3 E3. injection E2 as <- <-.
  apply (Call_run _ _ _ _ _ _ (Pdns.pdns_NotifyZone_ok _)) in E3 as (Hd3 & Hok3 & _ & E3); [|auto].
  split; [auto|]. split; [congruence|]. destruct E3 as [(? & _ & _ & ?)|E3%notify_srv]; [left; congruence|].
  right. exists z. split; [done|]. split; [done|]. by rewrite Hs, <- Hs1.
Qed.

Lemma Owned_same subj id w r w' : Owned cfg subj id w = (r, w') → same w w'.
Proof.
  unfold Owned. destruct (guard cfg subj Authz.ZonesRead); [|intros [= <- <-]; done]. by intros [? _]%owned_run.
Qed.

Lemma Get_same subj id w r w' : wok w → Get cfg subj id w = (r, w') → same w w'.
Proof.
  intros Hok H. unfold Get in H. run_bind H x w1 E1. apply Owned_same in E1.
  destruct x as [z|e]; [|by injection H as <- <-]. run_bind H y w2 E2. injection H as <- <-.
  apply (Call_read _ _ _ _ _ _ (Pdns.pdns_GetZone_ok _)) in E2 as [? _]; [|by apply E1]. by eapply same_trans.
Qed.

Lemma Export_same subj id w r w' : wok w → Export cfg subj id w = (r, w') → same w w'.
Proof.
  intros Hok H. unfold Export in H. destruct (guard cfg subj Authz.ZonesManage); [|by injection H as <- <-].
  run_bind H x w1 E1. apply owned_run in E1 as [S1 _]. destruct x as [z|e]; [|by injection H as <- <-].
  run_bind H y w2 E2. apply (Call_read _ _ _ _ _ _ (Pdns.pdns_ExportZone_ok _)) in E2 as [S2 _]; [|by apply S1].
  apply (same_trans _ _ _ S1) in S2. match type of H with match ?x with _ => _ end w2 = _ => destruct x end;
    injection H as <- <-; exact S2.
Qed.
(** ** The invariant *)

(** Every row is under the PowerDNS id of its canonical name and of a known
    kind, and zones of different tenants do not overlap. *)
Definition row_ok (z : Zone) : Prop :=
  PDNSID z = Name z ∧ ValidKind (Kind z) = true ∧ ∃ s, Validate.canonicalZone s = Ok (Name z).
Definition disjoint_tenants (d : MemStore.DB) : Prop :=
  ∀ i j z z', MemStore.zones d !! i = Some z → MemStore.zones d !! j = Some z' →
    TenantID z ≠ TenantID z' → MemStore.Overlaps (Name z) (Name z') = false.
Record zinv (w : W) : Prop := {
  zi_ok : wok w;
  zi_db : MemStore.db_wf (wdb w);
  zi_rows : map_Forall (λ _ z, row_ok z) (MemStore.zones (wdb w));
  zi_disjoint : disjoint_tenants (wdb w)
}.

Lemma Overlaps_InZone a b : MemStore.Overlaps a b = InZone a b || InZone b a.
Proof.
  unfold MemStore.Overlaps, InZone. destruct (decide (a = b)) as [->|Hn].
  - by rewrite !bool_decide_eq_true_2.
  - by rewrite (bool_decide_eq_false_2 (a = b)), (bool_decide_eq_false_2 (b = a)) by congruence.
Qed.
Lemma Overlaps_sym a b : MemStore.Overlaps a b = MemStore.Overlaps b a.
Proof. rewrite !Overlaps_InZone. apply orb_comm. Qed.

Lemma zinv_kinds w : zinv w → kinds_ok (wdb w).
Proof. intros [_ _ H _] k z Hz. by destruct (H k z Hz) as (_ & ? & _). Qed.

Lemma conflict_free t name d :
  (∃ s, Validate.canonicalZone s = Ok name) → MemStore.zone_conflict t name d = false →
  ∀ k y, MemStore.zones d !! k = Some y → TenantID y ≠ t → MemStore.Overlaps name (Name y) = false.
Proof.
  intros [s Hs] H k y Hk Ht. unfold MemStore.zone_conflict in H. rewrite (Validate.canonicalZone_lower _ _ Hs) in H.
  rewrite any_value_false in H. specialize (H k y Hk). cbn beta in H. by rewrite bool_decide_eq_false_2 in H by done.
Qed.

Lemma row_ok_stored z d : row_ok z → row_ok (MemStore.stored z d).
Proof.
  intros (Hp & Hk & Hs). unfold row_ok, MemStore.stored. simpl. split; [done|]. split; [|done].
  rewrite bool_decide_eq_false_2; [done|]. by apply ValidKind_PDNSKind.
Qed.

(** A new row below no other tenant's zone, nor above one. *)
Lemma insert_inv w w' z :
  zinv w → wok w' → row_ok z →
  (∀ k y, MemStore.zones (wdb w) !! k = Some y → TenantID y ≠ TenantID z → MemStore.Overlaps (Name z) (Name y) = false) →
  MemStore.create_zone z (wdb w) = (Ok (), wdb w') → zinv w'.
Proof.
  intros [Hok Hwf Hrows Hdis] Hok' Hz0 Hcf Hrow.
  pose proof (MemStore.create_zone_wf z (wdb w) Hwf) as Hwf'. rewrite Hrow in Hwf'.
  destruct (MemStore.create_zone_cases z (wdb w)) as [(Ec & Hnone & _)|Ec]; rewrite Ec in Hrow; [|done].
  injection Hrow as Hd. assert (Hz : MemStore.zones (wdb w') = <[ID z := MemStore.stored z (wdb w)]> (MemStore.zones (wdb w)))
    by (by rewrite <- Hd).
  constructor; [done|done| |].
  - rewrite Hz. apply map_Forall_insert_2; [|done]. by apply row_ok_stored.
  - intros a b x y. rewrite Hz, !lookup_insert_Some.
    intros [[<- <-]|[_ Hx]] [[<- <-]|[_ Hy]] Hne; simpl in *; [done| | |by apply (Hdis a b)].
    + apply (Hcf b y Hy). congruence.
    + rewrite Overlaps_sym. apply (Hcf a x Hx). congruence.
Qed.

Lemma created_inv subj i w w' z : zinv w → wok w' → created subj i w w' z → zinv w'.
Proof.
  intros Hi Hok' [Hname Ht Hp Hm _ Hfree _ _ Hrow]. apply Validate.ZoneName_canonical in Hname.
  apply (insert_inv w w' z); [done..| |by eapply conflict_free; [eexists|]|done].
  apply kindMasters_Ok in Hm as [Hm _]. split_and!; eauto.
Qed.

Lemma zones_same_inv w w' :
  zinv w → wok w' → MemStore.db_wf (wdb w') → MemStore.zones (wdb w') ⊆ MemStore.zones (wdb w) → zinv w'.
Proof.
  intros [_ _ Hr Hdis] Hok Hwf Hsub. constructor; [done|done| |].
  - intros k z Hz. apply (Hr k). by eapply lookup_weaken.
  - intros a b x y Hx Hy. apply (Hdis a b); by eapply lookup_weaken.
Qed.

Lemma same_inv w w' : same w w' → zinv w → zinv w'.
Proof.
  intros (Hd & _ & Hok) Hi. apply (zones_same_inv w w'); rewrite ?Hd; [done|apply Hok, Hi|apply Hi|done].
Qed.

Lemma update_inv w w' i prev z :
  zinv w → wok w' → MemStore.zones (wdb w) !! i = Some prev → MemStore.db_wf (wdb w') → TenantID z = TenantID prev →
  Name z = Name prev → PDNSID z = PDNSID prev → ValidKind (Kind z) = true →
  MemStore.zones (wdb w') = <[i := z]> (MemStore.zones (wdb w)) → zinv w'.
Proof.
  intros [_ _ Hr Hdis] Hok Hprev Hwf Ht Hn Hp Hk Hz. constructor; [done|done| |].
  - rewrite Hz. apply map_Forall_insert_2; [|done]. destruct (Hr i prev Hprev) as (H1 & _ & H3).
    unfold row_ok. by rewrite Hn, Hp.
  - intros a b x y. rewrite Hz, !lookup_insert_Some.
    intros [[<- <-]|[_ Hx]] [[<- <-]|[_ Hy]] Hne; [done| | |by apply (Hdis a b)].
    + rewrite Hn. apply (Hdis i b prev y); [done..|congruence].
    + rewrite Hn. apply (Hdis a i x prev); [done..|congruence].
Qed.

(** One operation of the service, done for a tenant, or the clock moving. *)
Inductive zstep (t : str) (w : W) : W → Prop :=
  | zs_create subj i : Authz.STenantID subj = t → zstep t w (Create cfg subj i w).2
  | zs_update subj id i : Authz.STenantID subj = t → zstep t w (Update cfg subj id i w).2
  | zs_delete subj id : Authz.STenantID subj = t → zstep t w (Delete cfg subj id w).2
  | zs_notify subj id : Authz.STenantID subj = t → zstep t w (Notify cfg subj id w).2
  | zs_export subj id : Authz.STenantID subj = t → zstep t w (Export cfg subj id w).2
  | zs_get subj id : Authz.STenantID subj = t → zstep t w (Get cfg subj id w).2
  | zs_clock now : zstep t w (mkWorld (w_store w) (w_pdns w) (w_rec w) (w_events w) (w_audit w) (w_metrics w) now (w_minted w)).

Lemma Update_inv subj id i w r w' : zinv w → Update cfg subj id i w = (r, w') → zinv w'.
Proof.
  intros Hi E. pose proof (zi_ok _ Hi) as Hok. pose proof (zi_db _ Hi) as Hwf.
  apply Update_run in E as [[E _]|(prev & w1 & Hz & Ht & Hid & Hd1 & Hs1 & Hok1 & r0 & w2 & E & Hs & _)];
    [by eapply same_inv|eapply same_inv; [exact Hs|]|done|done|by apply zinv_kinds].
  pose proof (zinv_kinds _ Hi _ _ Hz) as Hk. simpl in Hk.
  assert (Hrow : MemStore.zone (TenantID prev) (ID prev) (wdb w1) = Ok prev)
    by (apply MemStore.zone_Ok; by rewrite Hd1, Hid).
  apply update_run in E as (Hok2 & _ & E); [|done..]. rewrite Hd1 in E. destruct r0 as [z|e].
  - destruct E as ((z0 & Hu & Ht0) & Hi0 & Ht1 & Hn1 & Hp1 & Hk1 & _).
    pose proof (MemStore.update_zone_wf z0 (wdb w) Hwf) as Hwf2. rewrite Hu in Hwf2.
    eapply (update_inv w w2 id prev z); try done.
    unfold MemStore.update_zone in Hu. destruct (MemStore.zone (TenantID z0) (ID z0) (wdb w)) as [c|]; [|done].
    injection Hu as Hz' Hd'. rewrite <- Hd'. simpl. rewrite Hz'. f_equal. by rewrite <- Hid, <- Hi0, <- Hz'.
  - destruct E as [Hd2 _]. apply (zones_same_inv w w2); rewrite ?Hd2; done.
Qed.

Lemma delete_zone_sub t i d d' : MemStore.delete_zone t i d = (Ok (), d') → MemStore.zones d' = delete i (MemStore.zones d).
Proof. unfold MemStore.delete_zone. destruct (MemStore.zone t i d); [|done]. by intros [= <-]. Qed.

Lemma Delete_inv subj id w r w' : zinv w → Delete cfg subj id w = (r, w') → zinv w'.
Proof.
  intros Hi E. pose proof (zi_ok _ Hi) as Hok. pose proof (zi_db _ Hi) as Hwf.
  apply Delete_run in E as [[E _]|(z & w1 & Hz & Ht & Hid & Hd1 & Hs1 & Hok1 & w2 & E & Hs)];
    [by eapply same_inv|eapply same_inv; [exact Hs|]|done|done].
  apply delete_run in E as (Hok2 & _ & d1 & Hd & E); [|done]. rewrite Hd1 in Hd, E.
  assert (MemStore.db_wf d1 ∧ MemStore.zones d1 = MemStore.zones (wdb w)) as [Hwf1 Hz1].
  { destruct Hd as [-> | ->]; [done|]. split; [|done].
    eapply MemStore.db_step_wf; [|exact Hwf]. eapply MemStore.ds_tenant, MemStore.ts_clear_sync. }
  destruct r as [[]|e].
  - destruct E as (_ & _ & E). pose proof (MemStore.delete_zone_wf (TenantID z) (ID z) d1 Hwf1) as Hwf2.
    rewrite E in Hwf2. apply delete_zone_sub in E. apply (zones_same_inv w w2); [done..|].
    rewrite E, Hz1. apply delete_subseteq.
  - apply (zones_same_inv w w2); rewrite ?E; [done..|]. by rewrite Hz1.
Qed.

Lemma zstep_inv t w w' : zstep t w w' → zinv w → zinv w'.
Proof.
  intros Hs Hi. pose proof (zi_ok _ Hi) as Hok. pose proof (zi_db _ Hi) as Hwf.
  destruct Hs as [subj i _|subj id i _|subj id _|subj id _|subj id _|subj id _|now].
  - destruct (Create cfg subj i w) as [r w'] eqn:E. apply Create_run in E as [Hok' E]; [|done]. simpl.
    destruct r as [z|e].
    + destruct E as (_ & w1 & Hok1 & Hc & Hs). eapply same_inv; [exact Hs|]. by eapply created_inv.
    + destruct E as [Hd _]. apply (zones_same_inv w w'); rewrite ?Hd; done.
  - destruct (Update cfg subj id i w) as [r w'] eqn:E. by eapply Update_inv.
  - destruct (Delete cfg subj id w) as [r w'] eqn:E. by eapply Delete_inv.
  - destruct (Notify cfg subj id w) as [r w'] eqn:E. apply Notify_run in E as (Hok' & Hd & _); [|done..].
    simpl. apply (zones_same_inv w w'); rewrite ?Hd; done.
  - destruct (Export cfg subj id w) as [r w'] eqn:E. apply Export_same in E; [|done]. by eapply same_inv.
  - destruct (Get cfg subj id w) as [r w'] eqn:E. apply Get_same in E; [|done]. by eapply same_inv.
  - by apply (same_inv w).
Qed.

Lemma rtc_zinv w0 w : zinv w0 → rtc (λ w w', ∃ t, zstep t w w') w0 w → zinv w.
Proof. intros Hi Hr. induction Hr as [|w1 w2 w3 [t Ht] _ IH]; eauto using zstep_inv. Qed.

Lemma empty_zinv w t0 : wok w → wdb w = MemStore.empty_db t0 → zinv w.
Proof.
  intros Hok He. constructor; [done|rewrite He; apply MemStore.empty_wf|rewrite He; apply map_Forall_empty|].
  intros a b x y. rewrite He. simpl. by rewrite lookup_empty.
Qed.

(** ** The theorems *)



(** An operation for one tenant leaves the server entries of the others. *)
Lemma zstep_isolated (t : str) w w' k z' :
  zinv w → zstep t w w' → MemStore.zones (wdb w) !! k = Some z' → TenantID z' ≠ t →
  Pdns.zones (wsrv w') !! PDNSID z' = Pdns.zones (wsrv w) !! PDNSID z'.
Proof.
  intros Hi Hs Hz Hne. pose proof (zi_ok _ Hi) as Hok. pose proof (zi_db _ Hi) as Hwf.
  assert (Hother : ∀ id z, MemStore.zones (wdb w) !! id = Some z → TenantID z = t → PDNSID z' ≠ PDNSID z).
  { intros id z Hz0 Ht E. assert (k = id) as -> by (apply (MemStore.wf_zone_uniq _ Hwf k id z' z); [done..|by right]).
    congruence. }
  destruct (zi_rows _ Hi k z' Hz) as (Hpid & _ & _).
  assert (Hfree : ∀ name s, Validate.ZoneName s = Ok name → MemStore.zone_conflict t name (wdb w) = false → PDNSID z' ≠ name).
  { intros name s Hn%Validate.ZoneName_canonical Hc E.
    pose proof (conflict_free t name (wdb w) (ex_intro _ s Hn) Hc k z' Hz Hne) as Ho.
    rewrite <- E, Hpid, Overlaps_InZone, InZone_refl in Ho. done. }
  destruct Hs as [subj i Ht|subj id i Ht|subj id Ht|subj id Ht|subj id Ht|subj id Ht|now].
  - destruct (Create cfg subj i w) as [r w'] eqn:E. apply Create_run in E as [_ E]; [|done]. simpl. destruct r as [z|e].
    + destruct E as (_ & w1 & _ & [Hn Htn _ _ _ Hc _ (pz & Hs & _) _] & (_ & Hsv & _)). rewrite Hsv, Hs. simpl.
      rewrite lookup_insert_ne; [done|]. intros E. apply (Hfree (Name z) (CName i)); congruence.
    + destruct E as [_ [->|(name & Hn & Hc & pz & res & _ & -> & _)]]; [done|]. simpl.
      rewrite lookup_insert_ne; [done|]. intros E. apply (Hfree name (CName i)); congruence.
  - destruct (Update cfg subj id i w) as [r w'] eqn:E.
    apply Update_run in E as [[(_ & Hsv & _) _]|(prev & w1 & Hz1 & Ht1 & Hid & Hd1 & Hs1 & Hok1 & r0 & w2 & E & (_ & Hsv & _) & _)];
      [simpl; by rewrite Hsv| |done|done|by apply zinv_kinds].
    pose proof (zinv_kinds _ Hi _ _ Hz1) as Hk. simpl in Hk.
    apply update_run in E as (_ & [Ho _] & _); [|done| |done].
    + simpl. rewrite Hsv, Ho, Hs1; [done|]. apply (Hother id prev Hz1). congruence.
    + apply MemStore.zone_Ok. by rewrite Hd1, Hid.
  - destruct (Delete cfg subj id w) as [r w'] eqn:E.
    apply Delete_run in E as [[(_ & Hsv & _) _]|(z & w1 & Hz1 & Ht1 & Hid & Hd1 & Hs1 & Hok1 & w2 & E & (_ & Hsv & _))];
      [simpl; by rewrite Hsv| |done|done].
    apply delete_run in E as (_ & [Ho _] & _); [|done]. simpl. rewrite Hsv, Ho, Hs1; [done|].
    apply (Hother id z Hz1). congruence.
  - destruct (Notify cfg subj id w) as [r w'] eqn:E.
    simpl. apply Notify_run in E as (_ & _ & [->|(z & Hz1 & Ht1 & Ho & _)]); [done| |done|done].
    apply Ho. apply (Hother id z Hz1). congruence.
  - destruct (Export cfg subj id w) as [r w'] eqn:E. apply Export_same in E as (_ & Hsv & _); [|done]. simpl. by rewrite Hsv.
  - destruct (Get cfg subj id w) as [r w'] eqn:E. apply Get_same in E as (_ & Hsv & _); [|done]. simpl. by rewrite Hsv.
  - done.
Qed.

(** A caller never reaches another tenant's zone on the shared PowerDNS
    server: whatever operation is done for a tenant, whether it succeeds, is
    refused or fails half way, the server's entry of every zone of another tenant
    (its records, metadata and serials) is left exactly as it was. *)
Theorem server_isolation (t : str) w w' k z' :
  zinv w → zstep t w w' → MemStore.zones (wdb w) !! k = Some z' → TenantID z' ≠ t →
  Pdns.zones (wsrv w') !! PDNSID z' = Pdns.zones (wsrv w) !! PDNSID z'.
Proof. apply zstep_isolated. Qed.

(** C6: a zone's PowerDNS metadata stays in step with its row across updates:
    if kind, primaries, DNSSEC flag and account agreed before, they agree with
    the new row after a success and with the old row after a failure, unless
    putting the old metadata back failed too, which is then the last PowerDNS
    call recorded.  A failure leaves the store as it was; a success keeps the
    zone's identity, name and owner. *)
Theorem Update_in_sync subj id i w r w' prev :
  zinv w → MemStore.zones (wdb w) !! id = Some prev → TenantID prev = Authz.STenantID subj → synced prev (wsrv w) →
  Update cfg subj id i w = (r, w') →
  match r with
  | Ok z => MemStore.zones (wdb w') = <[id := z]> (MemStore.zones (wdb w)) ∧ synced z (wsrv w') ∧
            (ID z, TenantID z, Name z, PDNSID z) = (ID prev, TenantID prev, Name prev, PDNSID prev)
  | Err _ => wdb w' = wdb w ∧
      (synced prev (wsrv w') ∨
       ∃ res, last (w_metrics w') = Some (Metrics.PDNSCall "UpdateZoneMetadata" res) ∧ res ≠ Metrics.ResultOK)
  end.
Proof.
  intros Hi Hz Ht Hsy E. pose proof (zi_ok _ Hi) as Hok. pose proof (zi_db _ Hi) as Hwf.
  apply Update_run in E as [[(Hd & Hs & _) [e ->]]|(p & w1 & Hz1 & _ & Hid & Hd1 & Hs1 & Hok1 & r0 & w2 & E & (Hd2 & Hs2 & _) & -> & Hm)];
    [|rewrite Hz in Hz1; injection Hz1 as <-|done|done|by apply zinv_kinds].
  { split; [done|]. left. by rewrite Hs. }
  pose proof (zinv_kinds _ Hi _ _ Hz) as Hk. simpl in Hk.
  apply update_run in E as (_ & _ & E); [|done|apply MemStore.zone_Ok; by rewrite Hd1, Hid|done].
  rewrite Hd1, Hs1 in E. destruct r0 as [z|e].
  - destruct E as ((z0 & Hu & Ht0) & Hi0 & Ht1 & Hn1 & Hp1 & Hk1 & Hsync). rewrite Hd2, Hs2.
    split; [|split; [auto|congruence]]. unfold MemStore.update_zone in Hu.
    destruct (MemStore.zone (TenantID z0) (ID z0) (wdb w)) as [c|]; [|done].
    injection Hu as Hz' Hd'. rewrite <- Hd'. simpl. rewrite Hz'. f_equal. by rewrite <- Hid, <- Hi0, <- Hz'.
  - destruct E as [Hd Hsync]. rewrite Hd2, Hs2, Hm. auto.
Qed.

(** Deleting a zone removes all of it or leaves it to be deleted again:
    after a success the row, the PowerDNS zone, the zone's challenges and every
    IPAM sync reference of the tenant to it are gone; after a failure every row
    of the zone table is still there. *)
Theorem Delete_complete subj id w r w' :
  zinv w → Delete cfg subj id w = (r, w') →
  match r with
  | Ok _ => ∃ z, MemStore.zones (wdb w) !! id = Some z ∧ TenantID z = Authz.STenantID subj ∧
      MemStore.zones (wdb w') = delete id (MemStore.zones (wdb w)) ∧
      Pdns.zones (wsrv w') !! PDNSID z = None ∧
      (∀ k c, MemStore.challenges (wdb w') !! k = Some c → ChZoneID c ≠ id) ∧
      (∀ k s, MemStore.sync (wdb w') !! k = Some s → SyTenantID s = TenantID z →
         (SyForwardZoneID s = id → id = []) ∧ (SyReverseZoneID s = id → id = []))
  | Err _ => MemStore.zones (wdb w') = MemStore.zones (wdb w)
  end.
Proof.
  intros Hi E. pose proof (zi_ok _ Hi) as Hok. pose proof (zi_db _ Hi) as Hwf.
  apply Delete_run in E as [[(Hd & _) [e ->]]|(z & w1 & Hz & Ht & Hid & Hd1 & Hs1 & Hok1 & w2 & E & (Hd2 & Hs2 & _))];
    [by rewrite Hd| |done|done].
  apply delete_run in E as (_ & _ & d1 & Hd & E); [|done]. rewrite Hd1 in Hd, E.
  assert (Hz1 : MemStore.zones d1 = MemStore.zones (wdb w)) by (by destruct Hd as [-> | ->]).
  rewrite Hd2. destruct r as [[]|e]; [|by rewrite E]. rewrite Hs2. destruct E as (Hn & -> & E).
  exists z. split; [done|]. split; [done|]. rewrite (delete_zone_sub _ _ _ _ E), Hid.
  split; [done|]. split; [done|].
  unfold MemStore.delete_zone in E. destruct (MemStore.zone _ _ _) as [c|]; [|done]. injection E as <-. simpl. split.
  - intros k ch [Hc Hnn]%map_lookup_filter_Some Hcz. simpl in Hnn. apply Hnn. rewrite Hid. split; [|done].
    destruct (MemStore.wf_challenge_zone _ Hwf k ch Hc) as (y & Hy & <-). rewrite Hcz, Hz in Hy. by injection Hy as <-.
  - intros k s. rewrite lookup_fmap. intros (x & Hx & ->)%fmap_Some_1. unfold MemStore.clear_one. rewrite Hid.
    case_bool_decide as Hxt; cbn [negb]; [|done]. simpl. intros _. split; case_bool_decide; congruence.
Qed.
End Spec.

(** ** A concrete module *)

Module Concrete.
#[local] Existing Instance unicode_min.
#[local] Existing Instance miekg_plain.
#[local] Existing Instance miekg_plain_laws.
#[local] Existing Instance psl_tld.

Definition no_templates : TemplateExpander MemStore.Mem :=
  {| Expand t i z s := (Err (New ErrTemplateNotFound), s); Expand_reads t i z s := eq_refl |}.
#[local] Existing Instance no_templates.

Definition cfg0 : Config := mkConfig None false 33554432 (λ n, "id" ++ Itoa (Z.of_nat n)).
Definition world0 : World MemStore.Mem Pdns.Fake Recursor.Fake :=
  mkWorld (MemStore.NewMem 50) Pdns.NewFake (Some Recursor.NewFake) [] [] [] 100 0.
Definition alice : Authz.Subjects := Authz.User "t1" "alice" [].
Definition bob : Authz.Subjects := Authz.User "t2" "bob" [].
Definition native (name : str) : CreateInput :=
  mkCreateInput name "native" [] ["ns1.example.net" : str] false "a zone" [] [] [].

Definition world1 := (Create cfg0 alice (native "Example.com") world0).2.

(** Two creations whose checks both run before either writes. *)
Definition race : World MemStore.Mem Pdns.Fake Recursor.Fake :=
  let '((za, _), w) := prepare cfg0 alice (native "example.com") world0 in
  let '((zb, _), w) := prepare cfg0 bob (native "www.example.com") w in
  let '(ra, w) := create_check cfg0 za (native "example.com") w in
  let '(rb, w) := create_check cfg0 zb (native "www.example.com") w in
  match ra, rb with
  | Ok rsa, Ok rsb =>
    let '(_, w) := create_commit za rsa w in
    let '(_, w) := create_commit zb rsb w in w
  | _, _ => w
  end.

(** The overlap check is not atomic with the insert: when two tenants
    create nested zones at the same time and both checks run first, both zones
    are created, and names below the inner one are in zones of two tenants (the
    unique index only guards equal names). *)
Example create_race :
  match MemStore.zones (wdb race) !! ("id0" : str), MemStore.zones (wdb race) !! ("id1" : str) with
  | Some z, Some z' => negb (bool_decide (TenantID z = TenantID z')) && InZone (Name z') (Name z)
  | _, _ => false
  end = true.
Proof. vm_compute. reflexivity. Qed.

Lemma world0_ok : wok world0.
Proof. apply map_Forall_empty. Qed.

(** The zone made by the first creation. *)
Definition row1 : Zone :=
  mkZone "id0" "t1" "example.com." "example.com." "native" [] false "a zone" [] "manual" ["ns1.example.net." : str] "alice" 100 100.

Lemma row1_stored : MemStore.zones (wdb world1) !! ("id0" : str) = Some row1.
Proof. vm_compute. reflexivity. Qed.

Lemma row1_synced : synced row1 (wsrv world1).
Proof.
  unfold synced. destruct (Pdns.zones (wsrv world1) !! PDNSID row1) as [pz|] eqn:Ez; vm_compute in Ez; [|discriminate].
  injection Ez as <-. eexists. split; [reflexivity|]. repeat split.
Qed.

Lemma world1_inv : zinv world1.
Proof.
  eapply (zstep_inv cfg0 "t1" world0); [by constructor|].
  apply (empty_zinv world0 50); [apply world0_ok|reflexivity].
Qed.


(** Alice's second zone, below her first. *)
Definition world1b := (Create cfg0 alice (native "www.example.com") world1).2.
Definition row1b : Zone :=
  mkZone "id1" "t1" "www.example.com." "www.example.com." "native" [] false "a zone" [] "manual" ["ns1.example.net." : str] "alice" 100 100.


Lemma server_isolation_witness :
  Pdns.zones (wsrv (Create cfg0 bob (native "bob.org") world1).2) !! ("example.com." : str)
  = Pdns.zones (wsrv world1) !! ("example.com." : str)
  ∧ Pdns.zones (wsrv (Create cfg0 bob (native "bob.org") world1).2) !! ("bob.org." : str) ≠ None.
Proof.
  split; [|vm_compute; discriminate].
  apply (server_isolation cfg0 "t2" world1 _ "id0" row1); [apply world1_inv|by constructor|apply row1_stored|discriminate].
Defined.

Lemma Update_in_sync_witness :
  let i := mkUpdateInput (Some ("master" : str)) None (Some true) None in
  ∃ z, (Update cfg0 alice "id0" i world1).1 = Ok z ∧ synced z (wsrv (Update cfg0 alice "id0" i world1).2).
Proof.
  intros i. destruct (Update cfg0 alice "id0" i world1) as [r w'] eqn:E.
  assert (Hr : r = (Update cfg0 alice "id0" i world1).1) by (rewrite E; reflexivity). vm_compute in Hr.
  pose proof (Update_in_sync cfg0 alice "id0" i world1 r w' row1 world1_inv row1_stored eq_refl) as H.
  subst r. cbv beta iota in H. eexists. split; [reflexivity|]. apply H; [apply row1_synced|exact E].
Defined.

Lemma Delete_complete_witness :
  (Delete cfg0 alice "id0" world1).1 = Ok () ∧ MemStore.zones (wdb (Delete cfg0 alice "id0" world1).2) !! ("id0" : str) = None.
Proof.
  destruct (Delete cfg0 alice "id0" world1) as [r w'] eqn:E.
  assert (Hr : r = (Delete cfg0 alice "id0" world1).1) by (rewrite E; reflexivity). vm_compute in Hr.
  pose proof (Delete_complete cfg0 alice "id0" world1 r w' world1_inv E) as H. subst r. cbv beta iota in H.
  split; [reflexivity|]. destruct H as (z & _ & _ & H & _). cbn [snd]. rewrite H. apply lookup_delete_eq.
Defined.
End Concrete.
End ZonesSpec.
