(* ===== verification/Supermasters.v ===== *)
(** * Supermasters ([internal/supermasters/supermasters.go])

    The autoprimaries of the shared server.  Only a platform administrator
    changes them; every change goes to PowerDNS first and is taken back when the
    store refuses it. *)
From Stdlib Require Import Ascii.
From S2P Require Import Prelude GoStrings GoError Store Names Netip Masters Authz MemStore Pdns Recursor World Zones.
Local Open Scope Z_scope.

Module Supermasters.
Import Zones Store.

Definition SubjectSupermaster : str := "supermaster".
Definition SupermasterCreate : str := "supermaster.create".
Definition SupermasterDelete : str := "supermaster.delete".

Record Input := mkInput { InIP : str; InNameserver : str }.

(** The wiring: the permission checker and the source of ids. *)
Record Config := mkConfig { cChecker : option Authz.Checker; cNewID : nat → str }.

Definition mapPDNS (e : error) : error :=
  if Is e PdnsErrConflict then New SupermastersErrDuplicate
  else match asAPIError e with
  | Some st => if (400 <=? st) && (st <? 500) && negb (Is e PdnsErrNotFound)
               then Wrapf (New SupermastersErrRejected) ("(status " ++ Itoa st ++ ")") else e
  | None => e
  end.

Definition pdnsName (ns : str) : str := TrimSuffix ns ".".

(** The outcome and the reason an error is audited with. *)
Definition audit_outcome (e : option error) : str * str :=
  match e with
  | None => (AuditEvent.OutcomeOK, [])
  | Some e =>
    if Is e ErrForbidden then (AuditEvent.OutcomeRefused, "forbidden" : str)
    else if Is e SupermastersErrDuplicate then (AuditEvent.OutcomeRefused, "conflict" : str)
    else if Is e SupermastersErrNotFound then (AuditEvent.OutcomeRefused, "not_found" : str)
    else if Is e SupermastersErrRejected || Is e ErrMasters || Is e ErrName then (AuditEvent.OutcomeRefused, "bad_request" : str)
    else if Is e PdnsErrUnavailable then (AuditEvent.OutcomeError, "pdns_unavailable" : str)
    else (AuditEvent.OutcomeError, "error" : str)
  end.

Section Service.
Context {U : Unicode} {DNS : MiekgDNS}.
Context {S P R : Type} {RS : MemStore.RepoStore S} {PC : Pdns.PDNSClient P}.
Context (cfg : Config).
Abbreviation W := (World S P R).

Definition guard (subj : Authz.Subjects) : res unit :=
  if bool_decide (Authz.STenantID subj = []) then Err (Authz.forbidden "tenant required")
  else if Authz.IsHuman subj && match cChecker cfg with None => true | Some _ => false end then Ok ()
  else Authz.Require_ (cChecker cfg) subj Authz.SupermastersManage.
Definition guardAdmin (subj : Authz.Subjects) : res unit :=
  _ ← Authz.RequirePlatformAdmin subj; guard subj.

(** A PowerDNS call with its metric: [call] counts as [Zones.Call] does, but
    for the recursor's error, which PowerDNS does not give. *)
Definition Result (r : option error) : str :=
  match r with
  | None => Metrics.ResultOK
  | Some e =>
    if Is e PdnsErrNotFound then Metrics.ResultNotFound
    else if Is e PdnsErrConflict then Metrics.ResultConflict
    else if Is e PdnsErrUnavailable then Metrics.ResultUnavailable
    else Metrics.ResultError
  end.
Definition call {A} (op : str) (f : P → res A * P) : M W (res A) :=
  r ← on_pdns f; _ ← metric (Metrics.PDNSCall op (Result (err_of r))); mret r.

Definition audit (subj : Authz.Subjects) (t : str) (sm : Supermaster) (e : option error) : M W unit :=
  let '(outcome, reason) := audit_outcome e in
  record_audit (AuditEvent.mkEvent (Authz.STenantID subj) t (AuditEvent.ActorOf (Authz.ActorKind subj)) (Authz.ActorID subj)
    SubjectSupermaster (SmID sm) outcome reason [("ip" : str, SmIP sm); ("nameserver" : str, SmNameserver sm)]).

Definition List_ {LQ : ListQuery} (subj : Authz.Subjects) (req : Request) : M W (res (list Supermaster * Z * Request)) :=
  match guard subj with
  | Err e => mret (Err e)
  | Ok _ => on_store (MemStore.repo_ListSupermasters (Authz.STenantID subj) req)
  end.

Definition get (subj : Authz.Subjects) (id : str) : M W (res Supermaster) :=
  r ← on_store (MemStore.repo_GetSupermaster (Authz.STenantID subj) id);
  mret match r with
       | Ok s => Ok s
       | Err e => if Is e RepoErrNotFound then Err (New SupermastersErrNotFound) else Err e
       end.
Definition Get (subj : Authz.Subjects) (id : str) : M W (res Supermaster) :=
  match guard subj with Err e => mret (Err e) | Ok _ => get subj id end.

(** What PowerDNS holds for a supermaster. *)
Definition entry_of (sm : Supermaster) : Pdns.Supermaster :=
  Pdns.mkSupermaster (SmIP sm) (pdnsName (SmNameserver sm)) (SmTenantID sm).

(** The checked row: [sm] gets its address and name only when both are valid. *)
Definition prepare (subj : Authz.Subjects) (i : Input) (sm : Supermaster) : res Supermaster :=
  _ ← guardAdmin subj;
  ip ← Masters.IPGuard (InIP i);
  ns ← Validate.Hostname (InNameserver i);
  Ok (mkSupermaster (SmID sm) (SmTenantID sm) (Netip.String ip) ns (SmCreatedBy sm) (SmCreatedAt sm)).

(** PowerDNS, then the store; the entry is taken back when the store refuses. *)
Definition commit (sm : Supermaster) : M W (option error) :=
  c ← call "CreateSupermaster" (Pdns.pdns_CreateSupermaster (entry_of sm));
  match c with
  | Err e => mret (Some (mapPDNS e))
  | Ok _ =>
    r ← on_store (MemStore.repo_CreateSupermaster sm);
    match r with
    | Ok _ => mret None
    | Err e =>
      _ ← call "DeleteSupermaster" (Pdns.pdns_DeleteSupermaster (SmIP sm) (pdnsName (SmNameserver sm)));
      mret (Some (if Is e RepoErrConflict then New SupermastersErrDuplicate else e))
    end
  end.

(** The row and the error: the audit record names the row. *)
Definition create (subj : Authz.Subjects) (i : Input) (sm : Supermaster) : M W (Supermaster * option error) :=
  match prepare subj i sm with
  | Err e => mret (sm, Some e)
  | Ok sm => e ← commit sm; mret (sm, e)
  end.

Definition Create (subj : Authz.Subjects) (i : Input) : M W (res Supermaster) :=
  id ← mint (cNewID cfg);
  t ← now;
  x ← create subj i (mkSupermaster id (Authz.STenantID subj) [] [] (Authz.ActorID subj) t);
  let '(sm, e) := x in
  _ ← audit subj SupermasterCreate sm e;
  mret match e with Some e => Err e | None => Ok sm end.

Definition zeroSupermaster : Supermaster := mkSupermaster [] [] [] [] [] 0.

(** The entry is removed from PowerDNS, then the row from the store; the entry
    is restored when the store refuses. *)
Definition drop_row (sm : Supermaster) (gone : bool) : M W (option error) :=
  d ← on_store (MemStore.repo_DeleteSupermaster (SmTenantID sm) (SmID sm));
  match d with
  | Ok _ => mret None
  | Err e =>
    _ ← (if gone then mret (Ok ()) else call "CreateSupermaster" (Pdns.pdns_CreateSupermaster (entry_of sm)));
    mret (Some (if Is e RepoErrNotFound then New SupermastersErrNotFound else e))
  end.
Definition delete_ (subj : Authz.Subjects) (id : str) : M W (Supermaster * option error) :=
  match guardAdmin subj with
  | Err e => mret (zeroSupermaster, Some e)
  | Ok _ =>
    g ← get subj id;
    match g with
    | Err e => mret (zeroSupermaster, Some e)
    | Ok sm =>
      c ← call "DeleteSupermaster" (Pdns.pdns_DeleteSupermaster (SmIP sm) (pdnsName (SmNameserver sm)));
      let gone := match c with Err e => Is e PdnsErrNotFound | Ok _ => false end in
      match c with
      | Err e => if gone then r ← drop_row sm gone; mret (sm, r) else mret (sm, Some (mapPDNS e))
      | Ok _ => r ← drop_row sm gone; mret (sm, r)
      end
    end
  end.

Definition Delete (subj : Authz.Subjects) (id : str) : M W (res unit) :=
  x ← delete_ subj id;
  let '(sm, e) := x in
  let sm := if bool_decide (SmID sm = [])
            then mkSupermaster id (SmTenantID sm) (SmIP sm) (SmNameserver sm) (SmCreatedBy sm) (SmCreatedAt sm) else sm in
  _ ← audit subj SupermasterDelete sm e;
  mret match e with Some e => Err e | None => Ok () end.
End Service.

(** ** Theorems *)

(** The autoprimaries of the server have different keys. *)
Definition sm_key (s : Pdns.Supermaster) : str * str := (Pdns.SIP s, Pdns.SNameserver s).
Definition sm_uniq (l : list Pdns.Supermaster) : Prop := NoDup (map sm_key l).

Lemma same_sm_key ip ns x : Pdns.same_sm ip ns x = true ↔ sm_key x = (ip, ns).
Proof. unfold Pdns.same_sm, sm_key. rewrite bool_decide_eq_true. split; [by intros [-> ->]|by intros [= -> ->]]. Qed.

Lemma existsb_sm ip ns l : existsb (Pdns.same_sm ip ns) l = false ↔ ((ip, ns) ∉ map sm_key l).
Proof.
  rewrite list_elem_of_fmap. split.
  - intros H (x & Hk & Hx). apply not_true_iff_false in H. apply H, existsb_exists. exists x. split; [by apply list_elem_of_In|by apply same_sm_key].
  - intros H. apply not_true_iff_false. intros (x & Hx & Hk)%existsb_exists. apply H. exists x.
    split; [by apply same_sm_key in Hk|by apply list_elem_of_In].
Qed.

Lemma create_sm_cases e l r l' :
  Pdns.create_supermaster e l = (r, l') →
  (l' = l ∧ is_ok r = false) ∨ (r = Ok () ∧ (sm_key e ∉ map sm_key l) ∧ l' = l ++ [e]).
Proof.
  unfold Pdns.create_supermaster. destruct (existsb _ l) eqn:E; intros [= <- <-]; [by left|]. right. by apply existsb_sm in E.
Qed.

Lemma delete_sm_cases ip ns l r l' :
  Pdns.delete_supermaster ip ns l = (r, l') →
  match r with
  | Ok _ => ∃ l1 x l2, l = l1 ++ x :: l2 ∧ l' = l1 ++ l2 ∧ sm_key x = (ip, ns)
  | Err e => l' = l ∧ ((ip, ns) ∉ map sm_key l) ∧ Is e PdnsErrNotFound = true
  end.
Proof.
  unfold Pdns.delete_supermaster. destruct (Pdns.remove_first _ l) as [l0|] eqn:E; intros [= <- <-].
  - revert l0 E. induction l as [|x l IH]; simpl; intros l0 E; [done|]. destruct (Pdns.same_sm ip ns x) eqn:Ex.
    + injection E as <-. exists [], x, l. split_and!; [done..|by apply same_sm_key].
    + destruct (Pdns.remove_first _ l) as [l1|]; [|done]. injection E as <-. destruct (IH l1 eq_refl) as (a & y & b & -> & -> & Hy).
      by exists (x :: a), y, b.
  - split; [done|]. split; [|done]. apply existsb_sm. induction l as [|x l IH]; simpl in *; [done|].
    destruct (Pdns.same_sm ip ns x); [done|]. destruct (Pdns.remove_first _ l); [done|]. by apply IH.
Qed.

Section Spec.
Context {U : Unicode} {DNS : MiekgDNS}.
Context {S P R : Type} {RS : MemStore.RepoStore S} {PC : Pdns.PDNSClient P}.
Context (cfg : Config).
Abbreviation W := (World S P R).
Implicit Types w : World S P R.
Abbreviation sms w := (Pdns.supermasters (Zones.wsrv w)).
Abbreviation with_sms w l := (Pdns.mkServer (Pdns.zones (Zones.wsrv w)) l).

Lemma call_run {A} name op core (r : res A) w w' :
  faithful Pdns.pdns_ok Pdns.pdns_view Pdns.fault op core → Zones.wok w → call name op w = (r, w') →
  Zones.wdb w' = Zones.wdb w ∧ Zones.wok w' ∧ w_metrics w' = w_metrics w ++ [Metrics.PDNSCall name (Result (err_of r))] ∧
  ((∃ e, r = Err e ∧ Pdns.fault e ∧ Zones.wsrv w' = Zones.wsrv w) ∨ core (Zones.wsrv w) = (r, Zones.wsrv w')).
Proof.
  unfold call, on_pdns, metric, mbind, M_bind, mret, M_ret. intros Hf Hok.
  destruct (op (w_pdns w)) as [r0 p] eqn:E. intros [= <- <-].
  destruct (Hf _ _ _ Hok E) as [? H]. unfold Zones.wsrv, Zones.wok, Zones.wdb. simpl. auto.
Qed.

(** The creation of an entry: it was not there and is the last one now, or
    nothing changed; a refusal is counted as such. *)
Lemma call_create e r w w' :
  Zones.wok w → call "CreateSupermaster" (Pdns.pdns_CreateSupermaster e) w = (r, w') →
  Zones.wdb w' = Zones.wdb w ∧ Zones.wok w' ∧ w_metrics w' = w_metrics w ++ [Metrics.PDNSCall "CreateSupermaster" (Result (err_of r))] ∧
  ((is_ok r = false ∧ Zones.wsrv w' = Zones.wsrv w) ∨
   (r = Ok () ∧ (sm_key e ∉ map sm_key (sms w)) ∧ Zones.wsrv w' = with_sms w (sms w ++ [e]))).
Proof.
  intros Hok (Hd & Ho & Hm & H)%(call_run _ _ _ _ _ _ (Pdns.pdns_CreateSupermaster_ok e)); [|done]. split_and!; [done..|].
  destruct H as [(x & -> & _ & H)|H]; [by left|]. unfold Pdns.on_sms in H.
  destruct (Pdns.create_supermaster e (sms w)) as [r0 l] eqn:E. injection H as <- <-.
  destruct (create_sm_cases _ _ _ _ E) as [[-> ?]|(-> & ? & ->)]; [left|by right]. by destruct (Zones.wsrv w).
Qed.

Lemma call_delete ip ns r w w' :
  Zones.wok w → call "DeleteSupermaster" (Pdns.pdns_DeleteSupermaster ip ns) w = (r, w') →
  Zones.wdb w' = Zones.wdb w ∧ Zones.wok w' ∧ w_metrics w' = w_metrics w ++ [Metrics.PDNSCall "DeleteSupermaster" (Result (err_of r))] ∧
  match r with
  | Ok _ => ∃ l1 x l2, sms w = l1 ++ x :: l2 ∧ Zones.wsrv w' = with_sms w (l1 ++ l2) ∧ sm_key x = (ip, ns)
  | Err e => Zones.wsrv w' = Zones.wsrv w ∧ (Is e PdnsErrNotFound = true → ((ip, ns) ∉ map sm_key (sms w)))
  end.
Proof.
  intros Hok (Hd & Ho & Hm & H)%(call_run _ _ _ _ _ _ (Pdns.pdns_DeleteSupermaster_ok ip ns)); [|done]. split_and!; [done..|].
  destruct H as [(x & -> & Hf & H)|H].
  { split; [done|]. apply Pdns.call_fault_kinds in Hf as [Hf _]. congruence. }
  unfold Pdns.on_sms in H. destruct (Pdns.delete_supermaster ip ns (sms w)) as [r0 l] eqn:E. injection H as <- <-.
  apply delete_sm_cases in E. destruct r0 as [[]|e].
  - destruct E as (l1 & x & l2 & ? & -> & ?). by exists l1, x, l2.
  - destruct E as (-> & ? & _). by destruct (Zones.wsrv w).
Qed.

(** The last PowerDNS call of a state failed. *)
Definition failed_last (op : str) (w : W) : Prop := ∃ res, last (w_metrics w) = Some (Metrics.PDNSCall op res) ∧ res ≠ Metrics.ResultOK.

Lemma failed_now {A} op (r : res A) ms :
  is_ok r = false → ∃ res, last (ms ++ [Metrics.PDNSCall op (Result (err_of r))]) = Some (Metrics.PDNSCall op res) ∧ res ≠ Metrics.ResultOK.
Proof. intros H. eexists. rewrite last_snoc. split; [done|]. destruct r; [done|]. simpl. by repeat case_match. Qed.

Lemma uniq_last l e : sm_uniq l → sm_key e ∉ map sm_key l → sm_uniq (l ++ [e]).
Proof.
  unfold sm_uniq. rewrite map_app, NoDup_app. intros Hl He. split; [done|]. split; [|by apply NoDup_singleton].
  intros k Hk ->%list_elem_of_singleton. done.
Qed.

Lemma split_last (l l1 l2 : list Pdns.Supermaster) e x :
  (sm_key e ∉ map sm_key l) → l ++ [e] = l1 ++ x :: l2 → sm_key x = sm_key e → l1 ++ l2 = l.
Proof.
  intros He Hl Hx. destruct l2 as [|y l2 _] using rev_ind.
  - apply app_inj_tail in Hl as [-> _]. by rewrite app_nil_r.
  - rewrite app_comm_cons, app_assoc in Hl. apply app_inj_tail in Hl as [-> ->]. destruct He. rewrite <- Hx.
    apply list_elem_of_fmap. exists x. split; [done|]. set_solver.
Qed.

Lemma commit_run sm e w w' :
  Zones.wok w → sm_uniq (sms w) → commit sm w = (e, w') →
  Zones.wok w' ∧ sm_uniq (sms w') ∧
  match e with
  | None => MemStore.create_supermaster sm (Zones.wdb w) = (Ok (), Zones.wdb w') ∧ (sm_key (entry_of sm) ∉ map sm_key (sms w)) ∧
      Zones.wsrv w' = with_sms w (sms w ++ [entry_of sm])
  | Some _ => Zones.wdb w' = Zones.wdb w ∧
      (Zones.wsrv w' = Zones.wsrv w ∨ Zones.wsrv w' = with_sms w (sms w ++ [entry_of sm]) ∧ failed_last "DeleteSupermaster" w')
  end.
Proof.
  intros Hok Hu H. unfold commit in H. run_bind H c w1 E1. apply call_create in E1 as (Hd1 & Hok1 & _ & E1); [|done].
  destruct c as [[]|e1].
  2:{ injection H as <- <-. destruct E1 as [[_ Hs]|(? & _)]; [|done]. rewrite Hs. auto. }
  destruct E1 as [[? _]|(_ & Hn & Hs1)]; [done|]. pose proof (uniq_last _ _ Hu Hn) as Hu1. run_bind H x w2 E2.
  apply (Zones.on_store_run _ _ _ _ _ (MemStore.repo_CreateSupermaster_ok sm)) in E2 as (Hs2 & Hok2 & _ & E2).
  rewrite Hs1 in Hs2. destruct x as [[]|e2].
  - injection H as <- <-. destruct E2 as [(? & ? & _)|E2]; [done|]. rewrite Hs2. split; [auto|]. split; [done|]. by rewrite Hd1 in E2.
  - assert (Hd2 : Zones.wdb w2 = Zones.wdb w).
    { rewrite <- Hd1. destruct E2 as [(_ & _ & _ & ?)|E2]; [done|]. unfold MemStore.create_supermaster in E2. by repeat case_match; simplify_eq. }
    run_bind H d w3 E3. apply call_delete in E3 as (Hd3 & Hok3 & Hm3 & E3); [|auto]. injection H as <- <-. rewrite Hs2 in E3. simpl in E3.
    split; [done|]. destruct d as [[]|e3].
    + destruct E3 as (l1 & x & l2 & Hl & Hs3 & Hx). rewrite Hs3.
      assert (l1 ++ l2 = sms w) as ->; [|split; [done|]; split; [congruence|]; left; by destruct (Zones.wsrv w)].
      by apply (split_last _ _ _ (entry_of sm) x).
    + destruct E3 as [Hs3 _]. rewrite Hs3. split; [done|]. split; [congruence|]. right. split; [done|].
      unfold failed_last. rewrite Hm3. by apply (failed_now (A := unit)).
Qed.

Lemma quiet_sm_audit subj t sm e : quiet (@audit S P R subj t sm e).
Proof. unfold audit. destruct (audit_outcome e). apply quiet_audit. Qed.

Lemma audit_metrics subj t sm e w : w_metrics (@audit S P R subj t sm e w).2 = w_metrics w.
Proof. unfold audit. by destruct (audit_outcome e). Qed.

Lemma prepare_Ok subj i sm sm' :
  prepare cfg subj i sm = Ok sm' →
  Authz.IsPlatformAdmin subj = true ∧ Authz.STenantID subj ≠ [] ∧ SmID sm' = SmID sm ∧ SmTenantID sm' = SmTenantID sm ∧
  (∃ ip, Masters.IPGuard (InIP i) = Ok ip ∧ SmIP sm' = Netip.String ip) ∧ Validate.Hostname (InNameserver i) = Ok (SmNameserver sm').
Proof.
  unfold prepare, guardAdmin. intros ([] & H & (ip & Hip & (ns & Hns & [= <-])%bind_Ok)%bind_Ok)%bind_Ok.
  apply bind_Ok in H as ([] & Ha & Hg). unfold Authz.RequirePlatformAdmin in Ha. unfold guard in Hg.
  destruct (Authz.IsPlatformAdmin subj); [|done]. case_bool_decide; [done|]. split_and!; eauto.
Qed.

(** Creating a supermaster is for platform administrators and all or
    nothing: when it succeeds the caller is one, the address passed the guard of
    primaries, no such autoprimary was on the server, and exactly the row and
    the server's entry, with the tenant as its account, were added; when it fails
    the store is as before and so is the server, unless the compensating removal
    failed too, which is then the last call recorded. *)
Theorem Create_supermaster_atomic subj i w r w' :
  Zones.wok w → sm_uniq (sms w) → Create cfg subj i w = (r, w') →
  Zones.wok w' ∧ sm_uniq (sms w') ∧
  match r with
  | Ok sm => Authz.IsPlatformAdmin subj = true ∧ SmTenantID sm = Authz.STenantID subj ∧ SmTenantID sm ≠ [] ∧
      (∃ ip, Masters.IPGuard (InIP i) = Ok ip ∧ SmIP sm = Netip.String ip) ∧ Validate.Hostname (InNameserver i) = Ok (SmNameserver sm) ∧
      MemStore.create_supermaster sm (Zones.wdb w) = (Ok (), Zones.wdb w') ∧ (sm_key (entry_of sm) ∉ map sm_key (sms w)) ∧
      Zones.wsrv w' = with_sms w (sms w ++ [entry_of sm])
  | Err _ => Zones.wdb w' = Zones.wdb w ∧
      (Zones.wsrv w' = Zones.wsrv w ∨
       ∃ sm, Zones.wsrv w' = with_sms w (sms w ++ [entry_of sm]) ∧ failed_last "DeleteSupermaster" w')
  end.
Proof.
  intros Hok Hu H. unfold Create in H. run_bind H i0 w0 E0. run_bind H t w1 E1. run_bind H x w2 E2. destruct x as [sm e].
  run_bind H u w3 E3. pose proof (quiet_same _ _ _ _ (quiet_sm_audit _ _ _ _) E3) as (Hd3 & Hs3 & Hok3).
  assert (Hm3 : w_metrics w3 = w_metrics w2) by (pose proof (audit_metrics subj SupermasterCreate sm e w2) as Hm; by rewrite E3 in Hm).
  assert (H01 : wdb w1 = wdb w ∧ wsrv w1 = wsrv w ∧ (wok w → wok w1)) by (injection E0 as _ <-; by injection E1 as _ <-).
  destruct H01 as (Hd1 & Hs1 & Hok1). injection H as <- <-. unfold create in E2.
  destruct (prepare cfg subj i _) as [sm'|e'] eqn:Ep.
  2:{ injection E2 as <- <- <-. rewrite Hs3, Hs1, Hd3, Hd1. split; [auto|]. split; [done|]. split; [done|]. by left. }
  run_bind E2 e2 w2' Ec. apply commit_run in Ec as (Hok2 & Hu2 & Hc); [|by auto|by rewrite Hs1]. injection E2 as <- <- <-.
  rewrite Hs3, Hd3. split; [auto|]. split; [done|]. rewrite Hs1, Hd1 in Hc. apply prepare_Ok in Ep as (Ha & Ht & _ & Htn & Hip & Hns).
  destruct e2 as [e2|].
  - destruct Hc as [Hdb Hc]. split; [done|]. destruct Hc as [?|[? Hf]]; [by left|]. right. exists sm'. split; [done|].
    unfold failed_last in *. by rewrite Hm3.
  - destruct Hc as (? & ? & ?). rewrite Htn. by split_and!.
Qed.

(** What a deletion leaves of the server's entries: the others are untouched. *)
Definition others_kept (k : str * str) (l l' : list Pdns.Supermaster) : Prop := ∀ e, sm_key e ≠ k → e ∈ l' ↔ e ∈ l.

Lemma removed_kept l l1 x l2 k : l = l1 ++ x :: l2 → sm_key x = k → sm_uniq l → others_kept k l (l1 ++ l2) ∧ (k ∉ map sm_key (l1 ++ l2)) ∧ sm_uniq (l1 ++ l2).
Proof.
  intros -> <- Hu. unfold sm_uniq in Hu. rewrite map_app in Hu. simpl in Hu. rewrite NoDup_app, NoDup_cons in Hu. destruct Hu as (H1 & H2 & H3 & H4).
  split; [|split].
  - intros e He. rewrite !elem_of_app, elem_of_cons. naive_solver.
  - rewrite map_app, elem_of_app. intros [H|H]; [|done]. by apply (H2 _ H), elem_of_cons; left.
  - unfold sm_uniq. rewrite map_app, NoDup_app. split_and!; [done| |done]. intros y Hy Hy'. apply (H2 y Hy), elem_of_cons. by right.
Qed.

Lemma get_run subj id r w w' :
  get subj id w = (r, w') → same w w' ∧ w_metrics w' = w_metrics w ∧ ∀ sm, r = Ok sm → MemStore.supermaster (Authz.STenantID subj) id (wdb w) = Ok sm.
Proof.
  unfold get. intros H. run_bind H x w1 E1. apply (on_store_read _ _ _ _ _ (MemStore.repo_GetSupermaster_ok _ _)) in E1 as (S1 & M1 & E1).
  injection H as <- <-. split; [done|]. split; [done|]. intros sm. destruct x; [|by case_if as E]. intros [= ->].
  destruct E1 as [(? & ? & _)|E1]; [done|by symmetry].
Qed.

(** The row goes, or stays and its entry with it. *)
Lemma drop_row_run sm (gone : bool) e w w' :
  wok w → sm_uniq (sms w) → (sm_key (entry_of sm) ∉ map sm_key (sms w)) →
  MemStore.supermaster (SmTenantID sm) (SmID sm) (wdb w) = Ok sm → drop_row sm gone w = (e, w') →
  wok w' ∧
  match e with
  | None => wdb w' = MemStore.set_supermasters (delete (SmID sm) (MemStore.supermasters (wdb w))) (wdb w) ∧ wsrv w' = wsrv w
  | Some _ => wdb w' = wdb w ∧
      if gone then wsrv w' = wsrv w
      else wsrv w' = with_sms w (sms w ++ [entry_of sm]) ∨ (wsrv w' = wsrv w ∧ failed_last "CreateSupermaster" w')
  end.
Proof.
  intros Hok Hu Hn Hrow H. unfold drop_row in H. run_bind H d w1 E1.
  apply (on_store_run _ _ _ _ _ (MemStore.repo_DeleteSupermaster_ok _ _)) in E1 as (Hs1 & Hok1 & _ & E1).
  unfold MemStore.delete_supermaster in E1. rewrite Hrow in E1. destruct d as [[]|e1].
  - injection H as <- <-. split; [auto|]. split; [|done]. destruct E1 as [(? & ? & _)|E1]; [done|]. by injection E1.
  - assert (Hd1 : wdb w1 = wdb w) by (by destruct E1 as [(_ & _ & _ & ?)|E1]). run_bind H x w2 E2. injection H as <- <-.
    destruct gone; [injection E2 as _ <-; split; [auto|by split]|].
    apply call_create in E2 as (Hd2 & Hok2 & Hm2 & E2); [|auto]. rewrite Hs1 in E2. split; [done|]. split; [congruence|].
    destruct E2 as [[Hx ->]|(_ & _ & ->)]; [right|by left]. split; [done|]. unfold failed_last. rewrite Hm2. by apply (failed_now (A := unit)).
Qed.

(** Deleting a supermaster removes exactly its row and its entry: when it
    succeeds the caller is a platform administrator, the row was the tenant's, it
    is gone and so is the server's entry of its key; when it fails the store is as
    before, and the server's entry was left, restored, was not there, or its
    restoration failed, which is then the last call recorded.  Entries of other
    keys always stay. *)
Theorem Delete_supermaster_exact subj id w r w' :
  wok w → sm_uniq (sms w) → MemStore.db_wf (wdb w) → Delete cfg subj id w = (r, w') →
  wok w' ∧ Pdns.zones (wsrv w') = Pdns.zones (wsrv w) ∧
  match r with
  | Ok _ => ∃ sm, Authz.IsPlatformAdmin subj = true ∧ MemStore.supermaster (Authz.STenantID subj) id (wdb w) = Ok sm ∧
      wdb w' = MemStore.set_supermasters (delete id (MemStore.supermasters (wdb w))) (wdb w) ∧
      (sm_key (entry_of sm) ∉ map sm_key (sms w')) ∧ others_kept (sm_key (entry_of sm)) (sms w) (sms w')
  | Err _ => wdb w' = wdb w ∧
      (sms w' = sms w ∨ ∃ sm, MemStore.supermaster (Authz.STenantID subj) id (wdb w) = Ok sm ∧
        others_kept (sm_key (entry_of sm)) (sms w) (sms w') ∧ (entry_of sm ∈ sms w' ∨ failed_last "CreateSupermaster" w'))
  end.
Proof.
  intros Hok Hu Hwf H. unfold Delete in H. run_bind H x w1 E1. destruct x as [sm0 e]. run_bind H u w2 E2. injection H as <- <-.
  set (sm' := if bool_decide (SmID sm0 = []) then _ else _) in E2.
  pose proof (quiet_same _ _ _ _ (quiet_sm_audit _ _ _ _) E2) as (Hd2 & Hs2 & Hok2).
  assert (Hm2 : w_metrics w2 = w_metrics w1) by (pose proof (audit_metrics subj SupermasterDelete sm' e w1) as Hm; by rewrite E2 in Hm).
  rewrite Hs2, Hd2. assert (Hf : failed_last "CreateSupermaster" w1 → failed_last "CreateSupermaster" w2) by (unfold failed_last; by rewrite Hm2).
  cut (wok w1 ∧ Pdns.zones (wsrv w1) = Pdns.zones (wsrv w) ∧ match e with
    | None => ∃ sm, Authz.IsPlatformAdmin subj = true ∧ MemStore.supermaster (Authz.STenantID subj) id (wdb w) = Ok sm ∧
      wdb w1 = MemStore.set_supermasters (delete id (MemStore.supermasters (wdb w))) (wdb w) ∧
      (sm_key (entry_of sm) ∉ map sm_key (sms w1)) ∧ others_kept (sm_key (entry_of sm)) (sms w) (sms w1)
    | Some _ => wdb w1 = wdb w ∧ (sms w1 = sms w ∨ ∃ sm, MemStore.supermaster (Authz.STenantID subj) id (wdb w) = Ok sm ∧
        others_kept (sm_key (entry_of sm)) (sms w) (sms w1) ∧ (entry_of sm ∈ sms w1 ∨ failed_last "CreateSupermaster" w1)) end).
  { intros (H1 & H2 & H3). split; [auto|]. split; [done|]. destruct e; [|done]. naive_solver. }
  clear E2 Hd2 Hs2 Hok2 Hm2 Hf w2 sm' u. unfold delete_ in E1.
  destruct (guardAdmin cfg subj) as [[]|] eqn:Eg; [|injection E1 as <- <- <-; auto 6].
  assert (Ha : Authz.IsPlatformAdmin subj = true).
  { unfold guardAdmin in Eg. apply bind_Ok in Eg as ([] & Hp & _). unfold Authz.RequirePlatformAdmin in Hp. by destruct (Authz.IsPlatformAdmin subj). }
  run_bind E1 g w3 E3. apply get_run in E3 as ((Hd3 & Hs3 & Hok3) & _ & Hg). destruct g as [sm|e3].
  2:{ injection E1 as <- <- <-. rewrite Hd3, Hs3. auto 6. }
  specialize (Hg sm eq_refl). pose proof Hg as [Hrow Ht]%MemStore.supermaster_Ok.
  pose proof (MemStore.wf_supermaster_id _ Hwf id sm Hrow) as Hid. simpl in Hid. subst id.
  run_bind E1 c w4 E4. apply call_delete in E4 as (Hd4 & Hok4 & _ & E4); [|auto].
  assert (Hrow4 : MemStore.supermaster (SmTenantID sm) (SmID sm) (wdb w4) = Ok sm) by (rewrite Hd4, Hd3, Ht; done).
  change (SmIP sm, pdnsName (SmNameserver sm)) with (sm_key (entry_of sm)) in E4. rewrite Hs3 in E4.
  destruct c as [[]|e4].
  - destruct E4 as (l1 & x & l2 & Hl & Hs4 & Hx). destruct (removed_kept _ _ _ _ _ Hl Hx Hu) as (Hk & Hnot & Hu4).
    run_bind E1 y w5 E5. apply drop_row_run in E5 as (Hok5 & E5); [|done|by rewrite Hs4..|done]. injection E1 as <- <- <-.
    rewrite Hd4, Hd3, Hs4 in E5. simpl in E5. split; [done|]. destruct y as [e5|].
    + destruct E5 as [Hd5 [Hs5|[Hs5 Hf]]]; rewrite Hs5; (split; [done|]); (split; [done|]); right; exists sm; (split; [done|]); simpl.
      * split; [|left; set_solver]. intros z Hz. rewrite elem_of_app, list_elem_of_singleton, (Hk z Hz). naive_solver.
      * split; [done|by right].
    + destruct E5 as [Hd5 Hs5]. rewrite Hs5. split; [done|]. exists sm. split_and!; auto.
  - destruct E4 as [Hs4 Hn]. destruct (Is e4 PdnsErrNotFound) eqn:E.
    + specialize (Hn eq_refl). run_bind E1 y w5 E5. apply drop_row_run in E5 as (Hok5 & E5); [|done|by rewrite Hs4..|done].
      injection E1 as <- <- <-. rewrite Hd4, Hd3, Hs4 in E5. split; [done|]. destruct y as [e5|]; destruct E5 as [Hd5 Hs5]; rewrite Hs5.
      * auto 6.
      * split; [done|]. exists sm. by split_and!.
    + injection E1 as <- <- <-. rewrite Hd4, Hd3, Hs4. auto 6.
Qed.
End Spec.

Module Concrete.
#[local] Existing Instance unicode_min.
#[local] Existing Instance miekg_plain.
Definition cfg1 : Config := mkConfig None (λ n, "sm" ++ Itoa (Z.of_nat n)).
Definition root : Authz.Subjects := Authz.User "t1" "root" [Authz.RolePlatformAdmin].
Definition w0 : World MemStore.Mem Pdns.Fake Recursor.Fake := mkWorld (MemStore.NewMem 50) Pdns.NewFake None [] [] [] 100 0.
Definition input1 : Input := mkInput "192.0.2.7" "ns1.example.net".
Definition made := Create cfg1 root input1 w0.

Lemma w0_ok : wok w0.
Proof. apply map_Forall_empty. Qed.

Lemma Create_supermaster_atomic_witness :
  is_ok made.1 = true ∧ Pdns.supermasters (wsrv made.2) = [Pdns.mkSupermaster "192.0.2.7" "ns1.example.net" "t1"].
Proof.
  destruct made as [r w'] eqn:E. assert (Hr : is_ok r = true) by (change r with ((r, w').1); rewrite <- E; vm_compute; reflexivity).
  pose proof (Create_supermaster_atomic cfg1 root input1 w0 r w' w0_ok NoDup_nil_2 E) as (_ & _ & H). destruct r as [sm|]; [|discriminate].
  split; [reflexivity|]. cbn [snd]. replace w' with made.2 by (rewrite E; reflexivity). vm_compute. reflexivity.
Defined.

Definition row1 : Supermaster := mkSupermaster "sm0" "t1" "192.0.2.7" "ns1.example.net." "root" 100.
Definition gone1 := Delete cfg1 root "sm0" made.2.
Lemma calm_ok (w : World MemStore.Mem Pdns.Fake Recursor.Fake) : Pdns.failNext (w_pdns w) = ∅ → wok w.
Proof. unfold wok. simpl. unfold Pdns.fake_ok. intros ->. apply map_Forall_empty. Qed.
Lemma made_ok : wok made.2.
Proof. apply calm_ok. vm_compute. reflexivity. Qed.
Lemma made_wf : MemStore.db_wf (wdb made.2).
Proof.
  assert (H : wdb made.2 = (MemStore.create_supermaster row1 (MemStore.empty_db 50)).2) by (vm_compute; reflexivity). rewrite H.
  apply (MemStore.db_step_wf (MemStore.empty_db 50)); [|apply MemStore.empty_wf].
  apply MemStore.ds_tenant with (t := "t1"). by apply MemStore.ts_create_supermaster.
Qed.

Lemma Delete_supermaster_exact_witness : is_ok gone1.1 = true ∧ MemStore.supermasters (wdb gone1.2) !! ("sm0" : str) = None.
Proof.
  assert (Hu : sm_uniq (Pdns.supermasters (wsrv made.2))) by (unfold sm_uniq; apply (bool_decide_unpack _); vm_compute; exact I).
  destruct gone1 as [r w'] eqn:E. assert (Hr : is_ok r = true) by (change r with ((r, w').1); rewrite <- E; vm_compute; reflexivity).
  pose proof (Delete_supermaster_exact cfg1 root "sm0" made.2 r w' made_ok Hu made_wf E) as (_ & _ & H). destruct r as [u|]; [|discriminate].
  split; [reflexivity|]. destruct H as (sm & _ & _ & Hd & _). cbn [snd]. rewrite Hd. apply lookup_delete_eq.
Defined.
End Concrete.
End Supermasters.
