(* ===== verification/Records.v ===== *)
(** * The record sets of a zone ([internal/records/records.go])

    PowerDNS is the source of truth: every write reads the zone's current sets,
    validates the change against them and applies it as one patch of the zone
    the caller's tenant owns.  [Apply], [Remove] and [Lookup] are the entry points
    of the IPAM sync and the ACME challenges, [Upsert], [Update] and [Delete]
    those of the API. *)
From Stdlib Require Import Ascii.
From S2P Require Import Prelude GoStrings GoError Store Names Content Masters Authz MemStore Pdns RecordSets Recursor World Zones.
Local Open Scope Z_scope.

Module Records.
Import Store.

Definition RecordUpsert : str := "record.upsert".
Definition RecordDelete : str := "record.delete".

Record Value := mkValue { VwContent : str; VwDisabled : bool }.
Record RecordSet := mkRecordSet {
  VwName : str; VwType : str; VwTTL : Z; VwValues : list Value; VwComment : str; VwReadOnly : bool
}.
Record Key := mkKey { KName : str; KType : str }.
Record Filter := mkFilter { FlType : str; FlQuery : str }.

Section Pure.
Context {U : Unicode} {DNS : MiekgDNS}.

Definition toView (r : Pdns.RRset) : RecordSet :=
  let t := ToUpper (Pdns.RType r) in
  mkRecordSet (Pdns.RName r) t (Pdns.RTTL r)
    (map (λ x, mkValue (Pdns.RecContent x) (Pdns.RecDisabled x)) (Pdns.RRecords r))
    (match Pdns.RComments r with Some (c :: _) => Pdns.ComContent c | _ => [] end)
    (negb (Content.Editable t)).

(** The labels from the root down, joined by the byte 1. *)
Definition canonical (name : str) : str :=
  Join (reverse (SplitByte dot (TrimSuffix (ToLower name) "."))) [chr 1].

Definition typeRank (t : str) : str := if bool_decide (t = "SOA") then [] else t.

(** The sort value of a field. *)
Definition setKey (r : RecordSet) (field : str) : sort_key :=
  if bool_decide (field = "type") then KStr (VwType r)
  else if bool_decide (field = "ttl") then KInt (VwTTL r)
  else KStr (canonical (VwName r)).

Definition setTie (r : RecordSet) : str := canonical (VwName r) ++ [chr 0] ++ typeRank (VwType r).

(** The test of a listing's filter. *)
Definition keep (f : Filter) (r : Pdns.RRset) : bool :=
  let typ := ToUpper (TrimSpace (FlType f)) in
  let q := ToLower (TrimSpace (FlQuery f)) in
  negb ((negb (bool_decide (typ = [])) && negb (EqualFold (Pdns.RType r) typ))
        || (negb (bool_decide (q = [])) && negb (Contains (ToLower (Pdns.RName r)) q))).

Definition sortSets `{LQ : ListQuery} (sets : list RecordSet) (req : Request) : list RecordSet :=
  SortSlice sets req setKey setTie.

(** Secondaries take their records from their primaries. *)
Definition writable (z : Zone) : res unit :=
  if NeedsMasters (Kind z)
  then Err (Wrapf (New ErrInvalidKind) ("records of " ++ Kind z ++ " zones come from their primaries")) else Ok ().

(** The actor check of the internal entry points; users passed the route's. *)
Definition withoutUser (subj : Authz.Subjects) : Authz.Subjects :=
  if Authz.IsHuman subj then Authz.Internal (Authz.STenantID subj) else subj.

Definition key (z : Zone) (k : Key) : res (str * str) :=
  name ← Validate.RecordName (Name z) (KName k);
  let t := ToUpper (TrimSpace (KType k)) in
  if negb (Content.Editable t) then Err (RecordError "type" "this record type is read-only") else Ok (name, t).

Definition same_fold (name typ : str) (r : Pdns.RRset) : bool :=
  EqualFold (Pdns.RName r) name && EqualFold (Pdns.RType r) typ.
Fixpoint find (sets : list Pdns.RRset) (name typ : str) : bool :=
  match sets with
  | [] => false
  | r :: sets => if same_fold name typ r then true else find sets name typ
  end.

(** The outcome and reason an audit record carries. *)
Definition audit_outcome (e : option error) : str * str :=
  match e with
  | None => (AuditEvent.OutcomeOK, [])
  | Some e =>
    if Is e ErrRecord then (AuditEvent.OutcomeRefused, "invalid_record" : str)
    else if Is e ErrName then (AuditEvent.OutcomeRefused, "invalid_name" : str)
    else if Is e RecordsErrNotFound then (AuditEvent.OutcomeRefused, "record_not_found" : str)
    else if Is e RecordsErrConflict then (AuditEvent.OutcomeRefused, "conflict" : str)
    else if Is e ErrInvalidKind then (AuditEvent.OutcomeRefused, "invalid_kind" : str)
    else if Is e PdnsErrUnavailable then (AuditEvent.OutcomeError, "pdns_unavailable" : str)
    else (AuditEvent.OutcomeError, "error" : str)
  end.
End Pure.

Section Service.
Context {U : Unicode} {DNS : MiekgDNS} {PSL : PublicSuffixList} {RRP : Content.RRParser}.
Context {S P R : Type} {RS : MemStore.RepoStore S} {PC : Pdns.PDNSClient P}.
Context (cfg : Zones.Config) (lim : RecordSets.Limits).
Abbreviation W := (World S P R).

Definition audit (subj : Authz.Subjects) (t : str) (z : Zone) (name typ : str) (e : option error) : M W unit :=
  let '(outcome, reason) := audit_outcome e in
  record_audit (AuditEvent.mkEvent (Authz.STenantID subj) t (AuditEvent.ActorOf (Authz.ActorKind subj)) (Authz.ActorID subj)
    AuditEvent.SubjectRecord (ID z) outcome reason [("zone" : str, Name z); ("name" : str, name); ("type" : str, typ)]).

Definition load (subj : Authz.Subjects) (zoneID perm : str) : M W (res Zone) :=
  if bool_decide (perm = Authz.ZonesManage) && negb (Authz.IsHuman subj) then
    match Authz.Require_ None subj perm with
    | Err e => mret (Err e)
    | Ok _ => Zones.Owned cfg subj zoneID
    end
  else Zones.Owned cfg subj zoneID.

Definition rrsets (z : Zone) : M W (res (list Pdns.RRset)) :=
  r ← Zones.Call "GetZone" (Pdns.pdns_GetZone (PDNSID z));
  mret match r with Ok pz => Ok (Pdns.PRRsets pz) | Err e => Err (Zones.mapPDNS e) end.

Definition patch (z : Zone) (changes : list Pdns.RRset) : M W (res unit) :=
  r ← Zones.Call "PatchRRsets" (Pdns.pdns_PatchRRsets (PDNSID z) changes);
  mret match r with Ok u => Ok u | Err e => Err (Zones.mapPDNS e) end.

(** One page, the total and the request applied. *)
Definition List_ `{LQ : ListQuery} (subj : Authz.Subjects) (zoneID : str) (f : Filter) (req : Request) :
    M W (res (list RecordSet * Z * Request)) :=
  z ←? load subj zoneID Authz.ZonesRead;
  sets ←? rrsets z;
  mret (Ok (Window (sortSets (map toView (List.filter (keep f) sets)) req) req)).

Definition apply (z : Zone) (i : RecordSets.RecordSetInput) : M W (res Pdns.RRset) :=
  match writable z with
  | Err e => mret (Err e)
  | Ok _ =>
    cur ←? rrsets z;
    match RecordSets.RecordSet lim (Name z) i cur with
    | Err e => mret (Err e)
    | Ok rr => _ ←? patch z [rr]; mret (Ok rr)
    end
  end.

Definition Apply (subj : Authz.Subjects) (z : Zone) (i : RecordSets.RecordSetInput) (source : str) : M W (res RecordSet) :=
  match Authz.Require_ None (withoutUser subj) Authz.ZonesManage with
  | Err e => mret (Err e)
  | Ok _ =>
    r ← apply z i;
    match r with
    | Err e => _ ← audit subj RecordUpsert z (RecordSets.IName i) (ToUpper (RecordSets.IType i)) (Some e); mret (Err e)
    | Ok rr =>
      _ ← audit subj RecordUpsert z (Pdns.RName rr) (Pdns.RType rr) None;
      _ ← EmitRecord z (Pdns.RName rr) (Pdns.RType rr) Events.ActionUpserted source;
      mret (Ok (toView rr))
    end
  end.

Definition Upsert (subj : Authz.Subjects) (zoneID : str) (i : RecordSets.RecordSetInput) : M W (res RecordSet) :=
  z ←? load subj zoneID Authz.ZonesManage; Apply subj z i Events.SourceAPI.

Definition Lookup (subj : Authz.Subjects) (z : Zone) (k : Key) : M W (res RecordSet) :=
  match Authz.Require_ None (withoutUser subj) Authz.ZonesRead with
  | Err e => mret (Err e)
  | Ok _ =>
    match Validate.RecordName (Name z) (KName k) with
    | Err e => mret (Err e)
    | Ok name =>
      let typ := ToUpper (TrimSpace (KType k)) in
      cur ←? rrsets z;
      mret match find_first (same_fold name typ) cur with
           | Some r => Ok (toView r)
           | None => Err (New RecordsErrNotFound)
           end
    end
  end.

(** The patch an update makes: REPLACE the new set and, when the key changes,
    DELETE the old one; refused when the new key is another existing set's. *)
Definition update_changes (z : Zone) (cur : list Pdns.RRset) (oldName oldType : str) (i : RecordSets.RecordSetInput) :
    res (Pdns.RRset * list Pdns.RRset) :=
  if negb (find cur oldName oldType) then Err (New RecordsErrNotFound)
  else
    let others := List.filter (λ r, negb (same_fold oldName oldType r)) cur in
    rr ← RecordSets.RecordSet lim (Name z) i others;
    if negb (bool_decide (Pdns.RName rr = oldName)) || negb (bool_decide (Pdns.RType rr = oldType)) then
      if find others (Pdns.RName rr) (Pdns.RType rr) then Err (New RecordsErrConflict)
      else Ok (rr, [rr; Pdns.mkRRset oldName oldType 0 Pdns.ChangeDelete [] None])
    else Ok (rr, [rr]).

Definition update (z : Zone) (original : Key) (i : RecordSets.RecordSetInput) : M W (res (Pdns.RRset * str * str)) :=
  match writable z with
  | Err e => mret (Err e)
  | Ok _ =>
    match key z original with
    | Err e => mret (Err e)
    | Ok (oldName, oldType) =>
      cur ←? rrsets z;
      match update_changes z cur oldName oldType i with
      | Err e => mret (Err e)
      | Ok (rr, changes) => _ ←? patch z changes; mret (Ok (rr, oldName, oldType))
      end
    end
  end.

Definition Update (subj : Authz.Subjects) (zoneID : str) (original : Key) (i : RecordSets.RecordSetInput) : M W (res RecordSet) :=
  z ←? load subj zoneID Authz.ZonesManage;
  r ← update z original i;
  match r with
  | Err e => _ ← audit subj RecordUpsert z (RecordSets.IName i) (ToUpper (RecordSets.IType i)) (Some e); mret (Err e)
  | Ok (rr, oldName, oldType) =>
    _ ← audit subj RecordUpsert z (Pdns.RName rr) (Pdns.RType rr) None;
    _ ← EmitRecord z (Pdns.RName rr) (Pdns.RType rr) Events.ActionUpserted Events.SourceAPI;
    if negb (bool_decide (oldName = Pdns.RName rr)) || negb (bool_decide (oldType = Pdns.RType rr)) then
      _ ← audit subj RecordDelete z oldName oldType None;
      _ ← EmitRecord z oldName oldType Events.ActionDeleted Events.SourceAPI;
      mret (Ok (toView rr))
    else mret (Ok (toView rr))
  end.

Definition remove (z : Zone) (k : Key) : M W (res (str * str)) :=
  match writable z with
  | Err e => mret (Err e)
  | Ok _ =>
    match key z k with
    | Err e => mret (Err e)
    | Ok (name, typ) =>
      cur ←? rrsets z;
      if negb (find cur name typ) then mret (Err (New RecordsErrNotFound))
      else _ ←? patch z [Pdns.mkRRset name typ 0 Pdns.ChangeDelete [] None]; mret (Ok (name, typ))
    end
  end.

Definition removed (subj : Authz.Subjects) (z : Zone) (k : Key) (source : str) (r : res (str * str)) : M W (res unit) :=
  match r with
  | Err e => _ ← audit subj RecordDelete z (KName k) (ToUpper (KType k)) (Some e); mret (Err e)
  | Ok (name, typ) =>
    _ ← audit subj RecordDelete z name typ None;
    _ ← EmitRecord z name typ Events.ActionDeleted source;
    mret (Ok ())
  end.

Definition Delete (subj : Authz.Subjects) (zoneID : str) (k : Key) : M W (res unit) :=
  z ←? load subj zoneID Authz.ZonesManage; r ← remove z k; removed subj z k Events.SourceAPI r.

(** Absent is success. *)
Definition Remove (subj : Authz.Subjects) (z : Zone) (k : Key) (source : str) : M W (res unit) :=
  match Authz.Require_ None (withoutUser subj) Authz.ZonesManage with
  | Err e => mret (Err e)
  | Ok _ =>
    r ← remove z k;
    match r with
    | Err e => if Is e RecordsErrNotFound then mret (Ok ()) else removed subj z k source r
    | Ok _ => removed subj z k source r
    end
  end.
End Service.
End Records.
