(* ===== verification/RecordsSpec.v ===== *)
(** * Theorems about the record service

    What [Records] guarantees over any store and PowerDNS client that keep
    their promises: writes reach only the addressed zone, change exactly the
    named record set, keep CNAMEs alone, and can be read back. *)
From Stdlib Require Import Ascii.
From S2P Require Import Prelude GoStrings GoError Store Names Content Masters Authz MemStore Pdns RecordSets Recursor World Zones ZonesSpec Records.
Local Open Scope Z_scope.

Module RecordsSpec.
Import Store Zones ZonesSpec Records.

Section Spec.
Context {U : Unicode} {DNS : MiekgDNS} {PSL : PublicSuffixList} {LAWS : MiekgDNSLaws} {RRP : Content.RRParser}.
Context {S P R : Type} {RS : MemStore.RepoStore S} {PC : Pdns.PDNSClient P}.
Context (cfg : Zones.Config) (lim : RecordSets.Limits).
Abbreviation W := (World S P R).
Implicit Types w : World S P R.

(** ** Calls *)

Lemma rrsets_run z w r w' :
  wok w → rrsets z w = (r, w') →
  same w w' ∧ ∀ cur, r = Ok cur →
    ∃ pz, Pdns.zones (wsrv w) !! PDNSID z = Some pz ∧ cur = Pdns.cloneRRsets (Pdns.PRRsets pz).
Proof.
  intros Hok H. unfold rrsets in H. run_bind H x w1 E. injection H as <- <-.
  apply (Call_read _ _ _ _ _ _ (Pdns.pdns_GetZone_ok _)) in E as [Hs E]; [|done]. split; [done|].
  intros cur Hc. destruct x as [pz|]; [|done]. injection Hc as <-.
  destruct E as [(? & ? & _)|E]; [done|]. unfold Pdns.get_zone, Pdns.lookup_zone in E.
  destruct (_ !! PDNSID z) as [p|]; [|done]. injection E as ->. by exists p.
Qed.

(** A patch went through: the addressed zone has the changes applied. *)
Record patched (z : Zone) (changes : list Pdns.RRset) (w w' : W) (pz : Pdns.Zone) : Prop := {
  pt_zone : Pdns.zones (wsrv w) !! PDNSID z = Some pz;
  pt_check : Pdns.check_patch (Pdns.PName pz) changes = None;
  pt_srv : wsrv w' = Pdns.mkServer (<[PDNSID z := Pdns.set_rrsets pz (Pdns.apply_patch (Pdns.PRRsets pz) changes)
                        (Pdns.uint32 (Pdns.PSerial pz + 1))]> (Pdns.zones (wsrv w))) (Pdns.supermasters (wsrv w));
  pt_db : wdb w' = wdb w;
  pt_ok : wok w'
}.

Lemma patch_run z changes w r w' :
  wok w → patch z changes w = (r, w') →
  match r with Ok _ => ∃ pz, patched z changes w w' pz | Err _ => same w w' end.
Proof.
  intros Hok H. unfold patch in H. run_bind H x w1 E. injection H as <- <-.
  apply (Call_run _ _ _ _ _ _ (Pdns.pdns_PatchRRsets_ok _ _)) in E as (Hd & Ho & _ & E); [|done].
  destruct E as [(e & -> & _ & Hs)|E]; [done|].
  unfold Pdns.on_zones, Pdns.patch_rrsets, Pdns.lookup_zone in E. unfold same.
  destruct (wsrv w) as [m l] eqn:Ew. simpl in E.
  destruct (m !! PDNSID z) as [pz|] eqn:Ez; [|by injection E as <- <-].
  destruct (Pdns.check_patch (Pdns.PName pz) changes) eqn:Ec; [by injection E as <- <-|].
  injection E as <- Hv. exists pz. constructor; rewrite ?Ew; done.
Qed.

Lemma patched_same z ch w1 w2 w3 pz : same w1 w2 → patched z ch w2 w3 pz → patched z ch w1 w3 pz.
Proof. intros (Hd & Hs & _) [H1 H2 H3 H4 H5]. constructor; rewrite <- ?Hs, <- ?Hd; done. Qed.
Lemma same_patched z ch w1 w2 w3 pz : patched z ch w1 w2 pz → same w2 w3 → patched z ch w1 w3 pz.
Proof. intros [H1 H2 H3 H4 H5] (Hd & Hs & Ho). constructor; rewrite ?Hs, ?Hd; auto. Qed.

(** The sets a write was validated against. *)
Abbreviation current pz := (Pdns.cloneRRsets (Pdns.PRRsets pz)).

Lemma writable_Ok z : writable z = Ok () ↔ NeedsMasters (Kind z) = false.
Proof. unfold writable. by destruct (NeedsMasters _). Qed.

Lemma apply_run z i w r w' :
  wok w → apply lim z i w = (r, w') →
  match r with
  | Ok rr => NeedsMasters (Kind z) = false ∧
      ∃ pz, patched z [rr] w w' pz ∧ RecordSets.RecordSet lim (Name z) i (current pz) = Ok rr
  | Err _ => same w w'
  end.
Proof.
  intros Hok H. unfold apply in H. destruct (writable z) as [[]|] eqn:Ew; [|by injection H as <- <-].
  apply writable_Ok in Ew. run_bind H cur w1 E1. apply rrsets_run in E1 as [S1 Hc]; [|done].
  destruct cur as [cur|]; [|by injection H as <- <-]. destruct (Hc cur eq_refl) as (pz & Hz & ->).
  destruct (RecordSets.RecordSet _ _ _ _) as [rr|] eqn:Er; [|by injection H as <- <-].
  run_bind H u w2 E2. apply patch_run in E2; [|by apply S1]. destruct u as [[]|]; injection H as <- <-.
  - destruct E2 as [pz' E2]. apply (patched_same _ _ _ _ _ _ S1) in E2. split; [done|]. exists pz.
    pose proof (pt_zone _ _ _ _ _ E2) as Hz'. rewrite Hz in Hz'. by injection Hz' as <-.
  - by eapply same_trans.
Qed.

Lemma update_set_run z k i w r w' :
  wok w → update lim z k i w = (r, w') →
  match r with
  | Ok (rr, n, t) => NeedsMasters (Kind z) = false ∧ key z k = Ok (n, t) ∧
      ∃ pz ch, patched z ch w w' pz ∧ update_changes lim z (current pz) n t i = Ok (rr, ch)
  | Err _ => same w w'
  end.
Proof.
  intros Hok H. unfold update in H. destruct (writable z) as [[]|] eqn:Ew; [|by injection H as <- <-].
  apply writable_Ok in Ew. destruct (key z k) as [[n t]|] eqn:Ek; [|by injection H as <- <-].
  run_bind H cur w1 E1. apply rrsets_run in E1 as [S1 Hc]; [|done].
  destruct cur as [cur|]; [|by injection H as <- <-]. destruct (Hc cur eq_refl) as (pz & Hz & ->).
  destruct (update_changes _ _ _ _ _ _) as [[rr ch]|] eqn:Er; [|by injection H as <- <-].
  run_bind H u w2 E2. apply patch_run in E2; [|by apply S1]. destruct u as [[]|]; injection H as <- <-.
  - destruct E2 as [pz' E2]. apply (patched_same _ _ _ _ _ _ S1) in E2. split; [done|]. split; [done|]. exists pz, ch.
    pose proof (pt_zone _ _ _ _ _ E2) as Hz'. rewrite Hz in Hz'. by injection Hz' as <-.
  - by eapply same_trans.
Qed.

Definition deletion (n t : str) : Pdns.RRset := Pdns.mkRRset n t 0 Pdns.ChangeDelete [] None.

(** The errors of the calls. *)
Definition call_kinds : list sentinel := [PdnsErrUnavailable; PdnsErrTooLarge; PdnsErrNotFound; ErrRejected].

Lemma mapPDNS_kinds e :
  only_kinds [PdnsErrUnavailable; PdnsErrTooLarge; PdnsErrNotFound] e → only_kinds call_kinds (mapPDNS e).
Proof.
  intros H. assert (only_kinds call_kinds e) by (intros s ?%H; set_solver).
  unfold mapPDNS. repeat case_match; try done. apply kinds_Wrapf, kinds_New. set_solver.
Qed.

Lemma rrsets_err z w e w' : wok w → rrsets z w = (Err e, w') → only_kinds call_kinds e.
Proof.
  intros Hok H. unfold rrsets in H. run_bind H x w1 E.
  apply (Call_read _ _ _ _ _ _ (Pdns.pdns_GetZone_ok _)) in E as [_ E]; [|done].
  destruct x as [|e0]; [done|]. injection H as <- _. apply mapPDNS_kinds. destruct E as [(? & [= <-] & Hf)|E].
  - intros s ?%Hf. set_solver.
  - unfold Pdns.get_zone, Pdns.lookup_zone in E. destruct (_ !! PDNSID z); [done|]. injection E as ->.
    intros s Hs. simpl in Hs. apply bool_decide_eq_true in Hs as ->. set_solver.
Qed.

Lemma patch_call_err z ch w e w' : wok w → patch z ch w = (Err e, w') → only_kinds call_kinds e.
Proof.
  intros Hok H. unfold patch in H. run_bind H x w1 E.
  apply (Call_run _ _ _ _ _ _ (Pdns.pdns_PatchRRsets_ok _ _)) in E as (_ & _ & _ & E); [|done].
  destruct x as [|e0]; [done|]. injection H as <- _. apply mapPDNS_kinds. destruct E as [(? & [= <-] & Hf & _)|E].
  - intros s ?%Hf. set_solver.
  - pose proof (Pdns.patch_rrsets_err (PDNSID z) ch (Pdns.zones (wsrv w))) as Hk. unfold Pdns.on_zones in E.
    destruct (Pdns.patch_rrsets _ _ _) as [r m]. injection E as -> _. intros s Hs.
    apply (Hk e0 eq_refl) in Hs. set_solver.
Qed.

Lemma key_err z k : fails_with [ErrName; ErrRecord] (key z k).
Proof.
  apply fails_bind; [apply Validate.RecordName_err; by left|]. intros n. cbv zeta. case_if as E; [|apply fails_Ok].
  apply fails_Err, kinds_Record. set_solver.
Qed.

(** An error of these kinds is not "record set not found". *)
Ltac not_found_kinds H :=
  match type of H with
  | only_kinds ?l ?e => pose proof (only_kinds_not l e RecordsErrNotFound H ltac:(unfold call_kinds; set_solver))
  end.

Lemma remove_run z k w r w' :
  wok w → remove z k w = (r, w') →
  match r with
  | Ok (n, t) => NeedsMasters (Kind z) = false ∧ key z k = Ok (n, t) ∧
      ∃ pz, patched z [deletion n t] w w' pz ∧ find (current pz) n t = true
  | Err e => same w w' ∧ (Is e RecordsErrNotFound = true →
      ∃ n t pz, key z k = Ok (n, t) ∧ Pdns.zones (wsrv w) !! PDNSID z = Some pz ∧ find (current pz) n t = false)
  end.
Proof.
  intros Hok H. unfold remove in H. destruct (writable z) as [[]|] eqn:Ew.
  2:{ unfold writable in Ew. case_match; [|done]. injection Ew as <-. by injection H as <- <-. }
  apply writable_Ok in Ew. destruct (key z k) as [[n t]|ek] eqn:Ek.
  2:{ injection H as <- <-. apply key_err in Ek. not_found_kinds Ek. split; [done|congruence]. }
  run_bind H cur w1 E1. pose proof E1 as [S1 Hc]%rrsets_run; [|done]. destruct cur as [cur|ec].
  2:{ injection H as <- <-. apply rrsets_err in E1; [|done]. not_found_kinds E1. split; [done|congruence]. }
  destruct (Hc cur eq_refl) as (pz & Hz & ->). destruct (find _ n t) eqn:Ef; cbn [negb] in H.
  2:{ injection H as <- <-. split; [done|]. intros _. by exists n, t, pz. }
  run_bind H u w2 E2. pose proof E2 as E3%patch_run; [|by apply S1]. destruct u as [[]|ep]; injection H as <- <-.
  - destruct E3 as [pz' E3]. apply (patched_same _ _ _ _ _ _ S1) in E3. split; [done|]. split; [done|]. exists pz.
    pose proof (pt_zone _ _ _ _ _ E3) as Hz'. rewrite Hz in Hz'. by injection Hz' as <-.
  - split; [by eapply same_trans|]. apply patch_call_err in E2; [|by apply S1]. not_found_kinds E2. congruence.
Qed.

(** ** Canonical keys *)

(** PowerDNS stores names in lower case and types in upper case. *)
Definition canon_key (k : str * str) : Prop :=
  (isASCII k.1 = true ∧ map lower_byte k.1 = k.1) ∧ isASCII k.2 = true ∧ map upper_byte k.2 = k.2.
Definition canon_sets (sets : list Pdns.RRset) : Prop := Forall (λ s, canon_key (Pdns.rkey s)) sets.

Lemma upper_lower s : map upper_byte s = s → map upper_byte (map lower_byte s) = s.
Proof.
  induction s as [|c s IH]; simpl; [done|]. intros [= Hc Hs]. f_equal; [|auto].
  assert (E : implb (bool_decide (upper_byte c = c)) (bool_decide (upper_byte (lower_byte c) = c)) = true)
    by (clear; revert c; by_bytes).
  rewrite (bool_decide_eq_true_2 _ Hc) in E. cbn [implb] in E. by b2p.
Qed.

Lemma same_fold_canon n t s : canon_key (n, t) → canon_key (Pdns.rkey s) → same_fold n t s = bool_decide (Pdns.rkey s = (n, t)).
Proof.
  intros [[H1 H2] [H3 H4]] [[G1 G2] [G3 G4]]. unfold same_fold, Pdns.rkey in *. simpl in *.
  rewrite !EqualFold_ascii, G2, H2 by done. apply eq_true_iff_eq. rewrite andb_true_iff, !bool_decide_eq_true.
  split; [|by intros [= -> ->]]. intros [-> E]. f_equal. rewrite <- (upper_lower _ G4), E. by apply upper_lower.
Qed.

Lemma find_existsb sets n t : find sets n t = existsb (same_fold n t) sets.
Proof. induction sets; simpl; [done|]. case_match; auto. Qed.

Lemma find_clone sets n t : find (Pdns.cloneRRsets sets) n t = find sets n t.
Proof. induction sets as [|s sets IH]; [done|]. simpl. by rewrite IH. Qed.

Lemma find_canon sets n t :
  canon_sets sets → canon_key (n, t) → find sets n t = bool_decide ((n, t) ∈ map Pdns.rkey sets).
Proof.
  intros Hs Hk. rewrite find_existsb. apply eq_true_iff_eq. rewrite existsb_exists, bool_decide_eq_true, list_elem_of_fmap.
  unfold canon_sets in Hs. rewrite Forall_forall in Hs. split.
  - intros (x & Hx%list_elem_of_In & Hf). rewrite same_fold_canon in Hf by auto. b2p. by exists x.
  - intros (x & Hx & Hin). exists x. split; [by apply list_elem_of_In|]. rewrite same_fold_canon by auto.
    by apply bool_decide_eq_true.
Qed.

Lemma canon_clone sets : canon_sets sets → canon_sets (Pdns.cloneRRsets sets).
Proof. unfold canon_sets, Pdns.cloneRRsets. by rewrite Forall_map. Qed.

(** The table's types are canonical. *)
Lemma table_canon t : t ∈ Content.EditableTypes → isASCII t = true ∧ map upper_byte t = t ∧ TrimSpace t = t.
Proof.
  assert (H : forallb (λ t, isASCII t && bool_decide (map upper_byte t = t) && bool_decide (TrimSpace t = t)) Content.EditableTypes = true)
    by (vm_compute; reflexivity).
  rewrite forallb_Forall, Forall_forall in H. intros Ht%H. by b2p.
Qed.

Lemma RecordName_canon zone name n : Validate.RecordName zone name = Ok n → isASCII n = true ∧ map lower_byte n = n.
Proof. intros (z & _ & _ & Ho & _)%Validate.RecordName_inv. by apply Validate.owner_form_lower. Qed.

Lemma RecordSet_canon l zone i ex r :
  isASCII (RecordSets.IType i) = true → RecordSets.RecordSet l zone i ex = Ok r →
  canon_key (Pdns.rkey r) ∧ Pdns.RType r ∈ Content.EditableTypes.
Proof.
  intros Ha (z & _ & Ht & Hn & _)%RecordSets.RecordSet_inv. apply RecordSets.editableType_table in Ht; [|done].
  apply RecordName_canon in Hn. pose proof (table_canon _ Ht) as (? & ? & _). done.
Qed.

Lemma key_canon z k n t : isASCII (KType k) = true → key z k = Ok (n, t) → canon_key (n, t).
Proof.
  intros Ha (n' & Hn & H)%bind_Ok. cbv zeta in H. case_if in H as E; [done|]. injection H as <- <-. b2p.
  apply RecordName_canon in Hn. split; [done|]. simpl.
  assert (ToUpper (TrimSpace (KType k)) ∈ Content.EditableTypes) as (? & ? & _)%table_canon; [|done].
  unfold Content.Editable in E. apply contains_elem in E. apply RecordSets.TrimSpace_ascii in Ha.
  rewrite (ToUpper_ascii _ Ha) in *. rewrite ToUpper_ascii, RecordSets.upper_byte_idem in E; [done|].
  by apply RecordSets.upper_byte_ascii.
Qed.

(** ** Whole operations *)

(** A row of the caller's tenant. *)
Definition mine (t : str) (w : W) (z : Zone) : Prop :=
  MemStore.zones (wdb w) !! ID z = Some z ∧ TenantID z = t.

Lemma load_run subj id perm w r w' :
  MemStore.db_wf (wdb w) → load cfg subj id perm w = (r, w') →
  same w w' ∧ ∀ z, r = Ok z → mine (Authz.STenantID subj) w z ∧ ID z = id.
Proof.
  intros Hwf H. assert (Ho : ∀ r, Owned cfg subj id w = (r, w') →
    same w w' ∧ ∀ z, r = Ok z → mine (Authz.STenantID subj) w z ∧ ID z = id).
  { unfold Owned. intros r0. destruct (guard cfg subj _); [|by intros [= <- <-]]. intros [Hs Ho]%owned_run.
    split; [done|]. intros z Hz. destruct (owned_row _ _ _ _ (Ho z Hz) Hwf) as (Hi & Ht & Hz' & _). unfold mine. by rewrite Hi. }
  unfold load in H. case_if in H as E; [|auto]. destruct (Authz.Require_ _ _ _); [auto|by injection H as <- <-].
Qed.

(** The audit record and the event of a write leave the state as it is. *)
Lemma quiet_record_audit subj t z n ty e : quiet (@audit S P R subj t z n ty e).
Proof. unfold audit. by destruct (audit_outcome e). Qed.
Lemma quiet_EmitRecord z n t a s : quiet (@EmitRecord S P R z n t a s).
Proof. apply quiet_publish. Qed.
#[local] Hint Resolve quiet_record_audit quiet_EmitRecord : dns.

Ltac quiet_step E := apply quiet_same in E; [|auto with dns].

Lemma Apply_run subj z i src w r w' :
  wok w → Apply lim subj z i src w = (r, w') →
  match r with
  | Ok v => NeedsMasters (Kind z) = false ∧ ∃ rr pz, v = toView rr ∧ patched z [rr] w w' pz ∧
      RecordSets.RecordSet lim (Name z) i (current pz) = Ok rr
  | Err _ => same w w'
  end.
Proof.
  intros Hok H. unfold Apply in H. destruct (Authz.Require_ _ _ _); [|by injection H as <- <-].
  run_bind H r0 w1 E1. apply apply_run in E1; [|done]. destruct r0 as [rr|e].
  - run_bind H u w2 E2. quiet_step E2. run_bind H u' w3 E3. quiet_step E3. injection H as <- <-. destruct E1 as (Hk & pz & Hp & Hr).
    split; [done|]. exists rr, pz. split; [done|]. split; [|done].
    eapply same_patched; eauto using same_trans.
  - run_bind H u w2 E2. quiet_step E2. injection H as <- <-. by eapply same_trans.
Qed.

Lemma removed_run subj z k src r w r' w' : removed subj z k src r w = (r', w') → same w w' ∧ is_ok r' = is_ok r.
Proof.
  intros H. destruct r as [[n t]|e]; simpl in H.
  - run_bind H u w1 E1. quiet_step E1. run_bind H u' w2 E2. quiet_step E2. injection H as <- <-. split; [|done].
    by eapply same_trans.
  - run_bind H u w1 E1. quiet_step E1. by injection H as <- <-.
Qed.

Lemma Remove_run subj z k src w r w' :
  wok w → Remove subj z k src w = (r, w') →
  match r with
  | Ok _ => ∃ n t pz, key z k = Ok (n, t) ∧
      ((NeedsMasters (Kind z) = false ∧ patched z [deletion n t] w w' pz) ∨
       (same w w' ∧ Pdns.zones (wsrv w) !! PDNSID z = Some pz ∧ find (current pz) n t = false))
  | Err _ => same w w'
  end.
Proof.
  intros Hok H. unfold Remove in H. destruct (Authz.Require_ _ _ _); [|by injection H as <- <-].
  run_bind H r0 w1 E1. apply remove_run in E1; [|done]. destruct r0 as [[n t]|e].
  - apply removed_run in H as [Hs Hr]. destruct E1 as (Hk & Hkey & pz & Hp & _). destruct r as [[]|]; [|done].
    exists n, t, pz. split; [done|]. left. split; [done|]. by eapply same_patched.
  - destruct E1 as [Hs Hn]. destruct (Is e RecordsErrNotFound).
    + injection H as <- <-. destruct (Hn eq_refl) as (n & t & pz & ? & ? & ?). exists n, t, pz. auto.
    + apply removed_run in H as [Hs' Hr]. destruct r as [|]; [done|]. by eapply same_trans.
Qed.

Lemma Upsert_run subj id i w r w' :
  wok w → MemStore.db_wf (wdb w) → Upsert cfg lim subj id i w = (r, w') →
  match r with
  | Ok v => ∃ z rr pz, mine (Authz.STenantID subj) w z ∧ ID z = id ∧ NeedsMasters (Kind z) = false ∧ v = toView rr ∧
      patched z [rr] w w' pz ∧ RecordSets.RecordSet lim (Name z) i (current pz) = Ok rr
  | Err _ => same w w'
  end.
Proof.
  intros Hok Hwf H. unfold Upsert in H. run_bind H x w1 E1. apply load_run in E1 as [S1 Hz]; [|done].
  destruct x as [z|]; [|by injection H as <- <-]. destruct (Hz z eq_refl) as [Hm Hid].
  apply Apply_run in H; [|by apply S1]. destruct r as [v|]; [|by eapply same_trans].
  destruct H as (Hk & rr & pz & -> & Hp & Hr). exists z, rr, pz. split_and!; try done. by eapply patched_same.
Qed.

Lemma Update_set_run subj id k i w r w' :
  wok w → MemStore.db_wf (wdb w) → Update cfg lim subj id k i w = (r, w') →
  match r with
  | Ok v => ∃ z rr n t pz ch, mine (Authz.STenantID subj) w z ∧ ID z = id ∧ NeedsMasters (Kind z) = false ∧ v = toView rr ∧
      key z k = Ok (n, t) ∧ patched z ch w w' pz ∧ update_changes lim z (current pz) n t i = Ok (rr, ch)
  | Err _ => same w w'
  end.
Proof.
  intros Hok Hwf H. unfold Update in H. run_bind H x w1 E1. apply load_run in E1 as [S1 Hz]; [|done].
  destruct x as [z|]; [|by injection H as <- <-]. destruct (Hz z eq_refl) as [Hm Hid].
  run_bind H r0 w2 E2. apply update_set_run in E2; [|by apply S1]. destruct r0 as [[[rr n] t]|e].
  - destruct E2 as (Hk & Hkey & pz & ch & Hp & Hu). run_bind H u1 w3 E3. quiet_step E3. run_bind H u2 w4 E4. quiet_step E4.
    assert (r = Ok (toView rr) ∧ same w4 w') as [-> S5].
    { case_if in H as Ed; [|by injection H as <- <-]. run_bind H u3 w5 E5. quiet_step E5. run_bind H u4 w6 E6. quiet_step E6.
      injection H as <- <-. split; [done|]. by eapply same_trans. }
    exists z, rr, n, t, pz, ch. split_and!; try done. eapply patched_same; [exact S1|].
    eapply same_patched; eauto using same_trans.
  - run_bind H u w3 E3. quiet_step E3. injection H as <- <-. eauto using same_trans.
Qed.

Lemma Delete_set_run subj id k w r w' :
  wok w → MemStore.db_wf (wdb w) → Records.Delete cfg subj id k w = (r, w') →
  match r with
  | Ok _ => ∃ z n t pz, mine (Authz.STenantID subj) w z ∧ ID z = id ∧ NeedsMasters (Kind z) = false ∧
      key z k = Ok (n, t) ∧ patched z [deletion n t] w w' pz ∧ find (current pz) n t = true
  | Err _ => same w w'
  end.
Proof.
  intros Hok Hwf H. unfold Records.Delete in H. run_bind H x w1 E1. apply load_run in E1 as [S1 Hz]; [|done].
  destruct x as [z|]; [|by injection H as <- <-]. destruct (Hz z eq_refl) as [Hm Hid].
  run_bind H r0 w2 E2. apply remove_run in E2; [|by apply S1]. apply removed_run in H as [Hs Hr].
  destruct r0 as [[n t]|e], r as [[]|]; try done.
  - destruct E2 as (Hk & Hkey & pz & Hp & Hf). exists z, n, t, pz. split_and!; try done.
    eapply patched_same; [exact S1|]. by eapply same_patched.
  - destruct E2 as [S2 _]. eauto using same_trans.
Qed.

Lemma Lookup_run subj z k w r w' :
  wok w → Lookup subj z k w = (r, w') →
  same w w' ∧ ∀ v, r = Ok v → ∃ n pz s, Validate.RecordName (Name z) (KName k) = Ok n ∧
    Pdns.zones (wsrv w) !! PDNSID z = Some pz ∧ v = toView s ∧
    find_first (same_fold n (ToUpper (TrimSpace (KType k)))) (current pz) = Some s.
Proof.
  intros Hok H. unfold Lookup in H. destruct (Authz.Require_ _ _ _); [|by injection H as <- <-].
  destruct (Validate.RecordName _ _) as [n|]; [|by injection H as <- <-].
  run_bind H cur w1 E1. apply rrsets_run in E1 as [S1 Hc]; [|done].
  destruct cur as [cur|]; [|by injection H as <- <-]. injection H as <- <-. split; [done|].
  intros v Hv. destruct (Hc cur eq_refl) as (pz & Hz & ->). destruct (find_first _ _) as [s|] eqn:Ef; [|done].
  injection Hv as <-. by exists n, pz, s.
Qed.

Lemma List_run `{LQ : ListQuery} subj id f req w r w' :
  wok w → MemStore.db_wf (wdb w) → List_ cfg subj id f req w = (r, w') → same w w'.
Proof.
  intros Hok Hwf H. unfold List_ in H. run_bind H x w1 E1. apply load_run in E1 as [S1 _]; [|done].
  destruct x as [z|]; [|by injection H as <- <-]. run_bind H cur w2 E2.
  apply rrsets_run in E2 as [S2 _]; [|by apply S1]. destruct cur; injection H as <- <-; by eapply same_trans.
Qed.

(** One operation of the service for tenant [t]; with [strict], the type names
    submitted are ASCII. *)
Inductive rstep (strict : bool) (t : str) (w : W) : W → Prop :=
  | rs_upsert subj id i : Authz.STenantID subj = t → (strict = true → isASCII (RecordSets.IType i) = true) →
      rstep strict t w (Upsert cfg lim subj id i w).2
  | rs_update subj id k i : Authz.STenantID subj = t → (strict = true → isASCII (RecordSets.IType i) = true ∧ isASCII (KType k) = true) →
      rstep strict t w (Records.Update cfg lim subj id k i w).2
  | rs_delete subj id k : Authz.STenantID subj = t → rstep strict t w (Records.Delete cfg subj id k w).2
  | rs_apply subj z i src : mine t w z → (strict = true → isASCII (RecordSets.IType i) = true) →
      rstep strict t w (Apply lim subj z i src w).2
  | rs_remove subj z k src : mine t w z → rstep strict t w (Remove subj z k src w).2
  | rs_lookup subj z k : rstep strict t w (Lookup subj z k w).2
  | rs_list (LQ : ListQuery) subj id f req : rstep strict t w (List_ cfg subj id f req w).2.

(** The patch a step made: an upsert, an update or a deletion. *)
Inductive change_of (strict : bool) (z : Zone) (pz : Pdns.Zone) : list Pdns.RRset → Prop :=
  | co_set i rr : (strict = true → isASCII (RecordSets.IType i) = true) →
      RecordSets.RecordSet lim (Name z) i (current pz) = Ok rr → change_of strict z pz [rr]
  | co_update i k n t rr ch : (strict = true → isASCII (RecordSets.IType i) = true ∧ isASCII (KType k) = true) →
      key z k = Ok (n, t) → update_changes lim z (current pz) n t i = Ok (rr, ch) → change_of strict z pz ch
  | co_delete n t : change_of strict z pz [deletion n t].

(** A step leaves everything as it was, or patches one primary of the tenant. *)
Lemma rstep_effect strict t w w' :
  wok w → MemStore.db_wf (wdb w) → rstep strict t w w' →
  same w w' ∨ ∃ z pz ch, mine t w z ∧ NeedsMasters (Kind z) = false ∧ patched z ch w w' pz ∧ change_of strict z pz ch.
Proof.
  intros Hok Hwf [subj id i Ht Ha|subj id k i Ht Ha|subj id k Ht|subj z i src Hm Ha|subj z k src Hm|subj z k|LQ subj id f req].
  - destruct (Upsert cfg lim subj id i w) as [r w1] eqn:E. apply Upsert_run in E; [|done..]. simpl. destruct r; [|by left].
    destruct E as (z & rr & pz & Hm & _ & Hk & _ & Hp & Hr). right. exists z, pz, [rr]. subst t. split_and!; try done.
    by eapply co_set.
  - destruct (Records.Update cfg lim subj id k i w) as [r w1] eqn:E. apply Update_set_run in E; [|done..]. simpl. destruct r; [|by left].
    destruct E as (z & rr & n & ty & pz & ch & Hm & _ & Hk & _ & Hkey & Hp & Hu). right. exists z, pz, ch. subst t.
    split_and!; try done. by eapply co_update.
  - destruct (Records.Delete cfg subj id k w) as [r w1] eqn:E. apply Delete_set_run in E; [|done..]. simpl. destruct r; [|by left].
    destruct E as (z & n & ty & pz & Hm & _ & Hk & Hkey & Hp & _). right. exists z, pz, [deletion n ty]. subst t.
    split_and!; try done. constructor.
  - destruct (Apply lim subj z i src w) as [r w1] eqn:E. apply Apply_run in E; [|done..]. simpl. destruct r; [|by left].
    destruct E as (Hk & rr & pz & _ & Hp & Hr). right. exists z, pz, [rr]. split_and!; try done. by eapply co_set.
  - destruct (Remove subj z k src w) as [r w1] eqn:E. apply Remove_run in E; [|done..]. simpl. destruct r; [|by left].
    destruct E as (n & ty & pz & Hkey & [[Hk Hp]|[Hs _]]); [|by left]. right. exists z, pz, [deletion n ty].
    split_and!; try done. constructor.
  - left. destruct (Lookup subj z k w) as [r w1] eqn:E. by apply Lookup_run in E as [? _].
  - left. destruct (List_ cfg subj id f req w) as [r w1] eqn:E. by apply List_run in E.
Qed.

(** Rows have distinct PowerDNS ids. *)
Lemma pdnsid_inj w k z k' z' :
  MemStore.db_wf (wdb w) → MemStore.zones (wdb w) !! k = Some z → MemStore.zones (wdb w) !! k' = Some z' →
  PDNSID z = PDNSID z' → z = z'.
Proof.
  intros Hwf Hz Hz' E. assert (k = k') as <- by (apply (MemStore.wf_zone_uniq _ Hwf k k' z z'); [done..|by right]).
  congruence.
Qed.

(** A record operation leaves the zones it may not write as they are. *)
Lemma rstep_isolated (t : str) w w' k z' :
  zinv w → rstep false t w w' → MemStore.zones (wdb w) !! k = Some z' → TenantID z' ≠ t ∨ NeedsMasters (Kind z') = true →
  zinv w' ∧ wdb w' = wdb w ∧ Pdns.zones (wsrv w') !! PDNSID z' = Pdns.zones (wsrv w) !! PDNSID z'.
Proof.
  intros Hi Hs Hz Hne. pose proof (zi_ok _ Hi) as Hok. pose proof (zi_db _ Hi) as Hwf.
  destruct (rstep_effect _ _ _ _ Hok Hwf Hs) as [Hsame|(z & pz & ch & [Hm Ht] & Hk & [_ _ Hsrv Hdb Hok'] & _)].
  - split; [by eapply same_inv|]. destruct Hsame as (-> & -> & _). done.
  - split; [apply (zones_same_inv w w'); rewrite ?Hdb; done|]. split; [done|]. rewrite Hsrv. simpl.
    rewrite lookup_insert_ne; [done|]. intros E.
    pose proof (pdnsid_inj w _ _ _ _ Hwf Hm Hz E) as <-. destruct Hne; congruence.
Qed.

(** C5: a record operation done for a tenant never writes the store, and on the
    PowerDNS server it can only change zones of that tenant that are not
    secondaries: the entry of every other tenant's zone, and of every slave or
    consumer zone, is exactly as before, whether the operation succeeds, is
    refused or fails. *)
Theorem records_isolation (t : str) w w' k z' :
  zinv w → rstep false t w w' → MemStore.zones (wdb w) !! k = Some z' → TenantID z' ≠ t ∨ NeedsMasters (Kind z') = true →
  zinv w' ∧ wdb w' = wdb w ∧ Pdns.zones (wsrv w') !! PDNSID z' = Pdns.zones (wsrv w) !! PDNSID z'.
Proof. apply rstep_isolated. Qed.

(** What a patch means for the zone's entries. *)
Lemma patched_meaning z ch w w' pz :
  patched z ch w w' pz → ∃ pz', Pdns.zones (wsrv w') !! PDNSID z = Some pz' ∧
    Pdns.meaning (Pdns.PRRsets pz') = fold_left Pdns.meaning_one ch (Pdns.meaning (Pdns.PRRsets pz)).
Proof.
  intros [_ _ Hs _ _]. rewrite Hs. simpl. eexists. split; [apply lookup_insert_eq|]. apply Pdns.apply_patch_meaning.
Qed.

(** An accepted set is a change with records and comments. *)
Lemma RecordSet_change l zone i ex rr :
  RecordSets.RecordSet l zone i ex = Ok rr →
  Pdns.RChangeType rr = Pdns.ChangeReplace ∧ Pdns.RRecords rr ≠ [] ∧ Pdns.RComments rr ≠ None.
Proof.
  intros (z & _ & _ & _ & _ & _ & Hl & _ & Hv & _ & _ & Hc & Hcom)%RecordSets.RecordSet_inv. split_and!; try done.
  apply RecordSets.values_Ok in Hv as [Hv _]. apply Forall2_length in Hv. intros E. rewrite E in Hv. simpl in Hv. lia.
Qed.

Lemma RecordSet_replace l zone i ex rr m :
  RecordSets.RecordSet l zone i ex = Ok rr →
  Pdns.meaning_one m rr = <[Pdns.rkey rr := (Pdns.RTTL rr, Pdns.RRecords rr)]> m.
Proof.
  intros (Hc & Hr & _)%RecordSet_change. unfold Pdns.meaning_one.
  by rewrite Hc, bool_decide_eq_true_2, bool_decide_eq_false_2.
Qed.

(** An upsert is atomic and exact.  A failure leaves the store and the
    server as they were.  A success was done on a zone of the caller's tenant
    that is not a secondary; of all the entries of that zone exactly the one of
    the validated name and type changed, to exactly the validated TTL and values,
    and the caller is shown what was written. *)
Theorem Upsert_spec subj id i w r w' :
  zinv w → Upsert cfg lim subj id i w = (r, w') →
  match r with
  | Err _ => same w w'
  | Ok v => ∃ z rr pz pz',
      MemStore.zones (wdb w) !! id = Some z ∧ TenantID z = Authz.STenantID subj ∧ NeedsMasters (Kind z) = false ∧
      RecordSets.RecordSet lim (Name z) i (Pdns.cloneRRsets (Pdns.PRRsets pz)) = Ok rr ∧ v = toView rr ∧ wdb w' = wdb w ∧
      Pdns.zones (wsrv w) !! PDNSID z = Some pz ∧ Pdns.zones (wsrv w') = <[PDNSID z := pz']> (Pdns.zones (wsrv w)) ∧
      Pdns.meaning (Pdns.PRRsets pz') = <[(Pdns.RName rr, Pdns.RType rr) := (Pdns.RTTL rr, Pdns.RRecords rr)]>
                                          (Pdns.meaning (Pdns.PRRsets pz))
  end.
Proof.
  intros Hi E. apply Upsert_run in E; [|apply Hi..]. destruct r as [v|]; [|done].
  destruct E as (z & rr & pz & [Hz Ht] & Hid & Hk & -> & [Hpz _ Hsrv Hdb _] & Hr). rewrite Hid in Hz.
  exists z, rr, pz. eexists. rewrite Hsrv. split_and!; try done. simpl. rewrite Pdns.apply_patch_meaning. cbn [fold_left].
  by erewrite RecordSet_replace.
Qed.

(** ** Updates *)

Abbreviation rest n t sets := (List.filter (λ r, negb (same_fold n t r)) sets).

Lemma update_changes_inv z cur n t i rr ch :
  update_changes lim z cur n t i = Ok (rr, ch) →
  find cur n t = true ∧ RecordSets.RecordSet lim (Name z) i (rest n t cur) = Ok rr ∧
  ((Pdns.rkey rr = (n, t) ∧ ch = [rr]) ∨
   (Pdns.rkey rr ≠ (n, t) ∧ find (rest n t cur) (Pdns.RName rr) (Pdns.RType rr) = false ∧ ch = [rr; deletion n t])).
Proof.
  unfold update_changes. destruct (find cur n t); [|done]. cbn [negb]. intros (r & Hr & H)%bind_Ok.
  unfold Pdns.rkey. case_if in H as E.
  - destruct (find _ (Pdns.RName r) (Pdns.RType r)) eqn:Ef; [done|]. injection H as <- <-. split_and!; [done..|].
    right. split_and!; try done. intros [= <- <-]. by rewrite !bool_decide_eq_true_2 in E.
  - injection H as <- <-. b2p. split_and!; [done..|]. left. split; [by f_equal|done].
Qed.

Lemma elem_of_rest n t sets x : x ∈ rest n t sets ↔ x ∈ sets ∧ same_fold n t x = false.
Proof. rewrite !list_elem_of_In, filter_In, negb_true_iff. done. Qed.

Lemma same_fold_self s : same_fold (Pdns.RName s) (Pdns.RType s) s = true.
Proof. unfold same_fold. by rewrite !EqualFold_refl. Qed.

Lemma find_false sets n t : find sets n t = false → (n, t) ∉ map Pdns.rkey sets.
Proof.
  rewrite find_existsb. intros H (x & [= -> ->] & Hx)%list_elem_of_fmap.
  apply not_true_iff_false in H. apply H, existsb_exists. exists x. split; [by apply list_elem_of_In|]. apply same_fold_self.
Qed.

(** A renamed set does not take the place of another one. *)
Lemma rename_fresh n t sets rr :
  canon_key (n, t) → canon_key (Pdns.rkey rr) → Pdns.rkey rr ≠ (n, t) →
  find (rest n t sets) (Pdns.RName rr) (Pdns.RType rr) = false → Pdns.rkey rr ∉ map Pdns.rkey sets.
Proof.
  intros Hk Hr Hne Hf (x & Hx & Hin)%list_elem_of_fmap. apply find_false in Hf. apply Hf.
  change (Pdns.RName rr, Pdns.RType rr) with (Pdns.rkey rr). rewrite Hx. apply list_elem_of_fmap_2, elem_of_rest.
  split; [done|]. rewrite same_fold_canon; rewrite <- ?Hx; [|done..]. by apply bool_decide_eq_false.
Qed.

Lemma meaning_None sets k : k ∉ map Pdns.rkey sets → Pdns.meaning sets !! k = None.
Proof. intros H. apply not_elem_of_list_to_map. by rewrite map_map. Qed.

(** An update moves one record set and overwrites no other.  A failure
    leaves the store and the server as they were.  A success found the original
    name and type in a zone of the caller's tenant that is not a secondary, and
    in one patch replaced that entry by the validated one: the entries of the
    zone are the old ones less the original, plus the new; and when the name or
    the type changed, no set had the new name and type before. *)
Theorem Update_moves subj id k i w r w' :
  zinv w → isASCII (RecordSets.IType i) = true → isASCII (KType k) = true →
  Records.Update cfg lim subj id k i w = (r, w') →
  match r with
  | Err _ => same w w'
  | Ok v => ∃ z rr n t pz pz',
      MemStore.zones (wdb w) !! id = Some z ∧ TenantID z = Authz.STenantID subj ∧ NeedsMasters (Kind z) = false ∧
      key z k = Ok (n, t) ∧ find (Pdns.PRRsets pz) n t = true ∧ v = toView rr ∧ wdb w' = wdb w ∧
      Pdns.zones (wsrv w) !! PDNSID z = Some pz ∧ Pdns.zones (wsrv w') = <[PDNSID z := pz']> (Pdns.zones (wsrv w)) ∧
      Pdns.meaning (Pdns.PRRsets pz') = <[(Pdns.RName rr, Pdns.RType rr) := (Pdns.RTTL rr, Pdns.RRecords rr)]>
                                          (delete (n, t) (Pdns.meaning (Pdns.PRRsets pz))) ∧
      ((Pdns.RName rr, Pdns.RType rr) ≠ (n, t) → Pdns.meaning (Pdns.PRRsets pz) !! (Pdns.RName rr, Pdns.RType rr) = None)
  end.
Proof.
  intros Hi Hai Hak E. apply Update_set_run in E; [|apply Hi..]. destruct r as [v|]; [|done].
  destruct E as (z & rr & n & t & pz & ch & [Hz Ht] & Hid & Hk & -> & Hkey & [Hpz _ Hsrv Hdb _] & Hu). rewrite Hid in Hz.
  apply update_changes_inv in Hu as (Hf & Hr & Hch). pose proof (key_canon _ _ _ _ Hak Hkey) as Hc.
  pose proof (RecordSet_canon _ _ _ _ _ Hai Hr) as [Hrc _].
  exists z, rr, n, t, pz. eexists. rewrite Hsrv. split_and!; try done.
  { by rewrite find_clone in Hf. }
  - simpl. rewrite Pdns.apply_patch_meaning. destruct Hch as [[Hrk ->]|(Hne & _ & ->)]; cbn [fold_left].
    + rewrite (RecordSet_replace _ _ _ _ _ _ Hr). rewrite Hrk. change (Pdns.RName rr, Pdns.RType rr) with (Pdns.rkey rr).
      by rewrite Hrk, insert_delete_eq.
    + rewrite (RecordSet_replace _ _ _ _ _ _ Hr). unfold Pdns.meaning_one. simpl.
      change (Pdns.rkey (deletion n t)) with (n, t). by rewrite delete_insert_ne by congruence.
  - intros Hne. destruct Hch as [[Hrk _]|(_ & Hfo & _)]; [done|].
    apply meaning_None. pose proof (rename_fresh _ _ _ _ Hc Hrc Hne Hfo) as Hn.
    unfold Pdns.cloneRRsets in Hn. by rewrite map_map in Hn.
Qed.

(** Removing a record set is idempotent: after a success the zone's entries
    are the old ones less the addressed name and type, whether it was there or
    not; a failure leaves the store and the server as they were. *)
Theorem Remove_spec subj z k src w r w' :
  wok w → Remove subj z k src w = (r, w') →
  match r with
  | Err _ => same w w'
  | Ok _ => ∃ n t pz pz', key z k = Ok (n, t) ∧ wdb w' = wdb w ∧
      Pdns.zones (wsrv w) !! PDNSID z = Some pz ∧ Pdns.zones (wsrv w') = <[PDNSID z := pz']> (Pdns.zones (wsrv w)) ∧
      Pdns.meaning (Pdns.PRRsets pz') = delete (n, t) (Pdns.meaning (Pdns.PRRsets pz))
  end.
Proof.
  intros Hok E. apply Remove_run in E; [|done]. destruct r as [[]|]; [|done].
  destruct E as (n & t & pz & Hkey & [[_ [Hz _ Hs Hd _]]|((Hd & Hs & _) & Hz & Hf)]); exists n, t, pz.
  - eexists. rewrite Hs. split_and!; try done. simpl. by rewrite Pdns.apply_patch_meaning.
  - exists pz. rewrite Hs. split_and!; try done; [by rewrite insert_id|].
    apply find_false in Hf. unfold Pdns.cloneRRsets in Hf. rewrite map_map in Hf.
    by rewrite delete_id by (by apply meaning_None).
Qed.

(** ** CNAMEs *)

Definition sets_ok (sets : list Pdns.RRset) : Prop := canon_sets sets ∧ RecordSets.cname_alone sets.

(** Writing an accepted set beside sets it was checked against. *)
Lemma sets_ok_with sets rr final :
  sets_ok sets → canon_key (Pdns.rkey rr) →
  (∀ x, x ∈ final → Pdns.rkey x = Pdns.rkey rr ∨ ∃ e, e ∈ sets ∧ Pdns.rkey e = Pdns.rkey x ∧ RecordSets.agrees rr e) →
  sets_ok final.
Proof.
  intros [Hc Ha] Hr Hf. split; [|by eapply RecordSets.cname_alone_with].
  unfold canon_sets in *. rewrite Forall_forall in *. intros x [->|(e & He & <- & _)]%Hf; auto.
Qed.

Lemma sets_ok_sub sets final : sets_ok sets → (∀ x, x ∈ final → ∃ e, e ∈ sets ∧ Pdns.rkey e = Pdns.rkey x) → sets_ok final.
Proof.
  intros [Hc Ha] Hf. split.
  - unfold canon_sets in *. rewrite Forall_forall in *. intros x (e & He & <-)%Hf. auto.
  - unfold RecordSets.cname_alone, RecordSets.is_cname in *.
    intros x y (e & He & [= <- <-])%Hf (e' & He' & [= <- <-])%Hf. by apply (Ha e e').
Qed.

Lemma elem_of_clone x sets : x ∈ Pdns.cloneRRsets sets → ∃ e, e ∈ sets ∧ Pdns.rkey e = Pdns.rkey x.
Proof. intros (e & -> & He)%list_elem_of_fmap. by exists e. Qed.

Lemma change_of_ok z pz ch :
  change_of true z pz ch → sets_ok (Pdns.PRRsets pz) → sets_ok (Pdns.apply_patch (Pdns.PRRsets pz) ch).
Proof.
  intros Hch Hok. assert (Hcur : sets_ok (current pz)) by (eapply sets_ok_sub; [done|]; intros; by apply elem_of_clone).
  unfold Pdns.apply_patch. destruct Hch as [i rr Ha Hr|i k n t rr ch Ha Hkey Hu|n t]; cbn [fold_left].
  - specialize (Ha eq_refl). pose proof (RecordSet_canon _ _ _ _ _ Ha Hr) as [Hc _].
    apply (RecordSets.RecordSet_agrees _ _ _ _ _ Ha) in Hr. rewrite Forall_forall in Hr.
    apply (sets_ok_with (current pz) rr); [done..|]. intros x [?|[Hx _]]%Pdns.patch_one_elem; eauto 6.
  - destruct (Ha eq_refl) as [Hai Hak]. apply update_changes_inv in Hu as (_ & Hr & Hch).
    pose proof (RecordSet_canon _ _ _ _ _ Hai Hr) as [Hc _]. pose proof (key_canon _ _ _ _ Hak Hkey) as Hk.
    apply (RecordSets.RecordSet_agrees _ _ _ _ _ Hai) in Hr. rewrite Forall_forall in Hr.
    assert (Hrest : ∀ x, x ∈ current pz → Pdns.rkey x ≠ (n, t) → RecordSets.agrees rr x).
    { intros x Hx Hne. apply Hr, elem_of_rest. split; [done|]. rewrite same_fold_canon; [by apply bool_decide_eq_false|done|].
      destruct Hcur as [Hcan _]. unfold canon_sets in Hcan. rewrite Forall_forall in Hcan. auto. }
    apply (sets_ok_with (current pz) rr); [done..|]. intros x Hx.
    destruct Hch as [[Hrk ->]|(Hne & _ & ->)]; cbn [fold_left] in Hx.
    + apply Pdns.patch_one_elem in Hx as [?|[Hx Hx']]; [by left|]. right. exists x. rewrite Hrk in Hx'. auto.
    + apply Pdns.delete_elem in Hx as [Hx Hxn]; [|done].
      apply Pdns.patch_one_elem in Hx as [?|[Hx _]]; [by left|]. right. exists x. auto.
  - eapply sets_ok_sub; [exact Hcur|]. intros x [Hx _]%Pdns.delete_elem; [|done]. by exists x.
Qed.

Lemma rstep_zinv strict t w w' : zinv w → rstep strict t w w' → zinv w'.
Proof.
  intros Hi Hs. pose proof (zi_ok _ Hi) as Hok. pose proof (zi_db _ Hi) as Hwf.
  destruct (rstep_effect _ _ _ _ Hok Hwf Hs) as [Hsame|(z & pz & ch & _ & _ & [_ _ _ Hdb Hok'] & _)]; [by eapply same_inv|].
  apply (zones_same_inv w w'); rewrite ?Hdb; done.
Qed.

(** C31: CNAMEs stay alone through the record service.  If in every zone of the
    server no name, compared without case, has a CNAME set beside another set
    (and the stored keys are in PowerDNS's case), then the same holds after any
    sequence of upserts, updates, renames and deletions of any callers. *)
Theorem cname_exclusive w0 w :
  zinv w0 → map_Forall (λ _ pz, sets_ok (Pdns.PRRsets pz)) (Pdns.zones (wsrv w0)) →
  rtc (λ w w', ∃ t, rstep true t w w') w0 w →
  map_Forall (λ _ pz, sets_ok (Pdns.PRRsets pz)) (Pdns.zones (wsrv w)).
Proof.
  intros Hi H0 Hr. induction Hr as [|w1 w2 w3 [t Ht] _ IH]; [done|].
  apply IH; [by eapply rstep_zinv|].
  destruct (rstep_effect _ _ _ _ (zi_ok _ Hi) (zi_db _ Hi) Ht) as [(_ & -> & _)|(z & pz & ch & _ & _ & [Hz _ Hs _ _] & Hc)]; [done|].
  rewrite Hs. simpl. apply map_Forall_insert_2; [|done]. apply (change_of_ok z pz ch Hc). by apply (H0 (PDNSID z)).
Qed.

(** ** Reading back *)

(** A caller that may write may read. *)
Lemma manage_reads s : Authz.Require_ None s Authz.ZonesManage = Ok () → Authz.Require_ None s Authz.ZonesRead = Ok ().
Proof.
  unfold Authz.Require_. case_bool_decide; [done|].
  change (Authz.Known Authz.ZonesManage) with true. change (Authz.Known Authz.ZonesRead) with true. cbn [negb].
  do 2 (case_bool_decide; [done|]). case_bool_decide; [|by case_bool_decide].
  change (Store.contains Authz.moduleAllowed Authz.ZonesRead) with true. rewrite orb_true_l, andb_true_r.
  by destruct (negb _).
Qed.

Lemma Lookup_err subj z k w e w' :
  wok w → Lookup subj z k w = (Err e, w') → Authz.Require_ None (withoutUser subj) Authz.ZonesRead = Ok () →
  is_ok (Validate.RecordName (Name z) (KName k)) = true →
  only_kinds call_kinds e ∨
  (∃ n pz, Validate.RecordName (Name z) (KName k) = Ok n ∧ Pdns.zones (wsrv w) !! PDNSID z = Some pz ∧
     find_first (same_fold n (ToUpper (TrimSpace (KType k)))) (current pz) = None).
Proof.
  intros Hok H Hreq Hn. unfold Lookup in H. rewrite Hreq in H. destruct (Validate.RecordName _ _) as [n|]; [|done].
  run_bind H cur w1 E1. pose proof E1 as [_ Hc]%rrsets_run; [|done]. destruct cur as [cur|].
  - destruct (Hc cur eq_refl) as (pz & Hz & ->). injection H as H _. right. exists n, pz. by destruct (find_first _ _).
  - injection H as <- _. left. by eapply rrsets_err.
Qed.

(** "Record set not found" means that the sets were read and none matches. *)
Lemma Lookup_absent subj z k w e w' :
  wok w → Lookup subj z k w = (Err e, w') → Is e RecordsErrNotFound = true →
  ∃ n pz, Validate.RecordName (Name z) (KName k) = Ok n ∧ Pdns.zones (wsrv w) !! PDNSID z = Some pz ∧
    find_first (same_fold n (ToUpper (TrimSpace (KType k)))) (current pz) = None.
Proof.
  intros Hok H Hnf. unfold Lookup in H. destruct (Authz.Require_ _ _ _) as [|er] eqn:Er.
  2:{ injection H as <- _. apply Authz.Require_err in Er. not_found_kinds Er. congruence. }
  destruct (Validate.RecordName _ _) as [n|en] eqn:En.
  2:{ injection H as <- _. apply (Validate.RecordName_err [ErrName]) in En; [|by left]. not_found_kinds En. congruence. }
  run_bind H cur w1 E1. pose proof E1 as [_ Hc]%rrsets_run; [|done]. destruct cur as [cur|].
  - destruct (Hc cur eq_refl) as (pz & Hz & ->). injection H as H _. exists n, pz. by destruct (find_first _ _).
  - injection H as <- _. apply rrsets_err in E1; [|done]. not_found_kinds E1. congruence.
Qed.

(** What a lookup finds is the entry of the key. *)
Lemma find_first_canon sets n t :
  canon_sets sets → canon_key (n, t) →
  find_first (same_fold n t) sets = find_first (λ s, bool_decide (Pdns.rkey s = (n, t))) sets.
Proof.
  intros Hs Hk. induction Hs as [|s sets Hc _ IH]; [done|]. simpl. by rewrite same_fold_canon, IH.
Qed.
Lemma find_first_meaning pz n t :
  canon_sets (Pdns.PRRsets pz) → canon_key (n, t) →
  Pdns.meaning (Pdns.PRRsets pz) !! (n, t) = (λ s, (Pdns.RTTL s, Pdns.RRecords s)) <$> find_first (same_fold n t) (current pz).
Proof.
  intros Hs Hk. rewrite find_first_canon by (done || by apply canon_clone).
  by rewrite <- Pdns.meaning_clone, Pdns.meaning_lookup.
Qed.

(** The set an upsert leaves at its key is the only one a lookup can find. *)
Lemma find_written n t sets rr s :
  canon_sets sets → canon_key (Pdns.rkey rr) → Pdns.rkey rr = (n, t) → Pdns.rkey s = Pdns.rkey rr →
  find_first (same_fold n t) (Pdns.cloneRRsets (Pdns.others rr sets ++ [s])) = Some (Pdns.cloneRRset s).
Proof.
  intros Hc Hr Hk Hs. unfold Pdns.cloneRRsets. rewrite map_app.
  assert (Ho : Forall (λ x, same_fold n t x = false) (map Pdns.cloneRRset (Pdns.others rr sets))).
  { apply Forall_map, Forall_forall. intros x [Hx Hne]%Pdns.elem_of_others. unfold canon_sets in Hc. rewrite Forall_forall in Hc.
    specialize (Hc x Hx). rewrite same_fold_canon; [|by rewrite <- Hk|done]. apply bool_decide_eq_false. by rewrite <- Hk. }
  induction Ho as [|x l Hx _ IH]; simpl; [|by rewrite Hx].
  injection Hk as <- <-. rewrite same_fold_canon; [|done|by rewrite Pdns.rkey_clone, Hs].
  by rewrite bool_decide_eq_true_2.
Qed.

Lemma toView_stored rr s :
  Pdns.rkey s = Pdns.rkey rr → Pdns.RTTL s = Pdns.RTTL rr → Pdns.RRecords s = Pdns.RRecords rr →
  Pdns.clone_comments (Pdns.RComments s) = Pdns.clone_comments (Pdns.RComments rr) → toView (Pdns.cloneRRset s) = toView rr.
Proof.
  intros [= Hn Ht] Httl Hr Hc. unfold toView. simpl. rewrite Hn, Ht, Httl, Hr. f_equal.
  assert (H : ∀ c : option (list Pdns.Comment),
    match c with Some (x :: _) => Pdns.ComContent x | _ => [] end =
    match Pdns.clone_comments c with Some (x :: _) => Pdns.ComContent x | _ => [] end) by (by intros [[|]|]).
  by rewrite Hc, <- H.
Qed.

Lemma Apply_allowed subj z i src w v w' :
  Apply lim subj z i src w = (Ok v, w') → Authz.Require_ None (withoutUser subj) Authz.ZonesManage = Ok ().
Proof. unfold Apply. by destruct (Authz.Require_ _ _ _) as [[]|]. Qed.

(** What a lookup finds after the patch of an accepted set. *)
Lemma written_found z i w w' pz rr :
  isASCII (RecordSets.IType i) = true → canon_sets (Pdns.PRRsets pz) → patched z [rr] w w' pz →
  RecordSets.RecordSet lim (Name z) i (current pz) = Ok rr →
  ∃ pz' s, Pdns.zones (wsrv w') !! PDNSID z = Some pz' ∧ toView s = toView rr ∧
    find_first (same_fold (Pdns.RName rr) (Pdns.RType rr)) (current pz') = Some s.
Proof.
  intros Ha Hc [_ _ Hs _ _] Hr. pose proof (RecordSet_canon _ _ _ _ _ Ha Hr) as [Hk _].
  apply RecordSet_change in Hr as (H1 & H2 & H3). rewrite Hs. simpl.
  eexists _, _. split; [apply lookup_insert_eq|]. split; [|simpl; unfold Pdns.apply_patch; cbn [fold_left]; rewrite Pdns.patch_one_stored by done;
    eapply find_written; [by apply canon_clone|done|done|done]].
  apply toView_stored; try done. simpl. by destruct (Pdns.RComments rr) as [[|]|].
Qed.

(** What was written is read back: after an accepted upsert, a lookup of
    the name and type it returned, by the same caller, gives the same view
    (values, flags, TTL, comment), unless the call to the server fails. *)
Theorem Apply_Lookup subj z i src w v w1 r w2 :
  wok w → isASCII (RecordSets.IType i) = true →
  (∀ pz, Pdns.zones (wsrv w) !! PDNSID z = Some pz → canon_sets (Pdns.PRRsets pz)) →
  Apply lim subj z i src w = (Ok v, w1) → Lookup subj z (mkKey (VwName v) (VwType v)) w1 = (r, w2) →
  r = Ok v ∨ ∃ e, r = Err e ∧ only_kinds call_kinds e.
Proof.
  intros Hok Ha Hcan E1 E2. pose proof (manage_reads _ (Apply_allowed _ _ _ _ _ _ _ E1)) as Hreq.
  apply Apply_run in E1 as (_ & rr & pz & -> & Hp & Hr); [|done].
  pose proof (written_found _ _ _ _ _ _ Ha (Hcan _ (pt_zone _ _ _ _ _ Hp)) Hp Hr) as (pz' & s & Hz' & Hv & Hf).
  pose proof (RecordSet_canon _ _ _ _ _ Ha Hr) as [_ Ht]. pose proof (table_canon _ Ht) as (Ht1 & Ht2 & Ht3).
  apply RecordSets.RecordSet_inv in Hr as (zc & Hzc & _ & Hn & _).
  assert (Hname : Validate.RecordName (Name z) (Pdns.RName rr) = Ok (Pdns.RName rr)).
  { rewrite (Validate.RecordName_zone _ _ _ Hzc). apply Validate.RecordName_inv in Hn as (z' & Hz & _ & _ & Hn).
    rewrite (Validate.canonicalZone_idem _ _ Hzc) in Hz. by injection Hz as <-. }
  assert (Hty : ToUpper (TrimSpace (VwType (toView rr))) = Pdns.RType rr)
    by (simpl; by rewrite (ToUpper_ascii _ Ht1), Ht2, Ht3, (ToUpper_ascii _ Ht1), Ht2).
  pose proof (pt_ok _ _ _ _ _ Hp) as Hok1. destruct r as [v|e].
  - left. apply Lookup_run in E2 as [_ E2]; [|done]. destruct (E2 v eq_refl) as (n & pz2 & s2 & Hn2 & Hz2 & -> & Hf2).
    cbn [KName KType VwName] in Hn2, Hf2. rewrite Hty in Hf2. cbn [toView VwName] in Hn2. congruence.
  - right. exists e. split; [done|]. apply Lookup_err in E2; [|done|done|simpl; by rewrite Hname].
    destruct E2 as [?|(n & pz2 & Hn2 & Hz2 & Hf2)]; [done|]. exfalso.
    cbn [KName KType VwName] in Hn2, Hf2. rewrite Hty in Hf2. cbn [toView VwName] in Hn2. congruence.
Qed.

(** A listing shows the caller's zone as the server has it: the total is
    the number of the zone's sets that pass the filter, every row of the page is
    the view of one of them, and nothing changes. *)
Theorem List_faithful `{LQ : ListQuery} {LQL : ListQueryLaws} subj id f req w page total req' w' :
  zinv w → List_ cfg subj id f req w = (Ok (page, total, req'), w') →
  same w w' ∧ ∃ z pz, MemStore.zones (wdb w) !! id = Some z ∧ TenantID z = Authz.STenantID subj ∧
    Pdns.zones (wsrv w) !! PDNSID z = Some pz ∧
    total = Z.of_nat (length (List.filter (keep f) (Pdns.PRRsets pz))) ∧
    Forall (λ v, ∃ s, s ∈ Pdns.PRRsets pz ∧ keep f s = true ∧ v = toView s) page.
Proof.
  intros Hi H. pose proof (zi_ok _ Hi) as Hok. pose proof (zi_db _ Hi) as Hwf.
  split; [by eapply List_run|]. unfold List_ in H. run_bind H x w1 E1. apply load_run in E1 as [S1 Hz]; [|done].
  destruct x as [z|]; [|done]. destruct (Hz z eq_refl) as [[Hm Ht] Hid]. run_bind H cur w2 E2.
  apply rrsets_run in E2 as [_ Hc]; [|by apply S1]. destruct cur as [cur|]; [|done].
  destruct (Hc cur eq_refl) as (pz & Hpz & ->). destruct S1 as (_ & Hs1 & _). rewrite Hs1 in Hpz. rewrite Hid in Hm.
  exists z, pz. split_and!; try done.
  - injection H as H _. apply (f_equal (λ x, x.1.2)) in H. cbn [fst snd] in H. rewrite <- H, Window_total.
    unfold sortSets. rewrite (SortSlice_perm _ _ _ _), length_map. f_equal. clear. unfold Pdns.cloneRRsets.
    induction (Pdns.PRRsets pz) as [|s l IH]; [done|]. simpl. change (keep f (Pdns.cloneRRset s)) with (keep f s).
    destruct (keep f s); simpl; by rewrite IH.
  - injection H as H _. apply (f_equal (λ x, x.1.1)) in H. cbn [fst snd] in H. apply Forall_forall. intros v Hv. rewrite <- H in Hv.
    apply Window_page in Hv. unfold sortSets in Hv. rewrite (SortSlice_perm _ _ _ _) in Hv.
    apply list_elem_of_fmap in Hv as (x & -> & Hx). apply list_elem_of_In, filter_In in Hx as [Hx Hk].
    apply list_elem_of_In, list_elem_of_fmap in Hx as (s & -> & Hs). exists s. split; [done|]. split; [done|].
    by apply toView_stored.
Qed.

(** ** Audit records and events *)

Definition logs (w : W) : list AuditEvent.Event * list Events.Recorded := (w_audit w, w_events w).

Lemma Call_logs {A} name (op : P → res A * P) w r w' : Call name op w = (r, w') → logs w' = logs w.
Proof.
  unfold Call, on_pdns, metric, mbind, M_bind, mret, M_ret. destruct (op (w_pdns w)). by intros [= <- <-].
Qed.
Lemma rrsets_logs z w r w' : rrsets z w = (r, w') → logs w' = logs w.
Proof. intros H. unfold rrsets in H. run_bind H x w1 E. injection H as <- <-. by apply Call_logs in E. Qed.
Lemma patch_logs z ch w r w' : patch z ch w = (r, w') → logs w' = logs w.
Proof. intros H. unfold patch in H. run_bind H x w1 E. injection H as <- <-. by apply Call_logs in E. Qed.

Lemma load_logs subj id perm w r w' : load cfg subj id perm w = (r, w') → logs w' = logs w.
Proof.
  assert (Ho : ∀ r, Owned cfg subj id w = (r, w') → logs w' = logs w).
  { unfold Owned. intros r0. destruct (guard cfg subj _); [|by intros [= <- <-]]. unfold owned. intros H.
    run_bind H x w1 E. injection H as <- <-. unfold on_store in E. destruct (MemStore.repo_GetZone _ _ _).
    by injection E as <- <-. }
  unfold load. case_if as E; [|apply Ho]. destruct (Authz.Require_ _ _ _); [apply Ho|by intros [= <- <-]].
Qed.

Lemma update_logs z k i w r w' : update lim z k i w = (r, w') → logs w' = logs w.
Proof.
  intros H. unfold update in H. destruct (writable z); [|by injection H as <- <-].
  destruct (key z k) as [[n t]|]; [|by injection H as <- <-]. run_bind H cur w1 E1. apply rrsets_logs in E1.
  destruct cur as [cur|]; [|by injection H as <- <-].
  destruct (update_changes _ _ _ _ _ _) as [[rr ch]|]; [|by injection H as <- <-].
  run_bind H u w2 E2. apply patch_logs in E2. destruct u; injection H as <- <-; congruence.
Qed.

(** The audit record of a record-set change. *)
Definition audit_event (subj : Authz.Subjects) (t : str) (z : Zone) (n ty : str) (e : option error) : AuditEvent.Event :=
  AuditEvent.mkEvent (Authz.STenantID subj) t (AuditEvent.ActorOf (Authz.ActorKind subj)) (Authz.ActorID subj)
    AuditEvent.SubjectRecord (ID z) (audit_outcome e).1 (audit_outcome e).2
    [("zone" : str, Name z); ("name" : str, n); ("type" : str, ty)].
Definition change_event (z : Zone) (n ty action src : str) : Events.Recorded :=
  Events.mkRecorded (TenantID z) Events.RecordChanged (Events.RecordPayload (ID z) (Name z) n ty action src).

Lemma audit_logs subj t z n ty e w u w' :
  audit subj t z n ty e w = (u, w') → logs w' = (w_audit w ++ [audit_event subj t z n ty e], w_events w).
Proof. unfold audit, audit_event. destruct (audit_outcome e). by intros [= <- <-]. Qed.
Lemma emit_logs z n ty a src w u w' :
  EmitRecord z n ty a src w = (u, w') → logs w' = (w_audit w, w_events w ++ [change_event z n ty a src]).
Proof. by intros [= <- <-]. Qed.

Lemma audit_outcome_err e : (audit_outcome (Some e)).1 ≠ AuditEvent.OutcomeOK.
Proof. unfold audit_outcome. repeat case_match; done. Qed.

(** Every update attempt on a zone the caller may manage is audited, and
    published exactly when it happened.  A failure appends one audit record,
    never with outcome ok, and publishes nothing; a success appends an ok record
    and an "upserted" event for the set written, and, exactly when the name or
    the type changed, an ok record and a "deleted" event for the old one. *)
Theorem Update_logged subj id k i w r w' :
  Records.Update cfg lim subj id k i w = (r, w') →
  match (load cfg subj id Authz.ZonesManage w).1 with
  | Err e => r = Err e ∧ logs w' = logs w
  | Ok z =>
    match r with
    | Err e => (audit_outcome (Some e)).1 ≠ AuditEvent.OutcomeOK ∧
        logs w' = (w_audit w ++ [audit_event subj RecordUpsert z (RecordSets.IName i) (ToUpper (RecordSets.IType i)) (Some e)], w_events w)
    | Ok v => ∃ rr n t, v = toView rr ∧ key z k = Ok (n, t) ∧
        logs w' =
          let moved := negb (bool_decide ((n, t) = (Pdns.RName rr, Pdns.RType rr))) in
          (w_audit w ++ audit_event subj RecordUpsert z (Pdns.RName rr) (Pdns.RType rr) None
             :: (if moved then [audit_event subj RecordDelete z n t None] else []),
           w_events w ++ change_event z (Pdns.RName rr) (Pdns.RType rr) Events.ActionUpserted Events.SourceAPI
             :: (if moved then [change_event z n t Events.ActionDeleted Events.SourceAPI] else []))
    end
  end.
Proof.
  intros H. unfold Records.Update in H. run_bind H x w1 E1. simpl. apply load_logs in E1 as [= A1 B1].
  destruct x as [z|e]; [|injection H as <- <-; split; [done|]; unfold logs; congruence].
  run_bind H r0 w2 E2. pose proof E2 as [= A2 B2]%update_logs. destruct r0 as [[[rr n] t]|e].
  - run_bind H u1 w3 E3. apply audit_logs in E3 as [= A3 B3]. run_bind H u2 w4 E4. apply emit_logs in E4 as [= A4 B4].
    assert (Hkey : key z k = Ok (n, t)).
    { unfold update in E2. destruct (writable z); [|done]. destruct (key z k) as [[n' t']|]; [|done].
      run_bind E2 cur w5 E5. destruct cur; [|done]. destruct (update_changes _ _ _ _ _ _) as [[]|]; [|done].
      run_bind E2 u w6 E6. destruct u; [|done]. by injection E2 as _ -> ->. }
    assert (Hm : negb (bool_decide (n = Pdns.RName rr)) || negb (bool_decide (t = Pdns.RType rr))
                 = negb (bool_decide ((n, t) = (Pdns.RName rr, Pdns.RType rr)))).
    { rewrite <- negb_andb. f_equal. apply eq_true_iff_eq. rewrite andb_true_iff, !bool_decide_eq_true. split; [by intros [-> ->]|by intros [= -> ->]]. }
    rewrite Hm in H. cbv zeta. case_if in H as Ed.
    + run_bind H u3 w5 E5. apply audit_logs in E5 as [= A5 B5]. run_bind H u4 w6 E6. apply emit_logs in E6 as [= A6 B6].
      injection H as <- <-. exists rr, n, t. split_and!; try done. rewrite Ed. unfold logs. rewrite A6, B6, A5, B5, A4, B4, A3, B3, A2, B2, A1, B1.
      by rewrite <- !app_assoc.
    + injection H as <- <-. exists rr, n, t. split_and!; try done. rewrite Ed. unfold logs. by rewrite A4, B4, A3, B3, A2, B2, A1, B1.
  - run_bind H u1 w3 E3. apply audit_logs in E3. injection H as <- <-. split; [apply audit_outcome_err|]. rewrite E3. congruence.
Qed.
End Spec.

(** ** The order of a listing *)

Section Order.
Context {U : Unicode} {DNS : MiekgDNS} {LAWS : MiekgDNSLaws}.

(** The labels from the root down, and their order. *)
Definition root_labels (name : str) : list str := reverse (SplitByte dot (TrimSuffix (ToLower name) ".")).
Fixpoint labels_ltb (ls ms : list str) : bool :=
  match ls, ms with
  | [], _ :: _ => true
  | _, [] => false
  | l :: ls, m :: ms => if bool_decide (l = m) then labels_ltb ls ms else str_ltb l m
  end.

Lemma Join_ltb ls ms :
  ls ≠ [] → ms ≠ [] → Forall (Forall (λ c, 1 < code c)) ls → Forall (Forall (λ c, 1 < code c)) ms →
  str_ltb (Join ls [chr 1]) (Join ms [chr 1]) = labels_ltb ls ms.
Proof.
  assert (Hhead : ∀ (ws : list str) (c : ascii), head ([chr 1] ++ Join ws [chr 1]) = Some c → code c ≤ 1).
  { intros ws c [= <-]. by vm_compute. }
  assert (Hnil : ∀ c : ascii, head ([] : str) = Some c → code c ≤ 1) by done.
  revert ms. induction ls as [|l ls IH]; [done|]. intros [|m ms]; [done|]. intros _ _ [Hl Hls]%Forall_cons [Hm Hms]%Forall_cons.
  cbn [labels_ltb]. case_bool_decide as E.
  - subst m. destruct ls as [|l' ls], ms as [|m' ms]; try (rewrite (Join_cons l (l' :: ls)) by done); try (rewrite (Join_cons l (m' :: ms)) by done).
    + apply str_ltb_irrefl.
    + apply (str_ltb_longer l).
    + apply (str_ltb_shorter l).
    + rewrite !str_ltb_app. by apply IH.
  - destruct ls as [|l' ls], ms as [|m' ms]; try (rewrite (Join_cons l (l' :: ls)) by done); try (rewrite (Join_cons m (m' :: ms)) by done); [done|..].
    + rewrite <- (app_nil_r (Join [l] _)). apply (str_ltb_diff l m _ _ 1); eauto.
    + rewrite <- (app_nil_r (Join [m] _)). apply (str_ltb_diff l m _ _ 1); eauto.
    + apply (str_ltb_diff l m _ _ 1); eauto.
Qed.

Lemma TrimSuffix_sub (s p : str) c : c ∈ TrimSuffix s p → c ∈ s.
Proof. unfold TrimSuffix. case_match; [|done]. rewrite !list_elem_of_In. intros Hc. rewrite <- (take_drop (length s - length p) s).
  apply in_or_app. by left. Qed.

Lemma root_labels_bytes name :
  Forall (λ c, 1 < code c) (ToLower name) → Forall (Forall (λ c, 1 < code c)) (root_labels name).
Proof.
  rewrite !Forall_forall. unfold root_labels. intros H l Hl. apply (proj1 (elem_of_reverse _ _)) in Hl. apply Forall_forall. intros c Hc.
  apply H. eapply TrimSuffix_sub. eapply elem_of_SplitByte; [exact Hl|exact Hc].
Qed.

Lemma root_labels_nonnil name : root_labels name ≠ [].
Proof. unfold root_labels. intros H%(f_equal reverse). rewrite reverse_involutive in H. by apply SplitByte_nonnil in H. Qed.

(** The sort key of a listing is the DNS canonical order: comparing the
    keys of two names as Go strings compares the names label by label from the
    root, a missing label first, as long as no byte of a name is below the
    separator. *)
Theorem canonical_order a b :
  Forall (λ c, 1 < code c) (ToLower a) → Forall (λ c, 1 < code c) (ToLower b) →
  str_ltb (canonical a) (canonical b) = labels_ltb (root_labels a) (root_labels b).
Proof. intros Ha Hb. apply Join_ltb; auto using root_labels_nonnil, root_labels_bytes. Qed.

(** The apex leads a listing: its sets sort before the sets of every other
    owner name of the zone, whatever their types. *)
Theorem apex_first zone name z n rz rn :
  Validate.canonicalZone zone = Ok z → Validate.RecordName zone name = Ok n → n ≠ z →
  VwName rz = z → VwName rn = n → str_ltb (setTie rz) (setTie rn) = true.
Proof.
  intros Hz Hn Hne <- <-. apply Validate.RecordName_inv in Hn as (z' & Hz' & Hin & Ho & _).
  rewrite Hz in Hz'. injection Hz' as <-. apply Validate.owner_form_lower in Ho as [Ha Hl].
  unfold InZone in Hin. rewrite bool_decide_eq_false_2 in Hin by done. apply HasSuffix_spec in Hin as [k Hk].
  pose proof (Validate.canonicalZone_lower _ _ Hz) as Hlz. apply Validate.canonicalZone_form in Hz as (ls & _ & Hd & _).
  assert (Hc : canonical (VwName rn) = canonical (VwName rz) ++ [chr 1] ++ Join (reverse (SplitByte dot k)) [chr 1]).
  { unfold canonical. rewrite ToLower_ascii, Hl, Hlz by done. rewrite Hk, Hd. unfold Validate.dotted.
    change (lit ".") with [dot]. rewrite !app_assoc, !TrimSuffix_app, <- app_assoc. simpl app at 1.
    rewrite SplitByte_app_sep, reverse_app, <- app_assoc. apply Join_app; intros E%(f_equal reverse);
      rewrite reverse_involutive in E; by apply SplitByte_nonnil in E. }
  unfold setTie. rewrite Hc, <- app_assoc. apply str_ltb_app.
Qed.
End Order.

(** ** A concrete module *)

Module Concrete.
Import ZonesSpec.Concrete.
#[local] Existing Instance unicode_min.
#[local] Existing Instance miekg_plain.
#[local] Existing Instance miekg_plain_laws.
#[local] Existing Instance psl_tld.
#[local] Existing Instance Content.rr_plain.
#[local] Existing Instance no_templates.

Definition lim0 : RecordSets.Limits := RecordSets.DefaultLimits.
Definition www (ip : str) : RecordSets.RecordSetInput :=
  RecordSets.mkRecordSetInput "www" "a" 300 [RecordSets.mkRecordValue ip false] " web ".
Definition www_key : Key := mkKey "WWW" "a".
Definition mail : RecordSets.RecordSetInput :=
  RecordSets.mkRecordSetInput "mail" "aaaa" 300 [RecordSets.mkRecordValue "2001:db8::1" true] [].

(** Alice's zone with a record set. *)
Definition world2 := (Upsert cfg0 lim0 alice "id0" (www "192.0.2.1") world1).2.

Lemma world2_inv : zinv world2.
Proof. eapply (rstep_zinv cfg0 lim0 true "t1" world1); [apply world1_inv|by constructor]. Qed.

Lemma Upsert_spec_witness :
  ∃ v, (Upsert cfg0 lim0 alice "id0" (www "192.0.2.1") world1).1 = Ok v ∧
    wdb (Upsert cfg0 lim0 alice "id0" (www "192.0.2.1") world1).2 = wdb world1.
Proof.
  destruct (Upsert cfg0 lim0 alice "id0" (www "192.0.2.1") world1) as [r w'] eqn:E.
  assert (Hr : r = (Upsert cfg0 lim0 alice "id0" (www "192.0.2.1") world1).1) by (rewrite E; reflexivity).
  vm_compute in Hr. pose proof (Upsert_spec cfg0 lim0 alice "id0" (www "192.0.2.1") world1 r w' world1_inv E) as H.
  subst r. cbv beta iota in H. destruct H as (z & rr & pz & pz' & _ & _ & _ & _ & _ & H & _).
  eexists. split; [reflexivity|exact H].
Defined.

(** Bob's zone beside Alice's. *)
Definition world3 := (Create cfg0 bob (native "bob.org") world2).2.
Lemma world3_inv : zinv world3.
Proof. eapply (zstep_inv cfg0 "t2" world2); [by constructor|apply world2_inv]. Qed.
Lemma row1_world3 : MemStore.zones (wdb world3) !! ("id0" : str) = Some row1.
Proof. vm_compute. reflexivity. Qed.

Lemma records_isolation_witness :
  let w' := (Upsert cfg0 lim0 bob "id1" (www "192.0.2.7") world3).2 in
  is_ok (Upsert cfg0 lim0 bob "id1" (www "192.0.2.7") world3).1 = true ∧
  Pdns.zones (wsrv w') !! ("example.com." : str) = Pdns.zones (wsrv world3) !! ("example.com." : str).
Proof.
  split; [vm_compute; reflexivity|].
  apply (records_isolation cfg0 lim0 "t2" world3 _ "id0" row1);
    [apply world3_inv|by constructor|apply row1_world3|left; discriminate].
Defined.

Lemma Update_moves_witness :
  ∃ v, (Records.Update cfg0 lim0 alice "id0" www_key mail world2).1 = Ok v ∧
    wdb (Records.Update cfg0 lim0 alice "id0" www_key mail world2).2 = wdb world2.
Proof.
  destruct (Records.Update cfg0 lim0 alice "id0" www_key mail world2) as [r w'] eqn:E.
  assert (Hr : r = (Records.Update cfg0 lim0 alice "id0" www_key mail world2).1) by (rewrite E; reflexivity).
  vm_compute in Hr.
  pose proof (Update_moves cfg0 lim0 alice "id0" www_key mail world2 r w' world2_inv eq_refl eq_refl E) as H.
  subst r. cbv beta iota in H. destruct H as (z & rr & n & t & pz & pz' & _ & _ & _ & _ & _ & _ & H & _).
  eexists. split; [reflexivity|exact H].
Defined.

Lemma Update_logged_witness :
  ∃ v z rr n t, (Records.Update cfg0 lim0 alice "id0" www_key mail world2).1 = Ok v ∧ v = toView rr ∧
    (w_events (Records.Update cfg0 lim0 alice "id0" www_key mail world2).2
     = w_events world2 ++ change_event z (Pdns.RName rr) (Pdns.RType rr) Events.ActionUpserted Events.SourceAPI
         :: (if negb (bool_decide ((n, t) = (Pdns.RName rr, Pdns.RType rr)))
             then [change_event z n t Events.ActionDeleted Events.SourceAPI] else [])).
Proof.
  destruct (Records.Update cfg0 lim0 alice "id0" www_key mail world2) as [r w'] eqn:E.
  assert (Hr : r = (Records.Update cfg0 lim0 alice "id0" www_key mail world2).1) by (rewrite E; reflexivity).
  vm_compute in Hr. pose proof (Update_logged cfg0 lim0 alice "id0" www_key mail world2 r w' E) as H. subst r.
  destruct (load cfg0 alice "id0" Authz.ZonesManage world2) as [[z|] w1]; cbn [fst] in H; [|destruct H as [H _]; discriminate H].
  destruct H as (rr & n & t & Hv & _ & Hl). cbv zeta in Hl. apply (f_equal snd) in Hl. cbn [logs snd] in Hl.
  eexists _, z, rr, n, t. split; [reflexivity|]. split; [exact Hv|exact Hl].
Defined.

Lemma Remove_spec_witness :
  (Remove alice row1 www_key Events.SourceAPI world2).1 = Ok () ∧
  wdb (Remove alice row1 www_key Events.SourceAPI world2).2 = wdb world2.
Proof.
  destruct (Remove alice row1 www_key Events.SourceAPI world2) as [r w'] eqn:E.
  assert (Hr : r = (Remove alice row1 www_key Events.SourceAPI world2).1) by (rewrite E; reflexivity).
  vm_compute in Hr. pose proof (Remove_spec alice row1 www_key Events.SourceAPI world2 r w' (zi_ok _ world2_inv) E) as H.
  subst r. cbv beta iota in H. destruct H as (n & t & pz & pz' & _ & H & _). split; [reflexivity|exact H].
Defined.

(** Boolean forms of the invariant, for concrete servers. *)
Definition canon_keyb (k : str * str) : bool :=
  isASCII k.1 && bool_decide (map lower_byte k.1 = k.1) && isASCII k.2 && bool_decide (map upper_byte k.2 = k.2).
Definition sets_okb (sets : list Pdns.RRset) : bool :=
  forallb (λ s, canon_keyb (Pdns.rkey s)) sets &&
  forallb (λ s, forallb (λ s', implb (EqualFold (Pdns.RName s) (Pdns.RName s'))
    (Bool.eqb (RecordSets.is_cname s) (RecordSets.is_cname s'))) sets) sets.
Lemma sets_okb_spec sets : sets_okb sets = true → sets_ok sets.
Proof.
  unfold sets_okb. intros [Hc Ha]%andb_true_iff. rewrite forallb_Forall in Hc, Ha. split.
  - eapply Forall_impl; [exact Hc|]. intros s Hs. unfold canon_keyb in Hs. b2p. by repeat split.
  - intros s s' Hs Hs' He. rewrite Forall_forall in Ha. specialize (Ha s Hs). rewrite forallb_Forall, Forall_forall in Ha.
    specialize (Ha s' Hs'). rewrite He in Ha. by apply eqb_prop.
Qed.
Lemma world1_sets : map_Forall (λ _ pz, sets_ok (Pdns.PRRsets pz)) (Pdns.zones (wsrv world1)).
Proof.
  intros k pz Hk. apply sets_okb_spec.
  assert (H : any_value (λ pz, negb (sets_okb (Pdns.PRRsets pz))) (Pdns.zones (wsrv world1)) = false) by (vm_compute; reflexivity).
  rewrite any_value_false in H. apply negb_false_iff. by apply (H k).
Qed.

Lemma cname_exclusive_witness :
  map_Forall (λ _ pz, sets_ok (Pdns.PRRsets pz)) (Pdns.zones (wsrv world2)) ∧
  bool_decide (Pdns.zones (wsrv world2) !! ("example.com." : str) = Pdns.zones (wsrv world1) !! ("example.com." : str)) = false.
Proof.
  split; [|vm_compute; reflexivity].
  apply (cname_exclusive cfg0 lim0 world1 world2); [apply world1_inv|apply world1_sets|].
  apply rtc_once. exists "t1". by constructor.
Defined.

Lemma Apply_Lookup_witness :
  let r := Apply lim0 alice row1 (www "192.0.2.1") Events.SourceAPI world1 in
  ∃ v, r.1 = Ok v ∧
    ((Lookup alice row1 (mkKey (VwName v) (VwType v)) r.2).1 = Ok v
     ∨ ∃ e, (Lookup alice row1 (mkKey (VwName v) (VwType v)) r.2).1 = Err e ∧ only_kinds call_kinds e).
Proof.
  intros r. destruct r as [x w1] eqn:E. unfold r in E.
  assert (Hr : x = (Apply lim0 alice row1 (www "192.0.2.1") Events.SourceAPI world1).1) by (rewrite E; reflexivity).
  vm_compute in Hr. destruct x as [v|]; [|discriminate Hr]. exists v. split; [reflexivity|]. cbn [snd].
  destruct (Lookup alice row1 (mkKey (VwName v) (VwType v)) w1) as [y w2] eqn:E2.
  apply (Apply_Lookup lim0 alice row1 (www "192.0.2.1") Events.SourceAPI world1 v w1 y w2);
    [apply (zi_ok _ world1_inv)|reflexivity| |exact E|exact E2].
  intros pz Hz. apply (world1_sets _ _ Hz).
Defined.

#[local] Existing Instance listquery_all.
Definition all_page : Request := tt.
Lemma List_faithful_witness :
  ∃ page w', List_ cfg0 alice "id0" (mkFilter "a" "WWW") all_page world2 = (Ok (page, 1, all_page), w') ∧ same world2 w'.
Proof.
  destruct (List_ cfg0 alice "id0" (mkFilter "a" "WWW") all_page world2) as [r w'] eqn:E.
  assert (Hr : r = (List_ cfg0 alice "id0" (mkFilter "a" "WWW") all_page world2).1) by (rewrite E; reflexivity). vm_compute in Hr.
  destruct r as [[[page total] req]|]; [|discriminate Hr].
  assert (total = 1 ∧ req = all_page) as [-> ->] by (split; [congruence|destruct req; reflexivity]).
  exists page, w'. split; [reflexivity|].
  eapply List_faithful; [apply listquery_all_laws|apply world2_inv|exact E].
Defined.

Lemma canonical_order_witness :
  str_ltb (canonical "b.example.com.") (canonical "A.b.example.com.") = true ∧
  labels_ltb (root_labels "b.example.com.") (root_labels "A.b.example.com.") = true.
Proof.
  assert (H : ∀ s, forallb (λ c, 1 <? code c) (ToLower s) = true → Forall (λ c, 1 < code c) (ToLower s)).
  { intros s Hs. rewrite forallb_Forall in Hs. eapply Forall_impl; [exact Hs|]. intros c Hc. by apply Z.ltb_lt. }
  split; [|vm_compute; reflexivity].
  rewrite (canonical_order "b.example.com." "A.b.example.com."); [vm_compute; reflexivity|apply H; vm_compute; reflexivity..].
Defined.

Lemma apex_first_witness :
  str_ltb (setTie (mkRecordSet "example.com." "TXT" 0 [] [] false)) (setTie (mkRecordSet "a.example.com." "A" 0 [] [] false)) = true.
Proof.
  apply (apex_first "Example.com" "a" "example.com." "a.example.com."); [vm_compute; reflexivity..|discriminate|reflexivity|reflexivity].
Defined.
End Concrete.
End RecordsSpec.
