(* ===== verification/Templates.v ===== *)
(** * Zone templates ([internal/templates])

    [Templates] expands the records of a template for a zone ([expand.go]) and
    manages a tenant's templates ([templates.go]).  The service implements the
    [TemplateExpander] interface the zone lifecycle is proved against. *)
From Stdlib Require Import Ascii.
From S2P Require Import Prelude GoStrings GoError Store Names Content Masters Authz MemStore Pdns RecordSets Recursor World Zones.
Local Open Scope Z_scope.

Module Templates.
Import Store RecordSets.

Definition Placeholder : str := "[ZONE]".
Definition placeholderZone : str := "placeholder.example.".
Definition MaxPriority : Z := 65535.
Definition MaxName : Z := 100.
Definition MaxDescription : Z := 1000.

(** The number of fields of a full MX or SRV value. *)
Definition priorityFields (t : str) : option nat :=
  if bool_decide (t = "MX") then Some 2%nat else if bool_decide (t = "SRV") then Some 4%nat else None.

Definition recordErr (i : Z) (field msg : str) : error := RecordError ("records[" ++ Itoa i ++ "]." ++ field) msg.

Record group := mkGroup { first : Z; gin : RecordSetInput }.
Record Input := mkInput { InName : str; InDescription : str; InRecords : list TemplateRecord }.

Section Expand.
Context {U : Unicode} {DNS : MiekgDNS} {PSL : PublicSuffixList} {RRP : Content.RRParser}.

Definition withPriority (i : Z) (r : TemplateRecord) (typ content : str) : res str :=
  if (TPriority r <? 0) || (MaxPriority <? TPriority r)
  then Err (recordErr i "priority" ("priority must be within [0, " ++ Itoa MaxPriority ++ "]"))
  else match priorityFields typ with
  | None => if negb (TPriority r =? 0) then Err (recordErr i "priority" "priority applies to MX and SRV records only")
            else Ok content
  | Some full =>
    if bool_decide (length (Fields content) = (full - 1)%nat) then Ok (Itoa (TPriority r) ++ " " ++ content)
    else if bool_decide (length (Fields content) = full) then
      if negb (TPriority r =? 0) then Err (recordErr i "priority" "the value already starts with a priority") else Ok content
    else Ok content
  end.

(** A validation error under the index of its record. *)
Definition indexed (i : Z) (e : error) : error :=
  match asRecordError e with
  | Some (field, msg) => recordErr i (if HasPrefix field "values[" then "content" : str else field) msg
  | None => if Is e ErrName then recordErr i "name" (TrimPrefix (Error e) (sentinel_text ErrName ++ ": ")) else e
  end.
Definition index_err {A} (i : Z) (r : res A) : res A := match r with Err e => Err (indexed i e) | Ok a => Ok a end.

(** One record, expanded and validated alone: its set and its content. *)
Definition expand_one (l : Limits) (z : str) (i : Z) (r : TemplateRecord) : res (Pdns.RRset * str) :=
  let bare := TrimSuffix z "." in
  let typ := ToUpper (TrimSpace (TType r)) in
  let name := TrimSpace (ReplaceAll (TName r) Placeholder bare) in
  let name := if bool_decide (name = []) then "@" : str else name in
  content ← withPriority i r typ (TrimSpace (ReplaceAll (TContent r) Placeholder bare));
  rr ← index_err i (RecordSets.RecordSet l z (mkRecordSetInput name typ (TTTL r) [mkRecordValue content false] []) []);
  Ok (rr, content).

Definition group_key (rr : Pdns.RRset) : str := Pdns.RName rr ++ " " ++ Pdns.RType rr.

(** The records merged by owner and type, and the keys in order of appearance. *)
Fixpoint group_records (l : Limits) (z : str) (i : Z) (recs : list TemplateRecord) (groups : gmap str group) (order : list str) :
    res (gmap str group * list str) :=
  match recs with
  | [] => Ok (groups, order)
  | r :: recs =>
    '(rr, content) ← expand_one l z i r;
    let key := group_key rr in
    let '(g, order) := match groups !! key with
                       | Some g => (g, order)
                       | None => (mkGroup i (mkRecordSetInput (Pdns.RName rr) (Pdns.RType rr) (TTTL r) [] []), order ++ [key])
                       end in
    let g := mkGroup (first g) (mkRecordSetInput (IName (gin g)) (IType (gin g)) (ITTL (gin g))
               (IValues (gin g) ++ [mkRecordValue content false]) (IComment (gin g))) in
    group_records l z (i + 1) recs (<[key := g]> groups) order
  end.

(** The other groups, as sets without records. *)
Definition stub (g : group) : Pdns.RRset := Pdns.mkRRset (IName (gin g)) (IType (gin g)) 0 [] [] None.
Definition others_of (groups : gmap str group) (order : list str) (key : str) : list Pdns.RRset :=
  omap (λ k, if bool_decide (k = key) then None else stub <$> groups !! k) order.

Fixpoint expand_groups (l : Limits) (z : str) (groups : gmap str group) (order keys : list str) : res (list Pdns.RRset) :=
  match keys with
  | [] => Ok []
  | key :: keys =>
    match groups !! key with
    | None => expand_groups l z groups order keys
    | Some g =>
      rr ← index_err (first g) (RecordSets.RecordSet l z (gin g) (others_of groups order key));
      rest ← expand_groups l z groups order keys;
      Ok (Pdns.set_comments rr None :: rest)
    end
  end.

Definition ExpandRecords (l : Limits) (zone : str) (recs : list TemplateRecord) : res (list Pdns.RRset) :=
  z ← Validate.ZoneName zone;
  if MaxTemplateRecords <? Z.of_nat (length recs)
  then Err (Wrapf (New TemplatesErrInvalid) ("at most " ++ Itoa MaxTemplateRecords ++ " records"))
  else
    '(groups, order) ← group_records l z 0 recs ∅ [];
    let order := sort_by str_ltb order in
    expand_groups l z groups order order.

Definition hasControl (s : str) : bool := existsb IsControl (runes s).

(** The stored form of an input; the name is also used when it is refused. *)
Definition normalize (l : Limits) (i : Input) : Input * option error :=
  let name := TrimSpace (InName i) in
  let desc := TrimSpace (InDescription i) in
  if bool_decide (name = []) || (MaxName <? RuneCountInString name) || hasControl name
  then (mkInput name desc [], Some (Wrapf (New TemplatesErrInvalid) "the name must be 1–100 characters without control characters"))
  else if MaxDescription <? RuneCountInString desc
  then (mkInput name desc [], Some (Wrapf (New TemplatesErrInvalid) ("the description is longer than " ++ Itoa MaxDescription ++ " characters")))
  else
    let recs := map (λ r, mkTemplateRecord (TrimSpace (TName r)) (ToUpper (TrimSpace (TType r))) (TTTL r)
                            (TrimSpace (TContent r)) (TPriority r)) (InRecords i) in
    (mkInput name desc recs, err_of (ExpandRecords l placeholderZone recs)).

Definition mapStore (e : error) : error :=
  if Is e RepoErrNotFound then New ErrTemplateNotFound else if Is e RepoErrConflict then New TemplatesErrDuplicate else e.

Definition audit_outcome (e : option error) : str * str :=
  match e with
  | None => (AuditEvent.OutcomeOK, [])
  | Some e =>
    if Is e ErrTemplateNotFound then (AuditEvent.OutcomeRefused, "template_not_found" : str)
    else if Is e TemplatesErrDuplicate then (AuditEvent.OutcomeRefused, "conflict" : str)
    else match asRecordError e with
    | Some _ => (AuditEvent.OutcomeRefused, "invalid_record" : str)
    | None => if Is e TemplatesErrInvalid || Is e ErrName then (AuditEvent.OutcomeRefused, "bad_request" : str)
              else (AuditEvent.OutcomeError, "error" : str)
    end
  end.
End Expand.

(** ** The service *)

Section Service.
Context {U : Unicode} {DNS : MiekgDNS} {PSL : PublicSuffixList} {RRP : Content.RRParser}.
Context {S P R : Type} {RS : MemStore.RepoStore S}.
Context (checker : option Authz.Checker) (lim : Limits) (newID : nat → str).
Abbreviation W := (World S P R).

Definition guard (subj : Authz.Subjects) (perm : str) : res unit :=
  if bool_decide (Authz.STenantID subj = []) then Err (Authz.forbidden "tenant required")
  else match checker with
  | None => if Authz.IsHuman subj then Ok () else Authz.Require_ None subj perm
  | c => Authz.Require_ c subj perm
  end.

Definition audit (subj : Authz.Subjects) (t id name : str) (e : option error) : M W unit :=
  let '(outcome, reason) := audit_outcome e in
  record_audit (AuditEvent.mkEvent (Authz.STenantID subj) t (AuditEvent.ActorOf (Authz.ActorKind subj)) (Authz.ActorID subj)
    AuditEvent.SubjectTemplate id outcome reason [("name" : str, name)]).

Definition List_ {LQ : ListQuery} (subj : Authz.Subjects) (req : Request) : M W (res (list Template * Z * Request)) :=
  match guard subj Authz.ZonesRead with
  | Err e => mret (Err e)
  | Ok _ => on_store (MemStore.repo_ListTemplates (Authz.STenantID subj) req)
  end.

Definition Get (subj : Authz.Subjects) (id : str) : M W (res Template) :=
  match guard subj Authz.ZonesRead with
  | Err e => mret (Err e)
  | Ok _ =>
    r ← on_store (MemStore.repo_GetTemplate (Authz.STenantID subj) id);
    mret match r with Ok t => Ok t | Err e => Err (mapStore e) end
  end.

Definition Create (subj : Authz.Subjects) (i : Input) : M W (res Template) :=
  match guard subj Authz.TemplatesManage with
  | Err e => mret (Err e)
  | Ok _ =>
    let '(n, e) := normalize lim i in
    match e with
    | Some e => _ ← audit subj "template.create" [] (InName n) (Some e); mret (Err e)
    | None =>
      t0 ← now;
      id ← mint newID;
      let t := mkTemplate id (Authz.STenantID subj) (InName n) (InDescription n) (InRecords n) t0 t0 in
      r ← on_store (MemStore.repo_CreateTemplate t);
      match r with
      | Err e => let e := mapStore e in _ ← audit subj "template.create" id (InName n) (Some e); mret (Err e)
      | Ok _ => _ ← audit subj "template.create" id (InName n) None; mret (Ok t)
      end
    end
  end.

Definition Update (subj : Authz.Subjects) (id : str) (i : Input) : M W (res Template) :=
  match guard subj Authz.TemplatesManage with
  | Err e => mret (Err e)
  | Ok _ =>
    let '(n, e) := normalize lim i in
    match e with
    | Some e => _ ← audit subj "template.update" id (InName n) (Some e); mret (Err e)
    | None =>
      t0 ← now;
      r ← on_store (MemStore.repo_UpdateTemplate
            (mkTemplate id (Authz.STenantID subj) (InName n) (InDescription n) (InRecords n) 0 t0));
      match r with
      | Err e => let e := mapStore e in _ ← audit subj "template.update" id (InName n) (Some e); mret (Err e)
      | Ok t => _ ← audit subj "template.update" id (TplName t) None; mret (Ok t)
      end
    end
  end.

Definition Delete (subj : Authz.Subjects) (id : str) : M W (res unit) :=
  match guard subj Authz.TemplatesManage with
  | Err e => mret (Err e)
  | Ok _ =>
    r ← on_store (MemStore.repo_DeleteTemplate (Authz.STenantID subj) id);
    match r with
    | Err e => let e := mapStore e in _ ← audit subj "template.delete" id [] (Some e); mret (Err e)
    | Ok _ => _ ← audit subj "template.delete" id [] None; mret (Ok ())
    end
  end.

(** The template of the tenant, expanded for the zone. *)
Definition expand (tenant id zone : str) (s : S) : res (list Pdns.RRset) * S :=
  let '(r, s) := MemStore.repo_GetTemplate tenant id s in
  (match r with Ok t => ExpandRecords lim zone (TplRecords t) | Err e => Err (mapStore e) end, s).

Lemma expand_reads t i z s : MemStore.repo_db (expand t i z s).2 = MemStore.repo_db s.
Proof.
  unfold expand. destruct (MemStore.repo_GetTemplate t i s) as [r s'] eqn:E.
  destruct (MemStore.repo_GetTemplate_ok t i s r s' I E) as [_ [(e & _ & _ & H)|H]]; simpl; [done|].
  by injection H as _ ->.
Qed.
End Service.

(** The service implements what the zone lifecycle needs. *)
Definition template_expander {U : Unicode} {DNS : MiekgDNS} {PSL : PublicSuffixList} {RRP : Content.RRParser}
    {S : Type} {RS : MemStore.RepoStore S} (lim : Limits) : TemplateExpander S :=
  {| Expand := expand lim; Expand_reads := expand_reads lim |}.

(** ** What an expansion is *)

Section Facts.
Context {U : Unicode} {DNS : MiekgDNS} {PSL : PublicSuffixList} {LAWS : MiekgDNSLaws} {RRP : Content.RRParser}.
Context (l : Limits) (z : str).

Lemma index_err_Ok {A} i (r : res A) a : index_err i r = Ok a → r = Ok a.
Proof. by destruct r. Qed.

(** The expanded records of a prefix of the template. *)
Abbreviation ones := (list (Pdns.RRset * str)).
Definition with_key (k : str) (os : ones) : ones := List.filter (λ o, bool_decide (group_key o.1 = k)) os.

(** A group holds the contents of the records with its key, in order. *)
Record group_of (k : str) (g : group) (os : ones) : Prop := {
  go_key : IName (gin g) ++ " " ++ IType (gin g) = k;
  go_values : IValues (gin g) = map (λ o, mkRecordValue o.2 false) (with_key k os);
  go_first : ∃ o, head (with_key k os) = Some o ∧ Pdns.rkey o.1 = (IName (gin g), IType (gin g)) ∧
               Pdns.RTTL o.1 = Pdns.uint32 (ITTL (gin g));
  go_comment : IComment (gin g) = []
}.
Record grouping (groups : gmap str group) (order : list str) (os : ones) : Prop := {
  gr_nodup : NoDup order;
  gr_dom k : k ∈ order ↔ is_Some (groups !! k);
  gr_group k g : groups !! k = Some g → group_of k g os;
  gr_all o : o ∈ os → group_key o.1 ∈ order
}.

Lemma expand_one_ttl i r rr c : expand_one l z i r = Ok (rr, c) → Pdns.RTTL rr = Pdns.uint32 (TTTL r).
Proof.
  intros (x & _ & H)%bind_Ok. apply bind_Ok in H as (rr' & Hr%index_err_Ok & [= <- <-]).
  by apply RecordSet_inv in Hr as (? & _ & _ & _ & _ & ? & _).
Qed.

Lemma with_key_snoc k os o :
  with_key k (os ++ [o]) = with_key k os ++ (if bool_decide (group_key o.1 = k) then [o] else []).
Proof. unfold with_key. rewrite List.filter_app. simpl. by case_bool_decide. Qed.

Lemma with_key_nil k os : (∀ o, o ∈ os → group_key o.1 ≠ k) → with_key k os = [].
Proof.
  unfold with_key. induction os as [|o os IH]; simpl; [done|]. intros H. rewrite bool_decide_eq_false_2 by (apply H; set_solver).
  apply IH. set_solver.
Qed.

Lemma group_of_other k g os o : group_key o.1 ≠ k → group_of k g os → group_of k g (os ++ [o]).
Proof.
  intros Hne [H1 H2 H3 H4]. assert (E : with_key k (os ++ [o]) = with_key k os)
    by (rewrite with_key_snoc, bool_decide_eq_false_2, app_nil_r; done).
  constructor; rewrite ?E; done.
Qed.

(** One turn of the loop. *)
Lemma group_step groups order os i r rr c :
  grouping groups order os → expand_one l z i r = Ok (rr, c) →
  let '(g, order') := match groups !! group_key rr with
                      | Some g => (g, order)
                      | None => (mkGroup i (mkRecordSetInput (Pdns.RName rr) (Pdns.RType rr) (TTTL r) [] []), order ++ [group_key rr])
                      end in
  grouping (<[group_key rr := mkGroup (first g) (mkRecordSetInput (IName (gin g)) (IType (gin g)) (ITTL (gin g))
             (IValues (gin g) ++ [mkRecordValue c false]) (IComment (gin g)))]> groups) order' (os ++ [(rr, c)]).
Proof.
  intros [Hnd Hdom Hg Hall] Hone. pose proof (expand_one_ttl _ _ _ _ Hone) as Httl.
  assert (Hself : with_key (group_key rr) (os ++ [(rr, c)]) = with_key (group_key rr) os ++ [(rr, c)])
    by (rewrite with_key_snoc; simpl; by rewrite bool_decide_eq_true_2).
  destruct (groups !! group_key rr) as [g|] eqn:E.
  - destruct (Hg _ _ E) as [H1 H2 (o & Ho & Hk & Ht) H4]. constructor; [done| | |].
    + intros k. rewrite lookup_insert_is_Some'. split; [intros ?%Hdom; by right|]. intros [<-|?]; apply Hdom; [by exists g|done].
    + intros k g' [[<- <-]|[Hne Hk']]%lookup_insert_Some; [|by apply group_of_other; [|apply Hg]].
      constructor; simpl; try done; rewrite Hself; [by rewrite H2, map_app|].
      exists o. split; [|done]. by destruct (with_key _ os).
    + intros o' [Ho'| ->%list_elem_of_singleton]%elem_of_app; [auto|]. apply Hdom. by exists g.
  - assert (Hnew : group_key rr ∉ order) by (intros [g Hg']%Hdom; congruence).
    assert (Hnil : with_key (group_key rr) os = []) by (apply with_key_nil; intros o Ho%Hall E'; by rewrite E' in Ho).
    constructor.
    + apply NoDup_app. split_and!; [done| |apply NoDup_singleton]. intros k Hk ->%list_elem_of_singleton. done.
    + intros k. rewrite lookup_insert_is_Some', elem_of_app, list_elem_of_singleton, Hdom. naive_solver.
    + intros k g' [[<- <-]|[Hne Hk']]%lookup_insert_Some; [|by apply group_of_other; [|apply Hg]].
      constructor; simpl; try done; rewrite Hself, Hnil; [done|]. by exists (rr, c).
    + intros o' [Ho'| ->%list_elem_of_singleton]%elem_of_app; set_solver.
Qed.

Lemma group_records_Ok i recs groups order os groups' order' :
  grouping groups order os → group_records l z i recs groups order = Ok (groups', order') →
  ∃ new, length new = length recs ∧ grouping groups' order' (os ++ new) ∧
    ∀ j r o, recs !! j = Some r → new !! j = Some o → expand_one l z (i + Z.of_nat j) r = Ok o.
Proof.
  revert i groups order os. induction recs as [|r recs IH]; intros i groups order os Hg; cbn [group_records].
  { intros [= <- <-]. exists []. rewrite app_nil_r. done. }
  intros ([rr c] & Hone & H)%bind_Ok. pose proof (group_step _ _ _ _ _ _ _ Hg Hone) as Hs.
  destruct (match groups !! group_key rr with Some g => _ | None => _ end) as [g ord].
  apply (IH _ _ _ _ Hs) in H as (new & Hlen & Hg' & Hn). exists ((rr, c) :: new). simpl.
  split; [lia|]. split; [by rewrite <- app_assoc in Hg'|]. intros [|j] r' o; simpl.
  - intros [= <-] [= <-]. by rewrite Z.add_0_r.
  - intros Hr Ho. rewrite <- (Hn j r' o Hr Ho). f_equal. lia.
Qed.

Lemma expand_groups_Ok groups order keys out :
  (∀ k, k ∈ keys → is_Some (groups !! k)) → expand_groups l z groups order keys = Ok out →
  Forall2 (λ k rr, ∃ g rr', groups !! k = Some g ∧
    RecordSets.RecordSet l z (gin g) (others_of groups order k) = Ok rr' ∧ rr = Pdns.set_comments rr' None) keys out.
Proof.
  revert out. induction keys as [|k keys IH]; intros out Hk; cbn [expand_groups]; [by intros [= <-]|].
  destruct (Hk k ltac:(by left)) as [g Hg]. rewrite Hg. intros (rr & Hr%index_err_Ok & H)%bind_Ok.
  apply bind_Ok in H as (rest & Hrest & [= <-]). constructor; [by exists g, rr|]. apply IH; [|done]. intros k' ?. apply Hk. by right.
Qed.

Abbreviation space := (" "%char).
Lemma key_split (n n' t t' : str) : space ∉ n → space ∉ n' → n ++ " " ++ t = n' ++ " " ++ t' → n = n' ∧ t = t'.
Proof.
  intros Hn Hn' H. assert (n = n') as <-.
  { apply (f_equal (SplitByte space)) in H. change (lit " " ++ t) with (space :: t) in H.
    change (lit " " ++ t') with (space :: t') in H. rewrite !SplitByte_app_sep in H.
    rewrite !(SplitByte_nosep _ n), !(SplitByte_nosep _ n') in H by done. by injection H. }
  split; [done|]. by apply app_inv_head, app_inv_head in H.
Qed.

Lemma owner_no_space n : Validate.owner_form n → space ∉ n.
Proof. intros Ho Hs. by destruct (Validate.owner_form_bytes n space Ho Hs). Qed.

(** An expanded record's set is canonical. *)
Lemma expand_one_canon i r rr c :
  Validate.canonicalZone z = Ok z → isASCII (TType r) = true → expand_one l z i r = Ok (rr, c) →
  Validate.RecordName z (Pdns.RName rr) = Ok (Pdns.RName rr) ∧ Validate.owner_form (Pdns.RName rr) ∧
  Pdns.RType rr ∈ Content.EditableTypes.
Proof.
  intros Hz Ha (x & _ & H)%bind_Ok. apply bind_Ok in H as (rr' & Hr%index_err_Ok & [= <- <-]).
  apply RecordSet_inv in Hr as (zc & Hzc & Ht & Hn & _). rewrite Hz in Hzc. injection Hzc as <-.
  apply Validate.RecordName_inv in Hn as (zc & Hzc & _ & Ho & Hn). rewrite Hz in Hzc. injection Hzc as <-.
  split; [done|]. split; [done|]. apply editableType_table in Ht; [done|]. simpl.
  rewrite ToUpper_ascii by (by apply TrimSpace_ascii). by apply upper_byte_ascii, TrimSpace_ascii.
Qed.

(** The table's types are fixed by the normalisation. *)
Lemma editable_fixed s t : s ∈ Content.EditableTypes → Content.editableType s = Ok t → t = s ∧ isASCII s = true.
Proof.
  intros Hs (-> & _)%editableType_Ok.
  assert (H : forallb (λ s, isASCII s && bool_decide (ToUpper (TrimSpace s) = s)) Content.EditableTypes = true) by (vm_compute; reflexivity).
  rewrite forallb_Forall, Forall_forall in H. apply H in Hs. by b2p.
Qed.

(** A group's set has the key of its records, and their contents. *)
Lemma group_set k g os i ex rr :
  Validate.canonicalZone z = Ok z → group_of k g os →
  (∀ o, o ∈ os → ∃ j r, isASCII (TType r) = true ∧ expand_one l z j r = Ok o) →
  RecordSets.RecordSet l z (gin g) ex = Ok rr → i = gin g →
  Pdns.rkey rr = (IName i, IType i) ∧ group_key rr = k ∧ isASCII (IType i) = true ∧ Validate.owner_form (Pdns.RName rr) ∧
  (∃ o, head (with_key k os) = Some o ∧ Pdns.RTTL o.1 = Pdns.RTTL rr) ∧
  Forall2 (λ o rec, Content.content (Pdns.RType rr) z o.2 = Ok (Pdns.RecContent rec) ∧ Pdns.RecDisabled rec = false)
    (with_key k os) (Pdns.RRecords rr).
Proof.
  intros Hz [Hk Hv (o & Ho & Hok & Httl) _] Hos Hr ->.
  assert (Hin : o ∈ os).
  { assert (o ∈ with_key k os) as Hin by (destruct (with_key k os); [done|]; injection Ho as ->; by left).
    apply list_elem_of_In, filter_In in Hin as [Hin _]. by apply list_elem_of_In. }
  destruct (Hos o Hin) as (j & r & Ha & Hone). destruct o as [o c].
  apply (expand_one_canon _ _ _ _ Hz Ha) in Hone as (Hn & Hof & Hty). injection Hok as Hon Hot. simpl in *.
  apply RecordSet_inv in Hr as (zc & Hzc & Ht & Hrn & _ & Hrt & _ & _ & Hrv & _). rewrite Hz in Hzc. injection Hzc as <-.
  rewrite <- Hon, Hn in Hrn. injection Hrn as Hrn. rewrite <- Hot in Ht. apply editable_fixed in Ht as [Ht Hta]; [|done].
  rewrite Ht in Hrv |- *. rewrite <- Hrn. unfold group_key. rewrite Ht, <- Hrn, Hon, Hot.
  unfold Pdns.rkey. rewrite Ht, <- Hrn, Hon, Hot. split_and!; try done; [by rewrite <- Hot|by rewrite <- Hon| |].
  - exists (o, c). split; [done|]. simpl. by rewrite Hrt.
  - apply values_Ok in Hrv as [Hrv _]. rewrite Hv in Hrv. apply Forall2_fmap_l in Hrv.
    eapply Forall2_impl; [exact Hrv|]. intros x rec. simpl. by rewrite Hot.
Qed.

Lemma grouping_empty : grouping ∅ [] [].
Proof.
  constructor; [constructor| | |].
  - intros k. rewrite lookup_empty. split; [by intros ?%elem_of_nil|by intros [? ?]].
  - intros k g. by rewrite lookup_empty.
  - by intros o ?%elem_of_nil.
Qed.

(** What the expansion of a template is made of. *)
Record expansion (recs : list TemplateRecord) (out : list Pdns.RRset) (os : ones) (groups : gmap str group) (order : list str) : Prop := {
  ex_len : length os = length recs;
  ex_one j r o : recs !! j = Some r → os !! j = Some o → expand_one l z (Z.of_nat j) r = Ok o;
  ex_group : grouping groups order os;
  ex_sets : Forall2 (λ k rr, ∃ g rr', groups !! k = Some g ∧
      RecordSets.RecordSet l z (gin g) (others_of groups (sort_by str_ltb order) k) = Ok rr' ∧ rr = Pdns.set_comments rr' None)
      (sort_by str_ltb order) out
}.

Lemma expansion_one recs out os groups order o :
  expansion recs out os groups order → Forall (λ r, isASCII (TType r) = true) recs → o ∈ os →
  ∃ j r, isASCII (TType r) = true ∧ expand_one l z j r = Ok o.
Proof.
  intros [Hlen Hone _ _] Ha [j Hj]%list_elem_of_lookup. pose proof (lookup_lt_Some _ _ _ Hj) as Hlt. rewrite Hlen in Hlt.
  apply lookup_lt_is_Some in Hlt as [r Hr]. exists (Z.of_nat j), r. split; [|by apply Hone].
  rewrite Forall_lookup in Ha. by apply (Ha j).
Qed.

Context (Hz : Validate.canonicalZone z = Ok z).

(** Each set of an expansion, by its key. *)
Lemma expansion_set recs out os groups order rr :
  expansion recs out os groups order → Forall (λ r, isASCII (TType r) = true) recs → rr ∈ out →
  ∃ g rr', groups !! group_key rr = Some g ∧ rr = Pdns.set_comments rr' None ∧
    RecordSets.RecordSet l z (gin g) (others_of groups (sort_by str_ltb order) (group_key rr)) = Ok rr' ∧
    Pdns.rkey rr = (IName (gin g), IType (gin g)) ∧ isASCII (IType (gin g)) = true ∧ Validate.owner_form (Pdns.RName rr) ∧
    (∃ o, head (with_key (group_key rr) os) = Some o ∧ Pdns.RTTL o.1 = Pdns.RTTL rr) ∧
    Forall2 (λ o rec, Content.content (Pdns.RType rr) z o.2 = Ok (Pdns.RecContent rec) ∧ Pdns.RecDisabled rec = false)
      (with_key (group_key rr) os) (Pdns.RRecords rr).
Proof.
  intros He Ha [j Hj]%list_elem_of_lookup. pose proof (ex_sets _ _ _ _ _ He) as Hs.
  destruct (Forall2_lookup_r _ _ _ _ _ Hs Hj) as (k & Hk & g & rr' & Hg & Hr & ->).
  pose proof (group_set k g os (gin g) (others_of groups (sort_by str_ltb order) k) rr' Hz (gr_group _ _ _ (ex_group _ _ _ _ _ He) k g Hg)) as H.
  destruct H as (H1 & H2 & H3 & H4 & H5 & H6); [intros o; by eapply expansion_one|done|done|].
  exists g, rr'. change (group_key (Pdns.set_comments rr' None)) with (group_key rr'). rewrite H2. done.
Qed.

Lemma expansion_keys recs out os groups order :
  expansion recs out os groups order → Forall (λ r, isASCII (TType r) = true) recs →
  map group_key out = sort_by str_ltb order.
Proof.
  intros He Ha. pose proof (ex_sets _ _ _ _ _ He) as Hs. symmetry.
  assert (H : Forall2 (λ k rr, k = group_key rr) (sort_by str_ltb order) out).
  { apply Forall2_same_length_lookup. split; [by eapply Forall2_length|]. intros i k rr Hk Hrr.
    destruct (Forall2_lookup_l _ _ _ _ _ Hs Hk) as (rr2 & Hrr2 & g & rr' & Hg & Hr & ->).
    rewrite Hrr in Hrr2. injection Hrr2 as ->.
    destruct (group_set k g os (gin g) (others_of groups (sort_by str_ltb order) k) rr' Hz (gr_group _ _ _ (ex_group _ _ _ _ _ He) k g Hg)) as (_ & H2 & _);
      [intros o; by eapply expansion_one|done|done|]. by symmetry. }
  clear -H. induction H; simpl; congruence.
Qed.

(** Sets of different keys were checked against each other. *)
Lemma expansion_cname recs out os groups order :
  expansion recs out os groups order → Forall (λ r, isASCII (TType r) = true) recs → cname_alone out.
Proof.
  intros He Ha x y Hx Hy Hxy. pose proof (expansion_keys _ _ _ _ _ He Ha) as Hkeys.
  destruct (expansion_set _ _ _ _ _ x He Ha Hx) as (gx & rx & Hgx & Ex & Hrx & _ & Hax & _).
  destruct (expansion_set _ _ _ _ _ y He Ha Hy) as (gy & ry & Hgy & _ & _ & Hky & _).
  destruct (decide (group_key x = group_key y)) as [E|Hne].
  { destruct (expansion_set _ _ _ _ _ x He Ha Hx) as (gx' & _ & Hgx' & _ & _ & Hkx & _).
    rewrite E, Hgy in Hgx'. injection Hgx' as <-. injection Hkx as _ Hkx. injection Hky as _ Hky.
    unfold is_cname. by rewrite Hkx, Hky. }
  assert (Hin : stub gy ∈ others_of groups (sort_by str_ltb order) (group_key x)).
  { unfold others_of. apply list_elem_of_omap. exists (group_key y). split.
    - rewrite <- Hkeys. by apply list_elem_of_fmap_2.
    - rewrite bool_decide_eq_false_2 by congruence. by rewrite Hgy. }
  pose proof (RecordSet_agrees _ _ _ _ _ Hax Hrx) as Hag. rewrite Forall_forall in Hag. specialize (Hag _ Hin).
  injection Hky as Hyn Hyt. unfold agrees, stub, is_cname in Hag. simpl in Hag. subst x.
  unfold is_cname. simpl in *. rewrite Hyt. symmetry. apply Hag. by rewrite EqualFold_sym, <- Hyn.
Qed.
End Facts.

Section Theorems.
Context {U : Unicode} {DNS : MiekgDNS} {PSL : PublicSuffixList} {LAWS : MiekgDNSLaws} {RRP : Content.RRParser}.

Lemma ExpandRecords_inv l zone recs out :
  ExpandRecords l zone recs = Ok out →
  ∃ z os groups order, Validate.ZoneName zone = Ok z ∧ (Z.of_nat (length recs) ≤ MaxTemplateRecords) ∧
    expansion l z recs out os groups order.
Proof.
  intros (z & Hz & H)%bind_Ok. case_if in H as E; [done|]. b2p. apply bind_Ok in H as ([groups order] & Hg & H).
  apply (group_records_Ok l z 0 recs ∅ [] []) in Hg as (os & Hlen & Hgr & Hone); [|apply grouping_empty].
  exists z, os, groups, order. split; [done|]. split; [done|]. constructor; [done| |done|].
  - intros j r o Hr Ho. by apply Hone.
  - apply expand_groups_Ok; [|done]. intros k Hk. rewrite elem_of_sort_by in Hk. by apply (gr_dom _ _ _ Hgr).
Qed.

(** A template expands to exactly its records.  With [os] the records
    expanded one by one (the placeholder replaced, the owner qualified, the
    priority applied), the sets have pairwise distinct owner and type, every
    expanded record's owner and type is one of them, and a set is a REPLACE
    without comments, of a canonical owner inside the zone, with the TTL of the
    first of its records and, in order, the validated contents of all of them:
    none lost, none doubled.  No owner has a CNAME set beside another set. *)
Theorem ExpandRecords_spec l zone recs out :
  Forall (λ r, isASCII (TType r) = true) recs → ExpandRecords l zone recs = Ok out →
  ∃ z os, Validate.ZoneName zone = Ok z ∧ length os = length recs ∧
    (∀ j r o, recs !! j = Some r → os !! j = Some o → expand_one l z (Z.of_nat j) r = Ok o) ∧
    NoDup (map Pdns.rkey out) ∧ Forall (λ o, Pdns.rkey o.1 ∈ map Pdns.rkey out) os ∧ cname_alone out ∧
    Forall (λ rr, InZone (Pdns.RName rr) z = true ∧ Validate.owner_form (Pdns.RName rr) ∧
      Pdns.RChangeType rr = Pdns.ChangeReplace ∧ Pdns.RComments rr = None ∧
      (∃ o, head (List.filter (λ o, bool_decide (Pdns.rkey o.1 = Pdns.rkey rr)) os) = Some o ∧ Pdns.RTTL o.1 = Pdns.RTTL rr) ∧
      Forall2 (λ o rec, Content.content (Pdns.RType rr) z o.2 = Ok (Pdns.RecContent rec) ∧ Pdns.RecDisabled rec = false)
        (List.filter (λ o, bool_decide (Pdns.rkey o.1 = Pdns.rkey rr)) os) (Pdns.RRecords rr)) out.
Proof.
  intros Ha (z & os & groups & order & Hz & _ & He)%ExpandRecords_inv. exists z, os.
  pose proof (Validate.canonicalZone_idem _ _ (Validate.ZoneName_canonical _ _ Hz)) as Hzc.
  pose proof (expansion_keys l z Hzc _ _ _ _ _ He Ha) as Hkeys. split_and!; [done|apply He|apply He| | | |].
  - assert (Hnd : NoDup (map group_key out)) by (rewrite Hkeys, sort_by_perm; apply (ex_group _ _ _ _ _ _ _ He)).
    clear -Hnd. induction out as [|x out IH]; [constructor|]. apply NoDup_cons in Hnd as [Hn Hnd]. constructor; [|auto].
    intros (y & [= Hyn Hyt] & Hy)%list_elem_of_fmap. apply Hn, list_elem_of_fmap. exists y. split; [|done].
    unfold group_key. by rewrite Hyn, Hyt.
  - apply Forall_forall. intros o Ho. pose proof (gr_all _ _ _ (ex_group _ _ _ _ _ _ _ He) o Ho) as Hin.
    rewrite <- (elem_of_sort_by str_ltb), <- Hkeys in Hin. apply list_elem_of_fmap in Hin as (rr & Hk & Hrr).
    apply list_elem_of_fmap. exists rr. split; [|done].
    destruct (expansion_set l z Hzc _ _ _ _ _ rr He Ha Hrr) as (_ & _ & _ & _ & _ & _ & _ & Hof & _).
    destruct (expansion_one l z _ _ _ _ _ o He Ha Ho) as (j & r & Har & Hone). destruct o as [o c].
    apply (expand_one_canon l z _ _ _ _ Hzc Har) in Hone as (_ & Hof' & _).
    apply key_split in Hk as [Hn Ht]; [|by apply owner_no_space..]. unfold Pdns.rkey. simpl in *. by rewrite Hn, Ht.
  - by eapply expansion_cname.
  - apply Forall_forall. intros rr Hrr.
    destruct (expansion_set l z Hzc _ _ _ _ _ rr He Ha Hrr) as (g & rr' & Hg & -> & Hr & Hk & Hasc & Hof & Hfirst & Hrecs).
    assert (Hf : List.filter (λ o : Pdns.RRset * str, bool_decide (Pdns.rkey o.1 = Pdns.rkey (Pdns.set_comments rr' None))) os
                 = with_key (group_key (Pdns.set_comments rr' None)) os).
    { apply filter_ext_in. intros o Ho%list_elem_of_In. apply bool_decide_ext. split.
      - intros [= Hn Ht]. unfold group_key. simpl. by rewrite Hn, Ht.
      - destruct (expansion_one l z _ _ _ _ _ o He Ha Ho) as (j & r & Har & Hone). destruct o as [o c].
        apply (expand_one_canon l z _ _ _ _ Hzc Har) in Hone as (_ & Hof' & _).
        intros [Hn Ht]%key_split; [|by apply owner_no_space..]. unfold Pdns.rkey. simpl in *. by rewrite Hn, Ht. }
    rewrite Hf. apply RecordSet_inv in Hr as (zc & Hzc' & _ & Hn & _ & _ & _ & _ & _ & _ & _ & Hch & _).
    rewrite Hzc in Hzc'. injection Hzc' as <-. apply Validate.RecordName_inv in Hn as (zc & Hzc' & Hin & _).
    rewrite Hzc in Hzc'. injection Hzc' as <-. done.
Qed.
End Theorems.

(** ** Stored templates *)

Section Stored.
Context {U : Unicode} {DNS : MiekgDNS} {PSL : PublicSuffixList} {RRP : Content.RRParser}.
Context {S P R : Type} {RS : MemStore.RepoStore S}.
Context (checker : option Authz.Checker) (lim : Limits) (newID : nat → str).
Abbreviation W := (World S P R).
Abbreviation db w := (MemStore.repo_db (w_store w)).

(** A template the service may store. *)
Definition tpl_ok (t : Template) : Prop :=
  is_ok (ExpandRecords lim placeholderZone (TplRecords t)) = true ∧ TplName t ≠ [] ∧
  RuneCountInString (TplName t) ≤ MaxName ∧ hasControl (TplName t) = false ∧ RuneCountInString (TplDescription t) ≤ MaxDescription.

Lemma normalize_Ok i n : normalize lim i = (n, None) →
  ∀ id tenant a b, tpl_ok (mkTemplate id tenant (InName n) (InDescription n) (InRecords n) a b).
Proof.
  unfold normalize, tpl_ok. generalize (ExpandRecords lim placeholderZone). cbv zeta. intros f H id tenant a b.
  case_if in H as E1; [done|]. case_if in H as E2; [done|].
  injection H as <- Hx. b2p. cbn [TplName TplDescription TplRecords InName InDescription InRecords].
  split; [|done]. by destruct (f _).
Qed.

Inductive tpl_step (w : W) : W → Prop :=
  | tp_create subj i : tpl_step w (Create checker lim newID subj i w).2
  | tp_update subj id i : tpl_step w (Update checker lim subj id i w).2
  | tp_delete subj id : tpl_step w (Delete checker subj id w).2.

Definition valid (d : MemStore.DB) : Prop := map_Forall (λ _, tpl_ok) (MemStore.templates d).

(** A store call that keeps the templates valid, and the audit record after it. *)
Lemma store_step {A B} op core (k : res A → M W B) (w : W) :
  faithful (λ _, True) MemStore.repo_db MemStore.fault op core → (valid (db w) → valid (core (db w)).2) →
  (∀ r, quiet (k r)) → valid (db w) → valid (db ((on_store op ≫= k) w).2).
Proof.
  intros Hf Hc Hk Hv. unfold mbind, M_bind, on_store. destruct (op (w_store w)) as [r s] eqn:E.
  destruct (Hk r (set_store s w)) as [-> _]. simpl. destruct (Hf _ _ _ I E) as [_ [(e & _ & _ & ->)|H]]; [done|].
  rewrite H in Hc. by apply Hc.
Qed.

Lemma quiet_tpl_audit subj t id n e : quiet (@audit S P R subj t id n e).
Proof. unfold audit. by destruct (audit_outcome e). Qed.
#[local] Hint Resolve quiet_tpl_audit : dns.

Lemma quiet_valid {B} (m : M W B) (w : W) : quiet m → valid (db w) → valid (db (m w).2).
Proof. intros Hq. by destruct (Hq w) as [-> _]. Qed.

Lemma create_valid t d : tpl_ok t → valid d → valid (MemStore.create_template t d).2.
Proof.
  intros (H1 & H2) Hv. unfold MemStore.create_template. case_match; [done|]. unfold valid. simpl.
  apply map_Forall_insert_2; [|done]. by split.
Qed.
Lemma update_valid t d : tpl_ok t → valid d → valid (MemStore.update_template t d).2.
Proof.
  intros (H1 & H2) Hv. unfold MemStore.update_template. destruct (MemStore.template _ _ d) as [cur|]; [|done].
  case_match; [done|]. unfold valid. simpl. apply map_Forall_insert_2; [|done]. by split.
Qed.
Lemma delete_valid t i d : valid d → valid (MemStore.delete_template t i d).2.
Proof.
  intros Hv. unfold MemStore.delete_template. destruct (MemStore.template t i d); [|done]. by apply map_Forall_delete.
Qed.

(** Only valid templates are stored: from a store whose templates are
    valid (an empty one is), after any sequence of creations, updates and
    deletions by any callers, every stored template has a name of 1 to 100
    characters without control characters, a bounded description, and records
    that expand without error for the placeholder zone. *)
Theorem templates_valid w0 w :
  map_Forall (λ _, tpl_ok) (MemStore.templates (db w0)) → rtc tpl_step w0 w →
  map_Forall (λ _, tpl_ok) (MemStore.templates (db w)).
Proof.
  intros H0 Hr. induction Hr as [|w1 w2 w3 Hs _ IH]; [done|]. apply IH. clear IH.
  destruct Hs as [subj i|subj id i|subj id].
  - unfold Create. destruct (guard checker subj _); [|done]. destruct (normalize lim i) as [n [e|]] eqn:En.
    + by apply quiet_valid; [apply quiet_bind; auto with dns|].
    + unfold now, mint. unfold mbind at 1, M_bind at 1. unfold mbind at 1, M_bind at 1. cbv zeta.
      eapply (store_step _ _ _ (mkWorld _ _ _ _ _ _ _ _)); [apply MemStore.repo_CreateTemplate_ok| | |done].
      * apply create_valid. by eapply normalize_Ok.
      * intros [[]|e]; apply quiet_bind; auto with dns.
  - unfold Update. destruct (guard checker subj _); [|done]. destruct (normalize lim i) as [n [e|]] eqn:En.
    + by apply quiet_valid; [apply quiet_bind; auto with dns|].
    + unfold now. unfold mbind at 1, M_bind at 1.
      eapply store_step; [apply MemStore.repo_UpdateTemplate_ok| | |done].
      * apply update_valid. by eapply normalize_Ok.
      * intros [t|e]; apply quiet_bind; auto with dns.
  - unfold Delete. destruct (guard checker subj _); [|done].
    eapply store_step; [apply MemStore.repo_DeleteTemplate_ok|apply delete_valid| |done].
    intros [[]|e]; apply quiet_bind; auto with dns.
Qed.
End Stored.

(** ** A concrete template *)

Module Concrete.
#[local] Existing Instance unicode_min.
#[local] Existing Instance miekg_plain.
#[local] Existing Instance miekg_plain_laws.
#[local] Existing Instance psl_tld.
#[local] Existing Instance Content.rr_plain.

Definition mail_template : list TemplateRecord :=
  [mkTemplateRecord "@" "mx" 3600 "mail.[ZONE]." 10; mkTemplateRecord "mail" "a" 300 "192.0.2.1" 0;
   mkTemplateRecord "mail.[ZONE]." "A" 600 "192.0.2.2" 0].

Lemma ExpandRecords_spec_witness :
  ∃ out, ExpandRecords DefaultLimits "Example.com" mail_template = Ok out ∧ length out = 2%nat ∧ NoDup (map Pdns.rkey out).
Proof.
  destruct (ExpandRecords DefaultLimits "Example.com" mail_template) as [out|] eqn:E;
    [|exfalso; assert (H : is_ok (ExpandRecords DefaultLimits "Example.com" mail_template) = true) by (vm_compute; reflexivity);
      rewrite E in H; discriminate H].
  exists out. split; [reflexivity|]. split.
  - assert (H : match ExpandRecords DefaultLimits "Example.com" mail_template with Ok o => length o | Err _ => 0%nat end = 2%nat)
      by (vm_compute; reflexivity). rewrite E in H. exact H.
  - destruct (ExpandRecords_spec DefaultLimits "Example.com" mail_template out) as (z & os & _ & _ & _ & H & _);
      [repeat constructor|exact E|exact H].
Defined.

Definition tpl_world : World MemStore.Mem Pdns.Fake Recursor.Fake :=
  mkWorld (MemStore.NewMem 50) Pdns.NewFake None [] [] [] 100 0.
Definition tpl_input : Input := mkInput " Mail " "mail hosts" mail_template.

Lemma templates_valid_witness :
  let w := (Create None DefaultLimits (λ _, "tpl0" : str) (Authz.User "t1" "alice" []) tpl_input tpl_world).2 in
  is_ok (MemStore.template "t1" "tpl0" (MemStore.repo_db (w_store w))) = true ∧
  map_Forall (λ _, tpl_ok DefaultLimits) (MemStore.templates (MemStore.repo_db (w_store w))).
Proof.
  split; [vm_compute; reflexivity|].
  apply (templates_valid None DefaultLimits (λ _, "tpl0" : str) tpl_world); [apply map_Forall_empty|].
  apply rtc_once. constructor.
Defined.
End Concrete.
End Templates.
