(* ===== verification/Backup.v ===== *)
(** * Tenant backup ([internal/backup/backup.go])

    The export of a tenant's zones, templates and supermasters, and the import,
    which re-links zones that are on the server and never creates or deletes one
    there.  The JSON decoder is a parameter.  A count or a flag in the details of
    an audit record is written as its text. *)
From Stdlib Require Import Ascii.
From S2P Require Import Prelude GoStrings GoError Store Names Netip Content Masters RecordSets Authz MemStore Pdns Recursor World Zones Supermasters Templates.
Local Open Scope Z_scope.

Module Backup.
Import Store RecordSets.

Definition SchemaVersion : Z := 1.
Definition ModeSkip : str := "skip".
Definition ModeOverwrite : str := "overwrite".
Definition MaxRows : Z := 20000.
Definition MaxBindBytes : Z := 50331648.
Definition maxDesc : Z := 1000.
Definition CZones : str := "zones".
Definition CTemplates : str := "templates".
Definition CSupermasters : str := "supermasters".
Definition placeholderZone : str := "placeholder.example.".
Definition BackupExport : str := "backup.export".
Definition BackupImport : str := "backup.import".
Definition SubjectBackup : str := "backup".

Record ZoneRow := mkZoneRow { RowZone : Zone; Bind : str }.
Record Backup := mkBackup {
  BSchemaVersion : Z; ExportedAt : time; BTenantID : str;
  BZones : list ZoneRow; BTemplates : list Template; BSupermasters : list Supermaster
}.
Record Options := mkOptions { OMode : str; OTenantID : str; OFull : bool }.
Record Result := mkResult { RTenantID : str; RMode : str; Imported : gmap str Z; Skipped : gmap str Z; MissingInPDNS : list str }.
Definition count (m : gmap str Z) (c : str) : Z := default 0 (m !! c).

(** The wiring: the permission checker, the limits and the source of ids. *)
Record Config := mkConfig { cChecker : option Authz.Checker; cLimits : Limits; cNewID : nat → str }.
Definition zeroLimits (l : Limits) : bool := (MinTTL l =? 0) && (MaxTTL l =? 0) && (MaxValues l =? 0).
Definition limitsOr (l : Limits) : Limits := if zeroLimits l then DefaultLimits else l.

Definition hexdigit (c : ascii) : bool :=
  digit c || ((97 <=? code c) && (code c <=? 102)) || ((65 <=? code c) && (code c <=? 70)).
Definition isUUID (s : str) : bool :=
  match SplitByte "-" s with
  | [a; b; c; d; e] =>
    bool_decide (map length [a; b; c; d; e] = [8; 4; 4; 4; 12]%nat) && forallb (forallb hexdigit) [a; b; c; d; e]
  | _ => false
  end.
Definition bad (what : str) : error := Wrapf (New BackupErrBadSchema) what.
Definition hasControl (s : str) : bool := existsb IsControl (runes s).

(** ** Checking a document *)

Section Documents.
Context {U : Unicode} {DNS : MiekgDNS} {PSL : PublicSuffixList} {RRP : Content.RRParser}.

Definition check_zone (z : Zone) : res unit :=
  if negb (isUUID (ID z)) || (negb (bool_decide (TemplateID z = [])) && negb (isUUID (TemplateID z))) then Err (bad "zone id")
  else if negb (match Validate.ZoneName (Name z) with Ok n => bool_decide (n = Name z) | Err _ => false end) then Err (bad "zone name")
  else if negb (ValidKind (Kind z)) || (negb (bool_decide (Origin z = [])) && negb (ValidOrigin (Origin z))) then Err (bad "zone kind/origin")
  else if negb (is_ok (Masters.Masters (Masters z))) then Err (bad "zone masters")
  else if (maxDesc <? RuneCountInString (Description z)) || (16 <? Z.of_nat (length (Nameservers z))) then Err (bad "zone description/nameservers")
  else if existsb (λ ns, negb (is_ok (Validate.Hostname ns))) (Nameservers z) then Err (bad "zone nameserver")
  else Ok ().

Definition check_template (l : Limits) (t : Template) : res unit :=
  if negb (isUUID (TplID t)) then Err (bad "template id")
  else
    let name := TrimSpace (TplName t) in
    if bool_decide (name = []) || (Templates.MaxName <? RuneCountInString name) || hasControl name
       || (Templates.MaxDescription <? RuneCountInString (TplDescription t)) then Err (bad "template name/description")
    else if negb (is_ok (Templates.ExpandRecords l placeholderZone (TplRecords t))) then Err (bad "template records")
    else Ok ().

Definition check_supermaster (sm : Supermaster) : res unit :=
  if negb (isUUID (SmID sm)) then Err (bad "supermaster id")
  else if negb (is_ok (Masters.IPGuard (SmIP sm))) then Err (bad "supermaster ip")
  else if negb (is_ok (Validate.Hostname (SmNameserver sm))) then Err (bad "supermaster nameserver")
  else Ok ().

Fixpoint check_all {A} (f : A → res unit) (l : list A) : res unit :=
  match l with [] => Ok () | x :: l => _ ← f x; check_all f l end.

(** The collections are ranged over as a Go map: when several are too large, any
    of them may be the one named; the first is here. *)
Definition check_rows (b : Backup) : res unit :=
  check_all (λ '(name, n), if MaxRows <? n then Err (Wrapf (New BackupErrTooLarge) (name ++ " has " ++ Itoa n ++ " rows")) else Ok ())
    [(CZones, Z.of_nat (length (BZones b))); (CTemplates, Z.of_nat (length (BTemplates b)));
     (CSupermasters, Z.of_nat (length (BSupermasters b)))].

Definition Validate (b : Backup) (l : Limits) : res unit :=
  let l := limitsOr l in
  if negb (BSchemaVersion b =? SchemaVersion) then Err (Wrapf (New BackupErrBadSchema) ("schema version " ++ Itoa (BSchemaVersion b)))
  else
    _ ← check_rows b;
    if negb (bool_decide (BTenantID b = [])) && negb (isUUID (BTenantID b)) then Err (bad "tenant_id")
    else
      _ ← check_all (λ r, check_zone (RowZone r)) (BZones b);
      _ ← check_all (check_template l) (BTemplates b);
      check_all check_supermaster (BSupermasters b).

(** The strict decoder: a document and whether more data follows it. *)
Class BackupDecoder := decode : str → option (Backup * bool).
Definition Parse {DEC : BackupDecoder} (raw : str) (l : Limits) : res Backup :=
  match decode raw with
  | None => Err (bad "malformed JSON")
  | Some (b, more) => if (more : bool) then Err (bad "trailing data") else _ ← Validate b l; Ok b
  end.
End Documents.

(** ** The service *)

Section Service.
Context {U : Unicode} {DNS : MiekgDNS} {PSL : PublicSuffixList} {RRP : Content.RRParser}.
Context {S P R : Type} {RS : MemStore.RepoStore S} {PC : Pdns.PDNSClient P}.
Context (cfg : Config).
Abbreviation W := (World S P R).

Definition guard (subj : Authz.Subjects) : res unit :=
  if bool_decide (Authz.STenantID subj = []) then Err (Authz.forbidden "tenant required")
  else if Authz.IsHuman subj && match cChecker cfg with None => true | Some _ => false end then Ok ()
  else Authz.Require_ (cChecker cfg) subj Authz.BackupManage.

Definition target (subj : Authz.Subjects) (tenantID : str) : res str :=
  _ ← guard subj;
  if bool_decide (tenantID = []) || bool_decide (tenantID = Authz.STenantID subj) then Ok (Authz.STenantID subj)
  else
    _ ← Authz.RequirePlatformAdmin subj;
    if negb (isUUID tenantID) then Err (bad "tenant_id") else Ok tenantID.

Definition emit (subj : Authz.Subjects) (tenant t outcome reason : str) (details : list (str * str)) : M W unit :=
  record_audit (AuditEvent.mkEvent (if bool_decide (tenant = []) then NilTenant else tenant) t (AuditEvent.ActorOf (Authz.ActorKind subj))
    (Authz.ActorID subj) SubjectBackup t outcome reason details).
Definition refused (subj : Authz.Subjects) (t : str) (e : error) : M W unit :=
  if Is e ErrForbidden then emit subj (Authz.STenantID subj) t AuditEvent.OutcomeRefused "forbidden" [] else mret ().

(** *** Export *)

(** The rows with the text of their zones, as long as it fits the budget. *)
Fixpoint export_rows (budget noText : Z) (zs : list Zone) : M W (list ZoneRow * Z) :=
  match zs with
  | [] => mret ([], noText)
  | z :: zs =>
    text ← on_pdns (Pdns.pdns_ExportZone (PDNSID z));
    let '(bind, budget, noText) :=
      match text with
      | Ok s => if Z.of_nat (length s) <=? budget then (s, budget - Z.of_nat (length s), noText) else ([], budget, noText + 1)
      | Err _ => ([], budget, noText + 1)
      end in
    rest ← export_rows budget noText zs;
    mret (mkZoneRow z bind :: rest.1, rest.2)
  end.

Definition flag (b : bool) : str := if b then "true" else "false".
Definition Export (subj : Authz.Subjects) (tenantID : str) : M W (res Backup) :=
  match target subj tenantID with
  | Err e => _ ← refused subj BackupExport e; mret (Err e)
  | Ok t =>
    n ← now;
    zs ←? on_store (MemStore.repo_ZonesForTenant t);
    rows ← export_rows MaxBindBytes 0 zs;
    tpls ←? on_store (MemStore.repo_AllTemplates t);
    sms ←? on_store (MemStore.repo_AllSupermasters t);
    _ ← emit subj t BackupExport AuditEvent.OutcomeOK []
          [("zones" : str, Itoa (Z.of_nat (length rows.1))); ("templates" : str, Itoa (Z.of_nat (length tpls)));
           ("supermasters" : str, Itoa (Z.of_nat (length sms))); ("zones_without_text" : str, Itoa rows.2);
           ("cross_tenant" : str, flag (negb (bool_decide (t = Authz.STenantID subj))))];
    mret (Ok (mkBackup SchemaVersion n t rows.1 tpls sms))
  end.

(** *** Fresh ids *)

Fixpoint remap_templates (tpl : gmap str str) (l : list Template) : M W (list Template * gmap str str) :=
  match l with
  | [] => mret ([], tpl)
  | t :: l =>
    nid ← mint (cNewID cfg);
    rest ← remap_templates (<[TplID t := nid]> tpl) l;
    mret (mkTemplate nid (TplTenantID t) (TplName t) (TplDescription t) (TplRecords t) (TplCreatedAt t) (TplUpdatedAt t) :: rest.1, rest.2)
  end.
Fixpoint remap_zones (tpl : gmap str str) (l : list ZoneRow) : M W (list ZoneRow) :=
  match l with
  | [] => mret []
  | r :: l =>
    nid ← mint (cNewID cfg);
    let z := RowZone r in
    rest ← remap_zones tpl l;
    mret (mkZoneRow (mkZone nid (TenantID z) (Name z) (PDNSID z) (Kind z) (Masters z) (DNSSEC z) (Description z)
            (default [] (tpl !! TemplateID z)) (Origin z) (Nameservers z) (CreatedBy z) (CreatedAt z) (UpdatedAt z)) (Bind r) :: rest)
  end.
Fixpoint remap_supermasters (l : list Supermaster) : M W (list Supermaster) :=
  match l with
  | [] => mret []
  | s :: l =>
    nid ← mint (cNewID cfg);
    rest ← remap_supermasters l;
    mret (mkSupermaster nid (SmTenantID s) (SmIP s) (SmNameserver s) (SmCreatedBy s) (SmCreatedAt s) :: rest)
  end.
Definition remap (b : Backup) : M W Backup :=
  tpls ← remap_templates ∅ (BTemplates b);
  zs ← remap_zones tpls.2 (BZones b);
  sms ← remap_supermasters (BSupermasters b);
  mret (mkBackup (BSchemaVersion b) (ExportedAt b) (BTenantID b) zs tpls.1 sms).
(** *** The importer

    A step is given what the import did so far and returns what it did, with the
    error that ends the import. *)
Section Importer.
Context (subj : Authz.Subjects) (target origin mode : str).

Definition imported (c : str) (r : Result) : Result :=
  mkResult (RTenantID r) (RMode r) (<[c := count (Imported r) c + 1]> (Imported r)) (Skipped r) (MissingInPDNS r).
Definition skipped_by (n : Z) (c : str) (r : Result) : Result :=
  mkResult (RTenantID r) (RMode r) (Imported r) (<[c := count (Skipped r) c + n]> (Skipped r)) (MissingInPDNS r).
Definition skipped : str → Result → Result := skipped_by 1.
Definition missing (name : str) (r : Result) : Result :=
  mkResult (RTenantID r) (RMode r) (Imported r) (Skipped r) (MissingInPDNS r ++ [name]).
Definition Step : Type := Result → M W (Result * option error).

Fixpoint each {A} (f : A → Step) (l : list A) : Step := λ r,
  match l with
  | [] => mret (r, None)
  | x :: l => y ← f x r; match y with (r, None) => each f l r | (r, Some e) => mret (r, Some e) end
  end.

Definition wipe_one (t : Template) : Step := λ r,
  x ← on_store (MemStore.repo_DeleteTemplate target (TplID t));
  mret (r, match x with Ok _ => None | Err e => if Is e RepoErrNotFound then None else Some e end).
Definition wipeTemplates : Step := λ r,
  l ← on_store (MemStore.repo_AllTemplates target);
  match l with Err e => mret (r, Some e) | Ok l => each wipe_one l r end.

(** A conflict, or a row that went away, is a skipped row. *)
Definition settled (c : str) (e : option error) (r : Result) : Result * option error :=
  match e with
  | None => (imported c r, None)
  | Some e => if Is e RepoErrConflict || Is e RepoErrNotFound then (skipped c r, None) else (r, Some e)
  end.

Definition template (t : Template) : Step := λ r,
  let name := TrimSpace (TplName t) in
  let desc := TrimSpace (TplDescription t) in
  g ← on_store (MemStore.repo_GetTemplate target (TplID t));
  match g with
  | Ok _ =>
    if negb (bool_decide (mode = ModeOverwrite)) then mret (skipped CTemplates r, None)
    else
      n ← now;
      x ← on_store (MemStore.repo_UpdateTemplate (mkTemplate (TplID t) target name desc (TplRecords t) (TplCreatedAt t) n));
      mret (settled CTemplates (err_of x) r)
  | Err e =>
    if Is e RepoErrNotFound then
      n ← now;
      x ← on_store (MemStore.repo_CreateTemplate
            (mkTemplate (TplID t) target name desc (TplRecords t) (if TplCreatedAt t =? 0 then n else TplCreatedAt t) n));
      mret (settled CTemplates (err_of x) r)
    else mret (r, Some e)
  end.

Definition ownAccount (account : str) : bool :=
  bool_decide (account = []) || bool_decide (account = target) || (negb (bool_decide (origin = [])) && bool_decide (account = origin)).

(** The row of a zone of the server: the document gives its description, its
    template and its origin. *)
Definition linked (z : Zone) (live : Pdns.Zone) (n : time) (tplID : str) : Zone :=
  let k := KindFromPDNS (Pdns.PKind live) in
  mkZone (ID z) target (Name z) (if bool_decide (Pdns.PID live = []) then Name z else Pdns.PID live)
    (if bool_decide (k = []) then Kind z else k) (Pdns.PMasters live) (Pdns.PDNSSEC live) (Description z) tplID
    (if bool_decide (Origin z = []) then OriginManual else Origin z) (Nameservers z) (CreatedBy z)
    (if CreatedAt z =? 0 then n else CreatedAt z) n.

Definition link (z : Zone) (live : Pdns.Zone) : Step := λ r,
  n ← now;
  tplID ← (if bool_decide (TemplateID z = []) then mret []
           else g ← on_store (MemStore.repo_GetTemplate target (TemplateID z));
                mret match g with Ok _ => TemplateID z | Err _ => [] end);
  let z := linked z live n tplID in
  c ← on_store (MemStore.repo_CreateZone z);
  match c with
  | Err e => mret (if Is e RepoErrConflict then (skipped CZones r, None) else (r, Some e))
  | Ok _ =>
    _ ← (if bool_decide (Pdns.PAccount live = target) then mret (Ok ())
         else on_pdns (Pdns.pdns_UpdateZoneMetadata (PDNSID z)
                (Pdns.mkZone [] [] (Pdns.PKind live) 0 0 (Pdns.PMasters live) (Pdns.PDNSSEC live) [] target [])));
    mret (imported CZones r, None)
  end.

Definition zone (onServer : list str) (row : ZoneRow) : Step := λ r,
  let z := RowZone row in
  local ← on_store (MemStore.repo_GetZoneByName target (Name z));
  match local with
  | Ok l =>
    if negb (bool_decide (mode = ModeOverwrite)) then mret (skipped CZones r, None)
    else
      n ← now;
      u ← on_store (MemStore.repo_UpdateZone
            (mkZone (ID l) (TenantID l) (Name l) (PDNSID l) (Kind l) (Masters l) (DNSSEC l) (Description z) (TemplateID l) (Origin l)
               (Nameservers l) (CreatedBy l) (CreatedAt l) n));
      mret match u with Err e => (r, Some e) | Ok _ => (imported CZones r, None) end
  | Err e =>
    if negb (Is e RepoErrNotFound) then mret (r, Some e)
    else if negb (existsb (λ n, bool_decide (ToLower n = Name z)) onServer) then mret (missing (Name z) r, None)
    else
      taken ← on_store (MemStore.repo_ZoneConflict target (Name z));
      match taken with
      | Err e => mret (r, Some e)
      | Ok true => mret (skipped CZones r, None)
      | Ok false =>
        live ← on_pdns (Pdns.pdns_GetZone (Name z));
        match live with
        | Err e => mret (if Is e PdnsErrNotFound then (missing (Name z) r, None) else (r, Some e))
        | Ok live => if negb (ownAccount (Pdns.PAccount live)) then mret (skipped CZones r, None) else link z live r
        end
      end
  end.

(** The scan of the server's entries: [None] when one of them is another
    tenant's, otherwise whether one was found. *)
Fixpoint scan (ip ns : str) (onServer : bool) (live : list Pdns.Supermaster) : option bool :=
  match live with
  | [] => Some onServer
  | e :: live =>
    if bool_decide (Pdns.SIP e = ip) && bool_decide (TrimSuffix (Pdns.SNameserver e) "." = ns) then
      if negb (ownAccount (Pdns.SAccount e)) then None else scan ip ns true live
    else scan ip ns onServer live
  end.

Definition insert_supermaster (sm : Supermaster) (pdnsNS : str) (onServer : bool) : Step := λ r,
  c ← on_store (MemStore.repo_CreateSupermaster sm);
  match c with
  | Ok _ => mret (imported CSupermasters r, None)
  | Err e =>
    _ ← (if onServer then mret (Ok ()) else on_pdns (Pdns.pdns_DeleteSupermaster (SmIP sm) pdnsNS));
    mret (if Is e RepoErrConflict then (skipped CSupermasters r, None) else (r, Some e))
  end.
Definition supermaster (live : list Pdns.Supermaster) (sm : Supermaster) : Step := λ r,
  let ip := match Masters.IPGuard (SmIP sm) with Ok a => a | Err _ => Netip.Invalid end in
  let ns := match Validate.Hostname (SmNameserver sm) with Ok n => n | Err _ => [] end in
  n ← now;
  let sm := mkSupermaster (SmID sm) target (Netip.String ip) ns (SmCreatedBy sm) (if SmCreatedAt sm =? 0 then n else SmCreatedAt sm) in
  g ← on_store (MemStore.repo_GetSupermaster target (SmID sm));
  match g with
  | Ok _ => mret (skipped CSupermasters r, None)
  | Err e =>
    if negb (Is e RepoErrNotFound) then mret (r, Some e)
    else
      let pdnsNS := TrimSuffix ns "." in
      match scan (SmIP sm) pdnsNS false live with
      | None => mret (skipped CSupermasters r, None)
      | Some true => insert_supermaster sm pdnsNS true r
      | Some false =>
        c ← on_pdns (Pdns.pdns_CreateSupermaster (Pdns.mkSupermaster (SmIP sm) pdnsNS target));
        match c with
        | Err e => mret (if Is e PdnsErrConflict then (skipped CSupermasters r, None) else (r, Some e))
        | Ok _ => insert_supermaster sm pdnsNS false r
        end
      end
  end.

(** One part of the import after another, up to the first error. *)
Definition and_then (a b : Step) : Step := λ r,
  x ← a r; match x with (r, None) => b r | (r, Some e) => mret (r, Some e) end.
Definition run_zones (zs : list ZoneRow) : Step := λ r,
  if bool_decide (zs = []) then mret (r, None)
  else
    names ← on_pdns Pdns.pdns_ListZoneNames;
    match names with Err e => mret (r, Some e) | Ok names => each (zone names) zs r end.
Definition run_supermasters (l : list Supermaster) : Step := λ r,
  if bool_decide (l = []) then mret (r, None)
  else if negb (Authz.IsPlatformAdmin subj) then mret (skipped_by (Z.of_nat (length l)) CSupermasters r, None)
  else
    live ← on_pdns Pdns.pdns_ListSupermasters;
    match live with Err e => mret (r, Some e) | Ok live => each (supermaster live) l r end.
Definition run (b : Backup) (full : bool) : Step :=
  and_then (if full then wipeTemplates else λ r, mret (r, None))
    (and_then (each template (BTemplates b)) (and_then (run_zones (BZones b)) (run_supermasters (BSupermasters b)))).
End Importer.

(** *** Import *)

Definition newResult : Result := mkResult [] [] ∅ ∅ [].
Definition Import (subj : Authz.Subjects) (b : Backup) (opts : Options) : M W (Result * option error) :=
  match (t ← target subj (OTenantID opts); if OFull opts then _ ← Authz.RequirePlatformAdmin subj; Ok t else Ok t) with
  | Err e => _ ← refused subj BackupImport e; mret (newResult, Some e)
  | Ok tgt =>
    match Validate b (cLimits cfg) with
    | Err e => mret (newResult, Some e)
    | Ok _ =>
      let mode := if bool_decide (OMode opts = ModeOverwrite) then ModeOverwrite else ModeSkip in
      let origin := BTenantID b in
      b ← (if bool_decide (origin = tgt) then mret b else remap b);
      x ← run subj tgt origin mode b (OFull opts) (mkResult tgt mode ∅ ∅ []);
      let '(r, e) := x in
      _ ← emit subj tgt BackupImport (match e with None => AuditEvent.OutcomeOK | Some _ => AuditEvent.OutcomeError end)
            (match e with None => [] | Some _ => "import failed" : str end)
            [("mode" : str, RMode r); ("full" : str, flag (OFull opts)); ("cross_tenant" : str, flag (negb (bool_decide (tgt = Authz.STenantID subj))));
             ("zones" : str, Itoa (count (Imported r) CZones)); ("templates" : str, Itoa (count (Imported r) CTemplates));
             ("supermasters" : str, Itoa (count (Imported r) CSupermasters)); ("missing_in_pdns" : str, Itoa (Z.of_nat (length (MissingInPDNS r))))];
      mret (r, e)
    end
  end.
End Service.
End Backup.
