(* ===== verification/BackupSpec.v ===== *)
(** * Theorems about backup and restore

    What an import does, for every store and PowerDNS client that keep their
    interfaces' promises: it acts on one tenant, it never creates, deletes or
    rewrites a zone on the server, every row of the document is accounted for, and
    an export brings back the zone rows that were lost since. *)
From Stdlib Require Import Ascii.
From S2P Require Import Prelude GoStrings GoError Store Names Netip Content Masters RecordSets Authz MemStore Pdns Recursor World Zones ZonesSpec Supermasters Templates Backup.
Local Open Scope Z_scope.

Module BackupSpec.
Import Store Zones ZonesSpec Backup.

(** A server zone handed to a tenant: only its account changes. *)
Definition adopted (tgt : str) (pz : Pdns.Zone) : Pdns.Zone :=
  Pdns.mkZone (Pdns.PID pz) (Pdns.PName pz) (Pdns.PKind pz) (Pdns.PSerial pz) (Pdns.PNotifiedSerial pz) (Pdns.PMasters pz)
    (Pdns.PDNSSEC pz) (Pdns.PNameservers pz) tgt (Pdns.PRRsets pz).

(** A row that only got another description. *)
Definition described (z z' : Zone) : Prop :=
  z' = mkZone (ID z) (TenantID z) (Name z) (PDNSID z) (Kind z) (Masters z) (DNSSEC z) (Description z') (TemplateID z) (Origin z)
         (Nameservers z) (CreatedBy z) (CreatedAt z) (UpdatedAt z').
Lemma described_refl z : described z z.
Proof. by destruct z. Qed.
Lemma described_trans x y z : described x y → described y z → described x z.
Proof. unfold described. intros -> ->. done. Qed.

(** How many rows of a collection an import has dealt with. *)
Definition total (c : str) (r : Result) : Z :=
  count (Imported r) c + count (Skipped r) c + (if bool_decide (c = CZones) then Z.of_nat (length (MissingInPDNS r)) else 0).
(** [n] more rows of collection [c]. *)
Definition tallied (n : Z) (c : str) (r r' : Result) : Prop :=
  RTenantID r' = RTenantID r ∧ RMode r' = RMode r ∧ (c ≠ CZones → MissingInPDNS r' = MissingInPDNS r) ∧
  ∀ c', total c' r' = total c' r + (if bool_decide (c' = c) then n else 0).

Lemma count_insert m c c' n : count (<[c := n]> m) c' = if bool_decide (c' = c) then n else count m c'.
Proof. unfold count. case_bool_decide as E; [by rewrite E, lookup_insert_eq|by rewrite lookup_insert_ne]. Qed.

Lemma tallied_imported c r : tallied 1 c r (imported c r).
Proof. split_and!; [done..|]. intros c'. unfold total. simpl. rewrite count_insert. repeat case_bool_decide; subst; lia. Qed.
Lemma tallied_skipped n c r : tallied n c r (skipped_by n c r).
Proof. split_and!; [done..|]. intros c'. unfold total. simpl. rewrite count_insert. repeat case_bool_decide; subst; lia. Qed.
Lemma tallied_missing name r : tallied 1 CZones r (missing name r).
Proof. split_and!; [done..|]. intros c'. unfold total. simpl. rewrite length_app. simpl. case_bool_decide; lia. Qed.
Lemma tallied_none c r : tallied 0 c r r.
Proof. split_and!; [done..|]. intros c'. case_bool_decide; lia. Qed.
Lemma tallied_trans n m c r1 r2 r3 : tallied n c r1 r2 → tallied m c r2 r3 → tallied (n + m) c r1 r3.
Proof.
  intros (H1 & H1' & Hm1 & Ht1) (H2 & H2' & Hm2 & Ht2). split_and!; [congruence..| |].
  - intros Hc. by rewrite Hm2, Hm1.
  - intros c'. rewrite Ht2, Ht1. case_bool_decide; lia.
Qed.
#[local] Hint Resolve tallied_imported tallied_skipped tallied_missing tallied_none : dns.

(** The sorted rows of a tenant. *)
Lemma elem_of_tenant {A} (lt : A → A → bool) (ten : A → str) (t : str) (m : gmap str A) x :
  x ∈ sort_by lt (List.filter (λ y, bool_decide (ten y = t)) (values_of m)) ↔ ∃ k, m !! k = Some x ∧ ten x = t.
Proof.
  rewrite elem_of_sort_by, list_elem_of_In, filter_In, <- list_elem_of_In, elem_of_values_of, bool_decide_eq_true. naive_solver.
Qed.

Section Spec.
Context {U : Unicode} {DNS : MiekgDNS} {PSL : PublicSuffixList} {LAWS : MiekgDNSLaws} {RRP : Content.RRParser}.
Context {S P R : Type} {RS : MemStore.RepoStore S} {PC : Pdns.PDNSClient P}.
Context (cfg : Backup.Config).
Abbreviation W := (World S P R).
Abbreviation Step := (Result → M (World S P R) (Result * option error)).
Implicit Types w : World S P R.

Lemma on_pdns_run {A} op core (r : res A) w w' :
  faithful Pdns.pdns_ok Pdns.pdns_view Pdns.fault op core → wok w → on_pdns op w = (r, w') →
  wdb w' = wdb w ∧ wok w' ∧ ((∃ e, r = Err e ∧ Pdns.fault e ∧ wsrv w' = wsrv w) ∨ core (wsrv w) = (r, wsrv w')).
Proof.
  unfold on_pdns. intros Hf Hok. destruct (op (w_pdns w)) as [r0 p] eqn:E. intros [= <- <-].
  destruct (Hf _ _ _ Hok E) as [? H]. unfold wsrv, wok, wdb. simpl. auto.
Qed.
Lemma on_pdns_read {A} op get (r : res A) w w' :
  faithful Pdns.pdns_ok Pdns.pdns_view Pdns.fault op (Pdns.reading get) → wok w → on_pdns op w = (r, w') →
  same w w' ∧ ((∃ e, r = Err e ∧ Pdns.fault e) ∨ r = get (wsrv w)).
Proof.
  intros Hf Hok H. destruct (on_pdns_run _ _ _ _ _ Hf Hok H) as (Hd & Ho & [(e & -> & He & Hs)|[= Hr Hs]]).
  - split; [done|]. left. eauto.
  - split; [by split_and!|]. by right.
Qed.

(** ** What an import may do *)

(** The zone table and the server are in order. *)
Definition inv w : Prop := zinv w ∧ Pdns.server_wf (wsrv w).

Lemma inv_same w w' : inv w → same w w' → inv w'.
Proof. intros [Hi Hv] Hs. split; [by eapply same_inv|]. by rewrite (proj1 (proj2 Hs)). Qed.

Section Importer.
Context (subj : Authz.Subjects) (tgt origin mode : str).
Abbreviation admin := (Authz.IsPlatformAdmin subj).

(** One entry of the server: as it was, or adopted, when its account allows it
    and no other tenant has a row for it. *)
Definition entry_kept w w' (k : str) : Prop :=
  Pdns.zones (wsrv w') !! k = Pdns.zones (wsrv w) !! k ∨
  ∃ pz, Pdns.zones (wsrv w) !! k = Some pz ∧ Pdns.zones (wsrv w') !! k = Some (adopted tgt pz) ∧
    ownAccount tgt origin (Pdns.PAccount pz) = true ∧
    (∀ i y, MemStore.zones (wdb w) !! i = Some y → PDNSID y = k → TenantID y = tgt).

Record confined w w' : Prop := {
  cf_before : inv w;
  cf_after : inv w';
  cf_others : ∀ t, t ≠ tgt → MemStore.tenant_rows t (wdb w') = MemStore.tenant_rows t (wdb w);
  cf_zones : ∀ k z, MemStore.zones (wdb w) !! k = Some z → ∃ z', MemStore.zones (wdb w') !! k = Some z' ∧ described z z';
  cf_server : ∀ k, entry_kept w w' k;
  cf_sms : ∀ s, s ∈ Pdns.supermasters (wsrv w) → s ∈ Pdns.supermasters (wsrv w');
  cf_admin : admin = false → MemStore.supermasters (wdb w') = MemStore.supermasters (wdb w) ∧
                             Pdns.supermasters (wsrv w') = Pdns.supermasters (wsrv w)
}.

Lemma tenant_zone_row t d i z :
  MemStore.zones d !! i = Some z → TenantID z = t → (MemStore.tenant_rows t d).1.1.1.1 !! i = Some z.
Proof. intros Hz Ht. by apply map_lookup_filter_Some. Qed.
Lemma tenant_zone_row_inv t d i z : (MemStore.tenant_rows t d).1.1.1.1 !! i = Some z → MemStore.zones d !! i = Some z.
Proof. by intros [? _]%map_lookup_filter_Some. Qed.

Lemma import_kept_trans w1 w2 w3 : confined w1 w2 → confined w2 w3 → confined w1 w3.
Proof.
  intros [B1 _ O1 Z1 S1 M1 A1] [_ A O2 Z2 S2 M2 A2]. constructor; [done|done|..].
  - intros t Ht. rewrite O2, O1; done.
  - intros k z Hz. destruct (Z1 k z Hz) as (y & Hy & Dy). destruct (Z2 k y Hy) as (x & Hx & Dx).
    exists x. eauto using described_trans.
  - assert (Hback : ∀ k, (∀ i y, MemStore.zones (wdb w2) !! i = Some y → PDNSID y = k → TenantID y = tgt) →
                         ∀ i y, MemStore.zones (wdb w1) !! i = Some y → PDNSID y = k → TenantID y = tgt).
    { intros k Hk i y Hy Hp. destruct (Z1 i y Hy) as (y' & Hy' & E). specialize (Hk i y' Hy').
      rewrite E in Hk. exact (Hk Hp). }
    intros k. unfold entry_kept in *. destruct (S2 k) as [E2|(pz & Hz & E2 & Ho & Hr)]; destruct (S1 k) as [E1|(pz1 & Hz1 & E1 & Ho1 & Hr1)].
    + left. congruence.
    + right. exists pz1. rewrite E2. auto.
    + right. exists pz. rewrite <- E1. eauto.
    + right. exists pz1. split; [done|]. split; [|done]. rewrite E1 in Hz. injection Hz as <-. by rewrite E2.
  - auto.
  - intros Ha. destruct (A1 Ha), (A2 Ha). split; congruence.
Qed.

Lemma same_confined w w' : inv w → same w w' → confined w w'.
Proof.
  intros [Hi Hv] Hs. pose proof (same_inv _ _ Hs Hi) as Hi'. destruct Hs as (Hd & Hsv & _).
  constructor; unfold entry_kept; rewrite ?Hd, ?Hsv; auto; [done|by split; [|rewrite Hsv]|].
  intros k z Hz. eauto using described_refl.
Qed.
Lemma import_kept_refl w : inv w → confined w w.
Proof. intros Hi. by apply same_confined. Qed.

(** A write to the target's templates or supermasters. *)
Lemma write_confined w w' :
  inv w → (wok w → wok w') → wsrv w' = wsrv w → wdb w' = wdb w ∨ MemStore.tenant_step tgt (wdb w) (wdb w') →
  MemStore.sync (wdb w') = MemStore.sync (wdb w) → MemStore.zones (wdb w') = MemStore.zones (wdb w) →
  (admin = false → MemStore.supermasters (wdb w') = MemStore.supermasters (wdb w)) → confined w w'.
Proof.
  intros [Hi Hv] Hok Hs Hd Hsy Hz Hsm. destruct Hd as [Hd|Hd]; [apply same_confined; by split_and!|].
  assert (Hwf : MemStore.db_wf (wdb w')) by (eapply MemStore.db_step_wf; [by eapply MemStore.ds_tenant|apply Hi]).
  constructor; unfold entry_kept; rewrite ?Hs; auto; [done|..].
  - split; [|by rewrite Hs]. apply (zones_same_inv w w'); [done|apply Hok, Hi|done|by rewrite Hz].
  - intros t Ht. apply (MemStore.tenant_step_rows tgt); [by right|done|apply Hi|done].
  - intros k z. rewrite Hz. eauto using described_refl.
Qed.

(** *** Steps *)

(** A failure that ends an import is the store's or the server's. *)
Definition broken (e : error) : Prop := MemStore.fault e ∨ Pdns.fault e.
Definition kept_zones w w' : Prop :=
  MemStore.zones (wdb w') = MemStore.zones (wdb w) ∧ Pdns.zones (wsrv w') = Pdns.zones (wsrv w).
Definition outcome (n : Z) (c : str) (r : Result) (x : Result * option error) : Prop :=
  match x.2 with None => tallied n c r x.1 | Some e => broken e end.
Definition stepped (keep : bool) (n : Z) (c : str) (f : Step) : Prop :=
  ∀ r w x w', inv w → f r w = (x, w') → confined w w' ∧ (keep = true → kept_zones w w') ∧ outcome n c r x.

Lemma each_stepped {A} keep c (f : A → Step) l :
  Forall (λ x, stepped keep 1 c (f x)) l → stepped keep (Z.of_nat (length l)) c (each f l).
Proof.
  induction 1 as [|y l Hy _ IH]; intros r w x w' Hi H.
  { injection H as <- <-. split; [by apply import_kept_refl|]. split; [done|]. apply tallied_none. }
  cbn [each] in H. run_bind H a w1 E. destruct a as [r1 [e|]]; apply Hy in E as (C1 & K1 & O1); [|done| |done].
  - by injection H as <- <-.
  - apply IH in H as (C2 & K2 & O2); [|apply C1]. split; [by eapply import_kept_trans|]. split.
    + intros Hk. destruct (K1 Hk), (K2 Hk). split; congruence.
    + unfold outcome in *. simpl in O1. destruct (x.2); [done|]. rewrite length_cons.
      replace (Z.of_nat (Datatypes.S (length l))) with (1 + Z.of_nat (length l)) by lia. by eapply tallied_trans.
Qed.

(** A store write that leaves the zones alone. *)
Definition plain_write {A} (core : MemStore.DB → res A * MemStore.DB) : Prop := ∀ d,
  MemStore.tenant_step tgt d (core d).2 ∧ MemStore.sync (core d).2 = MemStore.sync d ∧ MemStore.zones (core d).2 = MemStore.zones d ∧
  (admin = false → MemStore.supermasters (core d).2 = MemStore.supermasters d) ∧
  ∀ e, (core d).1 = Err e → Is e RepoErrConflict || Is e RepoErrNotFound = true.

Lemma plain_write_run {A} op core (r : res A) w w' :
  faithful (λ _, True) MemStore.repo_db MemStore.fault op core → plain_write core → inv w → on_store op w = (r, w') →
  confined w w' ∧ kept_zones w w' ∧ wsrv w' = wsrv w ∧
  ∀ e, r = Err e → ((core (wdb w)).1 = Err e ∧ Is e RepoErrConflict || Is e RepoErrNotFound = true) ∨ MemStore.fault e.
Proof.
  intros Hf Hp Hi H. destruct (on_store_run _ _ _ _ _ Hf H) as (Hs & Hok & _ & Hd).
  destruct Hd as [(e & -> & He & Hd)|Hd].
  - split; [by apply same_confined|]. split; [by split; congruence|]. split; [done|]. intros e' [= <-]. by right.
  - destruct (Hp (wdb w)) as (Ht & Hsy & Hz & Hsm & He). rewrite Hd in *. cbn [fst snd] in *.
    split; [apply write_confined; auto|]. split; [by split; congruence|]. split; [done|]. auto.
Qed.

Lemma settled_outcome {A} c (x y : res A) r :
  (∀ e, x = Err e → (y = Err e ∧ Is e RepoErrConflict || Is e RepoErrNotFound = true) ∨ MemStore.fault e) → outcome 1 c r (settled c (err_of x) r).
Proof.
  intros H. unfold settled, outcome. destruct x as [a|e]; simpl; [auto with dns|].
  destruct (H e eq_refl) as [[_ ->] |He]; simpl; [by apply tallied_skipped|].
  destruct (MemStore.fault_kinds e He) as [-> ->]. simpl. by left.
Qed.

Lemma plain_create_template t : TplTenantID t = tgt → plain_write (MemStore.create_template t).
Proof.
  intros Ht d. split; [by constructor|]. unfold MemStore.create_template. destruct (_ || _); simpl; split_and!; try done. by intros e [= <-].
Qed.
Lemma template_not_found t i d e : MemStore.template t i d = Err e → Is e RepoErrNotFound = true.
Proof. unfold MemStore.template. repeat case_match; intros [= <-]; done. Qed.
Lemma plain_update_template t : TplTenantID t = tgt → plain_write (MemStore.update_template t).
Proof.
  intros Ht d. split; [by constructor|]. unfold MemStore.update_template.
  destruct (MemStore.template _ _ d) as [x|e] eqn:E; [case_match|]; simpl; split_and!; try done; intros ? [= <-]; [done|].
  apply template_not_found in E as ->. apply orb_true_r.
Qed.
Lemma plain_delete_template i : plain_write (MemStore.delete_template tgt i).
Proof.
  intros d. split; [by constructor|]. unfold MemStore.delete_template.
  destruct (MemStore.template _ _ d) as [x|e] eqn:E; simpl; split_and!; try done. intros ? [= <-].
  apply template_not_found in E as ->. apply orb_true_r.
Qed.

Lemma wipe_one_stepped t : stepped true 0 CTemplates (wipe_one tgt t).
Proof.
  intros r w x w' Hi H. unfold wipe_one in H. run_bind H y w1 E. injection H as <- <-.
  apply (plain_write_run _ _ _ _ _ (MemStore.repo_DeleteTemplate_ok _ _) (plain_delete_template _)) in E as (C & K & _ & E); [|done].
  split; [done|]. split; [done|]. unfold outcome. simpl. destruct y as [a|e]; [apply tallied_none|].
  destruct (Is e RepoErrNotFound) eqn:En; [apply tallied_none|]. destruct (E e eq_refl) as [[Hc _]|Hf]; [|by left].
  unfold MemStore.delete_template in Hc. destruct (MemStore.template _ _ _) eqn:Et; [done|]. injection Hc as ->.
  apply template_not_found in Et. congruence.
Qed.

Lemma wipeTemplates_stepped : stepped true 0 CTemplates (wipeTemplates tgt).
Proof.
  intros r w x w' Hi H. unfold wipeTemplates in H. run_bind H y w1 E.
  apply (on_store_read _ _ _ _ _ (MemStore.repo_AllTemplates_ok _)) in E as (Hs & _ & E). pose proof (same_confined _ _ Hi Hs) as C.
  destruct y as [l|e].
  - assert (Hl : ∀ r w x w', inv w → each (wipe_one tgt) l r w = (x, w') → confined w w' ∧ kept_zones w w' ∧ outcome 0 CTemplates r x).
    { clear. induction l as [|t l IH]; intros r w x w' Hi H.
      - injection H as <- <-. split; [by apply import_kept_refl|]. split; [done|]. apply tallied_none.
      - cbn [each] in H. run_bind H a w1 E. apply wipe_one_stepped in E as (C1 & K1 & O1); [|done]. specialize (K1 eq_refl).
        destruct a as [r1 [e|]]; [by injection H as <- <-|]. apply IH in H as (C2 & K2 & O2); [|apply C1].
        split; [by eapply import_kept_trans|]. split; [destruct K1, K2; split; congruence|].
        unfold outcome in *. destruct (x.2); [done|]. by apply (tallied_trans 0 0 _ r r1). }
    apply Hl in H as (C2 & K2 & O2); [|apply C]. split; [by eapply import_kept_trans|]. split; [|done]. intros _.
    destruct Hs as (Hd & Hs & _), K2. split; congruence.
  - injection H as <- <-. split; [done|]. split; [destruct Hs as (Hd & Hs & _); split; congruence|].
    destruct E as [(e' & [= ->] & Hf)|E]; [by left|done].
Qed.

Lemma template_stepped t : stepped true 1 CTemplates (template tgt mode t).
Proof.
  intros r w x w' Hi H. unfold template in H. run_bind H y w1 E.
  apply (on_store_read _ _ _ _ _ (MemStore.repo_GetTemplate_ok _ _)) in E as (Hs & _ & E).
  pose proof (same_confined _ _ Hi Hs) as C. assert (K : kept_zones w w1) by (destruct Hs as (Hd & Hs & _); split; congruence).
  assert (Hw : ∀ A op core (z : res A) w2, faithful (λ _, True) MemStore.repo_db MemStore.fault op core → plain_write core →
    on_store op w1 = (z, w2) → confined w w2 ∧ (true = true → kept_zones w w2) ∧ outcome 1 CTemplates r (settled CTemplates (err_of z) r)).
  { intros A op core z w2 Hf Hp Hz. apply (plain_write_run _ _ _ _ _ Hf Hp) in Hz as (C2 & K2 & _ & E2); [|apply C].
    split; [by eapply import_kept_trans|]. split; [intros _; destruct K, K2; split; congruence|]. by eapply settled_outcome. }
  destruct y as [cur|e].
  - destruct (negb _); [injection H as <- <-; split; [done|]; split; [done|]; apply tallied_skipped|].
    unfold now, mbind at 1, M_bind at 1 in H. run_bind H z w2 E2. injection H as <- <-.
    apply (Hw _ _ _ _ _ (MemStore.repo_UpdateTemplate_ok _)) in E2; [done|]. by apply plain_update_template.
  - destruct (Is e RepoErrNotFound) eqn:En.
    + unfold now, mbind at 1, M_bind at 1 in H. run_bind H z w2 E2. injection H as <- <-.
      apply (Hw _ _ _ _ _ (MemStore.repo_CreateTemplate_ok _)) in E2; [done|]. by apply plain_create_template.
    + injection H as <- <-. split; [done|]. split; [done|]. destruct E as [(e' & [= ->] & Hf)|E]; [by left|].
      symmetry in E. apply template_not_found in E. congruence.
Qed.

(** *** Zones *)

Context (Htgt : tgt ≠ []).

Lemma set_zones_confined w w' :
  inv w → zinv w' → wsrv w' = wsrv w → MemStore.tenant_step tgt (wdb w) (wdb w') →
  MemStore.sync (wdb w') = MemStore.sync (wdb w) → MemStore.supermasters (wdb w') = MemStore.supermasters (wdb w) →
  (∀ k z, MemStore.zones (wdb w) !! k = Some z → ∃ z', MemStore.zones (wdb w') !! k = Some z' ∧ described z z') → confined w w'.
Proof.
  intros [Hi Hv] Hi' Hs Hd Hsy Hsm Hz. constructor; unfold entry_kept; rewrite ?Hs; auto; [done|by split; [|rewrite Hs]|].
  intros t Ht. apply (MemStore.tenant_step_rows tgt); [by right|done|apply Hi|done].
Qed.

Lemma row_insert_confined w w' z :
  inv w → wok w' → wsrv w' = wsrv w → MemStore.create_zone z (wdb w) = (Ok (), wdb w') → row_ok z → TenantID z = tgt →
  MemStore.zone_conflict tgt (Name z) (wdb w) = false → confined w w'.
Proof.
  intros Hi Hok Hs Hc Hrow Ht Hfree. pose proof (MemStore.ts_create_zone tgt (wdb w) z Ht) as Hstep. rewrite Hc in Hstep.
  assert (Hi' : zinv w').
  { apply (insert_inv w w' z); [apply Hi|done..| |done]. rewrite Ht. eapply conflict_free; [apply Hrow|done]. }
  destruct (MemStore.create_zone_cases z (wdb w)) as [(Ec & Hn & _)|Ec]; rewrite Ec in Hc; [|done]. injection Hc as Hd.
  apply set_zones_confined; try done; rewrite <- Hd; [done..|]. simpl. intros k y Hy. exists y.
  rewrite lookup_insert_ne; [auto using described_refl|]. congruence.
Qed.

Lemma row_describe_confined w w' z desc n :
  inv w → wok w' → wsrv w' = wsrv w → MemStore.zones (wdb w) !! ID z = Some z → TenantID z = tgt →
  wdb w' = (MemStore.update_zone (mkZone (ID z) (TenantID z) (Name z) (PDNSID z) (Kind z) (Masters z) (DNSSEC z) desc (TemplateID z)
             (Origin z) (Nameservers z) (CreatedBy z) (CreatedAt z) n) (wdb w)).2 → confined w w'.
Proof.
  intros Hi Hok Hs Hz Ht Hd.
  match type of Hd with _ = (MemStore.update_zone ?z' _).2 => pose proof (MemStore.ts_update_zone tgt (wdb w) z' Ht) as Hstep;
    pose proof (MemStore.update_zone_wf z' (wdb w) (zi_db _ (proj1 Hi))) as Hwf end.
  rewrite <- Hd in Hstep, Hwf. unfold MemStore.update_zone in Hd. cbn [TenantID ID] in Hd.
  rewrite (proj2 (MemStore.zone_Ok _ _ _ _) (conj Hz eq_refl)) in Hd. cbn [snd ID] in Hd.
  apply set_zones_confined; try done; rewrite ?Hd; [|done..|].
  - destruct (zi_rows _ (proj1 Hi) _ _ Hz) as (Hp & Hk & Hn). eapply (update_inv w w' (ID z) z); [apply Hi|done..| | | | |by rewrite Hd]; done.
  - simpl. intros k y Hy. destruct (decide (k = ID z)) as [->|Hk]; [|exists y; rewrite lookup_insert_ne; auto using described_refl].
    rewrite Hz in Hy. injection Hy as <-. eexists. split; [apply lookup_insert_eq|]. done.
Qed.

Lemma adopt_confined w w' k pz z i :
  inv w → wok w' → wdb w' = wdb w → Pdns.zones (wsrv w) !! k = Some pz → ownAccount tgt origin (Pdns.PAccount pz) = true →
  wsrv w' = Pdns.mkServer (<[k := adopted tgt pz]> (Pdns.zones (wsrv w))) (Pdns.supermasters (wsrv w)) →
  MemStore.zones (wdb w) !! i = Some z → TenantID z = tgt → PDNSID z = k → confined w w'.
Proof.
  intros [Hi Hv] Hok Hd Hpz Ho Hs Hz Ht Hp. constructor; rewrite ?Hd, ?Hs; auto; [done| | |].
  - split; [apply (zones_same_inv w w'); rewrite ?Hd; [done..|apply Hi|done]|]. rewrite Hs. unfold Pdns.server_wf. simpl.
    apply map_Forall_insert_2; [|done]. exact (Hv k pz Hpz).
  - intros k' y Hy. eauto using described_refl.
  - intros k'. unfold entry_kept. rewrite Hs. simpl. destruct (decide (k' = k)) as [->|Hk]; [|left; by rewrite lookup_insert_ne].
    right. exists pz. rewrite lookup_insert_eq. split_and!; try done. intros j y Hy Hyp.
    assert (j = i) as -> by (apply (MemStore.wf_zone_uniq _ (zi_db _ Hi) j i y z); [done..|]; right; congruence). congruence.
Qed.

(** What the checks of a document leave of a zone. *)
Definition zone_doc (z : Zone) : Prop := Validate.ZoneName (Name z) = Ok (Name z) ∧ ValidKind (Kind z) = true.

Lemma KindFromPDNS_valid k : KindFromPDNS k ≠ [] → ValidKind (KindFromPDNS k) = true.
Proof. unfold KindFromPDNS. by destruct (ValidKind (ToLower k)) eqn:E. Qed.

Lemma linked_row z live n tplID :
  zone_doc z → Pdns.PID live = Name z ∨ Pdns.PID live = [] → row_ok (linked tgt z live n tplID).
Proof.
  intros [Hn Hk] Hp. unfold row_ok, linked. simpl. split_and!.
  - case_bool_decide; [done|]. by destruct Hp.
  - case_bool_decide; [done|]. by apply KindFromPDNS_valid.
  - eexists. by apply Validate.ZoneName_canonical.
Qed.

Lemma get_zone_by_name_Ok t name d z :
  MemStore.get_zone_by_name t name d = Ok z → ∃ k, MemStore.zones d !! k = Some z ∧ TenantID z = t ∧ Name z = name.
Proof.
  unfold MemStore.get_zone_by_name. destruct (find_first _ _) as [x|] eqn:E; [|done]. intros [= ->].
  apply find_first_Some in E as [[k Hk]%elem_of_values_of Hp]. b2p. naive_solver.
Qed.
Lemma get_zone_by_name_Err t name d e :
  MemStore.get_zone_by_name t name d = Err e → Is e RepoErrNotFound = true ∧
  ∀ k z, MemStore.zones d !! k = Some z → TenantID z = t → Name z ≠ name.
Proof.
  unfold MemStore.get_zone_by_name. destruct (find_first _ _) as [x|] eqn:E; [done|]. intros [= <-]. split; [done|].
  rewrite find_first_None, Forall_forall in E. intros k z Hz Ht Hn.
  specialize (E z (proj2 (elem_of_values_of _ _) (ex_intro _ k Hz))). simpl in E. b2p. naive_solver.
Qed.

(** The account written back is the only change of the server's zone. *)
Lemma adopt_srv k pz v r v' :
  Pdns.zones v !! k = Some pz →
  Pdns.on_zones (Pdns.update_zone_metadata k (Pdns.mkZone [] [] (Pdns.PKind (Pdns.cloneZone pz)) 0 0
    (Pdns.PMasters (Pdns.cloneZone pz)) (Pdns.PDNSSEC (Pdns.cloneZone pz)) [] tgt [])) v = (r, v') →
  v' = Pdns.mkServer (<[k := adopted tgt pz]> (Pdns.zones v)) (Pdns.supermasters v).
Proof.
  intros Hk. unfold Pdns.on_zones, Pdns.update_zone_metadata, Pdns.lookup_zone. rewrite Hk. cbn [Pdns.cloneZone Pdns.PKind Pdns.PMasters Pdns.PDNSSEC Pdns.PAccount].
  rewrite (bool_decide_eq_false_2 (tgt = [])) by done. intros [= _ <-]. unfold adopted. by case_bool_decide as E.
Qed.

Lemma template_link_same z w x w' :
  (if bool_decide (TemplateID z = []) then mret []
   else g ← on_store (MemStore.repo_GetTemplate tgt (TemplateID z)); mret match g with Ok _ => TemplateID z | Err _ => [] end) w = (x, w') →
  same w w'.
Proof.
  case_bool_decide; intros E; [by injection E as _ <-|]. run_bind E g w1 E1. injection E as _ <-.
  by apply (on_store_read _ _ _ _ _ (MemStore.repo_GetTemplate_ok _ _)) in E1 as [? _].
Qed.

Lemma link_run z pz r w x w' :
  inv w → zone_doc z → Pdns.zones (wsrv w) !! Name z = Some pz → ownAccount tgt origin (Pdns.PAccount pz) = true →
  MemStore.zone_conflict tgt (Name z) (wdb w) = false → link tgt z (Pdns.cloneZone pz) r w = (x, w') →
  confined w w' ∧ outcome 1 CZones r x ∧ MissingInPDNS x.1 = MissingInPDNS r ∧
  (x.2 = None → ∃ n tplID, wdb w' = (MemStore.create_zone (linked tgt z (Pdns.cloneZone pz) n tplID) (wdb w)).2).
Proof.
  intros Hi Hdoc Hpz Hown Hfree H. unfold link in H. unfold now, mbind at 1, M_bind at 1 in H. run_bind H tplID w1 E1.
  apply template_link_same in E1. pose proof (same_confined _ _ Hi E1) as C1. destruct E1 as (Hd1 & Hs1 & Hok1).
  assert (Hid : Pdns.PID pz = Name z) by (by destruct (proj2 Hi _ _ Hpz)).
  assert (Hrow : row_ok (linked tgt z (Pdns.cloneZone pz) (w_now w) tplID)) by (apply linked_row; auto).
  set (z0 := linked _ _ _ _ _) in *. run_bind H c w2 E2. pose proof E2 as E2'.
  apply (on_store_run _ _ _ _ _ (MemStore.repo_CreateZone_ok _)) in E2 as (Hs2 & Hok2 & _ & E2). rewrite Hd1 in E2. destruct c as [[]|e].
  - destruct E2 as [(? & ? & _)|E2]; [done|].
    assert (C2 : confined w w2) by (apply (row_insert_confined w w2 z0); auto; [by apply Hok2, Hok1, Hi|congruence]).
    assert (Hz0 : MemStore.zones (wdb w2) !! ID z0 = Some (MemStore.stored z0 (wdb w))).
    { destruct (MemStore.create_zone_cases z0 (wdb w)) as [(Ec & _)|Ec]; rewrite Ec in E2; [|done]. injection E2 as <-. apply lookup_insert_eq. }
    run_bind H u w3 E3. injection H as <- <-. cbn [fst snd]. assert (Hn0 : PDNSID z0 = Name z) by apply Hrow.
    assert (confined w w3 ∧ wdb w3 = wdb w2) as [C3 Hd3].
    { case_bool_decide; [by injection E3 as _ <-|]. rewrite Hn0 in E3.
      apply (on_pdns_run _ _ _ _ _ (Pdns.pdns_UpdateZoneMetadata_ok _ _)) in E3 as (Hd3 & Hok3 & E3); [|apply (cf_after _ _ C2)].
      split; [|done]. apply (import_kept_trans w w2 w3 C2). destruct E3 as [(_ & _ & _ & Hs3)|E3].
      - apply same_confined; [apply C2|]. by split_and!.
      - apply (adopt_srv _ pz) in E3; [|congruence]. eapply (adopt_confined w2 w3 (Name z) pz _ (ID z0)); try done; [apply C2|congruence]. }
    split; [done|]. split; [apply tallied_imported|]. split; [done|]. intros _. exists (w_now w), tplID. fold z0. by rewrite E2.
  - injection H as <- <-. destruct E2 as [(e' & [= <-] & He & Hd2)|E2].
    + destruct (MemStore.fault_kinds e He) as [_ ->]. split; [apply same_confined; [done|split_and!; [congruence..|auto]]|]. split; [by left|]. split; [done|]. done.
    + destruct (MemStore.create_zone_cases z0 (wdb w)) as [(Ec & _)|Ec]; rewrite Ec in E2; [done|]. injection E2 as <- Hd2.
      split; [apply same_confined; [done|split_and!; [congruence..|auto]]|]. split; [apply tallied_skipped|]. split; [done|].
      intros _. exists (w_now w), tplID. fold z0. by rewrite Ec.
Qed.

(** A row is restored when the server has the zone, its account allows it and no
    other tenant is in the way: it is there already, or it is linked. *)
Definition restorable (onServer : list str) (z : Zone) (pz : Pdns.Zone) w : Prop :=
  existsb (λ n, bool_decide (ToLower n = Name z)) onServer = true ∧ Pdns.zones (wsrv w) !! Name z = Some pz ∧
  ownAccount tgt origin (Pdns.PAccount pz) = true ∧ MemStore.zone_conflict tgt (Name z) (wdb w) = false.
Definition restored_row (z : Zone) (pz : Pdns.Zone) w w' : Prop :=
  (∃ k y, MemStore.zones (wdb w) !! k = Some y ∧ TenantID y = tgt ∧ Name y = Name z ∧ wdb w' = wdb w) ∨
  ((∀ k y, MemStore.zones (wdb w) !! k = Some y → TenantID y = tgt → Name y ≠ Name z) ∧
   ∃ n tplID, wdb w' = (MemStore.create_zone (linked tgt z (Pdns.cloneZone pz) n tplID) (wdb w)).2).

Lemma import_zone_run onServer row r w x w' :
  inv w → zone_doc (RowZone row) → zone tgt origin mode onServer row r w = (x, w') →
  confined w w' ∧ outcome 1 CZones r x ∧
  (x.2 = None → mode ≠ ModeOverwrite → ∀ pz, restorable onServer (RowZone row) pz w →
     MissingInPDNS x.1 = MissingInPDNS r ∧ restored_row (RowZone row) pz w w').
Proof.
  intros Hi Hdoc H. unfold zone in H. set (z := RowZone row) in *. run_bind H l w1 E1.
  apply (on_store_read _ _ _ _ _ (MemStore.repo_GetZoneByName_ok _ _)) in E1 as (S1 & _ & E1).
  pose proof (same_confined _ _ Hi S1) as C1. destruct l as [l|e].
  { destruct E1 as [(? & ? & _)|E1]; [done|]. symmetry in E1. apply get_zone_by_name_Ok in E1 as (k & Hk & Ht & Hn).
    assert (k = ID l) as -> by (symmetry; apply (MemStore.wf_zone_id _ (zi_db _ (proj1 Hi)) _ _ Hk)).
    case_bool_decide as Em; cbn [negb] in H; cycle 1.
    { injection H as <- <-. split; [done|]. split; [apply tallied_skipped|]. intros _ _ pz _. split; [done|]. left.
      exists (ID l), l. split_and!; try done. apply S1. }
    unfold now, mbind at 1, M_bind at 1 in H. run_bind H u w2 E2. injection H as <- <-. destruct S1 as (Hd1 & Hs1 & Hok1).
    apply (on_store_run _ _ _ _ _ (MemStore.repo_UpdateZone_ok _)) in E2 as (Hs2 & Hok2 & _ & E2). rewrite Hd1 in E2.
    destruct E2 as [(e & -> & He & Hd2)|E2].
    - split; [apply same_confined; [done|split_and!; [congruence..|auto]]|]. split; [by left|]. done.
    - split; [eapply (row_describe_confined w w2 l (Description z) (w_now w1)); try done; [apply Hok2, Hok1, Hi|congruence|by rewrite E2]|].
      split; [|by intros _ ?]. unfold MemStore.update_zone in E2. cbn [TenantID ID] in E2.
      rewrite (proj2 (MemStore.zone_Ok _ _ _ _) (conj Hk eq_refl)) in E2. injection E2 as <- _. apply tallied_imported. }
  destruct (Is e RepoErrNotFound) eqn:En; cbn [negb] in H; cycle 1.
  { injection H as <- <-. split; [done|]. split; [|done]. destruct E1 as [(e' & [= <-] & He)|E1]; [by left|].
    symmetry in E1. apply get_zone_by_name_Err in E1 as [? _]. congruence. }
  destruct E1 as [(e' & [= <-] & [He _]%MemStore.fault_kinds)|E1]; [congruence|]. symmetry in E1. apply get_zone_by_name_Err in E1 as [_ Hnone].
  destruct (existsb _ onServer) eqn:Eo; cbn [negb] in H; cycle 1.
  { injection H as <- <-. split; [done|]. split; [apply tallied_missing|]. intros _ _ pz (? & _). congruence. }
  run_bind H taken w2 E2. apply (on_store_read _ _ _ _ _ (MemStore.repo_ZoneConflict_ok _ _)) in E2 as (S2 & _ & E2).
  pose proof (same_trans _ _ _ S1 S2) as S12. pose proof (same_confined _ _ Hi S12) as C2. rewrite (proj1 S1) in E2.
  destruct taken as [[]|e2].
  { injection H as <- <-. split; [done|]. split; [apply tallied_skipped|]. destruct E2 as [(? & ? & _)|[= E2]]; [done|].
    intros _ _ pz (_ & _ & _ & ?). congruence. }
  2:{ injection H as <- <-. split; [done|]. split; [|done]. destruct E2 as [(? & [= <-] & ?)|?]; [by left|done]. }
  destruct E2 as [(? & ? & _)|[= E2]]; [done|]. run_bind H live w3 E3.
  apply (on_pdns_read _ _ _ _ _ (Pdns.pdns_GetZone_ok _)) in E3 as (S3 & E3); [|apply (cf_after _ _ C2)].
  pose proof (same_trans _ _ _ S12 S3) as S13. pose proof (same_confined _ _ Hi S13) as C3. rewrite (proj1 (proj2 S12)) in E3.
  unfold Pdns.get_zone, Pdns.lookup_zone in E3. destruct live as [live|e3]; cycle 1.
  { injection H as <- <-. split; [done|]. destruct (Is e3 PdnsErrNotFound) eqn:En3.
    - split; [apply tallied_missing|]. intros _ _ pz (_ & Hz & _). destruct E3 as [(? & [= <-] & [He _]%Pdns.call_fault_kinds)|E3]; [congruence|].
      by rewrite Hz in E3.
    - split; [|done]. destruct E3 as [(? & [= <-] & ?)|E3]; [by right|]. destruct (_ !! _); [done|]. injection E3 as ->. done. }
  destruct E3 as [(? & ? & _)|E3]; [done|]. destruct (Pdns.zones (wsrv w) !! Name z) as [pz|] eqn:Epz; [|done]. injection E3 as ->.
  destruct (ownAccount tgt origin _) eqn:Ea; cbn [negb] in H.
  - apply link_run in H as (C4 & O4 & Hm & H4); [|apply C3|done|rewrite (proj1 (proj2 S13)); done|done|rewrite (proj1 S13); done].
    split; [by eapply import_kept_trans|]. split; [done|]. intros Hx _ pz' (_ & Hz & _). split; [done|]. right. split; [done|].
    rewrite Epz in Hz. injection Hz as <-. rewrite <- (proj1 S13). auto.
  - injection H as <- <-. split; [done|]. split; [apply tallied_skipped|]. intros _ _ pz' (_ & Hz & Ho & _).
    rewrite Epz in Hz. injection Hz as <-. cbn [Pdns.cloneZone Pdns.PAccount] in Ea. congruence.
Qed.

(** *** Supermasters *)

Section Admin.
Context (Hadmin : admin = true).
Abbreviation sms w := (Pdns.supermasters (wsrv w)).

Lemma sms_confined w w' l :
  inv w → wok w' → wdb w' = wdb w → wsrv w' = Pdns.mkServer (Pdns.zones (wsrv w)) l → (∀ s, s ∈ sms w → s ∈ l) → confined w w'.
Proof.
  intros [Hi Hv] Hok Hd Hs Hl. constructor; unfold entry_kept; rewrite ?Hd, ?Hs; auto; [done| | |congruence].
  - split; [apply (zones_same_inv w w'); rewrite ?Hd; [done..|apply Hi|done]|by rewrite Hs].
  - intros k z Hz. eauto using described_refl.
Qed.

Lemma plain_create_supermaster s : SmTenantID s = tgt → plain_write (MemStore.create_supermaster s).
Proof.
  intros Ht d. split; [by constructor|]. unfold MemStore.create_supermaster.
  repeat case_match; simpl; split_and!; try done; try congruence; by intros ? [= <-].
Qed.

Lemma insert_present sm ns : SmTenantID sm = tgt → stepped true 1 CSupermasters (insert_supermaster sm ns true).
Proof.
  intros Ht r w x w' Hi H. unfold insert_supermaster in H. run_bind H c w1 E1.
  apply (plain_write_run _ _ _ _ _ (MemStore.repo_CreateSupermaster_ok sm)) in E1 as (C & K & _ & E1); [|by apply plain_create_supermaster|done].
  destruct c as [[]|e]; [injection H as <- <-; split_and!; [done..|apply tallied_imported]|].
  unfold mbind, M_bind in H. cbn in H. injection H as <- <-. split_and!; [done..|]. destruct (E1 e eq_refl) as [[Hc _]|He].
  - assert (Is e RepoErrConflict = true) as ->; [|apply tallied_skipped].
    unfold MemStore.create_supermaster, MemStore.Conflict in Hc. repeat case_match; simplify_eq/=; done.
  - destruct (MemStore.fault_kinds e He) as [_ ->]. by left.
Qed.

(** The entry that was just created is taken back when the store refuses the
    row. *)
Lemma insert_created sm ns (e : Pdns.Supermaster) r w0 w x w' :
  inv w0 → SmTenantID sm = tgt → wdb w = wdb w0 → wok w → wsrv w = Pdns.mkServer (Pdns.zones (wsrv w0)) (sms w0 ++ [e]) →
  Supermasters.sm_key e = (SmIP sm, ns) → (Supermasters.sm_key e ∉ map Supermasters.sm_key (sms w0)) →
  insert_supermaster sm ns false r w = (x, w') → confined w0 w' ∧ kept_zones w0 w' ∧ outcome 1 CSupermasters r x.
Proof.
  intros Hi Ht Hd Hok Hs Hkey Hnew H.
  assert (C : confined w0 w) by (eapply sms_confined; [done..|]; intros s Hs'; set_solver).
  unfold insert_supermaster in H. run_bind H c w1 E1. destruct c as [[]|e1].
  - apply (plain_write_run _ _ _ _ _ (MemStore.repo_CreateSupermaster_ok sm)) in E1 as (C1 & [K1 K1'] & _ & _); [|by apply plain_create_supermaster|apply C].
    injection H as <- <-. split; [by eapply import_kept_trans|]. split; [|apply tallied_imported]. split; [congruence|]. by rewrite K1', Hs.
  - apply (on_store_run _ _ _ _ _ (MemStore.repo_CreateSupermaster_ok sm)) in E1 as (Hs1 & Hok1 & _ & E1).
    assert (wdb w1 = wdb w0 ∧ (Is e1 RepoErrConflict = false → MemStore.fault e1)) as [Hd1 He1].
    { destruct E1 as [(e' & [= <-] & He & Hd')|E1]; [split; [congruence|done]|]. rewrite <- Hd. unfold MemStore.create_supermaster, MemStore.Conflict in E1.
      repeat case_match; simplify_eq; by split. }
    run_bind H u w2 E2. injection H as <- <-. cbn [fst snd].
    apply (on_pdns_run _ _ _ _ _ (Pdns.pdns_DeleteSupermaster_ok _ _)) in E2 as (Hd2 & Hok2 & E2); [|auto].
    assert (confined w0 w2 ∧ Pdns.zones (wsrv w2) = Pdns.zones (wsrv w0)) as [C2 K2].
    { destruct E2 as [(_ & _ & _ & Hs2)|E2].
      - split; [|by rewrite Hs2, Hs1, Hs]. eapply (sms_confined w0 w2); [done..|congruence|by rewrite Hs2, Hs1|]. set_solver.
      - unfold Pdns.on_sms in E2. rewrite Hs1, Hs in E2. cbn [Pdns.supermasters Pdns.zones] in E2.
        destruct (Pdns.delete_supermaster _ _ _) as [r0 l] eqn:Ed. injection E2 as <- Hv. apply Supermasters.delete_sm_cases in Ed.
        split; [|by rewrite <- Hv]. eapply (sms_confined w0 w2); [done..|congruence|by symmetry|]. destruct r0 as [[]|].
        + destruct Ed as (l1 & y & l2 & Hl & -> & Hy). rewrite (Supermasters.split_last _ _ _ e y Hnew Hl); [done|congruence].
        + destruct Ed as (-> & _). set_solver. }
    split; [done|]. split; [split; [congruence|done]|]. destruct (Is e1 RepoErrConflict); [apply tallied_skipped|]. left. auto.
Qed.

Lemma supermaster_not_found t i d e : MemStore.supermaster t i d = Err e → Is e RepoErrNotFound = true.
Proof. unfold MemStore.supermaster. repeat case_match; intros [= <-]; done. Qed.

Lemma supermaster_stepped live sm : stepped true 1 CSupermasters (supermaster tgt origin live sm).
Proof.
  intros r w x w' Hi H. unfold supermaster in H. unfold now, mbind at 1, M_bind at 1 in H.
  set (row := mkSupermaster _ _ _ _ _ _) in H. assert (Ht : SmTenantID row = tgt) by done. clearbody row. run_bind H g w1 E1.
  apply (on_store_read _ _ _ _ _ (MemStore.repo_GetSupermaster_ok _ _)) in E1 as (S1 & _ & E1).
  pose proof (same_confined _ _ Hi S1) as C1. assert (K1 : kept_zones w w1) by (destruct S1 as (? & ? & _); split; congruence).
  destruct g as [y|e]; [injection H as <- <-; split_and!; [done..|apply tallied_skipped]|].
  destruct (Is e RepoErrNotFound) eqn:En; cbn [negb] in H; cycle 1.
  { injection H as <- <-. split_and!; [done..|]. destruct E1 as [(? & [= <-] & ?)|E1]; [by left|].
    symmetry in E1. apply supermaster_not_found in E1. congruence. }
  destruct (scan _ _ _ _ _ _) as [[]|]; [| |injection H as <- <-; split_and!; [done..|apply tallied_skipped]].
  { apply (insert_present _ _ Ht) in H as (C2 & K2 & O2); [|apply C1]. split; [by eapply import_kept_trans|]. split; [|done].
    intros _. destruct K1, (K2 eq_refl). split; congruence. }
  run_bind H c w2 E2. apply (on_pdns_run _ _ _ _ _ (Pdns.pdns_CreateSupermaster_ok _)) in E2 as (Hd2 & Hok2 & E2); [|apply (cf_after _ _ C1)].
  destruct S1 as (Hd1 & Hs1 & Hok1). unfold Pdns.on_sms in E2. rewrite Hs1 in E2. destruct c as [[]|e2].
  - destruct E2 as [(? & ? & _)|E2]; [done|].
    destruct (Pdns.create_supermaster _ _) as [r0 l] eqn:Ec. injection E2 as -> Hv.
    apply Supermasters.create_sm_cases in Ec as [[_ ?]|(_ & Hn & ->)]; [done|].
    eapply (insert_created row _ _ r w w2) in H as (C3 & K3 & O3); [by split_and!|done|done|congruence|done|by symmetry|done|done].
  - injection H as <- <-.
    assert (wsrv w2 = wsrv w ∧ (Is e2 PdnsErrConflict = false → Pdns.fault e2)) as [Hs2 He2].
    { destruct E2 as [(? & [= <-] & He & Hs2)|E2]; [split; [congruence|done]|].
      destruct (Pdns.create_supermaster _ _) as [r0 l] eqn:Ec. injection E2 as -> Hv. unfold Pdns.create_supermaster in Ec.
      destruct (existsb _ _); simplify_eq. split; [rewrite <- Hv; by destruct (wsrv w)|intros Hx; vm_compute in Hx; discriminate]. }
    split; [apply same_confined; [done|split_and!; [congruence..|auto]]|]. split; [intros _; split; congruence|].
    destruct (Is e2 PdnsErrConflict); [apply tallied_skipped|]. right. auto.
Qed.
End Admin.

(** *** The whole import *)

(** A part of an import, with the rows it deals with per collection. *)
Definition moved (g : str → Z) (r r' : Result) : Prop :=
  RTenantID r' = RTenantID r ∧ RMode r' = RMode r ∧ ∀ c, total c r' = total c r + g c.
Definition does (g : str → Z) (f : Step) : Prop :=
  ∀ r w x w', inv w → f r w = (x, w') → confined w w' ∧ match x.2 with None => moved g r x.1 | Some e => broken e end.

Definition only (n : Z) (c c' : str) : Z := if bool_decide (c' = c) then n else 0.
Lemma outcome_moved n c r x : outcome n c r x → match x.2 with None => moved (only n c) r x.1 | Some e => broken e end.
Proof. unfold outcome. destruct (x.2); [done|]. intros (? & ? & _ & H). by split_and!. Qed.
Lemma stepped_does keep n c f : stepped keep n c f → does (only n c) f.
Proof.
  intros H r w x w' Hi E. apply H in E as (C & _ & O); [|done]. split; [done|]. by apply outcome_moved.
Qed.
Lemma and_then_does g h a b : does g a → does h b → does (λ c, g c + h c) (and_then a b).
Proof.
  intros Ha Hb r w x w' Hi H. unfold and_then in H. run_bind H y w1 E. apply Ha in E as [C1 O1]; [|done].
  destruct y as [r1 [e|]]; [by injection H as <- <-|]. apply Hb in H as [C2 O2]; [|apply C1]. split; [by eapply import_kept_trans|].
  destruct (x.2); [done|]. destruct O1 as (? & ? & O1), O2 as (? & ? & O2). split_and!; [cbn [fst] in *; congruence..|]. intros c. rewrite O2, O1. lia.
Qed.

Lemma run_zones_does zs :
  Forall (λ row, zone_doc (RowZone row)) zs → does (only (Z.of_nat (length zs)) CZones) (run_zones tgt origin mode zs).
Proof.
  intros Hdoc r w x w' Hi H. unfold run_zones in H. case_bool_decide as En.
  { subst zs. injection H as <- <-. split; [by apply import_kept_refl|apply (outcome_moved 0 _ r (r, None)), tallied_none]. }
  run_bind H names w1 E1. apply (on_pdns_read _ _ _ _ _ Pdns.pdns_ListZoneNames_ok) in E1 as (S1 & E1); [|apply Hi].
  pose proof (same_confined _ _ Hi S1) as C1. destruct names as [names|e].
  - apply (each_stepped false CZones) in H as (C2 & _ & O2); [split; [by eapply import_kept_trans|by apply outcome_moved]| |apply C1].
    eapply Forall_impl; [exact Hdoc|]. cbv beta. intros row Hrow r1 w2 x1 w3 Hi2 (C & O & _)%import_zone_run; done.
  - injection H as <- <-. split; [done|]. destruct E1 as [(? & [= <-] & ?)|?]; [by right|done].
Qed.

Lemma run_supermasters_run l r w x w' :
  inv w → run_supermasters subj tgt origin l r w = (x, w') →
  confined w w' ∧ kept_zones w w' ∧ outcome (Z.of_nat (length l)) CSupermasters r x.
Proof.
  intros Hi H. unfold run_supermasters in H. case_bool_decide as En.
  { subst l. injection H as <- <-. split; [by apply import_kept_refl|]. split; [done|apply tallied_none]. }
  destruct admin eqn:Ha; cbn [negb] in H; cycle 1.
  { injection H as <- <-. split; [by apply import_kept_refl|]. split; [done|apply tallied_skipped]. }
  run_bind H live w1 E1. apply (on_pdns_read _ _ _ _ _ Pdns.pdns_ListSupermasters_ok) in E1 as (S1 & E1); [|apply Hi].
  pose proof (same_confined _ _ Hi S1) as C1. assert (K1 : kept_zones w w1) by (destruct S1 as (? & ? & _); split; congruence).
  destruct live as [live|e].
  - apply (each_stepped true CSupermasters) in H as (C2 & K2 & O2); [|apply Forall_true; by apply supermaster_stepped|apply C1].
    split; [by eapply import_kept_trans|]. split; [|done]. destruct K1, (K2 eq_refl). split; congruence.
  - injection H as <- <-. split; [done|]. split; [done|]. destruct E1 as [(? & [= <-] & ?)|?]; [by right|done].
Qed.

Definition rows_of (b : Backup) (c : str) : Z :=
  only (Z.of_nat (length (BTemplates b))) CTemplates c + only (Z.of_nat (length (BZones b))) CZones c
  + only (Z.of_nat (length (BSupermasters b))) CSupermasters c.

Lemma run_does b full : Forall (λ row, zone_doc (RowZone row)) (BZones b) → does (rows_of b) (run subj tgt origin mode b full).
Proof.
  intros Hdoc r w x w' Hi H.
  assert (Hw : does (only 0 CTemplates) (if full then wipeTemplates tgt else λ r, mret (r, None))).
  { destruct full; [eapply stepped_does, wipeTemplates_stepped|]. intros r1 w1 x1 w2 Hi1 [= <- <-]. split; [by apply import_kept_refl|apply (outcome_moved 0 _ r1 (r1, None)), tallied_none]. }
  assert (Ht : does (only (Z.of_nat (length (BTemplates b))) CTemplates) (each (template tgt mode) (BTemplates b))).
  { eapply stepped_does, (each_stepped true), Forall_true. apply template_stepped. }
  assert (Hs : does (only (Z.of_nat (length (BSupermasters b))) CSupermasters) (run_supermasters subj tgt origin (BSupermasters b))).
  { intros r1 w1 x1 w2 Hi1 (C & _ & O)%run_supermasters_run; [|done]. split; [done|]. by apply outcome_moved. }
  pose proof (and_then_does _ _ _ _ Hw (and_then_does _ _ _ _ Ht (and_then_does _ _ _ _ (run_zones_does _ Hdoc) Hs))) as Hrun.
  apply Hrun in H as [C O]; [|done]. split; [done|]. destruct (x.2); [done|]. destruct O as (? & ? & O). split_and!; [done..|].
  intros c. rewrite O. unfold rows_of, only. repeat case_bool_decide; lia.
Qed.
End Importer.

(** ** Authorization and validation *)

Lemma check_all_Ok {A} (f : A → res unit) l : check_all f l = Ok () → Forall (λ x, f x = Ok ()) l.
Proof. induction l as [|x l IH]; cbn [check_all]; [constructor|]. intros ([] & Hx & Hl)%bind_Ok. auto. Qed.

Lemma Validate_docs b l : Validate b l = Ok () → Forall (λ row, zone_doc (RowZone row)) (BZones b).
Proof.
  unfold Validate. case_if as Ev; [done|]. intros ([] & _ & H)%bind_Ok. case_if in H as Et; [done|]. apply bind_Ok in H as ([] & H & _).
  apply check_all_Ok in H. eapply Forall_impl; [exact H|]. cbv beta. clear. intros row H. unfold check_zone in H. unfold zone_doc.
  case_if in H as E1; [done|]. case_if in H as E2; [done|]. case_if in H as E3; [done|]. apply negb_false_iff in E2.
  apply orb_false_iff in E3 as [E3%negb_false_iff _]. split; [|done].
  destruct (Validate.ZoneName _) as [n|]; [|done]. by apply bool_decide_eq_true in E2 as ->.
Qed.

(** The tenant an import acts on. *)
Definition acts_on (subj : Authz.Subjects) (opts : Options) : str :=
  if bool_decide (OTenantID opts = []) then Authz.STenantID subj else OTenantID opts.

Lemma target_Ok subj opts tgt :
  target cfg subj (OTenantID opts) = Ok tgt →
  tgt = acts_on subj opts ∧ tgt ≠ [] ∧ (Authz.IsPlatformAdmin subj = false → tgt = Authz.STenantID subj) ∧ guard cfg subj = Ok ().
Proof.
  unfold target, acts_on. intros ([] & Hg & H)%bind_Ok.
  assert (Hne : Authz.STenantID subj ≠ []) by (intros E0; unfold guard in Hg; by rewrite (bool_decide_eq_true_2 _ E0) in Hg).
  case_if in H as E; [|].
  - injection H as <-. split_and!; [|done..]. apply orb_true_iff in E as [E%bool_decide_eq_true|E%bool_decide_eq_true];
      case_bool_decide; congruence.
  - apply orb_false_iff in E as [E1 E2]. rewrite E1. apply bind_Ok in H as ([] & Ha & H). case_if in H as Eu; [done|]. injection H as <-.
    b2p. split_and!; [done..| |done]. unfold Authz.RequirePlatformAdmin in Ha. by destruct (Authz.IsPlatformAdmin subj).
Qed.

(** ** Fresh ids *)

(** Rows that differ only in what a fresh id changes. *)
Definition same_doc (row row' : ZoneRow) : Prop := Name (RowZone row') = Name (RowZone row) ∧ Kind (RowZone row') = Kind (RowZone row).

Lemma remap_zones_run tpl l w l' w' : remap_zones cfg tpl l w = (l', w') → same w w' ∧ Forall2 same_doc l l'.
Proof.
  revert w l' w'. induction l as [|row l IH]; intros w l' w' H; [by injection H as <- <-|].
  cbn [remap_zones] in H. unfold mint, mbind at 1, M_bind at 1 in H. run_bind H rest w1 E. injection H as <- <-.
  apply IH in E as [Hs Hf]. split; [|by constructor]. destruct Hs as (?&?&?). by split_and!.
Qed.
Lemma remap_templates_run tpl l w x w' : remap_templates cfg tpl l w = (x, w') → same w w' ∧ length x.1 = length l.
Proof.
  revert tpl w x w'. induction l as [|t l IH]; intros tpl w x w' H; [by injection H as <- <-|].
  cbn [remap_templates] in H. unfold mint, mbind at 1, M_bind at 1 in H. run_bind H rest w1 E. injection H as <- <-.
  apply IH in E as [(?&?&?) Hf]. split; [by split_and!|]. simpl. congruence.
Qed.
Lemma remap_supermasters_run l w x w' : remap_supermasters cfg l w = (x, w') → same w w' ∧ length x = length l.
Proof.
  revert w x w'. induction l as [|t l IH]; intros w x w' H; [by injection H as <- <-|].
  cbn [remap_supermasters] in H. unfold mint, mbind at 1, M_bind at 1 in H. run_bind H rest w1 E. injection H as <- <-.
  apply IH in E as [(?&?&?) Hf]. split; [by split_and!|]. simpl. congruence.
Qed.
Lemma remap_run b w b' w' :
  remap cfg b w = (b', w') → Forall (λ row, zone_doc (RowZone row)) (BZones b) →
  same w w' ∧ (∀ c, rows_of b' c = rows_of b c) ∧ Forall (λ row, zone_doc (RowZone row)) (BZones b').
Proof.
  intros H Hdoc. unfold remap in H. run_bind H x w1 E1. apply remap_templates_run in E1 as [S1 L1]. run_bind H y w2 E2.
  apply remap_zones_run in E2 as [S2 F2]. run_bind H u w3 E3. apply remap_supermasters_run in E3 as [S3 L3]. injection H as <- <-.
  split; [by eapply same_trans; [|eapply same_trans]|]. split.
  - intros c. unfold rows_of. simpl. by rewrite L1, L3, (Forall2_length _ _ _ F2).
  - simpl. clear - Hdoc F2. induction F2 as [|a a' l l' [Hn Hk] _ IH]; inversion Hdoc; constructor; auto. unfold zone_doc in *. by rewrite Hn, Hk.
Qed.

(** ** The import of a document *)

Definition import_mode (opts : Options) : str := if bool_decide (OMode opts = ModeOverwrite) then ModeOverwrite else ModeSkip.
(** An import that was refused before it began. *)
Definition refusal (subj : Authz.Subjects) (b : Backup) (opts : Options) (e : error) : Prop :=
  (t ← target cfg subj (OTenantID opts); if OFull opts then _ ← Authz.RequirePlatformAdmin subj; Ok t else Ok t) = Err e ∨ Validate b (cLimits cfg) = Err e.

Lemma quiet_emit subj t ty o rs ds : quiet (@emit S P R subj t ty o rs ds).
Proof. apply quiet_audit. Qed.

Lemma Import_run subj b opts w r e w' :
  Import cfg subj b opts w = ((r, e), w') →
  (same w w' ∧ r = newResult ∧ ∃ e0, e = Some e0 ∧ refusal subj b opts e0) ∨
  ∃ b' w1 w2, let tgt := acts_on subj opts in
    tgt ≠ [] ∧ (Authz.IsPlatformAdmin subj = false → tgt = Authz.STenantID subj ∧ OFull opts = false) ∧ Validate b (cLimits cfg) = Ok () ∧
    same w w1 ∧ Forall (λ row, zone_doc (RowZone row)) (BZones b') ∧ (∀ c, rows_of b' c = rows_of b c) ∧ (BTenantID b = tgt → b' = b) ∧
    run subj tgt (BTenantID b) (import_mode opts) b' (OFull opts) (mkResult tgt (import_mode opts) ∅ ∅ []) w1 = ((r, e), w2) ∧ same w2 w'.
Proof.
  intros H. unfold Import in H. destruct (t ← target cfg subj (OTenantID opts); _) as [tgt|e0] eqn:Et; cycle 1.
  { left. run_bind H u w1 E. injection H as <- <- <-. split; [|unfold refusal; eauto]. unfold refused in E.
    case_if in E as Ef; [by apply (quiet_same _ _ _ _ (quiet_emit _ _ _ _ _ _)) in E|by injection E as _ <-]. }
  destruct (Validate b (cLimits cfg)) as [[]|e0] eqn:Ev; [|left; injection H as <- <- <-; split; [done|]; split; [done|]; unfold refusal; eauto].
  apply bind_Ok in Et as (t & Ht & Hf). apply target_Ok in Ht as (-> & Hne & Ha & _).
  assert (acts_on subj opts = tgt ∧ (OFull opts = true → Authz.IsPlatformAdmin subj = true)) as [Htgt Hfull].
  { destruct (OFull opts); [|by injection Hf as ->]. apply bind_Ok in Hf as ([] & Hp & [= ->]). split; [done|]. intros _.
    unfold Authz.RequirePlatformAdmin in Hp. by destruct (Authz.IsPlatformAdmin subj). }
  right. rewrite Htgt in *. run_bind H b' w1 E1. run_bind H x w2 E2. destruct x as [r0 e1].
  run_bind H u w3 E3. injection H as -> -> ->. apply (quiet_same _ _ _ _ (quiet_emit _ _ _ _ _ _)) in E3.
  exists b', w1, w2. cbv zeta. pose proof (Validate_docs _ _ Ev) as Hdoc.
  assert (same w w1 ∧ (∀ c, rows_of b' c = rows_of b c) ∧ Forall (λ row, zone_doc (RowZone row)) (BZones b') ∧ (BTenantID b = tgt → b' = b)) as (S1 & R1 & D1 & Eb).
  { destruct (bool_decide (BTenantID b = tgt)) eqn:Eo; [by injection E1 as <- <-|]. apply bool_decide_eq_false in Eo.
    apply remap_run in E1 as (? & ? & ?); done. }
  split_and!; try done. intros Hn. split; [by apply Ha|]. destruct (OFull opts); [|done]. rewrite (Hfull eq_refl) in Hn. done.
Qed.

(** ** Restoring what was lost *)

(** A row that came back: its template link depends on the templates of the
    tenant, and it was written anew. *)
Definition like (z z' : Zone) : Prop :=
  z' = mkZone (ID z) (TenantID z) (Name z) (PDNSID z) (Kind z) (Masters z) (DNSSEC z) (Description z) (TemplateID z') (Origin z)
         (Nameservers z) (CreatedBy z) (CreatedAt z) (UpdatedAt z').
Lemma like_refl z : like z z.
Proof. by destruct z. Qed.

Lemma KindFromPDNS_PDNSKind k : ValidKind k = true → KindFromPDNS (PDNSKind k) = k.
Proof.
  intros Hk. unfold PDNSKind. rewrite Hk. unfold ValidKind, Kinds in Hk. apply contains_elem in Hk.
  rewrite !elem_of_cons, elem_of_nil in Hk. cbn [negb].
  destruct Hk as [->|[->|[->|[->|[->|[]]]]]]; by vm_compute.
Qed.

Section Restore.
Context (subj : Authz.Subjects) (tgt origin : str) (wA : W).
Context (Htgt : tgt ≠ []) (HA : inv wA).
Abbreviation dA := (wdb wA).
(** The rows of the tenant when the export was made, which the server mirrors. *)
Definition mine (z : Zone) : Prop := MemStore.zones dA !! ID z = Some z ∧ TenantID z = tgt ∧ Origin z ≠ [] ∧ CreatedAt z ≠ 0.
Definition partial w : Prop :=
  inv w ∧ (∀ k z', MemStore.zones (wdb w) !! k = Some z' → ∃ z, MemStore.zones dA !! k = Some z ∧ like z z') ∧
  (∀ z, mine z → synced z (wsrv w)).

Lemma mine_unique z k y : mine z → MemStore.zones dA !! k = Some y → Name y = Name z ∨ PDNSID y = PDNSID z → k = ID z ∧ y = z.
Proof.
  intros (Hz & _) Hy Hn. assert (k = ID z) as -> by (by apply (MemStore.wf_zone_uniq _ (zi_db _ (proj1 HA)) k (ID z) y z)).
  split; [done|]. congruence.
Qed.

Lemma mine_free z w : mine z → partial w → MemStore.zone_conflict tgt (Name z) (wdb w) = false.
Proof.
  intros (Hz & Ht & _) (_ & Hp & _). destruct (zi_rows _ (proj1 HA) _ _ Hz) as (_ & _ & s & Hs).
  unfold MemStore.zone_conflict. rewrite (Validate.canonicalZone_lower _ _ Hs), any_value_false. intros k y Hy. cbn beta.
  destruct (Hp k y Hy) as (y0 & Hy0 & E). case_bool_decide as Hyt; [done|]. cbn [negb andb].
  rewrite E. simpl. apply (zi_disjoint _ (proj1 HA) (ID z) k z y0 Hz Hy0). rewrite E in Hyt. simpl in Hyt. congruence.
Qed.

(** What a link writes for a row the server mirrors. *)
Lemma linked_like z pz n tplID d :
  mine z → in_sync z pz → Pdns.PID pz = Name z → like z (MemStore.stored (linked tgt z (Pdns.cloneZone pz) n tplID) d).
Proof.
  intros (Hz & Ht & Ho & Hc) (Hk & Hm & Hs & _) Hp. destruct (zi_rows _ (proj1 HA) _ _ Hz) as (Hpid & Hv & _).
  unfold like, MemStore.stored, linked. simpl. rewrite Hp, Hk, KindFromPDNS_PDNSKind by done. rewrite Hm, Hs, Ht, Hpid.
  destruct (ValidKind_PDNSKind _ Hv) as [Hk0 _]. rewrite (bool_decide_eq_false_2 (Kind z = [])), (bool_decide_eq_false_2 (Origin z = [])) by done.
  rewrite (bool_decide_eq_false_2 (Origin z = [])) by done. unfold MemStore.orNow, IsZero.
  rewrite (proj2 (Z.eqb_neq (CreatedAt z) 0)) by done. rewrite (proj2 (Z.eqb_neq (CreatedAt z) 0)) by done.
  f_equal; by case_bool_decide.
Qed.

Lemma entry_kept_synced z w w' : mine z → (∀ k, entry_kept tgt origin w w' k) → synced z (wsrv w) → synced z (wsrv w').
Proof.
  intros (_ & Ht & _) Hk (pz & Hz & Hi). destruct (Hk (PDNSID z)) as [E|(pz0 & Hz0 & E & _)].
  - exists pz. by rewrite E.
  - exists (adopted tgt pz0). split; [done|]. rewrite Hz in Hz0. injection Hz0 as <-. destruct Hi as (?&?&?&?). by split_and!.
Qed.

Lemma zone_restores names row r w x w' :
  partial w → mine (RowZone row) → zone_doc (RowZone row) →
  existsb (λ n, bool_decide (ToLower n = Name (RowZone row))) names = true →
  zone tgt origin ModeSkip names row r w = (x, w') → x.2 = None →
  partial w' ∧ MissingInPDNS x.1 = MissingInPDNS r ∧ MemStore.zones (wdb w) ⊆ MemStore.zones (wdb w') ∧
  ∃ z', MemStore.zones (wdb w') !! ID (RowZone row) = Some z' ∧ like (RowZone row) z'.
Proof.
  intros Hp Hm Hdoc Hon H Hx. set (z := RowZone row) in *. pose proof Hp as (Hi & Hlike & Hsync). pose proof Hm as (Hz & Ht & _).
  destruct (Hsync z Hm) as (pz & Hpz & Hin). destruct (zi_rows _ (proj1 HA) _ _ Hz) as (Hpid & _). rewrite Hpid in Hpz.
  apply (import_zone_run subj) in H as (C & _ & H); [|done..].
  destruct (H Hx ltac:(discriminate) pz) as [Hmiss Hrow].
  { split_and!; [done..| |by apply mine_free]. destruct Hin as (_ & _ & _ & Ha). rewrite Ha. unfold ownAccount.
    fold z. rewrite Ht, (bool_decide_eq_true_2 (tgt = tgt)) by done. by rewrite orb_true_r. }
  assert (Hs' : ∀ z0, mine z0 → synced z0 (wsrv w')) by (intros z0 H0; eapply entry_kept_synced; [done|apply C|auto]).
  destruct Hrow as [(k & y & Hy & Hyt & Hyn & Hd)|[Hnone (n & tplID & Hd)]].
  - rewrite Hd. destruct (Hlike k y Hy) as (y0 & Hy0 & E). assert (Hn0 : Name y0 = Name z) by (rewrite E in Hyn; exact Hyn).
    destruct (mine_unique z k y0 Hm Hy0 (or_introl Hn0)) as [-> ->].
    split; [split; [apply C|]; rewrite Hd; by split|]. split; [done|]. split; [done|]. by exists y.
  - set (z0 := linked _ _ _ _ _) in *.
    assert (Hz0 : PDNSID z0 = Name z).
    { subst z0. simpl. destruct (proj2 Hi _ _ Hpz) as (Hpp & _). rewrite Hpp. by case_bool_decide. }
    destruct (MemStore.create_zone_fresh z0 (wdb w)) as [Ec Hf].
    { intros k y Hy. destruct (Hlike k y Hy) as (y0 & Hy0 & E).
      assert (Hno : ¬ (Name y0 = Name z ∨ PDNSID y0 = PDNSID z)).
      { intros Hc. destruct (mine_unique z k y0 Hm Hy0 Hc) as [-> ->]. apply (Hnone (ID z) y Hy); rewrite E; [done|]. done. }
      rewrite E, Hz0. cbn [ID Name PDNSID]. split_and!; [|intros Hc; apply Hno; by left|intros Hc; apply Hno; right; congruence].
      intros ->. apply Hno. left. change (ID z0) with (ID z) in Hy0. congruence. }
    rewrite Ec in Hd. cbn [snd] in Hd. change (ID z0) with (ID z) in *. rewrite Hd. cbn [MemStore.set_zones MemStore.zones].
    pose proof (linked_like z pz n tplID (wdb w) Hm Hin ltac:(by destruct (proj2 Hi _ _ Hpz))) as Hl.
    split; [split; [apply C|]; rewrite Hd; split; [|done]|split; [done|]; split; [by apply insert_subseteq|]].
    + intros k y. cbn [MemStore.set_zones MemStore.zones]. rewrite lookup_insert_Some. intros [[<- <-]|[_ Hy]]; [by exists z|by apply Hlike].
    + eexists. split; [apply lookup_insert_eq|done].
Qed.

Lemma zones_restored names rows r w x w' :
  partial w →
  Forall (λ row, mine (RowZone row) ∧ zone_doc (RowZone row) ∧ existsb (λ n, bool_decide (ToLower n = Name (RowZone row))) names = true) rows →
  each (zone tgt origin ModeSkip names) rows r w = (x, w') → x.2 = None →
  partial w' ∧ MissingInPDNS x.1 = MissingInPDNS r ∧ MemStore.zones (wdb w) ⊆ MemStore.zones (wdb w') ∧
  Forall (λ row, ∃ z', MemStore.zones (wdb w') !! ID (RowZone row) = Some z' ∧ like (RowZone row) z') rows.
Proof.
  intros Hp Hr. revert r w Hp. induction Hr as [|row rows (Hm & Hdoc & Hon) _ IH]; intros r w Hp H Hx; [by injection H as <- <-|].
  cbn [each] in H. run_bind H y w1 E. destruct y as [r1 [e|]]; [by injection H as <- <-|].
  apply zone_restores in E as (P1 & M1 & Sub1 & z' & Hz' & Hl); [|done..]. apply IH in H as (P2 & M2 & Sub2 & F2); [|done..].
  split_and!; [done|by rewrite M2|by etrans|]. constructor; [|done]. exists z'. split; [|done]. by eapply lookup_weaken.
Qed.

Lemma kept_partial w w' : partial w → confined subj tgt origin w w' → kept_zones w w' → partial w'.
Proof.
  intros (Hi & Hl & Hs) C [Kz Ks]. split; [apply C|]. unfold synced. rewrite Kz, Ks. done.
Qed.

Lemma and_then_None (f g : Step) r w x w' :
  and_then f g r w = (x, w') → x.2 = None → ∃ r1 w1, f r w = ((r1, None), w1) ∧ g r1 w1 = (x, w').
Proof.
  unfold and_then. intros H Hx. run_bind H y w1 E. destruct y as [r1 [e|]]; [by injection H as <- <-|]. eauto.
Qed.

(** The names of the server's zones include every zone of the tenant. *)
Lemma mine_listed z w : mine z → partial w →
  existsb (λ n, bool_decide (ToLower n = Name z)) (Pdns.list_zone_names (Pdns.zones (wsrv w))) = true.
Proof.
  intros Hm (Hi & _ & Hs). destruct (Hs z Hm) as (pz & Hpz & _). destruct Hm as (Hz & _).
  destruct (zi_rows _ (proj1 HA) _ _ Hz) as (Hpid & _ & s & Hc). rewrite Hpid in Hpz.
  destruct (proj2 Hi _ _ Hpz) as (_ & Hn & _). apply existsb_exists. exists (Name z). split.
  - apply list_elem_of_In. unfold Pdns.list_zone_names. rewrite elem_of_sort_by. apply list_elem_of_fmap.
    exists (Name z, pz). split; [done|]. by apply elem_of_map_to_list.
  - apply bool_decide_eq_true. by eapply Validate.canonicalZone_lower.
Qed.

Lemma run_restores b full r w x w' :
  partial w → Forall (λ row, mine (RowZone row) ∧ zone_doc (RowZone row)) (BZones b) →
  run subj tgt origin ModeSkip b full r w = (x, w') → x.2 = None →
  MissingInPDNS x.1 = MissingInPDNS r ∧
  Forall (λ row, ∃ z', MemStore.zones (wdb w') !! ID (RowZone row) = Some z' ∧ like (RowZone row) z') (BZones b).
Proof.
  intros Hp Hrows H Hx. unfold run in H. apply and_then_None in H as (r1 & w1 & E1 & H); [|done].
  assert (partial w1 ∧ MissingInPDNS r1 = MissingInPDNS r) as [P1 M1].
  { destruct full; [|by injection E1 as <- <-]. apply (wipeTemplates_stepped subj tgt origin) in E1 as (C & K & O); [|apply Hp].
    split; [by eapply kept_partial; [| |apply K]|]. destruct O as (_ & _ & HM & _). by apply HM. }
  apply and_then_None in H as (r2 & w2 & E2 & H); [|done].
  apply (each_stepped subj tgt origin true CTemplates) in E2 as (C2 & K2 & O2);
    [|apply Forall_true; apply template_stepped|apply P1].
  assert (P2 : partial w2) by (eapply kept_partial; [exact P1|exact C2|by apply K2]).
  apply and_then_None in H as (r3 & w3 & E3 & H); [|done].
  assert (MissingInPDNS r3 = MissingInPDNS r2 ∧ partial w3 ∧
    Forall (λ row, ∃ z', MemStore.zones (wdb w3) !! ID (RowZone row) = Some z' ∧ like (RowZone row) z') (BZones b)) as (M3 & P3 & F3).
  { unfold run_zones in E3. case_bool_decide as En; [rewrite En; by injection E3 as <- <-|]. run_bind E3 names w4 E4.
    apply (on_pdns_read _ _ _ _ _ Pdns.pdns_ListZoneNames_ok) in E4 as (S4 & E4); [|apply P2].
    destruct names as [names|e]; [|done]. destruct E4 as [(? & ? & _)|[= ->]]; [done|].
    assert (P4 : partial w4) by (eapply kept_partial; [exact P2|by apply same_confined; [apply P2|]|destruct S4 as (? & ? & _); split; congruence]).
    apply zones_restored in E3 as (P5 & M5 & _ & F5); [done|done| |done]. eapply Forall_impl; [exact Hrows|]. cbv beta.
    intros row [Hm Hd]. split_and!; [done..|]. by apply mine_listed. }
  apply run_supermasters_run in H as (C6 & [K6 _] & O6); [|done|apply P3].
  unfold outcome in O6. rewrite Hx in O6. destruct O6 as (_ & _ & M6 & _), O2 as (_ & _ & M2 & _). cbn [fst] in M2. rewrite K6. split; [|done].
  rewrite M6, M3, M2, M1; done.
Qed.
End Restore.

(** ** Export *)

Definition bind_bytes (rows : list ZoneRow) : Z := foldr (λ row n, Z.of_nat (length (Bind row)) + n) 0 rows.

(** The text of a row is the zone's text on the server, or left out. *)
Definition text_ok w (row : ZoneRow) : Prop :=
  Bind row = [] ∨ Pdns.export_zone (PDNSID (RowZone row)) (Pdns.zones (wsrv w)) = Ok (Bind row).

Lemma export_rows_run budget n zs w x w' :
  wok w → 0 <= budget → export_rows budget n zs w = (x, w') →
  same w w' ∧ map RowZone x.1 = zs ∧ bind_bytes x.1 <= budget ∧ Forall (text_ok w) x.1.
Proof.
  revert budget n w x w'. induction zs as [|z zs IH]; intros budget n w x w' Hok Hb H; [by injection H as <- <-|].
  cbn [export_rows] in H. run_bind H t w1 E1. apply (on_pdns_read _ _ _ _ _ (Pdns.pdns_ExportZone_ok _)) in E1 as (S1 & E1); [|done].
  match type of H with (let '(_, _) := ?y in _) _ = _ => destruct y as [[bind budget'] n'] eqn:Ey end.
  assert (0 <= budget' ∧ Z.of_nat (length bind) + budget' <= budget ∧ text_ok w (mkZoneRow z bind)) as (Hb' & Hsum & Ht).
  { unfold text_ok. simpl. destruct t as [s|e]; [|injection Ey as <- <- _; split_and!; [done|simpl; lia|by left]].
    destruct (Z.of_nat (length s) <=? budget) eqn:El; [|injection Ey as <- <- _; split_and!; [done|simpl; lia|by left]].
    apply Z.leb_le in El. injection Ey as <- <- _. split_and!; [lia|lia|]. right. destruct E1 as [(? & ? & _)|E1]; done. }
  run_bind H rest w2 E2. injection H as <- <-. apply IH in E2 as (S2 & Hm & Hs & Hf); [|by apply S1|done]. simpl.
  split_and!; [by eapply same_trans|by rewrite Hm|lia|]. constructor; [done|]. eapply Forall_impl; [exact Hf|]. cbv beta. intros row.
  unfold text_ok. by rewrite (proj1 (proj2 S1)).
Qed.

Lemma Export_run subj t w r w' :
  wok w → Export cfg subj t w = (r, w') →
  same w w' ∧ match r with
  | Err _ => True
  | Ok b => target cfg subj t = Ok (BTenantID b) ∧ BSchemaVersion b = SchemaVersion ∧
      map RowZone (BZones b) = MemStore.tenantZones (BTenantID b) (wdb w) ∧ bind_bytes (BZones b) <= MaxBindBytes ∧ Forall (text_ok w) (BZones b) ∧
      BTemplates b = MemStore.tenantTemplates (BTenantID b) (wdb w) ∧ BSupermasters b = MemStore.tenantSupermasters (BTenantID b) (wdb w)
  end.
Proof.
  intros Hok H. unfold Export in H. destruct (target cfg subj t) as [tgt|e0] eqn:Et; cycle 1.
  { run_bind H u w1 E. injection H as <- <-. split; [|done]. unfold refused in E.
    case_if in E as Ef; [by apply (quiet_same _ _ _ _ (quiet_emit _ _ _ _ _ _)) in E|by injection E as _ <-]. }
  unfold now, mbind at 1, M_bind at 1 in H. run_bind H zs w1 E1.
  apply (on_store_read _ _ _ _ _ (MemStore.repo_ZonesForTenant_ok _)) in E1 as (S1 & _ & E1). destruct zs as [zs|e]; [|by injection H as <- <-].
  destruct E1 as [(? & ? & _)|[= ->]]; [done|]. run_bind H rows w2 E2. apply export_rows_run in E2 as (S2 & Hm & Hb & Hf); [|by apply S1|done].
  pose proof (same_trans _ _ _ S1 S2) as S12. run_bind H tpls w3 E3.
  apply (on_store_read _ _ _ _ _ (MemStore.repo_AllTemplates_ok _)) in E3 as (S3 & _ & E3).
  pose proof (same_trans _ _ _ S12 S3) as S13. destruct tpls as [tpls|e]; [|by injection H as <- <-]. destruct E3 as [(? & ? & _)|[= ->]]; [done|].
  run_bind H sms w4 E4. apply (on_store_read _ _ _ _ _ (MemStore.repo_AllSupermasters_ok _)) in E4 as (S4 & _ & E4).
  pose proof (same_trans _ _ _ S13 S4) as S14. destruct sms as [sms|e]; [|by injection H as <- <-]. destruct E4 as [(? & ? & _)|[= ->]]; [done|].
  run_bind H u w5 E5. injection H as <- <-. apply (quiet_same _ _ _ _ (quiet_emit _ _ _ _ _ _)) in E5.
  split; [by eapply same_trans|]. simpl. rewrite (proj1 S12), (proj1 S13). split_and!; try done.
  eapply Forall_impl; [exact Hf|]. intros row. unfold text_ok. by rewrite (proj1 (proj2 S1)).
Qed.

(** ** The theorems *)

(** An export is the tenant's data: when it succeeds, the caller may manage
    backups and is of the tenant or a platform administrator, the document holds
    exactly the tenant's zones, templates and supermasters, every text in it is
    the text of that zone on the server, and the texts are at most 48 MiB in all.
    An export changes neither the store nor the server. *)
Theorem Export_faithful subj t w r w' :
  wok w → Export cfg subj t w = (r, w') →
  same w w' ∧ ∀ b, r = Ok b →
    guard cfg subj = Ok () ∧ (Authz.IsPlatformAdmin subj = false → BTenantID b = Authz.STenantID subj) ∧
    (∀ z, z ∈ map RowZone (BZones b) ↔ ∃ k, MemStore.zones (wdb w) !! k = Some z ∧ TenantID z = BTenantID b) ∧
    (∀ x, x ∈ BTemplates b ↔ ∃ k, MemStore.templates (wdb w) !! k = Some x ∧ TplTenantID x = BTenantID b) ∧
    (∀ x, x ∈ BSupermasters b ↔ ∃ k, MemStore.supermasters (wdb w) !! k = Some x ∧ SmTenantID x = BTenantID b) ∧
    Forall (text_ok w) (BZones b) ∧ bind_bytes (BZones b) <= 48 * 2 ^ 20.
Proof.
  intros Hok [Hs E]%Export_run; [|done]. split; [done|]. intros b ->. destruct E as (Ht & _ & Hz & Hb & Hf & Htp & Hsm).
  apply (target_Ok subj (mkOptions [] t false)) in Ht as (_ & _ & Ha & Hg). split_and!; [done|done| | | |done|exact Hb].
  - intros z. rewrite Hz. apply elem_of_tenant.
  - intros z. rewrite Htp. apply elem_of_tenant.
  - intros z. rewrite Hsm. apply elem_of_tenant.
Qed.

Lemma Import_kept subj b opts w r e w' :
  inv w → Import cfg subj b opts w = ((r, e), w') → let tgt := acts_on subj opts in
  confined subj tgt (BTenantID b) w w' ∧ (Authz.IsPlatformAdmin subj = false → same w w' ∨ tgt = Authz.STenantID subj ∧ OFull opts = false).
Proof.
  intros Hi H tgt. apply Import_run in H as [(Hs & _)|(b' & w1 & w2 & Hne & Ha & _ & S1 & Hdoc & _ & _ & H & S2)].
  - split; [by apply same_confined|auto].
  - apply run_does in H as [C _]; [|done..|by eapply inv_same]. split; [|auto].
    eapply import_kept_trans; [by apply same_confined|]. eapply import_kept_trans; [exact C|]. apply same_confined; [apply C|done].
Qed.


(** C15: every row of the document is accounted for: an import that ends
    without an error reports each zone as imported, skipped or missing on the
    server, and each template and supermaster as imported or skipped, exactly
    once.  It ends with an error only when it was refused or the document is
    invalid, and then nothing was changed, or when the store or the server
    failed: a row that is in the way never stops it. *)
Theorem Import_accounted subj b opts w r e w' :
  inv w → Import cfg subj b opts w = ((r, e), w') →
  match e with
  | None => RTenantID r = acts_on subj opts ∧ RMode r = import_mode opts ∧
      count (Imported r) CZones + count (Skipped r) CZones + Z.of_nat (length (MissingInPDNS r)) = Z.of_nat (length (BZones b)) ∧
      count (Imported r) CTemplates + count (Skipped r) CTemplates = Z.of_nat (length (BTemplates b)) ∧
      count (Imported r) CSupermasters + count (Skipped r) CSupermasters = Z.of_nat (length (BSupermasters b))
  | Some e => refusal subj b opts e ∧ same w w' ∧ r = newResult ∨ broken e
  end.
Proof.
  intros Hi H. apply Import_run in H as [(Hs & Hr & e0 & -> & He)|(b' & w1 & w2 & Hne & _ & _ & S1 & Hdoc & Hrows & _ & H & _)]; [by left|].
  apply run_does in H as [_ H]; [|done..|by eapply inv_same]. destruct e as [e|]; [by right|]. destruct H as (? & ? & H).
  split; [done|]. split; [done|].
  assert (Ht : ∀ c, total c r = rows_of b c).
  { intros c. specialize (H c). cbn [fst] in H. rewrite <- Hrows, H. unfold total, count. cbn [Imported Skipped MissingInPDNS length].
    rewrite lookup_empty. by case_bool_decide. }
  unfold total, rows_of, only in Ht.
  pose proof (Ht CZones) as Hz. pose proof (Ht CTemplates) as Htp. pose proof (Ht CSupermasters) as Hsm. clear - Hz Htp Hsm.
  repeat match goal with H : context [bool_decide ?P] |- _ => let b := eval vm_compute in (bool_decide P) in change (bool_decide P) with b in H end.
  cbv iota in Hz, Htp, Hsm. lia.
Qed.

(** C14: a backup brings back what was lost: export a tenant whose zones the
    server mirrors; then, whatever rows of the zone table are lost while the
    server keeps its zones, importing the document ends with every zone row of
    the tenant back under its id, with its name, kind, primaries, DNSSEC flag,
    description, origin, nameservers, creator and creation time, and no zone
    reported missing; unless the import is refused, or the store or the server
    fails. *)
Theorem Export_Import_restores subj opts wA b wA' w r e w' :
  inv wA → Export cfg subj (OTenantID opts) wA = (Ok b, wA') →
  (∀ k z, MemStore.zones (wdb wA) !! k = Some z → TenantID z = acts_on subj opts → synced z (wsrv wA) ∧ Origin z ≠ [] ∧ CreatedAt z ≠ 0) →
  inv w → wsrv w = wsrv wA → MemStore.zones (wdb w) ⊆ MemStore.zones (wdb wA) → OMode opts = ModeSkip →
  Import cfg subj b opts w = ((r, e), w') →
  match e with
  | None => MissingInPDNS r = [] ∧
      ∀ k z, MemStore.zones (wdb wA) !! k = Some z → TenantID z = acts_on subj opts →
        ∃ z', MemStore.zones (wdb w') !! k = Some z' ∧ like z z'
  | Some e => refusal subj b opts e ∨ broken e
  end.
Proof.
  intros HA HE Hmine Hi Hs Hsub Hmode H. apply Export_run in HE as [_ (Ht & _ & Hz & _)]; [|apply HA].
  apply target_Ok in Ht as (Ht & Hne & _).
  apply Import_run in H as [(_ & _ & e0 & -> & He)|(b' & w1 & w2 & _ & _ & _ & S1 & Hdoc & _ & Hb & H & S2)]; [by left|].
  specialize (Hb Ht) as ->. unfold import_mode in H. rewrite Hmode in H. destruct e as [e|].
  { apply run_does in H as [_ H]; [by right|congruence|done|by eapply inv_same]. }
  assert (Hm : ∀ k z, MemStore.zones (wdb wA) !! k = Some z → TenantID z = acts_on subj opts → ID z = k ∧ mine (acts_on subj opts) wA z).
  { intros k z Hk Hzt. pose proof (MemStore.wf_zone_id _ (zi_db _ (proj1 HA)) k z Hk) as Hid. simpl in Hid. split; [done|].
    destruct (Hmine k z Hk Hzt) as (_ & ? & ?). unfold mine. by rewrite Hid. }
  assert (Hrow : ∀ z, z ∈ map RowZone (BZones b) ↔ ∃ k, MemStore.zones (wdb wA) !! k = Some z ∧ TenantID z = acts_on subj opts).
  { intros z. rewrite Hz, <- Ht. apply elem_of_tenant. }
  apply (run_restores subj _ _ wA) in H as [HM HF]; [|congruence|done| |
    |done].
  - split; [exact HM|]. intros k z Hk Hzt. destruct (Hm k z Hk Hzt) as [<- _]. rewrite (proj1 S2).
    assert (Hin : z ∈ map RowZone (BZones b)) by (apply Hrow; eauto). apply list_elem_of_fmap in Hin as (row & -> & Hin).
    rewrite Forall_forall in HF. by apply HF.
  - split; [by eapply inv_same|]. rewrite (proj1 S1), (proj1 (proj2 S1)), Hs. split.
    + intros k z' Hz'. exists z'. split; [by eapply lookup_weaken|apply like_refl].
    + intros z (Hk & Hzt & _). by destruct (Hmine _ _ Hk Hzt).
  - rewrite Forall_forall in Hdoc |- *. intros row Hin. split; [|by apply Hdoc].
    destruct (proj1 (Hrow (RowZone row))) as (k & Hk & Hzt); [apply list_elem_of_fmap; eauto|]. by apply (Hm k).
Qed.
End Spec.

(** ** A concrete module *)

Module Concrete.
#[local] Existing Instance unicode_min.
#[local] Existing Instance miekg_plain.
#[local] Existing Instance miekg_plain_laws.
#[local] Existing Instance psl_tld.
#[local] Existing Instance Content.rr_plain.
#[local] Existing Instance ZonesSpec.Concrete.no_templates.

Definition tenantA : str := "aaaaaaaa-0000-4000-8000-000000000001".
Definition tenantB : str := "bbbbbbbb-0000-4000-8000-000000000002".
Definition alice : Authz.Subjects := Authz.User tenantA "alice" [].
Definition eve : Authz.Subjects := Authz.User tenantB "eve" [].
Definition uuid (n : nat) : str := "cccccccc-0000-4000-8000-00000000000" ++ Itoa (Z.of_nat n).
Definition zcfg : Zones.Config := Zones.mkConfig None false 33554432 uuid.
Definition bcfg : Backup.Config := Backup.mkConfig None RecordSets.DefaultLimits uuid.
Definition skip : Options := mkOptions ModeSkip [] false.

(** Alice's zone, and the same server after the store lost its rows. *)
Definition worldA := (Zones.Create zcfg alice (ZonesSpec.Concrete.native "example.com") ZonesSpec.Concrete.world0).2.
Definition lose (w : World MemStore.Mem Pdns.Fake Recursor.Fake) := set_store (MemStore.NewMem 50) w.
Abbreviation lost := (lose worldA).
Definition backupA : Backup :=
  match (Export bcfg alice [] worldA).1 with Ok b => b | Err _ => mkBackup 0 0 [] [] [] [] end.

Lemma worldA_zinv : ZonesSpec.zinv worldA.
Proof.
  unfold worldA. eapply (ZonesSpec.zstep_inv zcfg tenantA ZonesSpec.Concrete.world0); [exact (ZonesSpec.zs_create zcfg tenantA _ alice _ eq_refl)|].
  apply (ZonesSpec.empty_zinv ZonesSpec.Concrete.world0 50); [apply ZonesSpec.Concrete.world0_ok|reflexivity].
Qed.
Lemma worldA_srv : wsrv worldA = (Pdns.on_zones (Pdns.create_zone (Pdns.mkZone [] "example.com." "Native" 0 0 [] false
  ["ns1.example.net." : str] tenantA [])) (Pdns.srv Pdns.NewFake)).2.
Proof. vm_compute. reflexivity. Qed.
Lemma created_wf i : Pdns.server_wf (Pdns.on_zones (Pdns.create_zone i) (Pdns.srv Pdns.NewFake)).2.
Proof. eapply Pdns.srv_step_wf; [constructor|]. apply map_Forall_empty. Qed.
Lemma worldA_wf : Pdns.server_wf (wsrv worldA).
Proof. rewrite worldA_srv. apply created_wf. Qed.
Lemma worldA_inv : inv worldA.
Proof. exact (conj worldA_zinv worldA_wf). Qed.

Lemma lose_srv w : wsrv (lose w) = wsrv w.
Proof. reflexivity. Qed.
Lemma lose_db w : wdb (lose w) = MemStore.empty_db 50.
Proof. reflexivity. Qed.
Lemma lose_inv w : inv w → inv (lose w).
Proof.
  intros [Hi Hv]. split; [|exact Hv]. apply (ZonesSpec.empty_zinv (lose w) 50); [|apply lose_db]. exact (ZonesSpec.zi_ok _ Hi).
Qed.
Lemma lost_inv : inv lost.
Proof. exact (lose_inv _ worldA_inv). Qed.

Definition rowA : Zone :=
  mkZone (uuid 0) tenantA "example.com." "example.com." "native" [] false "a zone" [] "manual" ["ns1.example.net." : str] "alice" 100 100.
Lemma worldA_zones : MemStore.zones (wdb worldA) = {[ uuid 0 := rowA ]}.
Proof. apply (bool_decide_unpack _). vm_compute. exact I. Qed.

(** The document names the tenant it was made for, and nothing checks that
    name: a tenant that is not an administrator imports a document that
    names another tenant, and takes over a server zone with that tenant's account
    which has no row. *)
Definition forged : Backup :=
  mkBackup 1 0 tenantA [mkZoneRow (mkZone (uuid 9) tenantB "example.com." [] "native" [] false [] [] [] [] [] 0 0) []] [] [].
Example import_adopts_foreign_account :
  Authz.IsPlatformAdmin eve = false ∧
  Pdns.PAccount <$> Pdns.zones (wsrv lost) !! ("example.com." : str) = Some tenantA ∧
  let '((r, e), w') := Import bcfg eve forged skip lost in
  e = None ∧ count (Imported r) CZones = 1 ∧
  map TenantID (values_of (MemStore.zones (wdb w'))) = [tenantB] ∧
  Pdns.PAccount <$> Pdns.zones (wsrv w') !! ("example.com." : str) = Some tenantB.
Proof. vm_compute. auto 10. Qed.

(** With the caller's own tenant in the document the zone is left alone. *)
Example import_keeps_foreign_account :
  let '((r, e), w') := Import bcfg eve (mkBackup 1 0 tenantB (BZones forged) [] []) skip lost in
  e = None ∧ count (Skipped r) CZones = 1 ∧ MemStore.zones (wdb w') = ∅.
Proof. vm_compute. auto. Qed.


Lemma Import_accounted_witness :
  let r := (Import bcfg eve forged skip lost).1.1 in
  count (Imported r) CZones + count (Skipped r) CZones + Z.of_nat (length (MissingInPDNS r)) = 1.
Proof.
  destruct (Import bcfg eve forged skip lost) as [[r e] w1] eqn:E.
  assert (He : e = (Import bcfg eve forged skip lost).1.2) by (rewrite E; reflexivity). vm_compute in He.
  pose proof (Import_accounted bcfg eve forged skip lost r e w1 lost_inv E) as H. subst e. cbv beta iota in H. apply H.
Defined.

Lemma Export_Import_restores_witness :
  ∃ z', MemStore.zones (wdb (Import bcfg alice backupA skip lost).2) !! uuid 0 = Some z' ∧ like rowA z'.
Proof.
  destruct (Import bcfg alice backupA skip lost) as [[r e] w1] eqn:E.
  assert (He : e = (Import bcfg alice backupA skip lost).1.2) by (rewrite E; reflexivity). vm_compute in He.
  assert (Hx : Export bcfg alice [] worldA = (Ok backupA, (Export bcfg alice [] worldA).2)) by (vm_compute; reflexivity).
  pose proof (Export_Import_restores bcfg alice skip worldA backupA _ lost r e w1 worldA_inv Hx) as H. subst e. cbv beta iota in H.
  apply H; [|apply lost_inv|apply lose_srv|rewrite lose_db; apply map_empty_subseteq|exact eq_refl|exact E|rewrite worldA_zones; apply lookup_singleton_eq|exact eq_refl].
  intros k z. rewrite worldA_zones, lookup_singleton_Some. intros [_ <-] _. split; [|split; discriminate].
  destruct (Pdns.zones (wsrv worldA) !! PDNSID rowA) as [pz|] eqn:Ez; vm_compute in Ez; [|discriminate].
  injection Ez as <-. eexists. split; [vm_compute; reflexivity|]. repeat split.
Defined.

Lemma Export_faithful_witness : map RowZone (BZones backupA) = [rowA] ∧ bind_bytes (BZones backupA) <= 48 * 2 ^ 20.
Proof.
  split; [vm_compute; reflexivity|].
  assert (Hx : Export bcfg alice [] worldA = (Ok backupA, (Export bcfg alice [] worldA).2)) by (vm_compute; reflexivity).
  destruct (Export_faithful bcfg alice [] worldA _ _ (ZonesSpec.zi_ok _ worldA_zinv) Hx) as [_ H]. by apply H.
Defined.
End Concrete.
End BackupSpec.
