(* ===== verification/Acme.v ===== *)
(** * ACME DNS-01 challenges ([internal/acmechallenge])

    The certificate service presents a value at [_acme-challenge.<domain>] and
    cleans it up again; a sweeper removes values whose clean-up never came.
    Operations on one name are serialised by a lock, so one operation is one
    step here. *)
From Stdlib Require Import Ascii.
From S2P Require Import Prelude GoStrings GoError Store Names Content Masters Authz MemStore Pdns RecordSets Recursor World Zones Records.
Local Open Scope Z_scope.

Module Acme.
Import Store.

Definition Prefix : str := "_acme-challenge.".
Definition DefaultTTL : Z := 60.
Definition sweepBatch : Z := 100.
Definition TXT : str := "TXT".
Definition ChallengePresent : str := "challenge.present".
Definition ChallengeCleanup : str := "challenge.cleanup".
Definition ChallengeRefused : str := "challenge.refused".
Definition ChallengeSwept : str := "challenge.swept".

(** The bytes of a base64url string, and the expression [valueRE]. *)
Definition b64url (c : ascii) : bool := Content.alnum c || bool_decide (c = "_"%char) || bool_decide (c = "-"%char).
Definition valueRE (v : str) : bool := bool_decide (length v = 43%nat) && forallb b64url v.

Definition hexdigit (c : ascii) : bool :=
  digit c || ((97 <=? code c) && (code c <=? 102)) || ((65 <=? code c) && (code c <=? 70)).
Definition uuidRE (s : str) : bool :=
  match SplitByte "-" s with
  | [a; b; c; d; e] =>
    bool_decide (map length [a; b; c; d; e] = [8; 4; 4; 4; 12]%nat) && forallb (forallb hexdigit) [a; b; c; d; e]
  | _ => false
  end.

Record Request := mkRequest { RqDomain : str; RqFQDN : str; RqValue : str }.

(** The canonical TXT content of a value. *)
Definition quoted (v : str) : str := dquote :: v ++ [dquote].

Section Pure.
Context {U : Unicode} {DNS : MiekgDNS}.

Definition canonical (name : str) : option str :=
  let n := Fqdn (ToLower (TrimSpace name)) in
  if bool_decide (n = ".") || Contains n ".." || ContainsAny n [" "; "*"; "\"; dquote]%char then None
  else if IsDomainName n then Some n else None.

Definition check (r : Request) : res str :=
  if negb (valueRE (RqValue r)) then Err (Wrapf (New AcmeErrInvalid) "value must be a 43-character base64url string")
  else match canonical (TrimPrefix (TrimSpace (RqDomain r)) "*.") with
  | None => Err (Wrapf (New AcmeErrInvalid) "domain is not a DNS name")
  | Some domain =>
    match canonical (RqFQDN r) with
    | Some fqdn => if bool_decide (fqdn = Prefix ++ domain) then Ok fqdn
                   else Err (Wrapf (New AcmeErrInvalid) ("fqdn must be " ++ Prefix ++ "<domain>"))
    | None => Err (Wrapf (New AcmeErrInvalid) ("fqdn must be " ++ Prefix ++ "<domain>"))
    end
  end.

Definition reasonOf : error → str := Zones.first_reason
  [(ErrForbidden, "forbidden" : str); (AcmeErrInvalid, "invalid_challenge" : str); (AcmeErrNotFound, "zone_not_found" : str);
   (AcmeErrPrecondition, "precondition" : str); (PdnsErrUnavailable, "pdns_unavailable" : str)].

Definition resultOf (e : option error) : str :=
  match e with
  | None => Metrics.ResultOK
  | Some e =>
    if Is e PdnsErrUnavailable then Metrics.ResultUnavailable
    else if Is e AcmeErrNotFound then Metrics.ResultNotFound
    else if Is e ErrForbidden || Is e AcmeErrInvalid || Is e AcmeErrPrecondition then Metrics.ResultRefused
    else Metrics.ResultError
  end.

Definition mapWrite (e : error) : error :=
  if Is e ErrRecord || Is e ErrInvalidKind then Wrap2 (New AcmeErrPrecondition) e [] else e.

(** The values of a set as an input, and whether one is the challenge's. *)
Definition input_values (vs : list Records.Value) : list RecordSets.RecordValue :=
  map (λ v, RecordSets.mkRecordValue (Records.VwContent v) (Records.VwDisabled v)) vs.
Definition holds (value : str) (v : Records.Value) : bool := bool_decide (Records.VwContent v = quoted value).
End Pure.

Section Service.
Context {U : Unicode} {DNS : MiekgDNS} {PSL : PublicSuffixList} {RRP : Content.RRParser}.
Context {S P R : Type} {RS : MemStore.RepoStore S} {PC : Pdns.PDNSClient P}.
Context (cfg : Zones.Config) (lim : RecordSets.Limits) (allowedCaller : str) (ttl : Z).
Abbreviation W := (World S P R).

Definition audit (subj : Authz.Subjects) (t zone fqdn : str) (e : option error) : M W unit :=
  let tenant := if bool_decide (Authz.STenantID subj = []) then NilTenant else Authz.STenantID subj in
  let '(etype, outcome, reason, op) :=
    match e with
    | None => (t, AuditEvent.OutcomeOK, [], [])
    | Some e =>
      let reason := reasonOf e in
      let failed := bool_decide (reason = "error") || bool_decide (reason = "pdns_unavailable") in
      (if failed then t else ChallengeRefused, if failed then AuditEvent.OutcomeError else AuditEvent.OutcomeRefused,
       reason, [("op" : str, t)])
    end in
  record_audit (AuditEvent.mkEvent tenant etype (AuditEvent.ActorOf (Authz.ActorKind subj)) (Authz.ActorID subj)
    AuditEvent.SubjectChallenge fqdn outcome reason ([("zone" : str, zone); ("name" : str, fqdn)] ++ op)).

(** A call refused before it reached the service. *)
Definition Refused (peer tenantID : str) : M W unit :=
  _ ← record_audit (AuditEvent.mkEvent (if uuidRE tenantID then tenantID else NilTenant) ChallengeRefused Authz.ActorModule
        (if bool_decide (peer = []) then "unknown" : str else peer) AuditEvent.SubjectChallenge [] AuditEvent.OutcomeRefused
        "forbidden" []);
  metric (Metrics.Challenge "refused" Metrics.ResultRefused).

Record resolved := mkResolved { rvSubj : Authz.Subjects; rvZone : Zone; rvFqdn : str; rvErr : option error }.

(** The admitted caller and the zone of its tenant for the name. *)
Definition resolve (subj : Authz.Subjects) (r : Request) : M W resolved :=
  match Authz.Challenger subj allowedCaller with
  | Err e => mret (mkResolved subj Zones.zeroZone [] (Some e))
  | Ok ws =>
    match check r with
    | Err e => mret (mkResolved ws Zones.zeroZone [] (Some e))
    | Ok fqdn =>
      x ← Zones.FindForName cfg ws fqdn;
      mret match x with
           | Err e => mkResolved ws Zones.zeroZone fqdn (Some (if Is e ZonesErrNotFound then New AcmeErrNotFound else e))
           | Ok z => mkResolved ws z fqdn
               (if NeedsMasters (Kind z)
                then Some (Wrapf (New AcmeErrPrecondition) (Kind z ++ " zones take their records from their primaries")) else None)
           end
    end
  end.

(** The TXT set at the name, if there is one; a CNAME there refuses. *)
Definition current (ws : Authz.Subjects) (z : Zone) (fqdn : str) : M W (res (option Records.RecordSet)) :=
  c ← Records.Lookup ws z (Records.mkKey fqdn RecordSets.CNAME);
  match c with
  | Ok _ => mret (Err (Wrapf (New AcmeErrPrecondition) ("a CNAME exists at " ++ fqdn)))
  | Err e =>
    if negb (Is e RecordsErrNotFound) then mret (Err e)
    else
      t ← Records.Lookup ws z (Records.mkKey fqdn TXT);
      mret match t with
           | Ok rs => Ok (Some rs)
           | Err e => if Is e RecordsErrNotFound then Ok None else Err e
           end
  end.

(** The bookkeeping row for the sweeper; its failure is only logged. *)
Definition record (ws : Authz.Subjects) (z : Zone) (fqdn value : str) : M W (res unit) :=
  id ← mint (Zones.cNewID cfg);
  t ← now;
  _ ← on_store (MemStore.repo_InsertChallenge (mkChallenge id (TenantID z) (ID z) fqdn value (Authz.PeerSPIFFE ws) t));
  mret (Ok ()).

Definition present (ws : Authz.Subjects) (z : Zone) (fqdn value : str) : M W (res unit) :=
  rs ←? current ws z fqdn;
  let values := match rs with Some s => Records.VwValues s | None => [] end in
  let comment := match rs with Some s => Records.VwComment s | None => [] end in
  if existsb (holds value) values then record ws z fqdn value
  else
    x ← Records.Apply lim ws z (RecordSets.mkRecordSetInput fqdn TXT ttl
          (input_values values ++ [RecordSets.mkRecordValue (quoted value) false]) comment) Events.SourceACME;
    match x with
    | Err e => mret (Err (mapWrite e))
    | Ok _ => record ws z fqdn value
    end.

Definition Present (subj : Authz.Subjects) (r : Request) : M W (res str) :=
  v ← resolve subj r;
  e ← match rvErr v with
      | Some e => mret (Some e)
      | None => x ← present (rvSubj v) (rvZone v) (rvFqdn v) (RqValue r); mret (err_of x)
      end;
  _ ← audit (rvSubj v) ChallengePresent (Name (rvZone v)) (rvFqdn v) e;
  _ ← metric (Metrics.Challenge "present" (resultOf e));
  mret match e with Some e => Err e | None => Ok (Name (rvZone v)) end.

(** The set rewritten without the value; removed when nothing is left. *)
Definition drop_value (ws : Authz.Subjects) (z : Zone) (rs : Records.RecordSet) (fqdn value : str) : M W (res unit) :=
  let rest := List.filter (λ v, negb (holds value v)) (Records.VwValues rs) in
  if negb (existsb (holds value) (Records.VwValues rs)) then mret (Ok ())
  else if bool_decide (rest = []) then
    x ← Records.Remove ws z (Records.mkKey fqdn TXT) Events.SourceACME;
    mret match x with Err e => Err (mapWrite e) | Ok u => Ok u end
  else
    x ← Records.Apply lim ws z (RecordSets.mkRecordSetInput fqdn TXT (Records.VwTTL rs) (input_values rest) (Records.VwComment rs))
          Events.SourceACME;
    mret match x with Err e => Err (mapWrite e) | Ok _ => Ok () end.

Definition remove (ws : Authz.Subjects) (z : Zone) (fqdn value : str) : M W (res unit) :=
  rs ←? current ws z fqdn;
  _ ←? match rs with Some s => drop_value ws z s fqdn value | None => mret (Ok ()) end;
  _ ← on_store (MemStore.repo_DeleteChallenge (TenantID z) fqdn value);
  mret (Ok ()).

Definition CleanUp (subj : Authz.Subjects) (r : Request) : M W (res str) :=
  v ← resolve subj r;
  e ← match rvErr v with
      | Some e => mret (Some e)
      | None => x ← remove (rvSubj v) (rvZone v) (rvFqdn v) (RqValue r); mret (err_of x)
      end;
  _ ← audit (rvSubj v) ChallengeCleanup (Name (rvZone v)) (rvFqdn v) e;
  _ ← metric (Metrics.Challenge "cleanup" (resultOf e));
  mret match e with Some e => Err e | None => Ok (Name (rvZone v)) end.

(** One challenge of a sweep: counted when its value was removed. *)
Definition sweep_one (c : Challenge) : M W nat :=
  let sys := Authz.Internal (ChTenantID c) in
  x ← Zones.Owned cfg sys (ChZoneID c);
  if match x with Err e => Is e ZonesErrNotFound | Ok _ => false end then
    _ ← on_store (MemStore.repo_DeleteChallenge (ChTenantID c) (ChFQDN c) (ChValue c)); mret 0%nat
  else
    let z := match x with Ok z => z | Err _ => Zones.zeroZone end in
    e ← match x with
        | Err e => mret (Some e)
        | Ok z => y ← remove sys z (ChFQDN c) (ChValue c); mret (err_of y)
        end;
    _ ← record_audit (AuditEvent.mkEvent (ChTenantID c) ChallengeSwept Authz.ActorSystem Authz.ActorSystem
          AuditEvent.SubjectChallenge (ChFQDN c)
          (match e with None => AuditEvent.OutcomeOK | Some _ => AuditEvent.OutcomeError end)
          (match e with None => [] | Some e => reasonOf e end) [("zone" : str, Name z); ("name" : str, ChFQDN c)]);
    _ ← metric (Metrics.Challenge "sweep" (resultOf e));
    mret match e with None => 1%nat | Some _ => 0%nat end.

Fixpoint sweep_all (rows : list Challenge) : M W nat :=
  match rows with
  | [] => mret 0%nat
  | c :: rows => n ← sweep_one c; m ← sweep_all rows; mret (n + m)%nat
  end.

Definition Sweep (maxAge : Z) : M W (res nat) :=
  t ← now;
  rows ←? on_store (MemStore.repo_ChallengesOlderThan (t - maxAge) sweepBatch);
  n ← sweep_all rows;
  mret (Ok n).

(** [Sweeper.Run] over the signals its [select] sees: a tick sweeps, and an error is
    only logged; the end of the context returns. *)
Inductive signal := Tick | CtxDone.
Fixpoint Run (maxAge : Z) (sigs : list signal) : M W unit :=
  match sigs with
  | [] | CtxDone :: _ => mret ()
  | Tick :: sigs => _ ← Sweep maxAge; Run maxAge sigs
  end.
End Service.
End Acme.
