(* ===== verification/AcmeSpec.v ===== *)
(** * Theorems about the ACME challenges

    Presenting publishes exactly the value beside what the name held, cleaning
    up removes exactly it, for the admitted caller and its tenant's zone only;
    the sweeper touches only old challenges. *)
From Stdlib Require Import Ascii.
From S2P Require Import Prelude GoStrings GoError Store Names Content Masters Authz MemStore Pdns RecordSets Recursor World Zones ZonesSpec Records RecordsSpec Acme.
Local Open Scope Z_scope.

Module AcmeSpec.
Import Store Zones ZonesSpec RecordsSpec Acme.

(** What the module relies on of the RR parser for text records: a quoted
    base64url string of at most 255 bytes is one character-string, printed back
    as it was. *)
Class TXTLaws {RRP : Content.RRParser} : Prop := {
  txt_roundtrip z v : " "%char ∉ z → forallb b64url v = true → (length v ≤ 255)%nat →
    ∃ l, Content.NewRR (z ++ " 3600 IN TXT " ++ quoted v) = Some (Content.RR_TXT l) ∧ Content.rdata (Content.RR_TXT l) = quoted v
}.

(** ** The content of a challenge value *)

Section Values.
Context {U : Unicode} {DNS : MiekgDNS} {RRP : Content.RRParser} {TXTL : TXTLaws}.

(** Facts about the bytes of a value, decided byte by byte. *)
Lemma b64url_byte c : b64url c = true →
  printable c = true ∧ lower_byte (lower_byte c) = lower_byte c ∧ code c < 128 ∧ c ≠ "\"%char ∧ c ≠ dquote ∧
  lower_byte c ≠ "$"%char ∧ 32 ≤ code c ∧ code c ≠ 127.
Proof.
  intros Hc. assert (E : implb (b64url c) (printable c && bool_decide (lower_byte (lower_byte c) = lower_byte c) && (code c <? 128)
    && bool_decide (c ≠ "\"%char) && bool_decide (c ≠ dquote) && bool_decide (lower_byte c ≠ "$"%char)
    && negb ((code c <? 32) || (code c =? 127))) = true) by (clear; revert c; by_bytes).
  rewrite Hc in E. cbn [implb] in E. b2p. by split_and!.
Qed.

Lemma quoted_byte v c : forallb b64url v = true → c ∈ quoted v → c = dquote ∨ b64url c = true.
Proof.
  rewrite forallb_Forall, Forall_forall. unfold quoted. intros Hv [->|[Hc| ->%list_elem_of_singleton]%elem_of_app]%elem_of_cons; auto.
Qed.

Lemma Contains_dollar s d : "$"%char ∉ s → Contains s ("$"%char :: d) = false.
Proof.
  intros Hs. apply not_true_iff_false. intros (k1 & k2 & ->)%Contains_spec. apply Hs. set_solver.
Qed.

Lemma quoted_no_directive v : forallb b64url v = true → Content.hasDirective (quoted v) = false.
Proof.
  intros Hv. assert (Ha : isASCII (quoted v) = true).
  { apply forallb_Forall, Forall_forall. intros c [->|Hc]%(quoted_byte v); [done| |done].
    apply b64url_byte in Hc as (_ & _ & ? & _). by apply Z.ltb_lt. }
  unfold Content.hasDirective. rewrite (ToLower_ascii _ Ha).
  assert (Hd : "$"%char ∉ map lower_byte (quoted v)).
  { intros (c & Hl & [->|Hc]%(quoted_byte v))%list_elem_of_fmap; [done| |done].
    apply b64url_byte in Hc as (_ & _ & _ & _ & _ & ? & _). by symmetry in Hl. }
  clear Ha. revert Hd. generalize (map lower_byte (quoted v)). intros s Hd.
  unfold Content.directives, lit. cbn [existsb String.list_ascii_of_string]. by rewrite !Contains_dollar.
Qed.

Lemma quoted_scan v : forallb b64url v = true → Content.scan (quoted v) true = Ok ().
Proof.
  intros Hv. apply Content.scan_Ok. split.
  - unfold Content.hasControl. apply not_true_iff_false. rewrite existsb_exists.
    intros (c & Hin & H). apply list_elem_of_In in Hin. destruct (quoted_byte v c Hv Hin) as [->|Hc]; [done|].
    apply b64url_byte in Hc as (_ & _ & _ & _ & _ & _ & H1 & H2).
    apply orb_true_iff in H as [H%Z.ltb_lt|H%Z.eqb_eq]; lia.
  - unfold quoted. apply (Content.ol_quote true v []); [done| |constructor].
    rewrite forallb_Forall in Hv. induction Hv as [|c v Hc _ IH]; [constructor|].
    apply b64url_byte in Hc as (_ & _ & _ & ? & ? & _). by constructor.
Qed.

(** A value is its own canonical content. *)
Lemma content_quoted z v : " "%char ∉ z → valueRE v = true → Content.content TXT z (quoted v) = Ok (quoted v).
Proof.
  unfold valueRE. intros Hz [Hlen Hv]%andb_true_iff. b2p.
  assert (Hp : Forall (λ c, printable c = true) (quoted v)).
  { apply Forall_forall. intros c [->|Hc]%(quoted_byte v); [done| |done]. by apply b64url_byte in Hc as [? _]. }
  unfold Content.content. rewrite TrimSpace_printable by done.
  rewrite bool_decide_eq_false_2 by done.
  replace (Content.MaxContent <? Content.slen (quoted v)) with false
    by (symmetry; apply Z.ltb_ge; unfold Content.slen, quoted; simpl; rewrite length_app, Hlen; done).
  rewrite quoted_no_directive by done.
  change (Content.normal_case TXT (quoted v)) with (quoted v). change (Content.quotedType TXT) with true.
  rewrite quoted_scan by done. res_simpl.
  destruct (txt_roundtrip z v) as (l & Hn & Hr); [done|done|lia|].
  change (z ++ " 3600 IN " ++ TXT ++ " " ++ quoted v) with (z ++ " 3600 IN TXT " ++ quoted v).
  rewrite Hn. cbn [Content.semantic]. res_simpl. by rewrite Hr, quoted_no_directive.
Qed.
End Values.

(** ** Present and clean up *)

Section Spec.
Context {U : Unicode} {DNS : MiekgDNS} {PSL : PublicSuffixList} {LAWS : MiekgDNSLaws} {RRP : Content.RRParser} {TXTL : TXTLaws}.
Context {S P R : Type} {RS : MemStore.RepoStore S} {PC : Pdns.PDNSClient P}.
Context (cfg : Zones.Config) (lim : RecordSets.Limits) (allowedCaller : str) (ttl : Z).
Abbreviation W := (World S P R).
Implicit Types w : World S P R.
Abbreviation sets pz := (Pdns.cloneRRsets (Pdns.PRRsets pz)).

Lemma current_run ws z fqdn w r w' :
  wok w → Acme.current ws z fqdn w = (r, w') →
  same w w' ∧ ∀ o, r = Ok o →
    ∃ n pz, Validate.RecordName (Name z) fqdn = Ok n ∧ Pdns.zones (wsrv w) !! PDNSID z = Some pz ∧
      o = Records.toView <$> find_first (Records.same_fold n TXT) (sets pz).
Proof.
  intros Hok H. unfold Acme.current in H. run_bind H c w1 E1. pose proof E1 as [S1 _]%Lookup_run; [|done].
  destruct c as [|e]; [by injection H as <- <-|]. destruct (Is e RecordsErrNotFound) eqn:Ee; cbn [negb] in H; [|by injection H as <- <-].
  run_bind H t w2 E2. pose proof (proj2 (proj2 S1) Hok) as Hok1. pose proof E2 as [S2 Ht]%Lookup_run; [|done].
  injection H as <- <-. split; [by eapply same_trans|]. destruct S1 as (_ & Hs1 & _). intros o Ho. destruct t as [rs|et].
  - injection Ho as <-. destruct (Ht rs eq_refl) as (n & pz & s & Hn & Hz & -> & Hf). rewrite Hs1 in Hz.
    exists n, pz. split; [done|]. split; [done|]. cbn [Records.KType] in Hf. change (ToUpper (TrimSpace TXT)) with TXT in Hf. by rewrite Hf.
  - destruct (Is et RecordsErrNotFound) eqn:Et; [|done]. injection Ho as <-.
    destruct (Lookup_absent _ _ _ _ _ _ Hok1 E2 Et) as (n & pz & Hn & Hz & Hf). rewrite Hs1 in Hz.
    exists n, pz. split; [done|]. split; [done|]. cbn [Records.KType] in Hf. change (ToUpper (TrimSpace TXT)) with TXT in Hf. by rewrite Hf.
Qed.

(** The zones, and the rest of the tables, survive the bookkeeping. *)
Definition books (w w' : W) : Prop :=
  wsrv w' = wsrv w ∧ (wok w → wok w') ∧ MemStore.zones (wdb w') = MemStore.zones (wdb w) ∧
  MemStore.templates (wdb w') = MemStore.templates (wdb w) ∧ (MemStore.db_wf (wdb w) → MemStore.db_wf (wdb w')).

Lemma books_refl w : books w w.
Proof. done. Qed.
Lemma same_books w w' : same w w' → books w w'.
Proof. intros (Hd & Hs & Ho). unfold books. by rewrite Hd, Hs. Qed.
Lemma books_trans w1 w2 w3 : books w1 w2 → books w2 w3 → books w1 w3.
Proof. intros (?&?&?&?&?) (?&?&?&?&?). split_and!; [congruence|auto|congruence|congruence|auto]. Qed.

Lemma insert_books c w r w' : on_store (MemStore.repo_InsertChallenge c) w = (r, w') → books w w'.
Proof.
  intros (Hs & Ho & _ & H)%(on_store_run _ _ _ _ _ (MemStore.repo_InsertChallenge_ok c)). unfold books.
  destruct H as [(_ & _ & _ & ->)|H]; [done|].
  assert (Hd : wdb w' = (MemStore.insert_challenge c (wdb w)).2) by (by rewrite H).
  rewrite Hd. clear H. unfold MemStore.insert_challenge. split_and!; try done; try (repeat case_match; done).
  apply MemStore.db_step_wf. eapply MemStore.ds_tenant, MemStore.ts_insert_challenge. reflexivity.
Qed.

Lemma delete_books t f v w r w' : on_store (MemStore.repo_DeleteChallenge t f v) w = (r, w') → books w w'.
Proof.
  intros (Hs & Ho & _ & H)%(on_store_run _ _ _ _ _ (MemStore.repo_DeleteChallenge_ok t f v)). unfold books.
  destruct H as [(_ & _ & _ & ->)|H]; [done|].
  assert (Hd : wdb w' = (MemStore.delete_challenge t f v (wdb w)).2) by (by rewrite H).
  rewrite Hd. clear H. unfold MemStore.delete_challenge. split_and!; try done; try (repeat case_match; done).
  apply MemStore.db_step_wf. eapply MemStore.ds_tenant, MemStore.ts_delete_challenge.
Qed.

Lemma record_run ws z fqdn v w r w' : Acme.record cfg ws z fqdn v w = (r, w') → books w w' ∧ r = Ok ().
Proof.
  intros H. unfold Acme.record, mint, now in H. unfold mbind at 1, M_bind at 1 in H. unfold mbind at 1, M_bind at 1 in H.
  run_bind H x w1 E. injection H as <- <-. split; [|done]. by apply insert_books in E.
Qed.

(** Canonical keys, and TXT contents that are read back as they are. *)
Definition entries_fixed (zn : str) (m : gmap (str * str) Pdns.rrdata) : Prop :=
  map_Forall (λ k e, canon_key k ∧
    (k.2 = TXT → Forall (λ x, Content.content TXT zn (Pdns.RecContent x) = Ok (Pdns.RecContent x)) e.2)) m.

(** The records of the TXT entry at [n]. *)
Definition txt_at (pz : Pdns.Zone) (n : str) : list Pdns.Record_ :=
  match Pdns.meaning (Pdns.PRRsets pz) !! (n, TXT) with Some (_, recs) => recs | None => [] end.

(** What a write of the TXT set at [n] did. *)
Record txt_written (z : Zone) (n : str) (t : Z) (recs : list Pdns.Record_) (w w' : W) (pz : Pdns.Zone) : Prop := {
  tw_zone : Pdns.zones (wsrv w) !! PDNSID z = Some pz;
  tw_after : ∃ pz', Pdns.zones (wsrv w') = <[PDNSID z := pz']> (Pdns.zones (wsrv w)) ∧
     Pdns.meaning (Pdns.PRRsets pz') = <[(n, TXT) := (t, recs)]> (Pdns.meaning (Pdns.PRRsets pz));
  tw_db : wdb w' = wdb w;
  tw_ok : wok w'
}.

Lemma fixed_values (f : str → res str) vs recs :
  Forall2 (λ v r, f (RecordSets.VContent v) = Ok (Pdns.RecContent r) ∧ Pdns.RecDisabled r = RecordSets.VDisabled v) vs recs →
  Forall (λ v, f (RecordSets.VContent v) = Ok (RecordSets.VContent v)) vs →
  recs = map (λ v, Pdns.mkRecord (RecordSets.VContent v) (RecordSets.VDisabled v)) vs.
Proof.
  induction 1 as [|v [c d] vs recs [Hc Hd] _ IH]; [done|]. intros [Hv Hvs]%Forall_cons. simpl in *.
  rewrite IH by done. rewrite Hv in Hc. by injection Hc as ->; subst d.
Qed.
Lemma TXT_editable : Content.editableType TXT = Ok TXT.
Proof. reflexivity. Qed.

(** Writing values that are their own canonical contents. *)
Lemma Apply_txt ws z fqdn n t vs comment w r w' :
  wok w → Validate.canonicalZone (Name z) = Ok (Name z) → Validate.RecordName (Name z) fqdn = Ok n →
  Forall (λ v, Content.content TXT (Name z) (RecordSets.VContent v) = Ok (RecordSets.VContent v)) vs →
  Records.Apply lim ws z (RecordSets.mkRecordSetInput fqdn TXT t vs comment) Events.SourceACME w = (r, w') →
  match r with
  | Err _ => same w w'
  | Ok _ => ∃ pz, txt_written z n (Pdns.uint32 t) (map (λ v, Pdns.mkRecord (RecordSets.VContent v) (RecordSets.VDisabled v)) vs) w w' pz
  end.
Proof.
  intros Hok Hz Hn Hvs H. apply Apply_run in H; [|done]. destruct r as [v|]; [|done].
  destruct H as (_ & rr & pz & _ & [Hpz _ Hs Hd Hok'] & Hr). exists pz.
  pose proof (RecordSet_replace _ _ _ _ _ (Pdns.meaning (Pdns.PRRsets pz)) Hr) as Hm.
  apply RecordSets.RecordSet_inv in Hr as (zc & Hzc & Ht & Hrn & _ & Httl & _ & _ & Hv & _).
  rewrite Hz in Hzc. injection Hzc as <-. cbn [RecordSets.IName RecordSets.IType RecordSets.IValues RecordSets.ITTL] in *.
  rewrite Hn in Hrn. injection Hrn as Hrn. rewrite TXT_editable in Ht. injection Ht as Ht.
  assert (Hrec : Pdns.RRecords rr = map (λ v, Pdns.mkRecord (RecordSets.VContent v) (RecordSets.VDisabled v)) vs).
  { apply RecordSets.values_Ok in Hv as [Hv _]. rewrite <- Ht in Hv. exact (fixed_values _ _ _ Hv Hvs). }
  constructor; [done| |done|done]. eexists. rewrite Hs. split; [done|]. simpl. rewrite Pdns.apply_patch_meaning. cbn [fold_left].
  rewrite Hm. unfold Pdns.rkey. by rewrite <- Hrn, <- Ht, Httl, Hrec.
Qed.

(** What the proofs need of the zone on the server. *)
Definition zone_fixed (z : Zone) (w : W) : Prop :=
  Validate.canonicalZone (Name z) = Ok (Name z) ∧
  ∀ pz, Pdns.zones (wsrv w) !! PDNSID z = Some pz → entries_fixed (Name z) (Pdns.meaning (Pdns.PRRsets pz)).

Lemma fixed_canon zn pz : entries_fixed zn (Pdns.meaning (Pdns.PRRsets pz)) → canon_sets (Pdns.PRRsets pz).
Proof.
  intros H. apply Forall_forall. intros s Hs.
  destruct (Pdns.meaning (Pdns.PRRsets pz) !! Pdns.rkey s) as [e|] eqn:E; [by destruct (H _ _ E)|].
  rewrite Pdns.meaning_lookup in E. apply fmap_None in E. rewrite find_first_None, Forall_forall in E.
  specialize (E s Hs). by rewrite bool_decide_eq_true_2 in E.
Qed.

Definition as_input (recs : list Pdns.Record_) : list RecordSets.RecordValue :=
  map (λ x, RecordSets.mkRecordValue (Pdns.RecContent x) (Pdns.RecDisabled x)) recs.
Definition is_value (v : str) (x : Pdns.Record_) : bool := bool_decide (Pdns.RecContent x = quoted v).
Abbreviation values_of o := (match o with Some s => Records.VwValues s | None => [] end).

(** The TXT set found at the name, against the entry of the server. *)
Lemma found_txt z w n pz :
  zone_fixed z w → Pdns.zones (wsrv w) !! PDNSID z = Some pz → canon_key (n, TXT) →
  let vs := values_of (Records.toView <$> find_first (Records.same_fold n TXT) (sets pz)) in
  input_values vs = as_input (txt_at pz n) ∧ (∀ v, existsb (holds v) vs = existsb (is_value v) (txt_at pz n)) ∧
  (∀ v, input_values (List.filter (λ x, negb (holds v x)) vs) = as_input (List.filter (λ x, negb (is_value v x)) (txt_at pz n))) ∧
  Forall (λ x, Content.content TXT (Name z) (Pdns.RecContent x) = Ok (Pdns.RecContent x)) (txt_at pz n).
Proof.
  intros [_ Hfix] Hz Hk. pose proof (Hfix pz Hz) as Ht. pose proof (fixed_canon _ _ Ht) as Hc. unfold txt_at.
  assert (Hs : ∀ e, Pdns.meaning (Pdns.PRRsets pz) !! (n, TXT) = Some e →
    Forall (λ x, Content.content TXT (Name z) (Pdns.RecContent x) = Ok (Pdns.RecContent x)) e.2).
  { intros e He. by apply (Ht _ _ He). }
  rewrite find_first_meaning in * by done.
  destruct (find_first (Records.same_fold n TXT) (sets pz)) as [s|] eqn:Ef; simpl; [|by split_and!].
  specialize (Hs _ eq_refl). simpl in Hs.
  split_and!; [| | |done].
  - unfold input_values, as_input. by rewrite map_map.
  - intros v. clear. induction (Pdns.RRecords s) as [|x l IH]; [done|]. simpl. by rewrite IH.
  - intros v. clear. unfold input_values, as_input. induction (Pdns.RRecords s) as [|x l IH]; [done|].
    simpl. unfold holds, is_value in *. simpl. case_bool_decide; simpl; by rewrite IH.
Qed.

Lemma as_input_back recs : map (λ v, Pdns.mkRecord (RecordSets.VContent v) (RecordSets.VDisabled v)) (as_input recs) = recs.
Proof. unfold as_input. rewrite map_map. apply map_id_Forall, Forall_forall. by intros []. Qed.

Lemma canonical_no_space zn : Validate.canonicalZone zn = Ok zn → " "%char ∉ zn.
Proof.
  intros Hz Hs. apply Validate.canonicalZone_inv in Hz as (ls & _ & -> & _ & Hl & _).
  apply Validate.zone_record_labels, Validate.record_labels_bytes in Hl.
  apply (Validate.dotted_bytes ls) in Hs as (? & _); [done|]. eapply Forall_impl; [exact Hl|]. by intros ? [_ ?].
Qed.

(** What an operation on the challenges did to the zone: the TXT entry at [n]
    became [entry], nothing else changed. *)
Record txt_now (z : Zone) (n : str) (w w' : W) (pz : Pdns.Zone) (entry : option (Z * list Pdns.Record_)) : Prop := {
  tn_before : Pdns.zones (wsrv w) !! PDNSID z = Some pz;
  tn_after : ∃ pz', Pdns.zones (wsrv w') = <[PDNSID z := pz']> (Pdns.zones (wsrv w)) ∧
      Pdns.meaning (Pdns.PRRsets pz') = partial_alter (λ _, entry) (n, TXT) (Pdns.meaning (Pdns.PRRsets pz));
  tn_rows : MemStore.zones (wdb w') = MemStore.zones (wdb w);
  tn_wf : MemStore.db_wf (wdb w) → MemStore.db_wf (wdb w');
  tn_ok : wok w'
}.

Lemma written_now z n t recs w w1 w' pz :
  txt_written z n t recs w w1 pz → books w1 w' → txt_now z n w w' pz (Some (t, recs)).
Proof.
  intros [Hz (pz' & Hs & Hm) Hd Hok] (Bs & Bo & Bz & _ & Bw). rewrite Hd in *. constructor; [done| |done|done|auto].
  exists pz'. rewrite Bs. split; [done|]. exact Hm.
Qed.

Lemma books_now z n w w' pz :
  Pdns.zones (wsrv w) !! PDNSID z = Some pz → wok w → books w w' →
  txt_now z n w w' pz (Pdns.meaning (Pdns.PRRsets pz) !! (n, TXT)).
Proof.
  intros Hz Hok (Bs & Bo & Bz & _ & Bw). constructor; [done| |done|done|auto].
  exists pz. rewrite Bs. split; [by rewrite insert_id|]. symmetry. by apply partial_alter_self.
Qed.

Lemma now_same z n w0 w w' pz e : same w0 w → txt_now z n w w' pz e → txt_now z n w0 w' pz e.
Proof. intros (Hd & Hs & _) [H1 H2 H3 H4 H5]. constructor; rewrite <- ?Hs, <- ?Hd; done. Qed.

(** The values of a set, written back, are their own contents. *)
Lemma as_input_fixed zn recs :
  Forall (λ x, Content.content TXT zn (Pdns.RecContent x) = Ok (Pdns.RecContent x)) recs →
  Forall (λ v, Content.content TXT zn (RecordSets.VContent v) = Ok (RecordSets.VContent v)) (as_input recs).
Proof. intros H. apply Forall_map. eapply Forall_impl; [exact H|]. done. Qed.

Lemma zone_fixed_same z w w' : same w w' → zone_fixed z w → zone_fixed z w'.
Proof. intros (_ & Hs & _) [Hz H]. split; [done|]. by rewrite Hs. Qed.

(** ** What the operations mean for the TXT entry of a name *)

Definition value_record (v : str) : Pdns.Record_ := Pdns.mkRecord (quoted v) false.

(** The entry with the value published beside the others. *)
Definition with_value (v : str) (e : option (Z * list Pdns.Record_)) : option (Z * list Pdns.Record_) :=
  match e with
  | Some (t, recs) => if existsb (is_value v) recs then e else Some (Pdns.uint32 ttl, recs ++ [value_record v])
  | None => Some (Pdns.uint32 ttl, [value_record v])
  end.

(** The entry without the value; gone when nothing is left. *)
Definition without_value (v : str) (e : option (Z * list Pdns.Record_)) : option (Z * list Pdns.Record_) :=
  match e with
  | Some (t, recs) =>
    if existsb (is_value v) recs then
      match List.filter (λ x, negb (is_value v x)) recs with [] => None | rest => Some (Pdns.uint32 t, rest) end
    else e
  | None => None
  end.

Lemma present_run ws z fqdn v w r w' :
  wok w → zone_fixed z w → valueRE v = true → present cfg lim ttl ws z fqdn v w = (r, w') →
  match r with
  | Err _ => same w w'
  | Ok _ => ∃ n pz, Validate.RecordName (Name z) fqdn = Ok n ∧
      txt_now z n w w' pz (with_value v (Pdns.meaning (Pdns.PRRsets pz) !! (n, TXT)))
  end.
Proof.
  intros Hok Hfix Hv H. unfold present in H. run_bind H o w1 E1. apply current_run in E1 as [S1 Ho]; [|done].
  destruct o as [o|]; [|by injection H as <- <-]. destruct (Ho o eq_refl) as (n & pz & Hn & Hz & ->).
  pose proof (zone_fixed_same _ _ _ S1 Hfix) as Hfix1. pose proof (proj2 (proj2 S1) Hok) as Hok1.
  assert (Hk : canon_key (n, TXT)) by (split; [by eapply RecordName_canon|by vm_compute]).
  assert (Hz1 : Pdns.zones (wsrv w1) !! PDNSID z = Some pz) by (destruct S1 as (_ & -> & _); done).
  destruct (found_txt z w1 n pz Hfix1 Hz1 Hk) as (Hin & Hex & _ & Hall).
  match type of H with context [existsb (holds v) ?vs] => change vs with
    (values_of (Records.toView <$> find_first (Records.same_fold n TXT) (sets pz))) in H end.
  cbv zeta in H. rewrite Hex, Hin in H. destruct (existsb (is_value v) (txt_at pz n)) eqn:Ee.
  - apply record_run in H as [Hb ->]. unfold txt_at in Ee. exists n, pz. split; [done|]. eapply now_same; [exact S1|].
    destruct (Pdns.meaning (Pdns.PRRsets pz) !! (n, TXT)) as [[t recs]|] eqn:Em; [|done].
    cbn [with_value]. rewrite Ee, <- Em. by apply books_now.
  - run_bind H x w2 E2. apply (Apply_txt ws z fqdn n) in E2; [|done|apply Hfix|done|].
    2:{ apply Forall_app. split; [by apply as_input_fixed|]. repeat constructor. simpl. apply content_quoted; [|done].
        apply canonical_no_space, Hfix. }
    destruct x as [rs|e]; [|injection H as <- <-; by eapply same_trans].
    apply record_run in H as [Hb ->]. destruct E2 as [pz2 E2]. pose proof (tw_zone _ _ _ _ _ _ _ E2) as Hz2.
    rewrite Hz1 in Hz2. injection Hz2 as <-. rewrite map_app, as_input_back in E2.
    exists n, pz. split; [done|]. eapply now_same; [exact S1|]. unfold txt_at in *.
    destruct (Pdns.meaning (Pdns.PRRsets pz) !! (n, TXT)) as [[t recs]|]; cbn [with_value].
    + rewrite Ee. by eapply written_now.
    + by eapply written_now.
Qed.

(** Removal of the TXT set at the name. *)
Lemma Remove_txt ws z fqdn n w r w' :
  wok w → Validate.RecordName (Name z) fqdn = Ok n →
  Records.Remove ws z (Records.mkKey fqdn TXT) Events.SourceACME w = (r, w') →
  match r with
  | Err _ => same w w'
  | Ok _ => wdb w' = wdb w ∧ ∃ pz, txt_now z n w w' pz None
  end.
Proof.
  intros Hok Hn E. apply Remove_run in E; [|done]. destruct r as [[]|]; [|done].
  destruct E as (n' & t & pz & Hkey & H). unfold Records.key in Hkey. cbn [Records.KName Records.KType] in Hkey.
  rewrite Hn in Hkey. change (ToUpper (TrimSpace TXT)) with TXT in Hkey.
  change (Content.Editable TXT) with true in Hkey. cbn [negb] in Hkey. res_simpl. injection Hkey as <- <-.
  destruct H as [[_ [Hz _ Hs Hd Hok']]|((Hd & Hs & Ho) & Hz & Hf)]; (split; [done|]); exists pz.
  - constructor; [done| |by rewrite Hd|by rewrite Hd|done]. eexists. rewrite Hs. split; [done|]. simpl. by rewrite Pdns.apply_patch_meaning.
  - constructor; [done| |by rewrite Hd|by rewrite Hd|auto]. exists pz. rewrite Hs. split; [by rewrite insert_id|].
    apply find_false in Hf. unfold Pdns.cloneRRsets in Hf. rewrite map_map in Hf.
    symmetry. change (partial_alter _ _ ?m) with (delete (n, TXT) m). by apply delete_id, meaning_None.
Qed.
(** The set at the name, without the value. *)
Lemma drop_run ws z fqdn n v s w r w' pz :
  wok w → zone_fixed z w → Validate.RecordName (Name z) fqdn = Ok n → Pdns.zones (wsrv w) !! PDNSID z = Some pz →
  find_first (Records.same_fold n TXT) (sets pz) = Some s →
  drop_value lim ws z (Records.toView s) fqdn v w = (r, w') →
  match r with
  | Err _ => same w w'
  | Ok _ => wdb w' = wdb w ∧ txt_now z n w w' pz (without_value v (Pdns.meaning (Pdns.PRRsets pz) !! (n, TXT)))
  end.
Proof.
  intros Hok Hfix Hn Hz Hs H. assert (Hk : canon_key (n, TXT)) by (split; [by eapply RecordName_canon|by vm_compute]).
  destruct (found_txt z w n pz Hfix Hz Hk) as (_ & Hex & Hrest & Hall).
  assert (Hm : Pdns.meaning (Pdns.PRRsets pz) !! (n, TXT) = Some (Pdns.RTTL s, Pdns.RRecords s)).
  { rewrite find_first_meaning, Hs by (done || eapply fixed_canon, Hfix, Hz). done. }
  unfold txt_at in *. rewrite Hm in *. rewrite Hs in *. cbn [fmap option_fmap option_map] in *.
  unfold drop_value in H. cbv zeta in H. rewrite Hex, Hrest in H. cbn [without_value].
  destruct (existsb (is_value v) (Pdns.RRecords s)) eqn:Ee; cbn [negb] in H.
  2:{ injection H as <- <-. split; [done|]. rewrite <- Hm. by apply books_now. }
  specialize (Hrest v). destruct (List.filter (λ x, negb (is_value v x)) (Pdns.RRecords s)) as [|x rest] eqn:Ef.
  - apply map_eq_nil in Hrest. rewrite Hrest, bool_decide_eq_true_2 in H by done. run_bind H y w1 E1.
    apply (Remove_txt ws z fqdn n) in E1; [|done|done]. destruct y as [[]|e]; injection H as <- <-; [|done].
    destruct E1 as (Hd & pz' & E1). split; [done|]. pose proof (tn_before _ _ _ _ _ _ E1) as Hz'. rewrite Hz in Hz'. by injection Hz' as <-.
  - case_bool_decide as En; [by rewrite En in Hrest|]. run_bind H y w1 E1.
    apply (Apply_txt ws z fqdn n) in E1; [|done|apply Hfix|done|].
    2:{ apply as_input_fixed. rewrite <- Ef. apply Forall_forall. intros x0 Hx0. rewrite Forall_forall in Hall. apply Hall.
        apply list_elem_of_In, filter_In in Hx0 as [Hx0 _]. by apply list_elem_of_In. }
    destruct y as [rs|e]; injection H as <- <-; [|done]. destruct E1 as [pz' E1].
    pose proof (tw_zone _ _ _ _ _ _ _ E1) as Hz'. rewrite Hz in Hz'. injection Hz' as <-. split; [by apply (tw_db _ _ _ _ _ _ _ E1)|].
    rewrite as_input_back in E1. by eapply written_now.
Qed.

Lemma now_books z n w w1 w' pz e : txt_now z n w w1 pz e → books w1 w' → txt_now z n w w' pz e.
Proof.
  intros [Hz (pz' & Hs & Hm) Hd Hw Hok] (Bs & Bo & Bz & _ & Bw). constructor; [done| |congruence|auto|auto].
  exists pz'. by rewrite Bs.
Qed.

Lemma remove_value_run ws z fqdn v w r w' :
  wok w → zone_fixed z w → remove lim ws z fqdn v w = (r, w') →
  match r with
  | Err _ => same w w'
  | Ok _ => ∃ n pz, Validate.RecordName (Name z) fqdn = Ok n ∧
      txt_now z n w w' pz (without_value v (Pdns.meaning (Pdns.PRRsets pz) !! (n, TXT)))
  end.
Proof.
  intros Hok Hfix H. unfold remove in H. run_bind H o w1 E1. apply current_run in E1 as [S1 Ho]; [|done].
  destruct o as [o|]; [|by injection H as <- <-]. destruct (Ho o eq_refl) as (n & pz & Hn & Hz & ->).
  pose proof (zone_fixed_same _ _ _ S1 Hfix) as Hfix1. pose proof (proj2 (proj2 S1) Hok) as Hok1.
  assert (Hz1 : Pdns.zones (wsrv w1) !! PDNSID z = Some pz) by (destruct S1 as (_ & -> & _); done).
  assert (Hk : canon_key (n, TXT)) by (split; [by eapply RecordName_canon|by vm_compute]).
  run_bind H y w2 E2.
  assert (Hd : match y with Err _ => same w1 w2
    | Ok _ => txt_now z n w1 w2 pz (without_value v (Pdns.meaning (Pdns.PRRsets pz) !! (n, TXT))) end).
  { destruct (find_first _ _) as [s|] eqn:Ef; cbn [fmap option_fmap option_map] in E2.
    - apply (drop_run ws z fqdn n v s w1 y w2 pz) in E2; try done. destruct y; [by destruct E2|done].
    - injection E2 as <- <-. pose proof (books_now z n w1 w1 pz Hz1 Hok1 (books_refl w1)) as Hb. revert Hb.
      rewrite find_first_meaning by (done || eapply fixed_canon, Hfix1, Hz1). by rewrite Ef. }
  destruct y as [[]|e]; [|injection H as <- <-; by eapply same_trans].
  run_bind H x w3 E3. injection H as <- <-. apply delete_books in E3. exists n, pz. split; [done|].
  eapply now_same; [exact S1|]. by eapply now_books.
Qed.
(** ** Who may present where *)

(** The caller is the configured module, [z] is the most specific zone of its
    tenant for the name and a primary, and the name is the challenge name of the
    requested domain. *)
Record admitted (subj : Authz.Subjects) (r : Request) (w : W) (z : Zone) (fqdn : str) : Prop := {
  ad_caller : Authz.ActorKind subj = Authz.ActorModule ∧ Authz.PeerSPIFFE subj = allowedCaller ∧ allowedCaller ≠ [];
  ad_zone : mine (Authz.STenantID subj) w z;
  ad_primary : NeedsMasters (Kind z) = false;
  ad_value : valueRE (RqValue r) = true;
  ad_name : ∃ d, canonical (TrimPrefix (TrimSpace (RqDomain r)) "*.") = Some d ∧ fqdn = Prefix ++ d ∧ canonical (RqFQDN r) = Some fqdn;
  ad_longest : ∃ n, canonicalFQDN fqdn = Some n ∧ InZone n (Name z) = true ∧
    ∀ z', mine (Authz.STenantID subj) w z' → InZone n (Name z') = true → (length (Name z') ≤ length (Name z))%nat
}.

Lemma elem_of_tenantZones t w z :
  MemStore.db_wf (wdb w) → z ∈ MemStore.tenantZones t (wdb w) ↔ mine t w z.
Proof.
  intros Hwf. unfold MemStore.tenantZones, mine.
  rewrite elem_of_sort_by, list_elem_of_In, filter_In, <- list_elem_of_In, bool_decide_eq_true, elem_of_values_of. split.
  - intros [(i & Hi) Ht]. by rewrite (MemStore.wf_zone_id _ Hwf i z Hi).
  - intros [Hi Ht]. eauto.
Qed.

Lemma check_Ok r fqdn :
  check r = Ok fqdn →
  valueRE (RqValue r) = true ∧
  ∃ d, canonical (TrimPrefix (TrimSpace (RqDomain r)) "*.") = Some d ∧ fqdn = Prefix ++ d ∧ canonical (RqFQDN r) = Some fqdn.
Proof.
  unfold check. destruct (valueRE _); [|done]. cbn [negb]. destruct (canonical (TrimPrefix _ _)) as [d|]; [|done].
  destruct (canonical (RqFQDN r)) as [f|]; [|done]. case_bool_decide as E; [|done]. intros [= <-]. split; [done|]. by exists d.
Qed.

Lemma resolve_run subj r w v w' :
  MemStore.db_wf (wdb w) → resolve cfg allowedCaller subj r w = (v, w') →
  same w w' ∧ (rvErr v = None → admitted subj r w (rvZone v) (rvFqdn v)).
Proof.
  intros Hwf H. unfold resolve in H. destruct (Authz.Challenger subj allowedCaller) as [ws|e] eqn:Ec; [|by injection H as <- <-].
  apply Authz.Challenger_Ok in Ec as (Hc & Ht & _). apply Authz.CallerIs_Ok in Hc as (Ha & Hp & Hne & _).
  destruct (check r) as [fqdn|e] eqn:Ek; [|by injection H as <- <-]. apply check_Ok in Ek as (Hv & d & Hd & Hf & Hfq).
  run_bind H x w1 E1. injection H as <- <-. unfold FindForName in E1.
  destruct (guard cfg ws _) as [|]; [|by injection E1 as <- <-].
  destruct (canonicalFQDN fqdn) as [n|] eqn:En; [|by injection E1 as <- <-].
  run_bind E1 zs w2 E2. apply (on_store_read _ _ _ _ _ (MemStore.repo_ZonesForTenant_ok _)) in E2 as (S2 & _ & E2).
  destruct zs as [zs|e]; injection E1 as <- <-; [|by split].
  split; [done|]. destruct E2 as [(e & ? & _)|[= ->]]; [done|].
  destruct (LongestZone _ n) as [z|] eqn:El; [|done]. cbn [rvErr rvZone rvFqdn].
  destruct (NeedsMasters (Kind z)) eqn:Enm; [done|]. intros _.
  apply LongestZone_Some in El as (Hz & Hin & Hmax). rewrite Ht in *. apply elem_of_tenantZones in Hz; [|done].
  constructor; try done; [by exists d|]. exists n. split; [done|]. split; [done|].
  intros z' Hz'%elem_of_tenantZones Hin'; [|done]. specialize (Hmax z' Hz' Hin'). unfold nlen in Hmax. lia.
Qed.

(** The TXT sets of the tenants' zones are in the form the module writes. *)
Definition txt_clean (w : W) : Prop :=
  ∀ k z pz, MemStore.zones (wdb w) !! k = Some z → Pdns.zones (wsrv w) !! PDNSID z = Some pz →
    entries_fixed (Name z) (Pdns.meaning (Pdns.PRRsets pz)).

Lemma mine_fixed t w z : zinv w → txt_clean w → mine t w z → zone_fixed z w.
Proof.
  intros Hinv Hc [Hz _]. split.
  - destruct (zi_rows _ Hinv _ _ Hz) as (_ & _ & s & Hs). by eapply Validate.canonicalZone_idem.
  - intros pz Hpz. by apply (Hc (ID z) z pz).
Qed.

Lemma quiet_challenge_audit subj t zn f e : quiet (@Acme.audit S P R subj t zn f e).
Proof. unfold Acme.audit. destruct e; apply quiet_audit. Qed.

(** The end of an operation: its audit record and its metric. *)
Lemma finish_run (A : Type) subj t zn f e op (a : A) w x w' :
  (_ ← Acme.audit subj t zn f e; _ ← metric (Metrics.Challenge op (resultOf e)); mret a) w = (x, w') → same w w' ∧ x = a.
Proof.
  intros H. split.
  - eapply (quiet_same _ w x w'); [|exact H]. apply quiet_bind; [apply quiet_challenge_audit|]. intros _.
    apply quiet_bind; [apply quiet_metric|]. intros _. apply quiet_ret.
  - run_bind H u w1 E. run_bind H u' w2 E'. by injection H as <- _.
Qed.

(** An operation that admits the caller, changes the TXT entry of the name by
    [f] or nothing, and records what it did. *)
Lemma operation_run (body : Authz.Subjects → Zone → str → M W (res unit)) f t op subj r w x w' :
  (∀ ws z fqdn w r' w', wok w → zone_fixed z w → valueRE (RqValue r) = true → body ws z fqdn w = (r', w') →
     match r' with
     | Err _ => same w w'
     | Ok _ => ∃ n pz, Validate.RecordName (Name z) fqdn = Ok n ∧ txt_now z n w w' pz (f (Pdns.meaning (Pdns.PRRsets pz) !! (n, TXT)))
     end) →
  zinv w → txt_clean w →
  (v ← resolve cfg allowedCaller subj r;
   e ← match rvErr v with
       | Some e => mret (Some e)
       | None => x ← body (rvSubj v) (rvZone v) (rvFqdn v); mret (err_of x)
       end;
   _ ← Acme.audit (rvSubj v) t (Name (rvZone v)) (rvFqdn v) e;
   _ ← metric (Metrics.Challenge op (resultOf e));
   mret match e with Some e => Err e | None => Ok (Name (rvZone v)) end) w = (x, w') →
  match x with
  | Err _ => wsrv w' = wsrv w ∧ wdb w' = wdb w
  | Ok zn => ∃ z fqdn n pz, Name z = zn ∧ admitted subj r w z fqdn ∧ Validate.RecordName (Name z) fqdn = Ok n ∧
      txt_now z n w w' pz (f (Pdns.meaning (Pdns.PRRsets pz) !! (n, TXT)))
  end.
Proof.
  intros Hbody Hinv Hc H. run_bind H v w1 E1. apply resolve_run in E1 as [S1 Ha]; [|apply Hinv].
  run_bind H e w2 E2. apply finish_run in H as [S3 ->]. destruct (rvErr v) as [e0|].
  { injection E2 as <- <-. destruct (same_trans _ _ _ S1 S3) as (? & ? & _). done. }
  specialize (Ha eq_refl). run_bind E2 y w3 E3. injection E2 as <- <-.
  pose proof (mine_fixed _ _ _ Hinv Hc (ad_zone _ _ _ _ _ Ha)) as Hfix.
  apply Hbody in E3; [|by apply S1, Hinv|by eapply zone_fixed_same|by apply Ha].
  destruct y as [[]|e]; cbn [err_of].
  - destruct E3 as (n & pz & Hn & Hnow). exists (rvZone v), (rvFqdn v), n, pz. split_and!; try done.
    eapply now_same; [exact S1|]. by eapply now_books, same_books.
  - destruct (same_trans _ _ _ (same_trans _ _ _ S1 E3) S3) as (? & ? & _). done.
Qed.

(** Presenting a challenge is atomic and publishes exactly its value.  A
    failure leaves the server and the tables as they were.  A success was for
    the configured module only and on the most specific zone of the caller's
    tenant, a primary one; of all the entries of all the zones of the server
    exactly the TXT entry of the challenge name changed, to the values it had and
    the new one (it is left alone when it already had it). *)
Theorem Present_publishes subj r w x w' :
  zinv w → txt_clean w → Present cfg lim allowedCaller ttl subj r w = (x, w') →
  match x with
  | Err _ => wsrv w' = wsrv w ∧ wdb w' = wdb w
  | Ok zn => ∃ z fqdn n pz, Name z = zn ∧ admitted subj r w z fqdn ∧ Validate.RecordName (Name z) fqdn = Ok n ∧
      txt_now z n w w' pz (with_value (RqValue r) (Pdns.meaning (Pdns.PRRsets pz) !! (n, TXT)))
  end.
Proof.
  apply (operation_run (λ ws z fqdn, present cfg lim ttl ws z fqdn (RqValue r)) (with_value (RqValue r))).
  intros *. apply present_run.
Qed.

(** Cleaning a challenge up is atomic and removes exactly its value.  A
    failure leaves the server and the tables as they were.  A success was for
    the configured module only and on the most specific zone of the caller's
    tenant; the TXT entry of the challenge name loses the value, keeps the
    others, and goes away when none is left; no other entry changes. *)
Theorem CleanUp_removes subj r w x w' :
  zinv w → txt_clean w → CleanUp cfg lim allowedCaller subj r w = (x, w') →
  match x with
  | Err _ => wsrv w' = wsrv w ∧ wdb w' = wdb w
  | Ok zn => ∃ z fqdn n pz, Name z = zn ∧ admitted subj r w z fqdn ∧ Validate.RecordName (Name z) fqdn = Ok n ∧
      txt_now z n w w' pz (without_value (RqValue r) (Pdns.meaning (Pdns.PRRsets pz) !! (n, TXT)))
  end.
Proof.
  apply (operation_run (λ ws z fqdn, remove lim ws z fqdn (RqValue r)) (without_value (RqValue r))).
  intros *. intros Hok Hfix _. by apply remove_value_run.
Qed.

(** ** The invariants survive the operations *)

Definition fixed_entry (zn : str) (e : option (Z * list Pdns.Record_)) : Prop :=
  ∀ t recs, e = Some (t, recs) → Forall (λ x, Content.content TXT zn (Pdns.RecContent x) = Ok (Pdns.RecContent x)) recs.

Lemma elem_of_without v t recs t' recs' x :
  without_value v (Some (t, recs)) = Some (t', recs') → x ∈ recs' → x ∈ recs.
Proof.
  cbn [without_value]. destruct (existsb (is_value v) recs); [|by intros [= <- <-]].
  destruct (List.filter _ recs) as [|y l] eqn:Ef; [done|]. intros [= <- <-] Hx. rewrite <- Ef in Hx.
  by apply list_elem_of_In, filter_In in Hx as [Hx%list_elem_of_In _].
Qed.

Lemma fixed_without zn v e : fixed_entry zn e → fixed_entry zn (without_value v e).
Proof.
  intros H t recs He. destruct e as [[t0 recs0]|]; [|done]. specialize (H t0 recs0 eq_refl). rewrite Forall_forall in *.
  intros x Hx. apply H. by eapply elem_of_without.
Qed.

Lemma fixed_with zn v e : " "%char ∉ zn → valueRE v = true → fixed_entry zn e → fixed_entry zn (with_value v e).
Proof.
  intros Hz Hv H. pose proof (content_quoted zn v Hz Hv) as Hq. destruct e as [[t0 recs0]|]; cbn [with_value].
  - destruct (existsb _ _); [done|]. intros t recs [= <- <-]. apply Forall_app. split; [by apply (H t0)|]. by constructor.
  - intros t recs [= <- <-]. by constructor.
Qed.

Lemma now_inv z n w w' pz e : zinv w → txt_now z n w w' pz e → zinv w'.
Proof. intros Hinv [_ _ Hr Hw Hok]. apply (zones_same_inv w w'); [done|done|apply Hw, Hinv|]. by rewrite Hr. Qed.

Lemma now_clean t z fqdn n w w' pz e :
  zinv w → txt_clean w → mine t w z → Validate.RecordName (Name z) fqdn = Ok n →
  txt_now z n w w' pz e → fixed_entry (Name z) e → txt_clean w'.
Proof.
  intros Hinv Hc [Hz _] Hn [Hb (pz' & Hs & Hm) Hr _ _] He k z0 pz0. rewrite Hr, Hs. intros Hz0 Hp.
  apply lookup_insert_Some in Hp as [[Hid <-]|[_ Hp]]; [|by apply (Hc k)].
  rewrite <- (pdnsid_inj w (ID z) z k z0); [|apply Hinv|done..]. rewrite Hm. intros k0 e0 Hk0.
  destruct (decide (k0 = (n, TXT))) as [->|Hne].
  - rewrite lookup_partial_alter_eq in Hk0. destruct e0 as [t0 recs]. split; [split; [by eapply RecordName_canon|by vm_compute]|].
    intros _. by apply (He t0).
  - rewrite lookup_partial_alter_ne in Hk0 by done. by apply (Hc (ID z) z pz Hz Hb).
Qed.

Lemma clean_entry t w z pz n :
  txt_clean w → mine t w z → Pdns.zones (wsrv w) !! PDNSID z = Some pz →
  fixed_entry (Name z) (Pdns.meaning (Pdns.PRRsets pz) !! (n, TXT)).
Proof. intros Hc [Hz _] Hp t0 recs He. by apply (Hc _ _ _ Hz Hp _ _ He). Qed.

Lemma same_clean w w' : same w w' → txt_clean w → txt_clean w'.
Proof. intros (Hd & Hs & _) Hc. unfold txt_clean. by rewrite Hd, Hs. Qed.

(** ** The records of the server, and the sweeper *)

(** The server lists the record [x] under the key [k] of the zone [id]. *)
Definition listed (w : W) (id : str) (k : str * str) (x : Pdns.Record_) : Prop :=
  ∃ pz t recs, Pdns.zones (wsrv w) !! id = Some pz ∧ Pdns.meaning (Pdns.PRRsets pz) !! k = Some (t, recs) ∧ x ∈ recs.

(** The record is the value of one of the challenges [cs]. *)
Definition challenged (cs : list Challenge) (w : W) (id : str) (k : str * str) (x : Pdns.Record_) : Prop :=
  ∃ c z, c ∈ cs ∧ mine (ChTenantID c) w z ∧ id = PDNSID z ∧ Validate.RecordName (Name z) (ChFQDN c) = Ok k.1 ∧ k.2 = TXT ∧
    Pdns.RecContent x = quoted (ChValue c).

(** Nothing is added, and only values of the challenges [cs] are removed. *)
Record swept (cs : list Challenge) (w w' : W) : Prop := {
  sw_rows : MemStore.zones (wdb w') = MemStore.zones (wdb w);
  sw_less id k x : listed w' id k x → listed w id k x;
  sw_only id k x : listed w id k x → listed w' id k x ∨ challenged cs w id k x;
  sw_inv : zinv w → txt_clean w → zinv w' ∧ txt_clean w'
}.

Lemma swept_same cs w w' : same w w' → swept cs w w'.
Proof.
  intros Hs. pose proof Hs as (Hd & Hv & _). constructor; [by rewrite Hd| | |].
  - intros id k x. unfold listed. by rewrite Hv.
  - intros id k x H. left. unfold listed. by rewrite Hv.
  - intros Hi Hc. split; [by eapply same_inv|by eapply same_clean].
Qed.

Lemma swept_trans cs1 cs2 w1 w2 w3 : swept cs1 w1 w2 → swept cs2 w2 w3 → swept (cs1 ++ cs2) w1 w3.
Proof.
  intros [R1 L1 O1 I1] [R2 L2 O2 I2]. constructor; [congruence|auto| |].
  - intros id k x [H|(c & z & Hc & H)]%O1.
    + destruct (O2 _ _ _ H) as [?|(c & z & Hc & [Hm ?] & H')]; [by left|right]. exists c, z. rewrite R1 in Hm.
      split; [set_solver|]. split; [by split|done].
    + right. exists c, z. split; [set_solver|done].
  - intros Hi Hc. destruct (I1 Hi Hc). auto.
Qed.

(** The records of an entry, before and after an operation. *)
Definition recs_of (e : option (Z * list Pdns.Record_)) : list Pdns.Record_ := match e with Some (_, l) => l | None => [] end.

Lemma existsb_is_value v recs : existsb (is_value v) recs = true ↔ ∃ x, x ∈ recs ∧ Pdns.RecContent x = quoted v.
Proof.
  rewrite existsb_exists. unfold is_value. by setoid_rewrite bool_decide_eq_true; setoid_rewrite <- list_elem_of_In.
Qed.

Lemma elem_of_with_value v e x :
  x ∈ recs_of (with_value v e) ↔ x ∈ recs_of e ∨ (x = value_record v ∧ existsb (is_value v) (recs_of e) = false).
Proof.
  destruct e as [[t recs]|]; cbn [with_value recs_of]; [|set_solver].
  destruct (existsb (is_value v) recs); [naive_solver|]. cbn [recs_of]. set_solver.
Qed.

Lemma elem_of_without_value v e x :
  x ∈ recs_of (without_value v e) ↔ x ∈ recs_of e ∧ Pdns.RecContent x ≠ quoted v.
Proof.
  destruct e as [[t recs]|]; cbn [without_value recs_of]; [|set_solver].
  assert (Hf : x ∈ List.filter (λ y, negb (is_value v y)) recs ↔ x ∈ recs ∧ Pdns.RecContent x ≠ quoted v).
  { rewrite list_elem_of_In, filter_In, <- list_elem_of_In. unfold is_value. by rewrite negb_true_iff, bool_decide_eq_false. }
  destruct (existsb (is_value v) recs) eqn:E.
  - rewrite <- Hf. by destruct (List.filter _ recs).
  - cbn [recs_of]. split; [|by intros [? _]]. intros Hx. split; [done|]. intros Hq.
    apply not_true_iff_false in E. apply E, existsb_is_value. by exists x.
Qed.

Lemma listed_at w id pz k x :
  Pdns.zones (wsrv w) !! id = Some pz → listed w id k x ↔ x ∈ recs_of (Pdns.meaning (Pdns.PRRsets pz) !! k).
Proof.
  intros Hz. unfold listed. split.
  - intros (pz' & t & recs & Hp & Hk & Hx). rewrite Hz in Hp. injection Hp as <-. by rewrite Hk.
  - intros Hx. exists pz. destruct (Pdns.meaning _ !! k) as [[t recs]|]; [by exists t, recs|by apply elem_of_nil in Hx].
Qed.

Lemma now_listed z n w w' pz e id k x :
  txt_now z n w w' pz e →
  listed w' id k x ↔ (if decide (id = PDNSID z ∧ k = (n, TXT)) then x ∈ recs_of e else listed w id k x).
Proof.
  intros [Hb (pz' & Hs & Hm) _ _ _]. destruct (decide (id = PDNSID z)) as [->|Hid].
  - assert (Hz' : Pdns.zones (wsrv w') !! PDNSID z = Some pz') by (by rewrite Hs, lookup_insert_eq).
    rewrite (listed_at w' _ pz' k x Hz'), Hm. destruct (decide (k = (n, TXT))) as [->|Hk].
    + rewrite decide_True by done. by rewrite lookup_partial_alter_eq.
    + rewrite decide_False by naive_solver. by rewrite lookup_partial_alter_ne, (listed_at w _ pz k x Hb).
  - rewrite decide_False by naive_solver. unfold listed. by rewrite Hs, lookup_insert_ne.
Qed.

(** The records listed after an operation. *)
Lemma with_listed z n w w' pz v id k x :
  txt_now z n w w' pz (with_value v (Pdns.meaning (Pdns.PRRsets pz) !! (n, TXT))) →
  listed w' id k x ↔ listed w id k x ∨
    (id = PDNSID z ∧ k = (n, TXT) ∧ x = value_record v ∧ ¬ ∃ y, listed w id k y ∧ Pdns.RecContent y = quoted v).
Proof.
  intros Hn. rewrite (now_listed _ _ _ _ _ _ _ _ _ Hn). case_decide as E; [|naive_solver]. destruct E as [-> ->].
  pose proof (λ y, listed_at w _ _ (n, TXT) y (tn_before _ _ _ _ _ _ Hn)) as Ha. setoid_rewrite Ha.
  rewrite elem_of_with_value, <- existsb_is_value, not_true_iff_false. naive_solver.
Qed.
Lemma without_listed z n w w' pz v id k x :
  txt_now z n w w' pz (without_value v (Pdns.meaning (Pdns.PRRsets pz) !! (n, TXT))) →
  listed w' id k x ↔ listed w id k x ∧ ¬ (id = PDNSID z ∧ k = (n, TXT) ∧ Pdns.RecContent x = quoted v).
Proof.
  intros Hn. rewrite (now_listed _ _ _ _ _ _ _ _ _ Hn). case_decide as E; [|naive_solver]. destruct E as [-> ->].
  rewrite (listed_at w _ _ (n, TXT) x (tn_before _ _ _ _ _ _ Hn)), elem_of_without_value. naive_solver.
Qed.

(** Dropping the value of a challenge. *)
Lemma now_swept c z n w w' pz :
  mine (ChTenantID c) w z → Validate.RecordName (Name z) (ChFQDN c) = Ok n →
  txt_now z n w w' pz (without_value (ChValue c) (Pdns.meaning (Pdns.PRRsets pz) !! (n, TXT))) → swept [c] w w'.
Proof.
  intros Hm Hn Hnow. constructor; [apply Hnow| | |].
  - intros id k x. rewrite (without_listed _ _ _ _ _ _ _ _ _ Hnow). by intros [? _].
  - intros id k x Hs. rewrite (without_listed _ _ _ _ _ _ _ _ _ Hnow).
    destruct (decide (id = PDNSID z ∧ k = (n, TXT) ∧ Pdns.RecContent x = quoted (ChValue c))) as [(-> & -> & Hq)|]; [|by left].
    right. exists c, z. split; [set_solver|done].
  - intros Hi Hc. split; [by eapply now_inv|]. eapply now_clean; [done|done|done|done|done|].
    by eapply fixed_without, clean_entry, Hnow.
Qed.

Lemma books_swept cs w w' : books w w' → swept cs w w'.
Proof.
  intros (Hv & Ho & Hz & _ & Hw). constructor; [done| | |].
  - intros id k x. unfold listed. by rewrite Hv.
  - intros id k x H. left. unfold listed. by rewrite Hv.
  - intros Hi Hc. split; [apply (zones_same_inv w w'); [done|apply Ho, Hi|apply Hw, Hi|by rewrite Hz]|].
    unfold txt_clean. by rewrite Hz, Hv.
Qed.

Lemma sweep_one_run c w n w' : zinv w → txt_clean w → sweep_one cfg lim c w = (n, w') → swept [c] w w' ∧ (n ≤ 1)%nat.
Proof.
  intros Hi Hc H. unfold sweep_one in H. run_bind H x w1 E1.
  assert (same w w1 ∧ ∀ z, x = Ok z → mine (ChTenantID c) w z) as [S1 Hx].
  { unfold Owned in E1. destruct (guard cfg _ _); [|by injection E1 as <- <-]. apply owned_run in E1 as [Hs Ho]. split; [done|].
    intros z Hz. destruct (owned_row _ _ _ _ (Ho z Hz) (zi_db _ Hi)) as (Hid & Ht & Hz' & _). unfold mine. by rewrite Hid. }
  case_if in H as Ef.
  { run_bind H u w2 E2. injection H as <- <-. apply delete_books in E2. split; [|lia].
    eapply (swept_trans []); [by apply swept_same|by apply books_swept]. }
  run_bind H e w2 E2. run_bind H u w3 E3. run_bind H u' w4 E4. injection H as <- <-. split; [|destruct e; lia].
  apply quiet_same in E3; [|auto with dns]. apply quiet_same in E4; [|auto with dns].
  eapply (swept_trans []); [by apply swept_same|]. replace [c] with ([c] ++ []) by done.
  eapply swept_trans; [|by apply swept_same, (same_trans _ _ _ E3)].
  destruct x as [z|e0]; [|injection E2 as <- <-; by apply swept_same].
  run_bind E2 y w5 E5. injection E2 as <- <-. specialize (Hx z eq_refl).
  apply remove_value_run in E5; [|by apply S1, Hi|by eapply zone_fixed_same, mine_fixed].
  destruct y as [[]|]; [|by apply swept_same]. destruct E5 as (m & pz & Hm & Hnow). eapply now_swept; [|done|done].
  destruct Hx as [Hz Ht]. split; [|done]. by destruct S1 as (-> & _).
Qed.

Lemma sweep_all_run cs w n w' : zinv w → txt_clean w → sweep_all cfg lim cs w = (n, w') → swept cs w w' ∧ (n ≤ length cs)%nat.
Proof.
  revert w n w'. induction cs as [|c cs IH]; intros w n w' Hi Hc H; cbn [sweep_all] in H.
  { injection H as <- <-. split; [by apply swept_same|done]. }
  run_bind H a w1 E1. apply sweep_one_run in E1 as [S1 ?]; [|done|done]. destruct (sw_inv _ _ _ S1 Hi Hc) as [Hi1 Hc1].
  run_bind H b w2 E2. apply IH in E2 as [S2 ?]; [|done|done]. injection H as <- <-. split; [|simpl; lia].
  by apply (swept_trans [c] cs w w1).
Qed.

Lemma older_than_spec before limit d c : c ∈ MemStore.challenges_older_than before limit d →
  ChCreatedAt c < before ∧ ∃ i, MemStore.challenges d !! i = Some c.
Proof.
  unfold MemStore.challenges_older_than. cbv zeta. intros H.
  assert (Hin : c ∈ List.filter (λ c, ChCreatedAt c <? before) (Prelude.values_of (MemStore.challenges d))).
  { rewrite <- (elem_of_sort_by MemStore.challenge_ltb). destruct ((0 <? limit) && _); [|done].
    apply elem_of_take in H as (i & Hi & _). by eapply list_elem_of_lookup_2. }
  apply list_elem_of_In, filter_In in Hin as [Hin%list_elem_of_In%elem_of_values_of Hb]. b2p. done.
Qed.

(** A sweep never adds a record to the DNS, and what it removes is only
    the value of a recorded challenge older than the age, at that challenge's
    name and type, in the zone of its tenant that holds the name; every other
    record of every zone stays, and the zone rows are untouched.  It
    removes at most one batch. *)
Theorem Sweep_only_expired maxAge w r w' :
  zinv w → txt_clean w → Sweep cfg lim maxAge w = (r, w') →
  MemStore.zones (wdb w') = MemStore.zones (wdb w) ∧
  (∀ n, r = Ok n → Z.of_nat n ≤ sweepBatch) ∧
  (∀ id k x, listed w' id k x → listed w id k x) ∧
  (∀ id k x, listed w id k x → listed w' id k x ∨
     ∃ cs, challenged cs w id k x ∧
       ∀ c, c ∈ cs → ChCreatedAt c < w_now w - maxAge ∧ ∃ i, MemStore.challenges (wdb w) !! i = Some c).
Proof.
  intros Hi Hc H. unfold Sweep, now in H. unfold mbind at 1, M_bind at 1 in H.
  run_bind H rows w1 E1. apply (on_store_read _ _ _ _ _ (MemStore.repo_ChallengesOlderThan_ok _ _)) in E1 as (S1 & _ & E1).
  destruct rows as [rows|e].
  2:{ injection H as <- <-. destruct (swept_same [] _ _ S1) as [Hr Hl Ho _]. split_and!; try done. intros id k x Hs. left. by apply (swept_same [] w w1 S1) in Hs as [?|(? & ? & ?%elem_of_nil & _)]. }
  destruct E1 as [(e & ? & _)|[= ->]]; [done|].
  run_bind H n w2 E2. injection H as <- <-. apply sweep_all_run in E2 as [Sw Hn]; [|by eapply same_inv|by eapply same_clean].
  pose proof (swept_trans [] _ _ _ _ (swept_same _ _ _ S1) Sw) as [Hr Hl Ho _]. split_and!; try done.
  - intros n' [= <-]. unfold MemStore.challenges_older_than in Hn. cbv zeta in Hn. unfold sweepBatch in *. destruct ((0 <? 100) && _) eqn:E.
    + rewrite length_take in Hn. lia.
    + b2p. apply andb_false_iff in E as [E|E]; b2p; lia.
  - intros id k x [Hs|Hs]%Ho; [by left|right]. eexists. split; [exact Hs|]. intros c Hin. by eapply older_than_spec.
Qed.

Lemma Present_inv subj r w zn w1 :
  zinv w → txt_clean w → Present cfg lim allowedCaller ttl subj r w = (Ok zn, w1) →
  zinv w1 ∧ txt_clean w1 ∧ ∃ z fqdn n pz, Name z = zn ∧ admitted subj r w z fqdn ∧ Validate.RecordName (Name z) fqdn = Ok n ∧
    txt_now z n w w1 pz (with_value (RqValue r) (Pdns.meaning (Pdns.PRRsets pz) !! (n, TXT))).
Proof.
  intros Hi Hc HP.
  apply (operation_run (λ ws z fqdn, present cfg lim ttl ws z fqdn (RqValue r)) (with_value (RqValue r))) in HP
    as (z & f & n & pz & Hz & A & Hn & N); [|intros *; apply present_run|done|done].
  split; [by eapply now_inv|]. split; [|by exists z, f, n, pz]. pose proof (ad_zone _ _ _ _ _ A) as Hm.
  eapply now_clean; [done|done|done|done|done|]. apply fixed_with; [|apply A|].
  - apply canonical_no_space, (mine_fixed _ _ _ Hi Hc Hm).
  - exact (clean_entry _ _ _ _ _ Hc Hm (tn_before _ _ _ _ _ _ N)).
Qed.

(** Two zones admitted for one request are the same. *)
Lemma admitted_unique subj r w w1 z1 f1 z2 f2 :
  MemStore.db_wf (wdb w) → MemStore.zones (wdb w1) = MemStore.zones (wdb w) →
  admitted subj r w z1 f1 → admitted subj r w1 z2 f2 → z1 = z2 ∧ f1 = f2.
Proof.
  intros Hwf Hr A1 A2. destruct (ad_name _ _ _ _ _ A1) as (d1 & _ & _ & N1), (ad_name _ _ _ _ _ A2) as (d2 & _ & _ & N2).
  rewrite N1 in N2. injection N2 as ->. split; [|done].
  destruct (ad_longest _ _ _ _ _ A1) as (n & C1 & I1 & M1), (ad_longest _ _ _ _ _ A2) as (n2 & C2 & I2 & M2).
  rewrite C1 in C2. injection C2 as <-. destruct (ad_zone _ _ _ _ _ A1) as [Z1 T1], (ad_zone _ _ _ _ _ A2) as [Z2 T2].
  assert (L : length (Name z1) = length (Name z2)).
  { apply Nat.le_antisymm; [apply M2; [|done]|apply M1; [|done]]; unfold mine; by rewrite ?Hr in *. }
  rewrite Hr in Z2. assert (E : Name z1 = Name z2) by (by eapply InZone_same_length).
  assert (ID z1 = ID z2) as Hid by (apply (MemStore.wf_zone_uniq _ Hwf _ _ z1 z2); [done..|]; by left).
  congruence.
Qed.

End Spec.
Module Concrete.
Import ZonesSpec.Concrete RecordsSpec.Concrete.
#[local] Existing Instance unicode_min.
#[local] Existing Instance miekg_plain.
#[local] Existing Instance miekg_plain_laws.
#[local] Existing Instance psl_tld.
#[local] Existing Instance Content.rr_plain.
#[local] Existing Instance no_templates.

#[global] Instance rr_plain_txt : TXTLaws.
Proof.
  constructor. intros z v Hz Hv _. exists [quoted v]. split; [|done]. cbn [Content.NewRR Content.rr_plain].
  assert (Hq : " "%char ∉ quoted v).
  { intros Hin. destruct (quoted_byte v _ Hv Hin) as [Hc|Hc]; by vm_compute in Hc. }
  assert (Es : SplitByte " " (z ++ " 3600 IN TXT " ++ quoted v) = [z; "3600" : str; "IN" : str; "TXT" : str; quoted v]).
  { transitivity (z :: SplitByte " " ("3600 IN TXT " ++ quoted v)); [by apply SplitByte_app|].
    change (z :: (("3600" : str) :: ("IN" : str) :: ("TXT" : str) :: SplitByte " " (quoted v)) = [z; "3600" : str; "IN" : str; "TXT" : str; quoted v]).
    by rewrite (SplitByte_nosep _ _ Hq). }
  rewrite Es. done.
Qed.

Definition lcm : str := "spiffe://tangra/lcm".
Definition caller : Authz.Subjects := Authz.ModuleSubject "t1" lcm.
Definition token : str := "0123456789abcdefghijABCDEFGHIJ0123456789-_x".
Definition request : Request := mkRequest "*.Example.com" "_acme-challenge.example.com" token.

Definition presented := Present cfg0 lim0 lcm DefaultTTL caller request world1.
Definition cleaned := CleanUp cfg0 lim0 lcm caller request presented.2.

(** Decides [entries_fixed]. *)
Definition fixedb (zn : str) (m : gmap (str * str) Pdns.rrdata) : bool :=
  forallb (λ '(k, e), canon_keyb k &&
    implb (bool_decide (k.2 = TXT)) (forallb (λ x, bool_decide (Content.content TXT zn (Pdns.RecContent x) = Ok (Pdns.RecContent x))) e.2))
    (map_to_list m).

Lemma fixedb_spec zn m : fixedb zn m = true → entries_fixed zn m.
Proof.
  unfold fixedb. rewrite forallb_Forall, Forall_forall. intros H k e Hk%elem_of_map_to_list. specialize (H _ Hk). cbn beta iota in H.
  apply andb_true_iff in H as [Hc Hf]. split; [unfold canon_keyb in Hc; b2p; by repeat split|].
  intros Ht. rewrite bool_decide_eq_true_2 in Hf by done. cbn [implb] in Hf. rewrite forallb_Forall in Hf.
  eapply Forall_impl; [exact Hf|]. intros x Hx. by apply bool_decide_eq_true in Hx.
Qed.

Definition world_cleanb (w : World MemStore.Mem Pdns.Fake Recursor.Fake) : bool :=
  forallb (λ '(id, pz), fixedb id (Pdns.meaning (Pdns.PRRsets pz))) (map_to_list (Pdns.zones (wsrv w))).
Lemma world_cleanb_spec w : zinv w → world_cleanb w = true → txt_clean w.
Proof.
  unfold world_cleanb. rewrite forallb_Forall, Forall_forall. intros Hi H k z pz Hz Hp. apply elem_of_map_to_list in Hp.
  specialize (H _ Hp). cbn beta iota in H. destruct (zi_rows _ Hi _ _ Hz) as (<- & _). by apply fixedb_spec.
Qed.

Lemma world1_clean : txt_clean world1.
Proof. apply world_cleanb_spec; [apply world1_inv|vm_compute; reflexivity]. Qed.

Lemma Present_publishes_witness :
  is_ok presented.1 = true ∧
  ∃ z n pz, txt_now z n world1 presented.2 pz (with_value DefaultTTL token (Pdns.meaning (Pdns.PRRsets pz) !! (n, TXT))).
Proof.
  assert (Hr : is_ok presented.1 = true) by (vm_compute; reflexivity). split; [exact Hr|].
  destruct presented as [x w'] eqn:E. destruct x as [zn|]; [|discriminate Hr].
  destruct (Present_publishes cfg0 lim0 lcm DefaultTTL caller request world1 (Ok zn) w' world1_inv world1_clean E)
    as (z & fqdn & n & pz & _ & _ & _ & H). exists z, n, pz. exact H.
Defined.
Lemma presented_inv : zinv presented.2 ∧ txt_clean presented.2.
Proof.
  assert (Hr : is_ok presented.1 = true) by (vm_compute; reflexivity).
  destruct presented as [x w'] eqn:E. destruct x as [zn|]; [|discriminate Hr].
  destruct (Present_inv cfg0 lim0 lcm DefaultTTL caller request world1 zn w' world1_inv world1_clean E) as (Hi & Hc & _). exact (conj Hi Hc).
Qed.

Lemma CleanUp_removes_witness :
  is_ok cleaned.1 = true ∧
  ∃ z n pz, txt_now z n presented.2 cleaned.2 pz (without_value token (Pdns.meaning (Pdns.PRRsets pz) !! (n, TXT))).
Proof.
  assert (Hr : is_ok cleaned.1 = true) by (vm_compute; reflexivity). split; [exact Hr|].
  destruct cleaned as [x w'] eqn:E. destruct x as [zn|]; [|discriminate Hr].
  destruct (CleanUp_removes cfg0 lim0 lcm caller request presented.2 (Ok zn) w' (proj1 presented_inv) (proj2 presented_inv) E)
    as (z & fqdn & n & pz & _ & _ & _ & H). exists z, n, pz. exact H.
Defined.


(** An hour after the presentation, with no clean-up. *)
Definition at_time (t : time) (w : World MemStore.Mem Pdns.Fake Recursor.Fake) : World MemStore.Mem Pdns.Fake Recursor.Fake :=
  mkWorld (w_store w) (w_pdns w) (w_rec w) (w_events w) (w_audit w) (w_metrics w) t (w_minted w).
Lemma at_time_inv t w : zinv w → txt_clean w → zinv (at_time t w) ∧ txt_clean (at_time t w).
Proof. intros [H1 H2 H3 H4] Hc. split; [by constructor|exact Hc]. Qed.

Definition later := at_time 3700 presented.2.
Definition sweep_run := Sweep cfg0 lim0 1800 later.

Lemma Sweep_only_expired_witness :
  sweep_run.1 = Ok 1%nat ∧ ∀ id k x, listed sweep_run.2 id k x → listed later id k x.
Proof.
  split; [vm_compute; reflexivity|]. destruct sweep_run as [r w'] eqn:E.
  destruct (at_time_inv 3700 presented.2 (proj1 presented_inv) (proj2 presented_inv)) as [Hi Hc].
  destruct (Sweep_only_expired cfg0 lim0 1800 later r w' Hi Hc E) as (_ & _ & H & _). exact H.
Defined.

(** The name already holds the value, disabled. *)
Definition disabled_world := (Records.Upsert cfg0 lim0 alice "id0"
  (RecordSets.mkRecordSetInput "_acme-challenge" "TXT" 60 [RecordSets.mkRecordValue (quoted token) true] []) world1).2.
Definition disabled_present := Present cfg0 lim0 lcm DefaultTTL caller request disabled_world.

(** A value that stands at the challenge name as a disabled record counts
    as present: presenting it succeeds, and the name still serves nothing (every
    record of its TXT entry is disabled). *)
Example disabled_value_counts :
  is_ok disabled_present.1 &&
  match Pdns.zones (wsrv disabled_present.2) !! ("example.com." : str) with
  | Some pz => match Pdns.meaning (Pdns.PRRsets pz) !! ("_acme-challenge.example.com." : str, TXT) with
               | Some (_, recs) => negb (bool_decide (recs = [])) && forallb Pdns.RecDisabled recs
               | None => false end
  | None => false
  end = true.
Proof. vm_compute. reflexivity. Qed.
End Concrete.
End AcmeSpec.
