(* ===== verification/IpamPlan.v ===== *)
(** * Where an IPAM address goes in the DNS ([internal/ipamsync/plan.go],
    [decode.go])

    The zone and the owner name of the address record and of the PTR record of
    an address, and the checks on an address event.  JSON decoding of an event is
    a parameter. *)
From Stdlib Require Import Ascii.
From S2P Require Import Prelude GoStrings GoError Store Names Netip.
Local Open Scope Z_scope.

Module IpamPlan.
Import Store.

Definition v4Reverse : str := "in-addr.arpa.".
Definition v6Reverse : str := "ip6.arpa.".

Record Forward := mkForward { FwZone : str; FwZoneID : str; FwExisting : bool; FwName : str; FwType : str }.
Record Reverse := mkReverse { RvZone : str; RvZoneID : str; RvExisting : bool; RvOwner : str }.
Definition noForward : Forward := mkForward [] [] false [] [].
Definition noReverse : Reverse := mkReverse [] [] false [].

Definition recordType (a : Netip.Addr) : str := if Netip.Is4 (Netip.Unmap a) then "A" else "AAAA".

(** The longest zone that contains the name, among the reverse or the forward ones. *)
Definition longest (zones : list Zone) (name : str) (reverse : bool) : option Zone :=
  longest_loop (λ z, Bool.eqb (Validate.IsReverse (Name z)) reverse && InZone name (Name z)) zones None.

(** [strconv.FormatUint(x, 16)] of a nibble. *)
Definition nibble (x : Z) : str := [Netip.hex_digit x].
Definition nibbles (a : Netip.Addr) : list str :=
  flat_map (λ x, [nibble (Z.shiftr x 4); nibble (Z.land x 15)]) (Netip.As16 a).

Definition labels (a : Netip.Addr) : list str * str :=
  match Netip.Unmap a with
  | Netip.V4 b => (map Itoa (Netip.As4 b), v4Reverse)
  | a => (nibbles a, v6Reverse)
  end.

Definition reverseName (parts : list str) (suffix : str) : str := concat (map (λ p, p ++ ".") (reverse parts)) ++ suffix.

Definition PTROwner (a : Netip.Addr) : str :=
  if negb (Netip.IsValid a) then [] else let '(parts, suffix) := labels a in reverseName parts suffix.

(** The number of labels of the reverse zone: the prefix rounded down to the
    label boundary and clamped. *)
Definition zone_bits (suffix : str) (prefix : Z) : Z * Z :=
  let '(unit, lo, hi, full) := if bool_decide (suffix = v6Reverse) then (4, 4, 64, 128) else (8, 8, 24, 32) in
  let prefix := if (prefix <? 0) || (full <? prefix) then hi else prefix in
  (Z.min (Z.max (prefix / unit * unit) lo) hi, unit).

Definition ReverseZone (a : Netip.Addr) (prefix : Z) : str :=
  if negb (Netip.IsValid a) then []
  else let '(parts, suffix) := labels a in
       let '(bits, unit) := zone_bits suffix prefix in
       reverseName (take (Z.to_nat (bits / unit)) parts) suffix.

Definition PlanReverse (tenantZones : list Zone) (a : Netip.Addr) (prefix : Z) : res Reverse :=
  if negb (Netip.IsValid a) then Err (New ErrSkip)
  else
    let owner := PTROwner a in
    match longest tenantZones owner true with
    | Some z => Ok (mkReverse (Name z) (ID z) true owner)
    | None => Ok (mkReverse (ReverseZone a prefix) [] false owner)
    end.

Definition PrefixOf `{Unicode} (cidr : str) : Z := default (-1) (Netip.ParsePrefixBits (TrimSpace cidr)).

Section Forward.
Context {U : Unicode} {DNS : MiekgDNS} {PSL : PublicSuffixList}.

Definition CanonicalHost (h : str) : option str :=
  match Validate.Hostname h with
  | Err _ => None
  | Ok fq => if HasSuffix fq ("." ++ v4Reverse) || HasSuffix fq ("." ++ v6Reverse) then None else Some fq
  end.

Definition PlanForward (tenantZones : list Zone) (host : str) (addr : Netip.Addr) : res Forward :=
  if negb (Netip.IsValid addr) then Err (New ErrSkip)
  else match CanonicalHost host with
  | None => Err (New ErrSkip)
  | Some h =>
    match longest tenantZones h false with
    | Some z => Ok (mkForward (Name z) (ID z) true h (recordType addr))
    | None =>
      match EffectiveTLDPlusOne (TrimSuffix h ".") with
      | None => Err (New ErrSkip)
      | Some reg =>
        match Validate.ZoneName reg with
        | Ok zone => if InZone h zone then Ok (mkForward zone [] false h (recordType addr)) else Err (New ErrSkip)
        | Err _ => Err (New ErrSkip)
        end
      end
    end
  end.
End Forward.

(** ** Events *)

Definition TypeCreated : str := "ipam.ip_address.created".
Definition TypeUpdated : str := "ipam.ip_address.updated".
Definition TypeDeleted : str := "ipam.ip_address.deleted".
Definition TypeScanned : str := "ipam.ip_address.scanned".
Definition MaxPayload : Z := 4096.
Definition MaxID : Z := 64.
Definition MaxHostname : Z := 253.

Record Event := mkEvent {
  EvType : str; EvAction : str; EvID : str; EvAddress : str; EvSubnetID : str; EvHostname : str
}.
Record payload := mkPayload { PlAction : str; PlID : str; PlAddress : str; PlSubnetID : str; PlHostname : str }.

Definition id_byte (c : ascii) : bool :=
  digit c || ((97 <=? code c) && (code c <=? 122)) || ((65 <=? code c) && (code c <=? 90))
  || bool_decide (c = "_"%char) || bool_decide (c = "-"%char).
Definition idRE (s : str) : bool :=
  (1 <=? Z.of_nat (length s)) && (Z.of_nat (length s) <=? MaxID) && forallb id_byte s.

(** [json_payload data] is the payload of a JSON text that holds exactly one
    object ([None] for any other text, also for [null] or trailing data). *)
Definition Decode (json_payload : str → option payload) (fields : gmap str str) : res Event :=
  let typ := default [] (fields !! ("type" : str)) in
  if negb (contains [TypeCreated; TypeUpdated; TypeDeleted; TypeScanned] typ) then Err (New ErrIgnored)
  else
    let data := default [] (fields !! ("data" : str)) in
    if bool_decide (data = []) || (MaxPayload <? Z.of_nat (length data)) then Err (New ErrMalformed)
    else match json_payload data with
    | None => Err (New ErrMalformed)
    | Some p =>
      if negb (idRE (PlID p)) || (MaxID <? Z.of_nat (length (PlSubnetID p))) || (MaxHostname <? Z.of_nat (length (PlHostname p)))
         || (16 <? Z.of_nat (length (PlAction p))) then Err (New ErrMalformed)
      else match Netip.ParseAddr (PlAddress p) with
      | Some a => if bool_decide (Netip.zone_of a = []) then
                    Ok (mkEvent typ (PlAction p) (PlID p) (PlAddress p) (PlSubnetID p) (PlHostname p))
                  else Err (New ErrMalformed)
      | None => Err (New ErrMalformed)
      end
    end.

(** ** The labels of the reverse trees *)

(** Addresses of the width of their family. *)
Definition addr_wf (a : Netip.Addr) : Prop :=
  match a with
  | Netip.Invalid => True
  | Netip.V4 b => 0 ≤ b < 2 ^ 32
  | Netip.V6 b _ => 0 ≤ b < 2 ^ 128
  end.

Lemma byte_of_range n k a : 0 ≤ Netip.byte_of n k a < 256.
Proof. unfold Netip.byte_of. change 255 with (Z.ones 8). rewrite Z.land_ones by lia. by apply Z.mod_pos_bound. Qed.

Lemma byte_of_testbit n k a j : 0 ≤ k < n → 0 ≤ j < 8 → Z.testbit (Netip.byte_of n k a) j = Z.testbit a (j + 8 * (n - 1 - k)).
Proof.
  intros. unfold Netip.byte_of. rewrite Z.land_spec, Z.shiftr_spec by lia. change 255 with (Z.ones 8).
  rewrite Z.ones_spec_low by lia. by rewrite andb_true_r.
Qed.

(** An address is determined by its bytes. *)
Lemma byte_of_inj n a b :
  0 < n → 0 ≤ a < 2 ^ (8 * n) → 0 ≤ b < 2 ^ (8 * n) →
  (∀ k, 0 ≤ k < n → Netip.byte_of n k a = Netip.byte_of n k b) → a = b.
Proof.
  intros Hn Ha Hb H. apply Z.bits_inj'. intros i Hi. destruct (decide (i < 8 * n)) as [Hlt|Hge].
  - pose proof (Z.div_mod i 8 ltac:(lia)) as Hd. pose proof (Z.mod_pos_bound i 8 ltac:(lia)).
    assert (0 ≤ i / 8 < n) by (split; [apply Z.div_pos; lia|apply Z.div_lt_upper_bound; lia]).
    replace i with (i mod 8 + 8 * (n - 1 - (n - 1 - i / 8))) by lia.
    rewrite <- !byte_of_testbit by lia. f_equal. apply H. lia.
  - rewrite !Z.bits_above_log2; try done; try lia.
    + destruct (decide (b = 0)) as [->|]; [simpl; lia|]. apply Z.log2_lt_pow2; [lia|]. eapply Z.lt_le_trans; [apply Hb|]. apply Z.pow_le_mono_r; lia.
    + destruct (decide (a = 0)) as [->|]; [simpl; lia|]. apply Z.log2_lt_pow2; [lia|]. eapply Z.lt_le_trans; [apply Ha|]. apply Z.pow_le_mono_r; lia.
Qed.

(** Facts about the octets and the nibbles of an address, by evaluation over
    the 256 bytes. *)
Definition bytes256 : list Z := map Z.of_nat (seq 0 256).
Lemma byte_dec256 (p : Z → bool) : forallb p bytes256 = true → ∀ x, 0 ≤ x < 256 → p x = true.
Proof.
  rewrite forallb_Forall, Forall_forall. intros H x Hx. apply H. unfold bytes256. apply list_elem_of_fmap.
  exists (Z.to_nat x). split; [lia|]. apply elem_of_seq. lia.
Qed.

Lemma octet_label x : 0 ≤ x < 256 →
  Validate.labelOK (Itoa x) false = true ∧ Validate.octetOK (Itoa x) = true ∧ Atoi (Itoa x) = Some x ∧ (length (Itoa x) ≤ 3)%nat.
Proof.
  intros Hx. assert (E : Validate.labelOK (Itoa x) false && Validate.octetOK (Itoa x) && bool_decide (Atoi (Itoa x) = Some x)
    && (length (Itoa x) <=? 3)%nat = true) by (revert x Hx; apply byte_dec256; vm_compute; reflexivity).
  b2p. split_and!; try done. by apply Nat.leb_le.
Qed.

Definition nibble_pair (x : Z) : list str := [nibble (Z.shiftr x 4); nibble (Z.land x 15)].
Definition pair_value (l : list str) : Z :=
  match l with
  | [[a]; [b]] => 16 * default 0 (Netip.hex_val a) + default 0 (Netip.hex_val b)
  | _ => -1
  end.
Lemma nibble_label x : 0 ≤ x < 256 →
  Forall (λ l, Validate.labelOK l false = true ∧ Validate.nibbleOK l = true) (nibble_pair x) ∧ pair_value (nibble_pair x) = x.
Proof.
  intros Hx. assert (E : forallb (λ l, Validate.labelOK l false && Validate.nibbleOK l) (nibble_pair x) && (pair_value (nibble_pair x) =? x) = true)
    by (revert x Hx; apply byte_dec256; vm_compute; reflexivity).
  b2p. split; [|done]. rewrite forallb_Forall in *. eapply Forall_impl; [done|]. intros l Hl. by apply andb_true_iff in Hl.
Qed.

(** ** Reverse names as labels *)

Definition suffix_labels (suffix : str) : list str := SplitByte dot (TrimSuffix suffix ".").
Lemma v4_suffix : Validate.dotted (suffix_labels v4Reverse) = v4Reverse ∧ suffix_labels v4Reverse = ["in-addr" : str; "arpa" : str].
Proof. split; vm_compute; reflexivity. Qed.
Lemma v6_suffix : Validate.dotted (suffix_labels v6Reverse) = v6Reverse ∧ suffix_labels v6Reverse = ["ip6" : str; "arpa" : str].
Proof. split; vm_compute; reflexivity. Qed.

Lemma concat_dotted ls tail : tail ≠ [] → concat (map (λ p, p ++ ".") ls) ++ Validate.dotted tail = Validate.dotted (ls ++ tail).
Proof.
  intros Ht. induction ls as [|l ls IH]; [done|]. cbn [map concat]. rewrite <- app_assoc, IH.
  cbn [app]. rewrite Validate.dotted_cons by (by destruct ls). by rewrite <- app_assoc.
Qed.

(** The labels an address can have in the reverse trees. *)
Definition rev_labels (parts : list str) (suffix : str) : list str := reverse parts ++ suffix_labels suffix.
Lemma reverseName_dotted parts suffix : suffix = v4Reverse ∨ suffix = v6Reverse → reverseName parts suffix = Validate.dotted (rev_labels parts suffix).
Proof.
  intros Hs. unfold reverseName, rev_labels. rewrite <- concat_dotted.
  - f_equal. destruct Hs as [-> | ->]; symmetry; [apply v4_suffix|apply v6_suffix].
  - destruct Hs as [-> | ->]; by vm_compute.
Qed.

Definition good_label (l : str) : Prop := Validate.labelOK l false = true.
Lemma good_label_nodot l : good_label l → (dot ∉ l) ∧ l ≠ [].
Proof.
  intros H. apply Validate.labelOK_spec in H as ((? & _) & ?%Validate.name_byte_dot & _). split; [tauto|].
  intros ->. simpl in *. lia.
Qed.

(** The labels of an address, by family. *)
Inductive labelled : Netip.Addr → list str → str → Prop :=
  | labelled4 b parts : length parts = 4%nat → Forall (λ l, good_label l ∧ Validate.octetOK l = true ∧ (length l ≤ 3)%nat) parts →
      parts = map Itoa (Netip.As4 b) → labelled (Netip.V4 b) parts v4Reverse
  | labelled6 b z parts : length parts = 32%nat → Forall (λ l, good_label l ∧ Validate.nibbleOK l = true) parts →
      parts = nibbles (Netip.V6 b z) → labelled (Netip.V6 b z) parts v6Reverse.

Lemma labels_spec a : Netip.IsValid a = true → labelled (Netip.Unmap a) (labels a).1 (labels a).2.
Proof.
  intros Ha. unfold labels. assert (Hu : Netip.Unmap a ≠ Netip.Invalid) by (destruct a; unfold Netip.Unmap; [discriminate Ha|discriminate|by destruct (Netip.Is4In6 _)]).
  destruct (Netip.Unmap a) as [|b|b z]; [done| |]; cbn [fst snd].
  - constructor; [done| |done]. apply Forall_map, Forall_map, Forall_forall. intros k _. unfold compose.
    destruct (octet_label (Netip.v4 k b) (byte_of_range _ _ _)) as (? & ? & _ & ?). done.
  - constructor; [done| |done]. unfold nibbles. apply Forall_forall. intros l (x & Hx & Hl)%list_elem_of_In%in_flat_map.
    apply in_map_iff in Hx as (k & <- & _). destruct (nibble_label (Netip.byte_of 16 (Z.of_nat k) b) (byte_of_range _ _ _)) as [Hf _].
    rewrite Forall_forall in Hf. apply Hf. by apply list_elem_of_In.
Qed.

Lemma labelled_suffix a parts suffix : labelled a parts suffix → suffix = v4Reverse ∨ suffix = v6Reverse.
Proof. destruct 1; auto. Qed.
Lemma labelled_good a parts suffix : labelled a parts suffix → Forall good_label (rev_labels parts suffix).
Proof.
  intros H. unfold rev_labels. apply Forall_app. split.
  - apply Forall_reverse. destruct H as [? ? _ H _|? ? ? _ H _]; (eapply Forall_impl; [exact H|]); naive_solver.
  - destruct H; repeat constructor; by vm_compute.
Qed.

Lemma PTROwner_dotted a : Netip.IsValid a = true → PTROwner a = Validate.dotted (rev_labels (labels a).1 (labels a).2).
Proof.
  intros Ha. unfold PTROwner. rewrite Ha. cbn [negb]. pose proof (labels_spec a Ha) as Hl. destruct (labels a) as [parts suffix].
  by eapply reverseName_dotted, labelled_suffix.
Qed.


Lemma good_nodots ls : Forall good_label ls → Forall (λ l, dot ∉ l) ls.
Proof. intros H. eapply Forall_impl; [exact H|]. intros l Hg. exact (proj1 (good_label_nodot l Hg)). Qed.

Lemma dotted_inj ls ms :
  ls ≠ [] → ms ≠ [] → Forall good_label ls → Forall good_label ms → Validate.dotted ls = Validate.dotted ms → ls = ms.
Proof.
  intros Hl Hm Gl Gm E. unfold Validate.dotted in E. apply app_inj_tail in E as [E _].
  rewrite <- (Validate.SplitByte_dotted ls), <- (Validate.SplitByte_dotted ms), E; auto using good_nodots.
Qed.

Lemma rev_labels_nonnil parts suffix : suffix = v4Reverse ∨ suffix = v6Reverse → rev_labels parts suffix ≠ [].
Proof. intros Hs E. apply app_eq_nil in E as [_ E]. destruct Hs as [-> | ->]; by vm_compute in E. Qed.

Lemma flat_pairs_inj xs ys :
  Forall (λ x, 0 ≤ x < 256) xs → Forall (λ x, 0 ≤ x < 256) ys →
  flat_map nibble_pair xs = flat_map nibble_pair ys → xs = ys.
Proof.
  intros Hx. revert ys. induction Hx as [|x xs Hx _ IH]; intros [|y ys] Hy E; try done.
  apply Forall_cons in Hy as [Hy Hys]. cbn [flat_map] in E. apply app_inj_1 in E as [Ep E]; [|done].
  f_equal; [|by apply IH]. rewrite <- (proj2 (nibble_label x Hx)), <- (proj2 (nibble_label y Hy)). by rewrite Ep.
Qed.

Lemma As16_inj a b : 0 ≤ a < 2 ^ 128 → 0 ≤ b < 2 ^ 128 →
  map (λ k, Netip.byte_of 16 (Z.of_nat k) a) (seq 0 16) = map (λ k, Netip.byte_of 16 (Z.of_nat k) b) (seq 0 16) → a = b.
Proof.
  intros Ha Hb E. apply (byte_of_inj 16); [lia|exact Ha|exact Hb|]. intros k Hk.
  assert (Hs : seq 0 16 !! Z.to_nat k = Some (Z.to_nat k)) by (apply lookup_seq; lia).
  apply (f_equal (λ l, l !! Z.to_nat k)) in E. rewrite !list_lookup_fmap, Hs in E. cbn [fmap option_fmap option_map] in E.
  injection E as E. by rewrite !Z2Nat.id in E by lia.
Qed.

Lemma As4_inj a b : 0 ≤ a < 2 ^ 32 → 0 ≤ b < 2 ^ 32 → map Itoa (Netip.As4 a) = map Itoa (Netip.As4 b) → a = b.
Proof.
  intros Ha Hb E. apply (byte_of_inj 4); [lia|exact Ha|exact Hb|].
  assert (Hi : ∀ k, Itoa (Netip.v4 k a) = Itoa (Netip.v4 k b) → Netip.byte_of 4 k a = Netip.byte_of 4 k b).
  { intros k Hk. apply (f_equal Atoi) in Hk. unfold Netip.v4 in Hk.
    rewrite (proj1 (proj2 (proj2 (octet_label _ (byte_of_range 4 k a))))), (proj1 (proj2 (proj2 (octet_label _ (byte_of_range 4 k b))))) in Hk.
    by injection Hk. }
  unfold Netip.As4 in E. cbn [map] in E. injection E as E0 E1 E2 E3. intros k Hk.
  assert (k = 0 ∨ k = 1 ∨ k = 2 ∨ k = 3) as [-> |[-> |[-> | ->]]] by lia; by apply Hi.
Qed.

(** Without the zone of a scoped address. *)
Definition unscoped (a : Netip.Addr) : Netip.Addr := match a with Netip.V6 b _ => Netip.V6 b [] | a => a end.

Lemma Unmap_wf a : addr_wf a → addr_wf (Netip.Unmap a).
Proof.
  destruct a as [|b|b z]; intros H; [exact H|exact H|]. unfold Netip.Unmap. destruct (Netip.Is4In6 _); [|exact H].
  unfold addr_wf. change 4294967295 with (Z.ones 32). rewrite Z.land_ones by lia. by apply Z.mod_pos_bound.
Qed.

(** PTR owner names are per address: two addresses (an IPv4-mapped IPv6
    address counts as the IPv4 address, a scope does not count) share a PTR owner
    only if they are the same.  So removing the PTR set of an address never takes
    the PTR of another one. *)
Theorem PTROwner_injective a b :
  Netip.IsValid a = true → Netip.IsValid b = true → addr_wf a → addr_wf b →
  PTROwner a = PTROwner b → unscoped (Netip.Unmap a) = unscoped (Netip.Unmap b).
Proof.
  intros Ha Hb Wa%Unmap_wf Wb%Unmap_wf E. rewrite !PTROwner_dotted in E by done.
  pose proof (labels_spec a Ha) as La. pose proof (labels_spec b Hb) as Lb.
  apply dotted_inj in E; [|by eapply rev_labels_nonnil, labelled_suffix|by eapply rev_labels_nonnil, labelled_suffix|by eapply labelled_good|by eapply labelled_good].
  unfold rev_labels in E. destruct (labels a) as [pa sa], (labels b) as [pb sb]. cbn [fst snd] in *.
  assert (Hs : length (suffix_labels sa) = length (suffix_labels sb)) by (destruct La, Lb; reflexivity).
  apply app_inj_2 in E as [Ep Es]; [|done]. apply (f_equal reverse) in Ep. rewrite !reverse_involutive in Ep. subst pb.
  destruct La as [x pa _ _ Ex|x z pa _ _ Ex], Lb as [y pb _ _ Ey|y z' pb _ _ Ey]; try (by vm_compute in Es); cbn [unscoped]; f_equal.
  - apply As4_inj; [exact Wa|exact Wb|congruence].
  - rewrite Ex in Ey. unfold nibbles in Ey. apply flat_pairs_inj in Ey; [exact (As16_inj _ _ Wa Wb Ey)| |];
      apply Forall_map, Forall_forall; intros k _; apply byte_of_range.
Qed.

(** ** The reverse zone *)

Definition zone_labels_of (a : Netip.Addr) (prefix : Z) : nat :=
  let '(bits, unit) := zone_bits (labels a).2 prefix in Z.to_nat (bits / unit).

Lemma ReverseZone_eq a prefix : Netip.IsValid a = true →
  ReverseZone a prefix = reverseName (take (zone_labels_of a prefix) (labels a).1) (labels a).2.
Proof. intros Ha. unfold ReverseZone, zone_labels_of. rewrite Ha. destruct (labels a). cbn [negb fst snd]. by destruct (zone_bits _ _). Qed.

Lemma clamp_v4 prefix : let n := Z.to_nat (Z.min (Z.max ((if (prefix <? 0) || (32 <? prefix) then 24 else prefix) / 8 * 8) 8) 24 / 8) in
  (1 ≤ n ≤ 3)%nat ∧ (8 ≤ prefix ≤ 32 → 8 * Z.of_nat n ≤ prefix).
Proof.
  cbv zeta. set (p := if (prefix <? 0) || (32 <? prefix) then 24 else prefix). set (q := p / 8).
  assert (Hq : q * 8 ≤ p) by (unfold q; pose proof (Z.mul_div_le p 8); lia).
  replace (Z.min (Z.max (q * 8) 8) 24) with (Z.min (Z.max q 1) 3 * 8) by lia. rewrite Z.div_mul by lia. split; [lia|].
  intros Hp. unfold p in Hq. destruct (Z.ltb_spec prefix 0), (Z.ltb_spec 32 prefix); cbn [orb] in Hq; lia.
Qed.
Lemma clamp_v6 prefix : let n := Z.to_nat (Z.min (Z.max ((if (prefix <? 0) || (128 <? prefix) then 64 else prefix) / 4 * 4) 4) 64 / 4) in
  (1 ≤ n ≤ 16)%nat ∧ (4 ≤ prefix ≤ 128 → 4 * Z.of_nat n ≤ prefix).
Proof.
  cbv zeta. set (p := if (prefix <? 0) || (128 <? prefix) then 64 else prefix). set (q := p / 4).
  assert (Hq : q * 4 ≤ p) by (unfold q; pose proof (Z.mul_div_le p 4); lia).
  replace (Z.min (Z.max (q * 4) 4) 64) with (Z.min (Z.max q 1) 16 * 4) by lia. rewrite Z.div_mul by lia. split; [lia|].
  intros Hp. unfold p in Hq. destruct (Z.ltb_spec prefix 0), (Z.ltb_spec 128 prefix); cbn [orb] in Hq; lia.
Qed.

Definition sized (a : Netip.Addr) (prefix : Z) (n : nat) : Prop :=
  if Netip.Is4 (Netip.Unmap a) then (1 ≤ n ≤ 3)%nat ∧ (8 ≤ prefix ≤ 32 → 8 * Z.of_nat n ≤ prefix)
  else (1 ≤ n ≤ 16)%nat ∧ (4 ≤ prefix ≤ 128 → 4 * Z.of_nat n ≤ prefix).
Lemma zone_labels_sized a prefix : Netip.IsValid a = true → sized a prefix (zone_labels_of a prefix).
Proof.
  intros Ha. unfold sized, zone_labels_of. destruct (labels_spec a Ha); cbn [Netip.Is4]; unfold zone_bits.
  - rewrite bool_decide_eq_false_2 by done. apply clamp_v4.
  - rewrite bool_decide_eq_true_2 by done. apply clamp_v6.
Qed.

Lemma concat_dot ls : ∃ k : str, dot :: concat (map (λ p, p ++ ".") ls) = k ++ [dot].
Proof.
  induction ls as [|l ls [k IH]] using rev_ind; [by exists []|]. exists (dot :: concat (map (λ p : str, p ++ ".") ls) ++ l).
  rewrite map_app, concat_app. cbn [map concat]. rewrite app_nil_r. cbn [app]. by rewrite <- !app_assoc.
Qed.

(** A name lies in the zone of its last labels. *)
Lemma InZone_reverseName n parts suffix : InZone (reverseName parts suffix) (reverseName (take n parts) suffix) = true.
Proof.
  apply InZone_suffix. unfold reverseName. rewrite <- (take_drop n parts) at 2. rewrite reverse_app, map_app, concat_app.
  destruct (concat_dot (reverse (drop n parts))) as [k Hk]. exists k.
  change (dot :: (?x ++ ?y) ++ suffix) with ((dot :: x ++ y) ++ suffix). rewrite app_comm_cons, Hk. by rewrite <- !app_assoc.
Qed.

(** The part of a reverse zone's name before the tree's suffix. *)
Lemma concat_Join (ls : list str) : ls ≠ [] → concat (map (λ p, p ++ ".") ls) = Join ls "." ++ ".".
Proof.
  induction ls as [|l [|l' ls] IH]; intros Hne; [by destruct Hne|by cbn [map concat Join]; rewrite app_nil_r|].
  cbn [map concat]. cbn [map concat] in IH. rewrite IH by done. change (Join (l :: l' :: ls) ".") with (l ++ "." ++ Join (l' :: ls) ".").
  by rewrite <- !app_assoc.
Qed.

Lemma length_concat_dots (m : nat) (ls : list str) :
  Forall (λ l, (length l ≤ m)%nat) ls → (length (concat (map (λ p, p ++ ".") ls)) ≤ (m + 1) * length ls)%nat.
Proof.
  induction 1 as [|l ls Hl _ IH]; [simpl; lia|]. cbn [map concat length]. rewrite !length_app. change (length ("." : str)) with 1%nat. lia.
Qed.

(** Trees: the suffix, the check of a label, the number of labels and their length. *)
Inductive tree : str → (str → bool) → nat → nat → Prop :=
  | tree4 : tree v4Reverse Validate.octetOK 3 3
  | tree6 : tree v6Reverse Validate.nibbleOK 16 1.

Section Accepted.
Context {U : Unicode} {DNS : MiekgDNS} {PSL : PublicSuffixList} {LAWS : MiekgDNSLaws}.

Lemma not_v4_tree (k : str) : HasSuffix (k ++ "." ++ v6Reverse) ("." ++ v4Reverse) = false.
Proof.
  apply not_true_iff_false. intros (k' & E)%HasSuffix_spec.
  change ("." ++ v4Reverse) with ((".in-" : str) ++ "addr.arpa.") in E. rewrite (app_assoc k') in E.
  apply app_inj_2 in E as [_ E]; [by vm_compute in E|reflexivity].
Qed.

Lemma canonical_reverse ls suffix okb n m :
  tree suffix okb n m → ls ≠ [] → (length ls ≤ n)%nat → Forall (λ l, good_label l ∧ (length l ≤ m)%nat) ls →
  Validate.canonicalZone (concat (map (λ p, p ++ ".") ls) ++ suffix) = Ok (concat (map (λ p, p ++ ".") ls) ++ suffix).
Proof.
  intros Ht Hne Hn Hls. assert (Hg : Forall good_label ls) by (eapply Forall_impl; [exact Hls|]; naive_solver).
  assert (Hs : suffix = Validate.dotted (suffix_labels suffix) ∧ suffix_labels suffix ≠ [] ∧ Forall good_label (suffix_labels suffix)).
  { destruct Ht; (split; [vm_compute; reflexivity|]); (split; [by vm_compute|]); repeat constructor; vm_compute; reflexivity. }
  destruct Hs as (Hd & Hsn & Hsg). assert (Hlen : (length (concat (map (λ p, p ++ ".") ls) ++ suffix) ≤ 254)%nat).
  { rewrite length_app. pose proof (length_concat_dots m ls) as Hc. destruct Hls as [|l ls' Hl Hls']; [done|].
    specialize (Hc ltac:(constructor; [apply Hl|eapply Forall_impl; [exact Hls'|]; naive_solver])). destruct Ht;
      [change (length v4Reverse) with 13%nat|change (length v6Reverse) with 9%nat]; lia. }
  rewrite Hd in Hlen at 1. rewrite Hd at 1 2. rewrite concat_dotted in * by done.
  assert (Hall : Forall good_label (ls ++ suffix_labels suffix)) by (by apply Forall_app).
  assert (Hzl : Validate.zone_labels 0 (ls ++ suffix_labels suffix) = Ok ()).
  { apply Validate.zone_labels_Ok. intros j l Hj. rewrite Forall_lookup in Hall. specialize (Hall j l Hj).
    case_bool_decide; [by eapply Validate.labelOK_mono|done]. }
  unfold Validate.canonicalZone. rewrite Validate.split_dotted; [|by destruct ls| |done].
  - res_simpl. by rewrite Hzl.
  - by apply Validate.record_labels_bytes, Validate.zone_record_labels.
Qed.

Lemma ZoneName_reverse ls suffix okb n m :
  tree suffix okb n m → ls ≠ [] → (length ls ≤ n)%nat → Forall (λ l, good_label l ∧ (length l ≤ m)%nat) ls → forallb okb ls = true →
  Validate.ZoneName (concat (map (λ p, p ++ ".") ls) ++ suffix) = Ok (concat (map (λ p, p ++ ".") ls) ++ suffix).
Proof.
  intros Ht Hne Hn Hls Hok. unfold Validate.ZoneName. rewrite (canonical_reverse ls suffix okb n m) by done. res_simpl.
  assert (Hg : Forall (λ l, dot ∉ l) ls) by (apply good_nodots; eapply Forall_impl; [exact Hls|]; naive_solver).
  rewrite concat_Join, <- app_assoc by done.
  assert (HR : Validate.IsReverse (Join ls "." ++ "." ++ suffix) = true).
  { unfold Validate.IsReverse. apply orb_true_iff. destruct Ht; [left|right]; apply HasSuffix_app. }
  rewrite HR. assert (HO : Validate.reverseOK (Join ls "." ++ "." ++ suffix) = true); [|by rewrite HO].
  unfold Validate.reverseOK. destruct Ht.
  - change Validate.v4Suffix with v4Reverse. rewrite HasSuffix_app, TrimSuffix_app, Validate.SplitByte_dotted by done.
    rewrite (proj2 (Z.ltb_ge _ _)) by lia. done.
  - change Validate.v4Suffix with v4Reverse. rewrite not_v4_tree. change Validate.v6Suffix with v6Reverse.
    rewrite TrimSuffix_app, Validate.SplitByte_dotted by done. rewrite (proj2 (Z.ltb_ge _ _)) by lia. done.
Qed.

Lemma labelled_tree a prefix : Netip.IsValid a = true → ∃ okb n m, tree (labels a).2 okb n m ∧
  (length (take (zone_labels_of a prefix) (labels a).1) ≤ n)%nat ∧ take (zone_labels_of a prefix) (labels a).1 ≠ [] ∧
  Forall (λ l, good_label l ∧ okb l = true ∧ (length l ≤ m)%nat) (labels a).1.
Proof.
  intros Ha. pose proof (zone_labels_sized a prefix Ha) as Hn. unfold sized in Hn.
  destruct (labels_spec a Ha) as [b parts Hl Hp _|b z parts Hl Hp _]; cbn [Netip.Is4] in Hn; destruct Hn as [Hn _].
  - exists Validate.octetOK, 3%nat, 3%nat. split; [constructor|]. rewrite length_take. split; [lia|]. split; [|exact Hp].
    intros E%(f_equal length). rewrite length_take, Hl in E. simpl in E. lia.
  - exists Validate.nibbleOK, 16%nat, 1%nat. split; [constructor|]. rewrite length_take. split; [lia|]. split.
    + intros E%(f_equal length). rewrite length_take, Hl in E. simpl in E. lia.
    + eapply Forall_impl; [exact Hp|]. intros l [? Hn1]. split_and!; try done. unfold Validate.nibbleOK in Hn1. b2p. lia.
Qed.

Lemma reverse_accepted a prefix :
  Netip.IsValid a = true →
  Validate.ZoneName (ReverseZone a prefix) = Ok (ReverseZone a prefix) ∧ InZone (PTROwner a) (ReverseZone a prefix) = true.
Proof.
  intros Ha. rewrite ReverseZone_eq by done. split.
  - destruct (labelled_tree a prefix Ha) as (okb & n & m & Ht & Hlen & Hne & Hall). unfold reverseName.
    assert (Hsub : Forall (λ l, good_label l ∧ okb l = true ∧ (length l ≤ m)%nat) (reverse (take (zone_labels_of a prefix) (labels a).1)))
      by (by apply Forall_reverse, Forall_take).
    apply (ZoneName_reverse _ _ okb n m); [done| |by rewrite length_reverse| |].
    + intros E. apply (f_equal reverse) in E. by rewrite reverse_involutive in E.
    + eapply Forall_impl; [exact Hsub|]. naive_solver.
    + apply forallb_Forall. eapply Forall_impl; [exact Hsub|]. naive_solver.
  - unfold PTROwner. rewrite Ha. cbn [negb]. destruct (labels a). apply InZone_reverseName.
Qed.

(** The reverse zone planned for an address is one the zone service
    accepts as it is, it contains the PTR owner of the address, and its size is
    bounded: one to three octets of an IPv4 address, one to sixteen nibbles of an
    IPv6 address, and never more bits than a prefix in range (so the zone covers
    the whole subnet), whatever the prefix. *)
Theorem ReverseZone_spec a prefix :
  Netip.IsValid a = true →
  Validate.ZoneName (ReverseZone a prefix) = Ok (ReverseZone a prefix) ∧
  InZone (PTROwner a) (ReverseZone a prefix) = true ∧
  ∃ n, ReverseZone a prefix = reverseName (take n (labels a).1) (labels a).2 ∧ sized a prefix n.
Proof.
  intros Ha. destruct (reverse_accepted a prefix Ha) as [Hz Hin]. split; [done|]. split; [done|].
  exists (zone_labels_of a prefix). split; [by apply ReverseZone_eq|by apply zone_labels_sized].
Qed.

(** ** Planning *)

Lemma longest_Some zs n rev z :
  longest zs n rev = Some z →
  z ∈ zs ∧ InZone n (Name z) = true ∧ Validate.IsReverse (Name z) = rev ∧
  ∀ z', z' ∈ zs → Validate.IsReverse (Name z') = rev → InZone n (Name z') = true → nlen z' ≤ nlen z.
Proof.
  unfold longest. intros H. destruct (longest_loop_from _ _ _ _ H) as [?|[Hz Hp]]; [done|]. b2p. apply eqb_prop in H0.
  split_and!; try done. intros z' Hz' Hr Hin.
  destruct (longest_loop_max (λ z, Bool.eqb (Validate.IsReverse (Name z)) rev && InZone n (Name z)) zs None z') as (b & E & ?); [done| |congruence].
  by rewrite Hr, Hin, eqb_reflx.
Qed.
Lemma longest_None zs n rev z :
  longest zs n rev = None → z ∈ zs → Validate.IsReverse (Name z) = rev → InZone n (Name z) = false.
Proof.
  unfold longest. intros H Hz Hr. apply not_true_iff_false. intros Hin.
  destruct (longest_loop_max (λ z, Bool.eqb (Validate.IsReverse (Name z)) rev && InZone n (Name z)) zs None z) as (b & E & ?); [done| |congruence].
  by rewrite Hr, Hin, eqb_reflx.
Qed.

(** The forward plan of a host puts its address record under the canonical
    host name, in a forward zone that contains it: the most specific one the
    tenant has, or, only when it has none, a new zone that the zone service
    accepts (so never a public suffix) at the host's registrable domain. *)
Theorem PlanForward_spec zs host a f :
  PlanForward zs host a = Ok f →
  CanonicalHost host = Some (FwName f) ∧ FwType f = recordType a ∧ InZone (FwName f) (FwZone f) = true ∧
  if FwExisting f then
    ∃ z, z ∈ zs ∧ Name z = FwZone f ∧ ID z = FwZoneID f ∧ Validate.IsReverse (Name z) = false ∧
      ∀ z', z' ∈ zs → Validate.IsReverse (Name z') = false → InZone (FwName f) (Name z') = true → nlen z' ≤ nlen z
  else
    Validate.ZoneName (FwZone f) = Ok (FwZone f) ∧
    (∃ reg, EffectiveTLDPlusOne (TrimSuffix (FwName f) ".") = Some reg ∧ Validate.ZoneName reg = Ok (FwZone f)) ∧
    ∀ z, z ∈ zs → Validate.IsReverse (Name z) = false → InZone (FwName f) (Name z) = false.
Proof.
  unfold PlanForward. destruct (Netip.IsValid a); [|done]. cbn [negb]. destruct (CanonicalHost host) as [h|]; [|done].
  destruct (longest zs h false) as [z|] eqn:El.
  - intros [= <-]. cbn [FwName FwType FwZone FwExisting FwZoneID]. apply longest_Some in El as (Hz & Hin & Hr & Hmax).
    split_and!; try done. by exists z.
  - destruct (EffectiveTLDPlusOne _) as [reg|] eqn:Er; [|done]. destruct (Validate.ZoneName reg) as [zone|] eqn:Ez; [|done].
    destruct (InZone h zone) eqn:Ein; [|done]. intros [= <-]. cbn [FwName FwType FwZone FwExisting FwZoneID]. split_and!; try done.
    + by eapply Validate.ZoneName_idem.
    + by exists reg.
    + intros z Hz Hr. by eapply longest_None.
Qed.

(** The reverse plan of an address is total for valid addresses; its PTR
    record goes in a reverse zone that contains its owner name: the most specific
    one of the tenant, or, only when there is none, the subnet-sized zone, which
    the zone service accepts. *)
Theorem PlanReverse_spec zs a prefix :
  Netip.IsValid a = true →
  ∃ r, PlanReverse zs a prefix = Ok r ∧ RvOwner r = PTROwner a ∧ InZone (PTROwner a) (RvZone r) = true ∧
  if RvExisting r then
    ∃ z, z ∈ zs ∧ Name z = RvZone r ∧ ID z = RvZoneID r ∧ Validate.IsReverse (Name z) = true ∧
      ∀ z', z' ∈ zs → Validate.IsReverse (Name z') = true → InZone (PTROwner a) (Name z') = true → nlen z' ≤ nlen z
  else
    RvZone r = ReverseZone a prefix ∧ Validate.ZoneName (RvZone r) = Ok (RvZone r) ∧
    ∀ z, z ∈ zs → Validate.IsReverse (Name z) = true → InZone (PTROwner a) (Name z) = false.
Proof.
  intros Ha. unfold PlanReverse. rewrite Ha. cbn [negb]. destruct (longest zs (PTROwner a) true) as [z|] eqn:El.
  - eexists. split; [done|]. cbn [RvOwner RvZone RvExisting RvZoneID]. apply longest_Some in El as (Hz & Hin & Hr & Hmax).
    split_and!; try done. by exists z.
  - eexists. split; [done|]. cbn [RvOwner RvZone RvExisting RvZoneID].
    destruct (reverse_accepted a prefix Ha) as [Hz Hin]. split_and!; try done. intros z Hz' Hr. by eapply longest_None.
Qed.
End Accepted.

Example PTROwner_v4 : PTROwner (Netip.V4 (192 * 2^24 + 2 * 2^8 + 7)) = ("7.2.0.192.in-addr.arpa." : str).
Proof. vm_compute. reflexivity. Qed.
Example ReverseZone_v4 : ReverseZone (Netip.V4 (192 * 2^24 + 2 * 2^8 + 7)) 20 = ("0.192.in-addr.arpa." : str).
Proof. vm_compute. reflexivity. Qed.

Module Concrete.
#[local] Existing Instance unicode_min.
#[local] Existing Instance miekg_plain.
#[local] Existing Instance miekg_plain_laws.
#[local] Existing Instance psl_tld.

Definition ip4 : Netip.Addr := Netip.V4 3221225985.
Definition ip6 : Netip.Addr := Netip.V6 42540766411282592856903984951653826561 [].
Definition zone_a : Zone := mkZone "z1" "t1" "example.com." "example.com." "native" [] false [] [] "manual" [] [] 0 0.

Lemma PTROwner_injective_witness :
  PTROwner ip4 = PTROwner (Netip.V6 (65535 * 2 ^ 32 + 3221225985) []) ∧ unscoped (Netip.Unmap ip4) = unscoped (Netip.Unmap (Netip.V6 (65535 * 2 ^ 32 + 3221225985) [])).
Proof.
  assert (E : PTROwner ip4 = PTROwner (Netip.V6 (65535 * 2 ^ 32 + 3221225985) [])) by (vm_compute; reflexivity).
  split; [exact E|]. apply (PTROwner_injective ip4 (Netip.V6 (65535 * 2 ^ 32 + 3221225985) []));
    [reflexivity|reflexivity|unfold ip4, addr_wf; lia|unfold addr_wf; lia|exact E].
Defined.

Lemma ReverseZone_spec_witness :
  ReverseZone ip6 56 = ("0.0.0.0.0.0.8.b.d.0.1.0.0.2.ip6.arpa." : str) ∧ InZone (PTROwner ip6) (ReverseZone ip6 56) = true.
Proof. split; [vm_compute; reflexivity|]. exact (proj1 (proj2 (ReverseZone_spec ip6 56 eq_refl))). Defined.

Lemma PlanForward_spec_witness :
  PlanForward [zone_a] "WWW.example.com" ip4 = Ok (mkForward "example.com." "z1" true "www.example.com." "A") ∧
  InZone "www.example.com." "example.com." = true.
Proof.
  assert (E : PlanForward [zone_a] "WWW.example.com" ip4 = Ok (mkForward "example.com." "z1" true "www.example.com." "A"))
    by (vm_compute; reflexivity).
  split; [exact E|]. exact (proj1 (proj2 (proj2 (PlanForward_spec [zone_a] "WWW.example.com" ip4 _ E)))).
Defined.

Lemma PlanReverse_spec_witness : ∃ r, PlanReverse [zone_a] ip4 (-1) = Ok r ∧ InZone (PTROwner ip4) (RvZone r) = true.
Proof.
  destruct (PlanReverse_spec [zone_a] ip4 (-1) eq_refl) as (r & E & _ & H & _). exists r. split; [exact E|exact H].
Defined.
End Concrete.
End IpamPlan.
