(* ===== verification/IpamSync.v ===== *)
(** * IPAM synchronisation ([internal/ipamsync/sync.go])

    An address event names an address; its current state is read from IPAM and
    the tenant's DNS is brought to it, through the zone and record services and
    with the subject of the sync.  A row of the store remembers what was written
    for the address.  IPAM is a parameter: what it answers for an address and for
    a subnet. *)
From Stdlib Require Import Ascii.
From S2P Require Import Prelude GoStrings GoError Store Names Netip Content Masters Authz MemStore Pdns RecordSets Recursor World Zones Records IpamPlan.
Local Open Scope Z_scope.

Module IpamSync.
Import Store IpamPlan.

Record Address := mkAddress { AdID : str; AdAddress : str; AdSubnetID : str; AdHostname : str }.
Record Subnet := mkSubnet { SnID : str; SnCIDR : str }.

(** The IPAM interface: [ErrNotFound] means that the tenant has no such address. *)
Class IPAM := {
  GetAddress : str → str → res Address;
  GetSubnet : str → str → res Subnet
}.

Definition Comment : str := "managed by IPAM sync".
Definition PTR : str := "PTR".
Definition SyncUpsert : str := "sync.upsert".
Definition SyncDelete : str := "sync.delete".
Definition SyncSkip : str := "sync.skip".

Definition lastEvent (typ : str) : str :=
  if bool_decide (typ = TypeUpdated) then SyncUpdated
  else if bool_decide (typ = TypeScanned) then SyncScanned
  else if bool_decide (typ = TypeDeleted) then SyncDeleted
  else SyncCreated.

Definition permanent (e : error) : bool :=
  Is e ErrSkip || Is e ErrDuplicate || Is e ErrInvalidKind || Is e ErrName || Is e ErrRecord || Is e ErrPublicSuffix.

Definition contents (r : Records.RecordSet) : list str := map Records.VwContent (Records.VwValues r).

Definition input (name typ : str) (ttl : Z) (values : list str) : RecordSets.RecordSetInput :=
  RecordSets.mkRecordSetInput name typ ttl (map (λ v, RecordSets.mkRecordValue v false) values) Comment.

Section Service.
Context {U : Unicode} {DNS : MiekgDNS} {PSL : PublicSuffixList} {RRP : Content.RRParser}.
Context {S P R : Type} {RS : MemStore.RepoStore S} {PC : Pdns.PDNSClient P} {RC : RecursorClient R}.
Context {TE : Zones.TemplateExpander S} {IC : IPAM}.
Context (cfg : Zones.Config) (lim : RecordSets.Limits) (ttl : Z).
Abbreviation W := (World S P R).

(** The TTL of the records ([New] replaces a value that is not positive). *)
Definition TTL : Z := if ttl <=? 0 then 3600 else ttl.

Definition auditDetail (subj : Authz.Subjects) (t id outcome reason : str) (details : list (str * str)) : M W unit :=
  record_audit (AuditEvent.mkEvent (Authz.STenantID subj) t (AuditEvent.ActorOf (Authz.ActorKind subj)) (Authz.ActorID subj)
    AuditEvent.SubjectSync id outcome reason details).
Definition auditEvent (subj : Authz.Subjects) (t id outcome reason forward reverse : str) : M W unit :=
  auditDetail subj t id outcome reason [("forward" : str, forward); ("reverse" : str, reverse)].

(** One side that could not be written. *)
Definition outcome (subj : Authz.Subjects) (id zone name typ : str) (e : error) : M W unit :=
  if Is e ErrSkip then metric (Metrics.IPAMSync "skip" Metrics.ResultSkipped)
  else
    let reason : str :=
      if Is e ErrDuplicate then "zone_conflict"
      else if Is e ErrInvalidKind then "invalid_kind"
      else if Is e ErrName || Is e ErrRecord || Is e ErrPublicSuffix then "invalid_name" else "error" in
    let details := [("zone" : str, zone); ("name" : str, name); ("type" : str, typ)] in
    if negb (bool_decide (reason = "error")) then
      _ ← auditDetail subj SyncSkip id AuditEvent.OutcomeRefused reason details;
      metric (Metrics.IPAMSync "skip" Metrics.ResultRefused)
    else
      _ ← auditDetail subj SyncUpsert id AuditEvent.OutcomeError "error" details;
      metric (Metrics.IPAMSync "upsert" Metrics.ResultError).

(** A zone of the tenant, created when it is not there. *)
Definition zone (subj : Authz.Subjects) (existing : bool) (id name : str) : M W (res Zone) :=
  if existing then Zones.Owned cfg subj id
  else
    r ← Zones.Create cfg subj (Zones.mkCreateInput name KindNative [] [] false [] [] OriginIPAM []);
    match r with
    | Err e =>
      if Is e ErrDuplicate then
        own ← Zones.ByName cfg subj name;
        mret match own with Ok z => Ok z | Err _ => Err e end
      else mret (Err e)
    | Ok z => mret (Ok z)
    end.

Definition lookup (subj : Authz.Subjects) (z : Zone) (name typ : str) : M W (res (option Records.RecordSet)) :=
  r ← Records.Lookup subj z (Records.mkKey name typ);
  mret match r with
       | Ok cur => Ok (Some cur)
       | Err e => if Is e RecordsErrNotFound then Ok None else Err e
       end.

Definition applied (subj : Authz.Subjects) (z : Zone) (i : RecordSets.RecordSetInput) : M W (res unit) :=
  r ← Records.Apply lim subj z i Events.SourceIPAM;
  mret match r with Ok _ => Ok () | Err e => Err e end.

Definition addValue (subj : Authz.Subjects) (z : Zone) (name typ value : str) : M W (res unit) :=
  cur ←? lookup subj z name typ;
  match cur with
  | Some c => if contains (contents c) value then mret (Ok ())
              else applied subj z (input name typ (Records.VwTTL c) (contents c ++ [value]))
  | None => applied subj z (input name typ (Pdns.uint32 TTL) [value])
  end.

Definition removeValue (subj : Authz.Subjects) (zoneID name typ value : str) : M W (res unit) :=
  z ← Zones.Owned cfg subj zoneID;
  match z with
  | Err e => mret (if Is e ZonesErrNotFound then Ok () else Err e)
  | Ok z =>
    cur ←? lookup subj z name typ;
    match cur with
    | None => mret (Ok ())
    | Some c =>
      let rest := List.filter (λ v, negb (bool_decide (v = value))) (contents c) in
      if (length rest =? length (Records.VwValues c))%nat then mret (Ok ())
      else if bool_decide (rest = []) then Records.Remove subj z (Records.mkKey name typ) Events.SourceIPAM
      else
        let i := input name typ (Records.VwTTL c) rest in
        applied subj z (RecordSets.mkRecordSetInput (RecordSets.IName i) (RecordSets.IType i) (RecordSets.ITTL i)
                          (RecordSets.IValues i) (Records.VwComment c))
    end
  end.

Definition removeSet (subj : Authz.Subjects) (zoneID name typ : str) : M W (res unit) :=
  z ← Zones.Owned cfg subj zoneID;
  match z with
  | Err e => mret (if Is e ZonesErrNotFound then Ok () else Err e)
  | Ok z => Records.Remove subj z (Records.mkKey name typ) Events.SourceIPAM
  end.

Definition setPTR (subj : Authz.Subjects) (z : Zone) (owner host : str) : M W (res unit) :=
  cur ←? lookup subj z owner PTR;
  if match cur with Some c => bool_decide (contents c = [host]) | None => false end then mret (Ok ())
  else applied subj z (input owner PTR (Pdns.uint32 TTL) [host]).

(** The transition of one side: whether the previous references are kept, the
    error of the side, and the failed removal to report. *)
Record sided := mkSided { sdKeep : bool; sdErr : option error; sdNoted : option error }.
Definition side_write (planErr : option error) (write : M W (res unit)) : M W sided :=
  match planErr with
  | Some e => mret (mkSided false (Some e) None)
  | None => r ← write; mret (mkSided (match r with Err e => negb (permanent e) | Ok _ => false end) (err_of r) None)
  end.
Definition side (planErr : option error) (moved : bool) (remove write : M W (res unit)) : M W sided :=
  if moved then
    if match planErr with Some e => negb (permanent e) | None => false end then mret (mkSided true planErr None)
    else
      r ← remove;
      match r with
      | Err e => mret (mkSided true (Some e) (Some e))
      | Ok _ => side_write planErr write
      end
  else side_write planErr write.

(** The planned zone of a side, loaded or created. *)
Definition planned {A} (plan : res A) (load : A → M W (res Zone)) : M W (res Zone) :=
  match plan with Err e => mret (Err e) | Ok f => load f end.

Definition sync_forward (subj : Authz.Subjects) (prev : IPAMSync) (zs : list Zone) (host : str) (ip : Netip.Addr) (address : str) :
    M W (str * str * str * sided) :=
  let plan := PlanForward zs host ip in
  let fw := match plan with Ok f => f | Err _ => noForward end in
  fz ← planned plan (λ f, zone subj (FwExisting f) (FwZoneID f) (FwZone f));
  let z := match fz with Ok z => z | Err _ => Zones.zeroZone end in
  let moved := negb (bool_decide (SyForwardName prev = [])) &&
    (negb (is_ok fz) || negb (bool_decide (SyForwardZoneID prev = ID z)) || negb (bool_decide (SyForwardName prev = FwName fw))
     || negb (bool_decide (SyForwardType prev = FwType fw)) || negb (bool_decide (SyAddress prev = address))) in
  s ← side (err_of fz) moved
        (removeValue subj (SyForwardZoneID prev) (SyForwardName prev) (SyForwardType prev) (SyAddress prev))
        (addValue subj z (FwName fw) (FwType fw) address);
  let '(zid, name, typ) :=
    match sdErr s with
    | None => (ID z, FwName fw, FwType fw)
    | Some _ => if sdKeep s then (SyForwardZoneID prev, SyForwardName prev, SyForwardType prev) else ([], [], [])
    end in
  _ ← match sdErr s with Some e => outcome subj (SyIPAddressID prev) (FwZone fw) host (FwType fw) e | None => mret () end;
  mret (zid, name, typ, s).

Definition sync_reverse (subj : Authz.Subjects) (prev : IPAMSync) (zs : list Zone) (host : str) (ip : Netip.Addr) (subnetID : str) :
    M W (str * str * sided) :=
  let prefix := if bool_decide (subnetID = []) then -1
                else match GetSubnet (Authz.STenantID subj) subnetID with Ok sn => PrefixOf (SnCIDR sn) | Err _ => -1 end in
  let plan := PlanReverse zs ip prefix in
  let rv := match plan with Ok r => r | Err _ => noReverse end in
  rz ← planned plan (λ r, zone subj (RvExisting r) (RvZoneID r) (RvZone r));
  let z := match rz with Ok z => z | Err _ => Zones.zeroZone end in
  let moved := negb (bool_decide (SyReverseName prev = [])) &&
    (negb (is_ok rz) || negb (bool_decide (SyReverseZoneID prev = ID z)) || negb (bool_decide (SyReverseName prev = RvOwner rv))) in
  s ← side (err_of rz) moved (removeSet subj (SyReverseZoneID prev) (SyReverseName prev) PTR) (setPTR subj z (RvOwner rv) host);
  let '(zid, name) :=
    match sdErr s with
    | None => (ID z, RvOwner rv)
    | Some _ => if sdKeep s then (SyReverseZoneID prev, SyReverseName prev) else ([], [])
    end in
  _ ← match sdErr s with Some e => outcome subj (SyIPAddressID prev) (RvZone rv) (RvOwner rv) PTR e | None => mret () end;
  mret (zid, name, s).

Definition upsert (subj : Authz.Subjects) (prev : IPAMSync) (ip : Netip.Addr) (host subnetID last : str) : M W (res unit) :=
  x ← on_store (MemStore.repo_ZonesForTenant (Authz.STenantID subj));
  match x with
  | Err e => mret (Err (Wrapf e "ipam sync: zones"))
  | Ok zs =>
    t ← now;
    let address := Netip.String ip in
    f ← sync_forward subj prev zs host ip address;
    r ← sync_reverse subj prev zs host ip subnetID;
    let '(fzid, fname, ftyp, fs) := f in
    let '(rzid, rname, rs) := r in
    u ← on_store (MemStore.repo_UpsertIPAMSync
          (mkIPAMSync (Authz.STenantID subj) (SyIPAddressID prev) address host fzid fname ftyp rzid rname last t));
    match u with
    | Err e => mret (Err (Wrapf e "ipam sync: save state"))
    | Ok _ =>
      _ ← match sdErr fs, sdErr rs with
          | Some _, Some _ => mret ()
          | _, _ => _ ← auditEvent subj SyncUpsert (SyIPAddressID prev) AuditEvent.OutcomeOK [] fname rname;
                    metric (Metrics.IPAMSync "upsert" Metrics.ResultOK)
          end;
      mret match sdNoted fs, sdNoted rs with Some e, _ => Err e | None, Some e => Err e | None, None => Ok () end
    end
  end.

(** Remove what was written for the address. *)
Definition drop_records (subj : Authz.Subjects) (prev : IPAMSync) : M W (res unit) :=
  f ← (if bool_decide (SyForwardName prev = []) then mret (Ok ())
       else removeValue subj (SyForwardZoneID prev) (SyForwardName prev) (SyForwardType prev) (SyAddress prev));
  r ← (if bool_decide (SyReverseName prev = []) then mret (Ok ()) else removeSet subj (SyReverseZoneID prev) (SyReverseName prev) PTR);
  match (match f with Err e => Some e | Ok _ => err_of r end) with
  | Some e =>
    _ ← auditEvent subj SyncDelete (SyIPAddressID prev) AuditEvent.OutcomeError "error" (SyForwardName prev) (SyReverseName prev);
    _ ← metric (Metrics.IPAMSync "delete" Metrics.ResultError);
    mret (Err e)
  | None =>
    if bool_decide (SyForwardName prev = []) && bool_decide (SyReverseName prev = []) then mret (Ok ())
    else
      _ ← auditEvent subj SyncDelete (SyIPAddressID prev) AuditEvent.OutcomeOK [] (SyForwardName prev) (SyReverseName prev);
      _ ← metric (Metrics.IPAMSync "delete" Metrics.ResultOK);
      mret (Ok ())
  end.

Definition clear (subj : Authz.Subjects) (prev : IPAMSync) (last : str) : M W (res unit) :=
  r ← drop_records subj prev;
  t ← now;
  let next := match r with
    | Ok _ => mkIPAMSync (SyTenantID prev) (SyIPAddressID prev) (SyAddress prev) [] [] [] [] [] [] last t
    | Err _ => mkIPAMSync (SyTenantID prev) (SyIPAddressID prev) (SyAddress prev) [] (SyForwardZoneID prev) (SyForwardName prev)
                 (SyForwardType prev) (SyReverseZoneID prev) (SyReverseName prev) last t
    end in
  u ← on_store (MemStore.repo_UpsertIPAMSync next);
  match u with
  | Err e => mret (Err (Wrapf e "ipam sync: save state"))
  | Ok _ => mret r
  end.

Definition release (subj : Authz.Subjects) (prev : IPAMSync) : M W (res unit) :=
  _ ←? drop_records subj prev;
  d ← on_store (MemStore.repo_DeleteIPAMSync (SyTenantID prev) (SyIPAddressID prev));
  match d with
  | Err e => mret (if Is e RepoErrNotFound then Ok () else Err (Wrapf e "ipam sync: delete state"))
  | Ok _ => mret (Ok ())
  end.

(** An event about an address whose state row is [prev]. *)
Definition handle_known (subj : Authz.Subjects) (tenantID : str) (ev : Event) (prev : option IPAMSync) : M W (res unit) :=
  let refuse : M W (res unit) :=
    _ ← metric (Metrics.IPAMSync "read" Metrics.ResultRefused);
    mret (Err (Wrapf (New ErrMalformed) "IPAM returned an unusable address")) in
  match GetAddress tenantID (EvID ev) with
  | Err e =>
    if Is e IpamErrNotFound then match prev with None => mret (Ok ()) | Some p => release subj p end
    else
      _ ← metric (Metrics.IPAMSync "read" Metrics.ResultUnavailable);
      mret (Err (Wrapf e "ipam sync: read address"))
  | Ok addr =>
    match Netip.ParseAddr (TrimSpace (AdAddress addr)) with
    | None => refuse
    | Some ip =>
      if negb (bool_decide (Netip.zone_of ip = [])) || negb (bool_decide (AdID addr = EvID ev)) then refuse
      else
        match CanonicalHost (AdHostname addr) with
        | None =>
          match prev with
          | None => _ ← metric (Metrics.IPAMSync "skip" Metrics.ResultSkipped); mret (Ok ())
          | Some p => clear subj p (lastEvent (EvType ev))
          end
        | Some host =>
          let p := match prev with Some p => p | None => mkIPAMSync tenantID (EvID ev) [] [] [] [] [] [] [] [] 0 end in
          upsert subj p (Netip.Unmap ip) host (AdSubnetID addr) (lastEvent (EvType ev))
        end
    end
  end.

(** Bring the tenant's DNS to what IPAM says of the address. *)
Definition Handle (tenantID : str) (ev : Event) : M W (res unit) :=
  if bool_decide (tenantID = []) || bool_decide (EvID ev = []) then mret (Err (Wrapf (New ErrMalformed) "tenant and address id required"))
  else
    let subj := Authz.SystemFor tenantID in
    p ← on_store (MemStore.repo_GetIPAMSync tenantID (EvID ev));
    match p with
    | Err e => if negb (Is e RepoErrNotFound) then mret (Err (Wrapf e "ipam sync: state")) else handle_known subj tenantID ev None
    | Ok prev => handle_known subj tenantID ev (Some prev)
    end.
End Service.
End IpamSync.
