(* ===== verification/IpamSyncSpec.v ===== *)
(** * Theorems about the IPAM synchronisation

    An event only reaches the zones of its tenant and never removes a zone; when
    a side reports no error its record is in the DNS; a released address leaves
    none of its records behind. *)
From Stdlib Require Import Ascii.
From S2P Require Import Prelude GoStrings GoError Store Names Netip Content Masters Authz MemStore Pdns RecordSets Recursor World Zones ZonesSpec Records RecordsSpec IpamPlan IpamSync.
Local Open Scope Z_scope.

Module IpamSyncSpec.
Import Store Zones ZonesSpec RecordsSpec IpamPlan IpamSync.

Section Spec.
Context {U : Unicode} {DNS : MiekgDNS} {PSL : PublicSuffixList} {LAWS : MiekgDNSLaws} {RRP : Content.RRParser}.
Context {S P R : Type} {RS : MemStore.RepoStore S} {PC : Pdns.PDNSClient P} {RC : RecursorClient R}.
Context {TE : TemplateExpander S} {IC : IPAM}.
Context (cfg : Config) (lim : RecordSets.Limits) (ttl : Z).
Abbreviation W := (World S P R).
Implicit Types w : World S P R.

(** ** Metrics only grow *)

Definition grows {A} (m : M W A) : Prop := ∀ w, w_metrics w `prefix_of` w_metrics (m w).2.

Lemma grows_ret {A} (a : A) : grows (mret a).
Proof. intros w. reflexivity. Qed.
Lemma grows_bind {A B} (m : M W A) (k : A → M W B) : grows m → (∀ a, grows (k a)) → grows (m ≫= k).
Proof.
  intros Hm Hk w. unfold mbind, M_bind. specialize (Hm w). destruct (m w) as [a w1]. simpl in Hm. etrans; [exact Hm|apply Hk].
Qed.
Lemma grows_try {A B} (m : M W (res A)) (k : A → M W (res B)) : grows m → (∀ a, grows (k a)) → grows (try_ m k).
Proof.
  intros Hm Hk w. unfold try_. specialize (Hm w). destruct (m w) as [[a|e] w1]; simpl in Hm; [|done]. etrans; [exact Hm|apply Hk].
Qed.
Lemma grows_store {A} (op : S → res A * S) : grows (on_store op).
Proof. intros w. unfold on_store. destruct (op (w_store w)). reflexivity. Qed.
Lemma grows_metric m : grows (metric m).
Proof. intros w. simpl. by apply prefix_app_r. Qed.
Lemma grows_audit e : grows (record_audit e).
Proof. intros w. reflexivity. Qed.
Lemma grows_publish t e p : grows (publish t e p).
Proof. intros w. reflexivity. Qed.
Lemma grows_mint f : grows (mint f).
Proof. intros w. reflexivity. Qed.
Lemma grows_now : grows now.
Proof. intros w. reflexivity. Qed.
Lemma grows_Call {A} op (f : P → res A * P) : grows (Call op f).
Proof.
  apply grows_bind; [|intros; apply grows_bind; [apply grows_metric|intros; apply grows_ret]].
  intros w. unfold on_pdns. destruct (f (w_pdns w)). reflexivity.
Qed.
Lemma grows_syncForward n : grows (syncForward n).
Proof.
  intros w. unfold syncForward. destruct (w_rec w) as [r|]; [|done]. destruct (rec_SyncForward n r) as [x r']. simpl. by apply prefix_app_r.
Qed.

(** Composition of the calls of the services. *)
Ltac grow :=
  repeat (intros; cbv zeta;
    first [ apply grows_ret | apply grows_store | apply grows_metric | apply grows_audit | apply grows_publish | apply grows_mint
          | apply grows_now | apply grows_Call | apply grows_syncForward | assumption
          | apply grows_bind | apply grows_try | case_match ]).

Lemma grows_Create subj i : grows (Create cfg subj i).
Proof. unfold Create, create, prepare, create_check, create_commit, initial_rrsets, Zones.audit, EmitZone. grow. Qed.
Lemma grows_Owned subj id : grows (Owned cfg subj id).
Proof. unfold Owned, owned. grow. Qed.
Lemma grows_ByName subj n : grows (ByName cfg subj n).
Proof. unfold ByName. grow. Qed.
Lemma grows_Lookup subj z k : grows (Records.Lookup subj z k).
Proof. unfold Records.Lookup, Records.rrsets. grow. Qed.
Lemma grows_Apply subj z i src : grows (Records.Apply lim subj z i src).
Proof. unfold Records.Apply, Records.apply, Records.rrsets, Records.patch, Records.audit, EmitRecord. grow. Qed.
Lemma grows_Remove subj z k src : grows (Records.Remove subj z k src).
Proof. unfold Records.Remove, Records.remove, Records.removed, Records.rrsets, Records.patch, Records.audit, EmitRecord. grow. Qed.

Ltac grow_sync := grow; try solve [apply grows_Create | apply grows_Owned | apply grows_ByName | apply grows_Lookup | apply grows_Apply | apply grows_Remove].
Lemma grows_zone subj b i n : grows (IpamSync.zone cfg subj b i n).
Proof. unfold IpamSync.zone. grow_sync; grow_sync. Qed.
Lemma grows_removeSet subj zid n ty : grows (removeSet cfg subj zid n ty).
Proof. unfold removeSet. grow_sync. Qed.
Lemma grows_setPTR subj z o h : grows (setPTR lim ttl subj z o h).
Proof. unfold setPTR, IpamSync.lookup, applied. grow_sync. Qed.
Lemma grows_outcome subj id zn n ty e : grows (outcome subj id zn n ty e).
Proof. unfold outcome, auditDetail. grow. Qed.

Lemma grows_side pe moved (remove write : M W (res unit)) : grows remove → grows write → grows (side pe moved remove write).
Proof. intros Hr Hw. unfold side, side_write. grow. Qed.

Lemma grows_reverse subj prev zs host ip sn : grows (sync_reverse cfg lim ttl subj prev zs host ip sn).
Proof.
  unfold sync_reverse, planned. grow; auto using grows_zone, grows_outcome, grows_side, grows_removeSet, grows_setPTR.
Qed.

(** A side that failed is counted. *)
Definition sync_failed (m : Metrics.sample) : bool :=
  match m with Metrics.IPAMSync _ r => negb (bool_decide (r = Metrics.ResultOK)) | _ => false end.
Definition failed_since (w w' : W) : Prop := ∃ l m, w_metrics w' = w_metrics w ++ l ∧ m ∈ l ∧ sync_failed m = true.

Lemma failed_later w0 w1 w2 w3 :
  w_metrics w0 `prefix_of` w_metrics w1 → failed_since w1 w2 → w_metrics w2 `prefix_of` w_metrics w3 → failed_since w0 w3.
Proof.
  intros [k0 E0] (l & m & E & Hm & Hf) [k E2]. exists (k0 ++ l ++ k), m. split; [rewrite E2, E, E0; by rewrite <- !app_assoc|].
  split; [set_solver|done].
Qed.

Lemma outcome_counted subj id zn n ty e w x w' : outcome subj id zn n ty e w = (x, w') → failed_since w w'.
Proof.
  unfold outcome, auditDetail, record_audit, metric. cbv zeta.
  intros H. repeat case_match; unfold mbind, M_bind in H; injection H as _ <-; eexists [_], _; (split; [reflexivity|]); (split; [by apply list_elem_of_singleton|done]).
Qed.

Lemma grows_removeValue subj zid n ty v : grows (removeValue cfg lim subj zid n ty v).
Proof. unfold removeValue, IpamSync.lookup, applied. grow_sync. Qed.
Lemma grows_addValue subj z n ty v : grows (addValue lim ttl subj z n ty v).
Proof. unfold addValue, IpamSync.lookup, applied. grow_sync. Qed.
Lemma grows_planned {A} (plan : res A) load : (∀ f, grows (load f)) → grows (planned plan load).
Proof. intros H. unfold planned. grow; auto. Qed.

Lemma run_grows {A} (m : M W A) w a w' : grows m → m w = (a, w') → w_metrics w `prefix_of` w_metrics w'.
Proof. intros H E. specialize (H w). by rewrite E in H. Qed.

Lemma forward_failed subj prev zs host ip address w zid name ty s w' :
  sync_forward cfg lim ttl subj prev zs host ip address w = ((zid, name, ty, s), w') → sdErr s ≠ None → failed_since w w'.
Proof.
  intros H He. unfold sync_forward in H. cbv zeta in H. run_bind H fz w1 E1.
  apply run_grows in E1; [|apply grows_planned; intros; apply grows_zone]. run_bind H s0 w2 E2.
  apply run_grows in E2; [|apply grows_side; [apply grows_removeValue|apply grows_addValue]].
  destruct (sdErr s0) as [e|] eqn:Ee; [|run_bind H u w3 E3; injection H as _ _ _ <- _; done].
  destruct (sdKeep s0); run_bind H u w3 E3; injection H as _ _ _ _ <-; apply outcome_counted in E3;
    (eapply failed_later; [by etrans|exact E3|reflexivity]).
Qed.

Lemma sync_forward_grows subj prev zs host ip address w x w' :
  sync_forward cfg lim ttl subj prev zs host ip address w = (x, w') → w_metrics w `prefix_of` w_metrics w'.
Proof.
  apply run_grows. unfold sync_forward. apply grows_bind; [apply grows_planned; intros; apply grows_zone|]. intros fz. cbv zeta.
  apply grows_bind; [apply grows_side; [apply grows_removeValue|apply grows_addValue]|]. intros s0.
  repeat case_match; grow; apply grows_outcome.
Qed.

Lemma reverse_failed subj prev zs host ip sn w zid name s w' :
  sync_reverse cfg lim ttl subj prev zs host ip sn w = ((zid, name, s), w') → sdErr s ≠ None → failed_since w w'.
Proof.
  intros H He. unfold sync_reverse in H. cbv zeta in H. set (prefix := if bool_decide (sn = []) then _ else _) in H. run_bind H fz w1 E1.
  apply run_grows in E1; [|apply grows_planned; intros; apply grows_zone]. run_bind H s0 w2 E2.
  apply run_grows in E2; [|apply grows_side; [apply grows_removeSet|apply grows_setPTR]].
  destruct (sdErr s0) as [e|] eqn:Ee; [|run_bind H u w3 E3; injection H as _ _ <- _; done].
  destruct (sdKeep s0); run_bind H u w3 E3; injection H as _ _ _ <-; apply outcome_counted in E3;
    (eapply failed_later; [by etrans|exact E3|reflexivity]).
Qed.

(** ** What the sync can reach *)

(** The rows of the sync state of the other tenants, and the zones: none goes
    away, and those of other tenants keep their server entries. *)
Record confined (t : str) (w w' : W) : Prop := {
  cf_inv : zinv w';
  cf_rows : MemStore.zones (wdb w) ⊆ MemStore.zones (wdb w');
  cf_other k z : MemStore.zones (wdb w) !! k = Some z → TenantID z ≠ t →
    Pdns.zones (wsrv w') !! PDNSID z = Pdns.zones (wsrv w) !! PDNSID z;
  cf_state k s : MemStore.sync (wdb w) !! k = Some s → SyTenantID s ≠ t → "|"%char ∉ t → "|"%char ∉ SyTenantID s →
    MemStore.sync (wdb w') !! k = Some s
}.

Lemma confined_refl t w : zinv w → confined t w w.
Proof. by constructor. Qed.
Lemma confined_trans t w1 w2 w3 : confined t w1 w2 → confined t w2 w3 → confined t w1 w3.
Proof.
  intros [I1 R1 O1 S1] [I2 R2 O2 S2]. constructor; [done|by etrans| |eauto].
  intros k z Hz Ht. rewrite (O2 k z) by (done || by eapply lookup_weaken). by apply (O1 k).
Qed.
Lemma confined_same t w w' : zinv w → same w w' → confined t w w'.
Proof. intros Hi Hs. pose proof Hs as (Hd & Hv & _). constructor; [by eapply same_inv|by rewrite Hd|by rewrite Hv|by rewrite Hd]. Qed.

(** The zone a call works on is a row of the tenant (a zone just created may
    differ from its row in the columns the store fills in). *)
Definition ours (t : str) (w : W) (z : Zone) : Prop :=
  ∃ row, MemStore.zones (wdb w) !! ID z = Some row ∧ TenantID row = t ∧ PDNSID row = PDNSID z ∧ Name row = Name z.

Lemma mine_ours t w z : mine t w z → ours t w z.
Proof. intros [Hz Ht]. by exists z. Qed.
Lemma ours_grows t w w' z : confined t w w' → ours t w z → ours t w' z.
Proof. intros Hc (row & Hz & H). exists row. split; [|done]. eapply lookup_weaken; [done|apply Hc]. Qed.

Lemma confined_patched t z ch w w' pz : zinv w → ours t w z → patched z ch w w' pz → confined t w w'.
Proof.
  intros Hi (row & Hrow & Ht & Hp & _) [_ _ Hs Hd Hok]. constructor; [|by rewrite Hd| |by rewrite Hd].
  - apply (zones_same_inv w w'); [done|done|rewrite Hd; apply Hi|by rewrite Hd].
  - intros k z0 Hz0 Hne. rewrite Hs. simpl. rewrite lookup_insert_ne; [done|]. rewrite <- Hp. intros E.
    pose proof (pdnsid_inj w _ _ _ _ (zi_db _ Hi) Hrow Hz0 E) as <-. done.
Qed.

Lemma confined_create t subj i w r w' : zinv w → Authz.STenantID subj = t → Create cfg subj i w = (r, w') → confined t w w'.
Proof.
  intros Hi Ht E. assert (Hz : zstep cfg t w w') by (pose proof (zs_create cfg t w subj i Ht) as Hz; by rewrite E in Hz).
  pose proof (zstep_inv _ _ _ _ Hz Hi) as Hi'.
  assert (MemStore.zones (wdb w) ⊆ MemStore.zones (wdb w') ∧ MemStore.sync (wdb w') = MemStore.sync (wdb w)) as [Hrows Hsync].
  { apply Create_run in E as [_ E]; [|apply Hi]. destruct r as [z|e]; [|destruct E as [-> _]; done].
    destruct E as (_ & w1 & _ & [_ _ _ _ _ _ _ _ Hrow] & (-> & _ & _)).
    destruct (MemStore.create_zone_cases z (wdb w)) as [(Ec & Hnone & _)|Ec]; rewrite Ec in Hrow; [|done].
    injection Hrow as <-. split; [|done]. by apply insert_subseteq. }
  constructor; [done|done| |by rewrite Hsync]. intros k z Hk Hne. by eapply zstep_isolated.
Qed.

(** The bookkeeping row of the tenant. *)
Lemma confined_state {A} t (op : S → res A * S) core w r w' :
  zinv w → faithful (λ _, True) MemStore.repo_db MemStore.fault op core →
  MemStore.tenant_step t (wdb w) (core (wdb w)).2 → MemStore.zones (core (wdb w)).2 = MemStore.zones (wdb w) →
  (∀ k s, MemStore.sync (wdb w) !! k = Some s → SyTenantID s ≠ t → "|"%char ∉ t → "|"%char ∉ SyTenantID s →
     MemStore.sync (core (wdb w)).2 !! k = Some s) →
  on_store op w = (r, w') → confined t w w'.
Proof.
  intros Hi Hf Hstep Hz Hsync E. destruct (on_store_run _ _ _ _ _ Hf E) as (Hs & Ho & _ & H).
  destruct H as [(e & _ & _ & Hd)|H].
  - apply confined_same; [done|]. split; [done|]. split; [done|]. exact Ho.
  - assert (Hd : wdb w' = (core (wdb w)).2) by (by rewrite H). constructor.
    + apply (zones_same_inv w w'); [done|apply Ho, Hi| |by rewrite Hd, Hz].
      rewrite Hd. apply (MemStore.db_step_wf (wdb w)); [by econstructor|apply Hi].
    + by rewrite Hd, Hz.
    + by rewrite Hs.
    + rewrite Hd. exact Hsync.
Qed.

Lemma other_key t i w k s :
  zinv w → MemStore.sync (wdb w) !! k = Some s → SyTenantID s ≠ t → "|"%char ∉ t → "|"%char ∉ SyTenantID s → MemStore.syncKey t i ≠ k.
Proof.
  intros Hi Hk Hne Ht Hs E. pose proof (MemStore.wf_sync_key _ (zi_db _ Hi) k s Hk) as Hk0. simpl in Hk0. rewrite <- Hk0 in E.
  by apply MemStore.syncKey_inj in E as [? _].
Qed.

Lemma confined_upsert_state t s w r w' :
  zinv w → SyTenantID s = t → on_store (MemStore.repo_UpsertIPAMSync s) w = (r, w') → confined t w w'.
Proof.
  intros Hi Ht. apply (confined_state t _ _ _ _ _ Hi (MemStore.repo_UpsertIPAMSync_ok s)).
  - by constructor.
  - unfold MemStore.upsert_ipam_sync. by case_if as E.
  - unfold MemStore.upsert_ipam_sync. case_if as E; [done|]. intros k s0 Hk Hne Hb Hb0. simpl. rewrite lookup_insert_ne; [done|].
    rewrite Ht. by eapply other_key.
Qed.

Lemma confined_delete_state t i w r w' :
  zinv w → on_store (MemStore.repo_DeleteIPAMSync t i) w = (r, w') → confined t w w'.
Proof.
  intros Hi. apply (confined_state t _ _ _ _ _ Hi (MemStore.repo_DeleteIPAMSync_ok t i)).
  - constructor.
  - unfold MemStore.delete_ipam_sync. by destruct (_ !! _).
  - unfold MemStore.delete_ipam_sync. intros k s0 Hk Hne Hb Hb0. destruct (MemStore.sync (wdb w) !! MemStore.syncKey t i); [|done]. simpl.
    rewrite lookup_delete_ne; [done|]. by eapply other_key.
Qed.

(** ** Confinement of each operation *)

Lemma Owned_run subj id w r w' :
  zinv w → Owned cfg subj id w = (r, w') → same w w' ∧ ∀ z, r = Ok z → mine (Authz.STenantID subj) w z ∧ ID z = id.
Proof.
  intros Hi H. unfold Owned in H. destruct (guard cfg subj _); [|by injection H as <- <-]. apply owned_run in H as [Hs Ho].
  split; [done|]. intros z Hz. destruct (owned_row _ _ _ _ (Ho z Hz) (zi_db _ Hi)) as (Hid & Ht & Hz' & _). unfold mine. by rewrite Hid.
Qed.

Lemma ByName_run subj name w r w' :
  zinv w → ByName cfg subj name w = (r, w') → same w w' ∧ ∀ z, r = Ok z → mine (Authz.STenantID subj) w z.
Proof.
  intros Hi H. unfold ByName in H. destruct (guard cfg subj _); [|by injection H as <- <-].
  destruct (canonicalFQDN name) as [n|]; [|by injection H as <- <-]. run_bind H x w1 E.
  apply (on_store_read _ _ _ _ _ (MemStore.repo_GetZoneByName_ok _ _)) in E as (Hs & _ & E). injection H as <- <-. split; [done|].
  intros z Hz. destruct x as [y|e]; [|by case_match]. injection Hz as <-. destruct E as [(? & ? & _)|E]; [done|].
  unfold MemStore.get_zone_by_name in E. destruct (find_first _ _) as [z|] eqn:Ef; [|done]. injection E as ->.
  apply find_first_Some in Ef as [Hin Hb]. b2p. destruct Hb as [Ht _]. apply elem_of_values_of in Hin as [k Hk].
  split; [|done]. by rewrite (MemStore.wf_zone_id _ (zi_db _ Hi) k z Hk).
Qed.

Section Tenant.
Context (subj : Authz.Subjects).
Abbreviation t := (Authz.STenantID subj).

Lemma zone_run existing id name w r w' :
  zinv w → IpamSync.zone cfg subj existing id name w = (r, w') →
  confined t w w' ∧ (∀ z, r = Ok z → ours t w' z) ∧
  (∀ i pz, Pdns.zones (wsrv w) !! i = Some pz → Pdns.zones (wsrv w') !! i = Some pz).
Proof.
  intros Hi H. unfold IpamSync.zone in H. destruct existing.
  { apply Owned_run in H as [Hs Hz]; [|done]. split; [by apply confined_same|]. destruct Hs as (Hd & Hv & _). split; [|by rewrite Hv].
    intros z E. destruct (Hz z E) as [[Hm Ht] _]. apply mine_ours. split; [by rewrite Hd|done]. }
  run_bind H x w1 E1. pose proof (confined_create t subj _ _ _ _ Hi eq_refl E1) as C1.
  assert (Hgrow : ∀ i pz, Pdns.zones (wsrv w) !! i = Some pz → Pdns.zones (wsrv w1) !! i = Some pz).
  { apply Create_run in E1 as [_ E1]; [|apply Hi]. intros i pz Hp. destruct x as [z|e].
    - destruct E1 as (_ & w2 & _ & [_ _ _ _ _ _ Hab (pz' & Hs & _) _] & (_ & -> & _)). rewrite Hs. simpl.
      rewrite lookup_insert_ne; [done|]. intros <-. congruence.
    - destruct E1 as [_ [-> |(nm & _ & _ & pz' & res & Hab & -> & _)]]; [done|]. simpl.
      rewrite lookup_insert_ne; [done|]. intros <-. congruence. }
  destruct x as [z|e].
  - injection H as <- <-. split; [done|]. split; [|done]. intros z' [= <-].
    apply Create_run in E1 as [_ (_ & w2 & _ & [_ Ht _ _ _ _ _ _ Hrow] & (Hd & _ & _))]; [|apply Hi].
    destruct (MemStore.create_zone_cases z (wdb w)) as [(Ec & _)|Ec]; rewrite Ec in Hrow; [|done]. injection Hrow as Hrow.
    exists (MemStore.stored z (wdb w)). rewrite Hd, <- Hrow. simpl. by rewrite lookup_insert_eq.
  - destruct (Is e ErrDuplicate); [|by injection H as <- <-]. run_bind H own w2 E2. injection H as <- <-.
    apply ByName_run in E2 as [S2 Hz]; [|apply C1]. pose proof S2 as (Hd & Hv & _).
    split; [eapply confined_trans; [exact C1|]; apply confined_same; [apply C1|done]|]. split; [|by rewrite Hv].
    intros z Hzz. destruct own as [y|]; [|done]. injection Hzz as <-. destruct (Hz y eq_refl) as [Hm Ht].
    apply mine_ours. split; [by rewrite Hd|done].
Qed.
(** ** The records of a set *)

(** A set of the zone for the name and the type, with the contents [Q]. *)
Definition in_set (w : W) (z : Zone) (n ty : str) (Q : list str → Prop) : Prop :=
  ∃ pz s, Pdns.zones (wsrv w) !! PDNSID z = Some pz ∧ s ∈ Pdns.PRRsets pz ∧ Records.same_fold n ty s = true ∧
    Q (map Pdns.RecContent (Pdns.RRecords s)).

(** A value as the record service stores it. *)
Definition shown (ty zn v c : str) : Prop := c = v ∨ Content.content ty zn v = Ok c.

Lemma lookup_set_run z name ty w r w' :
  zinv w → IpamSync.lookup subj z name ty w = (r, w') →
  same w w' ∧ ∀ o, r = Ok o →
    ∃ n pz, Validate.RecordName (Name z) name = Ok n ∧ Pdns.zones (wsrv w) !! PDNSID z = Some pz ∧
      o = Records.toView <$> find_first (Records.same_fold n (ToUpper (TrimSpace ty))) (Pdns.cloneRRsets (Pdns.PRRsets pz)).
Proof.
  intros Hi H. unfold IpamSync.lookup in H. run_bind H x w1 E. injection H as <- <-.
  pose proof E as [Hs Hx]%Lookup_run; [|apply Hi]. split; [done|]. intros o Ho. destruct x as [rs|e].
  - injection Ho as <-. destruct (Hx rs eq_refl) as (n & pz & s & Hn & Hz & -> & Hf). exists n, pz. split; [done|]. split; [done|].
    cbn [Records.KType] in Hf. by rewrite Hf.
  - destruct (Is e RecordsErrNotFound) eqn:Ee; [|done]. injection Ho as <-.
    destruct (Lookup_absent _ _ _ _ _ _ (zi_ok _ Hi) E Ee) as (n & pz & Hn & Hz & Hf). exists n, pz. split; [done|]. split; [done|].
    cbn [Records.KType] in Hf. by rewrite Hf.
Qed.

Lemma ours_canonical t w z : zinv w → ours t w z → Validate.canonicalZone (Name z) = Ok (Name z).
Proof.
  intros Hi (row & Hrow & _ & _ & <-). destruct (zi_rows _ Hi _ _ Hrow) as (_ & _ & s & Hs). by eapply Validate.canonicalZone_idem.
Qed.

(** A found set is one of the zone. *)
Lemma found_in_set w z pz n ty s Q :
  Pdns.zones (wsrv w) !! PDNSID z = Some pz → find_first (Records.same_fold n ty) (Pdns.cloneRRsets (Pdns.PRRsets pz)) = Some s →
  Q (contents (Records.toView s)) → in_set w z n ty Q.
Proof.
  intros Hz Hf HQ. apply find_first_Some in Hf as [Hin Hf]. apply list_elem_of_fmap in Hin as (s0 & -> & Hin).
  exists pz, s0. split_and!; try done. unfold contents in HQ. simpl in HQ. by rewrite map_map in HQ.
Qed.

(** Elements of a patched zone. *)
Lemma patch_one_kept sets r x : x ∈ sets → Pdns.rkey x ≠ Pdns.rkey r → x ∈ Pdns.patch_one sets r.
Proof.
  intros Hx Hk. assert (Ho : x ∈ Pdns.others r sets).
  { unfold Pdns.others. apply list_elem_of_In, filter_In. split; [by apply list_elem_of_In|]. apply negb_true_iff.
    unfold Pdns.same_key. unfold Pdns.rkey in Hk. apply bool_decide_eq_false. intros [En Et]. by rewrite En, Et in Hk. }
  destruct (Pdns.patch_one_shape sets r) as [(s & -> & _)|[-> _]]; [|done]. apply elem_of_app. by left.
Qed.

Lemma patched_kept z ch w w' pz id pz0 s :
  patched z [ch] w w' pz → Pdns.zones (wsrv w) !! id = Some pz0 → s ∈ Pdns.PRRsets pz0 → Pdns.rkey s ≠ Pdns.rkey ch →
  ∃ pz1 s1, Pdns.zones (wsrv w') !! id = Some pz1 ∧ s1 ∈ Pdns.PRRsets pz1 ∧ Pdns.rkey s1 = Pdns.rkey s ∧ Pdns.RRecords s1 = Pdns.RRecords s.
Proof.
  intros [Hz _ Hs _ _] H0 Hin Hk. rewrite Hs. simpl. destruct (decide (id = PDNSID z)) as [-> |Hid].
  - rewrite Hz in H0. injection H0 as <-. rewrite lookup_insert_eq. eexists _, (Pdns.cloneRRset s). split; [done|]. simpl. split; [|done].
    apply patch_one_kept; [|done]. apply list_elem_of_fmap. by exists s.
  - rewrite lookup_insert_ne by done. by exists pz0, s.
Qed.

(** The set an accepted write leaves. *)
Lemma applied_run z i w r w' :
  zinv w → ours t w z → applied lim subj z i w = (r, w') →
  confined t w w' ∧ match r with
    | Err _ => same w w'
    | Ok _ => ∃ rr pz, patched z [rr] w w' pz ∧ RecordSets.RecordSet lim (Name z) i (Pdns.cloneRRsets (Pdns.PRRsets pz)) = Ok rr ∧
        Validate.RecordName (Name z) (RecordSets.IName i) = Ok (Pdns.RName rr) ∧
        in_set w' z (Pdns.RName rr) (Pdns.RType rr) (Forall2 (λ v c, Content.content (Pdns.RType rr) (Name z) (RecordSets.VContent v) = Ok c) (RecordSets.IValues i))
    end.
Proof.
  intros Hi Ho H. unfold applied in H. run_bind H x w1 E. injection H as <- <-. apply Apply_run in E; [|apply Hi].
  destruct x as [v|e]; [|split; [by apply confined_same|done]]. destruct E as (_ & rr & pz & _ & Hp & Hr).
  split; [by eapply confined_patched|]. exists rr, pz. pose proof Hr as (Hc & Hne & Hcom)%RecordSet_change.
  apply RecordSets.RecordSet_inv in Hr as Hinv. destruct Hinv as (zc & Hzc & Ht & Hn & _ & _ & _ & _ & Hv & _).
  rewrite (ours_canonical _ _ _ Hi Ho) in Hzc. injection Hzc as <-. split_and!; try done.
  pose proof Hp as [Hz _ Hs _ _]. exists (Pdns.set_rrsets pz (Pdns.apply_patch (Pdns.PRRsets pz) [rr]) (Pdns.uint32 (Pdns.PSerial pz + 1))).
  exists (Pdns.cloneRRset (Pdns.set_change rr [])). rewrite Hs. simpl. rewrite lookup_insert_eq. split_and!; try done.
  - unfold Pdns.apply_patch. cbn [fold_left]. rewrite Pdns.patch_one_stored by done. set_solver.
  - unfold Records.same_fold. simpl. by rewrite !EqualFold_refl.
  - apply RecordSets.values_Ok in Hv as [Hv _]. apply Forall2_fmap_r. eapply Forall2_impl; [exact Hv|]. naive_solver.
Qed.
(** ** The operations on one record *)

Lemma addValue_run z name ty value w r w' :
  zinv w → ours t w z → addValue lim ttl subj z name ty value w = (r, w') →
  confined t w w' ∧ match r with
    | Err _ => same w w'
    | Ok _ => ∃ n, Validate.RecordName (Name z) name = Ok n ∧
        in_set w' z n (ToUpper (TrimSpace ty)) (λ cs, ∃ c, c ∈ cs ∧ shown (ToUpper (TrimSpace ty)) (Name z) value c)
    end.
Proof.
  intros Hi Ho H. unfold addValue in H. run_bind H x w1 E1. apply lookup_set_run in E1 as [S1 Hx]; [|done].
  destruct x as [o|e]; [|injection H as <- <-; split; [by apply confined_same|done]].
  destruct (Hx o eq_refl) as (n & pz & Hn & Hz & ->). pose proof (confined_same t _ _ Hi S1) as C1.
  assert (Happ : ∀ T vs, applied lim subj z (input name ty T (vs ++ [value])) w1 = (r, w') →
    confined t w w' ∧ match r with Err _ => same w w'
      | Ok _ => ∃ n, Validate.RecordName (Name z) name = Ok n ∧
          in_set w' z n (ToUpper (TrimSpace ty)) (λ cs, ∃ c, c ∈ cs ∧ shown (ToUpper (TrimSpace ty)) (Name z) value c) end).
  { intros T vs E2. apply applied_run in E2 as [C2 E2]; [|apply C1|by eapply ours_grows]. split; [by eapply confined_trans|].
    destruct r as [[]|]; [|by eapply same_trans]. destruct E2 as (rr & pz' & _ & Hr & Hnm & pz2 & s & Hz2 & Hs & Hf & HQ).
    cbn [RecordSets.IName input] in Hnm. rewrite Hn in Hnm. injection Hnm as ->. exists (Pdns.RName rr). split; [done|].
    apply RecordSets.RecordSet_inv in Hr as (_ & _ & Ht & _). apply RecordSets.editableType_Ok in Ht as [Ht _].
    cbn [RecordSets.IType input] in Ht. rewrite <- Ht. exists pz2, s. split_and!; try done.
    cbn [RecordSets.IValues input] in HQ. rewrite map_app in HQ. apply Forall2_app_inv_l in HQ as (l1 & l2 & _ & H2 & Hl).
    rewrite Hl. apply Forall2_cons_inv_l in H2 as (c & l3 & Hc & _ & ->). exists c. split; [set_solver|]. by right. }
  destruct (find_first _ _) as [s|] eqn:Ef; cbn [fmap option_fmap option_map] in H.
  - destruct (contains (contents (Records.toView s)) value) eqn:Ec; [|by apply Happ in H].
    injection H as <- <-. split; [done|]. exists n. split; [done|]. destruct S1 as (_ & Hv & _).
    apply (found_in_set w1 z pz n _ s); [by rewrite Hv|done|]. apply contains_elem in Ec. exists value. split; [done|by left].
  - by apply (Happ _ []) in H.
Qed.

Lemma setPTR_run z owner host w r w' :
  zinv w → ours t w z → setPTR lim ttl subj z owner host w = (r, w') →
  confined t w w' ∧ match r with
    | Err _ => same w w'
    | Ok _ => ∃ n, Validate.RecordName (Name z) owner = Ok n ∧
        in_set w' z n PTR (λ cs, ∃ c, cs = [c] ∧ shown PTR (Name z) host c) ∧
        (same w w' ∨ ∃ rr pz, patched z [rr] w w' pz ∧ Pdns.RType rr = PTR)
    end.
Proof.
  intros Hi Ho H. unfold setPTR in H. run_bind H x w1 E1. apply lookup_set_run in E1 as [S1 Hx]; [|done].
  destruct x as [o|e]; [|injection H as <- <-; split; [by apply confined_same|done]].
  destruct (Hx o eq_refl) as (n & pz & Hn & Hz & ->). pose proof (confined_same t _ _ Hi S1) as C1.
  change (ToUpper (TrimSpace PTR)) with PTR in *.
  case_if in H as Ec.
  - injection H as <- <-. split; [done|]. exists n. split; [done|]. split; [|by left].
    destruct (find_first _ _) as [s|] eqn:Ef; [|done]. cbn [fmap option_fmap option_map] in Ec. b2p. destruct S1 as (_ & Hv & _).
    apply (found_in_set w1 z pz n _ s); [by rewrite Hv|done|]. exists host. split; [done|by left].
  - clear Ec. apply applied_run in H as [C2 E2]; [|apply C1|by eapply ours_grows]. split; [by eapply confined_trans|].
    destruct r as [[]|]; [|by eapply same_trans]. destruct E2 as (rr & pz' & Hp & Hr & Hnm & pz2 & s & Hz2 & Hs & Hf & HQ).
    cbn [RecordSets.IName input] in Hnm. rewrite Hn in Hnm. injection Hnm as ->. exists (Pdns.RName rr). split; [done|].
    apply RecordSets.RecordSet_inv in Hr as (_ & _ & Ht & _). apply RecordSets.editableType_Ok in Ht as [Ht _].
    cbn [RecordSets.IType input] in Ht. change (ToUpper (TrimSpace PTR)) with PTR in Ht. rewrite Ht in *.
    split; [|right; exists rr, pz'; split; [by eapply patched_same|done]]. exists pz2, s. split_and!; try done.
    cbn [RecordSets.IValues input map] in HQ. apply Forall2_cons_inv_l in HQ as (c & l & Hc & Hl%Forall2_nil_inv_l & ->).
    exists c. subst l. split; [done|]. by right.
Qed.
(** The entry of the server, its keys being in the server's case. *)
Definition canon_srv (w : W) : Prop := map_Forall (λ _ pz, canon_sets (Pdns.PRRsets pz)) (Pdns.zones (wsrv w)).
Definition entry (w : W) (z : Zone) (k : str * str) : option (Z * list Pdns.Record_) :=
  match Pdns.zones (wsrv w) !! PDNSID z with Some pz => Pdns.meaning (Pdns.PRRsets pz) !! k | None => None end.

(** Every record of the entry stands for another value. *)
Definition without (w : W) (z : Zone) (n ty value : str) : Prop :=
  ∀ T recs x, entry w z (n, ty) = Some (T, recs) → x ∈ recs → ∃ v, v ≠ value ∧ shown ty (Name z) v (Pdns.RecContent x).

(** What an operation on one set of a type changes. *)
Definition only_type (ty : str) (w w' : W) : Prop :=
  same w w' ∨ ∃ z ch pz, patched z [ch] w w' pz ∧ Pdns.RType ch = ty.

Lemma only_type_db ty w w' : only_type ty w w' → wdb w' = wdb w.
Proof. by intros [(-> & _)|(z & ch & pz & [_ _ _ -> _] & _)]. Qed.

Lemma deleted_entry z n ty w w' pz k :
  patched z [deletion n ty] w w' pz → entry w' z k = if decide (k = (n, ty)) then None else entry w z k.
Proof.
  intros Hp. pose proof (patched_meaning _ _ _ _ _ Hp) as (pz' & Hz' & Hm). unfold entry. rewrite Hz', Hm, (pt_zone _ _ _ _ _ Hp).
  cbn [fold_left]. change (Pdns.meaning_one (Pdns.meaning (Pdns.PRRsets pz)) (deletion n ty)) with (delete (n, ty) (Pdns.meaning (Pdns.PRRsets pz))).
  case_decide as E; [subst k; apply lookup_delete_eq|]. by rewrite lookup_delete_ne.
Qed.

Lemma only_type_entry ty w w' z k : only_type ty w w' → k.2 ≠ ty → entry w' z k = entry w z k.
Proof.
  intros [(_ & Hv & _)|(z0 & ch & pz & Hp & Ht)] Hk; unfold entry; [by rewrite Hv|].
  pose proof (patched_meaning _ _ _ _ _ Hp) as (pz' & Hz' & Hm). destruct (decide (PDNSID z = PDNSID z0)) as [E|E].
  - rewrite E, Hz', Hm, (pt_zone _ _ _ _ _ Hp). cbn [fold_left]. unfold Pdns.meaning_one.
    assert (Hne : k ≠ Pdns.rkey ch) by (unfold Pdns.rkey; intros ->; done).
    repeat case_match; rewrite ?lookup_insert_ne, ?lookup_delete_ne by done; done.
  - destruct Hp as [_ _ Hs _ _]. rewrite Hs. simpl. by rewrite lookup_insert_ne.
Qed.

Lemma entry_same w w' z k : same w w' → entry w' z k = entry w z k.
Proof. intros (_ & Hv & _). unfold entry. by rewrite Hv. Qed.

Lemma guard_err s perm e : guard cfg s perm = Err e → only_kinds [ErrForbidden] e.
Proof.
  unfold guard. case_bool_decide; [intros [= <-]; apply kinds_Wrapf, kinds_New; by left|].
  destruct (cChecker cfg); [apply Authz.Require_err|]. case_bool_decide; [done|apply Authz.Require_err].
Qed.

(** "No such zone" means that the tenant has none with the id. *)
Lemma Owned_absent id w e w' :
  zinv w → Owned cfg subj id w = (Err e, w') → Is e ZonesErrNotFound = true → ∀ z, mine t w z → ID z ≠ id.
Proof.
  intros Hi H He z [Hz Ht] Hid. unfold Owned in H. destruct (guard cfg subj Authz.ZonesRead) as [|eg] eqn:Eg.
  2:{ injection H as <- _. apply guard_err in Eg. by rewrite (only_kinds_not _ _ _ Eg) in He by set_solver. }
  unfold owned in H. run_bind H x w1 E. injection H as H _.
  apply (on_store_read _ _ _ _ _ (MemStore.repo_GetZone_ok _ _)) in E as (_ & _ & E). destruct x as [|ex]; [done|].
  destruct E as [(e' & [= <-] & Hf)|E].
  - rewrite (proj1 (MemStore.fault_kinds _ Hf)) in H. injection H as <-.
    by rewrite (only_kinds_not _ _ _ Hf) in He by apply not_elem_of_nil.
  - symmetry in E. apply MemStore.zone_err in E as [_ E]. subst id. by apply (E z).
Qed.

(** Removing the set of a name and a type of a zone of the tenant. *)
Lemma Remove_set_run z name ty w r w' :
  zinv w → ours t w z → Records.Remove subj z (Records.mkKey name ty) Events.SourceIPAM w = (r, w') →
  confined t w w' ∧ only_type (ToUpper (TrimSpace ty)) w w' ∧
  match r with
  | Err _ => same w w'
  | Ok _ => ∃ n, Validate.RecordName (Name z) name = Ok n ∧ entry w' z (n, ToUpper (TrimSpace ty)) = None
  end.
Proof.
  intros Hi Ho H. apply Remove_run in H; [|apply Hi]. destruct r as [[]|e].
  2:{ split; [by apply confined_same|]. split; [by left|done]. }
  destruct H as (n & T & pz & Hkey & H). unfold Records.key in Hkey. cbn [Records.KName Records.KType] in Hkey.
  apply bind_Ok in Hkey as (n' & Hn & Hkey). cbv zeta in Hkey. case_if in Hkey as Ee; [done|]. injection Hkey as <- <-.
  destruct H as [[_ Hp]|(Hs & Hz & Hf)].
  - split; [by eapply confined_patched|]. split; [right; by eexists z, _, pz|]. exists n'. split; [done|].
    by rewrite (deleted_entry _ _ _ _ _ _ _ Hp), decide_True.
  - split; [by apply confined_same|]. split; [by left|]. exists n'. split; [done|]. rewrite (entry_same _ _ _ _ Hs). unfold entry. rewrite Hz.
    apply find_false in Hf. unfold Pdns.cloneRRsets in Hf. rewrite map_map in Hf. by apply meaning_None.
Qed.

Lemma removeSet_run zid name ty w r w' :
  zinv w → removeSet cfg subj zid name ty w = (r, w') →
  confined t w w' ∧ only_type (ToUpper (TrimSpace ty)) w w' ∧
  match r with
  | Err _ => same w w'
  | Ok _ => ∀ z, mine t w z → ID z = zid →
      ∃ n, Validate.RecordName (Name z) name = Ok n ∧ entry w' z (n, ToUpper (TrimSpace ty)) = None
  end.
Proof.
  intros Hi H. unfold removeSet in H. run_bind H x w1 E1. pose proof E1 as [S1 Hx]%Owned_run; [|done].
  pose proof (confined_same t _ _ Hi S1) as C1. destruct x as [z|e].
  - destruct (Hx z eq_refl) as [Hm Hid]. apply Remove_set_run in H as (C2 & Ht & H); [|apply C1|by eapply ours_grows, mine_ours].
    split; [by eapply confined_trans|]. split; [|destruct r as [[]|]; [|by eapply same_trans]].
    + destruct Ht as [Ht|(z0 & ch & pz & Hp & Ht)]; [left; by eapply same_trans|right]. exists z0, ch, pz. split; [by eapply patched_same|done].
    + intros z' [Hz' Ht'] Hid'. destruct Hm as [Hz _]. rewrite Hid in Hz. rewrite Hid' in Hz'. assert (z' = z) as -> by congruence. done.
  - injection H as <- <-. split; [done|]. split; [by left|]. destruct (Is e ZonesErrNotFound) eqn:Ee; [|done].
    intros z Hm Hid. by destruct (Owned_absent _ _ _ _ Hi E1 Ee z Hm).
Qed.
Lemma applied_entry z i w r w' :
  zinv w → ours t w z → applied lim subj z i w = (Ok r, w') →
  ∃ n ty, Validate.RecordName (Name z) (RecordSets.IName i) = Ok n ∧ ty = ToUpper (TrimSpace (RecordSets.IType i)) ∧ only_type ty w w' ∧
    ∃ T recs, entry w' z (n, ty) = Some (T, recs) ∧
      Forall2 (λ v x, Content.content ty (Name z) (RecordSets.VContent v) = Ok (Pdns.RecContent x)) (RecordSets.IValues i) recs.
Proof.
  intros Hi Ho H. apply applied_run in H as [_ (rr & pz & Hp & Hr & Hn & _)]; [|done..].
  exists (Pdns.RName rr), (Pdns.RType rr). split; [done|]. pose proof Hr as Hi2.
  apply RecordSets.RecordSet_inv in Hi2 as (zc & Hzc & Ht & _ & _ & _ & _ & _ & Hv & _).
  rewrite (ours_canonical _ _ _ Hi Ho) in Hzc. injection Hzc as <-. apply RecordSets.editableType_Ok in Ht as [Ht _].
  split; [done|]. split; [right; by exists z, rr, pz|]. pose proof (patched_meaning _ _ _ _ _ Hp) as (pz' & Hz' & Hm).
  exists (Pdns.RTTL rr), (Pdns.RRecords rr). unfold entry. rewrite Hz', Hm. cbn [fold_left].
  rewrite (RecordSet_replace _ _ _ _ _ _ Hr). unfold Pdns.rkey. rewrite lookup_insert_eq. split; [done|].
  apply RecordSets.values_Ok in Hv as [Hv _]. eapply Forall2_impl; [exact Hv|]. naive_solver.
Qed.

Lemma filter_same_length {A} (p : A → bool) l : length (List.filter p l) = length l → Forall (λ x, p x = true) l.
Proof.
  induction l as [|x l IH]; simpl; [constructor|]. pose proof (List.filter_length_le p l) as Hle.
  destruct (p x) eqn:E; simpl; intros H; [|lia]. constructor; [done|]. apply IH. lia.
Qed.

Lemma upper_canon ty : isASCII ty = true →
  isASCII (ToUpper (TrimSpace ty)) = true ∧ map upper_byte (ToUpper (TrimSpace ty)) = ToUpper (TrimSpace ty).
Proof.
  intros Ha%RecordSets.TrimSpace_ascii. rewrite (ToUpper_ascii _ Ha). split; [by apply RecordSets.upper_byte_ascii|].
  apply RecordSets.upper_byte_idem.
Qed.

Lemma removeValue_run zid name ty value w r w' :
  zinv w → removeValue cfg lim subj zid name ty value w = (r, w') →
  confined t w w' ∧ only_type (ToUpper (TrimSpace ty)) w w' ∧
  match r with
  | Err _ => same w w'
  | Ok _ => canon_srv w → isASCII ty = true → ∀ z, mine t w z → ID z = zid →
      ∃ n, Validate.RecordName (Name z) name = Ok n ∧ without w' z n (ToUpper (TrimSpace ty)) value
  end.
Proof.
  intros Hi H. unfold removeValue in H. run_bind H x w1 E1. pose proof E1 as [S1 Hx]%Owned_run; [|done].
  pose proof (confined_same t _ _ Hi S1) as C1. destruct x as [z|e].
  2:{ injection H as <- <-. split; [done|]. split; [by left|]. destruct (Is e ZonesErrNotFound) eqn:Ee; [|done].
      intros _ _ z Hm Hid. by destruct (Owned_absent _ _ _ _ Hi E1 Ee z Hm). }
  destruct (Hx z eq_refl) as [Hm Hid]. pose proof (cf_inv _ _ _ C1) as Hi1. pose proof (ours_grows _ _ _ _ C1 (mine_ours _ _ _ Hm)) as Ho1.
  assert (Huniq : ∀ z', mine t w z' → ID z' = zid → z' = z).
  { intros z' [Hz' _] Hid'. destruct Hm as [Hz _]. rewrite Hid in Hz. rewrite Hid' in Hz'. congruence. }
  run_bind H o w2 E2. apply lookup_set_run in E2 as [S2 Ho]; [|done]. pose proof (same_trans _ _ _ S1 S2) as S12.
  pose proof (confined_same t _ _ Hi S12) as C12. destruct o as [o|e]; [|injection H as <- <-; split; [done|]; split; [by left|done]].
  destruct (Ho o eq_refl) as (n & pz & Hn & Hz & ->).
  assert (Hent : canon_srv w → isASCII ty = true → entry w2 z (n, ToUpper (TrimSpace ty)) = (λ s, (Pdns.RTTL s, Pdns.RRecords s)) <$>
     find_first (Records.same_fold n (ToUpper (TrimSpace ty))) (Pdns.cloneRRsets (Pdns.PRRsets pz))).
  { intros Hcan Hasc. destruct S12 as (_ & Hv & _). destruct S1 as (_ & Hv1 & _). rewrite Hv1 in Hz. unfold entry. rewrite Hv, Hz.
    apply find_first_meaning; [by apply (Hcan (PDNSID z))|]. split; [by eapply RecordName_canon|by apply upper_canon]. }
  destruct (find_first _ _) as [s|] eqn:Ef; cbn [fmap option_fmap option_map] in *.
  2:{ injection H as <- <-. split; [done|]. split; [by left|]. intros Hcan Hasc z' Hz' Hid'. rewrite (Huniq z' Hz' Hid'). exists n.
      split; [done|]. intros T recs x. by rewrite Hent. }
  assert (Hcs : contents (Records.toView s) = map Pdns.RecContent (Pdns.RRecords s)) by (unfold contents; simpl; by rewrite map_map).
  rewrite Hcs in H. set (rest := List.filter (λ v, negb (bool_decide (v = value))) (map Pdns.RecContent (Pdns.RRecords s))) in H.
  assert (Hrest : ∀ v, v ∈ rest → v ≠ value).
  { intros v Hv. apply list_elem_of_In, filter_In in Hv as [_ Hv]. by b2p. }
  pose proof (ours_grows _ _ _ _ (confined_same t _ _ Hi1 S2) Ho1) as Ho2. pose proof (cf_inv _ _ _ C12) as Hi2. cbv zeta in H.
  assert (Hpost : confined t w2 w' ∧ only_type (ToUpper (TrimSpace ty)) w2 w' ∧
    match r with Err _ => same w2 w' | Ok _ => canon_srv w → isASCII ty = true → without w' z n (ToUpper (TrimSpace ty)) value end).
  { case_if in H as El; [|case_if in H as Ee].
    - injection H as <- <-. split; [by apply confined_refl|]. split; [by left|]. intros Hcan Hasc T recs x Hx0 Hin. rewrite Hent in Hx0 by done. injection Hx0 as <- <-.
      exists (Pdns.RecContent x). split; [|by left]. b2p. simpl in El. rewrite length_map in El.
      assert (Hall : length rest = length (map Pdns.RecContent (Pdns.RRecords s))) by (by rewrite length_map).
      apply filter_same_length in Hall. rewrite Forall_forall in Hall.
      specialize (Hall (Pdns.RecContent x) ltac:(apply list_elem_of_fmap; by exists x)). by b2p.
    - apply Remove_set_run in H as (C & Ht & H); [|done..]. split; [done|]. split; [done|]. destruct r as [[]|]; [|done].
      destruct H as (n' & Hn' & He). rewrite Hn in Hn'. injection Hn' as <-. intros _ _ T recs x. by rewrite He.
    - pose proof H as [C Hr]%applied_run; [|done..]. split; [done|]. destruct r as [[]|]; [|split; [by left|done]].
      apply applied_entry in H as (n' & ty' & Hn' & -> & Ht & T' & recs' & He & H2); [|done..]. split; [done|].
      cbn [RecordSets.IName RecordSets.IType RecordSets.IValues input] in *. rewrite Hn in Hn'. injection Hn' as <-.
      intros _ _ T recs x Hx0 Hin. rewrite He in Hx0. injection Hx0 as <- <-.
      apply list_elem_of_lookup in Hin as [j Hj]. destruct (Forall2_lookup_r _ _ _ _ _ H2 Hj) as (v & Hv & Hc).
      apply list_elem_of_lookup_2 in Hv. apply list_elem_of_fmap in Hv as (v0 & -> & Hv0). exists v0. split; [by apply Hrest|by right]. }
  destruct Hpost as (C & Ht & Hw). split; [by eapply confined_trans|]. split.
  - destruct Ht as [Ht|(z0 & ch & pz0 & Hp & Ht)]; [left; by eapply same_trans|right]. exists z0, ch, pz0. split; [by eapply patched_same|done].
  - destruct r as [[]|]; [|by eapply same_trans]. intros Hcan Hasc z' Hz' Hid'. rewrite (Huniq z' Hz' Hid'). exists n. auto.
Qed.
(** ** Whole sides *)

Lemma quiet_outcome id zn n ty e : quiet (@outcome S P R subj id zn n ty e).
Proof. unfold outcome, auditDetail. repeat case_match; auto with dns. Qed.
Lemma quiet_auditEvent ty id o re f rv : quiet (@auditEvent S P R subj ty id o re f rv).
Proof. unfold auditEvent, auditDetail. auto with dns. Qed.

(** Operations that stay within the tenant, from any state reached from [w]. *)
Definition within (w : W) (m : M W (res unit)) : Prop := ∀ w1 r w2, confined t w w1 → m w1 = (r, w2) → confined t w1 w2.

Lemma side_write_run planErr write w s w' :
  side_write planErr write w = (s, w') →
  (w' = w ∧ sdErr s ≠ None) ∨ (planErr = None ∧ ∃ r, write w = (r, w') ∧ sdErr s = err_of r).
Proof.
  unfold side_write. destruct planErr as [e|]; intros H; [injection H as <- <-; by left|].
  run_bind H x w1 E. injection H as <- <-. right. split; [done|]. by exists x.
Qed.

Lemma side_cases planErr moved remove write w s w' :
  side planErr moved remove write w = (s, w') →
  (w' = w ∧ sdErr s ≠ None) ∨
  (∃ e, remove w = (Err e, w') ∧ sdErr s = Some e) ∨
  (∃ w1, (w1 = w ∨ remove w = (Ok (), w1)) ∧ side_write planErr write w1 = (s, w')).
Proof.
  unfold side. intros H. destruct moved; [|right; right; exists w; auto].
  case_if in H as Ep; [injection H as <- <-; left; split; [done|]; by destruct planErr|].
  run_bind H x w1 E. destruct x as [[]|e]; [|injection H as <- <-; right; left; by exists e]. right. right. exists w1. auto.
Qed.

Lemma side_run planErr moved remove write w s w' :
  zinv w → within w remove → (planErr = None → within w write) → side planErr moved remove write w = (s, w') →
  confined t w w' ∧
  (sdErr s = None → planErr = None ∧ ∃ w1, confined t w w1 ∧ (w1 = w ∨ remove w = (Ok (), w1)) ∧ write w1 = (Ok (), w')).
Proof.
  intros Hi Hr Hw H. pose proof (confined_refl t w Hi) as C0.
  destruct (side_cases _ _ _ _ _ _ _ H) as [[-> He]|[(e & E & He)|(w1 & Hst & E)]]; [by split| |].
  { split; [by eapply Hr|]. by rewrite He. }
  assert (C1 : confined t w w1) by (destruct Hst as [-> |Hst]; [done|by eapply Hr]).
  destruct (side_write_run _ _ _ _ _ E) as [[-> He]|(Hp & r & Ew & He)]; [by split|].
  split; [eapply confined_trans; [done|]; by eapply (Hw Hp)|]. rewrite He. destruct r as [[]|]; [|done]. intros _. split; [done|]. by exists w1.
Qed.

(** A relation that each part of a side has, the side has. *)
Lemma side_rel (Rel : W → W → Prop) planErr moved remove write w s w' :
  zinv w → (∀ w, Rel w w) → (∀ w1 w2 w3, Rel w1 w2 → Rel w2 w3 → Rel w1 w3) →
  within w remove → (∀ w1 r w2, confined t w w1 → remove w1 = (r, w2) → Rel w1 w2) →
  (planErr = None → ∀ w1 r w2, confined t w w1 → write w1 = (r, w2) → Rel w1 w2) →
  side planErr moved remove write w = (s, w') → Rel w w'.
Proof.
  intros Hi Hrefl Htrans Hrm Hr Hw H. pose proof (confined_refl t w Hi) as C0.
  destruct (side_cases _ _ _ _ _ _ _ H) as [[-> _]|[(e & E & _)|(w1 & Hst & E)]]; [done|by eapply Hr|].
  assert (C1 : confined t w w1 ∧ Rel w w1) by (destruct Hst as [-> |Hst]; [done|]; split; [by eapply Hrm|by eapply Hr]).
  destruct C1 as [C1 R1]. destruct (side_write_run _ _ _ _ _ E) as [[-> _]|(Hp & r & Ew & _)]; [done|].
  eapply Htrans; [exact R1|]. by eapply (Hw Hp).
Qed.

Lemma within_removeValue w zid name ty v : within w (removeValue cfg lim subj zid name ty v).
Proof. intros w1 r w2 C E. apply removeValue_run in E as [? _]; [done|apply C]. Qed.
Lemma within_removeSet w zid name ty : within w (removeSet cfg subj zid name ty).
Proof. intros w1 r w2 C E. apply removeSet_run in E as [? _]; [done|apply C]. Qed.
Lemma within_addValue w z name ty v : ours t w z → within w (addValue lim ttl subj z name ty v).
Proof. intros Ho w1 r w2 C E. apply addValue_run in E as [? _]; [done|apply C|by eapply ours_grows]. Qed.
Lemma within_setPTR w z owner host : ours t w z → within w (setPTR lim ttl subj z owner host).
Proof. intros Ho w1 r w2 C E. apply setPTR_run in E as [? _]; [done|apply C|by eapply ours_grows]. Qed.

Lemma planned_run {A} (plan : res A) load w r w' :
  zinv w → (∀ f, plan = Ok f → ∃ b i n, load f = IpamSync.zone cfg subj b i n) → planned plan load w = (r, w') →
  confined t w w' ∧ (∀ z, r = Ok z → is_ok plan = true ∧ ours t w' z) ∧
  (∀ i pz, Pdns.zones (wsrv w) !! i = Some pz → Pdns.zones (wsrv w') !! i = Some pz).
Proof.
  intros Hi Hl H. unfold planned in H. destruct plan as [f|e]; [|injection H as <- <-; split; [by apply confined_refl|done]].
  destruct (Hl f eq_refl) as (b & i & n & E). rewrite E in H. apply zone_run in H as (C & Ho & Hg); [|done]. split; [done|].
  split; [|done]. intros z Hz. split; [done|]. by apply Ho.
Qed.

Definition forward_done (w : W) (host address : str) (zid name ty : str) : Prop :=
  ∃ z n, ours t w z ∧ ID z = zid ∧ CanonicalHost host = Some name ∧ Validate.RecordName (Name z) name = Ok n ∧
    in_set w z n ty (λ cs, ∃ c, c ∈ cs ∧ shown ty (Name z) address c).

Lemma recordType_upper ip : ToUpper (TrimSpace (recordType ip)) = recordType ip.
Proof. unfold recordType. by destruct (Netip.Is4 _). Qed.

Lemma sync_forward_run prev zs host ip address w zid name ty s w' :
  zinv w → sync_forward cfg lim ttl subj prev zs host ip address w = ((zid, name, ty, s), w') →
  confined t w w' ∧ (sdErr s = None → ty = recordType ip ∧ forward_done w' host address zid name ty).
Proof.
  intros Hi H. unfold sync_forward in H. cbv zeta in H. run_bind H fz w1 E1.
  apply planned_run in E1 as (C1 & Ho & _); [|done|intros f _; eauto]. pose proof (cf_inv _ _ _ C1) as Hi1.
  run_bind H s0 w2 E2. apply side_run in E2 as [C2 Hs]; [|done|apply within_removeValue|].
  2:{ intros Hn. destruct fz as [z|]; [|done]. apply within_addValue. by apply Ho. }
  pose proof (confined_trans _ _ _ _ C1 C2) as C12. destruct (sdErr s0) as [e|] eqn:Ee.
  - assert (Hq : ∀ x w3, outcome subj (SyIPAddressID prev) (FwZone match PlanForward zs host ip with Ok f => f | Err _ => noForward end) host
        (FwType match PlanForward zs host ip with Ok f => f | Err _ => noForward end) e w2 = (x, w3) → confined t w w3).
    { intros x w3 E3. apply quiet_same in E3; [|apply quiet_outcome]. eapply confined_trans; [exact C12|]. apply confined_same; [apply C12|done]. }
    destruct (sdKeep s0); run_bind H u w3 E3; injection H as <- <- <- <- <-; (split; [by eapply Hq|]); by rewrite Ee.
  - run_bind H u w3 E3. injection E3 as <- <-. injection H as <- <- <- <- <-. split; [done|]. intros _.
    destruct (Hs eq_refl) as (Hp & w1' & C1' & _ & Hw). destruct fz as [z|]; [|done].
    destruct (Ho z eq_refl) as [Hok Hoz]. destruct (PlanForward zs host ip) as [f|] eqn:Ef; [|done].
    apply addValue_run in Hw as [C3 (n & Hn & Hset)]; [|apply C1'|by eapply ours_grows].
    assert (Hf : CanonicalHost host = Some (FwName f) ∧ FwType f = recordType ip).
    { unfold PlanForward in Ef. destruct (Netip.IsValid ip); [|done]. cbn [negb] in Ef. destruct (CanonicalHost host) as [h|]; [|done].
      repeat case_match; try done; by injection Ef as <-. }
    destruct Hf as [Hh Hty]. rewrite Hty in *. rewrite recordType_upper in *. split; [done|].
    exists z, n. split_and!; try done. eapply ours_grows; [exact C3|]. by eapply ours_grows.
Qed.
(** Sets of other types than PTR stay. *)
Definition kept (w w' : W) : Prop :=
  ∀ i pz s, Pdns.zones (wsrv w) !! i = Some pz → s ∈ Pdns.PRRsets pz → Pdns.RType s ≠ PTR →
    ∃ pz' s', Pdns.zones (wsrv w') !! i = Some pz' ∧ s' ∈ Pdns.PRRsets pz' ∧ Pdns.rkey s' = Pdns.rkey s ∧ Pdns.RRecords s' = Pdns.RRecords s.

Lemma kept_grows w w' : (∀ i pz, Pdns.zones (wsrv w) !! i = Some pz → Pdns.zones (wsrv w') !! i = Some pz) → kept w w'.
Proof. intros H i pz s Hi Hs _. exists pz, s. split; [by apply H|done]. Qed.
Lemma kept_same w w' : same w w' → kept w w'.
Proof. intros (_ & Hv & _). apply kept_grows. by rewrite Hv. Qed.
Lemma kept_trans w1 w2 w3 : kept w1 w2 → kept w2 w3 → kept w1 w3.
Proof.
  intros H1 H2 i pz s Hi Hs Ht. destruct (H1 i pz s Hi Hs Ht) as (pz' & s' & Hi' & Hs' & Hk & Hr).
  destruct (H2 i pz' s' Hi' Hs') as (pz2 & s2 & ? & ? & ? & ?); [unfold Pdns.rkey in Hk; congruence|]. exists pz2, s2.
  split_and!; try done; congruence.
Qed.
Lemma kept_only w w' : only_type PTR w w' → kept w w'.
Proof.
  intros [Hs|(z & ch & pz0 & Hp & Ht)]; [by apply kept_same|]. intros i pz s Hi Hs Hne.
  apply (patched_kept _ _ _ _ _ _ _ _ Hp Hi Hs). unfold Pdns.rkey. intros [= _ E]. congruence.
Qed.

Definition reverse_done (w : W) (ip : Netip.Addr) (host : str) (zid name : str) : Prop :=
  ∃ z n, ours t w z ∧ ID z = zid ∧ name = PTROwner ip ∧ Validate.RecordName (Name z) name = Ok n ∧
    in_set w z n PTR (λ cs, ∃ c, cs = [c] ∧ shown PTR (Name z) host c).

Lemma sync_reverse_run prev zs host ip subnetID w zid name s w' :
  zinv w → sync_reverse cfg lim ttl subj prev zs host ip subnetID w = ((zid, name, s), w') →
  confined t w w' ∧ kept w w' ∧ (sdErr s = None → reverse_done w' ip host zid name).
Proof.
  intros Hi H. unfold sync_reverse in H. cbv zeta in H. set (prefix := if bool_decide (subnetID = []) then _ else _) in H.
  run_bind H rz w1 E1. apply planned_run in E1 as (C1 & Ho & Hg); [|done|intros f _; eauto]. pose proof (cf_inv _ _ _ C1) as Hi1.
  apply kept_grows in Hg. run_bind H s0 w2 E2. pose proof E2 as [C2 Hs]%side_run; [|done|apply within_removeSet|].
  2:{ intros Hn. destruct rz as [z|]; [|done]. apply within_setPTR. by apply Ho. }
  assert (K2 : kept w1 w2).
  { clear H Hs C2. eapply (side_rel kept (err_of rz)); [done|intros ?; by apply kept_same|apply kept_trans|apply within_removeSet| | |exact E2].
    - intros w3 r w4 C E. apply removeSet_run in E as (_ & Ht & _); [by apply kept_only|apply C].
    - intros Hn w3 r w4 C E. destruct rz as [z|]; [|done]. destruct (Ho z eq_refl) as [_ Hz].
      apply setPTR_run in E as [_ E]; [|apply C|by eapply ours_grows]. destruct r as [[]|]; [|by apply kept_same].
      destruct E as (n & _ & _ & [E|(rr & pz & Hp & Ht)]); [by apply kept_same|]. apply kept_only. right. by exists z, rr, pz. }
  pose proof (confined_trans _ _ _ _ C1 C2) as C12. pose proof (kept_trans _ _ _ Hg K2) as K12. destruct (sdErr s0) as [e|] eqn:Ee.
  - assert (Hq : ∀ zn n x w3, outcome subj (SyIPAddressID prev) zn n PTR e w2 = (x, w3) → confined t w w3 ∧ kept w w3).
    { intros zn n x w3 E3. apply quiet_same in E3; [|apply quiet_outcome]. split.
      - eapply confined_trans; [exact C12|]. apply confined_same; [apply C12|done].
      - eapply kept_trans; [exact K12|]. by apply kept_same. }
    destruct (sdKeep s0); run_bind H u w3 E3; injection H as <- <- <- <-; apply Hq in E3 as [? ?]; (split; [done|]); (split; [done|]); by rewrite Ee.
  - run_bind H u w3 E3. injection E3 as <- <-. injection H as <- <- <- <-. split; [done|]. split; [done|]. intros _.
    destruct (Hs eq_refl) as (Hp & w1' & C1' & _ & Hw). destruct rz as [z|]; [|done].
    destruct (Ho z eq_refl) as [Hok Hoz]. destruct (PlanReverse zs ip prefix) as [rv|] eqn:Ef; [|done].
    apply setPTR_run in Hw as [C3 (n & Hn & Hset & _)]; [|apply C1'|by eapply ours_grows].
    assert (Hrv : RvOwner rv = PTROwner ip).
    { unfold PlanReverse in Ef. destruct (Netip.IsValid ip); [|done]. cbn [negb] in Ef. case_match; by injection Ef as <-. }
    exists z, n. split_and!; try done. eapply ours_grows; [exact C3|]. by eapply ours_grows.
Qed.
(** ** Events *)

Lemma confined_quiet {A} (m : M W A) w x w' : zinv w → quiet m → m w = (x, w') → confined t w w'.
Proof. intros Hi Hq E. apply confined_same; [done|]. by eapply quiet_same. Qed.

(** The state row an upsert saves, and the runs of its two sides. *)
Lemma upsert_sides prev ip host subnetID last w r w' :
  zinv w → upsert cfg lim ttl subj prev ip host subnetID last w = (r, w') →
  confined t w w' ∧ (r = Ok () → ∃ zs w1 fzid fname ftyp fs w2 rzid rname rs w3,
    same w w1 ∧ w_metrics w1 = w_metrics w ∧
    sync_forward cfg lim ttl subj prev zs host ip (Netip.String ip) w1 = ((fzid, fname, ftyp, fs), w2) ∧
    sync_reverse cfg lim ttl subj prev zs host ip subnetID w2 = ((rzid, rname, rs), w3) ∧
    wsrv w' = wsrv w3 ∧ MemStore.zones (wdb w') = MemStore.zones (wdb w3) ∧ w_metrics w3 `prefix_of` w_metrics w' ∧
    ∃ row, MemStore.sync (wdb w') !! MemStore.syncKey t (SyIPAddressID prev) = Some row ∧ SyHostname row = host ∧
      SyForwardZoneID row = fzid ∧ SyForwardName row = fname ∧ SyForwardType row = ftyp ∧ SyReverseZoneID row = rzid ∧ SyReverseName row = rname).
Proof.
  intros Hi H. unfold upsert in H. run_bind H x w1 E1.
  apply (on_store_read _ _ _ _ _ (MemStore.repo_ZonesForTenant_ok _)) in E1 as (S1 & M1 & _). pose proof (confined_same t _ _ Hi S1) as C1.
  destruct x as [zs|e]; [|by injection H as <- <-]. unfold now in H. unfold mbind at 1, M_bind at 1 in H. cbv zeta in H.
  run_bind H f w2 E2. run_bind H rv w3 E3. destruct f as [[[fzid fname] ftyp] fs], rv as [[rzid rname] rs].
  pose proof E2 as [C2 _]%sync_forward_run; [|apply C1]. pose proof E3 as [C3 _]%sync_reverse_run; [|apply C2].
  pose proof (confined_trans _ _ _ _ C1 (confined_trans _ _ _ _ C2 C3)) as C13.
  run_bind H u w4 E4. pose proof E4 as C4%(confined_upsert_state t); [|apply C3|done]. pose proof (confined_trans _ _ _ _ C13 C4) as C14.
  destruct u as [[]|e]; [|by injection H as <- <-].
  run_bind H v w5 E5. injection H as <- <-.
  assert (Hq : same w4 w5 ∧ w_metrics w4 `prefix_of` w_metrics w5).
  { destruct (sdErr fs), (sdErr rs); [injection E5 as _ <-; split; [by split_and!|done]|..];
      (split; [eapply quiet_same; [|exact E5]; apply quiet_bind; [apply quiet_auditEvent|intros _; apply quiet_metric]|]);
      unfold mbind, M_bind, auditEvent, auditDetail, record_audit, metric in E5; injection E5 as _ <-; simpl; by apply prefix_app_r. }
  destruct Hq as [S5 M5]. split; [eapply confined_trans; [exact C14|]; apply confined_same; [apply C14|done]|]. intros _.
  destruct (on_store_run _ _ _ _ _ (MemStore.repo_UpsertIPAMSync_ok _) E4) as (Hs4 & _ & Hm4 & [(e & ? & _)|H4]); [done|].
  destruct S5 as (Hd5 & Hs5 & _). exists zs, w1, fzid, fname, ftyp, fs, w2, rzid, rname, rs, w3. split_and!; try done.
  - congruence.
  - rewrite Hd5. apply (f_equal snd) in H4. simpl in H4. rewrite <- H4. unfold MemStore.upsert_ipam_sync. cbv zeta. by destruct (_ || _).
  - by rewrite <- Hm4.
  - rewrite Hd5. unfold MemStore.upsert_ipam_sync in H4. case_if in H4 as Ec; [done|]. injection H4 as H4. rewrite <- H4. simpl.
    eexists. split; [apply lookup_insert_eq|]. done.
Qed.
Lemma drop_records_run prev w r w' :
  zinv w → drop_records cfg lim subj prev w = (r, w') →
  confined t w w' ∧ match r with
  | Err _ => True
  | Ok _ => wdb w' = wdb w ∧ ∃ w1,
      (SyForwardName prev ≠ [] → removeValue cfg lim subj (SyForwardZoneID prev) (SyForwardName prev) (SyForwardType prev) (SyAddress prev) w = (Ok (), w1)) ∧
      (SyForwardName prev = [] → w1 = w) ∧
      ∃ w2, (SyReverseName prev ≠ [] → removeSet cfg subj (SyReverseZoneID prev) (SyReverseName prev) PTR w1 = (Ok (), w2)) ∧
      (SyReverseName prev = [] → w2 = w1) ∧ same w2 w'
  end.
Proof.
  intros Hi H. unfold drop_records in H. run_bind H f w1 E1. run_bind H rv w2 E2.
  assert (H1 : confined t w w1 ∧ (f = Ok () → wdb w1 = wdb w ∧
      (SyForwardName prev ≠ [] → removeValue cfg lim subj (SyForwardZoneID prev) (SyForwardName prev) (SyForwardType prev) (SyAddress prev) w = (Ok (), w1)) ∧
      (SyForwardName prev = [] → w1 = w))).
  { clear H E2. case_bool_decide as En; [injection E1 as <- <-; split; [by apply confined_refl|done]|].
    pose proof E1 as (C & Ht & _)%removeValue_run; [|done]. split; [done|]. intros ->. split; [|done]. by eapply only_type_db. }
  destruct H1 as [C1 H1].
  assert (H2 : confined t w1 w2 ∧ (rv = Ok () → wdb w2 = wdb w1 ∧
      (SyReverseName prev ≠ [] → removeSet cfg subj (SyReverseZoneID prev) (SyReverseName prev) PTR w1 = (Ok (), w2)) ∧
      (SyReverseName prev = [] → w2 = w1))).
  { clear H E1 H1. case_bool_decide as En; [injection E2 as <- <-; split; [apply confined_refl, C1|done]|].
    pose proof E2 as (C & Ht & _)%removeSet_run; [|apply C1]. split; [done|]. intros ->. split; [|done]. by eapply only_type_db. }
  destruct H2 as [C2 H2]. pose proof (confined_trans _ _ _ _ C1 C2) as C12.
  assert (Hfin : ∀ (x : res unit) o re oc w', (_ ← auditEvent subj SyncDelete (SyIPAddressID prev) o re (SyForwardName prev) (SyReverseName prev);
      _ ← metric (Metrics.IPAMSync "delete" oc); mret x) w2 = (r, w') → same w2 w' ∧ r = x).
  { intros x o re oc w3 E. split.
    - eapply quiet_same; [|exact E]. apply quiet_bind; [apply quiet_auditEvent|]. intros _. apply quiet_bind; [apply quiet_metric|]. intros _. apply quiet_ret.
    - run_bind E u w4 E4. run_bind E u' w5 E5. by injection E as <- _. }
  destruct (match f with Err e => Some e | Ok _ => err_of rv end) as [e|] eqn:Ef.
  - apply Hfin in H as [Hs ->]. split; [|done]. eapply confined_trans; [exact C12|]. apply confined_same; [apply C12|done].
  - destruct f as [[]|]; [|done]. destruct rv as [[]|]; [|done]. destruct (H1 eq_refl) as (D1 & F1 & F2), (H2 eq_refl) as (D2 & R1 & R2).
    assert (Hs : same w2 w' ∧ r = Ok ()).
    { case_if in H as Eb; [injection H as <- <-; by split|]. by apply Hfin in H. }
    destruct Hs as [Hs ->]. split; [eapply confined_trans; [exact C12|]; apply confined_same; [apply C12|done]|].
    split; [destruct Hs as (-> & _ & _); congruence|]. exists w1. split_and!; try done. by exists w2.
Qed.

Lemma clear_confined prev last w r w' : zinv w → SyTenantID prev = t → clear cfg lim subj prev last w = (r, w') → confined t w w'.
Proof.
  intros Hi Ht H. unfold clear in H. run_bind H x w1 E1. apply drop_records_run in E1 as [C1 _]; [|done].
  unfold now in H. unfold mbind at 1, M_bind at 1 in H. cbv zeta in H. run_bind H u w2 E2.
  apply (confined_upsert_state t) in E2; [|apply C1|by destruct x]. pose proof (confined_trans _ _ _ _ C1 E2). by destruct u; injection H as <- <-.
Qed.

Lemma release_confined prev w r w' : zinv w → SyTenantID prev = t → release cfg lim subj prev w = (r, w') → confined t w w'.
Proof.
  intros Hi Ht H. unfold release in H. run_bind H x w1 E1. apply drop_records_run in E1 as [C1 _]; [|done].
  destruct x as [[]|e]; [|by injection H as <- <-]. run_bind H u w2 E2. rewrite Ht in E2. apply (confined_delete_state t) in E2; [|apply C1].
  pose proof (confined_trans _ _ _ _ C1 E2). by destruct u; injection H as <- <-.
Qed.
Lemma stored_state id w prev : zinv w → MemStore.get_ipam_sync t id (wdb w) = Ok prev → "|"%char ∉ t → "|"%char ∉ SyTenantID prev →
  SyTenantID prev = t ∧ SyIPAddressID prev = id.
Proof.
  unfold MemStore.get_ipam_sync. intros Hi H. destruct (_ !! _) as [s|] eqn:E; [|done]. injection H as ->.
  pose proof (MemStore.wf_sync_key _ (zi_db _ Hi) _ _ E) as Hk. simpl in Hk. intros Ht Hs. by apply MemStore.syncKey_inj in Hk.
Qed.
End Tenant.
(** The state rows belong to tenants whose ids have no bar (they are UUIDs). *)
Definition plain_tenants (w : W) : Prop := map_Forall (λ _ s, "|"%char ∉ SyTenantID s) (MemStore.sync (wdb w)).

Lemma Handle_cases tid ev w r w' :
  zinv w → Handle cfg lim ttl tid ev w = (r, w') →
  (same w w' ∧ is_ok r = false) ∨ ∃ p w1, same w w1 ∧ w_metrics w1 = w_metrics w ∧ handle_known cfg lim ttl (Authz.SystemFor tid) tid ev p w1 = (r, w') ∧
    match p with
    | Some prev => MemStore.get_ipam_sync tid (EvID ev) (wdb w) = Ok prev
    | None => MemStore.get_ipam_sync tid (EvID ev) (wdb w) = Err (New RepoErrNotFound)
    end.
Proof.
  intros Hi H. unfold Handle in H. case_if in H as E0; [injection H as <- <-; left; by repeat split|].
  run_bind H x w1 E1. apply (on_store_read _ _ _ _ _ (MemStore.repo_GetIPAMSync_ok _ _)) in E1 as (S1 & M1 & E1).
  destruct x as [prev|e].
  - right. exists (Some prev), w1. split_and!; try done. by destruct E1 as [(? & ? & _)|E1].
  - destruct (Is e RepoErrNotFound) eqn:Ee; cbn [negb] in H; [|injection H as <- <-; by left].
    right. exists None, w1. split_and!; try done. destruct E1 as [(e' & [= <-] & Hf)|E1].
    + by rewrite (proj1 (MemStore.fault_kinds _ Hf)) in Ee.
    + unfold MemStore.get_ipam_sync in *. by destruct (_ !! _).
Qed.

Lemma Handle_confines tid ev w r w' :
  zinv w → "|"%char ∉ tid → plain_tenants w → Handle cfg lim ttl tid ev w = (r, w') → confined tid w w'.
Proof.
  intros Hi Hb Hp H.
  apply Handle_cases in H as [[Hs _]|(p & w1 & S1 & _ & H & Hst)]; [by apply confined_same| |done].
  pose proof (confined_same tid _ _ Hi S1) as C1. eapply confined_trans; [exact C1|]. pose proof (cf_inv _ _ _ C1) as Hi1.
  assert (Hprev : ∀ prev, p = Some prev → SyTenantID prev = Authz.STenantID (Authz.SystemFor tid)).
  { intros prev ->. unfold MemStore.get_ipam_sync in Hst. destruct (MemStore.sync (wdb w) !! _) as [s0|] eqn:E0; [|done]. injection Hst as ->.
    apply (stored_state (Authz.SystemFor tid) (EvID ev) w prev Hi); [|done|by eapply Hp].
    unfold MemStore.get_ipam_sync. cbn [Authz.STenantID Authz.SystemFor]. by rewrite E0. }
  unfold handle_known in H. cbv zeta in H. destruct (GetAddress tid (EvID ev)) as [addr|e].
  - assert (Href : ∀ (x : res unit) m w2, (_ ← metric m; mret x) w1 = (r, w2) → confined tid w1 w2).
    { intros x m w2 E. eapply (confined_quiet (Authz.SystemFor tid)); [done| |exact E]. auto with dns. }
    destruct (Netip.ParseAddr _) as [ip|]; [|by eapply Href]. case_if in H as Eb; [by eapply Href|].
    destruct (CanonicalHost _) as [h|].
    + by apply (upsert_sides (Authz.SystemFor tid)) in H as [? _].
    + destruct p as [prev|]; [|by eapply Href]. apply (clear_confined (Authz.SystemFor tid)) in H; [done|done|by apply Hprev].
  - destruct (Is e IpamErrNotFound).
    + destruct p as [prev|]; [|injection H as <- <-; by apply confined_refl].
      apply (release_confined (Authz.SystemFor tid)) in H; [done|done|by apply Hprev].
    + eapply (confined_quiet (Authz.SystemFor tid)); [done| |exact H]. auto with dns.
Qed.

(** C10: an IPAM event stays within its tenant: whatever the event says and
    IPAM answers, and whether the handling succeeds or fails at any point, the
    PowerDNS entry of every zone of another tenant is exactly as before, so is
    every state row of another tenant, no zone row is removed or changed, and the
    ownership invariant of the zones holds. *)
Theorem Handle_confined tid ev w r w' :
  zinv w → "|"%char ∉ tid → plain_tenants w → Handle cfg lim ttl tid ev w = (r, w') →
  zinv w' ∧ MemStore.zones (wdb w) ⊆ MemStore.zones (wdb w') ∧
  (∀ k z, MemStore.zones (wdb w) !! k = Some z → TenantID z ≠ tid → Pdns.zones (wsrv w') !! PDNSID z = Pdns.zones (wsrv w) !! PDNSID z) ∧
  (∀ k s, MemStore.sync (wdb w) !! k = Some s → SyTenantID s ≠ tid → MemStore.sync (wdb w') !! k = Some s).
Proof.
  intros Hi Hb Hp H. destruct (Handle_confines _ _ _ _ _ Hi Hb Hp H) as [Ci Cr Co Cs].
  split_and!; try done; intros k s Hk Hs; eapply Cs; eauto; by eapply Hp.
Qed.
(** A set of an address type survives what the reverse side does. *)
Lemma in_set_kept w w' z n ty Q : ty ∈ ["A" : str; "AAAA" : str] → kept w w' → in_set w z n ty Q → in_set w' z n ty Q.
Proof.
  intros Hty Hk (pz & s & Hz & Hs & Hf & HQ).
  destruct (Hk _ _ _ Hz Hs) as (pz' & s' & Hz' & Hs' & Hkey & Hr).
  - intros E. unfold Records.same_fold in Hf. rewrite E in Hf. apply andb_true_iff in Hf as [_ Hf].
    rewrite !elem_of_cons in Hty. destruct Hty as [-> |[-> |?%elem_of_nil]]; by vm_compute in Hf.
  - exists pz', s'. split_and!; try done; [|by rewrite Hr]. unfold Records.same_fold, Pdns.rkey in *. by injection Hkey as -> ->.
Qed.

Lemma recordType_table ip : recordType ip ∈ ["A" : str; "AAAA" : str].
Proof. unfold recordType. destruct (Netip.Is4 _); set_solver. Qed.

(** C11: a handled event of an address with a usable host name brings the DNS to
    IPAM's answer, or says that it could not: unless a failed or skipped side was
    counted, the address is now in the A or AAAA set of the canonical host name
    and the PTR set of the address holds exactly the host, each in a zone of the
    tenant, and the state row names both. *)
Theorem Handle_converges tid ev addr ip h w w' :
  zinv w → "|"%char ∉ tid → plain_tenants w →
  GetAddress tid (EvID ev) = Ok addr → AdID addr = EvID ev → Netip.ParseAddr (TrimSpace (AdAddress addr)) = Some ip →
  Netip.zone_of ip = [] → CanonicalHost (AdHostname addr) = Some h → Handle cfg lim ttl tid ev w = (Ok (), w') →
  failed_since w w' ∨
  ∃ row, MemStore.sync (wdb w') !! MemStore.syncKey tid (EvID ev) = Some row ∧ SyHostname row = h ∧
    SyForwardType row = recordType (Netip.Unmap ip) ∧
    forward_done (Authz.SystemFor tid) w' h (Netip.String (Netip.Unmap ip)) (SyForwardZoneID row) (SyForwardName row) (SyForwardType row) ∧
    reverse_done (Authz.SystemFor tid) w' (Netip.Unmap ip) h (SyReverseZoneID row) (SyReverseName row).
Proof.
  intros Hi Hb Hp Hg Hid Hip Hz Hh H. set (subj := Authz.SystemFor tid).
  apply Handle_cases in H as [[_ ?]|(p & w1 & S1 & M1 & H & Hst)]; [done| |done]. pose proof (same_inv _ _ S1 Hi) as Hi1.
  unfold handle_known in H. cbv zeta in H. rewrite Hg, Hip, Hh in H. rewrite (bool_decide_eq_true_2 _ Hz), (bool_decide_eq_true_2 _ Hid) in H.
  cbn [negb orb] in H. set (prev := match p with Some q => q | None => _ end) in H.
  assert (Hprev : SyIPAddressID prev = EvID ev).
  { unfold prev. destruct p as [q|]; [|done]. unfold MemStore.get_ipam_sync in Hst.
    destruct (MemStore.sync (wdb w) !! _) as [s0|] eqn:E0; [|done]. injection Hst as ->.
    apply (stored_state subj (EvID ev) w q Hi); [|done|by eapply Hp]. unfold MemStore.get_ipam_sync.
    change (Authz.STenantID subj) with tid. by rewrite E0. }
  apply (upsert_sides subj) in H as [_ H]; [|done]. destruct (H eq_refl) as (zs & w2 & fzid & fname & ftyp & fs & w3 & rzid & rname & rs & w4
    & S2 & M2 & EF & ER & Hsv & Hrows & Hm & row & Hrow & Hhost & <- & <- & <- & <- & <-). clear H.
  assert (Hm02 : w_metrics w `prefix_of` w_metrics w2) by (rewrite M2, M1; reflexivity).
  pose proof (run_grows _ _ _ _ (grows_reverse _ _ _ _ _ _) ER) as Hm34.
  pose proof EF as [CF HF]%sync_forward_run; [|by eapply same_inv]. pose proof ER as (CR & KR & HR)%sync_reverse_run; [|apply CF].
  destruct (sdErr fs) as [e|] eqn:Ef.
  { left. apply forward_failed in EF; [|by rewrite Ef]. eapply failed_later; [exact Hm02|exact EF|by etrans]. }
  destruct (sdErr rs) as [e|] eqn:Er.
  { left. apply reverse_failed in ER; [|by rewrite Er]. eapply failed_later; [|exact ER|exact Hm]. etrans; [exact Hm02|].
    destruct (sync_forward_grows _ _ _ _ _ _ _ _ _ EF). by eexists. }
  right. exists row. rewrite Hprev in Hrow. split; [done|]. split; [done|]. destruct (HF eq_refl) as [Hty (z & n & Ho & Hzid & Hc & Hn & Hset)].
  destruct (HR eq_refl) as (z' & n' & Ho' & Hzid' & Hpo & Hn' & Hset'). split; [done|].
  assert (Hours : ∀ z, ours tid w4 z → ours tid w' z) by (intros z0 (r0 & ? & ?); exists r0; by rewrite Hrows).
  assert (Hsets : ∀ z n ty Q, in_set w4 z n ty Q → in_set w' z n ty Q) by (intros ???? (pz & s & ? & ?); exists pz, s; by rewrite Hsv).
  split.
  - exists z, n. split_and!; try done; [apply Hours; by eapply ours_grows|]. apply Hsets. eapply in_set_kept; [|exact KR|exact Hset].
    rewrite Hty. apply recordType_table.
  - exists z', n'. split_and!; try done; [by apply Hours|by apply Hsets].
Qed.
End Spec.
Module Concrete.
Import ZonesSpec.Concrete RecordsSpec.Concrete.
#[local] Existing Instance unicode_min.
#[local] Existing Instance miekg_plain.
#[local] Existing Instance miekg_plain_laws.
#[local] Existing Instance psl_tld.
#[local] Existing Instance Content.rr_plain.
#[local] Existing Instance no_templates.

(** An IPAM with one address, or none. *)
Definition ipam_of (a : option Address) : IPAM := {|
  GetAddress _ _ := match a with Some a => Ok a | None => Err (New IpamErrNotFound) end;
  GetSubnet _ _ := Err (Plain "no subnets")
|}.
Definition web (ip : str) : Address := mkAddress "a1" ip [] "Web.example.com".
Definition event : Event := mkEvent TypeUpdated [] "a1" [] [] [].
Abbreviation handle a w := (Handle (IC := ipam_of a) cfg0 lim0 300 "t1" event w).

Definition synced1 := (handle (Some (web "192.0.2.10")) world1).2.

Example handle_ok : is_ok (handle (Some (web "192.0.2.10")) world1).1 = true.
Proof. vm_compute. reflexivity. Qed.

(** The contents of a set of a zone, enabled or not. *)
Definition records_of (zone n ty : str) (w : World MemStore.Mem Pdns.Fake Recursor.Fake) : list (str * bool) :=
  match Pdns.zones (wsrv w) !! zone with
  | Some pz => match Pdns.meaning (Pdns.PRRsets pz) !! (n, ty) with
               | Some (_, recs) => map (λ x, (Pdns.RecContent x, Pdns.RecDisabled x)) recs
               | None => [] end
  | None => []
  end.

Example synced_records :
  (records_of "example.com." "web.example.com." "A" synced1, records_of "2.0.192.in-addr.arpa." "10.2.0.192.in-addr.arpa." "PTR" synced1)
  = ([("192.0.2.10" : str, false)], [("web.example.com." : str, false)]).
Proof. vm_compute. reflexivity. Qed.
Definition retired1 := (handle None synced1).2.

Lemma handle_eq a (w : World MemStore.Mem Pdns.Fake Recursor.Fake) : handle a w = ((handle a w).1, (handle a w).2).
Proof. apply surjective_pairing. Qed.
Lemma handled a (w : World MemStore.Mem Pdns.Fake Recursor.Fake) : (handle a w).1 = Ok () → handle a w = (Ok (), (handle a w).2).
Proof. destruct (handle a w) as [r w']. cbn [fst snd]. intros ->. reflexivity. Qed.
Lemma no_bar : "|"%char ∉ ("t1" : str).
Proof. intros H%list_elem_of_In. vm_compute in H. intuition discriminate. Qed.
Lemma world1_plain : plain_tenants world1.
Proof. intros k s Hk. vm_compute in Hk. discriminate. Qed.

Lemma Handle_confined_witness :
  zinv synced1 ∧ MemStore.zones (wdb world1) ⊆ MemStore.zones (wdb synced1).
Proof.
  destruct (Handle_confined (IC := ipam_of (Some (web "192.0.2.10"))) cfg0 lim0 300 "t1" event world1 _ _ world1_inv no_bar world1_plain
    (handle_eq (Some (web "192.0.2.10")) world1)) as (Hi & Hs & _). exact (conj Hi Hs).
Defined.

Lemma Handle_converges_witness :
  (∃ row, MemStore.sync (wdb synced1) !! MemStore.syncKey "t1" "a1" = Some row ∧ SyForwardType row = "A") ∨ failed_since world1 synced1.
Proof.
  assert (E : handle (Some (web "192.0.2.10")) world1 = (Ok (), synced1)).
  { apply handled. vm_compute. reflexivity. }
  destruct (Handle_converges (IC := ipam_of (Some (web "192.0.2.10"))) cfg0 lim0 300 "t1" event (web "192.0.2.10") (Netip.V4 3221225994) "web.example.com."
    world1 synced1 world1_inv no_bar world1_plain eq_refl eq_refl eq_refl eq_refl eq_refl E) as [Hf|(row & Hr & _ & Ht & _)]; [right; exact Hf|left].
  exists row. exact (conj Hr Ht).
Defined.

Lemma synced1_inv : zinv synced1.
Proof.
  pose proof (Handle_confines (IC := ipam_of (Some (web "192.0.2.10"))) cfg0 lim0 300 "t1" event world1 _ _ world1_inv no_bar world1_plain
    (handle_eq (Some (web "192.0.2.10")) world1)) as C. exact (cf_inv _ _ _ C).
Qed.
Lemma synced1_canon : canon_srv synced1.
Proof.
  assert (H : forallb (λ kv, forallb (λ s, canon_keyb (Pdns.rkey s)) (Pdns.PRRsets kv.2)) (map_to_list (Pdns.zones (wsrv synced1))) = true) by (vm_compute; reflexivity).
  rewrite forallb_Forall in H. apply map_Forall_to_list. eapply Forall_impl; [exact H|]. intros [k pz] Hs. rewrite forallb_Forall in Hs.
  eapply Forall_impl; [exact Hs|]. intros s Hk. unfold canon_keyb in Hk. b2p. by repeat split.
Qed.
Definition row1 : IPAMSync := Eval vm_compute in
  match MemStore.get_ipam_sync "t1" "a1" (wdb synced1) with Ok r => r | Err _ => mkIPAMSync [] [] [] [] [] [] [] [] [] [] 0 end.


(** A removal that failed once is not retried when the address itself changed:
    the state row already holds the new address, and the old one stays in the
    set although no row names it any more. *)
Definition refusing (w : World MemStore.Mem Pdns.Fake Recursor.Fake) :=
  set_pdns (Pdns.FailNext "PatchRRsets" (Plain "down") (w_pdns w)) w.
Definition moved1 := handle (Some (web "192.0.2.11")) (refusing synced1).
Example stale_address :
  let again := handle (Some (web "192.0.2.11")) moved1.2 in
  (is_ok moved1.1, is_ok again.1, records_of "example.com." "web.example.com." "A" again.2)
  = (false, true, [("192.0.2.10" : str, false); ("192.0.2.11" : str, false)]).
Proof. vm_compute. reflexivity. Qed.

(** A value of the host's set that is disabled is served again once the sync
    adds an address to the set. *)
Definition with_disabled := (Records.Upsert cfg0 lim0 alice "id0"
  (RecordSets.mkRecordSetInput "web" "A" 300 [RecordSets.mkRecordValue "192.0.2.99" true] []) world1).2.
Example disabled_value_enabled :
  (records_of "example.com." "web.example.com." "A" with_disabled,
   records_of "example.com." "web.example.com." "A" (handle (Some (web "192.0.2.10")) with_disabled).2)
  = ([("192.0.2.99" : str, true)], [("192.0.2.99" : str, false); ("192.0.2.10" : str, false)]).
Proof. vm_compute. reflexivity. Qed.
End Concrete.
End IpamSyncSpec.
