(* ===== verification/AuditTrail.v ===== *)
(** * The audit trail of the services

    Every event the services emit is one the audit log accepts: its type, actor,
    subject and outcome are of the closed vocabulary, and none of its details is
    one the redaction hides.  [Emit] ignores the answer of the log, so an event
    outside the vocabulary would be lost without a trace. *)
From Stdlib Require Import Ascii.
From S2P Require Import Prelude GoStrings GoError Store Names Netip Content Masters Authz MemStore Pdns RecordSets Recursor World AuditLog Zones Supermasters Records Templates Acme IpamPlan IpamSync ZonesSpec RecordsSpec IpamSyncSpec.
Local Open Scope Z_scope.

Module AuditTrail.
Import Store.

Section Trail.
Context {U : Unicode} {DNS : MiekgDNS} {PSL : PublicSuffixList} {RRP : Content.RRParser}.
Context {S P R : Type} {RS : MemStore.RepoStore S} {PC : Pdns.PDNSClient P} {RC : RecursorClient R}.
Context {TE : Zones.TemplateExpander S} {IC : IpamSync.IPAM}.
Abbreviation W := (World S P R).
Implicit Types w : World S P R.

(** The log takes the event and keeps all its details. *)
Definition accepted (e : AuditEvent.Event) : Prop :=
  AuditLog.Validate (AuditLog.of_service e) = Ok () ∧ Forall (λ d, AuditLog.forbiddenKey d.1 = false) (AuditEvent.AeDetails e).

(** A computation whose events are all accepted. *)
Definition logs {A} (m : M W A) : Prop := ∀ w, ∃ l, w_audit (m w).2 = w_audit w ++ l ∧ Forall accepted l.

Lemma logs_quiet {A} (m : M W A) : (∀ w, w_audit (m w).2 = w_audit w) → logs m.
Proof. intros H w. exists []. by rewrite H, app_nil_r. Qed.
Lemma logs_ret {A} (a : A) : logs (mret a).
Proof. by apply logs_quiet. Qed.
Lemma logs_after w w1 w2 :
  (∃ l, w_audit w1 = w_audit w ++ l ∧ Forall accepted l) → (∃ l, w_audit w2 = w_audit w1 ++ l ∧ Forall accepted l) →
  ∃ l, w_audit w2 = w_audit w ++ l ∧ Forall accepted l.
Proof. intros (l1 & -> & H1) (l2 & -> & H2). exists (l1 ++ l2). rewrite app_assoc. split; [done|]. by apply Forall_app. Qed.
Lemma logs_bind {A B} (m : M W A) (k : A → M W B) : logs m → (∀ a, logs (k a)) → logs (m ≫= k).
Proof.
  intros Hm Hk w. unfold mbind, M_bind. specialize (Hm w). destruct (m w) as [a w1]. eapply logs_after; [exact Hm|apply Hk].
Qed.
Lemma logs_try {A B} (m : M W (res A)) (k : A → M W (res B)) : logs m → (∀ a, logs (k a)) → logs (try_ m k).
Proof.
  intros Hm Hk w. unfold try_. specialize (Hm w). destruct (m w) as [[a|e] w1]; [|done]. eapply logs_after; [exact Hm|apply Hk].
Qed.
Lemma logs_store {A} (op : S → res A * S) : logs (on_store op).
Proof. apply logs_quiet. intros w. unfold on_store. by destruct (op (w_store w)). Qed.
Lemma logs_metric m : logs (metric m).
Proof. by apply logs_quiet. Qed.
Lemma logs_publish t e p : logs (publish t e p).
Proof. by apply logs_quiet. Qed.
Lemma logs_mint f : logs (mint f).
Proof. by apply logs_quiet. Qed.
Lemma logs_now : logs now.
Proof. by apply logs_quiet. Qed.
Lemma logs_pdns {A} (f : P → res A * P) : logs (on_pdns f).
Proof. apply logs_quiet. intros w. unfold on_pdns. by destruct (f (w_pdns w)). Qed.
Lemma logs_syncForward n : logs (Zones.syncForward n).
Proof. apply logs_quiet. intros w. unfold Zones.syncForward. destruct (w_rec w) as [r|]; [|done]. by destruct (rec_SyncForward n r). Qed.
Lemma logs_removeForward n : logs (Zones.removeForward n).
Proof. apply logs_quiet. intros w. unfold Zones.removeForward. destruct (w_rec w) as [r|]; [|done]. by destruct (rec_RemoveForward n r). Qed.

(** An event recorded: its fields are of the closed sets. *)
Lemma ActorOf_known k : contains AuditLog.actorKinds (AuditEvent.ActorOf k) = true.
Proof.
  unfold AuditEvent.ActorOf. destruct (contains _ k) eqn:E; [|by vm_compute]. apply contains_elem in E.
  apply contains_elem. unfold AuditLog.actorKinds. set_solver.
Qed.
(** A key of ASCII letters that no forbidden word is part of. *)
Definition plain_key (k : str) : bool := isASCII k && negb (existsb (λ f, Contains (map lower_byte k) f) AuditLog.forbidden).
Lemma plain_key_kept k : plain_key k = true → AuditLog.forbiddenKey k = false.
Proof. unfold plain_key, AuditLog.forbiddenKey. intros [Ha Hn]%andb_true_iff. rewrite ToLower_ascii by done. by apply negb_true_iff. Qed.

Lemma logs_record tenant t actor aid kind id outcome reason details :
  tenant ≠ [] → AuditLog.Known t = true → contains AuditLog.actorKinds actor = true → contains AuditLog.subjectKinds kind = true →
  contains AuditLog.outcomes outcome = true → forallb (λ d, plain_key d.1) details = true →
  logs (record_audit (AuditEvent.mkEvent tenant t actor aid kind id outcome reason details)).
Proof.
  intros Ht Hk Ha Hs Ho Hd w. eexists. split; [done|]. constructor; [|done]. split; cbn [AuditEvent.AeDetails].
  - unfold AuditLog.Validate, AuditLog.of_service.
    cbn [AuditLog.EventType AuditLog.TenantID AuditLog.ActorKind AuditLog.SubjectKind AuditLog.Outcome
         AuditEvent.AeTenantID AuditEvent.AeType AuditEvent.AeActorKind AuditEvent.AeSubjectKind AuditEvent.AeOutcome].
    by rewrite Hk, (bool_decide_eq_false_2 _ Ht), Ha, Hs, Ho.
  - apply forallb_Forall in Hd. eapply Forall_impl; [exact Hd|]. intros d. apply plain_key_kept.
Qed.

(** Composition of the calls of the services. *)
Ltac logged :=
  repeat (intros; cbv zeta;
    first [ apply logs_ret | apply logs_store | apply logs_metric | apply logs_publish | apply logs_mint | apply logs_now
          | apply logs_pdns | apply logs_syncForward | apply logs_removeForward | assumption | eassumption
          | apply logs_bind | apply logs_try | case_match ]).
Ltac recorded := apply logs_record; [assumption|try (vm_compute; reflexivity)|try apply ActorOf_known|try (vm_compute; reflexivity)..].

Section OneTenant.
Context (zcfg : Zones.Config) (scfg : Supermasters.Config) (lim : RecordSets.Limits) (newID : nat → str) (ttl : Z).
Context (subj : Authz.Subjects) (Ht : Authz.STenantID subj ≠ []).

Lemma outcomes_known e : contains AuditLog.outcomes (Zones.outcomeOf e) = true.
Proof. unfold Zones.outcomeOf. by destruct (_ || _). Qed.
Lemma logs_zone_audit t id n o e : AuditLog.Known t = true → contains AuditLog.outcomes o = true → logs (Zones.audit subj t id n o e).
Proof. intros Hk Ho. unfold Zones.audit. recorded; done. Qed.
Lemma logs_record_audit t z n ty e : AuditLog.Known t = true → logs (Records.audit subj t z n ty e).
Proof.
  intros Hk. unfold Records.audit. destruct (Records.audit_outcome e) as [o rsn] eqn:E. recorded; [done|].
  unfold Records.audit_outcome in E. repeat case_match; simplify_eq; done.
Qed.
Lemma logs_template_audit t id n e : AuditLog.Known t = true → logs (Templates.audit subj t id n e).
Proof.
  intros Hk. unfold Templates.audit. destruct (Templates.audit_outcome e) as [o rsn] eqn:E. recorded; [done|].
  unfold Templates.audit_outcome in E. repeat case_match; simplify_eq; done.
Qed.
Lemma logs_sm_audit t sm e : AuditLog.Known t = true → logs (Supermasters.audit subj t sm e).
Proof.
  intros Hk. unfold Supermasters.audit. destruct (Supermasters.audit_outcome e) as [o rsn] eqn:E. recorded; [done|].
  unfold Supermasters.audit_outcome in E. repeat case_match; simplify_eq; done.
Qed.
Lemma logs_sync_audit t id o rsn d :
  AuditLog.Known t = true → contains AuditLog.outcomes o = true → forallb (λ d, plain_key d.1) d = true → logs (IpamSync.auditDetail subj t id o rsn d).
Proof. intros. unfold IpamSync.auditDetail. recorded; done. Qed.

Ltac audited := first [ apply logs_zone_audit; [reflexivity|first [reflexivity|apply outcomes_known]] | apply logs_record_audit; reflexivity
  | apply logs_template_audit; reflexivity | apply logs_sm_audit; reflexivity | apply logs_sync_audit; reflexivity ].
Ltac trail := repeat (logged; try audited).

Lemma logs_Create i : logs (Zones.Create zcfg subj i).
Proof. unfold Zones.Create, Zones.create, Zones.prepare, Zones.create_check, Zones.create_commit, Zones.initial_rrsets, Zones.Call, EmitZone. trail. Qed.
Lemma logs_owned id : logs (Zones.owned subj id).
Proof. unfold Zones.owned. trail. Qed.
Lemma logs_Owned id : logs (Zones.Owned zcfg subj id).
Proof. unfold Zones.Owned. trail. Qed.
Lemma logs_ByName n : logs (Zones.ByName zcfg subj n).
Proof. unfold Zones.ByName. trail. Qed.
Lemma logs_FindForName n : logs (Zones.FindForName zcfg subj n).
Proof. unfold Zones.FindForName. trail. Qed.
Lemma logs_ZUpdate id i : logs (Zones.Update zcfg subj id i).
Proof. unfold Zones.Update, Zones.update, Zones.Call, EmitZone. trail; try apply logs_owned. Qed.
Lemma logs_ZDelete id : logs (Zones.Delete zcfg subj id).
Proof. unfold Zones.Delete, Zones.delete_, Zones.Call, EmitZone. trail; try apply logs_owned. Qed.
Lemma logs_Notify id : logs (Zones.Notify zcfg subj id).
Proof. unfold Zones.Notify, Zones.Call. trail; try apply logs_owned. Qed.
Lemma logs_Export id : logs (Zones.Export zcfg subj id).
Proof. unfold Zones.Export, Zones.Call. trail; try apply logs_owned. Qed.

Lemma logs_load id perm : logs (Records.load zcfg subj id perm).
Proof. unfold Records.load. trail; try apply logs_Owned. Qed.
Lemma logs_Apply z i src : logs (Records.Apply lim subj z i src).
Proof. unfold Records.Apply, Records.apply, Records.rrsets, Records.patch, Zones.Call, EmitRecord. trail. Qed.
Lemma logs_Lookup z k : logs (Records.Lookup subj z k).
Proof. unfold Records.Lookup, Records.rrsets, Zones.Call. trail. Qed.
Lemma logs_Remove z k src : logs (Records.Remove subj z k src).
Proof. unfold Records.Remove, Records.remove, Records.removed, Records.rrsets, Records.patch, Zones.Call, EmitRecord. trail. Qed.
Lemma logs_Upsert id i : logs (Records.Upsert zcfg lim subj id i).
Proof. unfold Records.Upsert, Records.apply, Records.rrsets, Records.patch, Zones.Call, EmitRecord. trail; try apply logs_load; try apply logs_Apply. Qed.
Lemma logs_RUpdate id k i : logs (Records.Update zcfg lim subj id k i).
Proof. unfold Records.Update, Records.update, Records.rrsets, Records.patch, Zones.Call, EmitRecord. trail; try apply logs_load. Qed.
Lemma logs_RDelete id k : logs (Records.Delete zcfg subj id k).
Proof. unfold Records.Delete, Records.remove, Records.removed, Records.rrsets, Records.patch, Zones.Call, EmitRecord. trail; try apply logs_load. Qed.

Context (checker : option Authz.Checker).
Lemma logs_TCreate i : logs (Templates.Create checker lim newID subj i).
Proof. unfold Templates.Create. trail. Qed.
Lemma logs_TUpdate id i : logs (Templates.Update checker lim subj id i).
Proof. unfold Templates.Update. trail. Qed.
Lemma logs_TDelete id : logs (Templates.Delete checker subj id).
Proof. unfold Templates.Delete. trail. Qed.

Lemma logs_SCreate i : logs (Supermasters.Create scfg subj i).
Proof. unfold Supermasters.Create, Supermasters.create, Supermasters.commit, Supermasters.call. trail. Qed.
Lemma logs_SDelete id : logs (Supermasters.Delete scfg subj id).
Proof. unfold Supermasters.Delete, Supermasters.delete_, Supermasters.drop_row, Supermasters.get, Supermasters.call. trail. Qed.

(** The synchronisation. *)
Ltac synced := trail; try first [apply logs_Create | apply logs_Owned | apply logs_ByName | apply logs_Lookup | apply logs_Apply | apply logs_Remove].
Lemma logs_zone b id n : logs (IpamSync.zone zcfg subj b id n).
Proof. unfold IpamSync.zone. destruct b; [apply logs_Owned|]. apply logs_bind; [apply logs_Create|]. intros a. destruct a; [apply logs_ret|]. case_match; synced. Qed.
Lemma logs_addValue z n ty v : logs (IpamSync.addValue lim ttl subj z n ty v).
Proof. unfold IpamSync.addValue, IpamSync.lookup, IpamSync.applied. synced. Qed.
Lemma logs_removeValue zid n ty v : logs (IpamSync.removeValue zcfg lim subj zid n ty v).
Proof. unfold IpamSync.removeValue, IpamSync.lookup, IpamSync.applied. apply logs_bind; [apply logs_Owned|]. synced. Qed.
Lemma logs_removeSet zid n ty : logs (IpamSync.removeSet zcfg subj zid n ty).
Proof. unfold IpamSync.removeSet. apply logs_bind; [apply logs_Owned|]. synced. Qed.
Lemma logs_setPTR z o h : logs (IpamSync.setPTR lim ttl subj z o h).
Proof. unfold IpamSync.setPTR, IpamSync.lookup, IpamSync.applied. synced. Qed.
Lemma logs_outcome id z n ty e : logs (IpamSync.outcome subj id z n ty e).
Proof. unfold IpamSync.outcome. trail. Qed.
Lemma logs_side pe moved (remove write : M W (res unit)) : logs remove → logs write → logs (IpamSync.side pe moved remove write).
Proof. intros Hr Hw. unfold IpamSync.side, IpamSync.side_write. trail. Qed.
Lemma logs_planned {A} (plan : res A) load : (∀ a, logs (load a)) → logs (IpamSync.planned plan load).
Proof. intros Hl. destruct plan; simpl; [apply Hl|apply logs_ret]. Qed.

Lemma logs_forward prev zs host ip ad : logs (IpamSync.sync_forward zcfg lim ttl subj prev zs host ip ad).
Proof.
  unfold IpamSync.sync_forward. cbv zeta. apply logs_bind; [apply logs_planned; intros; apply logs_zone|]. intros fz.
  apply logs_bind; [apply logs_side; [apply logs_removeValue|apply logs_addValue]|]. intros s.
  destruct (match IpamSync.sdErr s with Some _ => _ | None => _ end) as [[zid name] typ].
  apply logs_bind; [|intros; apply logs_ret]. destruct (IpamSync.sdErr s); [apply logs_outcome|apply logs_ret].
Qed.
Lemma logs_reverse prev zs host ip sn : logs (IpamSync.sync_reverse zcfg lim ttl subj prev zs host ip sn).
Proof.
  unfold IpamSync.sync_reverse. cbv zeta. apply logs_bind; [apply logs_planned; intros; apply logs_zone|]. intros fz.
  apply logs_bind; [apply logs_side; [apply logs_removeSet|apply logs_setPTR]|]. intros s.
  destruct (match IpamSync.sdErr s with Some _ => _ | None => _ end) as [zid name].
  apply logs_bind; [|intros; apply logs_ret]. destruct (IpamSync.sdErr s); [apply logs_outcome|apply logs_ret].
Qed.
Lemma logs_auditEvent t id o rsn f r : AuditLog.Known t = true → contains AuditLog.outcomes o = true → logs (IpamSync.auditEvent subj t id o rsn f r).
Proof. intros. unfold IpamSync.auditEvent. by apply logs_sync_audit. Qed.
Lemma logs_upsert prev ip host sn last : logs (IpamSync.upsert zcfg lim ttl subj prev ip host sn last).
Proof.
  unfold IpamSync.upsert. apply logs_bind; [apply logs_store|]. intros [zs|]; [|apply logs_ret]. apply logs_bind; [apply logs_now|]. intros t. cbv zeta.
  apply logs_bind; [apply logs_forward|]. intros f. apply logs_bind; [apply logs_reverse|]. intros r.
  destruct f as [[[fzid fname] ftyp] fs], r as [[rzid rname] rs]. apply logs_bind; [apply logs_store|]. intros [u|]; [|apply logs_ret].
  apply logs_bind; [|intros; apply logs_ret]. destruct (IpamSync.sdErr fs), (IpamSync.sdErr rs); try apply logs_ret;
    (apply logs_bind; [by apply logs_auditEvent|intros; apply logs_metric]).
Qed.
Lemma logs_drop prev : logs (IpamSync.drop_records zcfg lim subj prev).
Proof.
  unfold IpamSync.drop_records. apply logs_bind; [case_match; [apply logs_ret|apply logs_removeValue]|]. intros f.
  apply logs_bind; [case_match; [apply logs_ret|apply logs_removeSet]|]. intros r. destruct (match f with Ok _ => _ | Err _ => _ end).
  - apply logs_bind; [by apply logs_auditEvent|]. trail.
  - destruct (_ && _); [apply logs_ret|]. apply logs_bind; [by apply logs_auditEvent|]. trail.
Qed.
Lemma logs_handle_known tid ev prev : logs (IpamSync.handle_known zcfg lim ttl subj tid ev prev).
Proof.
  unfold IpamSync.handle_known. cbv zeta. destruct (IpamSync.GetAddress tid _) as [a|e].
  - destruct (Netip.ParseAddr _) as [ip|]; [|trail]. destruct (_ || _); [trail|]. destruct (IpamPlan.CanonicalHost _) as [h|]; [apply logs_upsert|].
    destruct prev as [p|]; [|trail]. unfold IpamSync.clear. apply logs_bind; [apply logs_drop|]. trail.
  - destruct (Is e IpamErrNotFound); [|trail]. destruct prev as [p|]; [|trail]. unfold IpamSync.release. apply logs_try; [apply logs_drop|]. trail.
Qed.
End OneTenant.

Lemma logs_Handle zcfg lim ttl tid ev : logs (IpamSync.Handle zcfg lim ttl tid ev).
Proof.
  unfold IpamSync.Handle. cbv zeta. destruct (bool_decide (tid = []) || _) eqn:E; [apply logs_ret|]. b2p.
  apply logs_bind; [apply logs_store|]. intros [p|e]; [by apply logs_handle_known|]. destruct (negb _); [apply logs_ret|by apply logs_handle_known].
Qed.

(** The challenges: an admitted caller has a tenant. *)
Lemma logs_acme_audit subj t z n e : AuditLog.Known t = true → logs (Acme.audit subj t z n e).
Proof.
  intros Hk. unfold Acme.audit. cbv zeta.
  assert (Ht : (if bool_decide (Authz.STenantID subj = []) then NilTenant else Authz.STenantID subj) ≠ []) by (by case_bool_decide).
  destruct e as [e|]; [destruct (_ || _)|]; apply logs_record; try done; apply ActorOf_known.
Qed.

Section Challenges.
Context (zcfg : Zones.Config) (lim : RecordSets.Limits) (allowedCaller : str) (ttl : Z).

Lemma logs_current ws z n : logs (Acme.current ws z n).
Proof. unfold Acme.current, Records.Lookup, Records.rrsets, Zones.Call. logged. Qed.
Lemma logs_present ws z n v : Authz.STenantID ws ≠ [] → logs (Acme.present zcfg lim ttl ws z n v).
Proof.
  intros Ht. assert (Hr : logs (Acme.record (P := P) (R := R) zcfg ws z n v)) by (unfold Acme.record; logged).
  unfold Acme.present. apply logs_try; [apply logs_current|]. intros rs. cbv zeta. destruct (existsb _ _); [done|].
  apply logs_bind; [by apply logs_Apply|]. intros []; [done|apply logs_ret].
Qed.
Lemma logs_remove ws z n v : Authz.STenantID ws ≠ [] → logs (Acme.remove lim ws z n v).
Proof.
  intros Ht. unfold Acme.remove, Acme.drop_value. apply logs_try; [apply logs_current|]. intros rs. apply logs_try; [|logged].
  destruct rs; [|apply logs_ret]. cbv zeta. repeat (case_match; try apply logs_ret); (apply logs_bind; [|intros; apply logs_ret]);
    [by apply logs_Remove|by apply logs_Apply].
Qed.

(** After [resolve], what the rest of a call logs. *)
Lemma logs_resolved {A} subj r (k : Acme.resolved → M W A) :
  (∀ v, (Acme.rvErr v = None → Authz.STenantID (Acme.rvSubj v) ≠ []) → logs (k v)) → logs (Acme.resolve zcfg allowedCaller subj r ≫= k).
Proof.
  intros Hk w. unfold mbind, M_bind. destruct (Acme.resolve zcfg allowedCaller subj r w) as [v w1] eqn:E.
  cut ((Acme.rvErr v = None → Authz.STenantID (Acme.rvSubj v) ≠ []) ∧ w_audit w1 = w_audit w).
  { intros [Ht <-]. by apply Hk. }
  unfold Acme.resolve in E. destruct (Authz.Challenger subj allowedCaller) as [ws|e]; [|by injection E as <- <-].
  destruct (Acme.check r) as [fqdn|e]; [|by injection E as <- <-].
  unfold mbind, M_bind in E. destruct (Zones.FindForName zcfg ws fqdn w) as [x w2] eqn:Ef. injection E as <- <-.
  assert (Hf : (∀ z, x = Ok z → Authz.STenantID ws ≠ []) ∧ w_audit w2 = w_audit w).
  { unfold Zones.FindForName in Ef. destruct (Zones.guard zcfg ws _) as [[]|] eqn:Eg; [|by injection Ef as <- <-].
    split; [intros _ _; unfold Zones.guard in Eg; by case_bool_decide|]. destruct (Zones.canonicalFQDN _); [|by injection Ef as _ <-].
    unfold try_, on_store in Ef. destruct (MemStore.repo_ZonesForTenant _ _) as [[zs|] st]; by injection Ef as _ <-. }
  destruct Hf as [Hx Ha]. split; [|done]. destruct x as [z|e]; simpl; [intros _; by eapply Hx|done].
Qed.

Lemma logs_Present subj r : logs (Acme.Present zcfg lim allowedCaller ttl subj r).
Proof.
  unfold Acme.Present. apply logs_resolved. intros v Ht. apply logs_bind.
  - destruct (Acme.rvErr v); [apply logs_ret|]. apply logs_bind; [by apply logs_present, Ht|intros; apply logs_ret].
  - intros e. apply logs_bind; [by apply logs_acme_audit|]. logged.
Qed.
Lemma logs_CleanUp subj r : logs (Acme.CleanUp zcfg lim allowedCaller subj r).
Proof.
  unfold Acme.CleanUp. apply logs_resolved. intros v Ht. apply logs_bind.
  - destruct (Acme.rvErr v); [apply logs_ret|]. apply logs_bind; [by apply logs_remove, Ht|intros; apply logs_ret].
  - intros e. apply logs_bind; [by apply logs_acme_audit|]. logged.
Qed.
Lemma logs_Refused peer tid : logs (Acme.Refused peer tid).
Proof.
  unfold Acme.Refused. apply logs_bind; [|intros; apply logs_metric]. apply logs_record; try done.
  destruct (Acme.uuidRE tid) eqn:E; [|done]. intros ->. by vm_compute in E.
Qed.
End Challenges.

(** The calls of the module that change something, on behalf of a subject. *)
Section Calls.
Context (zcfg : Zones.Config) (scfg : Supermasters.Config) (lim : RecordSets.Limits) (newID : nat → str) (ttl : Z).
Context (checker : option Authz.Checker) (allowedCaller : str).

Inductive service_call (subj : Authz.Subjects) : W → W → Prop :=
  | sc_zone_create i w : service_call subj w (Zones.Create zcfg subj i w).2
  | sc_zone_update id i w : service_call subj w (Zones.Update zcfg subj id i w).2
  | sc_zone_delete id w : service_call subj w (Zones.Delete zcfg subj id w).2
  | sc_zone_notify id w : service_call subj w (Zones.Notify zcfg subj id w).2
  | sc_zone_export id w : service_call subj w (Zones.Export zcfg subj id w).2
  | sc_upsert id i w : service_call subj w (Records.Upsert zcfg lim subj id i w).2
  | sc_update id k i w : service_call subj w (Records.Update zcfg lim subj id k i w).2
  | sc_delete id k w : service_call subj w (Records.Delete zcfg subj id k w).2
  | sc_apply z i src w : service_call subj w (Records.Apply lim subj z i src w).2
  | sc_remove z k src w : service_call subj w (Records.Remove subj z k src w).2
  | sc_template_create i w : service_call subj w (Templates.Create checker lim newID subj i w).2
  | sc_template_update id i w : service_call subj w (Templates.Update checker lim subj id i w).2
  | sc_template_delete id w : service_call subj w (Templates.Delete checker subj id w).2
  | sc_supermaster_create i w : service_call subj w (Supermasters.Create scfg subj i w).2
  | sc_supermaster_delete id w : service_call subj w (Supermasters.Delete scfg subj id w).2
  | sc_present r w : service_call subj w (Acme.Present zcfg lim allowedCaller ttl subj r w).2
  | sc_cleanup r w : service_call subj w (Acme.CleanUp zcfg lim allowedCaller subj r w).2
  | sc_refused peer tid w : service_call subj w (Acme.Refused peer tid w).2
  | sc_sync tid ev w : service_call subj w (IpamSync.Handle zcfg lim ttl tid ev w).2.

End Calls.
End Trail.

Module Concrete.
Import ZonesSpec.Concrete RecordsSpec.Concrete IpamSyncSpec.Concrete.
#[local] Existing Instance unicode_min.
#[local] Existing Instance miekg_plain.
#[local] Existing Instance psl_tld.
#[local] Existing Instance Content.rr_plain.
#[local] Existing Instance no_templates.


(** A refusal without a tenant is not recorded: the service gives the event the
    empty tenant, which the log does not take, instead of the nil tenant. *)
Definition lost : World MemStore.Mem Pdns.Fake Recursor.Fake :=
  (Supermasters.Create (Supermasters.mkConfig None (λ n, [])) (Authz.User [] "root" [Authz.RolePlatformAdmin])
     (Supermasters.mkInput "192.0.2.7" "ns1.example.net") world0).2.
Example tenantless_refusal_lost :
  map (λ e, is_ok (AuditLog.Validate (AuditLog.of_service e))) (w_audit lost) = [false].
Proof. vm_compute. reflexivity. Qed.
End Concrete.
End AuditTrail.
