(* ===== verification/Stream.v ===== *)
(** * The event stream ([internal/stream])

    One stream of entries per tenant (the [Client], a Valkey subset; [Memory] is
    the in-process one), and the hub that fans the entries out to the open
    connections of the tenant's users.  The hub is a step system: a step is what
    happens under one of its locks.  A subscription is a shared object, named by
    a number here. *)
From Stdlib Require Import Ascii Sorted.
From S2P Require Import Prelude GoStrings GoError.
Local Open Scope Z_scope.

Module Stream.

(** ** Sets of connections *)

Section Filter.
Context (P : nat → Prop) `{∀ x, Decision (P x)}.
Implicit Types X Y : gset nat.
Lemma gfilter_empty : filter P (∅ : gset nat) = ∅.
Proof. apply set_eq. set_solver. Qed.
Lemma gfilter_union X Y : filter P (X ∪ Y) = filter P X ∪ filter P Y.
Proof. apply set_eq. intros x. rewrite elem_of_union, !elem_of_filter, elem_of_union. naive_solver. Qed.
Lemma gfilter_in i : P i → filter P ({[i]} : gset nat) = {[i]}.
Proof. intros Hi. apply set_eq. intros x. rewrite elem_of_filter, elem_of_singleton. naive_solver. Qed.
Lemma gfilter_out i : ¬ P i → filter P ({[i]} : gset nat) = ∅.
Proof. intros Hi. apply set_eq. intros x. rewrite elem_of_filter, elem_of_singleton. set_solver. Qed.
End Filter.

(** ** Stream ids *)

(** [strconv.ParseInt(s, 10, 64)]: a value out of range is reported and clamped. *)
Definition ParseInt (s : str) : Z * bool :=
  let '(neg, d) :=
    match s with
    | c :: t => if bool_decide (c = "-"%char) then (true, t)
                else if bool_decide (c = "+"%char) then (false, t) else (false, s)
    | [] => (false, s)
    end in
  if bool_decide (d = []) || negb (forallb digit d) then (0, false)
  else let n := if (neg : bool) then - atoi_digits d else atoi_digits d in
       if n <? - 2 ^ 63 then (- 2 ^ 63, false) else if 2 ^ 63 <=? n then (2 ^ 63 - 1, false) else (n, true).

(** [strings.SplitN(id, "-", 2)] when it gives two parts. *)
Fixpoint cut_dash (s : str) : option (str * str) :=
  match s with
  | [] => None
  | c :: t => if bool_decide (c = "-"%char) then Some ([], t)
              else match cut_dash t with Some (a, b) => Some (c :: a, b) | None => None end
  end.
Definition ParseID (id : str) : Z * Z * bool :=
  match cut_dash id with
  | None => (0, 0, false)
  | Some (a, b) => let '(ms, ok1) := ParseInt a in let '(seq, ok2) := ParseInt b in (ms, seq, ok1 && ok2)
  end.
Definition Less (a b : str) : bool :=
  let '(am, a_s, _) := ParseID a in
  let '(bm, b_s, _) := ParseID b in
  if negb (am =? bm) then am <? bm else a_s <? b_s.
Definition ID (ms seq : Z) : str := Itoa ms ++ "-" ++ Itoa seq.

(** ** The client *)

Record Entry := mkEntry { EID : str; EFields : gmap str str }.
Definition field (e : Entry) (k : str) : str := default [] (EFields e !! k).

Class Client (C : Type) := {
  XAdd : str → gmap str str → Z → C → res str * C;
  XRead : str → str → Z → C → res (list Entry);    (* what a read after an id gives, when it gives something *)
  XRange : str → str → Z → C → res (list Entry);
  XTrimMinID : str → str → C → res unit * C;
  XLast : str → C → res str
}.

(** The in-process client; its clock is the time of the call. *)
Record Memory := mkMemory { streams : gmap str (list Entry); seq : Z; Err_ : option error; Now : Z }.
Definition NewMemory (now : Z) : Memory := mkMemory ∅ 0 None now.
Definition SetErr (e : option error) (m : Memory) : Memory := mkMemory (streams m) (seq m) e (Now m).
Definition stream (m : Memory) (key : str) : list Entry := default [] (streams m !! key).

Definition mem_XAdd (key : str) (fields : gmap str str) (maxLen : Z) (m : Memory) : res str * Memory :=
  match Err_ m with
  | Some e => (Err e, m)
  | None =>
    let n := seq m + 1 in
    let id := ID (Now m) n in
    let l := stream m key ++ [mkEntry id fields] in
    let l := if (0 <? maxLen) && (maxLen <? Z.of_nat (length l)) then drop (length l - Z.to_nat maxLen) l else l in
    (Ok id, mkMemory (<[key := l]> (streams m)) n None (Now m))
  end.
Definition after (m : Memory) (key afterID : str) (count : Z) : list Entry :=
  let l := List.filter (λ e, bool_decide (afterID = []) || Less afterID (EID e)) (stream m key) in
  if 0 <? count then take (Z.to_nat count) l else l.
Definition mem_XRead (key afterID : str) (count : Z) (m : Memory) : res (list Entry) :=
  match Err_ m with
  | Some e => Err e
  | None =>
    let a : str := if bool_decide (afterID = []) || bool_decide (afterID = "$")
                   then match last (stream m key) with Some e => EID e | None => "0-0" end else afterID in
    Ok (after m key a count)
  end.
Definition mem_XRange (key afterID : str) (count : Z) (m : Memory) : res (list Entry) :=
  match Err_ m with Some e => Err e | None => Ok (after m key afterID count) end.
Definition mem_XLast (key : str) (m : Memory) : res str :=
  match Err_ m with
  | Some e => Err e
  | None => Ok match last (stream m key) with Some e => EID e | None => [] end
  end.
Definition mem_XTrimMinID (key minID : str) (m : Memory) : res unit * Memory :=
  match Err_ m with
  | Some e => (Err e, m)
  | None => (Ok (), mkMemory (<[key := List.filter (λ e, negb (Less (EID e) minID)) (stream m key)]> (streams m)) (seq m) None (Now m))
  end.
#[export] Instance memory_client : Client Memory := {|
  XAdd := mem_XAdd; XRead := mem_XRead; XRange := mem_XRange; XTrimMinID := mem_XTrimMinID; XLast := mem_XLast
|}.

(** ** The hub *)

Definition MaxPayload : Z := 16 * 1024.
Definition MaxTargets : Z := 1000.
Definition DefaultMaxLen : Z := 10000.
Definition connBuffer : nat := 32.

Record Config := mkConfig { ReplayWindow : Z; StreamsPerUser : Z; StreamsPerTenant : Z; MaxLen : Z }.  (* times in milliseconds *)
(** The defaults [NewHub] fills in. *)
Definition positive (v dflt : Z) : Z := if v <=? 0 then dflt else v.
Definition defaults (c : Config) : Config :=
  mkConfig (positive (ReplayWindow c) (5 * 60 * 1000)) (positive (StreamsPerUser c) 5) (positive (StreamsPerTenant c) 2000)
    (positive (MaxLen c) DefaultMaxLen).

Record Event := mkEvent { EvID : str; EvType : str; EvData : str }.
Definition Key (tenantID : str) : str := "platform:events:" ++ tenantID.

Definition Reserved (typ : str) : bool := bool_decide (typ ∈ ["issued" : str; "renewed" : str; "revoked" : str; "reset" : str; "bye" : str]).
Definition lower (c : ascii) : bool := (97 <=? code c) && (code c <=? 122).
Definition type_byte (c : ascii) : bool := lower c || digit c || bool_decide (c ∈ ["."%char; "_"%char; "-"%char]).
(** [typeRE]: one lower-case letter, then at most 63 bytes of the set. *)
Definition typeRE (s : str) : bool :=
  match s with
  | [] => false
  | c :: t => lower c && (Z.of_nat (length t) <=? 63) && forallb type_byte t
  end.
Definition ValidateType (typ : str) (module : bool) : res unit :=
  if negb (typeRE typ) then Err (New StreamErrType)
  else if module && Reserved typ then Err (New StreamErrReserved) else Ok ().

(** Whether the recipients of an entry include a user. *)
Definition targets (to user : str) : bool :=
  if bool_decide (to = "*") then true else existsb (λ u, bool_decide (u = user)) (SplitByte ","%char to).

Record Subscription := mkSub { tenant : str; user : str; ch : list Event; last_id : str; closed : bool }.
Record tenantSub := mkTenantSub { conns : gset nat; byUser : gmap str Z; from : str }.

Record Hub (C : Type) := mkHub {
  client : C;
  tenants : gmap str tenantSub;
  subs : gmap nat Subscription;    (* every subscription ever opened *)
  next : nat;
  down : bool                      (* the hub was closed *)
}.
Arguments mkHub {C}. Arguments client {C}. Arguments tenants {C}. Arguments subs {C}. Arguments next {C}. Arguments down {C}.

Section Hub.
Context {C : Type} {CL : Client C}.
Context (cfg0 : Config).
Implicit Types h : Hub C.
Definition cfg : Config := defaults cfg0.

Definition NewHub (c : C) : Hub C := mkHub c ∅ ∅ 0 false.
Definition with_subs (m : gmap nat Subscription) h : Hub C := mkHub (client h) (tenants h) m (next h) (down h).
Definition with_tenants (m : gmap str tenantSub) h : Hub C := mkHub (client h) m (subs h) (next h) (down h).
Definition with_client (c : C) h : Hub C := mkHub c (tenants h) (subs h) (next h) (down h).

Definition OpenStreams h : Z := foldr (λ t n, Z.of_nat (size (conns t)) + n) 0 (map snd (map_to_list (tenants h))).

(** [PublishID]: the payload is JSON text already. *)
Definition target_ok (u : str) : bool := negb (bool_decide (u = [])) && negb (ContainsAny u [","%char; " "%char; "010"%char]).
Definition PublishID (json_valid : str → bool) (tenantID : str) (to : list str) (all_ : bool) (typ data : str) (module : bool) (nowMs : Z) (h : Hub C) : res str * Hub C :=
  match ValidateType typ module with
  | Err e => (Err e, h)
  | Ok _ =>
    if Bool.eqb all_ (0 <? Z.of_nat (length to)) || (MaxTargets <? Z.of_nat (length to)) then (Err (New StreamErrTargets), h)
    else if (MaxPayload <? Z.of_nat (length data)) || negb (json_valid data) || ContainsAny data ["010"%char; "013"%char]
    then (Err (New StreamErrPayload), h)
    else if negb all_ && negb (forallb target_ok to) then (Err (New StreamErrTargets), h)
    else
      let target : str := if all_ then "*" else Join to "," in
      let '(r, c) := XAdd (Key tenantID)
        (list_to_map [("to" : str, target); ("type" : str, typ); ("data" : str, data); ("at" : str, Itoa nowMs)]) (MaxLen cfg) (client h) in
      (r, with_client c h)
  end.

(** [push]: queue the event unless it was delivered; whether the reader keeps up. *)
Definition push (ev : Event) (s : Subscription) : bool * Subscription :=
  if closed s || (negb (bool_decide (EvID ev = [])) && negb (bool_decide (last_id s = [])) && negb (Less (last_id s) (EvID ev)))
  then (true, s)
  else
    let l := if bool_decide (EvID ev = []) then last_id s else EvID ev in
    if (length (ch s) <? connBuffer)%nat then (true, mkSub (tenant s) (user s) (ch s ++ [ev]) l (closed s))
    else (false, mkSub (tenant s) (user s) (ch s) l (closed s)).

(** [Close] of a subscription. *)
Definition close_sub (i : nat) h : Hub C :=
  match subs h !! i with
  | None => h
  | Some s =>
    if closed s then h
    else
      let h := with_subs (<[i := mkSub (tenant s) (user s) (ch s) (last_id s) true]> (subs h)) h in
      match tenants h !! tenant s with
      | None => h
      | Some t =>
        let n := default 0 (byUser t !! user s) - 1 in
        let t := mkTenantSub (conns t ∖ {[i]}) (if n <=? 0 then delete (user s) (byUser t) else <[user s := n]> (byUser t)) (from t) in
        with_tenants (if bool_decide (conns t = ∅) then delete (tenant s) (tenants h) else <[tenant s := t]> (tenants h)) h
      end
  end.

(** [Subscribe] up to its replay. *)
Definition Subscribe (tenantID userID : str) h : res nat * Hub C :=
  if down h then (Err (Plain "stream: hub closed"), h)
  else
    let found := match tenants h !! tenantID with
      | Some t => Ok t
      | None => match XLast (Key tenantID) (client h) with
                | Err e => Err e
                | Ok start => Ok (mkTenantSub ∅ ∅ (if bool_decide (start = []) then "0-0" : str else start))
                end
      end in
    match found with
    | Err e => (Err e, h)
    | Ok t =>
      let h := with_tenants (<[tenantID := t]> (tenants h)) h in
      let n := default 0 (byUser t !! userID) in
      if (StreamsPerUser cfg <=? n) || (StreamsPerTenant cfg <=? Z.of_nat (size (conns t))) then (Err (New StreamErrTooMany), h)
      else
        let i := next h in
        let t := mkTenantSub ({[i]} ∪ conns t) (<[userID := n + 1]> (byUser t)) (from t) in
        (Ok i, mkHub (client h) (<[tenantID := t]> (tenants h)) (<[i := mkSub tenantID userID [] [] false]> (subs h)) (S i) (down h))
    end.

(** The events a replay pushes, one after the other; what [push] answers is not looked at. *)
Definition event_of (e : Entry) : Event := mkEvent (EID e) (field e "type") (field e "data").
Definition reset (reason : str) : Event := mkEvent [] "reset" ("{" ++ [dquote] ++ "reason" ++ [dquote] ++ ":" ++ [dquote] ++ reason ++ [dquote] ++ "}").
Definition replay_events (s : Subscription) (lastID : str) (nowMs : Z) h : list Event :=
  let '(ms, _, ok) := ParseID lastID in
  if negb ok || (ms <? nowMs - ReplayWindow cfg) then [reset "replay_window"]
  else match XRange (Key (tenant s)) lastID (MaxLen cfg) (client h) with
  | Err _ => [reset "replay_unavailable"]
  | Ok es => map event_of (List.filter (λ e, targets (field e "to") (user s)) es)
  end.
Definition replay_push (i : nat) (ev : Event) h : Hub C :=
  match subs h !! i with
  | None => h
  | Some s => with_subs (<[i := (push ev s).2]> (subs h)) h
  end.
Definition replay (i : nat) (lastID : str) (nowMs : Z) h : Hub C :=
  match subs h !! i with
  | None => h
  | Some s => foldl (λ h ev, replay_push i ev h) h (replay_events s lastID nowMs h)
  end.

(** One recipient of an entry; a stalled one is closed. *)
Definition deliver (ev : Event) h (i : nat) : Hub C :=
  match subs h !! i with
  | None => h
  | Some s =>
    let '(ok, s') := push ev s in
    let h := with_subs (<[i := s']> (subs h)) h in
    if ok then h else close_sub i h
  end.
Definition wants (to : str) h (i : nat) : bool := match subs h !! i with Some s => targets to (user s) | None => false end.
Definition dispatch (tenantID : str) (e : Entry) h : Hub C :=
  match tenants h !! tenantID with
  | None => h
  | Some t => foldl (deliver (event_of e)) h (List.filter (wants (field e "to") h) (elements (conns t)))
  end.

(** One entry of a round of the tenant's loop: its position moves, the entry is
    dispatched. *)
Definition loop_entry (tenantID : str) (e : Entry) h : Hub C :=
  match tenants h !! tenantID with
  | None => h
  | Some t => dispatch tenantID e (with_tenants (<[tenantID := mkTenantSub (conns t) (byUser t) (EID e)]> (tenants h)) h)
  end.
Definition loop_round (tenantID : str) h : Hub C :=
  match tenants h !! tenantID with
  | None => h
  | Some t => match XRead (Key tenantID) (from t) 100 (client h) with
              | Err _ => h
              | Ok es => foldl (λ h e, loop_entry tenantID e h) h es
              end
  end.

(** The reader of a subscription takes an event. *)
Definition receive (i : nat) h : option Event * Hub C :=
  match subs h !! i with
  | Some s => match ch s with
              | ev :: q => (Some ev, with_subs (<[i := mkSub (tenant s) (user s) q (last_id s) (closed s)]> (subs h)) h)
              | [] => (None, h)
              end
  | None => (None, h)
  end.

Definition Close h : Hub C :=
  let h := mkHub (client h) (tenants h) (subs h) (next h) true in
  foldl (λ h i, close_sub i h) h (concat (map (λ t, elements (conns t)) (map snd (map_to_list (tenants h))))).

(** ** Executions

    What the hub is told and what its readers get.  Entries come from the client
    as it likes: the theorems hold for any it may return. *)
Inductive obs := Seen (tenantID : str) (e : Entry) | Got (i : nat) (ev : Event).

Inductive hstep (h : Hub C) : list obs → Hub C → Prop :=
  | hs_client c : hstep h [] (with_client c h)
  | hs_subscribe tenantID userID : hstep h [] (Subscribe tenantID userID h).2
  | hs_replay i s e : subs h !! i = Some s → targets (field e "to") (user s) = true →
      hstep h [Seen (tenant s) e] (replay_push i (event_of e) h)
  | hs_reset i reason : hstep h [] (replay_push i (reset reason) h)
  | hs_entry tenantID e : hstep h [Seen tenantID e] (loop_entry tenantID e h)
  | hs_receive i : hstep h (match (receive i h).1 with Some ev => [Got i ev] | None => [] end) (receive i h).2
  | hs_close_sub i : hstep h [] (close_sub i h)
  | hs_close : hstep h [] (Close h).

Inductive hrun (h : Hub C) : list obs → Hub C → Prop :=
  | hr_nil : hrun h [] h
  | hr_snoc tr h1 o h2 : hrun h tr h1 → hstep h1 o h2 → hrun h (tr ++ o) h2.

(** ** The books of the hub *)

(** What stays of a subscription but for its queue. *)
Definition shape (m : gmap nat Subscription) : gmap nat (str * str * bool) := (λ s, (tenant s, user s, closed s)) <$> m.

Record books (ts : gmap str tenantSub) (sh : gmap nat (str * str * bool)) (n : nat) : Prop := {
  bk_old i x : sh !! i = Some x → (i < n)%nat;
  bk_listed i T u : sh !! i = Some (T, u, false) → ∃ t, ts !! T = Some t ∧ i ∈ conns t;
  bk_open T t i : ts !! T = Some t → i ∈ conns t → ∃ u, sh !! i = Some (T, u, false);
  bk_used T t : ts !! T = Some t → conns t ≠ ∅;
  bk_count T t u : ts !! T = Some t → default 0 (byUser t !! u) = Z.of_nat (size (filter (λ i, sh !! i = Some (T, u, false)) (conns t)));
  bk_user T t u : ts !! T = Some t → default 0 (byUser t !! u) ≤ StreamsPerUser cfg;
  bk_tenant T t : ts !! T = Some t → Z.of_nat (size (conns t)) ≤ StreamsPerTenant cfg
}.

Lemma limits_positive : 0 < StreamsPerUser cfg ∧ 0 < StreamsPerTenant cfg.
Proof. unfold cfg, defaults, positive. simpl. split; case_match; b2p; lia. Qed.
#[local] Opaque cfg.

Lemma lookup_shape m i : shape m !! i = (λ s, (tenant s, user s, closed s)) <$> m !! i.
Proof. apply lookup_fmap. Qed.

(** A new subscription. *)
Lemma books_open ts sh n T u (t : tenantSub) :
  books ts sh n → (ts !! T = Some t ∨ ts !! T = None ∧ conns t = ∅ ∧ byUser t = ∅) →
  default 0 (byUser t !! u) < StreamsPerUser cfg → Z.of_nat (size (conns t)) < StreamsPerTenant cfg →
  books (<[T := mkTenantSub ({[n]} ∪ conns t) (<[u := default 0 (byUser t !! u) + 1]> (byUser t)) (from t)]> ts) (<[n := (T, u, false)]> sh) (S n).
Proof.
  intros [H1 H2 H3 H4 H5 H6 H7] Ht Hu Hc.
  assert (Hnew : n ∉ conns t).
  { destruct Ht as [Ht|(_ & -> & _)]; [|set_solver]. intros Hn. destruct (H3 _ _ _ Ht Hn) as [v Hv]. apply H1 in Hv. lia. }
  assert (Hsh : ∀ i, i ∈ conns t → ∃ v, sh !! i = Some (T, v, false)).
  { destruct Ht as [Ht|(_ & -> & _)]; [intros i; by apply H3|set_solver]. }
  assert (Hcnt : ∀ v, default 0 (byUser t !! v) = Z.of_nat (size (filter (λ i, sh !! i = Some (T, v, false)) (conns t)))).
  { intros v. destruct Ht as [Ht|(_ & -> & ->)]; [by apply H5|]. rewrite gfilter_empty, size_empty, lookup_empty. reflexivity. }
  assert (Hother : ∀ T' t' i, T' ≠ T → ts !! T' = Some t' → i ∈ conns t' → i ≠ n).
  { intros T' t' i _ Ht' Hi ->. destruct (H3 _ _ _ Ht' Hi) as [v Hv]. apply H1 in Hv. lia. }
  split.
  - intros i x. rewrite lookup_insert_Some. intros [[<- _]|[_ Hi]]; [lia|]. apply H1 in Hi. lia.
  - intros i T' v. rewrite lookup_insert_Some. intros [[<- [= <- <-]]|[Hi Hv]].
    + eexists. rewrite lookup_insert_eq. split; [done|]. simpl. set_solver.
    + destruct (decide (T' = T)) as [->|HT].
      * eexists. rewrite lookup_insert_eq. split; [done|]. simpl. destruct (H2 _ _ _ Hv) as (t0 & Ht0 & Hi0).
        destruct Ht as [Ht|(Ht & _)]; [|congruence]. replace t with t0 by congruence. set_solver.
      * rewrite lookup_insert_ne by done. by apply (H2 i T' v).
  - intros T' t' i. rewrite lookup_insert_Some. intros [[<- <-]|[HT Ht']]; simpl.
    + intros [->%elem_of_singleton|Hi]%elem_of_union; [exists u; by rewrite lookup_insert_eq|].
      rewrite lookup_insert_ne by (intros ->; done). by apply Hsh.
    + intros Hi. rewrite lookup_insert_ne by (symmetry; by eapply Hother). by eapply H3.
  - intros T' t'. rewrite lookup_insert_Some. intros [[<- <-]|[HT Ht']]; simpl; [set_solver|by eapply H4].
  - intros T' t' v. rewrite lookup_insert_Some. intros [[<- <-]|[HT Ht']]; simpl.
    + rewrite gfilter_union, size_union. 2:{ intros i [_ ->%elem_of_singleton]%elem_of_filter [_ ?]%elem_of_filter. done. }
      assert (filter (λ i, <[n := (T, u, false)]> sh !! i = Some (T, v, false)) (conns t) = filter (λ i, sh !! i = Some (T, v, false)) (conns t)) as ->.
      { apply set_eq. intros i. rewrite !elem_of_filter. split; intros [Hi1 Hi2]; (split; [|done]);
          rewrite lookup_insert_ne in * by (intros ->; done); done. }
      rewrite Nat2Z.inj_add, <- Hcnt. destruct (decide (v = u)) as [->|Hv].
      * rewrite lookup_insert_eq. rewrite gfilter_in, size_singleton by (by rewrite lookup_insert_eq). simpl. lia.
      * rewrite lookup_insert_ne by done. rewrite gfilter_out, size_empty by (rewrite lookup_insert_eq; congruence). simpl. lia.
    + rewrite (H5 T' t' v Ht'). do 2 f_equal. apply set_eq. intros i. rewrite !elem_of_filter.
      split; intros [Hi1 Hi2]; (split; [|done]); rewrite lookup_insert_ne in * by (symmetry; by eapply Hother); done.
  - intros T' t' v. rewrite lookup_insert_Some. intros [[<- <-]|[HT Ht']]; simpl; [|by eapply H6].
    destruct (decide (v = u)) as [->|Hv]; [rewrite lookup_insert_eq; simpl; lia|]. rewrite lookup_insert_ne by done.
    destruct Ht as [Ht|(_ & _ & ->)]; [by eapply H6|]. rewrite lookup_empty. simpl. pose proof limits_positive. lia.
  - intros T' t'. rewrite lookup_insert_Some. intros [[<- <-]|[HT Ht']]; simpl; [|by eapply H7].
    rewrite size_union by set_solver. rewrite size_singleton. lia.
Qed.

(** The end of a subscription. *)
Lemma books_close ts sh n i T u t :
  books ts sh n → sh !! i = Some (T, u, false) → ts !! T = Some t →
  let k := default 0 (byUser t !! u) - 1 in
  let t' := mkTenantSub (conns t ∖ {[i]}) (if k <=? 0 then delete u (byUser t) else <[u := k]> (byUser t)) (from t) in
  books (if bool_decide (conns t' = ∅) then delete T ts else <[T := t']> ts) (<[i := (T, u, true)]> sh) n.
Proof.
  intros [H1 H2 H3 H4 H5 H6 H7] Hi Ht k t'. assert (Hic : i ∈ conns t) by (destruct (H2 _ _ _ Hi) as (t0 & ? & ?); congruence).
  set (ts' := if bool_decide _ then _ else _).
  assert (Hts : ∀ T' x, ts' !! T' = Some x → (T' = T ∧ x = t' ∧ conns t' ≠ ∅) ∨ (T' ≠ T ∧ ts !! T' = Some x)).
  { intros T' x. unfold ts'. case_bool_decide as Ec; [rewrite lookup_delete_Some|rewrite lookup_insert_Some]; naive_solver. }
  assert (Hne : ∀ T' x j, T' ≠ T → ts !! T' = Some x → j ∈ conns x → j ≠ i).
  { intros T' x j HT Hx Hj ->. destruct (H3 _ _ _ Hx Hj) as [v Hv]. congruence. }
  assert (Hf : ∀ v, filter (λ j, <[i := (T, u, true)]> sh !! j = Some (T, v, false)) (conns t ∖ {[i]}) =
                    filter (λ j, sh !! j = Some (T, v, false)) (conns t) ∖ {[i]}).
  { intros v. apply set_eq. intros j. rewrite elem_of_difference, !elem_of_filter, elem_of_difference, elem_of_singleton.
    destruct (decide (j = i)) as [->|Hj]; [naive_solver|]. rewrite lookup_insert_ne by done. naive_solver. }
  assert (Hk : ∀ v, default 0 ((if k <=? 0 then delete u (byUser t) else <[u := k]> (byUser t)) !! v) =
                    default 0 (byUser t !! v) - (if bool_decide (v = u) then 1 else 0)).
  { intros v. pose proof (H5 T t u Ht) as Hu. assert (0 < default 0 (byUser t !! u)).
    { rewrite Hu. assert (i ∈ filter (λ j, sh !! j = Some (T, u, false)) (conns t)) as Hin by (by apply elem_of_filter).
      apply elem_of_subseteq_singleton, subseteq_size in Hin. rewrite size_singleton in Hin. lia. }
    case_bool_decide as Hv; [subst v|]; destruct (Z.leb_spec k 0); rewrite ?lookup_delete_eq, ?lookup_insert_eq,
      ?lookup_delete_ne, ?lookup_insert_ne by done; simpl; lia. }
  split.
  - intros j x. rewrite lookup_insert_Some. intros [[<- _]|[_ Hj]]; [by eapply H1|by eapply H1].
  - intros j T' v. rewrite lookup_insert_Some. intros [[_ ?]|[Hj Hv]]; [done|]. destruct (H2 _ _ _ Hv) as (t0 & Ht0 & Hj0).
    unfold ts'. destruct (decide (T' = T)) as [->|HT].
    + replace t0 with t in * by congruence. rewrite bool_decide_eq_false_2 by (simpl; set_solver). eexists. rewrite lookup_insert_eq. split; [done|].
      simpl. set_solver.
    + exists t0. split; [|done]. case_bool_decide; [by rewrite lookup_delete_ne|by rewrite lookup_insert_ne].
  - intros T' x j [(-> & -> & _)|[HT Hx]]%Hts Hj; simpl in *.
    + apply elem_of_difference in Hj as [Hj Hji]. rewrite lookup_insert_ne by set_solver. by eapply H3.
    + rewrite lookup_insert_ne by (symmetry; by eapply Hne). by eapply H3.
  - intros T' x [(-> & -> & ?)|[HT Hx]]%Hts; [done|by eapply H4].
  - intros T' x v [(-> & -> & _)|[HT Hx]]%Hts; simpl.
    + rewrite Hk, Hf, (H5 T t v Ht). case_bool_decide as Hv.
      * subst v. rewrite size_difference by (apply singleton_subseteq_l, elem_of_filter; done). rewrite size_singleton.
        assert (i ∈ filter (λ j, sh !! j = Some (T, u, false)) (conns t)) as Hin by (by apply elem_of_filter).
        apply elem_of_subseteq_singleton, subseteq_size in Hin. rewrite size_singleton in Hin. lia.
      * rewrite difference_disjoint_L; [lia|]. intros j [Hj _]%elem_of_filter ->%elem_of_singleton. congruence.
    + rewrite (H5 T' x v Hx). do 2 f_equal. apply set_eq. intros j. rewrite !elem_of_filter.
      split; intros [Hj1 Hj2]; (split; [|done]); rewrite lookup_insert_ne in * by (symmetry; by eapply Hne); done.
  - intros T' x v [(-> & -> & _)|[HT Hx]]%Hts; simpl; [|by eapply H6]. rewrite Hk. specialize (H6 T t v Ht). case_bool_decide; lia.
  - intros T' x [(-> & -> & _)|[HT Hx]]%Hts; simpl; [|by eapply H7]. specialize (H7 T t Ht).
    pose proof (subseteq_size (conns t ∖ {[i]}) (conns t) ltac:(set_solver)). lia.
Qed.

(** ** What the steps do to the subscriptions *)

Definition shut (s : Subscription) : Subscription := mkSub (tenant s) (user s) (ch s) (last_id s) true.
Definition took (ev : Event) (s : Subscription) : Subscription := let '(ok, s') := push ev s in if ok then s' else shut s'.

Lemma push_cases ev s :
  (push ev s = (true, s)) ∨
  (closed s = false ∧ (EvID ev = [] ∨ last_id s = [] ∨ Less (last_id s) (EvID ev) = true) ∧
   let l := if bool_decide (EvID ev = []) then last_id s else EvID ev in
   (((length (ch s) < connBuffer)%nat ∧ push ev s = (true, mkSub (tenant s) (user s) (ch s ++ [ev]) l false)) ∨
    ((connBuffer ≤ length (ch s))%nat ∧ push ev s = (false, mkSub (tenant s) (user s) (ch s) l false)))).
Proof.
  unfold push. destruct (closed s); [by left|]. simpl. destruct (_ && _) eqn:E; [by left|]. right. split; [done|]. split.
  - apply andb_false_iff in E as [E|E]; [apply andb_false_iff in E as [E|E]|]; b2p; naive_solver.
  - destruct (Nat.ltb_spec (length (ch s)) connBuffer); [left|right]; split; auto.
Qed.

Lemma close_sub_subs i h : subs (close_sub i h) = alter shut i (subs h).
Proof.
  unfold close_sub. destruct (subs h !! i) as [s|] eqn:E; [|by rewrite alter_id by (intros; congruence)].
  destruct (closed s) eqn:Ec.
  - rewrite alter_id; [done|]. intros x Hx. rewrite E in Hx. injection Hx as <-. destruct s. simpl in Ec. by subst.
  - assert (<[i := shut s]> (subs h) = alter shut i (subs h)) as <-; [|by simpl; case_match].
    apply map_eq. intros j. destruct (decide (j = i)) as [->|]; [by rewrite lookup_insert_eq, lookup_alter_eq, E|by rewrite lookup_insert_ne, lookup_alter_ne].
Qed.

Lemma alter_insert (f : Subscription → Subscription) (m : gmap nat Subscription) i s x :
  m !! i = Some s → f x = f s → alter f i (<[i := x]> m) = alter f i m.
Proof.
  intros Hm Hf. apply map_eq. intros j. destruct (decide (j = i)) as [->|].
  - rewrite !lookup_alter_eq, lookup_insert_eq, Hm. simpl. by rewrite Hf.
  - by rewrite !lookup_alter_ne, lookup_insert_ne.
Qed.
Lemma insert_alter (f : Subscription → Subscription) (m : gmap nat Subscription) i s :
  m !! i = Some s → <[i := f s]> m = alter f i m.
Proof.
  intros Hm. apply map_eq. intros j. destruct (decide (j = i)) as [->|].
  - by rewrite lookup_alter_eq, lookup_insert_eq, Hm.
  - by rewrite lookup_alter_ne, lookup_insert_ne.
Qed.

Lemma insert_push ev (m : gmap nat Subscription) i s :
  m !! i = Some s → <[i := (push ev s).2]> m = alter (λ s, (push ev s).2) i m.
Proof. apply (insert_alter (λ s, (push ev s).2)). Qed.

Lemma deliver_subs ev h i : subs (deliver ev h i) = alter (took ev) i (subs h).
Proof.
  unfold deliver. destruct (subs h !! i) as [s|] eqn:E; [|by rewrite alter_id by (intros; congruence)].
  rewrite <- (insert_alter _ _ _ _ E). unfold took. destruct (push ev s) as [[] s'] eqn:Ep; [done|]. rewrite close_sub_subs. simpl.
  rewrite <- (insert_alter shut _ i s') by apply lookup_insert_eq. by rewrite insert_insert_eq.
Qed.

Lemma deliver_all_subs ev l h i :
  NoDup l → subs (foldl (deliver ev) h l) !! i = (if bool_decide (i ∈ l) then took ev else (λ s, s)) <$> subs h !! i.
Proof.
  revert h. induction l as [|j l IH]; intros h Hl; simpl; [by rewrite option_fmap_id|]. apply NoDup_cons in Hl as [Hj Hl].
  rewrite IH, deliver_subs by done. destruct (decide (i = j)) as [->|Hi].
  - rewrite lookup_alter_eq, (bool_decide_eq_false_2 (j ∈ l)), (bool_decide_eq_true_2 (j ∈ j :: l)) by (done || by left).
    by rewrite option_fmap_id.
  - rewrite lookup_alter_ne by done. by rewrite (bool_decide_ext (i ∈ j :: l) (i ∈ l)) by (rewrite elem_of_cons; naive_solver).
Qed.

Lemma dispatch_subs T e h t i :
  tenants h !! T = Some t →
  subs (dispatch T e h) !! i = (if bool_decide (i ∈ conns t) && wants (field e "to") h i then took (event_of e) else (λ s, s)) <$> subs h !! i.
Proof.
  intros Ht. unfold dispatch. rewrite Ht, deliver_all_subs.
  - rewrite (bool_decide_ext _ (i ∈ conns t ∧ wants (field e "to") h i = true)).
    + rewrite bool_decide_and. f_equal. destruct (bool_decide (i ∈ conns t)); [|done]. simpl. destruct (wants _ _ _); done.
    + rewrite list_elem_of_In, filter_In, <- list_elem_of_In, elem_of_elements. naive_solver.
  - apply NoDup_ListNoDup, List.NoDup_filter, NoDup_ListNoDup, NoDup_elements.
Qed.

(** ** The books are kept *)

Definition hub_ok h : Prop :=
  books (tenants h) (shape (subs h)) (next h) ∧ map_Forall (λ _ s, (length (ch s) ≤ connBuffer)%nat) (subs h).

Lemma shape_alter f (m : gmap nat Subscription) i :
  (∀ s, (tenant (f s), user (f s), closed (f s)) = (tenant s, user s, closed s)) → shape (alter f i m) = shape m.
Proof.
  intros Hf. apply map_eq. intros j. rewrite !lookup_shape. destruct (decide (j = i)) as [->|]; [|by rewrite lookup_alter_ne].
  rewrite lookup_alter_eq. destruct (m !! i); simpl; [by rewrite Hf|done].
Qed.

Lemma push_shape ev s : (tenant (push ev s).2, user (push ev s).2, closed (push ev s).2) = (tenant s, user s, closed s).
Proof. by destruct (push_cases ev s) as [->|(Hc & _ & [[_ ->]|[_ ->]])]; simpl; rewrite ?Hc. Qed.
Lemma push_bound ev s : (length (ch s) ≤ connBuffer → length (ch (push ev s).2) ≤ connBuffer)%nat.
Proof. destruct (push_cases ev s) as [->|(_ & _ & [[? ->]|[_ ->]])]; simpl; rewrite ?length_app; simpl; lia. Qed.

Lemma hub_ok_alter f i h :
  hub_ok h → (∀ s, (tenant (f s), user (f s), closed (f s)) = (tenant s, user s, closed s)) →
  (∀ s, (length (ch s) ≤ connBuffer → length (ch (f s)) ≤ connBuffer)%nat) → hub_ok (with_subs (alter f i (subs h)) h).
Proof.
  intros [Hb Hl] Hf Hn. split; simpl; [by rewrite shape_alter|]. intros j s. rewrite lookup_alter_Some.
  intros [(_ & s0 & H & ->)|[_ H]]; [|by eapply Hl]. eapply Hn, Hl, H.
Qed.

Lemma close_sub_ok i h : hub_ok h → hub_ok (close_sub i h).
Proof.
  intros [Hb Hl]. split.
  - unfold close_sub. destruct (subs h !! i) as [s|] eqn:E; [|done]. destruct (closed s) eqn:Ec; [done|].
    assert (Hsh : shape (subs h) !! i = Some (tenant s, user s, false)) by (rewrite lookup_shape, E; simpl; by rewrite Ec).
    destruct (bk_listed _ _ _ Hb _ _ _ Hsh) as (t & Ht & _).
    pose proof (books_close _ _ _ _ _ _ _ Hb Hsh Ht) as H. cbv zeta in H. simpl. rewrite Ht. simpl.
    replace (shape (<[i := shut s]> (subs h))) with (<[i := (tenant s, user s, true)]> (shape (subs h))); [exact H|]. unfold shape. by rewrite fmap_insert.
  - rewrite close_sub_subs. intros j s. rewrite lookup_alter_Some. intros [(_ & s0 & H & ->)|[_ H]]; [|by eapply Hl]. apply (Hl _ _ H).
Qed.

Lemma deliver_ok ev h i : hub_ok h → hub_ok (deliver ev h i).
Proof.
  intros Hh. unfold deliver. destruct (subs h !! i) as [s|] eqn:E; [|done]. destruct (push ev s) as [ok s'] eqn:Ep.
  assert (Hp : hub_ok (with_subs (<[i := s']> (subs h)) h)).
  { replace s' with (push ev s).2 by (by rewrite Ep). rewrite (insert_push _ _ _ _ E).
    apply hub_ok_alter; [done|apply push_shape|apply push_bound]. }
  destruct ok; [done|by apply close_sub_ok].
Qed.

Lemma folds_ok {A} (f : Hub C → A → Hub C) l h : (∀ h x, hub_ok h → hub_ok (f h x)) → hub_ok h → hub_ok (foldl f h l).
Proof. intros Hf. revert h. induction l as [|x l IH]; intros h Hh; [done|]. simpl. by apply IH, Hf. Qed.

(** Only the position of the tenant's loop moves. *)
Lemma books_moved ts sh n T t x :
  books ts sh n → ts !! T = Some t → books (<[T := mkTenantSub (conns t) (byUser t) x]> ts) sh n.
Proof.
  intros [H1 H2 H3 H4 H5 H6 H7] Ht.
  assert (Hl : ∀ T' y, <[T := mkTenantSub (conns t) (byUser t) x]> ts !! T' = Some y → ∃ z, ts !! T' = Some z ∧ conns y = conns z ∧ byUser y = byUser z).
  { intros T' y. rewrite lookup_insert_Some. intros [[<- <-]|[_ ?]]; eauto. }
  split; [done| |intros T' y ? (z & Hz & -> & _)%Hl|intros T' y (z & Hz & -> & _)%Hl|intros T' y ? (z & Hz & -> & ->)%Hl
    |intros T' y ? (z & Hz & _ & ->)%Hl|intros T' y (z & Hz & -> & _)%Hl]; eauto.
  intros i T' u Hi. destruct (H2 _ _ _ Hi) as (z & Hz & Hiz). destruct (decide (T' = T)) as [->|HT].
  - eexists. rewrite lookup_insert_eq. split; [done|]. simpl. congruence.
  - exists z. by rewrite lookup_insert_ne.
Qed.

Lemma Subscribe_ok T u h : hub_ok h → hub_ok (Subscribe T u h).2.
Proof.
  intros [Hb Hl]. unfold Subscribe. destruct (down h); [done|]. cbv zeta.
  set (found := match tenants h !! T with Some t => Ok t | None => _ end).
  assert (Hf : ∀ t, found = Ok t → tenants h !! T = Some t ∨ tenants h !! T = None ∧ conns t = ∅ ∧ byUser t = ∅).
  { intros t. unfold found. destruct (tenants h !! T) as [t0|]; [intros [= ->]; by left|]. destruct (XLast _ _); [|done]. intros [= <-]. by right. }
  destruct found as [t|e]; [|done]. specialize (Hf t eq_refl). destruct (_ || _) eqn:Eo; simpl.
  - destruct Hf as [Hf|(_ & Hc & Hu)]; [split; simpl; [by rewrite insert_id|done]|]. rewrite Hc, Hu, lookup_empty, size_empty in Eo. simpl in Eo.
    pose proof limits_positive. apply orb_true_iff in Eo as [Eo|Eo]; b2p; lia.
  - b2p. split; simpl.
    + rewrite insert_insert_eq. unfold shape. rewrite fmap_insert. by apply books_open.
    + apply map_Forall_insert_2; [simpl; unfold connBuffer; lia|done].
Qed.

Lemma hstep_ok h o h' : hstep h o h' → hub_ok h → hub_ok h'.
Proof.
  destruct 1 as [c|T u|i s e Hs _|i reason|T e|i|i|]; intros Hh.
  - done.
  - by apply Subscribe_ok.
  - unfold replay_push. rewrite Hs, (insert_push _ _ _ _ Hs). apply hub_ok_alter; [done|apply push_shape|apply push_bound].
  - unfold replay_push. destruct (subs h !! i) as [s|] eqn:Hs; [|done]. rewrite (insert_push _ _ _ _ Hs).
    apply hub_ok_alter; [done|apply push_shape|apply push_bound].
  - unfold loop_entry. destruct (tenants h !! T) as [t|] eqn:Ht; [|done]. unfold dispatch. simpl. rewrite lookup_insert_eq.
    apply folds_ok; [by intros; apply deliver_ok|]. split; simpl; [by apply books_moved; [apply Hh|]|apply Hh].
  - unfold receive. destruct (subs h !! i) as [s|] eqn:E; [|done]. destruct (ch s) as [|ev q] eqn:Eq; [done|]. simpl.
    destruct Hh as [Hb Hl]. split; simpl.
    + replace (shape (<[i := _]> (subs h))) with (shape (subs h)); [done|]. unfold shape. rewrite fmap_insert. simpl. rewrite insert_id; [done|].
      by rewrite lookup_fmap, E.
    + apply map_Forall_insert_2; [|done]. simpl. pose proof (Hl i s E) as H. cbv beta in H. rewrite Eq in H. simpl in H. lia.
  - by apply close_sub_ok.
  - unfold Close. apply folds_ok; [by intros; apply close_sub_ok|done].
Qed.

Lemma NewHub_ok c : hub_ok (NewHub c).
Proof. split; [|apply map_Forall_empty]. split; simpl; unfold shape; try (intros *; rewrite ?fmap_empty, lookup_empty; done). Qed.

Lemma hrun_ok c tr h : hrun (NewHub c) tr h → hub_ok h.
Proof. induction 1; [apply NewHub_ok|]. by eapply hstep_ok. Qed.

(** The open subscriptions of a tenant, and those of one of its users. *)
Definition open_ids h (T : str) : gset nat := dom (filter (λ kv, tenant kv.2 = T ∧ closed kv.2 = false) (subs h)).
Definition user_ids h (T u : str) : gset nat := dom (filter (λ kv, (tenant kv.2 = T ∧ closed kv.2 = false) ∧ user kv.2 = u) (subs h)).

Lemma elem_of_open_ids h T i : i ∈ open_ids h T ↔ ∃ u, shape (subs h) !! i = Some (T, u, false).
Proof.
  unfold open_ids. rewrite elem_of_dom, lookup_shape. split.
  - intros [s [Hs [<- Hc]]%map_lookup_filter_Some]. exists (user s). rewrite Hs. simpl in *. by rewrite Hc.
  - intros [u Hu]. destruct (subs h !! i) as [s|] eqn:E; [|done]. simpl in Hu. simplify_eq. exists s. by apply map_lookup_filter_Some.
Qed.
Lemma elem_of_user_ids h T u i : i ∈ user_ids h T u ↔ shape (subs h) !! i = Some (T, u, false).
Proof.
  unfold user_ids. rewrite elem_of_dom, lookup_shape. split.
  - intros [s [Hs [[<- Hc] <-]]%map_lookup_filter_Some]. rewrite Hs. simpl in *. by rewrite Hc.
  - intros Hu. destruct (subs h !! i) as [s|] eqn:E; [|done]. simpl in Hu. simplify_eq. exists s. by apply map_lookup_filter_Some.
Qed.

(** The hub's books are exact and its limits hold, however subscriptions,
    replays, deliveries, readers and closings interleave: the table of a tenant
    lists exactly its open streams and is there only while there are some, its
    counter of a user is the number of that user's open streams, no user and no
    tenant has more than its limit, and no queue more than its buffer. *)
Theorem hub_limits c tr h :
  hrun (NewHub c) tr h →
  (∀ T, (match tenants h !! T with Some t => conns t = open_ids h T | None => open_ids h T = ∅ end) ∧
        (is_Some (tenants h !! T) ↔ open_ids h T ≠ ∅) ∧ Z.of_nat (size (open_ids h T)) ≤ StreamsPerTenant cfg) ∧
  (∀ T u, match tenants h !! T with Some t => default 0 (byUser t !! u) = Z.of_nat (size (user_ids h T u)) | None => user_ids h T u = ∅ end ∧
          Z.of_nat (size (user_ids h T u)) ≤ StreamsPerUser cfg) ∧
  (∀ i s, subs h !! i = Some s → (length (ch s) ≤ connBuffer)%nat).
Proof.
  intros [Hb Hl]%hrun_ok. pose proof limits_positive as [P1 P2].
  assert (Hc : ∀ T t, tenants h !! T = Some t → conns t = open_ids h T).
  { intros T t Ht. apply set_eq. intros i. rewrite elem_of_open_ids. split; [by apply (bk_open _ _ _ Hb)|]. intros [u Hu].
    destruct (bk_listed _ _ _ Hb _ _ _ Hu) as (t' & Ht' & Hi). congruence. }
  assert (Hu : ∀ T u, user_ids h T u = filter (λ i, shape (subs h) !! i = Some (T, u, false)) (open_ids h T)).
  { intros T u. apply set_eq. intros i. rewrite elem_of_filter, elem_of_user_ids, elem_of_open_ids. naive_solver. }
  assert (Hn : ∀ T, tenants h !! T = None → open_ids h T = ∅).
  { intros T HT. apply set_eq. intros i. rewrite elem_of_open_ids. split; [|set_solver]. intros [u Hi].
    destruct (bk_listed _ _ _ Hb _ _ _ Hi) as (t' & Ht' & _). congruence. }
  split; [|split; [|exact Hl]].
  - intros T. destruct (tenants h !! T) as [t|] eqn:Ht.
    + rewrite <- (Hc _ _ Ht). split_and!; [done| |by eapply bk_tenant]. split; [intros _; by eapply bk_used|by eexists].
    + rewrite (Hn _ Ht), size_empty. split_and!; [done|by split; [intros []|]|lia].
  - intros T u. destruct (tenants h !! T) as [t|] eqn:Ht.
    + rewrite Hu, <- (Hc _ _ Ht), <- (bk_count _ _ _ Hb _ _ u Ht). split; [done|by eapply bk_user].
    + rewrite Hu, (Hn _ Ht), gfilter_empty, size_empty. split; [done|lia].
Qed.

(** ** Order of delivery *)

Definition id_key (a : str) : Z * Z := (ParseID a).1.
Lemma Less_key a b : Less a b = true ↔ (id_key a).1 < (id_key b).1 ∨ (id_key a).1 = (id_key b).1 ∧ (id_key a).2 < (id_key b).2.
Proof.
  unfold Less, id_key. destruct (ParseID a) as [[am a_s] oa], (ParseID b) as [[bm b_s] ob]. simpl.
  destruct (Z.eqb_spec am bm); simpl; rewrite Z.ltb_lt; lia.
Qed.
Lemma Less_trans a b c : Less a b = true → Less b c = true → Less a c = true.
Proof. rewrite !Less_key. lia. Qed.

(** The ids of the events delivered to a reader, those in its queue last. *)
Definition got (tr : list obs) (i : nat) : list Event :=
  omap (λ o, match o with Got j ev => if decide (j = i) then Some ev else None | _ => None end) tr.
Definition ids (l : list Event) : list str := filter (λ x, x ≠ []) (map EvID l).
Definition delivered (tr : list obs) (i : nat) (s : Subscription) : list Event := got tr i ++ ch s.

Record ordered (l : list Event) (last : str) : Prop := {
  or_sorted : StronglySorted (λ a b, Less a b = true) (ids l);
  or_last : Forall (λ x, x = last ∨ Less x last = true) (ids l);
  or_some : ids l ≠ [] → last ≠ []
}.

(** An event of the reader's: a reset, or an entry of its tenant meant for it. *)
Definition authentic (tr : list obs) (s : Subscription) (ev : Event) : Prop :=
  (∃ reason, ev = reset reason) ∨ ∃ e, Seen (tenant s) e ∈ tr ∧ ev = event_of e ∧ targets (field e "to") (user s) = true.

Lemma ids_app l k : ids (l ++ k) = ids l ++ ids k.
Proof. unfold ids. by rewrite map_app, filter_app. Qed.
Lemma got_app tr o i : got (tr ++ o) i = got tr i ++ got o i.
Proof. apply omap_app. Qed.

Lemma ordered_push ev s l :
  (EvID ev = [] ∨ last_id s = [] ∨ Less (last_id s) (EvID ev) = true) → ordered l (last_id s) →
  let k := if bool_decide (EvID ev = []) then last_id s else EvID ev in ordered l k ∧ ordered (l ++ [ev]) k.
Proof.
  intros Hev [H1 H2 H3] k. unfold k. clear k. case_bool_decide as E.
  { assert (ids (l ++ [ev]) = ids l) as Hi. { rewrite ids_app. unfold ids at 2. simpl. rewrite E. by rewrite filter_cons_False, filter_nil, app_nil_r by auto. }
    split; [done|]. by split; rewrite Hi. }
  destruct Hev as [?|Hev]; [done|].
  assert (Hlt : Forall (λ x, Less x (EvID ev) = true) (ids l)).
  { destruct Hev as [Hnil|Hev]; [destruct (ids l); [constructor|by destruct H3]|]. eapply Forall_impl; [exact H2|].
    intros x [->|Hx]; [done|by eapply Less_trans]. }
  assert (Hi : ids (l ++ [ev]) = ids l ++ [EvID ev]). { rewrite ids_app. f_equal. unfold ids. simpl. by rewrite filter_cons_True, filter_nil. }
  split; split; rewrite ?Hi; [done| |done| | |done].
  - eapply Forall_impl; [exact Hlt|]. auto.
  - clear -H1 Hlt. induction (ids l) as [|x k IH]; simpl; [repeat constructor|]. inversion H1; inversion Hlt; subst. constructor; [by apply IH|].
    apply Forall_app. split; [done|]. by constructor.
  - apply Forall_app. split; [|by repeat constructor; left]. eapply Forall_impl; [exact Hlt|]. auto.
Qed.

(** What holds of each subscription after some events. *)
Definition sub_ok (tr : list obs) (i : nat) (s : Subscription) : Prop :=
  ordered (delivered tr i s) (last_id s) ∧ Forall (authentic tr s) (delivered tr i s).
Definition subs_ok (tr : list obs) h : Prop :=
  map_Forall (sub_ok tr) (subs h) ∧ ∀ i, subs h !! i = None → got tr i = [].

Lemma authentic_mono tr o s s' ev : tenant s' = tenant s → user s' = user s → authentic tr s ev → authentic (tr ++ o) s' ev.
Proof. intros Ht Hu [?|(e & He & ? & ?)]; [by left|]. right. exists e. rewrite Ht, Hu. split; [|done]. set_solver. Qed.

Lemma sub_ok_grow tr o i s : got o i = [] → sub_ok tr i s → sub_ok (tr ++ o) i s.
Proof.
  intros Ho [H1 H2]. unfold sub_ok, delivered in *. rewrite got_app, Ho, app_nil_r. split; [done|].
  eapply Forall_impl; [exact H2|]. intros ev. by apply authentic_mono.
Qed.

Lemma sub_ok_push tr o i ev s : got o i = [] → authentic (tr ++ o) s ev → sub_ok tr i s → sub_ok (tr ++ o) i (push ev s).2.
Proof.
  intros Ho Hev Hs. apply (sub_ok_grow _ _ _ _ Ho) in Hs. destruct (push_cases ev s) as [->|(_ & Hid & H)]; [done|].
  destruct Hs as [H1 H2]. destruct (ordered_push _ _ _ Hid H1) as [H3 H4].
  destruct H as [[_ ->]|[_ ->]]; (split; [|]); unfold delivered; simpl; [|..|done|done].
  - by rewrite app_assoc.
  - rewrite app_assoc. apply Forall_app. split; [done|]. by constructor.
Qed.
Lemma sub_ok_shut tr i s : sub_ok tr i s → sub_ok tr i (shut s).
Proof. done. Qed.
Lemma sub_ok_took tr o i ev s : got o i = [] → authentic (tr ++ o) s ev → sub_ok tr i s → sub_ok (tr ++ o) i (took ev s).
Proof.
  intros Ho Hev Hs. pose proof (sub_ok_push _ _ _ _ _ Ho Hev Hs) as H. unfold took. destruct (push ev s) as [[] s']; [done|by apply sub_ok_shut].
Qed.

Lemma subs_ok_map (f : nat → Subscription → Subscription) tr o h h' :
  (∀ i, got o i = []) → (∀ i, subs h' !! i = f i <$> subs h !! i) →
  (∀ i s, subs h !! i = Some s → sub_ok tr i s → sub_ok (tr ++ o) i (f i s)) → subs_ok tr h → subs_ok (tr ++ o) h'.
Proof.
  intros Ho Hf Hs [H1 H2]. split.
  - intros i s. rewrite Hf. intros (s0 & Hs0 & ->)%fmap_Some_1. apply Hs; [done|by apply H1].
  - intros i. rewrite Hf, fmap_None, got_app, Ho, app_nil_r. apply H2.
Qed.

Lemma lookup_alter_if (f : Subscription → Subscription) (m : gmap nat Subscription) i j :
  alter f i m !! j = (if decide (j = i) then f else (λ s, s)) <$> m !! j.
Proof. case_decide as E; [subst; apply lookup_alter_eq|]. by rewrite lookup_alter_ne, option_fmap_id. Qed.

Lemma subs_ok_alter f i tr o h h' :
  (∀ j, got o j = []) → subs h' = alter f i (subs h) →
  (∀ s, subs h !! i = Some s → sub_ok tr i s → sub_ok (tr ++ o) i (f s)) → subs_ok tr h → subs_ok (tr ++ o) h'.
Proof.
  intros Ho Hf Hs. apply (subs_ok_map (λ j, if decide (j = i) then f else (λ s, s))); [done| |].
  - intros j. rewrite Hf. apply lookup_alter_if.
  - intros j s Hj Hok. case_decide as E; [subst; by apply Hs|by apply sub_ok_grow].
Qed.

Lemma subs_ok_closes l tr h : subs_ok tr h → subs_ok tr (foldl (λ h i, close_sub i h) h l).
Proof.
  revert h. induction l as [|i l IH]; intros h Hh; [done|]. simpl. apply IH. rewrite <- (app_nil_r tr).
  apply (subs_ok_alter shut i tr [] h); [done|apply close_sub_subs| |done]. intros s _ Hs. rewrite app_nil_r. by apply sub_ok_shut.
Qed.

Lemma subs_ok_entry tr T e h : hub_ok h → subs_ok tr h → subs_ok (tr ++ [Seen T e]) (loop_entry T e h).
Proof.
  intros [Hb _] Hh. unfold loop_entry. destruct (tenants h !! T) as [t|] eqn:Ht.
  2:{ apply (subs_ok_map (λ _ s, s) tr [Seen T e] h); [done|intros; by rewrite option_fmap_id| |done]. intros i s _. by apply sub_ok_grow. }
  set (h1 := with_tenants _ h). assert (Ht1 : tenants h1 !! T = Some (mkTenantSub (conns t) (byUser t) (EID e))) by apply lookup_insert_eq.
  apply (subs_ok_map (λ i, if bool_decide (i ∈ conns t) && wants (field e "to") h1 i then took (event_of e) else (λ s, s)) tr _ h); [done| | |done].
  - intros i. rewrite (dispatch_subs _ _ _ _ i Ht1). done.
  - intros i s Hs Hok. destruct (_ && _) eqn:E; [|by apply sub_ok_grow]. b2p. apply sub_ok_took; [done| |done]. right. exists e.
    destruct (bk_open _ _ _ Hb T t i Ht ltac:(done)) as [u Hu]. rewrite lookup_shape, Hs in Hu. simpl in Hu. simplify_eq.
    split; [set_solver|]. split; [done|]. unfold wants in *. simpl in *. by rewrite Hs in *.
Qed.

Lemma subs_ok_receive tr i h :
  subs_ok tr h → subs_ok (tr ++ match (receive i h).1 with Some ev => [Got i ev] | None => [] end) (receive i h).2.
Proof.
  intros Hh. unfold receive. destruct (subs h !! i) as [s|] eqn:E; [|by rewrite app_nil_r]. destruct (ch s) as [|ev q] eqn:Eq; [by rewrite app_nil_r|].
  simpl. destruct Hh as [H1 H2]. split; simpl.
  - intros j s'. rewrite lookup_insert_Some. intros [[<- <-]|[Hj Hs']].
    + destruct (H1 i s E) as [Ho Ha]. unfold sub_ok, delivered in *. simpl. rewrite got_app. simpl. rewrite decide_True by done.
      rewrite Eq in *. rewrite <- app_assoc. split; [done|]. eapply Forall_impl; [exact Ha|]. intros x. by apply authentic_mono.
    + apply sub_ok_grow; [simpl; by rewrite decide_False|by apply H1].
  - intros j [Hj Hn]%lookup_insert_None. rewrite got_app, (H2 j Hj). simpl. by rewrite decide_False.
Qed.

Lemma subs_ok_Subscribe tr T u h : hub_ok h → subs_ok tr h → subs_ok tr (Subscribe T u h).2.
Proof.
  intros [Hb _] Hh. unfold Subscribe. destruct (down h); [done|]. cbv zeta. destruct (match tenants h !! T with Some _ => _ | None => _ end); [|done].
  destruct (_ || _); [done|]. destruct Hh as [H1 H2].
  assert (Hnew : subs h !! next h = None).
  { destruct (subs h !! next h) as [s|] eqn:E; [|done]. enough (next h < next h)%nat by lia. eapply (bk_old _ _ _ Hb). by rewrite lookup_shape, E. }
  split; simpl.
  - apply map_Forall_insert_2; [|done]. unfold sub_ok, delivered. simpl. rewrite (H2 _ Hnew). split; [|constructor]. split; [constructor|constructor|done].
  - intros i [? ?]%lookup_insert_None. by apply H2.
Qed.

Lemma hstep_subs tr h o h' : hstep h o h' → hub_ok h → subs_ok tr h → subs_ok (tr ++ o) h'.
Proof.
  destruct 1 as [c|T u|i s e Hs Ht|i reason|T e|i|i|]; intros Hok Hh; rewrite ?app_nil_r.
  - done.
  - by apply subs_ok_Subscribe.
  - eapply (subs_ok_alter (λ s, (push (event_of e) s).2) i tr _ h); [done| | |done].
    + unfold replay_push. rewrite Hs. simpl. by apply insert_push.
    + intros s' Hs' Hk. simplify_eq. apply sub_ok_push; [done| |done]. right. exists e. split; [set_solver|done].
  - rewrite <- (app_nil_r tr). destruct (subs h !! i) as [s|] eqn:Hs; [|unfold replay_push; by rewrite Hs, app_nil_r].
    eapply (subs_ok_alter (λ s, (push (reset reason) s).2) i tr [] h); [done| | |done].
    + unfold replay_push. rewrite Hs. simpl. by apply insert_push.
    + intros s' _ Hk. apply sub_ok_push; [done| |done]. left. by exists reason.
  - by apply subs_ok_entry.
  - by apply subs_ok_receive.
  - by apply (subs_ok_closes [i]).
  - unfold Close. by apply subs_ok_closes.
Qed.

Lemma hrun_subs c tr h : hrun (NewHub c) tr h → subs_ok tr h.
Proof.
  intros H. assert (hub_ok h ∧ subs_ok tr h) as [_ ?]; [|done]. induction H as [|tr h1 o h2 _ [IH1 IH2] Hs].
  - split; [apply NewHub_ok|]. split; [apply map_Forall_empty|done].
  - split; [by eapply hstep_ok|by eapply hstep_subs].
Qed.


(** A dispatched entry reaches exactly its recipients: each open stream of
    the tenant whose user it is addressed to, and that has not had it, has it
    last in its queue, or, its queue being full, is closed; every other stream
    is untouched. *)
Theorem dispatch_spec c tr h T e i s :
  hrun (NewHub c) tr h → subs h !! i = Some s → EID e ≠ [] →
  ∃ s', subs (dispatch T e h) !! i = Some s' ∧
  if negb (bool_decide (tenant s = T)) || closed s || negb (targets (field e "to") (user s))
     || negb (bool_decide (last_id s = [])) && negb (Less (last_id s) (EID e)) then s' = s
  else last_id s' = EID e ∧
    if (length (ch s) <? connBuffer)%nat then ch s' = ch s ++ [event_of e] ∧ closed s' = false else ch s' = ch s ∧ closed s' = true.
Proof.
  intros [Hb Hl]%hrun_ok Hs He. unfold dispatch. destruct (tenants h !! T) as [t|] eqn:Ht.
  2:{ exists s. split; [done|]. case_bool_decide as ET; [|done]. destruct (closed s) eqn:Ec; [done|].
      destruct (bk_listed _ _ _ Hb i T (user s)) as (t & ? & _); [|congruence]. rewrite lookup_shape, Hs. simpl. by rewrite Ec, ET. }
  pose proof (dispatch_subs T e h t i Ht) as Hd. unfold dispatch in Hd. rewrite Ht, Hs in Hd. simpl in Hd. eexists. split; [exact Hd|].
  assert (Hin : bool_decide (i ∈ conns t) = bool_decide (tenant s = T) && negb (closed s)).
  { apply eq_true_iff_eq. rewrite andb_true_iff, negb_true_iff, !bool_decide_eq_true. split.
    - intros Hi. destruct (bk_open _ _ _ Hb T t i Ht Hi) as [u Hu]. rewrite lookup_shape, Hs in Hu. simpl in Hu. by simplify_eq.
    - intros [HT Hc]. destruct (bk_listed _ _ _ Hb i T (user s)) as (t' & ? & ?); [|congruence]. rewrite lookup_shape, Hs. simpl. by rewrite Hc, HT. }
  unfold wants. rewrite Hs, Hin. destruct (bool_decide (tenant s = T)); [|done]. destruct (closed s) eqn:Ec; [done|].
  destruct (targets _ (user s)); [|done]. simpl. unfold took, push. simpl. rewrite Ec, (bool_decide_eq_false_2 (EID e = [])) by done. simpl.
  destruct (negb (bool_decide (last_id s = [])) && negb (Less (last_id s) (EID e))); [done|]. by destruct (_ <? _)%nat.
Qed.
End Hub.

(** ** Witnesses *)
Module Concrete.
Definition anyjson (_ : str) : bool := true.
Definition conf : Config := mkConfig 0 2 0 0.
Abbreviation hub := (Hub Memory).
Definition publish (h : hub) : hub := (PublishID conf anyjson "t1" [] true "zone.created" "{}" false 1000 h).2.
Definition h0 : hub := NewHub (NewMemory 1000).
Definition h1 : hub := (Subscribe conf "t1" "u1" h0).2.
Definition entry1 : Entry := mkEntry "1000-1" (list_to_map [("to" : str, "*" : str); ("type" : str, "zone.created" : str); ("data" : str, "{}" : str)]).
Definition h2 : hub := loop_entry "t1" entry1 h1.
Definition sub1 : Subscription := mkSub "t1" "u1" [] [] false.
Definition sub2 : Subscription := mkSub "t1" "u1" [event_of entry1] "1000-1" false.

Lemma run1 : hrun conf h0 ([] ++ []) h1.
Proof. eapply hr_snoc; [apply hr_nil|apply hs_subscribe]. Qed.
Lemma run2 : hrun conf h0 (([] ++ []) ++ [Seen "t1" entry1]) h2.
Proof. eapply hr_snoc; [apply run1|apply hs_entry]. Qed.

Lemma hub_limits_witness : open_ids h2 "t1" ≠ ∅ ∧ Z.of_nat (size (open_ids h2 "t1")) ≤ 2000.
Proof.
  destruct (hub_limits conf (NewMemory 1000) _ h2 run2) as (H & _). destruct (H "t1") as (_ & H2 & H3). split; [|exact H3].
  apply H2. vm_compute. eexists. reflexivity.
Defined.


Lemma dispatch_spec_witness : ∃ s', subs (dispatch "t1" entry1 h1) !! 0%nat = Some s' ∧ ch s' = [event_of entry1].
Proof.
  assert (E : subs h1 !! 0%nat = Some sub1) by (vm_compute; reflexivity).
  destruct (dispatch_spec conf (NewMemory 1000) _ h1 "t1" entry1 0 sub1 run1 E ltac:(discriminate)) as (s' & H1 & H2).
  exists s'. split; [exact H1|]. vm_compute in H2. destruct H2 as (_ & H2 & _). exact H2.
Defined.

Definition queued (i : nat) (h : hub) : list str := match subs h !! i with Some s => map EvID (ch s) | None => [] end.
Definition is_open (i : nat) (h : hub) : bool := match subs h !! i with Some s => negb (closed s) | None => false end.

(** The replay of more events than the buffer holds drops the rest without a
    reset: forty missed events, thirty-two delivered, the stream still open. *)
Definition missed40 : hub := replay conf 0 "1000-0" 1000 (Subscribe conf "t1" "u1" (Nat.iter 40 publish h0)).2.
Example replay_overflow : (length (queued 0 missed40), is_open 0 missed40) = (32%nat, true).
Proof. vm_compute. reflexivity. Qed.

(** An event that the loop delivers between the registration and the replay
    makes the replay skip everything before it: the reader never gets the first
    two events. *)
Definition raced : hub :=
  replay conf 0 "1000-0" 1000 (loop_round "t1" (publish (Subscribe conf "t1" "u1" (publish (publish h0))).2)).
Example replay_race : queued 0 raced = ["1000-3" : str].
Proof. vm_compute. reflexivity. Qed.
End Concrete.
End Stream.
