(* ===== verification/Dnsconf.v ===== *)
(** * The server configuration ([internal/dnsconf/model.go], [render.go])

    The model of the two servers' settings, its validation, and the renderers
    that turn a validated model into the include files of the resolver and of the
    authoritative server. *)
From Stdlib Require Import Ascii.
From S2P Require Import Prelude GoStrings GoError Store Names Netip Masters NetipText.
Local Open Scope Z_scope.

Module Dnsconf.

Definition fieldErr (field msg : str) : error := FieldError field msg.
Definition MaxList : Z := 32.
Definition DNSSECOff : str := "off".
Definition DNSSECProcess : str := "process".
Definition DNSSECValidate : str := "validate".

Record Recursor := mkRecursor {
  RListen : list str; RPort : Z; RAllowed : list str; RUpstream : list str; RDNSSEC : str; ROpen : bool
}.
Record Authoritative := mkAuthoritative { AListen : list str; APort : Z; APeers : list str }.
Record Model := mkModel { MRecursor : Recursor; MAuthoritative : Authoritative }.

Definition Defaults : Model := mkModel
  (mkRecursor ["0.0.0.0" : str; "::" : str] 53
     ["127.0.0.0/8" : str; "10.0.0.0/8" : str; "172.16.0.0/12" : str; "192.168.0.0/16" : str; "::1/128" : str; "fc00::/7" : str] [] DNSSECOff false)
  (mkAuthoritative ["0.0.0.0" : str] 53 []).

(** Only [Validate] sets [vok]. *)
Record Validated := mkValidated { vm : Model; vok : bool }.
(** The networks of every client. *)
Definition everyone (n : str) : bool := bool_decide (n = "0.0.0.0/0") || bool_decide (n = "::/0").
Definition OpenResolver (v : Validated) : bool := existsb everyone (RAllowed (MRecursor (vm v))).

(** ** Validation *)

Definition port (field : str) (p : Z) : res Z :=
  if (p <? 1) || (65535 <? p) then Err (fieldErr field "must be within [1, 65535]") else Ok p.

Section Lists.
Context {U : Unicode}.

Definition entry_name (field : str) (i : nat) : str := field ++ "[" ++ Itoa (Z.of_nat i) ++ "]".
Fixpoint list_loop (field : str) (f : str → res str) (i : nat) (seen l : list str) : res (list str) :=
  match l with
  | [] => Ok []
  | raw :: l =>
    match f (TrimSpace raw) with
    | Err e => Err (fieldErr (entry_name field i) (Error e))
    | Ok v =>
      if bool_decide (v ∈ seen) then Err (fieldErr (entry_name field i) ("duplicate entry " ++ v))
      else rest ← list_loop field f (S i) (v :: seen) l; Ok (v :: rest)
    end
  end.
Definition list_ (field : str) (l : list str) (required : bool) (f : str → res str) : res (list str) :=
  if MaxList <? Z.of_nat (length l) then Err (fieldErr field ("at most " ++ Itoa MaxList ++ " entries are allowed"))
  else if required && bool_decide (l = []) then Err (fieldErr field "at least one entry is required")
  else list_loop field f 0 [] l.

Definition listenAddr (s : str) : res str :=
  match Netip.ParseAddr s with
  | Some a => if bool_decide (Netip.zone_of a = []) then Ok (Netip.String (Netip.Unmap a)) else Err (Plain "must be an IP address literal")
  | None => Err (Plain "must be an IP address literal")
  end.

Definition network (s : str) : res str :=
  let bad : res str := Err (Plain "must be an IP address or CIDR") in
  if negb (Contains s "/") then
    match Netip.ParseAddr s with
    | Some a => if bool_decide (Netip.zone_of a = [])
                then let a := Netip.Unmap a in Ok (Netip.PrefixString (a, Netip.BitLen a)) else bad
    | None => bad
    end
  else match Netip.ParsePrefix s with
  | Some p => Ok (Netip.PrefixString (Netip.Masked p))
  | None => bad
  end.

Definition upstream (s : str) : res str :=
  let parsed := match Netip.ParseAddrPort s with
    | Some (a, p) => if p =? 0 then Err (Plain "port must be within [1, 65535]") else Ok (a, p)
    | None => match Netip.ParseAddr s with Some a => Ok (a, 0) | None => Err (Plain "must be IP or IP:port") end
    end in
  match parsed with
  | Err e => Err e
  | Ok (a, p) =>
    let a := Netip.Unmap a in
    if negb (bool_decide (Netip.zone_of a = [])) || Netip.IsUnspecified a || Netip.IsMulticast a || Netip.IsLoopback a
       || Netip.IsLinkLocalUnicast a || bool_decide (a = Netip.V4 4294967295)
    then Err (Plain "must be a unicast resolver address")
    else if p =? 0 then Ok (Netip.String a)
    else if Netip.Is6 a then Ok ("[" ++ Netip.String a ++ "]:" ++ Itoa p)
    else Ok (Netip.String a ++ ":" ++ Itoa p)
  end.

Fixpoint open_check (allow : bool) (i : nat) (l : list str) : res unit :=
  match l with
  | [] => Ok ()
  | n :: l => if everyone n && negb allow
              then Err (fieldErr (entry_name "recursor.allowed_networks" i) (n ++ " opens the resolver to every client; set allow_open_resolver to confirm"))
              else open_check allow (S i) l
  end.

Definition Validate (m : Model) : res Validated :=
  let r := MRecursor m in
  let a := MAuthoritative m in
  listen ← list_ "recursor.listen_addresses" (RListen r) true listenAddr;
  rport ← port "recursor.port" (RPort r);
  allowed ← list_ "recursor.allowed_networks" (RAllowed r) false network;
  _ ← open_check (ROpen r) 0 allowed;
  ups ← list_ "recursor.upstream_resolvers" (RUpstream r) false upstream;
  let mode := ToLower (TrimSpace (RDNSSEC r)) in
  if negb (bool_decide (mode ∈ [DNSSECOff; DNSSECProcess; DNSSECValidate]))
  then Err (fieldErr "recursor.dnssec_validation" "must be off, process or validate")
  else
    alisten ← list_ "authoritative.listen_addresses" (AListen a) true listenAddr;
    aport ← port "authoritative.port" (APort a);
    peers ← list_ "authoritative.transfer_peers" (APeers a) false network;
    Ok (mkValidated (mkModel (mkRecursor listen rport allowed ups mode (ROpen r)) (mkAuthoritative alisten aport peers)) true).
End Lists.

(** ** Rendering *)

Definition Header : str := "# Managed by Freya DNS — do not edit by hand.".
Definition addr_byte (c : ascii) : bool :=
  digit c || ((65 <=? code c) && (code c <=? 70)) || ((97 <=? code c) && (code c <=? 102))
  || bool_decide (c ∈ ["."%char; ":"%char; "/"%char; "["%char; "]"%char]).
Definition addrRE (s : str) : bool := (1 <=? Z.of_nat (length s)) && (Z.of_nat (length s) <=? 64) && forallb addr_byte s.
Definition modeRE (s : str) : bool := bool_decide (s ∈ [DNSSECOff; DNSSECProcess; DNSSECValidate]).

(** The lines written so far and the first unsafe value. *)
Record writer := mkWriter { lines : list str; werr : option error }.
Definition newWriter : writer := mkWriter [] None.
Definition line (s : str) (w : writer) : writer := mkWriter (lines w ++ [s]) (werr w).
Definition note (v : str) (w : writer) : writer :=
  match werr w with Some _ => w | None => mkWriter (lines w) (Some (Wrapf (New ErrUnsafeValue) (goquote v))) end.
Definition quoted (v : str) (re : str → bool) (w : writer) : str * writer :=
  if re v then ([dquote] ++ v ++ [dquote], w) else ([dquote; dquote], note v w).
Definition quoted_line (prefix v : str) (re : str → bool) (w : writer) : writer :=
  let '(q, w) := quoted v re w in line (prefix ++ q) w.
Definition quoted_lines (prefix : str) (re : str → bool) (l : list str) (w : writer) : writer :=
  fold_left (λ w v, quoted_line prefix v re w) l w.
Definition bare (vs : list str) (w : writer) : str * writer :=
  (Join vs ", ", fold_left (λ w v, if addrRE v then w else note v w) vs w).
Definition newline : ascii := "010"%char.
Definition result (w : writer) : res str :=
  match werr w with Some e => Err e | None => Ok (concat (map (λ l, l ++ [newline]) (lines w))) end.

Definition RenderRecursorYAML (v : Validated) : res str :=
  if negb (vok v) then Err (New ErrUnvalidated)
  else
    let r := MRecursor (vm v) in
    let w := line "  listen:" (line "incoming:" (line Header newWriter)) in
    let w := quoted_lines "    - " addrRE (RListen r) w in
    let w := line ("  port: " ++ Itoa (RPort r)) w in
    let w := if bool_decide (RAllowed r = []) then w else quoted_lines "    - " addrRE (RAllowed r) (line "  allow_from:" w) in
    let w := line "dnssec:" w in
    let w := quoted_line "  validation: " (RDNSSEC r) modeRE w in
    let w := if bool_decide (RUpstream r = []) then w
             else quoted_lines "        - " addrRE (RUpstream r)
                    (line "      forwarders:" (line ("    - zone: " ++ [dquote] ++ "." ++ [dquote])
                      (line "  forward_zones_recurse:" (line "recursor:" w)))) in
    result w.

Definition RenderAuthConf (v : Validated) : res str :=
  if negb (vok v) then Err (New ErrUnvalidated)
  else
    let a := MAuthoritative (vm v) in
    let w := line Header newWriter in
    let '(b, w) := bare (AListen a) w in
    let w := line ("local-address=" ++ b) w in
    let w := line ("local-port=" ++ Itoa (APort a)) w in
    let w := if bool_decide (APeers a = []) then w else let '(b, w) := bare (APeers a) w in line ("allow-axfr-ips=" ++ b) w in
    result w.

(** ** What validation gives is safe to render *)

(** Bytes an address literal is made of, at most [n] of them. *)
Definition literal (n : nat) (s : str) : Prop := Forall (λ c, addr_byte c = true) s ∧ (length s ≤ n)%nat ∧ s ≠ [].

Lemma literal_addrRE n s : (n ≤ 64)%nat → literal n s → addrRE s = true.
Proof.
  intros Hn (Hb & Hl & Hne). unfold addrRE. rewrite (proj2 (forallb_Forall _ _) Hb), andb_true_r, andb_true_iff, !Z.leb_le.
  destruct s; [done|]. simpl in *. lia.
Qed.
Lemma literal_app n m s t : literal n s → Forall (λ c, addr_byte c = true) t → (length t ≤ m)%nat → literal (n + m) (s ++ t).
Proof.
  intros (H1 & H2 & H3) Ht Hm. split; [by apply Forall_app|]. rewrite length_app. split; [lia|]. intros [? _]%app_nil. done.
Qed.

Lemma digit_addr_byte c : digit c = true → addr_byte c = true.
Proof. unfold addr_byte. by intros ->. Qed.
Lemma Itoa_literal k x : 0 ≤ x < 10 ^ Z.of_nat k → (0 < k)%nat → literal k (Itoa x).
Proof.
  intros Hx Hk. destruct (NetipText.Itoa_digits k x Hx Hk) as (Hd & Hl & Hne). split; [exact (Forall_impl _ _ _ Hd digit_addr_byte)|done].
Qed.
Lemma hex_digit_byte x : 0 ≤ x < 16 → addr_byte (Netip.hex_digit x) = true.
Proof. intros Hx. assert (x ∈ seqZ 0 16) as Hin by (apply elem_of_seqZ; lia). revert Hin. vm_compute seqZ. intros Hin. repeat (apply elem_of_cons in Hin as [->|Hin]; [done|]). by apply elem_of_nil in Hin. Qed.
Lemma conf_land15_range x : 0 ≤ Z.land x 15 < 16.
Proof. change 15 with (Z.ones 4). rewrite Z.land_ones by lia. apply Z.mod_pos_bound. lia. Qed.
Lemma hex16_literal x : 0 ≤ x < 65536 → literal 4 (Netip.hex16 x).
Proof.
  intros Hx. unfold Netip.hex16. pose proof (λ y, hex_digit_byte _ (conf_land15_range y)) as Hd.
  assert (Hh : addr_byte (Netip.hex_digit (Z.shiftr x 12)) = true).
  { apply hex_digit_byte. rewrite Z.shiftr_div_pow2 by lia. split; [apply Z.div_pos; lia|]. apply Z.div_lt_upper_bound; lia. }
  split; [|split].
  - repeat (apply Forall_app; split); repeat case_match; repeat constructor; auto.
  - rewrite !length_app. repeat case_match; simpl; lia.
  - by intros [_ [_ [_ ?]%app_nil]%app_nil]%app_nil.
Qed.

Lemma Join_literal n ls sep :
  Forall (literal n) ls → addr_byte sep = true → Forall (λ c, addr_byte c = true) (Join ls [sep]) ∧ (length (Join ls [sep]) ≤ (n + 1) * length ls)%nat.
Proof.
  intros H Hs. induction H as [|s ls (Hb & Hl & _) _ [IH1 IH2]]; [split; [constructor|simpl; lia]|]. destruct ls as [|t ls]; [simpl; split; [done|lia]|].
  change (Join (s :: t :: ls) [sep]) with (s ++ sep :: Join (t :: ls) [sep]). split.
  - apply Forall_app. split; [done|]. by constructor.
  - rewrite length_app. cbn [length] in *. lia.
Qed.

Lemma string4_literal b : literal 16 (Netip.string4 b).
Proof.
  unfold Netip.string4, Netip.As4. assert (Hf : Forall (literal 3) (map Itoa (map (λ k, Netip.v4 k b) [0; 1; 2; 3]))).
  { apply Forall_map, Forall_map, Forall_true. intros k. apply Itoa_literal; [|lia]. unfold Netip.v4, Netip.byte_of. change 255 with (Z.ones 8).
    rewrite Z.land_ones by lia. pose proof (Z.mod_pos_bound (Z.shiftr b (8 * (4 - 1 - k))) (2 ^ 8)). simpl. lia. }
  destruct (Join_literal 3 _ "."%char Hf eq_refl) as [H1 H2]. split; [exact H1|]. split; [rewrite !length_map in H2; exact H2|].
  cbn [map Join]. apply Forall_cons in Hf as [(_ & _ & Hne) _]. intros [? _]%app_nil. by apply Hne.
Qed.

(** The run of zero groups that [::] stands for. *)
Lemma zero_run_spec i gs best :
  (i + length gs = 8)%nat → (best = (255, 255)%nat ∨ (best.1 + 2 ≤ best.2 ≤ 8)%nat) →
  let r := Netip.zero_run i gs best in r = (255, 255)%nat ∨ (r.1 + 2 ≤ r.2 ≤ 8)%nat.
Proof.
  revert i best. induction gs as [|g gs IH]; intros i best Hi Hb; [done|]. cbn [Netip.zero_run]. cbv zeta. cbn [length] in Hi. apply IH; [lia|].
  destruct ((2 <=? Netip.zeros (g :: gs))%nat && _) eqn:E; [|done]. right. apply andb_true_iff in E as [E _]. apply Nat.leb_le in E. cbn [fst snd].
  assert (Hz : ∀ l, (Netip.zeros l ≤ length l)%nat) by (induction l as [|y l IHl]; simpl; [lia|]; destruct (y =? 0); lia).
  specialize (Hz (g :: gs)). cbn [length] in Hz. lia.
Qed.

Lemma string6_literal b : literal 40 (Netip.string6 b).
Proof.
  unfold Netip.string6. cbv zeta. assert (Hg : Forall (literal 4) (map Netip.hex16 (Netip.groups b))).
  { unfold Netip.groups. rewrite map_map. apply Forall_map, Forall_true. intros k. apply hex16_literal. unfold Netip.v6u16. change 65535 with (Z.ones 16).
    rewrite Z.land_ones by lia. apply Z.mod_pos_bound. lia. }
  assert (Hlen : length (Netip.groups b) = 8%nat) by done.
  pose proof (zero_run_spec 0 (Netip.groups b) (255, 255)%nat Hlen (or_introl eq_refl)) as Hz. cbv zeta in Hz.
  destruct (Netip.zero_run 0 _ _) as [zs ze]. cbn [fst snd] in Hz. destruct (Nat.ltb_spec zs 8).
  - destruct Hz as [[= -> ->]|Hz]; [lia|]. destruct (Join_literal 4 (map Netip.hex16 (take zs (Netip.groups b))) ":"%char) as [A1 A2]; [|done|].
    { rewrite <- firstn_map. by apply Forall_take. }
    destruct (Join_literal 4 (map Netip.hex16 (drop ze (Netip.groups b))) ":"%char) as [B1 B2]; [|done|].
    { rewrite <- skipn_map. by apply Forall_drop. }
    rewrite length_map, length_take, Hlen in A2. rewrite length_map, length_drop, Hlen in B2. split; [|split].
    + apply Forall_app. split; [done|]. apply Forall_app. split; [|done]. by repeat constructor.
    + rewrite !length_app. change (length ("::" : str)) with 2%nat. change (lit ":") with [":"%char]. lia.
    + intros [_ [? _]%app_nil]%app_nil. done.
  - destruct (Join_literal 4 _ ":"%char Hg eq_refl) as [A1 A2]. rewrite length_map, Hlen in A2. split; [exact A1|]. split; [exact A2|].
    destruct (Netip.groups b) as [|x [|y l]]; [done..|]. cbn [map Join]. intros [? _]%app_nil.
    apply Forall_cons in Hg as [(_ & _ & ?) _]. done.
Qed.

Lemma String_literal a : a ≠ Netip.Invalid → Netip.zone_of a = [] → literal 40 (Netip.String a).
Proof.
  destruct a as [|b|b z]; [done| |]; cbn [Netip.zone_of Netip.String]; intros _ Hz; [|subst z; rewrite bool_decide_eq_true_2, app_nil_r by done; destruct (Netip.Is4In6 _)].
  - destruct (string4_literal b) as (H1 & H2 & H3). split; [done|]. split; [lia|done].
  - destruct (string4_literal (Z.land b 4294967295)) as (H1 & H2 & H3). split; [|split].
    + apply Forall_app. split; [by repeat constructor|done].
    + rewrite length_app. change (length ("::ffff:" : str)) with 7%nat. lia.
    + by intros [? _]%app_nil.
  - apply string6_literal.
Qed.

Lemma ParseAddr_valid s a : Netip.ParseAddr s = Some a → a ≠ Netip.Invalid.
Proof. intros H%Masters.ParseAddr_range ->. done. Qed.
Lemma Unmap_valid a : a ≠ Netip.Invalid → Netip.zone_of a = [] → Netip.Unmap a ≠ Netip.Invalid ∧ Netip.zone_of (Netip.Unmap a) = [].
Proof. destruct a as [|b|b z]; [done|done|]. cbn [Netip.zone_of Netip.Unmap]. intros _ ->. by destruct (Netip.Is4In6 _). Qed.
Lemma ParsePrefix_inv s a n :
  Netip.ParsePrefix s = Some (a, n) → Masters.in_range a ∧ Netip.zone_of a = [] ∧ 0 ≤ n ≤ Netip.BitLen a.
Proof.
  unfold Netip.ParsePrefix. destruct (reverse _) as [|x [|y t]]; [done..|].
  destruct (Netip.ParseAddr _) as [a'|] eqn:Ea; [|done]. cbn [mbind option_bind].
  case_bool_decide as Hz; [|done]. cbn [negb]. destruct (_ && _); [done|]. destruct (Atoi x) as [m|]; [|done]. cbn [mbind option_bind].
  destruct ((m <? 0) || _) eqn:E; [done|]. intros [= -> ->]. apply Masters.ParseAddr_range in Ea. split; [done|]. split; [done|].
  apply orb_false_iff in E as [E1 E2]. apply Z.ltb_ge in E1, E2. split; [done|]. by destruct a.
Qed.
Lemma Masked_inv a n : a ≠ Netip.Invalid → (Netip.Masked (a, n)).1 ≠ Netip.Invalid ∧ Netip.zone_of (Netip.Masked (a, n)).1 = Netip.zone_of a.
Proof. by destruct a. Qed.

Lemma literal_wrap s t u n : literal n s → Forall (λ c, addr_byte c = true) t → Forall (λ c, addr_byte c = true) u →
  (length t + n + length u ≤ 64)%nat → addrRE (t ++ s ++ u) = true.
Proof.
  intros (H1 & H2 & H3) Ht Hu Hn. apply (literal_addrRE 64); [done|]. split; [by rewrite !Forall_app|].
  rewrite !length_app. split; [lia|]. by intros [_ [? _]%app_nil]%app_nil.
Qed.
Lemma Prefix_safe a n : a ≠ Netip.Invalid → Netip.zone_of a = [] → 0 ≤ n ≤ 128 → addrRE (Netip.PrefixString (a, n)) = true.
Proof.
  intros Ha Hz Hn. destruct (Itoa_literal 3 n) as (Hb & Hl & _); [change (10 ^ Z.of_nat 3) with 1000; lia|lia|].
  apply (literal_wrap _ [] ("/" ++ Itoa n) 40); [by apply String_literal|constructor| |].
  - apply Forall_app. split; [by repeat constructor|done].
  - rewrite length_app. change (length ("/" : str)) with 1%nat. cbn [length]. lia.
Qed.
Lemma AddrPort_safe a p : a ≠ Netip.Invalid → Netip.zone_of a = [] → 0 ≤ p ≤ 65535 → addrRE (Netip.AddrPortString a p) = true.
Proof.
  intros Ha Hz Hn. pose proof (String_literal a Ha Hz) as Hs. destruct (Itoa_literal 5 p) as (Hb & Hl & _); [change (10 ^ Z.of_nat 5) with 100000; lia|lia|].
  destruct a as [|b|b z]; [done| |]; unfold Netip.AddrPortString.
  - apply (literal_wrap _ [] (":" ++ Itoa p) 40); [done|constructor| |].
    + apply Forall_app. split; [by repeat constructor|done].
    + rewrite length_app. change (length (":" : str)) with 1%nat. cbn [length]. lia.
  - apply (literal_wrap _ "[" ("]:" ++ Itoa p) 40); [done|by repeat constructor| |].
    + apply Forall_app. split; [by repeat constructor|done].
    + rewrite length_app. change (length ("]:" : str)) with 2%nat. change (length ("[" : str)) with 1%nat. lia.
Qed.

(** *** The three kinds of entry *)

Lemma listenAddr_Ok s v :
  listenAddr s = Ok v ↔ ∃ a, Netip.ParseAddr s = Some a ∧ Netip.zone_of a = [] ∧ v = Netip.String (Netip.Unmap a).
Proof.
  unfold listenAddr. split.
  - destruct (Netip.ParseAddr s) as [a|]; [|done]. case_bool_decide; [|done]. intros [= <-]. eauto.
  - intros (a & -> & Hz & ->). by rewrite bool_decide_eq_true_2.
Qed.
Lemma listenAddr_safe s v : listenAddr s = Ok v → addrRE v = true.
Proof.
  intros (a & Ha%ParseAddr_valid & Hz & ->)%listenAddr_Ok. destruct (Unmap_valid a Ha Hz). by apply (literal_addrRE 40), String_literal; [lia|..].
Qed.
Lemma network_safe s v : network s = Ok v → addrRE v = true.
Proof.
  unfold network. cbv zeta. destruct (negb _).
  - destruct (Netip.ParseAddr s) as [a|] eqn:Ea; [|done]. case_bool_decide as Hz; [|done]. intros [= <-].
    apply ParseAddr_valid in Ea. destruct (Unmap_valid a Ea Hz). apply Prefix_safe; [done..|]. destruct (Netip.Unmap a); simpl; lia.
  - destruct (Netip.ParsePrefix s) as [[a n]|] eqn:Ea; [|done]. intros [= <-]. apply ParsePrefix_inv in Ea as (Hr & Hz & Hn).
    assert (Ha : a ≠ Netip.Invalid) by (by intros ->). destruct (Masked_inv a n Ha) as [H1 H2]. rewrite Hz in H2.
    destruct (Netip.Masked (a, n)) as [a' n'] eqn:Em. apply Prefix_safe; [done..|]. injection Em as _ <-. destruct a; simpl in Hn; lia.
Qed.

(** A forwarder is written as an address with an optional port: an entry that
    reads as address and port is one, the rest must be a bare address. *)
Inductive forwards_to (s : str) : Netip.Addr → option Z → Prop :=
  | fwd_port a p : Netip.ParseAddrPort s = Some (a, p) → 1 ≤ p ≤ 65535 → forwards_to s (Netip.Unmap a) (Some p)
  | fwd_addr a : Netip.ParseAddrPort s = None → Netip.ParseAddr s = Some a → forwards_to s (Netip.Unmap a) None.
Lemma forwards_to_range s a p : forwards_to s a p → Masters.in_range a ∧ Netip.Is4In6 a = false.
Proof.
  intros [b q [H _]%Masters.ParseAddrPort_inv _|b _ H%Masters.ParseAddr_range]; apply Masters.Unmap_range in H; tauto.
Qed.
Definition upstream_refused (a : Netip.Addr) : bool :=
  negb (bool_decide (Netip.zone_of a = [])) || Netip.IsUnspecified a || Netip.IsMulticast a || Netip.IsLoopback a
  || Netip.IsLinkLocalUnicast a || bool_decide (a = Netip.V4 4294967295).
Lemma upstream_refused_spec a : Masters.in_range a → Netip.Is4In6 a = false → upstream_refused a = false ↔ Masters.unicast a.
Proof.
  intros Hr H4. unfold upstream_refused. case_bool_decide as Hz; cbn [negb orb].
  2:{ split; [done|]. destruct a; [done|done|]. intros (_ & ? & _). done. }
  assert (Hu : Netip.Unmap a = a) by (destruct a; cbn [Netip.Unmap]; [done..|by rewrite H4]).
  pose proof (Masters.guard_Ok a a Hr Hz) as Hg. unfold Masters.guard in Hg. cbv zeta in Hg. rewrite Hu in Hg.
  pose proof (Masters.IsMulticast_kinds a Hr) as Hm. unfold Masters.broadcast in Hg.
  destruct (Netip.IsLoopback a), (Netip.IsLinkLocalUnicast a), (Netip.IsLinkLocalMulticast a), (Netip.IsInterfaceLocalMulticast a),
    (Netip.IsUnspecified a), (Netip.IsMulticast a), (bool_decide (a = Netip.V4 4294967295)); cbn [orb] in *; try discriminate Hm;
    (split; [discriminate|intros Hun; discriminate (proj2 Hg (conj eq_refl Hun))]) || (split; [intros _; exact (proj2 (proj1 Hg eq_refl))|reflexivity]).
Qed.

Lemma upstream_Ok s v :
  upstream s = Ok v ↔ ∃ a p, forwards_to s a p ∧ Masters.unicast a ∧ v = Masters.canonical a p.
Proof.
  assert (Hend : ∀ a, Masters.in_range a → Netip.Is4In6 a = false → ∀ p, 0 ≤ p →
    (if upstream_refused a then Err (Plain "must be a unicast resolver address")
     else if p =? 0 then Ok (Netip.String a)
     else if Netip.Is6 a then Ok ("[" ++ Netip.String a ++ "]:" ++ Itoa p)
     else Ok (Netip.String a ++ ":" ++ Itoa p)) = Ok v
    ↔ Masters.unicast a ∧ v = Masters.canonical a (if p =? 0 then None else Some p)).
  { intros a Hr H4 p _. rewrite <- (upstream_refused_spec a Hr H4). destruct (upstream_refused a); [split; [discriminate|intros [[=] _]]|].
    assert (Hok : ∀ x, Ok x = Ok v ↔ false = false ∧ v = x) by (intros x; split; [intros [= <-]; split; reflexivity|intros [_ ->]; reflexivity]).
    destruct (p =? 0); [apply Hok|]. destruct a as [|b|b z]; [destruct Hr|apply Hok..]. }
  unfold upstream. destruct (Netip.ParseAddrPort s) as [[a p]|] eqn:Ep.
  - pose proof (Masters.ParseAddrPort_inv _ _ _ Ep) as [Hr Hp]. destruct (Z.eqb_spec p 0) as [->|Hp0].
    { split; [done|]. intros (? & ? & [a' p' ??|a' ? ?] & _); simplify_eq; lia. }
    pose proof (Masters.Unmap_range a Hr) as (Hr' & _ & H4). cbv zeta. fold (upstream_refused (Netip.Unmap a)). rewrite Hend by (done || lia).
    destruct (Z.eqb_spec p 0); [done|]. split; [intros [Hu ->]; exists (Netip.Unmap a), (Some p); split; [constructor; [done|lia]|done]|].
    intros (? & ? & [a' p' ??|a' ? ?] & Hu & ->); simplify_eq; done.
  - destruct (Netip.ParseAddr s) as [a|] eqn:Ea; [|split; [done|]; intros (? & ? & [a' p' ??|a' ? ?] & _); simplify_eq].
    pose proof (Masters.Unmap_range a (Masters.ParseAddr_range _ _ Ea)) as (Hr' & _ & H4). cbv zeta. fold (upstream_refused (Netip.Unmap a)). rewrite Hend by (done || lia).
    change (0 =? 0) with true. cbn [orb]. split; [intros [Hu ->]; exists (Netip.Unmap a), None; split; [by constructor|done]|].
    intros (? & ? & [a' p' ??|a' ? ?] & Hu & ->); simplify_eq; done.
Qed.
Lemma unicast_inv a : Masters.unicast a → a ≠ Netip.Invalid ∧ Netip.zone_of a = [].
Proof. destruct a as [|b|b z]; [intros []|split; [discriminate|reflexivity]|]. intros (_ & Hz & _). split; [discriminate|exact Hz]. Qed.
Lemma upstream_safe s v : upstream s = Ok v → addrRE v = true.
Proof.
  intros (a & p & Hf & [Hv Hz]%unicast_inv & ->)%upstream_Ok. destruct p as [p|]; cbn [Masters.canonical].
  - apply AddrPort_safe; [done..|]. inversion Hf; subst. lia.
  - by apply (literal_addrRE 40), String_literal; [lia|..].
Qed.

(** *** Lists *)
Section Specification.
Context {U : Unicode}.

(** The entries of [l], each read by [f], in order and without repetition. *)
Definition reads (f : str → res str) (l out : list str) : Prop :=
  (length l ≤ 32)%nat ∧ Forall2 (λ raw v, f (TrimSpace raw) = Ok v) l out ∧ NoDup out.

Lemma list_loop_Ok field f i seen l out :
  list_loop field f i seen l = Ok out ↔ Forall2 (λ raw v, f (TrimSpace raw) = Ok v) l out ∧ NoDup out ∧ ∀ v, v ∈ out → v ∉ seen.
Proof.
  revert i seen out. induction l as [|raw l IH]; intros i seen out; cbn [list_loop].
  - split; [intros [= <-]; split; [constructor|split; [constructor|by intros ? ?%elem_of_nil]]|]. by intros [->%Forall2_nil_inv_l _].
  - split.
    + destruct (f (TrimSpace raw)) as [v|e] eqn:Ef; [|done]. case_bool_decide as Hs; [done|].
      intros (rest & (H2 & Hnd & Hsn)%IH & [= <-])%bind_Ok. split; [by constructor|]. split; [constructor; [|done]|]; [intros Hin; apply Hsn in Hin; set_solver|].
      intros c' [->|Hin]%elem_of_cons; [done|]. apply Hsn in Hin. set_solver.
    + intros (H2 & Hnd & Hsn). inversion H2 as [|? v ? rest Hc Hrest]; subst. rewrite Hc.
      apply NoDup_cons in Hnd as [Hnin Hnd]. rewrite bool_decide_eq_false_2 by (apply Hsn; set_solver).
      apply bind_Ok. exists rest. split; [|done]. apply IH. split_and!; [done..|].
      intros c' Hin [->|Hs]%elem_of_cons; [done|]. eapply Hsn; [|done]. set_solver.
Qed.
Lemma list_Ok field l required f out :
  list_ field l required f = Ok out ↔ reads f l out ∧ (required = true → l ≠ []).
Proof.
  unfold list_, reads, MaxList. destruct (Z.ltb_spec 32 (Z.of_nat (length l))); [split; [done|]; intros [[??] _]; lia|].
  destruct (required && _) eqn:E.
  { apply andb_true_iff in E as [-> E%bool_decide_eq_true]. split; [done|]. intros [_ Hr]. by destruct (Hr eq_refl). }
  rewrite list_loop_Ok. split.
  - intros (H1 & H2 & _). split; [split; [lia|done]|]. intros ->. by apply bool_decide_eq_false in E.
  - intros [(_ & H1 & H2) _]. split_and!; [done..|]. by intros ? _ ?%elem_of_nil.
Qed.
Lemma port_Ok field p q : port field p = Ok q ↔ q = p ∧ 1 ≤ p ≤ 65535.
Proof. unfold port. destruct (Z.ltb_spec p 1), (Z.ltb_spec 65535 p); cbn [orb]; split; try done; try lia; [by intros [= <-]|by intros [-> _]]. Qed.
Lemma open_check_Ok allow i l : open_check allow i l = Ok () ↔ (existsb everyone l = true → allow = true).
Proof.
  revert i. induction l as [|n l IH]; intros i; cbn [open_check existsb]; [split; [done|by intros]|].
  destruct (everyone n); cbn [andb orb]; [|apply IH]. destruct allow; cbn [negb]; [|split; [done|intros H; by specialize (H eq_refl)]].
  rewrite IH. tauto.
Qed.

(** What [Validate] accepts, and the canonical model it returns. *)
Record accepted (m m' : Model) : Prop := mkAccepted {
  acc_listen : reads listenAddr (RListen (MRecursor m)) (RListen (MRecursor m')) ∧ RListen (MRecursor m) ≠ [];
  acc_port : RPort (MRecursor m') = RPort (MRecursor m) ∧ 1 ≤ RPort (MRecursor m) ≤ 65535;
  acc_allowed : reads network (RAllowed (MRecursor m)) (RAllowed (MRecursor m'));
  acc_open : ROpen (MRecursor m') = ROpen (MRecursor m) ∧
    (("0.0.0.0/0" : str) ∈ RAllowed (MRecursor m') ∨ ("::/0" : str) ∈ RAllowed (MRecursor m') → ROpen (MRecursor m) = true);
  acc_upstream : (length (RUpstream (MRecursor m)) ≤ 32)%nat ∧ NoDup (RUpstream (MRecursor m')) ∧
    Forall2 (λ raw v, ∃ a p, forwards_to (TrimSpace raw) a p ∧ Masters.unicast a ∧ v = Masters.canonical a p)
      (RUpstream (MRecursor m)) (RUpstream (MRecursor m'));
  acc_mode : RDNSSEC (MRecursor m') = ToLower (TrimSpace (RDNSSEC (MRecursor m))) ∧
    RDNSSEC (MRecursor m') ∈ [DNSSECOff; DNSSECProcess; DNSSECValidate];
  acc_alisten : reads listenAddr (AListen (MAuthoritative m)) (AListen (MAuthoritative m')) ∧ AListen (MAuthoritative m) ≠ [];
  acc_aport : APort (MAuthoritative m') = APort (MAuthoritative m) ∧ 1 ≤ APort (MAuthoritative m) ≤ 65535;
  acc_peers : reads network (APeers (MAuthoritative m)) (APeers (MAuthoritative m'))
}.

Lemma everyone_spec l : existsb everyone l = true ↔ ("0.0.0.0/0" : str) ∈ l ∨ ("::/0" : str) ∈ l.
Proof.
  rewrite existsb_exists. unfold everyone. setoid_rewrite orb_true_iff. setoid_rewrite bool_decide_eq_true. setoid_rewrite <- list_elem_of_In.
  naive_solver.
Qed.
Lemma upstreams_Ok l out :
  reads upstream l out ↔ (length l ≤ 32)%nat ∧ NoDup out ∧
    Forall2 (λ raw v, ∃ a p, forwards_to (TrimSpace raw) a p ∧ Masters.unicast a ∧ v = Masters.canonical a p) l out.
Proof.
  unfold reads. assert (E : ∀ out, Forall2 (λ raw v, upstream (TrimSpace raw) = Ok v) l out ↔
    Forall2 (λ raw v, ∃ a p, forwards_to (TrimSpace raw) a p ∧ Masters.unicast a ∧ v = Masters.canonical a p) l out).
  { intros o. split; intros H; eapply Forall2_impl; try exact H; intros ??; apply upstream_Ok. }
  rewrite E. tauto.
Qed.

Lemma Validate_Ok m v : Validate m = Ok v ↔ vok v = true ∧ accepted m (vm v).
Proof.
  unfold Validate. cbv zeta. split.
  - intros (l & Hl%list_Ok & (rp & [-> Hp]%port_Ok & (al & [Ha _]%list_Ok & ([] & Ho & (ups & [Hu%upstreams_Ok _]%list_Ok & H)%bind_Ok)%bind_Ok)%bind_Ok)%bind_Ok)%bind_Ok.
    case_bool_decide as Hm; [|discriminate H]. cbn [negb] in H.
    apply bind_Ok in H as (ll & Hll%list_Ok & (ap & [-> Hap]%port_Ok & (ps & [Hps _]%list_Ok & [= <-])%bind_Ok)%bind_Ok).
    split; [reflexivity|]. destruct Hl as [? Hne]. destruct Hll as [? Hne']. rewrite open_check_Ok, everyone_spec in Ho. constructor; cbn [vm MRecursor MAuthoritative RListen RPort RAllowed RUpstream RDNSSEC ROpen AListen APort APeers]; auto.
  - destruct v as [[[l rp al ups mode op] [ll ap ps]] ok]. cbn [vok vm]. intros [-> [[H1 H1'] [E2 H2] H3 [E4 H4] H5%upstreams_Ok [E6 H6] [H7 H7'] [E8 H8] H9]].
    cbn [vm MRecursor MAuthoritative RListen RPort RAllowed RUpstream RDNSSEC ROpen AListen APort APeers] in *. subst rp op mode ap.
    apply bind_Ok. exists l. rewrite list_Ok. split; [auto|].
    apply bind_Ok. exists (RPort (MRecursor m)). rewrite port_Ok. split; [auto|].
    apply bind_Ok. exists al. rewrite list_Ok. split; [split; [auto|discriminate]|].
    apply bind_Ok. exists (). rewrite open_check_Ok, everyone_spec. split; [auto|].
    apply bind_Ok. exists ups. rewrite list_Ok. split; [split; [auto|discriminate]|].
    rewrite bool_decide_eq_true_2 by exact H6. cbn [negb].
    apply bind_Ok. exists ll. rewrite list_Ok. split; [auto|].
    apply bind_Ok. exists (APort (MAuthoritative m)). rewrite port_Ok. split; [auto|].
    apply bind_Ok. exists ps. rewrite list_Ok. split; [split; [auto|discriminate]|reflexivity].
Qed.


Lemma reads_forall (P : str → Prop) f l out : (∀ s v, f s = Ok v → P v) → reads f l out → Forall P out.
Proof. intros Hf (_ & H & _). induction H; constructor; eauto. Qed.

(** Every scalar of an accepted model passes the writer's allow-list. *)
Record printable (m : Model) : Prop := mkPrintable {
  pr_listen : Forall (λ v, addrRE v = true) (RListen (MRecursor m));
  pr_allowed : Forall (λ v, addrRE v = true) (RAllowed (MRecursor m));
  pr_upstream : Forall (λ v, addrRE v = true) (RUpstream (MRecursor m));
  pr_mode : modeRE (RDNSSEC (MRecursor m)) = true;
  pr_alisten : Forall (λ v, addrRE v = true) (AListen (MAuthoritative m));
  pr_peers : Forall (λ v, addrRE v = true) (APeers (MAuthoritative m))
}.
Lemma accepted_printable m m' : accepted m m' → printable m'.
Proof.
  intros [[Hl _] _ Ha _ Hu%upstreams_Ok [_ Hm] [Hal _] _ Hp]. constructor.
  - exact (reads_forall _ _ _ _ listenAddr_safe Hl).
  - exact (reads_forall _ _ _ _ network_safe Ha).
  - exact (reads_forall _ _ _ _ upstream_safe Hu).
  - unfold modeRE. by rewrite bool_decide_eq_true_2.
  - exact (reads_forall _ _ _ _ listenAddr_safe Hal).
  - exact (reads_forall _ _ _ _ network_safe Hp).
Qed.
End Specification.

(** ** The rendered files *)

Definition unlines (ls : list str) : str := concat (map (λ l, l ++ [newline]) ls).
Definition item (prefix v : str) : str := prefix ++ [dquote] ++ v ++ [dquote].
Definition recursor_lines (r : Recursor) : list str :=
  [Header; "incoming:" : str; "  listen:" : str] ++ map (item "    - ") (RListen r) ++ ("  port: " ++ Itoa (RPort r))
  :: (if bool_decide (RAllowed r = []) then [] else ("  allow_from:" : str) :: map (item "    - ") (RAllowed r))
  ++ ("dnssec:" : str) :: item "  validation: " (RDNSSEC r)
  :: (if bool_decide (RUpstream r = []) then []
      else ["recursor:" : str; "  forward_zones_recurse:" : str; item "    - zone: " "."; "      forwarders:" : str]
           ++ map (item "        - ") (RUpstream r)).
Definition auth_lines (a : Authoritative) : list str :=
  Header :: ("local-address=" ++ Join (AListen a) ", ") :: ("local-port=" ++ Itoa (APort a))
  :: (if bool_decide (APeers a = []) then [] else ["allow-axfr-ips=" ++ Join (APeers a) ", "]).

Lemma quoted_lines_safe prefix re l w :
  Forall (λ v, re v = true) l → quoted_lines prefix re l w = mkWriter (lines w ++ map (item prefix) l) (werr w).
Proof.
  intros H. revert w. induction H as [|v l Hv _ IH]; intros w; unfold quoted_lines; cbn [fold_left map]; [rewrite app_nil_r; by destruct w|].
  fold (quoted_lines prefix re l (quoted_line prefix v re w)). rewrite IH. unfold quoted_line, quoted. rewrite Hv. cbn [line lines werr].
  by rewrite <- app_assoc.
Qed.
Lemma bare_safe l w : Forall (λ v, addrRE v = true) l → bare l w = (Join l ", ", w).
Proof.
  intros H. unfold bare. f_equal. revert w. induction H as [|v l Hv _ IH]; intros w; [done|]. cbn [fold_left]. by rewrite Hv.
Qed.

Lemma RenderRecursorYAML_lines v :
  vok v = true → printable (vm v) → RenderRecursorYAML v = Ok (unlines (recursor_lines (MRecursor (vm v)))).
Proof.
  intros Hv [Hl Ha Hu Hm _ _]. unfold RenderRecursorYAML, recursor_lines. rewrite Hv. cbn [negb]. cbv zeta.
  assert (Hq : ∀ w, quoted_line "  validation: " (RDNSSEC (MRecursor (vm v))) modeRE w = line (item "  validation: " (RDNSSEC (MRecursor (vm v)))) w).
  { intros w. unfold quoted_line, quoted. by rewrite Hm. }
  change ("    - zone: " ++ [dquote] ++ "." ++ [dquote]) with (item "    - zone: " ".").
  rewrite Hq. unfold newWriter, unlines. clear Hq. assert (Hw : ∀ x ls e, line x (mkWriter ls e) = mkWriter (ls ++ [x]) e) by done.
  rewrite !Hw, (quoted_lines_safe _ _ _ _ Hl). cbn [lines werr]. rewrite !Hw.
  case_bool_decide as E1; case_bool_decide as E2; rewrite ?Hw, ?(quoted_lines_safe _ _ _ _ Ha); cbn [lines werr]; rewrite ?Hw;
    rewrite ?(quoted_lines_safe _ _ _ _ Hu); cbn [lines werr result]; rewrite <- ?app_assoc; reflexivity.
Qed.
Lemma RenderAuthConf_lines v :
  vok v = true → printable (vm v) → RenderAuthConf v = Ok (unlines (auth_lines (MAuthoritative (vm v)))).
Proof.
  intros Hv [_ _ _ _ Hl Hp]. unfold RenderAuthConf, auth_lines. rewrite Hv. cbn [negb]. rewrite (bare_safe _ _ Hl).
  rewrite (bare_safe _ _ Hp). case_bool_decide; reflexivity.
Qed.

(** *** The files say what the model says *)

(** A list is cut in one way before the first element outside [P]. *)
Lemma span_inj {A} (P : A → Prop) a1 a2 b1 b2 :
  Forall P a1 → Forall P a2 → (∀ x, head b1 = Some x → ¬ P x) → (∀ x, head b2 = Some x → ¬ P x) →
  a1 ++ b1 = a2 ++ b2 → a1 = a2 ∧ b1 = b2.
Proof.
  intros H1. revert a2. induction H1 as [|x a1 Hx _ IH]; intros a2 H2 N1 N2 E; destruct H2 as [|y a2 Hy H2]; [done| | |].
  - cbn [app] in E. subst b1. by destruct (N1 y eq_refl).
  - cbn [app] in E. subst b2. by destruct (N2 x eq_refl).
  - injection E as -> E. destruct (IH a2 H2 N1 N2 E) as [-> ->]. done.
Qed.

Definition plain (s : str) : Prop := Forall (λ c, c ≠ newline) s.
Lemma unlines_inj ls1 ls2 : Forall plain ls1 → Forall plain ls2 → unlines ls1 = unlines ls2 → ls1 = ls2.
Proof.
  intros H1. revert ls2. unfold unlines. assert (Hn : ∀ (l r : str), l ++ [newline] ++ r = [] → False) by (intros [] ?; done).
  induction H1 as [|l ls1 Hl _ IH]; intros ls2 H2 E; destruct H2 as [|k ls2 Hk H2]; [done|..]; cbn [map concat] in E; rewrite <- ?app_assoc in E.
  - by destruct (Hn _ _ (eq_sym E)).
  - by destruct (Hn _ _ E).
  - apply span_inj with (P := λ c, c ≠ newline) in E as [-> E]; [|done..|by intros ? [= <-] []|by intros ? [= <-] []].
    injection E as E. f_equal. by apply IH.
Qed.

Lemma addr_byte_spec c : addr_byte c = true → c ≠ newline ∧ c ≠ ","%char.
Proof. intros H. split; intros ->; discriminate H. Qed.
Lemma addrRE_plain v : addrRE v = true → plain v ∧ Forall (λ c, c ≠ ","%char) v ∧ v ≠ [].
Proof.
  unfold addrRE. intros H. apply andb_true_iff in H as [[H1 _]%andb_true_iff H2%forallb_Forall]. split; [|split].
  - eapply Forall_impl; [exact H2|]. intros c ?. by apply addr_byte_spec.
  - eapply Forall_impl; [exact H2|]. intros c ?. by apply addr_byte_spec.
  - by intros ->.
Qed.
Lemma modeRE_plain v : modeRE v = true → plain v.
Proof.
  intros H%bool_decide_eq_true. assert (Hf : Forall plain [DNSSECOff; DNSSECProcess; DNSSECValidate]) by (repeat constructor; discriminate).
  rewrite Forall_forall in Hf. by apply Hf.
Qed.
Lemma Itoa_plain p : 1 ≤ p ≤ 65535 → plain (Itoa p).
Proof.
  intros Hp. destruct (Itoa_literal 5 p) as (H & _); [change (10 ^ Z.of_nat 5) with 100000; lia|lia|].
  eapply Forall_impl; [exact H|]. intros c ?. by apply addr_byte_spec.
Qed.
Lemma item_plain prefix v : plain prefix → plain v → plain (item prefix v).
Proof. intros Hp Hv. unfold item, plain. rewrite !Forall_app. repeat split; [done|..]; by repeat constructor. Qed.
Lemma items_plain prefix l : plain prefix → Forall (λ v, addrRE v = true) l → Forall plain (map (item prefix) l).
Proof. intros Hp H. apply Forall_map. eapply Forall_impl; [exact H|]. intros v Hv. apply item_plain; [done|]. by apply addrRE_plain. Qed.
Lemma Join_plain l : Forall (λ v, addrRE v = true) l → plain (Join l ", ").
Proof.
  intros H. induction H as [|v [|w l] Hv _ IH]; [constructor|by apply addrRE_plain|].
  change (plain (v ++ ", " ++ Join (w :: l) ", ")). unfold plain. rewrite !Forall_app. split; [by apply addrRE_plain|]. split; [by repeat constructor|done].
Qed.
Lemma lit_plain (x : str) : forallb (λ c, negb (bool_decide (c = newline))) x = true → plain x.
Proof. intros H%forallb_Forall. eapply Forall_impl; [exact H|]. intros c Hc%negb_true_iff. by apply bool_decide_eq_false in Hc. Qed.

Ltac lit_ok := apply lit_plain; vm_compute; reflexivity.
Lemma recursor_lines_plain m : printable m → 1 ≤ RPort (MRecursor m) ≤ 65535 → Forall plain (recursor_lines (MRecursor m)).
Proof.
  intros [Hl Ha Hu Hm _ _] Hp. unfold recursor_lines. do 3 (apply Forall_cons_2; [lit_ok|]).
  apply Forall_app_2; [apply items_plain; [lit_ok|done]|]. apply Forall_cons_2; [apply Forall_app_2; [lit_ok|by apply Itoa_plain]|].
  apply Forall_app_2; [case_bool_decide; [constructor|apply Forall_cons_2; [lit_ok|apply items_plain; [lit_ok|done]]]|].
  apply Forall_cons_2; [lit_ok|]. apply Forall_cons_2; [apply item_plain; [lit_ok|by apply modeRE_plain]|].
  case_bool_decide; [constructor|]. do 4 (apply Forall_cons_2; [lit_ok|]). apply items_plain; [lit_ok|done].
Qed.
Lemma auth_lines_plain m : printable m → 1 ≤ APort (MAuthoritative m) ≤ 65535 → Forall plain (auth_lines (MAuthoritative m)).
Proof.
  intros [_ _ _ _ Hl Hp] Hr. unfold auth_lines. apply Forall_cons_2; [lit_ok|].
  apply Forall_cons_2; [apply Forall_app_2; [lit_ok|by apply Join_plain]|].
  apply Forall_cons_2; [apply Forall_app_2; [lit_ok|by apply Itoa_plain]|].
  case_bool_decide; [constructor|]. apply Forall_cons_2; [apply Forall_app_2; [lit_ok|by apply Join_plain]|constructor].
Qed.

Lemma item_inj prefix v w : item prefix v = item prefix w → v = w.
Proof. intros E%app_inv_head. injection E as E. by apply app_inv_tail in E. Qed.
Lemma items_inj prefix l k : map (item prefix) l = map (item prefix) k → l = k.
Proof. apply (list_fmap_eq_inj (item prefix)). intros ??. apply item_inj. Qed.
(** Item lines are cut in one way before the line after them. *)
Lemma items_cut prefix l k (b1 b2 : list str) :
  (∀ x, head b1 = Some x → ¬ prefix `prefix_of` x) → (∀ x, head b2 = Some x → ¬ prefix `prefix_of` x) →
  map (item prefix) l ++ b1 = map (item prefix) k ++ b2 → l = k ∧ b1 = b2.
Proof.
  intros N1 N2 E. apply span_inj with (P := λ x, prefix `prefix_of` x) in E as [E ->]; [|try done..].
  - by apply items_inj in E.
  - apply Forall_map, Forall_true. intros v. by eexists.
  - apply Forall_map, Forall_true. intros v. by eexists.
Qed.
Lemma Itoa_inj p q : Itoa p = Itoa q → p = q.
Proof.
  unfold Itoa. intros E. apply pretty_Z_inj. rewrite <- (String.string_of_list_ascii_of_string (pretty p)), <- (String.string_of_list_ascii_of_string (pretty q)).
  f_equal. exact E.
Qed.
Lemma Join_inj l k : Forall (λ v, addrRE v = true) l → Forall (λ v, addrRE v = true) k → Join l ", " = Join k ", " → l = k.
Proof.
  assert (Hne : ∀ v w r, addrRE v = true → Join (v :: w) r ≠ []).
  { intros v [|x w] r (_ & _ & Hv)%addrRE_plain; [done|]. change (v ++ r ++ Join (x :: w) r ≠ []). by intros [? _]%app_nil. }
  assert (Hs : ∀ v w, addrRE v = true → ∃ b, Join (v :: w) ", " = v ++ b ∧ (∀ x, head b = Some x → ¬ x ≠ ","%char) ∧
    b = match w with [] => [] | _ => ", " ++ Join w ", " end).
  { intros v [|x w] _; [exists []; rewrite app_nil_r; done|]. eexists. split; [reflexivity|]. split; [|done]. by intros ? [= <-] []. }
  intros H. revert k. induction H as [|v l Hv Hl IH]; intros k Hk E; destruct Hk as [|w k Hw Hk]; [done|..].
  - symmetry in E. by apply Hne in E.
  - by apply Hne in E.
  - destruct (Hs v l Hv) as (b & E1 & N1 & D1). destruct (Hs w k Hw) as (c & E2 & N2 & D2). rewrite E1, E2 in E.
    apply span_inj with (P := λ x, x ≠ ","%char) in E as [-> E]; [|by apply addrRE_plain..|done|done]. f_equal.
    rewrite D1, D2 in E. destruct l as [|x l], k as [|y k]; [done|discriminate E..|]. apply app_inv_head in E. by apply IH.
Qed.

(** The settings of the resolver its file carries: all but the confirmation. *)
Definition settings (r : Recursor) : list str * Z * list str * list str * str := (RListen r, RPort r, RAllowed r, RUpstream r, RDNSSEC r).

(** Two texts that differ in a literal byte. *)
Ltac lit_differ E := cbv [lit String.list_ascii_of_string app] in E; discriminate E.
Ltac no_prefix := let k := fresh in let E := fresh in intros ? [= <-] [k E]; lit_differ E.

Lemma recursor_tail_inj r1 r2 :
  ("dnssec:" : str) :: item "  validation: " (RDNSSEC r1)
  :: (if bool_decide (RUpstream r1 = []) then []
      else ["recursor:" : str; "  forward_zones_recurse:" : str; item "    - zone: " "."; "      forwarders:" : str] ++ map (item "        - ") (RUpstream r1))
  = ("dnssec:" : str) :: item "  validation: " (RDNSSEC r2)
  :: (if bool_decide (RUpstream r2 = []) then []
      else ["recursor:" : str; "  forward_zones_recurse:" : str; item "    - zone: " "."; "      forwarders:" : str] ++ map (item "        - ") (RUpstream r2)) →
  RDNSSEC r1 = RDNSSEC r2 ∧ RUpstream r1 = RUpstream r2.
Proof.
  intros E. apply cons_eq_inj in E as [_ E]. apply cons_eq_inj in E as [E%item_inj E']. split; [done|].
  case_bool_decide as H1; case_bool_decide as H2; [congruence|discriminate E'..|]. by apply app_inv_head, items_inj in E'.
Qed.
Lemma recursor_lines_inj r1 r2 : recursor_lines r1 = recursor_lines r2 → settings r1 = settings r2.
Proof.
  unfold recursor_lines, settings. intros E%app_inv_head.
  apply items_cut in E as [-> E]; [|no_prefix..]. apply cons_eq_inj in E as [Ep E]. apply app_inv_head, Itoa_inj in Ep as ->.
  destruct (bool_decide_reflect (RAllowed r1 = [])) as [H1|H1], (bool_decide_reflect (RAllowed r2 = [])) as [H2|H2]; [|lit_differ E..|].
  - cbn [app] in E. apply recursor_tail_inj in E as [-> ->]. congruence.
  - apply cons_eq_inj in E as [_ E]. apply items_cut in E as [-> E]; [|no_prefix..].
    apply recursor_tail_inj in E as [-> ->]. done.
Qed.
Lemma auth_lines_inj m1 m2 : printable m1 → printable m2 → auth_lines (MAuthoritative m1) = auth_lines (MAuthoritative m2) → MAuthoritative m1 = MAuthoritative m2.
Proof.
  intros [_ _ _ _ Hl1 Hp1] [_ _ _ _ Hl2 Hp2]. unfold auth_lines. destruct (MAuthoritative m1) as [l1 p1 a1], (MAuthoritative m2) as [l2 p2 a2].
  cbn [AListen APort APeers] in *. intros E. apply cons_eq_inj in E as [_ E]. apply cons_eq_inj in E as [El E]. apply cons_eq_inj in E as [Ep E].
  apply app_inv_head, Join_inj in El as ->; [|done..]. apply app_inv_head, Itoa_inj in Ep as ->.
  case_bool_decide as H1; case_bool_decide as H2; [congruence|discriminate E..|]. apply cons_eq_inj in E as [Ea _].
  apply app_inv_head, Join_inj in Ea as ->; done.
Qed.

Section Files.
Context {U : Unicode}.

(** A validated configuration always renders: neither file is ever refused
    for an unsafe value.  The resolver's files of two validated configurations
    are equal exactly when their listen addresses, ports, allowed networks,
    forwarders and DNSSEC modes are, and the authoritative server's exactly when
    its sections are: no value can leave its place in the file, and a file that
    did not change is one whose settings did not. *)
Theorem Render_faithful m1 m2 v1 v2 :
  Validate m1 = Ok v1 → Validate m2 = Ok v2 →
  ∃ y1 y2 c1 c2,
    RenderRecursorYAML v1 = Ok y1 ∧ RenderRecursorYAML v2 = Ok y2 ∧ RenderAuthConf v1 = Ok c1 ∧ RenderAuthConf v2 = Ok c2 ∧
    (y1 = y2 ↔ settings (MRecursor (vm v1)) = settings (MRecursor (vm v2))) ∧
    (c1 = c2 ↔ MAuthoritative (vm v1) = MAuthoritative (vm v2)).
Proof.
  intros [K1 A1]%Validate_Ok [K2 A2]%Validate_Ok. pose proof (accepted_printable _ _ A1) as P1. pose proof (accepted_printable _ _ A2) as P2.
  eexists _, _, _, _. do 2 (split; [by apply RenderRecursorYAML_lines|]). do 2 (split; [by apply RenderAuthConf_lines|]).
  destruct A1 as [_ [Ep1 Hp1] _ _ _ _ _ [Eq1 Hq1] _], A2 as [_ [Ep2 Hp2] _ _ _ _ _ [Eq2 Hq2] _]. rewrite <- Ep1 in Hp1. rewrite <- Ep2 in Hp2. rewrite <- Eq1 in Hq1. rewrite <- Eq2 in Hq2. split; split.
  - intros E%unlines_inj; [by apply recursor_lines_inj|by apply recursor_lines_plain..].
  - unfold settings, recursor_lines. by intros [= -> -> -> -> ->].
  - intros E%unlines_inj; [by apply auth_lines_inj|by apply auth_lines_plain..].
  - by intros ->.
Qed.
(** *** Canonical settings validate to themselves *)

Lemma addr_byte_printable c : addr_byte c = true → GoStrings.printable c = true.
Proof.
  unfold addr_byte. rewrite !orb_true_iff. intros [[[H|H]|H]|H].
  - unfold digit in H. unfold GoStrings.printable. b2p. rewrite andb_true_iff, !Z.leb_le. lia.
  - unfold GoStrings.printable. b2p. rewrite andb_true_iff, !Z.leb_le. lia.
  - unfold GoStrings.printable. b2p. rewrite andb_true_iff, !Z.leb_le. lia.
  - apply bool_decide_eq_true in H. repeat (apply elem_of_cons in H as [->|H]; [done|]). by apply elem_of_nil in H.
Qed.
Lemma TrimSpace_addr v : addrRE v = true → TrimSpace v = v.
Proof.
  unfold addrRE. intros [_ H%forallb_Forall]%andb_true_iff. apply TrimSpace_printable. eapply Forall_impl; [exact H|]. intros c. apply addr_byte_printable.
Qed.
Lemma Unmap_plain a : Netip.Is4In6 a = false → Netip.Unmap a = a.
Proof. destruct a as [|b|b z]; [done|done|]. cbn [Netip.Unmap]. by intros ->. Qed.

Lemma listenAddr_idem s v : listenAddr s = Ok v → listenAddr v = Ok v.
Proof.
  intros (a & Ha & Hz & ->)%listenAddr_Ok. apply listenAddr_Ok. destruct (Masters.Unmap_range a (Masters.ParseAddr_range _ _ Ha)) as (Hr & Hz' & H4).
  specialize (Hz' Hz). exists (Netip.Unmap a). rewrite NetipText.ParseAddr_String by done. by rewrite (Unmap_plain _ H4).
Qed.

Lemma mask_range n len b : 0 ≤ n ≤ len → 0 ≤ b < 2 ^ len → 0 ≤ Netip.mask n len b < 2 ^ len.
Proof.
  intros Hn Hb. unfold Netip.mask. rewrite Z.shiftl_mul_pow2, Z.shiftr_div_pow2 by lia.
  pose proof (Z.mul_div_le b (2 ^ (len - n)) ltac:(lia)). split; [|lia]. apply Z.mul_nonneg_nonneg; [apply Z.div_pos; lia|lia].
Qed.
Lemma mask_idem n len b : 0 ≤ n ≤ len → Netip.mask n len (Netip.mask n len b) = Netip.mask n len b.
Proof. intros Hn. unfold Netip.mask. f_equal. rewrite Z.shiftr_shiftl_l by lia. replace (len - n - (len - n)) with 0 by lia. apply Z.shiftl_0_r. Qed.
Lemma Masked_range a n :
  Masters.in_range a → 0 ≤ n ≤ Netip.BitLen a → Masters.in_range (Netip.Masked (a, n)).1 ∧ Netip.BitLen (Netip.Masked (a, n)).1 = Netip.BitLen a
  ∧ Netip.Masked (Netip.Masked (a, n)) = Netip.Masked (a, n).
Proof.
  destruct a as [|b|b z]; [intros []| |]; unfold Netip.Masked, Masters.in_range; cbn [fst snd Netip.BitLen]; intros Hb Hn.
  - split; [by apply mask_range|]. split; [reflexivity|]. by rewrite mask_idem.
  - split; [by apply mask_range|]. split; [reflexivity|]. by rewrite mask_idem.
Qed.
Lemma Masked_whole a : Masters.in_range a → Netip.Masked (a, Netip.BitLen a) = (a, Netip.BitLen a).
Proof. destruct a as [|b|b z]; [intros []| |]; intros _; unfold Netip.Masked, Netip.mask; cbn [fst snd Netip.BitLen]; by rewrite Z.sub_diag, Z.shiftl_0_r, Z.shiftr_0_r. Qed.
Lemma network_prefix a n :
  Masters.in_range a → Netip.zone_of a = [] → 0 ≤ n ≤ Netip.BitLen a → Netip.Masked (a, n) = (a, n) → network (Netip.PrefixString (a, n)) = Ok (Netip.PrefixString (a, n)).
Proof.
  intros Hr Hz Hn Hm. unfold network. cbv zeta. assert (Hc : Contains (Netip.PrefixString (a, n)) "/" = true) by (apply Contains_spec; by eexists _, _).
  rewrite Hc. cbn [negb]. rewrite NetipText.ParsePrefix_String by done. by rewrite Hm.
Qed.
Lemma network_idem s v : network s = Ok v → network v = Ok v.
Proof.
  unfold network at 1. cbv zeta. destruct (negb _).
  - destruct (Netip.ParseAddr s) as [a|] eqn:Ea; [|done]. case_bool_decide as Hz; [|done]. intros [= <-].
    destruct (Masters.Unmap_range a (Masters.ParseAddr_range _ _ Ea)) as (Hr & Hz' & _). apply network_prefix; [done|auto| |by apply Masked_whole].
    split; [|lia]. destruct (Netip.Unmap a); cbn [Netip.BitLen]; lia.
  - destruct (Netip.ParsePrefix s) as [[a n]|] eqn:Ea; [|done]. intros [= <-]. apply ParsePrefix_inv in Ea as (Hr & Hz & Hn).
    assert (Ha : a ≠ Netip.Invalid) by (by intros ->). destruct (Masked_range a n Hr Hn) as (Hr' & Hl & Hi). destruct (Masked_inv a n Ha) as [_ Hz'].
    assert (En : (Netip.Masked (a, n)).2 = n) by reflexivity. destruct (Netip.Masked (a, n)) as [a' n']. cbn [fst snd] in *. subst n'.
    apply network_prefix; [done|congruence|lia|done].
Qed.

(** A bare address is not read as an address with a port. *)
Lemma dot_dispatch s rest a : dot ∉ rest → Netip.parse_dispatch s rest = Some a → Netip.parseIPv6 s = Some a.
Proof.
  induction rest as [|c rest IH]; cbn [Netip.parse_dispatch]; [done|]. rewrite not_elem_of_cons. intros [Hc Hr].
  rewrite bool_decide_eq_false_2 by congruence. case_bool_decide; [done|]. case_bool_decide; [done|]. auto.
Qed.
Lemma parseIPv6_Is6 s a : Netip.parseIPv6 s = Some a → Netip.Is6 a = true.
Proof.
  unfold Netip.parseIPv6. destruct (match SplitByte "%" s with _ :: _ :: _ => _ | _ => _ end) as [s' zone]. case_bool_decide; [done|].
  destruct (if HasPrefix s' "::" then _ else _) as [ell s'']. case_bool_decide; [by intros [= <-]|].
  destruct (Netip.parse_groups 8 [] ell s'') as [[[ip ell'] rest]|]; [|done]. cbn [mbind option_bind]. destruct (negb _); [done|].
  destruct ell'; destruct (_ : bool); try done; by intros [= <-].
Qed.
Lemma Join_snoc l x (sep : str) : l ≠ [] → Join (l ++ [x]) sep = Join l sep ++ sep ++ x.
Proof. intros Hl. by rewrite Join_app. Qed.
Lemma string6_no_dot b : dot ∉ Netip.string6 b.
Proof.
  pose proof (NetipText.groups_range b) as Hg. assert (Hd : ¬ NetipText.hexc dot) by (by apply NetipText.not_hexc).
  assert (Hj : ∀ gs, Forall (λ g, 0 ≤ g < 65536) gs → dot ∉ NetipText.joined gs) by (intros gs H; by apply NetipText.joined_no).
  destruct (NetipText.string6_shape b) as [(zs & ze & _ & ->)| ->]; [|by apply Hj]. rewrite !not_elem_of_app. split; [by apply Hj, Forall_take|].
  split; [|by apply Hj, Forall_drop]. change (lit "::") with [":"%char; ":"%char]. set_solver.
Qed.
Lemma string4_no_colon b : ":"%char ∉ Netip.string4 b.
Proof.
  unfold Netip.string4. assert (Hd : ∀ ls, Forall (Forall NetipText.hexc) ls → ":"%char ∉ Join ls ".").
  { induction 1 as [|w ls Hw _ IH]; [by apply not_elem_of_nil|]. assert (Hn : ":"%char ∉ w).
    { intros H. rewrite Forall_forall in Hw. by apply Hw, NetipText.hexc_sep in H as (? & _). }
    destruct ls as [|w' ls]; [done|]. change (":"%char ∉ w ++ dot :: Join (w' :: ls) "."). rewrite not_elem_of_app, not_elem_of_cons. done. }
  apply Hd. unfold Netip.As4. rewrite map_map. apply Forall_map, Forall_true. intros k. apply NetipText.octet_text, NetipText.v4_range.
Qed.
Lemma String_no_port a : Masters.in_range a → Netip.zone_of a = [] → Netip.Is4In6 a = false → Netip.ParseAddrPort (Netip.String a) = None.
Proof.
  destruct a as [|b|b z]; [intros []| |]; intros _ Hz H4.
  { unfold Netip.ParseAddrPort. cbn [Netip.String]. by rewrite (SplitByte_nosep ":"%char) by apply string4_no_colon. }
  cbn [Netip.zone_of] in Hz. subst z. cbn [Netip.String]. rewrite H4, bool_decide_eq_true_2, app_nil_r by done.
  pose proof (NetipText.string6_text b) as Ht. pose proof (string6_no_dot b) as Hd. set (s := Netip.string6 b) in *. clearbody s.
  unfold Netip.ParseAddrPort. destruct (reverse (SplitByte ":" s)) as [|port [|h t]] eqn:E; [done..|].
  assert (Es : s = Join (reverse (h :: t)) ":" ++ ":" ++ port).
  { rewrite <- Join_snoc; [|intros H; apply (f_equal reverse) in H; by rewrite reverse_involutive in H].
    rewrite <- reverse_cons, <- E, reverse_involutive. symmetry. apply (Join_SplitByte ":"%char). }
  set (ip := Join (reverse (h :: t)) ":") in *. clearbody ip. case_bool_decide as Hne; [done|].
  assert (Hb : head ip ≠ Some "["%char).
  { intros Hh. destruct ip as [|c ip]; [done|]. injection Hh as ->. rewrite Es in Ht. inversion Ht as [|? ? Hc _]; subst. by apply NetipText.text_char_sep in Hc as (_ & _ & ? & _). }
  rewrite (bool_decide_eq_false_2 (head ip = _)) by done. cbn [andb]. destruct (Netip.parse_port port); [|done]. cbn [mbind option_bind].
  destruct (Netip.ParseAddr ip) as [a|] eqn:Ea; [|done]. cbn [mbind option_bind]. apply dot_dispatch, parseIPv6_Is6 in Ea; [|rewrite Es, not_elem_of_app in Hd; tauto].
  by rewrite Ea.
Qed.

Lemma unicast_plain a : Masters.unicast a → Masters.in_range a ∧ Netip.zone_of a = [] ∧ Netip.Is4In6 a = false.
Proof.
  destruct a as [|b|b z]; [intros []|intros [H _]; split; [exact H|done]|]. intros (H & Hz & _ & Hb). split; [exact H|]. split; [exact Hz|].
  cbn [Netip.Is4In6]. apply Z.eqb_neq. rewrite Z.shiftr_div_pow2 by lia. exact Hb.
Qed.
Lemma upstream_idem s v : upstream s = Ok v → upstream v = Ok v.
Proof.
  intros (a & p & Hf & Hu & ->)%upstream_Ok. apply upstream_Ok. destruct (unicast_plain a Hu) as (Hr & Hz & H4). exists a, p. split; [|done].
  rewrite <- (Unmap_plain a H4) at 2. destruct p as [p|]; cbn [Masters.canonical].
  - assert (1 ≤ p ≤ 65535) by (inversion Hf; subst; lia). apply fwd_port; [|done]. apply NetipText.ParseAddrPort_String; [done..|lia].
  - apply fwd_addr; [by apply String_no_port|by apply NetipText.ParseAddr_String].
Qed.

Lemma reads_idem f l out : (∀ s v, f s = Ok v → f v = Ok v ∧ addrRE v = true) → reads f l out → reads f out out.
Proof.
  intros Hf (Hl & H & Hnd). split; [by rewrite <- (Forall2_length _ _ _ H)|]. split; [|done].
  induction H as [|raw v l out Hv H IH]; [constructor|]. cbn [length] in Hl. apply NoDup_cons in Hnd as [_ Hnd]. destruct (Hf _ _ Hv) as [Hi Hs].
  constructor; [by rewrite TrimSpace_addr|]. apply IH; [lia|done].
Qed.
Lemma accepted_idem m m' : accepted m m' → accepted m' m'.
Proof.
  intros [[H1 N1] [E2 H2] H3 [E4 H4] H5 [E6 H6] [H7 N7] [E8 H8] H9].
  assert (Hne : ∀ f (l out : list str), reads f l out → l ≠ [] → out ≠ []) by (intros f l out (_ & H & _) Hn ->; by apply Forall2_nil_inv_r in H).
  assert (RL : ∀ l out, reads listenAddr l out → reads listenAddr out out) by (intros l out; apply reads_idem; intros s v Hv; split; [by apply (listenAddr_idem s)|by apply (listenAddr_safe s)]).
  assert (RN : ∀ l out, reads network l out → reads network out out) by (intros l out; apply reads_idem; intros s v Hv; split; [by apply (network_idem s)|by apply (network_safe s)]).
  constructor.
  - split; [by eapply RL|by eapply Hne].
  - split; [done|]. by rewrite E2.
  - by eapply RN.
  - split; [done|]. by rewrite E4.
  - apply upstreams_Ok. apply upstreams_Ok in H5. revert H5. apply reads_idem. intros s v Hv. split; [by apply (upstream_idem s)|by apply (upstream_safe s)].
  - split; [|done]. repeat (apply elem_of_cons in H6 as [->|H6]; [by vm_compute|]). by apply elem_of_nil in H6.
  - split; [by eapply RL|by eapply Hne].
  - split; [done|]. by rewrite E8.
  - by eapply RN.
Qed.

(** Validation is canonical: what it returns validates to itself, so the
    stored configuration is accepted again, unchanged, at the next start. *)
Theorem Validate_idempotent m v : Validate m = Ok v → Validate (vm v) = Ok v.
Proof. intros [Hk Ha]%Validate_Ok. apply Validate_Ok. split; [done|]. by eapply accepted_idem. Qed.
End Files.

(** A configuration with forwarders and a transfer peer, as given and canonical. *)
Definition conf1 : Model := mkModel
  (mkRecursor [" 10.0.0.1" : str] 5353 ["::ffff:10.1.2.3" : str; "2001:DB8::5/32" : str] ["1.1.1.1" : str; "[2606:4700::1111]:853" : str] " Validate " false)
  (mkAuthoritative ["::0" : str] 5300 ["192.0.2.77/24" : str]).
Definition conf1' : Model := mkModel
  (mkRecursor ["10.0.0.1" : str] 5353 ["10.1.2.3/32" : str; "2001:db8::/32" : str] ["1.1.1.1" : str; "[2606:4700::1111]:853" : str] "validate" false)
  (mkAuthoritative ["::" : str] 5300 ["192.0.2.0/24" : str]).
Lemma Render_faithful_witness :
  Validate (U := unicode_min) Defaults = Ok (mkValidated Defaults true) ∧ Validate (U := unicode_min) conf1 = Ok (mkValidated conf1' true) ∧
  ∃ y1 y2 c1 c2,
    RenderRecursorYAML (mkValidated Defaults true) = Ok y1 ∧ RenderRecursorYAML (mkValidated conf1' true) = Ok y2 ∧
    RenderAuthConf (mkValidated Defaults true) = Ok c1 ∧ RenderAuthConf (mkValidated conf1' true) = Ok c2 ∧
    (y1 = y2 ↔ settings (MRecursor Defaults) = settings (MRecursor conf1')) ∧ (c1 = c2 ↔ MAuthoritative Defaults = MAuthoritative conf1').
Proof.
  split; [vm_compute; reflexivity|]. split; [vm_compute; reflexivity|].
  apply (Render_faithful (U := unicode_min) Defaults conf1 (mkValidated Defaults true) (mkValidated conf1' true)); vm_compute; reflexivity.
Defined.
Lemma Validate_idempotent_witness :
  Validate (U := unicode_min) conf1 = Ok (mkValidated conf1' true) ∧ Validate (U := unicode_min) conf1' = Ok (mkValidated conf1' true).
Proof.
  assert (E : Validate (U := unicode_min) conf1 = Ok (mkValidated conf1' true)) by (vm_compute; reflexivity). split; [exact E|].
  exact (Validate_idempotent (U := unicode_min) conf1 (mkValidated conf1' true) E).
Defined.
Example RenderAuthConf_conf1 :
  RenderAuthConf (mkValidated conf1' true)
  = Ok (unlines [Header; "local-address=::" : str; "local-port=5300" : str; "allow-axfr-ips=192.0.2.0/24" : str]).
Proof. vm_compute. reflexivity. Qed.
(** An open resolver is refused until it is confirmed, and a forwarder on the
    loopback always. *)
Example Validate_refuses :
  let m allow ups := mkModel (mkRecursor ["::" : str] 53 ["0.0.0.0/0" : str] ups "off" allow) (MAuthoritative Defaults) in
  Validate (U := unicode_min) (m false []) = Err (FieldError "recursor.allowed_networks[0]" "0.0.0.0/0 opens the resolver to every client; set allow_open_resolver to confirm")
  ∧ is_ok (Validate (U := unicode_min) (m true [])) = true
  ∧ Validate (U := unicode_min) (m true ["::ffff:127.0.0.1" : str]) = Err (FieldError "recursor.upstream_resolvers[0]" "must be a unicast resolver address").
Proof. vm_compute. split; [reflexivity|split; reflexivity]. Qed.
End Dnsconf.
