(* ===== verification/Sha256.v ===== *)
(** * SHA-256 ([crypto/sha256] and [encoding/hex] as [dnsconf.Hash] uses them)

    The digest of FIPS 180-4 on byte strings, on 32-bit words with their
    wrap-around written out, checked on the standard's test vectors. *)
From Stdlib Require Import Ascii.
From S2P Require Import Prelude GoStrings Netip.
Local Open Scope Z_scope.

Module Sha256.

Definition w32 (x : Z) : Z := Z.land x 4294967295.
Definition add (x y : Z) : Z := w32 (x + y).
Definition rotr (n x : Z) : Z := Z.lor (Z.shiftr x n) (w32 (Z.shiftl x (32 - n))).
Definition not32 (x : Z) : Z := Z.lxor x 4294967295.

Definition Ch (x y z : Z) : Z := Z.lxor (Z.land x y) (Z.land (not32 x) z).
Definition Maj (x y z : Z) : Z := Z.lxor (Z.lxor (Z.land x y) (Z.land x z)) (Z.land y z).
Definition Sigma0 (x : Z) : Z := Z.lxor (Z.lxor (rotr 2 x) (rotr 13 x)) (rotr 22 x).
Definition Sigma1 (x : Z) : Z := Z.lxor (Z.lxor (rotr 6 x) (rotr 11 x)) (rotr 25 x).
Definition sigma0 (x : Z) : Z := Z.lxor (Z.lxor (rotr 7 x) (rotr 18 x)) (Z.shiftr x 3).
Definition sigma1 (x : Z) : Z := Z.lxor (Z.lxor (rotr 17 x) (rotr 19 x)) (Z.shiftr x 10).

(** The constants are the first 32 bits of the fractional parts of the roots of the
    first primes: cube roots for the rounds, square roots for the initial value. *)
Definition prime (n : Z) : bool := forallb (λ d, negb (n mod Z.of_nat d =? 0)) (seq 2 (Z.to_nat n - 2)).
Definition primes (bound : nat) : list Z := List.filter prime (map Z.of_nat (seq 2 (bound - 2))).
(** The integer cube root, bit by bit from [2 ^ n] down. *)
Fixpoint cbrt (n : nat) (x r : Z) : Z :=
  let r' := let t := r + 2 ^ Z.of_nat n in if t * t * t <=? x then t else r in
  match n with O => r' | S n => cbrt n x r' end.
Definition K : list Z := Eval vm_compute in map (λ p, w32 (cbrt 36 (p * 2 ^ 96) 0)) (primes 312).
Definition H0 : list Z := Eval vm_compute in map (λ p, w32 (Z.sqrt (p * 2 ^ 64))) (primes 20).
Example constants : length K = 64%nat ∧ head K = Some 0x428a2f98 ∧ last K = Some 0xc67178f2 ∧ length H0 = 8%nat.
Proof. by vm_compute. Qed.

(** ** Blocks of sixteen words *)

Definition be64 (n : Z) : list Z := map (λ k, Z.land (Z.shiftr n (8 * k)) 255) [7; 6; 5; 4; 3; 2; 1; 0].
Definition pad (m : list Z) : list Z :=
  let n := Z.of_nat (length m) in
  m ++ [128] ++ replicate (Z.to_nat ((55 - n) mod 64)) 0 ++ be64 (8 * n).
Fixpoint words (bytes : list Z) : list Z :=
  match bytes with
  | a :: b :: c :: d :: rest => Z.lor (Z.shiftl a 24) (Z.lor (Z.shiftl b 16) (Z.lor (Z.shiftl c 8) d)) :: words rest
  | _ => []
  end.
(** The message schedule, last word first. *)
Fixpoint schedule (n : nat) (ws : list Z) : list Z :=
  match n with
  | O => ws
  | S n =>
    let at_ k := nth k ws 0 in
    schedule n (add (add (sigma1 (at_ 1%nat)) (at_ 6%nat)) (add (sigma0 (at_ 14%nat)) (at_ 15%nat)) :: ws)
  end.
Definition round (h : list Z) (kw : Z * Z) : list Z :=
  match h with
  | [a; b; c; d; e; f; g; h] =>
    let t1 := add (add (add h (Sigma1 e)) (add (Ch e f g) kw.1)) kw.2 in
    let t2 := add (Sigma0 a) (Maj a b c) in
    [add t1 t2; a; b; c; add d t1; e; f; g]
  | _ => h
  end.
Definition block (h ws : list Z) : list Z :=
  let w := reverse (schedule 48 (reverse ws)) in
  zip_with add h (fold_left round (zip K w) h).
Fixpoint blocks (n : nat) (h ws : list Z) : list Z :=
  match n with O => h | S n => blocks n (block h (take 16 ws)) (drop 16 ws) end.

Definition be32 (n : Z) : list Z := map (λ k, Z.land (Z.shiftr n (8 * k)) 255) [3; 2; 1; 0].
Definition Sum256 (m : list Z) : list Z :=
  let ws := words (pad m) in concat (map be32 (blocks (Nat.div (length ws) 16) H0 ws)).

Definition EncodeToString (bytes : list Z) : str :=
  concat (map (λ b, [Netip.hex_digit (Z.shiftr b 4); Netip.hex_digit (Z.land b 15)]) bytes).
Definition hex (s : str) : str := EncodeToString (Sum256 (map code s)).

(** ** The standard's vectors *)

Example sha256_abc : hex "abc" = "ba7816bf8f01cfea414140de5dae2223b00361a396177a9cb410ff61f20015ad".
Proof. vm_compute. reflexivity. Qed.
Example sha256_empty : hex [] = "e3b0c44298fc1c149afbf4c8996fb92427ae41e4649b934ca495991b7852b855".
Proof. vm_compute. reflexivity. Qed.
Example sha256_two_blocks :
  hex "abcdbcdecdefdefgefghfghighijhijkijkljklmklmnlmnomnopnopq" = "248d6a61d20638b8e5c026930c3e6039a33ce45964ff2167f6ecedd419db06c1".
Proof. vm_compute. reflexivity. Qed.
End Sha256.
