(* ===== verification/ConfFiles.v ===== *)
(** * The managed include files ([internal/dnsconf/files.go])

    A disk is a tree of files, the failures its next system calls will have, and
    the trees it went through.  [DiskWriter] replaces a file through a temporary
    file and a rename; the class [FileWriter] is what the configuration service is
    told about it. *)
From Stdlib Require Import Ascii.
From S2P Require Import Prelude GoStrings GoError Netip World Sha256.
Local Open Scope Z_scope.

(** ** Paths ([path/filepath] on Unix) *)

Module Filepath.
Definition slash : ascii := "/"%char.
Definition IsAbs (p : str) : bool := HasPrefix p "/".

(** The elements kept so far, last first. *)
Fixpoint clean_loop (rooted : bool) (out els : list str) : list str :=
  match els with
  | [] => reverse out
  | e :: els =>
    if bool_decide (e = []) || bool_decide (e = lit ".") then clean_loop rooted out els
    else if bool_decide (e = lit "..") then
      match out with
      | x :: out' => if bool_decide (x = lit "..") then clean_loop rooted (e :: out) els else clean_loop rooted out' els
      | [] => clean_loop rooted (if rooted then [] else [e]) els
      end
    else clean_loop rooted (e :: out) els
  end.
Definition Clean (p : str) : str :=
  let rooted := IsAbs p in
  let body := Join (clean_loop rooted [] (SplitByte slash p)) [slash] in
  if rooted then slash :: body else if bool_decide (body = []) then "." else body.

Definition Base (p : str) : str := default [] (last (SplitByte slash p)).
(** Everything up to the last slash, cleaned. *)
Definition Dir (p : str) : str := Clean (take (length p - length (Base p)) p).

Example clean_dotdot : Clean "/a/./b//../c/" = "/a/c".
Proof. reflexivity. Qed.
Example clean_relative : Clean "../x/.." = "..".
Proof. reflexivity. Qed.
Example dir_file : Dir "/etc/pdns/recursor.d/freya.yml" = "/etc/pdns/recursor.d".
Proof. reflexivity. Qed.
Example dir_root : Dir "/freya.yml" = "/".
Proof. reflexivity. Qed.
End Filepath.

Definition Hash (content : str) : str := Sha256.hex content.

(** ** The file system *)

Module Disk.
Record File := mkFile { Data : str; Mode : Z }.
Abbreviation Tree := (gmap str File).
(** A system call that fails; a write may have put down its first bytes. *)
Record Fault := mkFault { FErr : error; FDone : nat }.
Record Disk := mkDisk { tree : Tree; faults : list (option Fault); seen : list Tree }.

Definition syscall {A} (call : option Fault → Tree → A * Tree) : M Disk A := λ d,
  let '(a, t) := call (match faults d with f :: _ => f | [] => None end) (tree d) in
  (a, mkDisk t (drop 1 (faults d)) (seen d ++ [t])).
(** A call that does all of its work or none of it. *)
Definition atomically {A} (work : Tree → res A * Tree) : M Disk (res A) :=
  syscall (λ f t, match f with Some f => (Err (FErr f), t) | None => work t end).

Definition ReadFile (p : str) : M Disk (res str) :=
  atomically (λ t, (match t !! p with Some f => Ok (Data f) | None => Err (New FsErrNotExist) end, t)).

(** [os.CreateTemp] picks a name nothing has: the directory, the pattern with
    its star replaced. *)
Definition temp_prefix (dir : str) : str := (if HasSuffix dir "/" then dir else dir ++ "/") ++ ".freya-dns-".
Class TempNames := {
  temp_suffix : str → Tree → str;
  temp_fresh dir t : t !! (temp_prefix dir ++ temp_suffix dir t) = None;
  temp_base dir t : Filepath.slash ∉ temp_suffix dir t
}.
Definition CreateTemp {TN : TempNames} (dir : str) : M Disk (res str) :=
  atomically (λ t, let name := temp_prefix dir ++ temp_suffix dir t in (Ok name, <[name := mkFile [] 384]> t)).

Definition set_data (name : str) (data : str) (t : Tree) : Tree :=
  match t !! name with Some f => <[name := mkFile (Data f ++ data) (Mode f)]> t | None => t end.
Definition WriteString (name content : str) : M Disk (res unit) :=
  syscall (λ f t, match f with
    | Some f => (Err (FErr f), set_data name (take (FDone f) content) t)
    | None => (Ok (), set_data name content t)
    end).
Definition Sync : M Disk (res unit) := atomically (λ t, (Ok (), t)).
Definition Close : M Disk (res unit) := atomically (λ t, (Ok (), t)).
Definition Chmod (name : str) (mode : Z) : M Disk (res unit) :=
  atomically (λ t, match t !! name with Some f => (Ok (), <[name := mkFile (Data f) mode]> t) | None => (Err (New FsErrNotExist), t) end).
Definition Rename (name path : str) : M Disk (res unit) :=
  atomically (λ t, match t !! name with Some f => (Ok (), <[path := f]> (delete name t)) | None => (Err (New FsErrNotExist), t) end).
Definition Remove (name : str) : M Disk (res unit) :=
  atomically (λ t, match t !! name with Some _ => (Ok (), delete name t) | None => (Err (New FsErrNotExist), t) end).
End Disk.

(** ** The writer *)

Module DiskWriter.
Import Disk.
Section Writer.
Context {TN : TempNames}.

(** After the temporary file is there; it is removed at the end, whatever
    happened, when it still has its name. *)
Definition fill (name path content : str) : M Disk (res bool) :=
  w ← WriteString name content;
  match w with
  | Err e => _ ← Close; mret (Err e)
  | Ok _ =>
    s ← Sync;
    match s with
    | Err e => _ ← Close; mret (Err e)
    | Ok _ =>
      _ ←? Close;
      _ ←? Chmod name 420;
      _ ←? Rename name path;
      mret (Ok true)
    end
  end.
Definition replace (path content : str) : M Disk (res bool) :=
  name ←? CreateTemp (Filepath.Dir path);
  r ← fill name path content;
  _ ← Remove name;
  mret r.
Definition WriteIfChanged (path content : str) : M Disk (res bool) :=
  cur ← ReadFile path;
  match cur with
  | Ok cur => if bool_decide (Hash cur = Hash content) then mret (Ok false) else replace path content
  | Err e => if negb (Is e FsErrNotExist) then mret (Err e) else replace path content
  end.

(** ** Atomic replacement *)

(** The names of temporary files. *)
Definition is_temp (p : str) : bool := HasPrefix (Filepath.Base p) ".freya-dns-".

Lemma temp_is_temp dir t : is_temp (temp_prefix dir ++ temp_suffix dir t) = true.
Proof.
  assert (∃ d, temp_prefix dir = d ++ Filepath.slash :: ".freya-dns-") as [d ->].
  { unfold temp_prefix. destruct (HasSuffix dir "/") eqn:E.
    - apply HasSuffix_spec in E as [d ->]. exists d. by rewrite <- app_assoc.
    - exists dir. by rewrite <- app_assoc. }
  unfold is_temp, Filepath.Base. rewrite <- app_assoc. cbn [app]. rewrite SplitByte_app_sep, last_app.
  pose proof (temp_base dir t) as Hs. rewrite SplitByte_nosep; [|set_solver]. cbn [last default].
  unfold HasPrefix. apply bool_decide_eq_true. by exists (temp_suffix dir t).
Qed.

Definition written (content : str) : File := mkFile content 420.

Section Atomic.
Context (path content : str) (Hpath : is_temp path = false) (t0 : Tree).

(** The tree as a reader of files that are not temporary may find it: the file is
    the old one, or all of the new one, and every other file is untouched. *)
Definition near (t : Tree) : Prop :=
  (∀ p, is_temp p = false → p ≠ path → t !! p = t0 !! p) ∧ (t !! path = t0 !! path ∨ t !! path = Some (written content)).
(** The trees between two states. *)
Definition went (d d' : Disk) : Prop := ∃ new, seen d' = seen d ++ new ∧ Forall near new.
Lemma went_refl d : went d d.
Proof. exists []. by rewrite app_nil_r. Qed.
Lemma went_trans d1 d2 d3 : went d1 d2 → went d2 d3 → went d1 d3.
Proof. intros (a & Ea & Ha) (b & Eb & Hb). exists (a ++ b). rewrite Eb, Ea, app_assoc. split; [done|]. by apply Forall_app. Qed.

Lemma atomically_run {A} (work : Tree → res A * Tree) d r d' :
  atomically work d = (r, d') → near (tree d) → near (work (tree d)).2 →
  went d d' ∧ (faults d = [] → faults d' = []) ∧
  ((∃ e, r = Err e ∧ tree d' = tree d ∧ faults d ≠ []) ∨ work (tree d) = (r, tree d')).
Proof.
  unfold atomically, syscall. destruct (faults d) as [|[f|] fs] eqn:Ef; destruct (work (tree d)) as [x t] eqn:E; intros [= <- <-] Hn Hw;
    cbn [fst snd tree] in *; (split; [eexists [_]; split; [done|by constructor]|]); (split; [done|]); [by right| |by right].
  left. by eexists.
Qed.

Lemma near_start : near t0.
Proof. split; [done|by left]. Qed.
Lemma near_temp name f : is_temp name = true → near (<[name := f]> t0).
Proof. intros Hn. split; [intros p Hp _|left]; rewrite lookup_insert_ne; congruence. Qed.
Lemma near_written : near (<[path := written content]> t0).
Proof. split; [|right; apply lookup_insert_eq]. intros p _ Hne. by rewrite lookup_insert_ne. Qed.

(** The temporary file is there, the rest is as it was. *)
Definition pending (name : str) (f : File) (d : Disk) : Prop := is_temp name = true ∧ t0 !! name = None ∧ tree d = <[name := f]> t0.
Lemma pending_near name f d : pending name f d → near (tree d).
Proof. intros (Ht & _ & ->). by apply near_temp. Qed.
Lemma pending_lookup name f d : pending name f d → tree d !! name = Some f.
Proof. intros (_ & _ & ->). apply lookup_insert_eq. Qed.

(** A call that changes nothing of the tree. *)
Lemma Sync_run name f d r d' :
  pending name f d → Sync d = (r, d') → went d d' ∧ (faults d = [] → faults d' = [] ∧ r = Ok ()) ∧ pending name f d'.
Proof.
  intros Hp H. pose proof (pending_near _ _ _ Hp) as Hn. apply atomically_run in H as (W & F & H); [|done..].
  split; [done|]. destruct Hp as (Ht & H0 & Hd). unfold pending. destruct H as [(e & -> & -> & Hf)|[= <- <-]]; [by split|]. split; [auto|done].
Qed.
Lemma WriteString_run name d r d' :
  pending name (mkFile [] 384) d → WriteString name content d = (r, d') →
  went d d' ∧ (faults d = [] → faults d' = [] ∧ r = Ok ()) ∧ ∃ x, pending name (mkFile x 384) d' ∧ (r = Ok () → x = content).
Proof.
  intros Hp. pose proof (pending_lookup _ _ _ Hp) as Hl. destruct Hp as (Ht & H0 & Hd).
  unfold WriteString, syscall, set_data. rewrite Hl, Hd. cbn [Data Mode app].
  destruct (faults d) as [|[f|] fs] eqn:Ef; intros [= <- <-]; cbn [tree]; rewrite insert_insert_eq;
    (split; [eexists [_]; split; [done|]; constructor; [by apply near_temp|done]|]); (split; [done|]);
    eexists; (split; [by split_and!|done]).
Qed.
Lemma Chmod_run name x d r d' :
  pending name (mkFile x 384) d → Chmod name 420 d = (r, d') →
  went d d' ∧ (faults d = [] → faults d' = [] ∧ r = Ok ()) ∧ ∃ m, pending name (mkFile x m) d' ∧ (r = Ok () → m = 420).
Proof.
  intros Hp H. pose proof (pending_lookup _ _ _ Hp) as Hl. pose proof Hp as (Ht & H0 & Hd).
  apply atomically_run in H as (W & F & H); [|by eapply pending_near|rewrite Hl, Hd, insert_insert_eq; by apply near_temp].
  split; [done|]. destruct H as [(e & -> & Htr & Hf)|H].
  - split; [done|]. exists 384. unfold pending. by rewrite Htr.
  - rewrite Hl, Hd, insert_insert_eq in H. injection H as <- Htr. split; [auto|]. exists 420. by split.
Qed.
Lemma Rename_run name d r d' :
  pending name (written content) d → Rename name path d = (r, d') →
  went d d' ∧ (faults d = [] → faults d' = [] ∧ r = Ok ()) ∧
  ((∃ e, r = Err e) ∧ pending name (written content) d' ∨ r = Ok () ∧ tree d' = <[path := written content]> t0).
Proof.
  intros Hp H. pose proof (pending_lookup _ _ _ Hp) as Hl. pose proof Hp as (Ht & H0 & Hd).
  assert (Hdel : delete name (tree d) = t0) by (by rewrite Hd, delete_insert_id).
  apply atomically_run in H as (W & F & H); [|by eapply pending_near|rewrite Hl, Hdel; apply near_written].
  split; [done|]. destruct H as [(e & -> & Htr & Hf)|H].
  - split; [done|]. left. split; [eauto|]. unfold pending. by rewrite Htr.
  - rewrite Hl, Hdel in H. injection H as <- Htr. split; [auto|]. by right.
Qed.

Lemma fill_run name d r d' :
  pending name (mkFile [] 384) d → fill name path content d = (r, d') →
  went d d' ∧ (faults d = [] → faults d' = [] ∧ r = Ok true) ∧
  ((∃ e, r = Err e) ∧ (∃ f, pending name f d') ∨ r = Ok true ∧ tree d' = <[path := written content]> t0).
Proof.
  intros Hp H. unfold fill in H. unfold mbind at 1, M_bind at 1 in H. destruct (WriteString _ _ d) as [w d1] eqn:E1.
  apply WriteString_run in E1 as (W1 & F1 & x & P1 & X1); [|done]. destruct w as [[]|e]; cycle 1.
  { unfold mbind, M_bind in H. destruct (Close d1) as [c d2] eqn:E2. injection H as <- <-. eapply Sync_run in E2 as (W2 & F2 & P2); [|done].
    split; [by eapply went_trans|]. split; [by intros [_ [=]]%F1|]. left. eauto. }
  specialize (X1 eq_refl) as ->. unfold mbind at 1, M_bind at 1 in H. destruct (Sync d1) as [sy d2] eqn:E2.
  eapply Sync_run in E2 as (W2 & F2 & P2); [|done]. pose proof (went_trans _ _ _ W1 W2) as W12. destruct sy as [[]|e]; cycle 1.
  { unfold mbind, M_bind in H. destruct (Close d2) as [c d3] eqn:E3. injection H as <- <-. eapply Sync_run in E3 as (W3 & F3 & P3); [|done].
    split; [by eapply went_trans|]. split; [intros Hf; destruct (F1 Hf) as [Hf1 _]; by destruct (F2 Hf1)|]. left. eauto. }
  unfold try_ in H. destruct (Close d2) as [c d3] eqn:E3. eapply Sync_run in E3 as (W3 & F3 & P3); [|done].
  pose proof (went_trans _ _ _ W12 W3) as W13. destruct c as [[]|e]; cycle 1.
  { injection H as <- <-. split; [done|]. split; [|left; eauto]. intros Hf. destruct (F1 Hf) as [Hf1 _], (F2 Hf1) as [Hf2 _]. by destruct (F3 Hf2). }
  destruct (Chmod name 420 d3) as [ch d4] eqn:E4. eapply Chmod_run in E4 as (W4 & F4 & m & P4 & X4); [|done].
  pose proof (went_trans _ _ _ W13 W4) as W14. destruct ch as [[]|e]; cycle 1.
  { injection H as <- <-. split; [done|]. split; [|left; eauto]. intros Hf. destruct (F1 Hf) as [Hf1 _], (F2 Hf1) as [Hf2 _], (F3 Hf2) as [Hf3 _].
    by destruct (F4 Hf3). }
  specialize (X4 eq_refl) as ->. destruct (Rename name path d4) as [rn d5] eqn:E5. apply Rename_run in E5 as (W5 & F5 & R5); [|done].
  pose proof (went_trans _ _ _ W14 W5) as W15.
  assert (Hf : faults d = [] → faults d5 = [] ∧ rn = Ok ()).
  { intros Hf. destruct (F1 Hf) as [Hf1 _], (F2 Hf1) as [Hf2 _], (F3 Hf2) as [Hf3 _], (F4 Hf3) as [Hf4 _]. auto. }
  destruct R5 as [[[e ->] P5]|[-> R5]]; injection H as <- <-; (split; [done|]).
  - split; [intros Hf'; by destruct (Hf Hf')|]. left. eauto.
  - split; [intros Hf'; by destruct (Hf Hf')|]. by right.
Qed.

(** A whole replacement, from the tree as it was. *)
Lemma replace_run d r d' :
  tree d = t0 → replace path content d = (r, d') →
  went d d' ∧ (faults d = [] → r = Ok true) ∧
  match r with
  | Ok true => tree d' = <[path := written content]> t0
  | Ok false => False
  | Err _ => tree d' = t0 ∨ ∃ name f, is_temp name = true ∧ t0 !! name = None ∧ tree d' = <[name := f]> t0
  end.
Proof.
  intros Hd H. unfold replace, try_ in H. destruct (CreateTemp _ d) as [c d1] eqn:E1. unfold CreateTemp in E1.
  set (name := temp_prefix (Filepath.Dir path) ++ temp_suffix (Filepath.Dir path) (tree d)).
  assert (Hname : is_temp name = true) by apply temp_is_temp. assert (H0 : t0 !! name = None) by (rewrite <- Hd; apply temp_fresh).
  apply atomically_run in E1 as (W1 & F1 & E1); [|rewrite Hd; apply near_start|cbn [snd]; fold name; rewrite Hd; by apply near_temp].
  destruct E1 as [(e & -> & Ht & Hf)|E1]; [injection H as <- <-; split; [done|]; split; [done|]; left; congruence|].
  fold name in E1. injection E1 as <- Ht1. rewrite Hd in Ht1. unfold mbind, M_bind in H. destruct (fill name path content d1) as [fr d2] eqn:E2.
  apply fill_run in E2 as (W2 & F2 & R2); [|by split_and!]. pose proof (went_trans _ _ _ W1 W2) as W12.
  destruct (Remove name d2) as [rm d3] eqn:E3. injection H as <- <-. unfold Remove in E3. destruct R2 as [[[e ->] [f P2]]|[-> R2]].
  - pose proof (pending_lookup _ _ _ P2) as Hl. pose proof P2 as (_ & _ & Ht2).
    apply atomically_run in E3 as (W3 & _ & E3); [|by eapply pending_near|rewrite Hl, Ht2; cbn [snd]; rewrite delete_insert_id by done; apply near_start].
    split; [by eapply went_trans|]. split; [intros Hf; by destruct (F2 (F1 Hf))|].
    destruct E3 as [(e' & -> & Ht3 & _)|E3]; [right; exists name, f; by rewrite Ht3|]. left. rewrite Hl, Ht2, delete_insert_id in E3 by done. by injection E3.
  - assert (Hl : tree d2 !! name = None) by (rewrite R2, lookup_insert_ne by congruence; done).
    apply atomically_run in E3 as (W3 & _ & E3); [|rewrite R2; apply near_written|rewrite Hl; cbn [snd]; rewrite R2; apply near_written].
    split; [by eapply went_trans|]. split; [done|]. destruct E3 as [(e' & -> & Ht3 & _)|E3]; [congruence|]. rewrite Hl in E3. injection E3 as <- <-. done.
Qed.
End Atomic.

(** Only a missing file is reported as missing. *)
Definition disk_ok (d : Disk) : Prop := Forall (λ f, ∀ x, f = Some x → Is (FErr x) FsErrNotExist = false) (faults d).

(** What the caller is told, and the tree that goes with it. *)
Definition reported (path content : str) (d : Disk) (r : res bool) (d' : Disk) : Prop :=
  match r with
  | Ok false => tree d' = tree d ∧ ∃ f, tree d !! path = Some f ∧ Hash (Data f) = Hash content
  | Ok true => tree d' = <[path := written content]> (tree d) ∧ ∀ f, tree d !! path = Some f → Hash (Data f) ≠ Hash content
  | Err _ => tree d' = tree d ∨ ∃ name f, is_temp name = true ∧ tree d !! name = None ∧ tree d' = <[name := f]> (tree d)
  end.

Lemma WriteIfChanged_run path content d r d' :
  is_temp path = false → disk_ok d → WriteIfChanged path content d = (r, d') →
  went path content (tree d) d d' ∧ (faults d = [] → ∃ b, r = Ok b) ∧
  reported path content d r d'.
Proof.
  intros Hp Hok H. unfold WriteIfChanged in H. unfold mbind, M_bind in H. destruct (ReadFile path d) as [c d1] eqn:E1.
  assert (Hread : match c with Ok x => ∃ f, tree d !! path = Some f ∧ Data f = x | Err e => Is e FsErrNotExist = true → tree d !! path = None end).
  { unfold ReadFile, atomically, syscall in E1. unfold disk_ok in Hok. destruct (faults d) as [|[f|] fs]; injection E1 as <- _.
    - by destruct (tree d !! path) as [f|]; [exists f|].
    - apply Forall_cons in Hok as [Hf _]. by rewrite (Hf f eq_refl).
    - by destruct (tree d !! path) as [f|]; [exists f|]. }
  apply (atomically_run path content (tree d)) in E1 as (W1 & F1 & E1); [|apply near_start..].
  assert (Ht1 : tree d1 = tree d) by (destruct E1 as [(? & _ & ? & _)|E1]; [done|]; by injection E1).
  assert (Hrep : ∀ r d', replace path content d1 = (r, d') → (∀ f, tree d !! path = Some f → Hash (Data f) ≠ Hash content) →
    went path content (tree d) d d' ∧ (faults d = [] → ∃ b, r = Ok b) ∧
    reported path content d r d').
  { clear H r d'. intros r d' H Hh. apply (replace_run path content Hp (tree d)) in H as (W2 & F2 & H2); [|done].
    split; [by eapply went_trans|]. split; [eauto|]. destruct r as [[]|]; done. }
  destruct c as [cur|e].
  - destruct Hread as (f & Hf & <-). case_bool_decide as Eh.
    + injection H as <- <-. split; [done|]. split; [eauto|]. split; [done|]. eauto.
    + apply Hrep in H; [done|]. congruence.
  - destruct (Is e FsErrNotExist) eqn:Ei; cbn [negb] in H.
    + apply Hrep in H; [done|]. rewrite Hread by done. done.
    + injection H as <- <-. split; [done|]. split; [|by left]. intros Hf. destruct E1 as [(_ & _ & _ & ?)|E1]; [done|].
      destruct (tree d !! path); [done|]. injection E1 as <- _. done.
Qed.

(** C17: the managed file is replaced atomically: whatever system call fails
    and wherever the program is stopped, a reader finds under the path the old
    file or all of the new one with mode 0644, and every other file as it was.
    The call reports a write only when it left exactly the new content there, no
    write only when the file already had the content's hash, and with an error at
    most a temporary file is left behind; with no failing system call it
    succeeds. *)
Theorem WriteIfChanged_atomic path content d r d' :
  is_temp path = false → disk_ok d → WriteIfChanged path content d = (r, d') →
  (∃ new, seen d' = seen d ++ new ∧
     Forall (λ t, (t !! path = tree d !! path ∨ t !! path = Some (mkFile content 420)) ∧
                  ∀ p, is_temp p = false → p ≠ path → t !! p = tree d !! p) new) ∧
  (faults d = [] → ∃ b, r = Ok b) ∧
  match r with
  | Ok false => tree d' = tree d ∧ ∃ f, tree d !! path = Some f ∧ Hash (Data f) = Hash content
  | Ok true => tree d' = <[path := mkFile content 420]> (tree d) ∧ ∀ f, tree d !! path = Some f → Hash (Data f) ≠ Hash content
  | Err _ => tree d' = tree d ∨ ∃ name f, is_temp name = true ∧ tree d !! name = None ∧ tree d' = <[name := f]> (tree d)
  end.
Proof.
  intros Hp Hok H. apply WriteIfChanged_run in H as ((new & Hs & Hn) & Hf & Hr); [|done..]. split; [|done].
  exists new. split; [done|]. eapply Forall_impl; [exact Hn|]. by intros t [H1 H2].
Qed.
End Writer.
End DiskWriter.

(** ** The [FileWriter] interface *)

(** The files a writer manages, by path; the writer's own temporary names are not
    among them. *)
Class FileWriter (F : Type) := {
  fw_files : F → gmap str str;
  fw_ok : F → Prop;
  fw_managed : str → bool;
  fw_WriteIfChanged : str → str → F → res bool * F;
  fw_law path content f r f' :
    fw_managed path = true → fw_ok f → fw_WriteIfChanged path content f = (r, f') →
    fw_ok f' ∧
    match r with
    | Ok false => fw_files f' = fw_files f ∧ ∃ cur, fw_files f !! path = Some cur ∧ Hash cur = Hash content
    | Ok true => fw_files f' = <[path := content]> (fw_files f) ∧ ∀ cur, fw_files f !! path = Some cur → Hash cur ≠ Hash content
    | Err _ => fw_files f' = fw_files f
    end
}.

Module DiskFiles.
Import Disk DiskWriter.
Definition files (d : Disk) : gmap str str := Data <$> filter (λ pf, is_temp pf.1 = false) (tree d).
Definition managed (p : str) : bool := negb (is_temp p).

Lemma files_lookup d p c : files d !! p = Some c ↔ is_temp p = false ∧ ∃ f, tree d !! p = Some f ∧ Data f = c.
Proof.
  unfold files. rewrite lookup_fmap, fmap_Some. setoid_rewrite map_lookup_filter_Some. simpl. naive_solver.
Qed.
Lemma files_written d d' path content :
  is_temp path = false → tree d' = <[path := written content]> (tree d) → files d' = <[path := content]> (files d).
Proof.
  intros Hp Ht. unfold files. rewrite Ht, map_filter_insert_True by done. by rewrite fmap_insert.
Qed.
Lemma files_temp d d' name f :
  is_temp name = true → tree d !! name = None → tree d' = <[name := f]> (tree d) → files d' = files d.
Proof.
  intros Hn H0 Ht. unfold files. rewrite Ht, map_filter_insert_not'; [done|simpl; congruence|]. intros y Hy. congruence.
Qed.

(** The failures that are left are a part of those there were. *)
Lemma WriteIfChanged_ok {TN : TempNames} path content d : disk_ok d → disk_ok (WriteIfChanged path content d).2.
Proof.
  assert (Hsys : ∀ A (c : option Fault → Tree → A * Tree) d, disk_ok d → disk_ok (syscall c d).2).
  { clear d. intros A c d Hd. unfold syscall. destruct (c _ _). unfold disk_ok in *. simpl. by apply Forall_drop. }
  assert (Hbind : ∀ A B (m : M Disk A) (k : A → M Disk B), (∀ d, disk_ok d → disk_ok (m d).2) → (∀ a d, disk_ok d → disk_ok (k a d).2) →
    ∀ d, disk_ok d → disk_ok ((m ≫= k) d).2).
  { intros A B m k Hm Hk d0 Hd. unfold mbind, M_bind. specialize (Hm d0 Hd). destruct (m d0). by apply Hk. }
  assert (Htry : ∀ A B (m : M Disk (res A)) (k : A → M Disk (res B)), (∀ d, disk_ok d → disk_ok (m d).2) → (∀ a d, disk_ok d → disk_ok (k a d).2) →
    ∀ d, disk_ok d → disk_ok ((try_ m k) d).2).
  { intros A B m k Hm Hk d0 Hd. unfold try_. specialize (Hm d0 Hd). destruct (m d0) as [[a|e] d1]; [by apply Hk|done]. }
  assert (Hrep : ∀ d, disk_ok d → disk_ok (replace path content d).2).
  { apply Htry; [apply Hsys|]. intros name. apply Hbind; [|intros ?; apply Hbind; [apply Hsys|done]].
    apply Hbind; [apply Hsys|]. intros [[]|e]; [|apply Hbind; [apply Hsys|done]].
    apply Hbind; [apply Hsys|]. intros [[]|e]; [|apply Hbind; [apply Hsys|done]].
    apply Htry; [apply Hsys|]. intros _. apply Htry; [apply Hsys|]. intros _. apply Htry; [apply Hsys|done]. }
  revert d. apply Hbind; [apply Hsys|]. intros [cur|e] d Hd; [case_bool_decide|destruct (negb _)]; auto.
Qed.

#[global] Instance disk_writer {TN : TempNames} : FileWriter Disk.
Proof.
  refine {| fw_files := files; fw_ok := disk_ok; fw_managed := managed; fw_WriteIfChanged := WriteIfChanged |}.
  intros path content d r d' Hm Hok H. apply negb_true_iff in Hm.
  split; [pose proof (WriteIfChanged_ok path content d Hok) as Ho; by rewrite H in Ho|].
  apply WriteIfChanged_run in H as (_ & _ & H); [|done..]. unfold reported in H. destruct r as [[]|e].
  - destruct H as [Ht Hh]. split; [by apply files_written|]. intros cur (_ & f & Hf & <-)%files_lookup. auto.
  - destruct H as [Ht (f & Hf & Hh)]. split; [unfold files; by rewrite Ht|]. exists (Data f). split; [|done]. apply files_lookup. eauto.
  - destruct H as [Ht|(name & f & Hn & H0 & Ht)]; [unfold files; by rewrite Ht|by eapply files_temp].
Defined.
End DiskFiles.

(** ** A concrete disk *)

Module ConcreteDisk.
Import Disk DiskWriter.
(** Longer than every name there is. *)
Definition temps : TempNames.
Proof.
  refine {| temp_suffix dir t := replicate (Datatypes.S (fold_right Nat.max 0%nat (map (λ pf, length pf.1) (map_to_list t)))) "x"%char |}.
  - intros dir t. destruct (t !! _) as [f|] eqn:E; [|done]. exfalso. apply elem_of_map_to_list in E.
    assert (Hle : ∀ l (p : str) (g : File), (p, g) ∈ l → (length p ≤ fold_right Nat.max 0 (map (λ pf, length pf.1) l))%nat).
    { clear. induction l as [|[q h] l IH]; intros p g Hin; [by apply elem_of_nil in Hin|]. cbn [map fold_right fst].
      apply elem_of_cons in Hin as [[= -> ->]|Hin]; [lia|]. specialize (IH p g Hin). lia. }
    apply Hle in E. rewrite length_app, length_replicate in E. lia.
  - intros dir t [? _]%elem_of_replicate. done.
Defined.
#[local] Existing Instance temps.

Definition disk0 : Disk := mkDisk {[ ("/etc/freya.yml" : str) := mkFile "old" 420 ]} [] [].
Lemma WriteIfChanged_atomic_witness :
  (WriteIfChanged "/etc/freya.yml" "new" disk0).1 = Ok true ∧
  tree (WriteIfChanged "/etc/freya.yml" "new" disk0).2 !! ("/etc/freya.yml" : str) = Some (mkFile "new" 420).
Proof.
  destruct (WriteIfChanged "/etc/freya.yml" "new" disk0) as [r d'] eqn:E.
  assert (Hr : r = (WriteIfChanged "/etc/freya.yml" "new" disk0).1) by (rewrite E; reflexivity). vm_compute in Hr.
  pose proof (WriteIfChanged_atomic "/etc/freya.yml" "new" disk0 r d' eq_refl (Forall_nil_2 _) E) as (_ & _ & H). subst r.
  destruct H as [H _]. split; [reflexivity|]. cbn [snd]. rewrite H. apply lookup_insert_eq.
Defined.
End ConcreteDisk.
