(* ===== verification/Url.v ===== *)
(** * Path segments of URLs ([net/url] as the HTTP clients use it)

    [PathEscape] writes a segment so that nothing in it can end the segment, the
    path or the query; it loses nothing. *)
From Stdlib Require Import Ascii.
From S2P Require Import Prelude GoStrings.
Local Open Scope Z_scope.

Lemma TrimPrefix_app (p s : str) : TrimPrefix (p ++ s) p = s.
Proof. unfold TrimPrefix, HasPrefix. rewrite bool_decide_eq_true_2 by (by exists s). by rewrite drop_app_length. Qed.

Module Url.

Definition letter (c : ascii) : bool := ((65 <=? code c) && (code c <=? 90)) || ((97 <=? code c) && (code c <=? 122)).
Definition alnum (c : ascii) : bool := digit c || letter c.
(** [shouldEscape] for a path segment. *)
Definition shouldEscape (c : ascii) : bool :=
  negb (alnum c || bool_decide (c ∈ (lit "-_.~$&+:=@"))).

Definition upperhex (x : Z) : ascii := chr (if x <? 10 then 48 + x else 55 + x).
Definition percent : ascii := "%"%char.
Definition escape_byte (c : ascii) : str :=
  if shouldEscape c then [percent; upperhex (Z.shiftr (code c) 4); upperhex (Z.land (code c) 15)] else [c].
Definition PathEscape (s : str) : str := concat (map escape_byte s).

(** What a server makes of a segment. *)
Definition unhex (c : ascii) : Z := if digit c then code c - 48 else code c - 55.
Fixpoint PathUnescape (s : str) : str :=
  match s with
  | [] => []
  | c :: s =>
    if bool_decide (c = percent) then
      match s with a :: b :: s => chr (16 * unhex a + unhex b) :: PathUnescape s | _ => c :: s end
    else c :: PathUnescape s
  end.

(** What is not escaped is neither a percent sign nor one of the separators. *)
Definition plain (c : ascii) : bool := alnum c || bool_decide (c ∈ (lit "-_.~$&+:=@")).

Lemma escape_byte_plain c : Forall (λ x, plain x || bool_decide (x = percent) = true) (escape_byte c).
Proof.
  apply forallb_Forall. revert c. by_bytes.
Qed.
Lemma PathEscape_plain s : Forall (λ x, plain x || bool_decide (x = percent) = true) (PathEscape s).
Proof. unfold PathEscape. apply Forall_concat, Forall_map, Forall_true. apply escape_byte_plain. Qed.
(** An escaped segment has no slash, no question mark and no number sign. *)
Lemma PathEscape_no_separator s c : c ∈ (lit "/?#;, ") → c ∉ PathEscape s.
Proof.
  intros Hc Hin. pose proof (PathEscape_plain s) as H. rewrite Forall_forall in H. specialize (H c Hin).
  revert c Hc Hin H.
  assert (Hb : ∀ c, negb (bool_decide (c ∈ lit "/?#;, ")) || negb (plain c || bool_decide (c = percent)) = true) by by_bytes.
  intros c Hc _ H. specialize (Hb c). rewrite H, bool_decide_eq_true_2 in Hb by done. done.
Qed.

Lemma unescape_byte c s : PathUnescape (escape_byte c ++ s) = c :: PathUnescape s.
Proof.
  unfold escape_byte. destruct (shouldEscape c) eqn:E; cbn [app PathUnescape].
  - rewrite bool_decide_eq_true_2 by done. f_equal. clear E s. revert c.
    assert (H : ∀ c, bool_decide (chr (16 * unhex (upperhex (Z.shiftr (code c) 4)) + unhex (upperhex (Z.land (code c) 15))) = c) = true)
      by by_bytes.
    intros c. specialize (H c). by apply bool_decide_eq_true in H.
  - rewrite bool_decide_eq_false_2; [done|]. intros ->. by vm_compute in E.
Qed.
(** The server reads the segment back. *)
Lemma PathUnescape_PathEscape s : PathUnescape (PathEscape s) = s.
Proof. induction s as [|c s IH]; [done|]. cbn [PathEscape map concat]. rewrite unescape_byte. by rewrite <- IH at 2. Qed.
Lemma PathEscape_inj s t : PathEscape s = PathEscape t → s = t.
Proof. intros H. by rewrite <- (PathUnescape_PathEscape s), H, PathUnescape_PathEscape. Qed.
Lemma PathEscape_plain_id s : Forall (λ c, plain c = true) s → PathEscape s = s.
Proof.
  induction 1 as [|c s Hc _ IH]; [done|]. unfold PathEscape in *. cbn [map concat]. rewrite IH. unfold escape_byte, shouldEscape. fold (plain c). by rewrite Hc.
Qed.
End Url.
