(* ===== verification/ConfService.v ===== *)
(** * The server configuration service ([internal/dnsconf/docker.go], [service.go])

    The restart-only Docker client and the service that saves the configuration,
    renders it, writes the files that changed and restarts their containers.  The
    daemon behind the socket and [encoding/json] are parameters; log lines are not
    modelled. *)
From Stdlib Require Import Ascii.
From S2P Require Import Prelude GoStrings GoError Store Names Netip Masters NetipText Authz MemStore Pdns Recursor World Dnsconf Sha256 ConfFiles Url.
Local Open Scope Z_scope.

(** ** Restarting containers *)

Module Restart.

Definition TargetAuth : str := "auth".
Definition TargetRecursor : str := "recursor".

Definition name_byte (c : ascii) : bool := Url.alnum c || bool_decide (c ∈ (lit "_.-")).
Definition ContainerNameRE (s : str) : bool :=
  match s with c :: t => Url.alnum c && forallb name_byte t && (Z.of_nat (length t) <=? 127) | [] => false end.

(** What the service is told about a restarter: the name of a target's container,
    the containers it restarted, and that a restart restarts that container or
    nothing. *)
Class Restarter (X : Type) := {
  rs_Enabled : X → bool;
  rs_Containers : X → str → str;
  rs_Restart : str → X → (str * option error) * X;
  rs_restarted : X → list str;
  rs_law t x n e x' :
    rs_Restart t x = ((n, e), x') →
    rs_Enabled x' = rs_Enabled x ∧ rs_Containers x' = rs_Containers x ∧
    match e with
    | None => rs_Enabled x = true ∧ n = rs_Containers x t ∧ rs_restarted x' = rs_restarted x ++ [n]
    | Some _ => rs_restarted x' = rs_restarted x
    end
}.

(** *** The Docker client *)

(** One request on the socket and the status of its reply. *)
Class DockerSocket (T : Type) := socket_do : str → str → T → res Z * T.

Record DockerConfig := mkDockerConfig { DEnabled : bool; DSocket : str; DAuthContainer : str; DRecursorContainer : str }.
(** [sent] is the history of the requests made. *)
Record Docker (T : Type) := mkDocker { enabled : bool; names : str → str; socket : T; sent : list (str * str * res Z) }.
Arguments mkDocker {T}. Arguments enabled {T}. Arguments names {T}. Arguments socket {T}. Arguments sent {T}.

Definition configured (auth rec_ : str) (t : str) : str :=
  if bool_decide (t = TargetAuth) then auth else if bool_decide (t = TargetRecursor) then rec_ else [].

Section DockerClient.
Context {T : Type} {DS : DockerSocket T}.

Definition NewDocker (c : DockerConfig) (s : T) : res (Docker T) :=
  let d := mkDocker (DEnabled c) (configured (DAuthContainer c) (DRecursorContainer c)) s [] in
  if negb (DEnabled c) then Ok d
  else if negb (Filepath.IsAbs (DSocket c)) || negb (bool_decide (Filepath.Clean (DSocket c) = DSocket c))
  then Err (Plain "dnsconf: docker socket must be an absolute, clean path")
  else if negb (ContainerNameRE (DAuthContainer c)) || negb (ContainerNameRE (DRecursorContainer c))
  then Err (Plain "dnsconf: container name must match ^[a-zA-Z0-9][a-zA-Z0-9_.-]{0,127}$")
  else if bool_decide (DAuthContainer c = DRecursorContainer c) then Err (Plain "dnsconf: the two container names must differ")
  else Ok d.

Definition Containers (d : Docker T) (t : str) : str := configured (names d TargetAuth) (names d TargetRecursor) t.
Definition name (d : Docker T) (t : str) : str * bool :=
  if negb (bool_decide (t = TargetAuth)) && negb (bool_decide (t = TargetRecursor)) then ([], false)
  else let n := names d t in (n, ContainerNameRE n).
Definition restartPath (n : str) : str := "/containers/" ++ Url.PathEscape n ++ "/restart".
Definition do (method path : str) (d : Docker T) : res Z * Docker T :=
  let '(code, s) := socket_do method path (socket d) in (code, mkDocker (enabled d) (names d) s (sent d ++ [(method, path, code)])).

Definition Ping (d : Docker T) : option error * Docker T :=
  if negb (enabled d) then (Some (New ErrDisabled), d)
  else
    let '(code, d) := do "GET" "/_ping" d in
    (match code with
     | Err e => Some (Wrap2 (Plain "dnsconf: docker ping") e [])
     | Ok c => if c =? 200 then None else Some (Plain ("dnsconf: docker ping: status " ++ Itoa c))
     end, d).

Definition Restart (t : str) (d : Docker T) : (str * option error) * Docker T :=
  let '(n, ok) := name d t in
  if negb ok then (([], Some (New ErrUnknownTarget)), d)
  else if negb (enabled d) then ((n, Some (New ErrDisabled)), d)
  else
    let '(code, d) := do "POST" (restartPath n) d in
    ((n, match code with
         | Err _ => Some (Wrapf (New ErrRestart) (n ++ ": unreachable"))
         | Ok c => if c =? 204 then None
                     else if c =? 404 then Some (Wrapf (New ErrNoContainer) n)
                     else Some (Wrapf (New ErrRestart) (n ++ ": status " ++ Itoa c))
         end), d).

(** The containers whose restart the daemon confirmed. *)
Definition confirmed (r : str * str * res Z) : option str :=
  let '(m, p, code) := r in
  if bool_decide (m = "POST") && bool_decide (code = Ok 204) then Some (TrimSuffix (TrimPrefix p "/containers/") "/restart") else None.
Definition restarted (d : Docker T) : list str := omap confirmed (sent d).
End DockerClient.

(** *** The in-memory restarter, and none *)

Record Fake := mkFake { fenabled : bool; frestarts : list str; ffailNext : option error }.
Definition NewFake (enabled : bool) : Fake := mkFake enabled [] None.
Definition FailNext (e : error) (f : Fake) : Fake := mkFake (fenabled f) (frestarts f) (Some e).
Definition fakeContainers (_ : Fake) : str → str := configured "freya-pdns-auth" "freya-pdns-recursor".
Definition fakeRestart (t : str) (f : Fake) : (str * option error) * Fake :=
  if negb (bool_decide (t ∈ [TargetAuth; TargetRecursor])) then (([], Some (New ErrUnknownTarget)), f)
  else
    let n := fakeContainers f t in
    if negb (fenabled f) then ((n, Some (New ErrDisabled)), f)
    else match ffailNext f with
    | Some e => ((n, Some e), mkFake (fenabled f) (frestarts f) None)
    | None => ((n, None), mkFake (fenabled f) (frestarts f ++ [n]) None)
    end.

Inductive disabled := Disabled.
Definition disabledRestart (_ : str) (x : disabled) : (str * option error) * disabled := (([], Some (New ErrDisabled)), x).
End Restart.

(** ** The service *)

Module ConfService.
Import Store Dnsconf.

Definition ServerRecursor : str := "recursor".
Definition ServerAuthoritative : str := "authoritative".
Definition ConfigUpdate : str := "config.update".
Definition ConfigApply : str := "config.apply".
Definition ConfigRestart : str := "config.restart".
Definition SubjectConfig : str := "config".
Definition SubjectContainer : str := "container".

(** [encoding/json] on the two sections. *)
Class ConfigJSON := {
  MarshalRecursor : Recursor → str;
  UnmarshalRecursor : str → res Recursor;
  MarshalAuthoritative : Authoritative → str;
  UnmarshalAuthoritative : str → res Authoritative
}.

Record ServerError := mkServerError { SEServer : str; SEReason : str }.
Record Result := mkResult {
  ResModel : Model; Changed : list str; Restarted : list str; RestartRequired : list str; Errors : list ServerError
}.
Record View := mkView { VModel : Model; VDefaults : bool; VEnabled : bool; VAuth : str; VRecursor : str }.

(** The wiring: the checker, whether a resolver re-sync is wired, the paths. *)
Record Config := mkConfig { cChecker : option Authz.Checker; cReconcile : bool; cRecursorPath : str; cAuthPath : str }.

(** What the service acts on. [e_resyncs] counts the calls of [Reconcile]. *)
Record Env (S F X : Type) := mkEnv {
  e_store : S; e_files : F; e_restarter : X; e_audit : list AuditEvent.Event; e_metrics : list (str * str); e_resyncs : nat; e_now : time
}.
Arguments mkEnv {S F X}. Arguments e_store {S F X}. Arguments e_files {S F X}. Arguments e_restarter {S F X}.
Arguments e_audit {S F X}. Arguments e_metrics {S F X}. Arguments e_resyncs {S F X}. Arguments e_now {S F X}.

Section Service.
Context {U : Unicode} {JS : ConfigJSON}.
Context {S F X : Type} {RS : MemStore.RepoStore S} {FW : FileWriter F} {RX : Restart.Restarter X}.
Context (cfg : Config).
Abbreviation E := (Env S F X).

Definition on_store {A} (op : S → res A * S) : M E (res A) := λ w,
  let '(r, s) := op (e_store w) in (r, mkEnv s (e_files w) (e_restarter w) (e_audit w) (e_metrics w) (e_resyncs w) (e_now w)).
Definition on_files {A} (op : F → res A * F) : M E (res A) := λ w,
  let '(r, f) := op (e_files w) in (r, mkEnv (e_store w) f (e_restarter w) (e_audit w) (e_metrics w) (e_resyncs w) (e_now w)).
Definition on_restarter {A} (op : X → A * X) : M E A := λ w,
  let '(r, x) := op (e_restarter w) in (r, mkEnv (e_store w) (e_files w) x (e_audit w) (e_metrics w) (e_resyncs w) (e_now w)).
Definition record_audit (e : AuditEvent.Event) : M E unit := λ w,
  ((), mkEnv (e_store w) (e_files w) (e_restarter w) (e_audit w ++ [e]) (e_metrics w) (e_resyncs w) (e_now w)).
Definition metric (target result : str) : M E unit := λ w,
  ((), mkEnv (e_store w) (e_files w) (e_restarter w) (e_audit w) (e_metrics w ++ [(target, result)]) (e_resyncs w) (e_now w)).
Definition reconcile : M E unit := λ w,
  ((), mkEnv (e_store w) (e_files w) (e_restarter w) (e_audit w) (e_metrics w) (Datatypes.S (e_resyncs w)) (e_now w)).
Definition now : M E time := λ w, (e_now w, w).

Definition authorize (subj : Authz.Subjects) : res unit :=
  _ ← Authz.RequirePlatformAdmin subj;
  match cChecker cfg with Some c => Authz.Require_ (Some c) subj Authz.ConfigManage | None => Ok () end.

Definition emit (subj : Authz.Subjects) (t kind id outcome reason : str) (details : list (str * str)) : M E unit :=
  record_audit (AuditEvent.mkEvent NilTenant t (AuditEvent.ActorOf (Authz.ActorKind subj)) (Authz.ActorID subj) kind id outcome reason details).

(** The saved model and whether there is one. *)
Definition stored : M E (res (Model * bool)) :=
  row ← on_store MemStore.repo_GetServerConfig;
  mret match row with
  | Err e => if Is e RepoErrNotFound then Ok (Defaults, false) else Err e
  | Ok row =>
    match UnmarshalRecursor (ScRecursor row) with
    | Err e => Err (Wrap2 (Plain "dnsconf: stored recursor section") e [])
    | Ok r =>
      match UnmarshalAuthoritative (ScAuthoritative row) with
      | Err e => Err (Wrap2 (Plain "dnsconf: stored authoritative section") e [])
      | Ok a => Ok (mkModel r a, true)
      end
    end
  end.

Definition Get (subj : Authz.Subjects) : M E (res View) :=
  match authorize subj with
  | Err e => mret (Err e)
  | Ok _ =>
    x ←? stored;
    let '(m, saved) := x in
    let m := match Validate m with Ok v => vm v | Err _ => m end in
    view ← on_restarter (λ x, ((Restart.rs_Enabled x, Restart.rs_Containers x), x));
    mret (Ok (mkView m (negb saved) view.1 (view.2 Restart.TargetAuth) (view.2 Restart.TargetRecursor)))
  end.

(** *** Applying *)

Record server := mkServer { sname : str; spath : str; starget : str; srender : Validated → res str }.

(** The result so far is threaded through; the container's name and whether it
    was restarted. *)
Definition restart (subj : Authz.Subjects) (sv : server) (r : Result) : M E (Result * bool) :=
  view ← on_restarter (λ x, ((Restart.rs_Enabled x, Restart.rs_Containers x (starget sv)), x));
  let '(enabled, n) := view in
  if negb enabled
  then mret (mkResult (ResModel r) (Changed r) (Restarted r) (RestartRequired r ++ [n]) (Errors r), false)
  else
    x ← on_restarter (Restart.rs_Restart (starget sv));
    let '(n, e) := x in
    match e with
    | Some _ =>
      _ ← emit subj ConfigRestart SubjectContainer n AuditEvent.OutcomeError "restart_failed" [("server" : str, sname sv)];
      _ ← metric (starget sv) Metrics.ResultError;
      mret (mkResult (ResModel r) (Changed r) (Restarted r) (RestartRequired r ++ [n]) (Errors r ++ [mkServerError (sname sv) "restart_failed"]), false)
    | None =>
      _ ← emit subj ConfigRestart SubjectContainer n AuditEvent.OutcomeOK [] [("server" : str, sname sv)];
      _ ← metric (starget sv) Metrics.ResultOK;
      mret (mkResult (ResModel r) (Changed r) (Restarted r ++ [n]) (RestartRequired r) (Errors r), true)
    end.

Definition noted (r : Result) (server reason : str) : Result :=
  mkResult (ResModel r) (Changed r) (Restarted r) (RestartRequired r) (Errors r ++ [mkServerError server reason]).
Definition changed (r : Result) (server : str) : Result :=
  mkResult (ResModel r) (Changed r ++ [server]) (Restarted r) (RestartRequired r) (Errors r).

(** One server: its content, the result, and whether the resolver restarted. *)
Definition apply_one (subj : Authz.Subjects) (v : Validated) (report : bool) (sv : server) (r : Result) (again : bool) : M E (res (str * Result * bool)) :=
  match srender sv v with
  | Err e => mret (Err e)
  | Ok content =>
    if bool_decide (spath sv = [])
    then mret (Ok (content, if report then noted r (sname sv) "not_managed" else r, again))
    else
      w ← on_files (fw_WriteIfChanged (spath sv) content);
      match w with
      | Err _ => mret (Ok (content, noted r (sname sv) "write_failed", again))
      | Ok false => mret (Ok (content, r, again))
      | Ok true =>
        x ← restart subj sv (changed r (sname sv));
        let '(r, ok) := x in
        mret (Ok (content, r, again || (ok && bool_decide (starget sv = Restart.TargetRecursor))))
      end
  end.

Definition recursor_server : server := mkServer ServerRecursor (cRecursorPath cfg) Restart.TargetRecursor RenderRecursorYAML.
Definition auth_server : server := mkServer ServerAuthoritative (cAuthPath cfg) Restart.TargetAuth RenderAuthConf.

Definition apply (subj : Authz.Subjects) (v : Validated) (report : bool) : M E (res Result) :=
  x ←? apply_one subj v report recursor_server (mkResult (vm v) [] [] [] []) false;
  let '(c1, r, again) := x in
  x ←? apply_one subj v report auth_server r again;
  let '(c2, r, again) := x in
  n ← now;
  _ ← on_store (MemStore.repo_SetConfigHashes (Hash c1) (Hash c2) n);
  _ ← (if again && cReconcile cfg then reconcile else mret ());
  _ ← emit subj ConfigApply SubjectConfig "server" (if bool_decide (Errors r = []) then AuditEvent.OutcomeOK else AuditEvent.OutcomeError) []
        [("changed" : str, Join (Changed r) ","); ("restarted" : str, Join (Restarted r) ","); ("restart_required" : str, Join (RestartRequired r) ",")];
  mret (Ok r).

Definition flag (b : bool) : str := if b then "true" else "false".
Definition Update (subj : Authz.Subjects) (m : Model) : M E (res Result) :=
  match authorize subj with
  | Err e => _ ← emit subj ConfigUpdate SubjectConfig "server" AuditEvent.OutcomeRefused "forbidden" []; mret (Err e)
  | Ok _ =>
    match Validate m with
    | Err e => _ ← emit subj ConfigUpdate SubjectConfig "server" AuditEvent.OutcomeRefused "invalid_config" []; mret (Err e)
    | Ok v =>
      n ← now;
      s ← on_store (MemStore.repo_SaveServerConfig
            (mkServerConfig (MarshalRecursor (MRecursor (vm v))) (MarshalAuthoritative (MAuthoritative (vm v))) [] [] (Authz.ActorID subj) n));
      match s with
      | Err e => _ ← emit subj ConfigUpdate SubjectConfig "server" AuditEvent.OutcomeError "store" []; mret (Err e)
      | Ok _ =>
        _ ← emit subj ConfigUpdate SubjectConfig "server" AuditEvent.OutcomeOK [] [("open_resolver" : str, flag (OpenResolver v))];
        apply subj v true
      end
    end
  end.

Definition emptyResult : Result := mkResult (mkModel (mkRecursor [] 0 [] [] [] false) (mkAuthoritative [] 0 [])) [] [] [] [].
Definition Reapply : M E (res Result) :=
  x ←? stored;
  let '(m, saved) := x in
  if negb saved then mret (Ok emptyResult)
  else match Validate m with Err e => mret (Err e) | Ok v => apply (Authz.Internal []) v false end.

(** The start-up worker: [ticks] retries before the context ends. *)
Fixpoint Run (ticks : nat) : M E unit :=
  r ← Reapply;
  match r with
  | Ok _ => mret ()
  | Err e => if Is e DnsconfErrInvalid then mret () else match ticks with O => mret () | Datatypes.S ticks => Run ticks end
  end.
End Service.
End ConfService.
