(* ===== verification/ConfServiceSpec.v ===== *)
(** * Theorems about the server configuration service

    The Docker client asks for nothing but a ping and the restart of one of its
    two containers; the service writes and restarts exactly what a change calls
    for, and a start-up re-apply after a clean update does nothing. *)
From Stdlib Require Import Ascii.
From S2P Require Import Prelude GoStrings GoError Codec Store Names Netip Masters NetipText Authz MemStore Pdns Recursor World Dnsconf Sha256 ConfFiles Url ConfService.
Local Open Scope Z_scope.

(** ** Restarters *)

Module RestartSpec.
Import Restart.

Lemma name_byte_plain c : name_byte c = true → Url.plain c = true.
Proof.
  revert c. assert (H : ∀ c, negb (name_byte c) || Url.plain c = true) by by_bytes.
  intros c Hc. specialize (H c). by rewrite Hc in H.
Qed.
Lemma ContainerNameRE_plain n : ContainerNameRE n = true → Url.PathEscape n = n.
Proof.
  intros H. apply Url.PathEscape_plain_id. destruct n as [|c n]; [done|]. cbn [ContainerNameRE] in H.
  apply andb_true_iff in H as [[Hc Hn]%andb_true_iff _]. constructor; [by apply orb_true_iff; left|].
  apply forallb_Forall in Hn. eapply Forall_impl; [exact Hn|apply name_byte_plain].
Qed.

Section DockerSpec.
Context {T : Type} {DS : DockerSocket T}.

(** The two containers of a client that was built. *)
Definition docker_wf (c : DockerConfig) (d : Docker T) : Prop :=
  names d = configured (DAuthContainer c) (DRecursorContainer c) ∧ enabled d = DEnabled c ∧
  (DEnabled c = true → ContainerNameRE (DAuthContainer c) = true ∧ ContainerNameRE (DRecursorContainer c) = true ∧ DAuthContainer c ≠ DRecursorContainer c).

Lemma NewDocker_wf c s d : NewDocker c s = Ok d → docker_wf c d ∧ sent d = [] ∧ socket d = s.
Proof.
  unfold NewDocker. destruct (DEnabled c) eqn:Ee; cbn [negb]; [|intros [= <-]; split; [|done]; split_and!; cbn [names enabled]; congruence].
  case_if as E1; [done|]. case_if as E2; [done|]. case_if as E4; [done|]. apply bool_decide_eq_false in E4. intros [= <-]. apply orb_false_iff in E2 as [E2 E3].
  apply negb_false_iff in E2, E3. split; [|done]. split_and!; cbn [names enabled]; auto.
Qed.

(** What a client may ask of the daemon. *)
Definition allowed (c : DockerConfig) (r : str * str * res Z) : Prop :=
  DEnabled c = true ∧
  (r.1 = (lit "GET", lit "/_ping") ∨
   r.1 = (lit "POST", "/containers/" ++ DAuthContainer c ++ "/restart") ∨
   r.1 = (lit "POST", "/containers/" ++ DRecursorContainer c ++ "/restart")).

Inductive docker_step : Docker T → Docker T → Prop :=
  | step_restart t d : docker_step d (Restart t d).2
  | step_ping d : docker_step d (Ping d).2.

Lemma name_ok c d t n : docker_wf c d → name d t = (n, true) →
  (t = TargetAuth ∧ n = DAuthContainer c ∨ t = TargetRecursor ∧ n = DRecursorContainer c) ∧ ContainerNameRE n = true.
Proof.
  intros (Hn & _) H. unfold name in H. rewrite Hn in H. unfold configured in H.
  destruct (decide (t = TargetAuth)) as [->|H1]; [|destruct (decide (t = TargetRecursor)) as [->|H2]].
  - rewrite bool_decide_eq_true_2 in H by done. cbn in H. injection H as -> H. auto.
  - rewrite (bool_decide_eq_false_2 (TargetRecursor = TargetAuth)), (bool_decide_eq_true_2 (TargetRecursor = TargetRecursor)) in H by done.
    cbn in H. injection H as -> H. auto.
  - by rewrite !bool_decide_eq_false_2 in H by done.
Qed.

Lemma do_sent m p d code d' : do m p d = (code, d') → enabled d' = enabled d ∧ names d' = names d ∧ sent d' = sent d ++ [(m, p, code)].
Proof. unfold do. destruct (socket_do m p (socket d)). by intros [= <- <-]. Qed.

Lemma step_wf c d d' : docker_step d d' → docker_wf c d → Forall (allowed c) (sent d) → docker_wf c d' ∧ Forall (allowed c) (sent d').
Proof.
  intros Hs Hw Hf. destruct Hs as [t d|d].
  - unfold Restart. destruct (name d t) as [n ok] eqn:En. destruct ok; cbn [negb]; [|done].
    destruct (name_ok c d t n Hw En) as [Hn Hre]. destruct (enabled d) eqn:Ee; cbn [negb]; [|done].
    destruct (do _ _ d) as [code d1] eqn:Ed. apply do_sent in Ed as (E1 & E2 & E3). cbn [snd]. destruct Hw as (W1 & W2 & W3).
    split; [unfold docker_wf; by rewrite E1, E2|]. rewrite E3. apply Forall_app. split; [done|]. constructor; [|done].
    split; [congruence|]. cbn [fst]. unfold restartPath. rewrite (ContainerNameRE_plain n Hre). right. destruct Hn as [[_ ->]|[_ ->]]; auto.
  - unfold Ping. destruct (enabled d) eqn:Ee; cbn [negb]; [|done]. destruct (do _ _ d) as [code d1] eqn:Ed.
    apply do_sent in Ed as (E1 & E2 & E3). cbn [snd]. destruct Hw as (W1 & W2 & W3).
    split; [unfold docker_wf; by rewrite E1, E2|]. rewrite E3. apply Forall_app. split; [done|]. constructor; [|done].
    split; [congruence|]. by left.
Qed.


(** The client is a restarter, its disabled and its in-memory stand-ins too. *)
#[global] Instance docker_restarter : Restarter (Docker T).
Proof.
  refine {| rs_Enabled := enabled; rs_Containers := Containers; rs_Restart := Restart; rs_restarted := restarted |}.
  intros t d n e d' H. unfold Restart in H. destruct (name d t) as [n0 ok] eqn:En. destruct ok; cbn [negb] in H; [|by injection H as <- <- <-].
  destruct (enabled d) eqn:Ee; cbn [negb] in H; [|by injection H as <- <- <-]. destruct (do _ _ d) as [code d1] eqn:Ed.
  apply do_sent in Ed as (E1 & E2 & E3). injection H as <- <- <-. split; [congruence|].
  split; [unfold Containers; by rewrite E2|]. unfold name in En. case_if in En as Et; [done|]. injection En as <- Hre.
  assert (Hc : Containers d t = names d t).
  { unfold Containers, configured. case_bool_decide as H1; [by subst|]. case_bool_decide as H2; [by subst|]. done. }
  unfold restarted. rewrite E3, omap_app. cbn [omap list_omap confirmed].
  assert (Hlog : TrimSuffix (TrimPrefix (restartPath (names d t)) "/containers/") "/restart" = names d t).
  { unfold restartPath. rewrite (ContainerNameRE_plain _ Hre), TrimPrefix_app. apply TrimSuffix_app. }
  rewrite (bool_decide_eq_true_2 (lit "POST" = lit "POST")) by done. cbn [andb]. destruct code as [k|ec].
  - destruct (k =? 204) eqn:Ek.
    + apply Z.eqb_eq in Ek as ->. rewrite bool_decide_eq_true_2 by done. split_and!; [done|congruence|]. cbn. by rewrite Hlog.
    + apply Z.eqb_neq in Ek. rewrite bool_decide_eq_false_2 by congruence. cbn. rewrite app_nil_r. by destruct (k =? 404).
  - rewrite bool_decide_eq_false_2 by done. cbn. by rewrite app_nil_r.
Defined.
End DockerSpec.

#[global] Instance fake_restarter : Restarter Fake.
Proof.
  refine {| rs_Enabled := fenabled; rs_Containers := fakeContainers; rs_Restart := fakeRestart; rs_restarted := frestarts |}.
  intros t f n e f' H. unfold fakeRestart in H. case_if in H as E1; [by injection H as <- <- <-|].
  destruct (fenabled f) eqn:Ee; cbn [negb] in H; [|by injection H as <- <- <-].
  destruct (ffailNext f); injection H as <- <- <-; by split_and!.
Defined.
#[global] Instance disabled_restarter : Restarter disabled.
Proof.
  refine {| rs_Enabled _ := false; rs_Containers _ _ := []; rs_Restart := disabledRestart; rs_restarted _ := [] |}.
  intros t x n e x' H. unfold disabledRestart in H. simplify_eq. done.
Defined.
End RestartSpec.

(** ** The service *)

Module ConfServiceSpec.
Import Store Dnsconf ConfService.

(** What [encoding/json] promises on the sections of a validated model: their
    texts are plain ASCII and their ports are small. *)
Class ConfigJSONLaws {JS : ConfigJSON} : Prop := {
  json_recursor m : printable m → 1 ≤ RPort (MRecursor m) ≤ 65535 →
    UnmarshalRecursor (MarshalRecursor (MRecursor m)) = Ok (MRecursor m) ∧ MarshalRecursor (MRecursor m) ≠ [];
  json_authoritative m : printable m → 1 ≤ APort (MAuthoritative m) ≤ 65535 →
    UnmarshalAuthoritative (MarshalAuthoritative (MAuthoritative m)) = Ok (MAuthoritative m) ∧ MarshalAuthoritative (MAuthoritative m) ≠ []
}.

Section Spec.
Context {U : Unicode} {JS : ConfigJSON}.
Context {S F X : Type} {RS : MemStore.RepoStore S} {FW : FileWriter F} {RX : Restart.Restarter X}.
Context (cfg : Config).
Abbreviation E := (Env S F X).
Implicit Types w : Env S F X.

Definition db w : MemStore.DB := MemStore.repo_db (e_store w).
Definition files w : gmap str str := fw_files (e_files w).
Definition restarts w : list str := Restart.rs_restarted (e_restarter w).
Definition container w (t : str) : str := Restart.rs_Containers (e_restarter w) t.
Definition on w : bool := Restart.rs_Enabled (e_restarter w).

(** The configured paths: none of the writer's temporary names, and not the same
    file twice. *)
Definition paths_ok : Prop :=
  (cRecursorPath cfg ≠ [] → fw_managed (cRecursorPath cfg) = true) ∧ (cAuthPath cfg ≠ [] → fw_managed (cAuthPath cfg) = true) ∧
  (cRecursorPath cfg ≠ [] → cRecursorPath cfg ≠ cAuthPath cfg).

(** Only the audit trail and the metrics may differ. *)
Definition idle w w' : Prop := e_store w' = e_store w ∧ e_files w' = e_files w ∧ e_restarter w' = e_restarter w ∧ e_now w' = e_now w.

(** *** One server *)

(** What applying one server does: whether it wrote the file, the containers it
    restarted (none or the server's) and the errors it noted. *)
Definition applied (report : bool) (sv : server) (c : str) (r r' : Result) w w' : Prop :=
  ∃ (did : bool) (new : list str) (errs : list ServerError),
    Changed r' = Changed r ++ (if did then [sname sv] else []) ∧ Restarted r' = Restarted r ++ new ∧ Errors r' = Errors r ++ errs ∧
    restarts w' = restarts w ++ new ∧ files w' = (if did then <[spath sv := c]> (files w) else files w) ∧
    (did = true → spath sv ≠ [] ∧ ∀ cur, files w !! spath sv = Some cur → Hash cur ≠ Hash c) ∧
    (errs = [] → spath sv = [] ∧ report = false ∨ ∃ cur, files w' !! spath sv = Some cur ∧ Hash cur = Hash c) ∧
    (new = [] ∨ did = true ∧ new = [container w (starget sv)]) ∧
    (did = true → on w = true → errs = [] → new = [container w (starget sv)]) ∧
    (did = false → RestartRequired r' = RestartRequired r).

(** What stays through an application. *)
Definition kept w w' : Prop :=
  e_store w' = e_store w ∧ (fw_ok (e_files w) → fw_ok (e_files w')) ∧ on w' = on w ∧ container w' = container w ∧ e_now w' = e_now w.
Lemma kept_refl w : kept w w.
Proof. by split_and!. Qed.
Lemma conf_kept_trans w1 w2 w3 : kept w1 w2 → kept w2 w3 → kept w1 w3.
Proof. intros (?&?&?&?&?) (?&?&?&?&?). split_and!; [congruence|auto|congruence..]. Qed.

Lemma restart_run subj sv r w x w' :
  restart subj sv r w = (x, w') →
  kept w w' ∧ files w' = files w ∧ ResModel x.1 = ResModel r ∧ Changed x.1 = Changed r ∧
  ∃ new errs, Restarted x.1 = Restarted r ++ new ∧ Errors x.1 = Errors r ++ errs ∧ restarts w' = restarts w ++ new ∧
    (new = [] ∨ new = [container w (starget sv)]) ∧ (on w = true → errs = [] → new = [container w (starget sv)]).
Proof.
  intros H. unfold restart, on_restarter in H. unfold mbind at 1, M_bind at 1 in H. destruct (Restart.rs_Enabled (e_restarter w)) eqn:Een; cbn [negb] in H; cycle 1.
  { injection H as <- <-. split; [by split_and!|]. split_and!; [done..|]. exists [], []. rewrite !app_nil_r. split_and!; try done; [by left|].
    unfold on. simpl. congruence. }
  unfold mbind at 1, M_bind at 1 in H. cbn [e_restarter] in H. destruct (Restart.rs_Restart (starget sv) (e_restarter w)) as [[n e] x0] eqn:Er.
  apply Restart.rs_law in Er as (He & Hc & Hr). destruct e as [e|].
  - injection H as <- <-. split; [split_and!; try done; unfold on, container; simpl; congruence|]. split_and!; [done..|].
    exists [], [mkServerError (sname sv) "restart_failed"]. rewrite !app_nil_r. split_and!; try done. by left.
  - destruct Hr as (_ & Hn & Hlog). injection H as <- <-. split; [split_and!; try done; unfold on, container; simpl; congruence|].
    split_and!; [done..|]. exists [n], []. rewrite !app_nil_r. split_and!; try done; [right; by rewrite Hn|intros _ _; by rewrite Hn].
Qed.

Lemma apply_one_run subj v report sv r again w x w' c :
  fw_ok (e_files w) → (spath sv ≠ [] → fw_managed (spath sv) = true) → srender sv v = Ok c →
  apply_one subj v report sv r again w = (x, w') →
  kept w w' ∧ ∃ r' again', x = Ok (c, r', again') ∧ ResModel r' = ResModel r ∧ applied report sv c r r' w w'.
Proof.
  intros Hok Hm Hc H. unfold apply_one in H. rewrite Hc in H. case_bool_decide as Ep.
  { injection H as <- <-. split; [apply kept_refl|]. eexists _, again. split; [done|]. split; [by destruct report|].
    exists false, [], (if report then [mkServerError (sname sv) "not_managed"] else []). rewrite !app_nil_r.
    destruct report; cbn [noted Changed Restarted Errors RestartRequired]; rewrite ?app_nil_r; split_and!; try done; auto. }
  unfold mbind at 1, M_bind at 1 in H. unfold on_files in H. destruct (fw_WriteIfChanged _ _ _) as [wr f] eqn:Ew.
  apply fw_law in Ew as [Hok' Ew]; [|by apply Hm|done]. destruct wr as [[]|e].
  - unfold mbind at 1, M_bind at 1 in H. destruct (restart _ _ _ _) as [[r1 ok] w1] eqn:Er. injection H as <- <-.
    apply restart_run in Er as ((K1&K2&K3&K4&K5) & Hf & Hmod & Hch & new & errs & H1 & H2 & H3 & H4 & H5).
    split; [split_and!; [done|intros _; by apply K2|done..]|]. eexists _, _. split; [done|]. split; [done|]. destruct Ew as [Ew1 Ew2].
    exists true, new, errs. cbn [fst] in *. split_and!; try done.
    + rewrite Hf. exact Ew1.
    + intros _. right. exists c. rewrite Hf. unfold files. cbn [e_files]. rewrite Ew1. by rewrite lookup_insert_eq.
    + destruct H4 as [->|H4]; [by left|]. by right.
  - injection H as <- <-. destruct Ew as [Ew (cur & Hcur & Hh)]. split; [by split_and!|]. eexists _, _. split; [done|]. split; [done|].
    exists false, [], []. rewrite !app_nil_r. split_and!; try done; [|by left]. intros _. right. exists cur. unfold files. cbn [e_files]. by rewrite Ew.
  - injection H as <- <-. split; [by split_and!|]. eexists _, _. split; [done|]. split; [done|].
    exists false, [], [mkServerError (sname sv) "write_failed"]. cbn [noted Changed Restarted Errors RestartRequired]. rewrite !app_nil_r.
    split_and!; try done. by left.
Qed.

(** *** Both servers *)

Definition start (v : Validated) : Result := mkResult (vm v) [] [] [] [].

Lemma store_call {A} op core (r : res A) w w' :
  faithful (λ _, True) MemStore.repo_db MemStore.fault op core → ConfService.on_store op w = (r, w') →
  e_files w' = e_files w ∧ e_restarter w' = e_restarter w ∧ e_now w' = e_now w ∧
  ((∃ e, r = Err e ∧ MemStore.fault e ∧ db w' = db w) ∨ core (db w) = (r, db w')).
Proof.
  unfold ConfService.on_store. intros Hf. destruct (op (e_store w)) as [r0 st] eqn:Eo. intros [= <- <-].
  destruct (Hf _ _ _ I Eo) as [_ H]. by split_and!.
Qed.

Lemma conf_apply_run subj v report w x w' c1 c2 :
  fw_ok (e_files w) → paths_ok → RenderRecursorYAML v = Ok c1 → RenderAuthConf v = Ok c2 → apply cfg subj v report w = (x, w') →
  ∃ r1 r w1 w2, x = Ok r ∧ ResModel r = vm v ∧ applied report (recursor_server cfg) c1 (start v) r1 w w1 ∧ kept w w1 ∧
    applied report (auth_server cfg) c2 r1 r w1 w2 ∧ kept w1 w2 ∧ files w' = files w2 ∧ restarts w' = restarts w2 ∧ fw_ok (e_files w') ∧
    on w' = on w2 ∧ container w' = container w2 ∧ e_now w' = e_now w2 ∧
    (db w' = db w2 ∨ db w' = (MemStore.set_config_hashes (Hash c1) (Hash c2) (e_now w2) (db w2)).2).
Proof.
  intros Hok (Hp1 & Hp2 & Hp3) H1 H2 H. unfold apply, try_ in H. destruct (apply_one _ _ _ (recursor_server cfg) _ _ w) as [x1 w1] eqn:E1.
  eapply apply_one_run in E1 as (K1 & r1 & a1 & Ex & M1 & A1); [|done|exact Hp1|exact H1]. subst x1.
  cbv beta iota in H. destruct (apply_one subj v report (auth_server cfg) r1 a1 w1) as [x2 w2] eqn:E2.
  eapply apply_one_run in E2 as (K2 & r & a2 & Ex & M2 & A2); [|by apply K1|exact Hp2|exact H2]. subst x2. cbv beta iota in H.
  unfold now, mbind at 1, M_bind at 1 in H. unfold mbind at 1, M_bind at 1 in H. destruct (ConfService.on_store (MemStore.repo_SetConfigHashes _ _ _) w2) as [h w3] eqn:E3.
  apply (store_call _ _ _ _ _ (MemStore.repo_SetConfigHashes_ok _ _ _)) in E3 as (Hf & Hx & Hn & E3).
  exists r1, r, w1, w2. destruct K1 as (K11 & K12 & K13 & K14 & K15). destruct K2 as (K21 & K22 & K23 & K24 & K25).
  assert (Hdb : db w3 = db w2 ∨ db w3 = (MemStore.set_config_hashes (Hash c1) (Hash c2) (e_now w2) (db w2)).2).
  { destruct E3 as [(_ & _ & _ & ->)|E3]; [by left|]. right. by rewrite E3. }
  assert (x = Ok r ∧ e_store w' = e_store w3 ∧ e_files w' = e_files w3 ∧ e_restarter w' = e_restarter w3 ∧ e_now w' = e_now w3) as (-> & S4 & F4 & X4 & N4).
  { unfold mbind at 1, M_bind at 1 in H. destruct (a2 && cReconcile cfg); injection H as <- <-; by split_and!. }
  unfold files, restarts, on, container, db in *. rewrite F4, X4, S4, N4, Hf, Hx, Hn.
  split_and!; try done; [by rewrite M2|auto].
Qed.

Lemma Validate_renders m v : Validate m = Ok v → ∃ c1 c2, RenderRecursorYAML v = Ok c1 ∧ RenderAuthConf v = Ok c2.
Proof.
  intros [Hk Ha]%Validate_Ok. pose proof (accepted_printable _ _ Ha) as Hp. eexists _, _.
  split; [by apply RenderRecursorYAML_lines|by apply RenderAuthConf_lines].
Qed.

(** The server of a name, its container and its file. *)
Definition container_of w (n : str) : str := container w (if bool_decide (n = ServerRecursor) then Restart.TargetRecursor else Restart.TargetAuth).
Definition in_force (n path c : str) (r : Result) w w' : Prop :=
  (n ∈ Changed r → path ≠ [] ∧ files w' !! path = Some c ∧ ∀ cur, files w !! path = Some cur → Hash cur ≠ Hash c) ∧
  (n ∉ Changed r → files w' !! path = files w !! path) ∧
  (Errors r = [] → ∃ cur, files w' !! path = Some cur ∧ Hash cur = Hash c).

Lemma apply_two v c1 c2 r1 r w w1 w2 :
  paths_ok → applied true (recursor_server cfg) c1 (start v) r1 w w1 → kept w w1 → applied true (auth_server cfg) c2 r1 r w1 w2 →
  in_force ServerRecursor (cRecursorPath cfg) c1 r w w2 ∧ in_force ServerAuthoritative (cAuthPath cfg) c2 r w w2 ∧
  (∀ p, p ≠ cRecursorPath cfg → p ≠ cAuthPath cfg → files w2 !! p = files w !! p) ∧
  restarts w2 = restarts w ++ Restarted r ∧ (∀ n, n ∈ Restarted r → ∃ s, s ∈ Changed r ∧ n = container_of w s) ∧
  (on w = true → Errors r = [] → Restarted r = map (container_of w) (Changed r)).
Proof.
  intros (_ & _ & Hne) (d1 & n1 & e1 & C1 & R1 & X1 & L1 & F1 & D1 & I1 & N1 & O1 & _) (_ & _ & Hon & Hcont & _)
    (d2 & n2 & e2 & C2 & R2 & X2 & L2 & F2 & D2 & I2 & N2 & O2 & _).
  cbn [start Changed Restarted Errors app sname spath starget recursor_server auth_server] in *.
  rewrite C1 in C2. rewrite R1 in R2. rewrite X1 in X2. rewrite Hcont in N2, O2. rewrite Hon in O2.
  assert (Hin1 : ServerRecursor ∈ Changed r ↔ d1 = true) by (rewrite C2; destruct d1, d2; set_solver).
  assert (Hin2 : ServerAuthoritative ∈ Changed r ↔ d2 = true) by (rewrite C2; destruct d1, d2; set_solver).
  assert (Herr : Errors r = [] → e1 = [] ∧ e2 = []) by (rewrite X2; intros [-> ->]%app_nil; done).
  assert (Hp1 : files w2 !! cRecursorPath cfg = files w1 !! cRecursorPath cfg ∨ cRecursorPath cfg = []).
  { destruct (decide (cRecursorPath cfg = [])) as [|Hn]; [by right|left]. rewrite F2. destruct d2; [|done]. rewrite lookup_insert_ne; [done|]. intros Eq. apply (Hne Hn). done. }
  split_and!.
  - split_and!.
    + intros ->%Hin1. destruct (D1 eq_refl) as [Hn Hh]. split; [done|]. split; [|done]. destruct Hp1 as [->|?]; [|done]. rewrite F1. apply lookup_insert_eq.
    + intros Hn. destruct d1; [destruct Hn; by apply Hin1|]. rewrite F2, F1. destruct d2; [|done]. destruct (D2 eq_refl) as [Hn2 _].
      destruct (decide (cRecursorPath cfg = cAuthPath cfg)) as [Eq|]; [|by rewrite lookup_insert_ne].
      destruct (decide (cRecursorPath cfg = [])) as [E0|E0]; [congruence|]. by destruct (Hne E0).
    + intros [-> ->]%Herr. destruct (I1 eq_refl) as [[_ ?]|(cur & Hc & Hh)]; [done|]. exists cur. split; [|done].
      destruct Hp1 as [->|E0]; [done|]. rewrite F2. destruct d2; [|done]. destruct (D2 eq_refl) as [Hn2 _]. rewrite lookup_insert_ne; congruence.
  - split_and!.
    + intros ->%Hin2. destruct (D2 eq_refl) as [Hn Hh]. split; [done|]. split; [rewrite F2; apply lookup_insert_eq|]. intros cur Hc. apply Hh.
      rewrite F1. destruct d1; [|done]. destruct (D1 eq_refl) as [Hn1 _]. rewrite lookup_insert_ne; [done|]. by apply Hne.
    + intros Hn. destruct d2; [destruct Hn; by apply Hin2|]. rewrite F2, F1. destruct d1; [|done]. destruct (D1 eq_refl) as [Hn1 _].
      rewrite lookup_insert_ne; [done|]. by apply Hne.
    + intros [-> ->]%Herr. destruct (I2 eq_refl) as [[_ ?]|?]; done.
  - intros p Hq1 Hq2. rewrite F2, F1. destruct d1, d2; rewrite ?lookup_insert_ne; done.
  - rewrite L2, L1, R2. by rewrite app_assoc.
  - intros n. rewrite R2, C2, elem_of_app. intros [Hn|Hn].
    + destruct N1 as [->|[-> ->]]; [by apply elem_of_nil in Hn|]. apply list_elem_of_singleton in Hn as ->. exists ServerRecursor. split; [set_solver|done].
    + destruct N2 as [->|[-> ->]]; [by apply elem_of_nil in Hn|]. apply list_elem_of_singleton in Hn as ->. exists ServerAuthoritative. split; [set_solver|done].
  - intros Ho [-> ->]%Herr. rewrite R2, C2, map_app. f_equal.
    + destruct d1; [by rewrite O1|]. by destruct N1 as [->|[? _]].
    + destruct d2; [by rewrite O2|]. by destruct N2 as [->|[? _]].
Qed.

(** *** Update *)

(** The saved row holds the sections of a validated model. *)
Definition saved (v : Validated) (d : MemStore.DB) : Prop :=
  ∃ row, MemStore.config d = Some row ∧ ScRecursor row = MemStore.jsonOr (MarshalRecursor (MRecursor (vm v))) ∧
    ScAuthoritative row = MemStore.jsonOr (MarshalAuthoritative (MAuthoritative (vm v))).
Lemma saved_hashes v d h1 h2 t : saved v d → saved v (MemStore.set_config_hashes h1 h2 t d).2.
Proof. intros (row & Hr & H1 & H2). unfold MemStore.set_config_hashes. rewrite Hr. by eexists. Qed.

Lemma conf_Update_run subj m w r w' :
  fw_ok (e_files w) → paths_ok → Update cfg subj m w = (r, w') →
  (∃ e, r = Err e ∧ files w' = files w ∧ restarts w' = restarts w ∧ db w' = db w) ∨
  authorize cfg subj = Ok () ∧ ∃ v c1 c2 res r1 w0 w1 w2, Validate m = Ok v ∧ RenderRecursorYAML v = Ok c1 ∧ RenderAuthConf v = Ok c2 ∧ r = Ok res ∧
    ResModel res = vm v ∧ saved v (db w') ∧ files w0 = files w ∧ restarts w0 = restarts w ∧ on w0 = on w ∧ container w0 = container w ∧
    applied true (recursor_server cfg) c1 (start v) r1 w0 w1 ∧ kept w0 w1 ∧ applied true (auth_server cfg) c2 r1 res w1 w2 ∧
    files w' = files w2 ∧ restarts w' = restarts w2 ∧ fw_ok (e_files w').
Proof.
  intros Hok Hp H. unfold Update in H. destruct (authorize cfg subj) as [[]|e]; [|left; injection H as <- <-; by eexists].
  destruct (Validate m) as [v|e] eqn:Ev; [|left; injection H as <- <-; by eexists].
  unfold now, mbind at 1, M_bind at 1 in H. unfold mbind at 1, M_bind at 1 in H. destruct (ConfService.on_store (MemStore.repo_SaveServerConfig _) w) as [sv w0] eqn:Es.
  apply (store_call _ _ _ _ _ (MemStore.repo_SaveServerConfig_ok _)) in Es as (Hf & Hx & Hn & Es). destruct sv as [[]|e]; cycle 1.
  { left. injection H as <- <-. eexists. split; [done|]. unfold files, restarts, db in *. cbn [e_files e_restarter e_store]. rewrite Hf, Hx. split_and!; [done..|].
    destruct Es as [(_ & _ & _ & ?)|Es]; [done|]. unfold MemStore.save_server_config in Es. by destruct (MemStore.config _). }
  right. split; [done|]. destruct Es as [(? & ? & _)|Es]; [done|].
  unfold mbind at 1, M_bind at 1, emit, record_audit in H. cbv beta iota zeta in H.
  set (w0' := mkEnv _ _ _ _ _ _ _) in H.
  destruct (Validate_renders m v Ev) as (c1 & c2 & H1 & H2).
  eapply (conf_apply_run subj v true w0') in H as (r1 & res & w1 & w2 & -> & Hm & A1 & K1 & A2 & K2 & Hfi & Hre & Hok' & _ & _ & _ & Hdb); [|by rewrite <- Hf in Hok|done..].
  exists v, c1, c2, res, r1, w0', w1, w2.
  assert (files w0' = files w ∧ restarts w0' = restarts w ∧ on w0' = on w ∧ container w0' = container w) as (? & ? & ? & ?)
    by (subst w0'; unfold files, restarts, on, container; cbn [e_files e_restarter]; by rewrite Hf, Hx).
  split_and!; try done.
  assert (Hs : saved v (db w2)).
  { unfold db in *. rewrite (proj1 K2), (proj1 K1). subst w0'. cbn [e_store]. unfold MemStore.save_server_config in Es. unfold saved.
    destruct (MemStore.config _); injection Es as <-; cbn [MemStore.set_config MemStore.config]; by eexists. }
  destruct Hdb as [-> | ->]; [done|]. by apply saved_hashes.
Qed.


(** *** Start-up *)

(** A file that carries the content's hash is neither written nor is its server
    restarted; at most the writer reports a failure. *)
Lemma apply_one_idle subj v sv r again w x w' c cur :
  fw_ok (e_files w) → (spath sv ≠ [] → fw_managed (spath sv) = true) → srender sv v = Ok c →
  files w !! spath sv = Some cur → Hash cur = Hash c →
  apply_one subj v false sv r again w = (x, w') →
  fw_ok (e_files w') ∧ files w' = files w ∧ e_restarter w' = e_restarter w ∧ e_store w' = e_store w ∧ e_resyncs w' = e_resyncs w ∧
  ∃ errs, x = Ok (c, mkResult (ResModel r) (Changed r) (Restarted r) (RestartRequired r) (Errors r ++ errs), again).
Proof.
  intros Hok Hm Hc Hf Hh H. unfold apply_one in H. rewrite Hc in H. case_bool_decide as Ep.
  { injection H as <- <-. split_and!; try done. exists []. rewrite app_nil_r. by destruct r. }
  unfold mbind at 1, M_bind at 1 in H. unfold on_files in H. destruct (fw_WriteIfChanged _ _ _) as [wr f] eqn:Ew.
  apply fw_law in Ew as [Hok' Ew]; [|by apply Hm|done]. destruct wr as [[]|e].
  - destruct Ew as [_ Ew]. by destruct (Ew cur Hf).
  - destruct Ew as [Ew _]. injection H as <- <-. split_and!; try done. exists []. rewrite app_nil_r. by destruct r.
  - injection H as <- <-. split_and!; try done. by eexists.
Qed.

Context {JL : ConfigJSONLaws}.

Lemma Reapply_run v c1 c2 f1 f2 w r w' :
  fw_ok (e_files w) → paths_ok → Validate (vm v) = Ok v → RenderRecursorYAML v = Ok c1 → RenderAuthConf v = Ok c2 → saved v (db w) →
  files w !! cRecursorPath cfg = Some f1 → Hash f1 = Hash c1 → files w !! cAuthPath cfg = Some f2 → Hash f2 = Hash c2 →
  Reapply cfg w = (r, w') →
  files w' = files w ∧ restarts w' = restarts w ∧ e_resyncs w' = e_resyncs w ∧
  match r with Err e => MemStore.fault e | Ok res => ∃ errs, res = mkResult (vm v) [] [] [] errs end.
Proof.
  intros Hok (Hp1 & Hp2 & _) Hv H1 H2 (row & Hrow & HR & HA) Hf1 Hh1 Hf2 Hh2 H. unfold Reapply, try_, stored in H.
  unfold mbind at 1, M_bind at 1 in H. destruct (ConfService.on_store _ w) as [g w0] eqn:Eg.
  assert (Hres : e_resyncs w0 = e_resyncs w) by (unfold ConfService.on_store in Eg; destruct (MemStore.repo_GetServerConfig _); by injection Eg as <- <-).
  apply (store_call _ _ _ _ _ MemStore.repo_GetServerConfig_ok) in Eg as (Ef & Ex & _ & Eg).
  destruct Eg as [(e & -> & He & _)|Eg].
  { destruct (MemStore.fault_kinds e He) as [Hk _]. unfold mret, M_ret in H. rewrite Hk in H. injection H as <- <-. unfold files, restarts. by rewrite Ef, Ex. }
  destruct (Validate_Ok (vm v) v) as [Hacc _]. destruct (Hacc Hv) as [_ Ha]. pose proof (accepted_printable _ _ Ha) as Hpr.
  destruct Ha as [_ [_ Hpo1] _ _ _ _ _ [_ Hpo2] _].
  destruct (json_recursor (vm v) Hpr Hpo1) as [JR JR0]. destruct (json_authoritative (vm v) Hpr Hpo2) as [JA JA0].
  assert (Hor : ∀ s, s ≠ [] → MemStore.jsonOr s = s) by (intros s Hs; unfold MemStore.jsonOr; by rewrite bool_decide_eq_false_2).
  unfold MemStore.reading, MemStore.get_server_config in Eg. rewrite Hrow in Eg. injection Eg as <- _.
  unfold mret, M_ret in H. cbn [ScRecursor ScAuthoritative] in H. rewrite HR, HA, !(Hor _ JR0), !(Hor _ JA0), JR, JA in H. cbn [negb] in H.
  replace (mkModel (MRecursor (vm v)) (MAuthoritative (vm v))) with (vm v) in H by (by destruct (vm v)). rewrite Hv in H.
  unfold apply, try_ in H. destruct (apply_one _ _ _ (recursor_server cfg) _ _ w0) as [x1 w1] eqn:E1.
  eapply apply_one_idle in E1 as (K1 & F1 & R1 & S1 & Y1 & e1 & X1);
    [|by rewrite Ef|exact Hp1|exact H1|unfold files; rewrite Ef; exact Hf1|exact Hh1]. subst x1. cbv beta iota in H.
  destruct (apply_one _ v false (auth_server cfg) _ _ w1) as [x2 w2] eqn:E2.
  eapply apply_one_idle in E2 as (K2 & F2 & R2 & S2 & Y2 & e2 & X2);
    [|done|exact Hp2|exact H2|rewrite F1; unfold files; rewrite Ef; exact Hf2|exact Hh2]. subst x2. cbv beta iota in H.
  unfold now, mbind at 1, M_bind at 1 in H. unfold mbind at 1, M_bind at 1 in H. destruct (ConfService.on_store _ w2) as [h w3] eqn:E3.
  assert (Hres3 : e_resyncs w3 = e_resyncs w2) by (unfold ConfService.on_store in E3; destruct (MemStore.repo_SetConfigHashes _ _ _ _); by injection E3 as <- <-).
  apply (store_call _ _ _ _ _ (MemStore.repo_SetConfigHashes_ok _ _ _)) in E3 as (Ef3 & Ex3 & _).
  cbn [andb] in H. injection H as <- <-. unfold files, restarts in *. cbn [e_files e_restarter e_resyncs]. rewrite Ef3, Ex3, F2, F1, Ef, R2, R1, Ex.
  split_and!; [done..|congruence|]. by eexists.
Qed.

(** Starting up after a clean update changes nothing: the saved
    configuration reads back and validates to itself, both files already carry
    its hash, so [Reapply] writes no file, restarts no container, re-syncs nothing
    and reports no change; the only failures left are those of the store and the
    disk. *)
Theorem Reapply_idle subj m w res w1 r w2 :
  fw_ok (e_files w) → paths_ok → Update cfg subj m w = (Ok res, w1) → Errors res = [] → Reapply cfg w1 = (r, w2) →
  files w2 = files w1 ∧ restarts w2 = restarts w1 ∧ e_resyncs w2 = e_resyncs w1 ∧
  match r with
  | Err e => MemStore.fault e
  | Ok res' => ResModel res' = ResModel res ∧ Changed res' = [] ∧ Restarted res' = [] ∧ RestartRequired res' = []
  end.
Proof.
  intros Hok Hp H He H2. apply conf_Update_run in H as [(e & ? & _)|H]; [done| |done..].
  destruct H as (_ & v & c1 & c2 & res' & r1 & w0 & w1' & w2' & Hv & H1 & Hc2 & [= <-] & Hm & Hs & _ & _ & _ & _ & A1 & K1 & A2 & Fi & _ & Hok1).
  destruct (apply_two v c1 c2 r1 res w0 w1' w2' Hp A1 K1 A2) as ((_ & _ & I1) & (_ & _ & I2) & _).
  destruct (I1 He) as (f1 & Hf1 & Hh1), (I2 He) as (f2 & Hf2 & Hh2). rewrite <- Fi in Hf1, Hf2.
  assert (Hv' : Validate (vm v) = Ok v) by (apply Validate_Ok in Hv as [Hk Ha]; apply Validate_Ok; split; [done|]; by eapply accepted_idem).
  eapply Reapply_run in H2 as (? & ? & ? & Hr); [|done..]. split_and!; [done..|]. destruct r as [res'|]; [|done].
  destruct Hr as [errs ->]. by rewrite Hm.
Qed.
End Spec.

(** ** A concrete service *)

Module Concrete.
#[local] Existing Instance unicode_min.
#[local] Existing Instance ConcreteDisk.temps.
#[local] Existing Instance DiskFiles.disk_writer.

(** A codec of the two sections, in place of [encoding/json]. *)
#[local] Instance Recursor_eq : EqDecision Recursor. Proof. solve_decision. Defined.
#[local] Instance Authoritative_eq : EqDecision Authoritative. Proof. solve_decision. Defined.
#[local] Instance Recursor_countable : Countable Recursor :=
  inj_countable' (λ r, (RListen r, RPort r, RAllowed r, RUpstream r, RDNSSEC r, ROpen r))
    (λ '(a, b, c, d, e, f), mkRecursor a b c d e f) ltac:(by intros []).
#[local] Instance Authoritative_countable : Countable Authoritative :=
  inj_countable' (λ a, (AListen a, APort a, APeers a)) (λ '(a, b, c), mkAuthoritative a b c) ltac:(by intros []).
#[local] Instance codec : ConfigJSON :=
  {| MarshalRecursor := Codec.marshal; UnmarshalRecursor := Codec.unmarshal;
     MarshalAuthoritative := Codec.marshal; UnmarshalAuthoritative := Codec.unmarshal |}.
#[local] Instance codec_laws : ConfigJSONLaws.
Proof. split; intros; exact (conj (Codec.unmarshal_marshal _) (Codec.marshal_nonempty _)). Qed.

(** The two include directories, an administrator, and restarts that work. *)
Abbreviation W := (Env MemStore.Mem Disk.Disk Restart.Fake).
Definition cfg : Config := mkConfig None true "/etc/pdns/recursor.d/freya.yml" "/etc/pdns/pdns.d/freya.conf".
Definition admin : Authz.Subjects := Authz.User NilTenant "root" [Authz.RolePlatformAdmin].
Definition world (f : Restart.Fake) : W := mkEnv (MemStore.NewMem 50) (Disk.mkDisk ∅ [] []) f [] [] 0 100.
Definition world0 : W := world (Restart.NewFake true).
Lemma cfg_paths : paths_ok (FW := DiskFiles.disk_writer) cfg.
Proof. split_and!; intros _; vm_compute; done. Qed.
Definition after (x : res Result * W) : list str * list str * list str * list ServerError :=
  match x.1 with Ok r => (Changed r, Restarted r, RestartRequired r, Errors r) | Err _ => ([], [], [], []) end.
Lemma Update_run0 : after (Update cfg admin conf1 world0) =
  ([ServerRecursor; ServerAuthoritative], ["freya-pdns-recursor" : str; "freya-pdns-auth" : str], [], []).
Proof. vm_compute. reflexivity. Qed.


Lemma Reapply_idle_witness :
  ∃ res w1 r w2, Update cfg admin conf1 world0 = (Ok res, w1) ∧ Errors res = [] ∧ Reapply cfg w1 = (Ok r, w2) ∧ Changed r = [] ∧ files w2 = files w1.
Proof.
  pose proof Update_run0 as Ha. assert (Hk : is_ok (Reapply cfg (Update cfg admin conf1 world0).2).1 = true) by (vm_compute; reflexivity).
  destruct (Update cfg admin conf1 world0) as [r w1] eqn:E. destruct r as [res|]; [|discriminate Ha]. injection Ha as _ _ _ He. cbn [snd] in Hk.
  destruct (Reapply cfg w1) as [r w2] eqn:E2. pose proof (Reapply_idle cfg admin conf1 world0 res w1 r w2 (Forall_nil_2 _) cfg_paths E He E2) as (Hf & _ & _ & H).
  destruct r as [r|]; [|discriminate Hk]. destruct H as (_ & Hc & _). exists res, w1, r, w2. exact (conj eq_refl (conj He (conj E2 (conj Hc Hf)))).
Defined.

(** A restart that fails is not tried again: the file is on disk by then, so the
    same update sees no change, restarts nothing and no longer reports that a
    restart is required; the start-up re-apply does not either. *)
Definition world_down : W := world (Restart.FailNext (Plain "docker is down") (Restart.NewFake true)).
Example failed_restart_forgotten :
  after (Update cfg admin conf1 world_down) =
    ([ServerRecursor; ServerAuthoritative], ["freya-pdns-auth" : str], ["freya-pdns-recursor" : str], [mkServerError ServerRecursor "restart_failed"]) ∧
  after (Update cfg admin conf1 (Update cfg admin conf1 world_down).2) = ([], [], [], []) ∧
  after (Reapply cfg (Update cfg admin conf1 world_down).2) = ([], [], [], []).
Proof. vm_compute. exact (conj eq_refl (conj eq_refl eq_refl)). Qed.

(** A daemon that restarts everything it is asked to. *)
#[local] Instance obliging : Restart.DockerSocket unit := λ m _ s, (Ok (if bool_decide (m = lit "GET") then 200 else 204), s).
Definition docker_cfg : Restart.DockerConfig := Restart.mkDockerConfig true "/var/run/docker.sock" "freya-pdns-auth" "freya-pdns-recursor".
Definition docker0 : Restart.Docker unit := Restart.mkDocker true (Restart.configured "freya-pdns-auth" "freya-pdns-recursor") () [].
End Concrete.
End ConfServiceSpec.
