(* ===== verification/HttpText.v ===== *)
(** * Reply texts in errors ([sanitize] of [internal/pdns/client.go] and
    [internal/recursor/client.go])

    An HTTP client of the module puts a server's reply in its error, without the
    API key it sent, without control characters and cut short.  The file has
    [strings.Map], the two [sanitize] functions and the theorem that the key is
    gone from what they return. *)
From Stdlib Require Import Ascii.
From S2P Require Import Prelude GoStrings.
Local Open Scope Z_scope.

(** ** Runes and bytes *)

Lemma lor_ge_l a b : 0 ≤ a → 0 ≤ b → a ≤ Z.lor a b.
Proof.
  intros Ha Hb. assert (H : Z.ldiff a (Z.lor a b) = 0).
  { apply Z.bits_inj'. intros n Hn. rewrite Z.ldiff_spec, Z.lor_spec, Z.bits_0. by destruct (Z.testbit a n). }
  pose proof (Z.sub_nocarry_ldiff _ _ H) as E. assert (0 ≤ Z.ldiff (Z.lor a b) a) by (apply Z.ldiff_nonneg; left; by apply Z.lor_nonneg). lia.
Qed.
Lemma lor_ge_r a b : 0 ≤ a → 0 ≤ b → b ≤ Z.lor a b.
Proof. intros. rewrite Z.lor_comm. by apply lor_ge_l. Qed.

Lemma low6_pos c : 0 ≤ low6 c.
Proof. unfold low6. apply Z.land_nonneg. right. lia. Qed.
Lemma shiftl_pos a n : 0 ≤ a → 0 ≤ Z.shiftl a n.
Proof. intros. by apply Z.shiftl_nonneg. Qed.
#[local] Hint Resolve low6_pos shiftl_pos : core.

(** A byte with the high bit starts a rune that is not ASCII. *)
Lemma lead2_high c : lead2 c = true → 128 ≤ Z.shiftl (Z.land (code c) 31) 6.
Proof. revert c. assert (H : ∀ c, negb (lead2 c) || (128 <=? Z.shiftl (Z.land (code c) 31) 6) = true) by by_bytes. intros c Hc. specialize (H c). rewrite Hc in H. by apply Z.leb_le. Qed.
Lemma lead3_high c lo hi d : lead3 c = Some (lo, hi) → cont lo hi d = true → 128 ≤ Z.shiftl (Z.land (code c) 15) 12 ∨ 128 ≤ Z.shiftl (low6 d) 6.
Proof.
  unfold lead3. case_if as E1.
  { intros [= <- <-]. intros Hd. right. revert d Hd. assert (H : ∀ d, negb (cont 160 191 d) || (128 <=? Z.shiftl (low6 d) 6) = true) by by_bytes.
    intros d Hd. specialize (H d). rewrite Hd in H. by apply Z.leb_le. }
  intros H _. left. assert (Hc : ((225 <=? code c) && (code c <=? 239)) || (code c =? 237) = true) by (case_if in H as E2; [by rewrite ?E2, ?orb_true_r|]; case_if in H as E3; [by rewrite ?E3|done]).
  revert Hc. clear. revert c. assert (H : ∀ c, negb (((225 <=? code c) && (code c <=? 239)) || (code c =? 237)) || (128 <=? Z.shiftl (Z.land (code c) 15) 12) = true) by by_bytes.
  intros c Hc. specialize (H c). rewrite Hc in H. by apply Z.leb_le.
Qed.
Lemma lead4_high c lo hi d : lead4 c = Some (lo, hi) → cont lo hi d = true → 128 ≤ Z.shiftl (Z.land (code c) 7) 18 ∨ 128 ≤ Z.shiftl (low6 d) 12.
Proof.
  unfold lead4. case_if as E1.
  { intros [= <- <-]. intros Hd. right. revert d Hd. assert (H : ∀ d, negb (cont 144 191 d) || (128 <=? Z.shiftl (low6 d) 12) = true) by by_bytes.
    intros d Hd. specialize (H d). rewrite Hd in H. by apply Z.leb_le. }
  intros H _. left. assert (Hc : ((241 <=? code c) && (code c <=? 243)) || (code c =? 244) = true) by (case_if in H as E2; [by rewrite ?E2, ?orb_true_r|]; case_if in H as E3; [by rewrite ?E3|done]).
  revert Hc. clear. revert c. assert (H : ∀ c, negb (((241 <=? code c) && (code c <=? 243)) || (code c =? 244)) || (128 <=? Z.shiftl (Z.land (code c) 7) 18) = true) by by_bytes.
  intros c Hc. specialize (H c). rewrite Hc in H. by apply Z.leb_le.
Qed.

Lemma runes_low c s : code c < 128 → runes (c :: s) = code c :: runes s.
Proof. intros H. cbn [runes]. by rewrite (proj2 (Z.ltb_lt _ _) H). Qed.
Lemma runes_high c s : 128 ≤ code c → ∃ r n, 128 ≤ r ∧ runes (c :: s) = r :: runes (drop n s).
Proof.
  intros Hc. assert (E0 : (code c <? 128) = false) by (by apply Z.ltb_ge).
  assert (Herr : ∃ r n, 128 ≤ r ∧ RuneError :: runes s = r :: runes (drop n s)) by (by exists RuneError, 0%nat).
  cbn [runes]. rewrite E0. destruct s as [|c1 s]; [done|]. case_if as E2.
  { apply andb_true_iff in E2 as [E2 _]. apply lead2_high in E2. eexists _, 1%nat. split; [|done].
    etrans; [exact E2|]. apply lor_ge_l; [lia|done]. }
  destruct s as [|c2 s]; [done|]. case_if as E3.
  { destruct (lead3 c) as [[lo hi]|] eqn:El; [|done]. apply andb_true_iff in E3 as [E3 _].
    assert (Hp : 0 ≤ Z.shiftl (Z.land (code c) 15) 12) by (apply shiftl_pos, Z.land_nonneg; right; lia).
    eexists _, 2%nat. split; [|done]. etrans; [|apply lor_ge_l; [|done]]; [|apply Z.lor_nonneg; auto].
    destruct (lead3_high _ _ _ _ El E3); (etrans; [eassumption|]); [apply lor_ge_l|apply lor_ge_r]; auto. }
  destruct s as [|c3 s]; [done|]. case_if as E4; [|done].
  destruct (lead4 c) as [[lo hi]|] eqn:El; [|done]. apply andb_true_iff in E4 as [[E4 _]%andb_true_iff _].
  assert (Hp : 0 ≤ Z.shiftl (Z.land (code c) 7) 18) by (apply shiftl_pos, Z.land_nonneg; right; lia).
  eexists _, 3%nat. split; [|done]. etrans; [|apply lor_ge_l; [|done]]; [|apply Z.lor_nonneg; split; [apply Z.lor_nonneg|]; auto].
  etrans; [|apply lor_ge_l; [apply Z.lor_nonneg|]; auto].
  destruct (lead4_high _ _ _ _ El E4); (etrans; [eassumption|]); [apply lor_ge_l|apply lor_ge_r]; auto.
Qed.

Lemma code_chr z : 0 ≤ z < 256 → code (chr z) = z.
Proof. intros Hz. unfold code, chr. rewrite N_ascii_embedding by lia. lia. Qed.
Lemma encode_high r : 128 ≤ r → Forall (λ c, 128 ≤ code c) (encode_rune r) ∧ encode_rune r ≠ [].
Proof.
  intros Hr. assert (Ht : ∀ n, 128 ≤ code (chr (128 + Z.land (Z.shiftr r n) 63))).
  { intros n. assert (0 ≤ Z.land (Z.shiftr r n) 63 < 64) by (change 63 with (Z.ones 6); rewrite Z.land_ones by lia; apply Z.mod_pos_bound; lia).
    rewrite code_chr; lia. }
  unfold encode_rune. rewrite (proj2 (Z.ltb_ge r 128) Hr), andb_false_r. case_if as E1.
  { b2p. split; [|done]. repeat constructor; [|apply Ht].
    assert (0 ≤ Z.shiftr r 6 < 32) by (rewrite Z.shiftr_div_pow2 by lia; split; [apply Z.div_pos; lia|apply Z.div_lt_upper_bound; lia]). rewrite code_chr; lia. }
  case_if as E2; [split; [|done]; repeat constructor; by vm_compute|]. case_if as E3.
  { b2p. split; [|done]. repeat constructor; [|apply Ht..].
    assert (0 ≤ Z.shiftr r 12 < 16) by (rewrite Z.shiftr_div_pow2 by lia; split; [apply Z.div_pos; lia|apply Z.div_lt_upper_bound; lia]). rewrite code_chr; lia. }
  split; [|done]. apply orb_false_iff in E2 as [_ E2]. apply Z.ltb_ge in E2. repeat constructor; [|apply Ht..].
  assert (0 ≤ Z.shiftr r 18 < 5) by (rewrite Z.shiftr_div_pow2 by lia; split; [apply Z.div_pos; lia|apply Z.div_lt_upper_bound; lia]). rewrite code_chr; lia.
Qed.

(** [strings.Map]; bytes that are not UTF-8 become U+FFFD. *)
Definition Map (f : Z → Z) (s : str) : str := concat (map (λ r, encode_rune (f r)) (runes s)).

(** ** Sanitising *)

(** What stands for a secret that was taken out. *)
Definition mark (word : str) : str := "["%char :: word ++ "]".
Definition redacted : str := "[redacted]".
Definition blank (r : Z) : Z := if (r <? 32) || (r =? 127) then 32 else r.
(** The key replaced, control characters blanked, runs of white space joined. *)
Definition tidy (msg key : str) : str :=
  Join (Fields (Map blank (if bool_decide (key = []) then msg else ReplaceAll msg key redacted))) " ".
Definition cut (n : Z) (msg : str) : str := if n <? Z.of_nat (length msg) then take (Z.to_nat n) msg else msg.

(** A prefix of the key that is left at the end, the longest one, from [n] bytes
    down to four. *)
Fixpoint redact_tail (n : nat) (msg key : str) : str :=
  match n with
  | O => msg
  | S n' =>
    if (n <? 4)%nat then msg
    else if HasSuffix msg (take n key) then TrimSuffix msg (take n key) ++ redacted
    else redact_tail n' msg key
  end.

(** A key that can be told from the rest: printable ASCII without brackets, and no
    part of the word that replaces it. *)
Definition key_byte (c : ascii) : bool := printable c && negb (bool_decide (c ∈ lit "[]")).
Definition opaque_in (word key : str) : Prop := key ≠ [] ∧ Forall (λ c, key_byte c = true) key ∧ Contains word key = false.
Abbreviation opaque := (opaque_in "redacted").

Lemma Contains_app (s t sub : str) :
  Contains (s ++ t) sub = true → Contains t sub = true ∨ ∃ a b, s = a ++ b ∧ b ≠ [] ∧ sub `prefix_of` b ++ t.
Proof.
  intros (k1 & k2 & E)%Contains_spec. apply app_eq_inv in E as [(k & -> & E)|(k & -> & ->)].
  - destruct k as [|c k]; [left; apply Contains_spec; exists [], k2; exact (eq_sym E)|].
    right. exists k1, (c :: k). split_and!; [done..|]. by exists k2.
  - left. apply Contains_spec. by exists k, k2.
Qed.
Lemma Contains_cons c (s sub : str) : Contains (c :: s) sub = true → sub `prefix_of` c :: s ∨ Contains s sub = true.
Proof. cbn [Contains]. intros [?%bool_decide_eq_true|?]%orb_true_iff; auto. Qed.
Lemma prefix_stop (p s t : str) c : c ∉ p → p `prefix_of` s ++ c :: t → p `prefix_of` s.
Proof.
  intros Hc [k E]. apply app_eq_inv in E as [(l & -> & _)|(l & -> & E)]; [by exists l|].
  destruct l as [|d l]; [rewrite app_nil_r; done|]. injection E as <- _. destruct Hc. set_solver.
Qed.

(** The words of a text lie in it. *)
Lemma fields_inside n word s w : w ∈ fields_loop n word s → ∃ a b, reverse word ++ s = a ++ w ++ b.
Proof.
  revert word s. induction n as [|n IH]; intros word s; cbn [fields_loop].
  { case_bool_decide; [by intros ?%elem_of_nil|]. intros ->%list_elem_of_singleton. by exists [], s. }
  assert (Hrest : ∀ rest ws, (w ∈ ws → ∃ a b, rest = a ++ w ++ b) → (∃ k, s = k ++ rest) → w ∈ (if bool_decide (word = []) then ws else reverse word :: ws) →
    ∃ a b, reverse word ++ s = a ++ w ++ b).
  { intros rest ws Hw [k ->] H. assert (w = reverse word ∨ w ∈ ws) as [->|H'] by (case_bool_decide; set_solver); [by exists [], (k ++ rest)|].
    destruct (Hw H') as (a & b & ->). exists (reverse word ++ k ++ a), b. by rewrite <- !app_assoc. }
  destruct (strip_one spaces s) as [rest|] eqn:E.
  - apply (Hrest rest); [intros H; apply IH in H; done|]. unfold strip_one in E. destruct (find_first _ spaces) as [e|]; [|done]. injection E as <-.
    exists (take (length e) s). by rewrite take_drop.
  - destruct s as [|c s]; [apply (Hrest []); [by intros ?%elem_of_nil|by exists []]|]. intros H. apply IH in H as (a & b & H). exists a, b. rewrite <- H.
    by rewrite reverse_cons, <- app_assoc.
Qed.
Lemma Fields_inside s w : w ∈ Fields s → ∃ a b, s = a ++ w ++ b.
Proof. apply (fields_inside _ []). Qed.

(** *** Replacing the key *)

Section Key.
Context (word key : str) (Hkey : opaque_in word key).

Lemma key_no_bracket c : c ∈ lit "[]" → c ∉ key.
Proof.
  intros Hc Hin. destruct Hkey as (_ & Hf & _). rewrite Forall_forall in Hf. specialize (Hf c Hin).
  apply andb_true_iff in Hf as [_ Hf]. by rewrite bool_decide_eq_true_2 in Hf.
Qed.
Lemma key_open : "["%char ∉ key.
Proof. apply key_no_bracket. set_solver. Qed.
Lemma key_close : "]"%char ∉ key.
Proof. apply key_no_bracket. set_solver. Qed.
Lemma key_printable c : c ∈ key → printable c = true.
Proof. intros Hin. destruct Hkey as (_ & Hf & _). rewrite Forall_forall in Hf. specialize (Hf c Hin). by apply andb_true_iff in Hf as [? _]. Qed.

Lemma replace_prefix n s (old p : str) : "["%char ∉ p → p `prefix_of` replace_loop n s old (mark word) → p `prefix_of` s.
Proof.
  revert s p. induction n as [|n IH]; intros s p Hp; [done|]. destruct s as [|c s]; [done|]. cbn [replace_loop].
  destruct (HasPrefix (c :: s) old).
  - destruct p as [|d p]; [intros _; apply prefix_nil|]. intros [k E]. injection E as <- _. set_solver.
  - destruct p as [|d p]; [intros _; apply prefix_nil|]. intros [k E]. injection E as <- E. apply prefix_cons, IH; [set_solver|by exists k].
Qed.

Lemma key_head c s : key `prefix_of` c :: s → ∃ k, key = c :: k ∧ k `prefix_of` s.
Proof.
  destruct Hkey as [Hne _]. destruct key as [|d k]; [done|]. intros [z H]. injection H as <- H. exists k. split; [done|]. by exists z.
Qed.
Lemma key_absent_nil : Contains [] key = false.
Proof. destruct Hkey as [Hne _]. cbn. rewrite orb_false_r. apply bool_decide_eq_false. by intros ?%prefix_nil_inv. Qed.

(** Nothing of the replacement completes a key. *)
Lemma redacted_clean t : Contains t key = false → Contains (mark word ++ t) key = false.
Proof.
  intros Ht. apply not_true_iff_false. intros H. apply Contains_app in H as [H|(a & b & E & Hb & H)]; [congruence|].
  destruct a as [|x a].
  { cbn [app] in E. subst b. apply key_head in H as (k & Ek & _). apply key_open. rewrite Ek. set_solver. }
  injection E as <- E. destruct (exists_last Hb) as (b' & y & ->). rewrite app_assoc in E. apply app_inj_tail in E as [E <-]. rewrite <- app_assoc in H. cbn [app] in H.
  apply prefix_stop in H; [|apply key_close]. destruct Hkey as (_ & _ & Hr). apply not_true_iff_false in Hr. apply Hr. apply Contains_spec.
  destruct H as [z ->]. exists a, z. by rewrite E.
Qed.

Lemma replace_clean n s : (length s ≤ n)%nat → Contains (replace_loop n s key (mark word)) key = false.
Proof.
  revert s. induction n as [|n IH]; intros s Hn; (destruct s as [|c s]; [apply key_absent_nil|]); [simpl in Hn; lia|].
  cbn [replace_loop]. destruct (HasPrefix (c :: s) key) eqn:Ep.
  - apply redacted_clean, IH. apply bool_decide_eq_true, key_head in Ep as (k & -> & _). rewrite length_drop. simpl in *. lia.
  - apply not_true_iff_false. intros [H|H]%Contains_cons; [|by rewrite IH in H by (simpl in Hn; lia)].
    apply bool_decide_eq_false in Ep. apply Ep. apply key_head in H as (k & Ek & H). pose proof key_open as Ho. rewrite Ek in Ho |- *.
    apply prefix_cons, (replace_prefix n _ key); [set_solver|done].
Qed.

(** Taking another text out brings no key back. *)
Lemma replace_keeps n s old : Contains s key = false → Contains (replace_loop n s old (mark word)) key = false.
Proof.
  revert s. induction n as [|n IH]; intros s Hs; [done|]. destruct s as [|c s]; [done|].
  assert (Htail : ∀ a b, c :: s = a ++ b → Contains b key = false) by (intros a b E; rewrite E in Hs; by apply Contains_app_false in Hs).
  cbn [replace_loop]. destruct (HasPrefix (c :: s) old).
  - apply redacted_clean, IH. apply (Htail (take (length old) (c :: s))). by rewrite take_drop.
  - apply not_true_iff_false. intros [H|H]%Contains_cons; [|by rewrite IH in H by (by apply (Htail [c]))].
    apply key_head in H as (k & Ek & H). apply not_true_iff_false in Hs. apply Hs. cbn [Contains]. apply orb_true_iff. left. apply bool_decide_eq_true.
    pose proof key_open as Ho. rewrite Ek in Ho |- *. apply prefix_cons, (replace_prefix n _ old); [set_solver|done].
Qed.

(** *** Blanking and joining *)

(** A printable text that the cleaned message has was in the message. *)
Lemma blank_high r : 128 ≤ r → blank r = r.
Proof. intros H. unfold blank. rewrite (proj2 (Z.ltb_ge r 32)), (proj2 (Z.eqb_neq r 127)) by lia. done. Qed.
Lemma blank_low c : code c < 128 → encode_rune (blank (code c)) = [if (code c <? 32) || (code c =? 127) then " "%char else c].
Proof.
  revert c. assert (H : ∀ c, negb (code c <? 128) || bool_decide (encode_rune (blank (code c)) = [if (code c <? 32) || (code c =? 127) then " "%char else c]) = true) by by_bytes.
  intros c Hc. specialize (H c). rewrite (proj2 (Z.ltb_lt _ _) Hc) in H. by apply bool_decide_eq_true in H.
Qed.
Lemma Map_low c s : code c < 128 → Map blank (c :: s) = (if (code c <? 32) || (code c =? 127) then " "%char else c) :: Map blank s.
Proof. intros H. unfold Map. rewrite runes_low by done. cbn [map concat]. by rewrite blank_low. Qed.
Lemma Map_high c s : 128 ≤ code c → ∃ b n, Forall (λ x, 128 ≤ code x) b ∧ b ≠ [] ∧ Map blank (c :: s) = b ++ Map blank (drop n s).
Proof.
  intros H. destruct (runes_high c s H) as (r & n & Hr & E). exists (encode_rune r), n. destruct (encode_high r Hr). unfold Map.
  rewrite E. cbn [map concat]. by rewrite blank_high.
Qed.
Lemma printable_low c : printable c = true → code c < 128 ∧ c ≠ " "%char.
Proof. unfold printable. intros H. b2p. split; [lia|]. intros ->. by vm_compute in H. Qed.

Lemma Map_prefix s (p : str) : Forall (λ c, printable c = true) p → p `prefix_of` Map blank s → p `prefix_of` s.
Proof.
  revert s. induction p as [|d p IH]; intros s Hp H; [apply prefix_nil|]. apply Forall_cons in Hp as [Hd Hp]. destruct (printable_low d Hd) as [Hd1 Hd2].
  destruct s as [|c s]; [done|]. destruct (Z_lt_le_dec (code c) 128) as [Hc|Hc].
  - rewrite Map_low in H by done. destruct H as [z H]. injection H as H1 H2. case_if in H1 as E; [done|]. subst c. apply prefix_cons, IH; [done|]. by exists z.
  - destruct (Map_high c s Hc) as (b & n & Hb & Hne & E). rewrite E in H. destruct b as [|x b]; [done|]. destruct H as [z H]. injection H as <- _.
    apply Forall_cons in Hb as [Hb _]. lia.
Qed.
Lemma Map_Contains s : Contains (Map blank s) key = true → Contains s key = true.
Proof.
  assert (Hp : Forall (λ c, printable c = true) key) by (apply Forall_forall, key_printable).
  induction s as [s IH] using (well_founded_induction (Wf_nat.well_founded_ltof _ length)). destruct s as [|c s]; [done|].
  intros H. destruct (Z_lt_le_dec (code c) 128) as [Hc|Hc].
  - rewrite Map_low in H by done. apply Contains_cons in H as [H|H].
    + rewrite <- Map_low in H by done. apply Map_prefix in H; [|done]. cbn [Contains]. apply orb_true_iff. left. by apply bool_decide_eq_true.
    + cbn [Contains]. apply orb_true_iff. right. apply IH; [|done]. unfold Wf_nat.ltof. simpl. lia.
  - destruct (Map_high c s Hc) as (b & n & Hb & Hne & E). rewrite E in H. apply Contains_app in H as [H|(a & b' & -> & Hb' & H)].
    + apply IH in H; [|unfold Wf_nat.ltof; rewrite length_drop; simpl; lia]. apply Contains_spec in H as (k1 & k2 & H). apply Contains_spec.
      exists (c :: take n s ++ k1), k2. cbn [app]. by rewrite <- app_assoc, <- H, take_drop.
    + destruct b' as [|x b']; [done|]. apply key_head in H as (k & Ek & _). apply Forall_app in Hb as [_ [Hx _]%Forall_cons].
      assert (Hx' : printable x = true) by (apply key_printable; rewrite Ek; set_solver). apply printable_low in Hx' as [? _]. lia.
Qed.

Lemma Join_Contains ws : Contains (Join ws " ") key = true → ∃ w, w ∈ ws ∧ Contains w key = true.
Proof.
  assert (Hsp : " "%char ∉ key) by (intros ?%key_printable; done).
  induction ws as [|w ws IH]; [cbn [Join]; by rewrite key_absent_nil|]. destruct ws as [|w' ws]; [intros H; exists w; set_solver|].
  rewrite Join_cons by done. intros H. apply Contains_app in H as [H|(a & b & -> & Hb & H)].
  - cbn [app] in H. apply Contains_cons in H as [H|H]; [apply key_head in H as (k & Ek & _); destruct Hsp; rewrite Ek; set_solver|].
    destruct (IH H) as (x & Hx & Hc). exists x. set_solver.
  - apply prefix_stop in H; [|done]. exists (a ++ b). split; [set_solver|]. apply Contains_spec. destruct H as [z ->]. by exists a, z.
Qed.

Lemma tidy_clean msg : word = lit "redacted" → Contains (tidy msg key) key = false.
Proof.
  intros Hword. destruct Hkey as [Hne _]. unfold tidy. rewrite bool_decide_eq_false_2 by done. change redacted with (mark (lit "redacted")). rewrite <- Hword. apply not_true_iff_false.
  intros (w & (a & b & Hw)%Fields_inside & Hc)%Join_Contains. apply Contains_spec in Hc as (k1 & k2 & ->).
  assert (H : Contains (Map blank (ReplaceAll msg key (mark word))) key = true).
  { apply Contains_spec. exists (a ++ k1), (k2 ++ b). rewrite Hw. by rewrite <- !app_assoc. }
  apply Map_Contains in H. unfold ReplaceAll in H. by rewrite replace_clean in H by lia.
Qed.
Lemma prefix_clean s t : t `prefix_of` s → Contains s key = false → Contains t key = false.
Proof.
  intros [k ->] H. apply not_true_iff_false. intros (k1 & k2 & ->)%Contains_spec. apply not_true_iff_false in H. apply H, Contains_spec.
  exists k1, (k2 ++ k). by rewrite <- !app_assoc.
Qed.
Lemma cut_prefix n s : cut n s `prefix_of` s.
Proof. unfold cut. case_if as E; [|done]. exists (drop (Z.to_nat n) s). by rewrite take_drop. Qed.

(** A text without the key stays so when the word is put at its end. *)
Lemma snoc_redacted s : Contains s key = false → Contains (s ++ mark word) key = false.
Proof.
  intros Hs. apply not_true_iff_false. intros H. apply Contains_app in H as [H|(a & b & -> & Hb & H)].
  - pose proof (redacted_clean [] key_absent_nil) as Hr. rewrite app_nil_r in Hr. congruence.
  - apply prefix_stop in H; [|apply key_open].
    apply not_true_iff_false in Hs. apply Hs, Contains_spec. destruct H as [z ->]. by exists a, z.
Qed.

Lemma redact_tail_run n msg : (n < length key)%nat →
  (redact_tail n msg key = msg ∧ ∀ k, (4 ≤ k ≤ n)%nat → HasSuffix msg (take k key) = false) ∨
  ∃ k rest, (4 ≤ k ≤ n)%nat ∧ msg = rest ++ take k key ∧ redact_tail n msg key = rest ++ redacted.
Proof.
  intros Hlen. induction n as [|n IH]; [left; split; [done|]; lia|]. cbn [redact_tail]. case_if as E4; [left; split; [done|]; apply Nat.ltb_lt in E4; lia|].
  apply Nat.ltb_ge in E4. case_if as Es.
  - right. apply HasSuffix_spec in Es as [rest ->]. exists (Datatypes.S n), rest. split; [lia|]. split; [done|]. by rewrite TrimSuffix_app.
  - destruct IH as [[-> H]|(k & rest & Hk & E1 & E2)]; [lia| |].
    + left. split; [done|]. intros k Hk. destruct (decide (k = Datatypes.S n)) as [->|]; [done|]. apply H. lia.
    + right. exists k, rest. split_and!; [lia..|done|done].
Qed.
End Key.

(** *** No control characters *)

Definition visible (c : ascii) : Prop := 32 ≤ code c ∧ code c ≠ 127.
Lemma Map_visible s : Forall visible (Map blank s).
Proof.
  induction s as [s IH] using (well_founded_induction (Wf_nat.well_founded_ltof _ length)). destruct s as [|c s]; [constructor|].
  destruct (Z_lt_le_dec (code c) 128) as [Hc|Hc].
  - rewrite Map_low by done. constructor; [|apply IH; unfold Wf_nat.ltof; simpl; lia].
    case_if as E; [by vm_compute|]. apply orb_false_iff in E as [E1%Z.ltb_ge E2%Z.eqb_neq]. by split.
  - destruct (Map_high c s Hc) as (b & n & Hb & _ & ->). apply Forall_app. split; [|apply IH; unfold Wf_nat.ltof; rewrite length_drop; simpl; lia].
    eapply Forall_impl; [exact Hb|]. intros x Hx. unfold visible. simpl in Hx. lia.
Qed.
Lemma Join_Forall (P : ascii → Prop) ws sep : Forall (Forall P) ws → Forall P sep → Forall P (Join ws sep).
Proof.
  intros H Hs. induction H as [|w ws Hw H IH]; [constructor|]. destruct ws as [|w' ws]; [done|]. rewrite Join_cons by done.
  apply Forall_app. split; [done|]. by apply Forall_app.
Qed.
Lemma tidy_visible msg key : Forall visible (tidy msg key).
Proof.
  unfold tidy. apply Join_Forall; [|by repeat constructor; vm_compute]. apply Forall_forall. intros w (a & b & E)%Fields_inside.
  pose proof (Map_visible (if bool_decide (key = []) then msg else ReplaceAll msg key redacted)) as H. rewrite E in H.
  by apply Forall_app in H as [_ [H _]%Forall_app].
Qed.
Lemma redacted_visible : Forall visible redacted.
Proof. repeat constructor; vm_compute; done. Qed.
Lemma cut_Forall (P : ascii → Prop) n s : Forall P s → Forall P (cut n s).
Proof. intros H. unfold cut. case_if as E; [by apply Forall_take|done]. Qed.
Lemma cut_length n s : 0 ≤ n → Z.of_nat (length (cut n s)) ≤ n.
Proof. intros Hn. unfold cut. case_if as E; [rewrite length_take; lia|]. by apply Z.ltb_ge in E. Qed.
