(* ===== verification/PdnsHttp.v ===== *)
(** * The PowerDNS HTTP client ([internal/pdns/client.go])

    [HTTPClient] turns the operations of the [Client] interface into requests on
    the PowerDNS API and their replies into results and typed errors.  The network
    and the key source are a [Transport]; [net/url]'s parser and [encoding/json]
    are parameters.  The theorems say which requests an operation can make and
    that a reply's text never carries the API key into an error. *)
From Stdlib Require Import Ascii.
From S2P Require Import Prelude GoStrings GoError Store Authz MemStore Pdns Recursor World Url HttpText.
Local Open Scope Z_scope.

(** ** Requests over a network *)

Module Http.
Record Request := mkRequest { Method : str; URL : str; Header : list (str * str); ReqBody : option str }.
(** The bytes of a reply's body, and whether reading past them fails. *)
Record Response := mkResponse { StatusCode : Z; RespBody : str; RespFails : bool }.

(** [http.Client.Do] and the source of the API key. *)
Class Transport (T : Type) := { t_Do : Request → T → res Response * T; t_Key : T → res str * T }.

(** A client's surroundings, with the requests it made. *)
Record Net (T : Type) := mkNet { net : T; sent : list Request }.
Arguments mkNet {T}. Arguments net {T}. Arguments sent {T}.

(** [url.Parse]: the scheme, the host, whether there are credentials, the query,
    the fragment, and the text of the parsed URL. *)
Record URLParts := mkURL { Scheme : str; Host : str; HasUser : bool; RawQuery : str; Fragment : str; Text : str }.
Class URLParser := url_Parse : str → option URLParts.

Definition base_ok (u : option URLParts) : option str :=
  match u with
  | Some u =>
    if (negb (bool_decide (Scheme u = "http")) && negb (bool_decide (Scheme u = "https"))) || bool_decide (Host u = []) || HasUser u
    then None else Some (Text u)
  | None => None
  end.

(** [strings.TrimRight(s, "/")]. *)
Fixpoint drop_slashes (s : str) : str :=
  match s with c :: t => if bool_decide (c = "/"%char) then drop_slashes t else s | [] => [] end.
Definition TrimRightSlash (s : str) : str := reverse (drop_slashes (reverse s)).

Definition id_byte (c : ascii) : bool := Url.alnum c || bool_decide (c ∈ lit "._-").
(** [^[a-zA-Z0-9._-]{1,64}$] *)
Definition serverIDRE (s : str) : bool := negb (bool_decide (s = [])) && (Z.of_nat (length s) <=? 64) && forallb id_byte s.

Definition int64 (z : Z) : Z := (z + 2 ^ 63) `mod` 2 ^ 64 - 2 ^ 63.
(** [io.ReadAll(io.LimitReader(body, n))]. *)
Definition ReadLimited (n : Z) (r : Response) : str * bool :=
  if n <=? 0 then ([], false)
  else if n <=? Z.of_nat (length (RespBody r)) then (take (Z.to_nat n) (RespBody r), false)
  else (RespBody r, RespFails r).

Section Sending.
Context {T : Type} {TR : Transport T}.
Definition key : M (Net T) (res str) := λ n, let '(k, t) := t_Key (net n) in (k, mkNet t (sent n)).
Definition send (r : Request) : M (Net T) (res Response) := λ n, let '(x, t) := t_Do r (net n) in (x, mkNet t (sent n ++ [r])).
End Sending.

Lemma id_byte_plain c : id_byte c = true → Url.plain c = true.
Proof. revert c. assert (H : ∀ c, negb (id_byte c) || Url.plain c = true) by by_bytes. intros c Hc. specialize (H c). by rewrite Hc in H. Qed.
Lemma serverID_plain s : serverIDRE s = true → Url.PathEscape s = s ∧ s ≠ [].
Proof.
  intros [[Hn _]%andb_true_iff Hf]%andb_true_iff. split; [|intros ->; done]. apply Url.PathEscape_plain_id.
  apply forallb_Forall in Hf. eapply Forall_impl; [exact Hf|apply id_byte_plain].
Qed.
End Http.

(** ** The client *)

Module PdnsHttp.
Import Pdns Http.

Definition DefaultMaxResponse : Z := 33554432.
Definition SmallResponse : Z := 65536.
Definition MaxErrorMessage : Z := 200.
Definition apiHeader : str := "X-API-Key".

Record createBody := mkCreateBody {
  CbName : str; CbKind : str; CbMasters : list str; CbDNSSEC : bool; CbNameservers : list str; CbAccount : str; CbRRsets : list RRset
}.
Record metadataBody := mkMetadataBody { MbKind : str; MbMasters : list str; MbDNSSEC : bool; MbAccount : str }.
Record zoneRef := mkZoneRef { ZrID : str; ZrName : str }.

(** [encoding/json] on the bodies sent and received; a reply's error envelope,
    and the envelope of an export whose zone may be missing. *)
Class PdnsJSON := {
  marshalCreate : createBody → str;
  marshalMetadata : metadataBody → str;
  marshalPatch : list RRset → str;
  marshalSupermaster : Supermaster → str;
  unmarshalRefs : str → res (list zoneRef);
  unmarshalZone : str → res Zone;
  unmarshalSupermasters : str → res (list Supermaster);
  unmarshalError : str → option (str * list str);
  unmarshalExport : str → option (option str)
}.

(** The configuration; the key source and the transport are the network's. *)
Record Config := mkConfig { BaseURL : str; ServerID : str; HasKey : bool; MaxResponseBytes : Z }.
Record HTTPClient := mkClient { base : str; serverID : str; maxLarge : Z }.

Definition New `{URLParser} (cfg : Config) : res HTTPClient :=
  match base_ok (url_Parse (TrimSpace (BaseURL cfg))) with
  | None => Err (Plain "pdns: base URL must be an http(s) URL without credentials")
  | Some u =>
    if negb (HasKey cfg) then Err (Plain "pdns: an API key source is required")
    else
      let sid := if bool_decide (ServerID cfg = []) then lit "localhost" else ServerID cfg in
      if negb (serverIDRE sid) then Err (Plain "pdns: invalid server id")
      else Ok (mkClient (TrimRightSlash u) sid (if MaxResponseBytes cfg <=? 0 then DefaultMaxResponse else MaxResponseBytes cfg))
  end.

Definition sanitize (msg key : str) : str :=
  let msg := cut MaxErrorMessage (tidy msg key) in
  if bool_decide (key = []) then msg else redact_tail (length key - 1) msg key.

Section Client.
Context {U : Unicode} {UP : URLParser} {JS : PdnsJSON} {T : Type} {TR : Transport T}.
Context (c : HTTPClient).
Abbreviation N := (Net T).

Definition apiError (status : Z) (body key : str) : error :=
  let msg := match unmarshalError body with
             | Some (e, es) => if bool_decide (e = []) && bool_decide (es = []) then body else TrimSpace (e ++ " " ++ Join es "; ")
             | None => body
             end in
  APIError status (sanitize msg key)
    (if status =? 404 then Some PdnsErrNotFound
     else if (status =? 409) || ((status =? 422) && Contains (ToLower msg) "already exists") then Some PdnsErrConflict
     else if 500 <=? status then Some PdnsErrUnavailable
     else None).

Definition serverPath : str := "/api/v1/servers/" ++ Url.PathEscape (serverID c).
Definition zonesPath : str := serverPath ++ "/zones".
Definition smPath : str := serverPath ++ "/autoprimaries".
Definition zonePath (id : str) : res str :=
  if bool_decide (id = []) || bool_decide (id = lit ".") || bool_decide (id = lit "..") then Err (GoError.New PdnsErrNotFound)
  else Ok (zonesPath ++ "/" ++ Url.PathEscape id).

Definition before_query (path : str) : str := default [] (head (SplitByte "?"%char path)).
Definition headers (key : str) (inp : option str) : list (str * str) :=
  [(apiHeader, key); ("Accept" : str, "application/json, text/plain" : str)] ++
  match inp with Some _ => [("Content-Type" : str, "application/json" : str)] | None => [] end.

(** One call; [inp] is the encoded body. *)
Definition do (method path : str) (inp : option str) (limit : Z) : M N (res str) :=
  k ← key;
  match k with
  | Err _ | Ok [] => mret (Err (Wrapf (GoError.New PdnsErrUnavailable) "API key unavailable"))
  | Ok k =>
    match url_Parse (base c ++ path) with
    | None => mret (Err (Plain "pdns: build request"))
    | Some _ =>
      resp ← send (mkRequest method (base c ++ path) (headers k inp) inp);
      mret match resp with
      | Err _ => Err (Wrapf (GoError.New PdnsErrUnavailable) (method ++ " " ++ before_query path ++ ": request failed"))
      | Ok resp =>
        let '(raw, failed) := ReadLimited (int64 (limit + 1)) resp in
        if (failed : bool) then Err (Wrapf (GoError.New PdnsErrUnavailable) "reading response")
        else if (StatusCode resp <? 200) || (299 <? StatusCode resp)
        then Err (apiError (StatusCode resp) (if limit <? Z.of_nat (length raw) then take (Z.to_nat limit) raw else raw) k)
        else if limit <? Z.of_nat (length raw) then Err (Wrapf (GoError.New PdnsErrTooLarge) ("exceeds " ++ Itoa limit ++ " bytes"))
        else Ok raw
      end
    end
  end.

Definition decode {A} (r : res A) : res A :=
  match r with Ok a => Ok a | Err e => Err (Wrap2 (Plain "pdns: decode response") e []) end.
Definition done_ (m : M N (res str)) : M N (res unit) := _ ←? m; mret (Ok ()).

Definition Ping : M N (res unit) := done_ (do "GET" serverPath None SmallResponse).
Definition ListZoneNames : M N (res (list str)) :=
  raw ←? do "GET" (zonesPath ++ "?dnssec=false") None (maxLarge c);
  mret (refs ← decode (unmarshalRefs raw); Ok (map ZrName refs)).
Definition GetZone (id : str) : M N (res Zone) :=
  match zonePath id with
  | Err e => mret (Err e)
  | Ok p => raw ←? do "GET" p None (maxLarge c); mret (decode (unmarshalZone raw))
  end.
Definition CreateZone (z : Zone) : M N (res Zone) :=
  raw ←? do "POST" zonesPath (Some (marshalCreate (mkCreateBody (PName z) (PKind z) (PMasters z) (PDNSSEC z) (PNameservers z) (PAccount z) (PRRsets z)))) (maxLarge c);
  mret (decode (unmarshalZone raw)).
Definition UpdateZoneMetadata (id : str) (z : Zone) : M N (res unit) :=
  match zonePath id with
  | Err e => mret (Err e)
  | Ok p => done_ (do "PUT" p (Some (marshalMetadata (mkMetadataBody (PKind z) (PMasters z) (PDNSSEC z) (PAccount z)))) SmallResponse)
  end.
Definition DeleteZone (id : str) : M N (res unit) :=
  match zonePath id with Err e => mret (Err e) | Ok p => done_ (do "DELETE" p None SmallResponse) end.
Definition PatchRRsets (id : str) (rrsets : list RRset) : M N (res unit) :=
  match zonePath id with Err e => mret (Err e) | Ok p => done_ (do "PATCH" p (Some (marshalPatch rrsets)) SmallResponse) end.
Definition NotifyZone (id : str) : M N (res unit) :=
  match zonePath id with Err e => mret (Err e) | Ok p => done_ (do "PUT" (p ++ "/notify") None SmallResponse) end.
Definition ExportZone (id : str) : M N (res str) :=
  match zonePath id with
  | Err e => mret (Err e)
  | Ok p =>
    raw ←? do "GET" (p ++ "/export") None (maxLarge c);
    mret (Ok (if HasPrefix (TrimSpace raw) "{"
              then match unmarshalExport (TrimSpace raw) with Some (Some z) => z | _ => raw end
              else raw))
  end.
Definition ListSupermasters : M N (res (list Supermaster)) :=
  raw ←? do "GET" smPath None SmallResponse;
  mret (decode (unmarshalSupermasters raw)).
Definition CreateSupermaster (s : Supermaster) : M N (res unit) :=
  done_ (do "POST" smPath (Some (marshalSupermaster s)) SmallResponse).
Definition DeleteSupermaster (ip nameserver : str) : M N (res unit) :=
  done_ (do "DELETE" (smPath ++ "/" ++ Url.PathEscape ip ++ "/" ++ Url.PathEscape nameserver) None SmallResponse).
End Client.
End PdnsHttp.

(** ** What the client asks for, and what it tells *)

Module PdnsHttpSpec.
Import Pdns Http PdnsHttp.

(** The operations of the interface. *)
Inductive op :=
  | OPing | OListZoneNames | OGetZone (id : str) | OCreateZone (z : Zone) | OUpdateZoneMetadata (id : str) (z : Zone)
  | ODeleteZone (id : str) | OPatchRRsets (id : str) (rs : list RRset) | ONotifyZone (id : str) | OExportZone (id : str)
  | OListSupermasters | OCreateSupermaster (s : Supermaster) | ODeleteSupermaster (ip ns : str).

(** The zone an operation is about; the method and the resource under the server
    that the PowerDNS API has for it. *)
Definition zone_of (o : op) : option str :=
  match o with
  | OGetZone id | OUpdateZoneMetadata id _ | ODeleteZone id | OPatchRRsets id _ | ONotifyZone id | OExportZone id => Some id
  | _ => None
  end.
Definition route (o : op) : str * list str :=
  match o with
  | OPing => (lit "GET", [])
  | OListZoneNames => (lit "GET", [lit "zones"])
  | OGetZone id => (lit "GET", [lit "zones"; id])
  | OCreateZone _ => (lit "POST", [lit "zones"])
  | OUpdateZoneMetadata id _ => (lit "PUT", [lit "zones"; id])
  | ODeleteZone id => (lit "DELETE", [lit "zones"; id])
  | OPatchRRsets id _ => (lit "PATCH", [lit "zones"; id])
  | ONotifyZone id => (lit "PUT", [lit "zones"; id; lit "notify"])
  | OExportZone id => (lit "GET", [lit "zones"; id; lit "export"])
  | OListSupermasters => (lit "GET", [lit "autoprimaries"])
  | OCreateSupermaster _ => (lit "POST", [lit "autoprimaries"])
  | ODeleteSupermaster ip ns => (lit "DELETE", [lit "autoprimaries"; ip; ns])
  end.
(** What a server reads in a path: its segments, unescaped. *)
Definition segments (path : str) : list str := map Url.PathUnescape (SplitByte "/"%char (before_query path)).

Section Spec.
Context {U : Unicode} {UP : URLParser} {JS : PdnsJSON} {T : Type} {TR : Transport T}.
Context (c : HTTPClient).
Abbreviation N := (Net T).

Definition failing {A} (m : M N (res A)) : M N (option error) := λ n, let '(r, n) := m n in (err_of r, n).
Definition call (o : op) : M N (option error) :=
  match o with
  | OPing => failing (Ping c) | OListZoneNames => failing (ListZoneNames c) | OGetZone id => failing (GetZone c id)
  | OCreateZone z => failing (CreateZone c z) | OUpdateZoneMetadata id z => failing (UpdateZoneMetadata c id z)
  | ODeleteZone id => failing (DeleteZone c id) | OPatchRRsets id rs => failing (PatchRRsets c id rs)
  | ONotifyZone id => failing (NotifyZone c id) | OExportZone id => failing (ExportZone c id)
  | OListSupermasters => failing (ListSupermasters c) | OCreateSupermaster s => failing (CreateSupermaster c s)
  | ODeleteSupermaster ip ns => failing (DeleteSupermaster c ip ns)
  end.

(** The text of the server's reply in an error. *)
Definition message (e : error) : option str := match e with APIError _ m _ => Some m | _ => None end.

(** *** Paths *)

(** The path of a list of segments. *)
Definition path_of (segs : list str) : str := concat (map (λ s, "/"%char :: Url.PathEscape s) segs).
Definition server : list str := [lit "api"; lit "v1"; lit "servers"; serverID c].

Lemma path_of_app a b : path_of (a ++ b) = path_of a ++ path_of b.
Proof. unfold path_of. by rewrite map_app, concat_app. Qed.
Lemma path_query segs : "?"%char ∉ path_of segs.
Proof.
  induction segs as [|s segs IH]; [by intros ?%elem_of_nil|]. cbn [path_of map concat app]. rewrite elem_of_cons, elem_of_app.
  intros [?|[H|H]]; [done| |done]. revert H. apply Url.PathEscape_no_separator. set_solver.
Qed.
Lemma path_split segs : SplitByte "/"%char (path_of segs) = [] :: map Url.PathEscape segs.
Proof.
  induction segs as [|s segs IH]; [done|]. change (path_of (s :: segs)) with ([] ++ "/"%char :: (Url.PathEscape s ++ path_of segs)).
  rewrite SplitByte_app by set_solver. f_equal. cbn [map]. assert (Hs : "/"%char ∉ Url.PathEscape s) by (apply Url.PathEscape_no_separator; set_solver).
  destruct segs as [|s' segs]; [cbn [path_of map concat]; rewrite app_nil_r; by apply SplitByte_nosep|].
  change (path_of (s' :: segs)) with ("/"%char :: (Url.PathEscape s' ++ path_of segs)) in IH |- *. rewrite SplitByte_app by done. f_equal.
  change ("/"%char :: (Url.PathEscape s' ++ path_of segs)) with ([] ++ "/"%char :: (Url.PathEscape s' ++ path_of segs)) in IH.
  rewrite SplitByte_app in IH by set_solver. by injection IH as ->.
Qed.
Lemma unescape_all segs : map Url.PathUnescape (map Url.PathEscape segs) = segs.
Proof. induction segs as [|s segs IH]; [done|]. cbn [map]. by rewrite Url.PathUnescape_PathEscape, IH. Qed.
(** A server reads the segments back, whatever they are, also before a query. *)
Lemma segments_path segs q : q = [] ∨ (∃ r, q = "?"%char :: r) → segments (path_of segs ++ q) = [] :: segs.
Proof.
  intros Hq. assert (E : before_query (path_of segs ++ q) = path_of segs).
  { unfold before_query. pose proof (path_query segs). destruct Hq as [->|[r ->]]; [rewrite app_nil_r, SplitByte_nosep by done; done|by rewrite SplitByte_app]. }
  unfold segments. rewrite E, path_split. cbn [map]. by rewrite unescape_all.
Qed.
Lemma serverPath_path : serverPath c = path_of server.
Proof. unfold serverPath, path_of, server. cbn. by rewrite app_nil_r. Qed.
Lemma zonesPath_path : zonesPath c = path_of (server ++ [lit "zones"]).
Proof. unfold zonesPath. by rewrite serverPath_path, path_of_app. Qed.
Lemma smPath_path : smPath c = path_of (server ++ [lit "autoprimaries"]).
Proof. unfold smPath. by rewrite serverPath_path, path_of_app. Qed.
Lemma zonePath_path id p : zonePath c id = Ok p → p = path_of (server ++ [lit "zones"; id]).
Proof.
  unfold zonePath. case_if as E; [done|]. intros H. assert (zonesPath c ++ "/" ++ Url.PathEscape id = p) as <- by congruence. rewrite zonesPath_path. change (server ++ [lit "zones"; id]) with ((server ++ [lit "zones"]) ++ [id]).
  rewrite (path_of_app _ [id]). f_equal. unfold path_of. cbn [map concat]. by rewrite app_nil_r.
Qed.

(** *** One call *)

Lemma do_run method path inp limit n r n' :
  do c method path inp limit n = (r, n') →
  (∃ e, r = Err e ∧ sent n' = sent n ∧ message e = None) ∨
  ∃ k, (t_Key (net n)).1 = Ok k ∧ k ≠ [] ∧ sent n' = sent n ++ [mkRequest method (base c ++ path) (headers k inp) inp] ∧
    ∀ e m, r = Err e → message e = Some m → ∃ msg, m = sanitize msg k.
Proof.
  unfold do, key. unfold mbind at 1, M_bind at 1. destruct (t_Key (net n)) as [k t] eqn:Ek.
  destruct k as [[|k0 k]|e]; [intros [= <- <-]; left; by eexists| |intros [= <- <-]; left; by eexists].
  destruct (url_Parse _); [|intros [= <- <-]; left; by eexists]. unfold mbind, M_bind, send. destruct (t_Do _ _) as [resp t'] eqn:Ed.
  intros [= <- <-]. right. exists (k0 :: k). split_and!; [done..|]. intros e m. destruct resp as [resp|]; [|by intros [= <-]].
  destruct (ReadLimited _ _) as [raw []]; [by intros [= <-]|]. case_if as E1; [intros [= <-] [= <-]; by eexists|]. case_if as E2; [by intros [= <-]|done].
Qed.

(** Every operation is refused before anything is sent, or is one call. *)
Definition one_call (o : op) (path : str) (inp : option str) (limit : Z) : Prop :=
  ∀ n, ∃ r n', do c (route o).1 path inp limit n = (r, n') ∧ (call o n).2 = n' ∧
    match r with Err e => (call o n).1 = Some e | Ok _ => ∀ e, (call o n).1 = Some e → message e = None end.
Lemma done_one o path inp limit : (∀ n, call o n = failing (done_ (do c (route o).1 path inp limit)) n) → one_call o path inp limit.
Proof. intros H n. rewrite H. unfold failing, done_, try_. destruct (do _ _ _ _ _ n) as [[]]; by eexists _, _. Qed.
Lemma decode_one {A} o path inp limit (f : str → res A) : (∀ raw e, f raw = Err e → message e = None) →
  (∀ n, call o n = failing (raw ←? do c (route o).1 path inp limit; mret (f raw)) n) → one_call o path inp limit.
Proof.
  intros Hf H n. rewrite H. unfold failing, try_. destruct (do _ _ _ _ _ n) as [[raw|] n']; [|by eexists _, _]. eexists _, _. split; [done|]. cbn.
  split; [done|]. intros e He. destruct (f raw) eqn:E; [done|]. injection He as <-. by eapply Hf.
Qed.
Lemma decode_message {A} (r : res A) e : decode r = Err e → message e = None.
Proof. unfold decode. destruct r; [done|]. by intros [= <-]. Qed.

(** Names that are no zone: they would address the collection or its parent. *)
Definition no_zone : list str := [lit ""; lit "."; lit ".."].
Lemma zonePath_cases id : id ∈ no_zone ∧ zonePath c id = Err (GoError.New PdnsErrNotFound) ∨ (id ∉ no_zone) ∧ zonePath c id = Ok (path_of (server ++ [lit "zones"; id])).
Proof.
  destruct (zonePath c id) as [p|e] eqn:E; [right|left].
  - pose proof (zonePath_path _ _ E) as ->. split; [|done]. unfold zonePath in E. case_if in E as Ei; [done|].
    apply orb_false_iff in Ei as [[E1 E2]%orb_false_iff E3]. apply bool_decide_eq_false in E1, E2, E3.
    unfold no_zone. rewrite !elem_of_cons, elem_of_nil. by intros [|[|[|]]].
  - unfold zonePath in E. case_if in E as Ei; [|done]. injection E as <-. split; [|done]. unfold no_zone. rewrite !elem_of_cons.
    apply orb_true_iff in Ei as [[Ei|Ei]%orb_true_iff|Ei]; apply bool_decide_eq_true in Ei; auto.
Qed.

Lemma path_under segs : path_of server ++ path_of segs = path_of (server ++ segs) ++ [].
Proof. by rewrite path_of_app, app_nil_r. Qed.
Lemma path_snoc segs (x : str) : Url.PathEscape x = x → path_of segs ++ ("/"%char :: x) = path_of (segs ++ [x]) ++ [].
Proof. intros Hx. rewrite path_of_app, app_nil_r. f_equal. unfold path_of. cbn [map concat]. by rewrite app_nil_r, Hx. Qed.
Lemma sm_path ip ns : smPath c ++ "/" ++ Url.PathEscape ip ++ "/" ++ Url.PathEscape ns = path_of (server ++ [lit "autoprimaries"; ip; ns]) ++ [].
Proof.
  rewrite smPath_path. change (server ++ [lit "autoprimaries"; ip; ns]) with ((server ++ [lit "autoprimaries"]) ++ [ip; ns]).
  rewrite (path_of_app _ [ip; ns]), app_nil_r. f_equal. unfold path_of. cbn [map concat app]. by rewrite app_nil_r.
Qed.

Definition goes (o : op) : Prop := ∃ q inp limit,
  (q = [] ∨ ∃ r, q = "?"%char :: r) ∧ one_call o (path_of (server ++ (route o).2) ++ q) inp limit.
Lemma goes_plain o path inp limit : path = path_of (server ++ (route o).2) ++ [] → one_call o path inp limit → goes o.
Proof. intros -> H. exists [], inp, limit. auto. Qed.

Lemma call_cases o :
  (∃ id, zone_of o = Some id ∧ id ∈ no_zone ∧ ∀ n, call o n = (Some (GoError.New PdnsErrNotFound), n)) ∨
  (∀ id, zone_of o = Some id → id ∉ no_zone) ∧ goes o.
Proof.
  destruct o as [| |id|z|id z|id|id rs|id|id| |s|ip ns]; cbn [zone_of];
    try (destruct (zonePath_cases id) as [[Hi E]|[Hi E]];
      [left; exists id; split; [done|]; split; [done|]; intros n;
       cbn [call]; unfold failing, GetZone, UpdateZoneMetadata, DeleteZone, PatchRRsets, NotifyZone, ExportZone; by rewrite E|]);
    right; (split; [by intros ? [= <-]|]).
  - eapply goes_plain; [|apply done_one; intros n; reflexivity]. by rewrite serverPath_path, app_nil_r, app_nil_r.
  - exists (lit "?dnssec=false"), None, (maxLarge c). split; [right; by eexists|]. eapply decode_one; [|intros n; cbn [call]; unfold ListZoneNames; by rewrite zonesPath_path].
    intros raw e H. cbv beta in H. destruct (decode _) eqn:Ed; [done|]. injection H as <-. by eapply decode_message.
  - eapply goes_plain; [|eapply decode_one; [|intros n; cbn [call]; unfold GetZone; rewrite E; reflexivity]]; [by rewrite app_nil_r|intros raw e; apply decode_message].
  - eapply goes_plain; [|eapply decode_one; [|intros n; reflexivity]]; [by rewrite zonesPath_path, app_nil_r|intros raw e; apply decode_message].
  - eapply goes_plain; [|apply done_one; intros n; cbn [call]; unfold UpdateZoneMetadata; rewrite E; reflexivity]. by rewrite app_nil_r.
  - eapply goes_plain; [|apply done_one; intros n; cbn [call]; unfold DeleteZone; rewrite E; reflexivity]. by rewrite app_nil_r.
  - eapply goes_plain; [|apply done_one; intros n; cbn [call]; unfold PatchRRsets; rewrite E; reflexivity]. by rewrite app_nil_r.
  - eapply goes_plain; [|apply done_one; intros n; cbn [call]; unfold NotifyZone; rewrite E; reflexivity]. exact (path_snoc (server ++ [lit "zones"; id]) "notify" eq_refl).
  - eapply goes_plain; [|eapply decode_one; [|intros n; cbn [call]; unfold ExportZone; rewrite E; reflexivity]]; [exact (path_snoc (server ++ [lit "zones"; id]) "export" eq_refl)|done].
  - eapply goes_plain; [|eapply decode_one; [|intros n; reflexivity]]; [by rewrite smPath_path, app_nil_r|intros raw e; apply decode_message].
  - eapply goes_plain; [|apply done_one; intros n; reflexivity]. by rewrite smPath_path, app_nil_r.
  - eapply goes_plain; [|apply done_one; intros n; reflexivity]. apply sm_path.
Qed.


Lemma sanitize_clean msg k : opaque k →
  Contains (sanitize msg k) k = false ∧ Forall visible (sanitize msg k) ∧ Z.of_nat (length (sanitize msg k)) ≤ MaxErrorMessage + 6 ∧
  ∀ i, (4 ≤ i < length k)%nat → HasSuffix (sanitize msg k) (take i k) = false.
Proof.
  intros Hk. pose proof (tidy_clean (lit "redacted") k Hk msg eq_refl) as Ht. pose proof (prefix_clean k _ _ (cut_prefix MaxErrorMessage (tidy msg k)) Ht) as Hc.
  pose proof (cut_Forall visible MaxErrorMessage _ (tidy_visible msg k)) as Hv. pose proof (cut_length MaxErrorMessage (tidy msg k) ltac:(done)) as Hl.
  unfold sanitize. destruct Hk as [Hne Hk']. rewrite bool_decide_eq_false_2 by done. assert (Hk : opaque k) by done.
  set (m := cut MaxErrorMessage (tidy msg k)) in *. assert (Hlen : (0 < length k)%nat) by (destruct k; [done|simpl; lia]).
  destruct (redact_tail_run k (length k - 1) m) as [[-> Hs]|(j & rest & Hj & E & ->)]; [lia| |].
  - split_and!; [done..|unfold MaxErrorMessage in *; lia|]. intros i Hi. apply Hs. lia.
  - rewrite E in Hc, Hv, Hl. split_and!.
    + apply (snoc_redacted (lit "redacted") k Hk). eapply prefix_clean; [|exact Hc]. by eexists.
    + apply Forall_app in Hv as [Hv _]. apply Forall_app. split; [done|apply redacted_visible].
    + rewrite length_app, length_take in Hl. rewrite length_app. change (length redacted) with 10%nat. lia.
    + intros i Hi. apply not_true_iff_false. intros [z Hz]%HasSuffix_spec.
      assert (Hlast : last (rest ++ redacted) = last (z ++ take i k)) by (by rewrite Hz). rewrite !last_app in Hlast. change (last redacted) with (Some "]"%char) in Hlast.
      cbv iota in Hlast. destruct (last (take i k)) as [x|] eqn:El.
      * injection Hlast as <-. apply (key_close (lit "redacted") k Hk). apply last_Some in El as [l El]. assert (Hx : "]"%char ∈ take i k ++ drop i k) by (rewrite El; set_solver). by rewrite take_drop in Hx.
      * apply last_None in El. apply (f_equal length) in El. rewrite length_take in El. simpl in El. lia.
Qed.

(** C19: the API key does not leave through an error: whatever the server
    answers to an operation, the text of the reply in the error does not contain
    the key that was sent, does not end in a piece of it of four bytes or more, has
    no control character, and is at most six bytes longer than the limit. *)
Theorem errors_hide_key o n e n' k m :
  call o n = (Some e, n') → (t_Key (net n)).1 = Ok k → opaque k → message e = Some m →
  Contains m k = false ∧ (∀ i, (4 ≤ i < length k)%nat → HasSuffix m (take i k) = false) ∧
  Forall visible m ∧ Z.of_nat (length m) ≤ MaxErrorMessage + 6.
Proof.
  intros H Hk Ho Hm. destruct (call_cases o) as [(id & _ & _ & Hc)|[_ (q & inp & limit & _ & Hc)]].
  { rewrite Hc in H. injection H as <- _. done. }
  destruct (Hc n) as (r & n1 & Hd & _ & Hr). rewrite H in Hr. cbn [fst] in Hr. destruct r as [raw|e1]; [by rewrite (Hr e eq_refl) in Hm|].
  injection Hr as <-. destruct (do_run _ _ _ _ _ _ _ Hd) as [(e2 & [= <-] & _ & He)|(k' & Hk' & _ & _ & He)]; [congruence|].
  destruct (He e m eq_refl Hm) as [msg ->]. assert (k' = k) as -> by congruence. destruct (sanitize_clean msg k Ho) as (? & ? & ? & ?). by split_and!.
Qed.
End Spec.

(** ** A concrete network *)

Module Concrete.
#[local] Existing Instance unicode_min.
(** A server that answers everything with a page that quotes the key back. *)
Record Echo := mkEcho { secret : str; answer : Response }.
#[local] Instance echo : Transport Echo := {| t_Do r t := (Ok (answer t), t); t_Key t := (Ok (secret t), t) |}.
#[local] Instance parser : URLParser := λ s, Some (mkURL "http" "pdns" false [] [] s).
#[local] Instance no_json : PdnsJSON := {|
  marshalCreate _ := []; marshalMetadata _ := []; marshalPatch _ := []; marshalSupermaster _ := [];
  unmarshalRefs _ := Ok []; unmarshalZone _ := Err (Plain "bad"); unmarshalSupermasters _ := Ok []; unmarshalError _ := None; unmarshalExport _ := None
|}.
Definition client : HTTPClient := mkClient "http://pdns-auth:8081" "localhost" 33554432.
Example client_built : New (mkConfig " http://pdns-auth:8081/ " [] true 0) = Ok client.
Proof. reflexivity. Qed.
Definition net0 : Net Echo := mkNet (mkEcho "s3cr3tk3y" (mkResponse 403 ("bad key s3cr3tk3y" ++ [chr 10] ++ "s3cr3t") false)) [].


Lemma errors_hide_key_witness :
  ∃ e n', call client OPing net0 = (Some e, n') ∧ message e = Some ("bad key [redacted] [redacted]" : str) ∧
    Contains "bad key [redacted] [redacted]" "s3cr3tk3y" = false.
Proof.
  destruct (call client OPing net0) as [x n'] eqn:E.
  assert (Hx : (call client OPing net0).1 = Some (APIError 403 "bad key [redacted] [redacted]" None)) by (vm_compute; reflexivity).
  rewrite E in Hx. cbn [fst] in Hx. subst x. exists (APIError 403 "bad key [redacted] [redacted]" None), n'. split; [reflexivity|]. split; [reflexivity|].
  apply (errors_hide_key client OPing net0 _ n' "s3cr3tk3y" "bad key [redacted] [redacted]" E); [reflexivity| |reflexivity].
  split; [done|]. split; [|reflexivity]. apply forallb_Forall. reflexivity.
Defined.
End Concrete.
End PdnsHttpSpec.
