(* ===== verification/RecursorHttp.v ===== *)
(** * The PowerDNS Recursor HTTP client ([internal/recursor/client.go])

    [HTTPClient] keeps the recursor's forward zones over its API: [SyncForward]
    resolves the authoritative host and re-points a zone by deleting and creating
    its entry.  The network, the key source and the name resolver are parameters;
    what the theorems need of the recursor's API is the class [RecursorAPI]. *)
From Stdlib Require Import Ascii.
From S2P Require Import Prelude GoStrings GoError Store Netip Masters NetipText Authz MemStore Pdns Recursor World Url HttpText PdnsHttp Codec.
Local Open Scope Z_scope.

Module RecursorHttp.
Import Http.

Definition maxBody : Z := 4194304.
Definition maxMessage : Z := 200.

(** [net.Resolver.LookupIPAddr]; an address of the result is an IPv4 or an IPv6
    address. *)
Class Resolver (T : Type) := LookupIPAddr : str → T → res (list Netip.Addr) * T.
Record zonePayload := mkPayload { ZpName : str; ZpKind : str; ZpServers : list str; ZpRecursionDesired : bool }.
(** [encoding/json] on the payload and on the names and kinds of a listing. *)
Class RecursorJSON := { marshalZone : zonePayload → str; unmarshalZones : str → res (list (str * str)) }.

Record Config := mkConfig { BaseURL : str; ServerID : str; HasKey : bool; ForwardHost : str; ForwardPort : Z }.
Record HTTPClient := mkClient { enabled : bool; base : str; serverID : str; fwdHost : str; fwdPort : Z }.

(** [^[a-zA-Z0-9]([a-zA-Z0-9.:-]{0,251}[a-zA-Z0-9])?$] *)
Definition host_byte (c : ascii) : bool := Url.alnum c || bool_decide (c ∈ lit ".:-").
Definition hostRE (s : str) : bool :=
  match s, last s with
  | c :: t, Some d => Url.alnum c && Url.alnum d && forallb host_byte t && (Z.of_nat (length s) <=? 253)
  | _, _ => false
  end.

Definition New {UP : URLParser} (cfg : Config) : res HTTPClient :=
  if bool_decide (TrimSpace (BaseURL cfg) = []) then Ok (mkClient false [] [] [] 0)
  else match base_ok (url_Parse (TrimSpace (BaseURL cfg))) with
  | None => Err (Plain "recursor: base URL must be an http(s) URL without credentials")
  | Some u =>
    if negb (HasKey cfg) then Err (Plain "recursor: an API key source is required")
    else
      let sid := if bool_decide (ServerID cfg = []) then lit "localhost" else ServerID cfg in
      let host := if bool_decide (ForwardHost cfg = []) then lit "pdns-auth" else ForwardHost cfg in
      let port := if ForwardPort cfg =? 0 then 53 else ForwardPort cfg in
      if negb (serverIDRE sid) || negb (hostRE host) || (port <? 1) || (65535 <? port)
      then Err (Plain "recursor: invalid server id or forward target")
      else Ok (mkClient true (TrimRightSlash u) sid host port)
  end.

Definition sanitize (msg key : str) : str := cut maxMessage (tidy msg key).

(** [net.JoinHostPort]. *)
Definition JoinHostPort (host port : str) : str :=
  if bool_decide (":"%char ∈ host) then "[" ++ host ++ "]:" ++ port else host ++ ":" ++ port.

Section Client.
Context {U : Unicode} {UP : URLParser} {JS : RecursorJSON} {T : Type} {TR : Transport T} {RV : Resolver T}.
Context (c : HTTPClient).
Abbreviation N := (Net T).

Definition Enabled : bool := enabled c.
Definition zonesPath : str := "/api/v1/servers/" ++ Url.PathEscape (serverID c) ++ "/zones".
Definition headers (key : str) (inp : option str) : list (str * str) :=
  (PdnsHttp.apiHeader, key) :: match inp with Some _ => [("Content-Type" : str, "application/json" : str)] | None => [] end.

(** One call: the status (0 when there was no reply) and the body. *)
Definition do (method path : str) (inp : option str) : M N (Z * res str) :=
  k ← key;
  match k with
  | Err _ | Ok [] => mret (0, Err (Wrapf (GoError.New RecursorErrUnavailable) "API key unavailable"))
  | Ok k =>
    match url_Parse (base c ++ path) with
    | None => mret (0, Err (Plain "recursor: build request"))
    | Some _ =>
      resp ← send (mkRequest method (base c ++ path) (headers k inp) inp);
      mret match resp with
      | Err _ => (0, Err (Wrapf (GoError.New RecursorErrUnavailable) (method ++ " request failed")))
      | Ok resp =>
        let raw := (ReadLimited maxBody resp).1 in
        if (StatusCode resp <? 200) || (299 <? StatusCode resp)
        then (StatusCode resp, Err (StatusError (StatusCode resp) (sanitize raw k)))
        else (StatusCode resp, Ok raw)
      end
    end
  end.

Definition To4 (a : Netip.Addr) : option Netip.Addr := if Netip.Is4 (Netip.Unmap a) then Some (Netip.Unmap a) else None.
Definition lookup (host : str) : M N (res (list Netip.Addr)) := λ n,
  let '(r, t) := LookupIPAddr host (net n) in (r, mkNet t (sent n)).
Definition target : M N (res str) :=
  let port := Itoa (fwdPort c) in
  match Netip.ParseAddr (fwdHost c) with
  | Some a => mret (Ok (JoinHostPort (Netip.String a) port))
  | None =>
    r ← lookup (fwdHost c);
    mret match r with
    | Err _ | Ok [] => Err (Wrapf (GoError.New RecursorErrUnavailable) "cannot resolve the authoritative host")
    | Ok ((a0 :: _) as addrs) =>
      match omap To4 addrs with
      | v4 :: _ => Ok (JoinHostPort (Netip.String v4) port)
      | [] => Ok (JoinHostPort (Netip.String a0) port)
      end
    end
  end.

Definition SyncForward (zone : str) : M N (res unit) :=
  if negb (enabled c) then mret (Ok ())
  else match Recursor.canon zone with
  | Err e => mret (Err e)
  | Ok name =>
    target_ ←? target;
    _ ← do "DELETE" (zonesPath ++ "/" ++ Url.PathEscape name) None;
    r ← do "POST" zonesPath (Some (marshalZone (mkPayload name "Forwarded" [target_] false)));
    mret match r.2 with Ok _ => Ok () | Err e => Err e end
  end.

Definition RemoveForward (zone : str) : M N (res unit) :=
  if negb (enabled c) then mret (Ok ())
  else match Recursor.canon zone with
  | Err e => mret (Err e)
  | Ok name =>
    r ← do "DELETE" (zonesPath ++ "/" ++ Url.PathEscape name) None;
    mret (if (r.1 =? 404) || (r.1 =? 422) then Ok () else match r.2 with Ok _ => Ok () | Err e => Err e end)
  end.

Definition ListForwards : M N (res (list str)) :=
  if negb (enabled c) then mret (Ok [])
  else
    r ← do "GET" zonesPath None;
    mret match r.2 with
    | Err e => Err e
    | Ok raw =>
      match unmarshalZones raw with
      | Err e => Err (Wrap2 (Plain "recursor: decode zones") e [])
      | Ok zones => Ok (map fst (filter (λ z, EqualFold z.2 "Forwarded" = true) zones))
      end
    end.

Definition Ready : M N (res unit) :=
  if negb (enabled c) then mret (Ok ())
  else r ← do "GET" ("/api/v1/servers/" ++ Url.PathEscape (serverID c)) None; mret match r.2 with Ok _ => Ok () | Err e => Err e end.

(** The client as the services use it. *)
#[global] Instance http_recursor : RecursorClient N := {| rec_SyncForward := SyncForward; rec_RemoveForward := RemoveForward |}.
End Client.
End RecursorHttp.

(** ** What the client makes of the recursor's forwards *)

Module RecursorHttpSpec.
Import Http RecursorHttp.

Definition success (r : Response) : bool := (200 <=? StatusCode r) && (StatusCode r <=? 299).

(** What the recursor's API does to the forwards: a deletion removes the entry or,
    answered 404 or 422, there was none; a creation needs a free name; a refusal
    changes nothing; and a reply that was lost may have been either.  The key
    source and the name resolver do not touch them; a resolver's addresses are
    IPv4 or IPv6 addresses without a zone. *)
Class RecursorAPI (T : Type) {JS : RecursorJSON} {TR : Transport T} {RV : Resolver T} (c : HTTPClient) := {
  forwards : T → gmap str (list str);
  api_key t : forwards (t_Key t).2 = forwards t;
  api_lookup host t r t' : LookupIPAddr host t = (r, t') →
    forwards t' = forwards t ∧ ∀ l, r = Ok l → Forall (λ a, Masters.in_range a ∧ Netip.zone_of a = []) l;
  api_delete name h t r t' :
    t_Do (mkRequest "DELETE" (base c ++ zonesPath c ++ "/" ++ Url.PathEscape name) h None) t = (r, t') →
    match r with
    | Ok x => if success x then forwards t' = delete name (forwards t)
              else forwards t' = forwards t ∧ (StatusCode x = 404 ∨ StatusCode x = 422 → forwards t !! name = None)
    | Err _ => forwards t' = forwards t ∨ forwards t' = delete name (forwards t)
    end;
  api_create p h t r t' :
    t_Do (mkRequest "POST" (base c ++ zonesPath c) h (Some (marshalZone p))) t = (r, t') →
    match r with
    | Ok x => if success x then forwards t !! ZpName p = None ∧ forwards t' = <[ZpName p := ZpServers p]> (forwards t)
              else forwards t' = forwards t
    | Err _ => forwards t' = forwards t ∨ forwards t' = <[ZpName p := ZpServers p]> (forwards t)
    end
}.

(** *** Addresses *)

Lemma rec_string4_no_colon b : ":"%char ∉ Netip.string4 b.
Proof.
  intros H. assert (Hf : Forall (λ x, x ≠ ":"%char) (Netip.string4 b)); [|rewrite Forall_forall in Hf; by apply Hf in H].
  unfold Netip.string4. apply Join_Forall; [|by repeat constructor]. unfold Netip.As4. rewrite map_map. apply Forall_map, Forall_true. intros k.
  destruct (NetipText.octet_text _ (NetipText.v4_range k b)) as (_ & Hh & _). eapply Forall_impl; [exact Hh|]. intros x Hx. by apply NetipText.hexc_sep in Hx as [? _].
Qed.
Lemma JoinHostPort_addr a p : a ≠ Netip.Invalid → JoinHostPort (Netip.String a) (Itoa p) = Netip.AddrPortString a p.
Proof.
  intros Ha. unfold JoinHostPort, Netip.AddrPortString. destruct a as [|b|b z]; [done| |].
  - rewrite bool_decide_eq_false_2; [done|]. apply rec_string4_no_colon.
  - rewrite bool_decide_eq_true_2; [done|]. cbn [Netip.String]. apply elem_of_app. left. case_if as E; [apply elem_of_cons; by left|].
    destruct (NetipText.string6_first b) as (w & r & -> & _). apply elem_of_app. right. apply elem_of_cons. by left.
Qed.
Lemma ParseAddr_zoneless s a : "%"%char ∉ s → Netip.ParseAddr s = Some a → Netip.zone_of a = [].
Proof.
  intros Hs. unfold Netip.ParseAddr. assert (H : ∀ rest, Netip.parse_dispatch s rest = Some a → Netip.zone_of a = []); [|apply H].
  induction rest as [|x rest IH]; [done|]. cbn [Netip.parse_dispatch]. case_if as E1.
  { unfold Netip.parseIPv4. destruct (Netip.parse_fields s) as [bs|]; [|done]. cbn. by intros [= <-]. }
  case_if as E2; [|case_if as E3; [done|exact IH]]. unfold Netip.parseIPv6. rewrite SplitByte_nosep by done. cbn [bool_decide decide_rel default].
  destruct (if HasPrefix s "::" then _ else _) as [ell s']. case_if as E3; [done|]. case_if as E4; [by intros [= <-]|].
  destruct (Netip.parse_groups _ _ _ _) as [[[ip ell'] rest']|]; [|done]. cbn. case_if as E5; [done|]. destruct ell'; case_if as E6; try done; by intros [= <-].
Qed.
Lemma hostRE_zoneless s : hostRE s = true → "%"%char ∉ s.
Proof.
  unfold hostRE. destruct s as [|x s]; [done|]. destruct (last _); [|done]. intros [[[Hx _]%andb_true_iff Hf]%andb_true_iff _]%andb_true_iff.
  assert (Hb : ∀ b, negb (bool_decide (b = "%"%char)) || negb (Url.alnum b || host_byte b) = true) by by_bytes.
  assert (Hn : ∀ b, Url.alnum b || host_byte b = true → b ≠ "%"%char).
  { intros b H1 ->. specialize (Hb "%"%char). by rewrite H1 in Hb. }
  rewrite elem_of_cons. intros [E|Hin]; [by apply (Hn x); [rewrite Hx|]|]. apply forallb_Forall in Hf. rewrite Forall_forall in Hf.
  apply (Hn "%"%char); [|done]. rewrite (Hf _ Hin). apply orb_true_r.
Qed.

(** What [New] guarantees of an enabled client. *)
Definition built (c : HTTPClient) : Prop := enabled c = true → hostRE (fwdHost c) = true ∧ 1 ≤ fwdPort c ≤ 65535.
Lemma New_built {UP : URLParser} cfg c : New cfg = Ok c → built c.
Proof.
  unfold New, built. case_if as E0; [by intros [= <-]|]. destruct (base_ok _); [|done]. case_if as E1; [done|]. case_if as E2; [done|]. intros [= <-] _. cbn [fwdHost fwdPort].
  apply orb_false_iff in E2 as [[[_ E2]%orb_false_iff E3]%orb_false_iff E4]. apply negb_false_iff in E2. apply Z.ltb_ge in E3, E4. done.
Qed.

Section Spec.
Context {U : Unicode} {UP : URLParser} {JS : RecursorJSON} {T : Type} {TR : Transport T} {RV : Resolver T}.
Context (c : HTTPClient) {API : RecursorAPI T c} (Hc : built c).
Definition fw (n : Net T) : gmap str (list str) := forwards (net n).

(** The address a zone is pointed at: an IP address with the configured port, as
    the recursor's API needs it. *)
Definition points_at (t : str) : Prop := ∃ a, Netip.ParseAddrPort t = Some (a, fwdPort c).

Lemma target_addr a : enabled c = true → Masters.in_range a → Netip.zone_of a = [] → points_at (JoinHostPort (Netip.String a) (Itoa (fwdPort c))).
Proof.
  intros He Hr Hz. destruct (Hc He) as [_ Hp]. exists a. rewrite JoinHostPort_addr by (by destruct a).
  apply NetipText.ParseAddrPort_String; [done..|lia].
Qed.
Lemma target_run n r n' : enabled c = true → target c n = (r, n') → fw n' = fw n ∧ ∀ t, r = Ok t → points_at t.
Proof.
  intros He. unfold target. destruct (Netip.ParseAddr (fwdHost c)) as [a|] eqn:Ea.
  { intros [= <- <-]. split; [done|]. intros t [= <-]. apply target_addr; [done|by eapply Masters.ParseAddr_range|].
    eapply ParseAddr_zoneless; [|exact Ea]. apply hostRE_zoneless. by apply Hc. }
  unfold mbind, M_bind, lookup. destruct (LookupIPAddr _ _) as [l t'] eqn:El. intros [= <- <-]. apply api_lookup in El as [Hf Hl]. split; [exact Hf|].
  intros t. destruct l as [[|a0 l]|e]; [done| |done]. specialize (Hl _ eq_refl). destruct (omap To4 (a0 :: l)) as [|v l'] eqn:Eo.
  - intros [= <-]. apply Forall_cons in Hl as [[? ?] _]. by apply target_addr.
  - intros [= <-]. assert (Hv : v ∈ omap To4 (a0 :: l)) by (rewrite Eo; set_solver). apply list_elem_of_omap in Hv as (b & Hb & Hv).
    rewrite Forall_forall in Hl. destruct (Hl b Hb) as [Hr Hz]. unfold To4 in Hv. case_if in Hv as E4; [|done]. injection Hv as <-.
    destruct (Masters.Unmap_range b Hr) as (? & ? & _). apply target_addr; auto.
Qed.

Lemma rec_do_run method path inp n x n' : do c method path inp n = (x, n') →
  (fw n' = fw n ∧ x.1 = 0 ∧ ∃ e, x.2 = Err e) ∨
  ∃ h resp t, forwards t = fw n ∧ t_Do (mkRequest method (base c ++ path) h inp) t = (resp, net n') ∧
    match resp with
    | Err _ => x.1 = 0 ∧ ∃ e, x.2 = Err e
    | Ok r => x.1 = StatusCode r ∧ if success r then ∃ raw, x.2 = Ok raw else ∃ e, x.2 = Err e
    end.
Proof.
  unfold do, key. unfold mbind at 1, M_bind at 1. destruct (t_Key (net n)) as [k t] eqn:Ek. pose proof (api_key (net n)) as Hk. rewrite Ek in Hk. cbn [snd] in Hk.
  destruct k as [[|k0 k]|e]; [intros [= <- <-]; left; eauto| |intros [= <- <-]; left; eauto].
  destruct (url_Parse _); [|intros [= <- <-]; left; eauto]. unfold mbind, M_bind, send. destruct (t_Do _ _) as [resp t'] eqn:Ed. intros [= <- <-].
  right. eexists _, resp, t. split; [done|]. split; [exact Ed|]. destruct resp as [r|]; [|split; [done|by eexists]]. case_if as E.
  - split; [done|]. unfold success. replace (_ && _) with false; [by eexists|]. symmetry. apply andb_false_iff. apply orb_true_iff in E as [E|E]; apply Z.ltb_lt in E; [left|right]; apply Z.leb_gt; lia.
  - split; [done|]. unfold success. apply orb_false_iff in E as [E1%Z.ltb_ge E2%Z.ltb_ge]. rewrite (proj2 (Z.leb_le _ _) E1), (proj2 (Z.leb_le _ _) E2). by eexists.
Qed.

(** The text of a refusal is free of the key that was sent, as in the other
    client. *)
Theorem status_hides_key method path inp n st m x n' k :
  do c method path inp n = ((x, Err (StatusError st m)), n') → (t_Key (net n)).1 = Ok k → opaque k →
  Contains m k = false ∧ Forall visible m ∧ Z.of_nat (length m) ≤ maxMessage.
Proof.
  unfold do, key. unfold mbind at 1, M_bind at 1. destruct (t_Key (net n)) as [k' t] eqn:Ek. cbn [fst]. intros H -> Ho.
  destruct k as [|k0 k]; [done|]. destruct (url_Parse _); [|done]. unfold mbind, M_bind, send in H. destruct (t_Do _ _) as [[r|] t'] eqn:Ed; [|done].
  unfold mret, M_ret in H. cbv zeta in H. destruct ((StatusCode r <? 200) || (299 <? StatusCode r)); [|done].
  assert (m = sanitize (ReadLimited maxBody r).1 (k0 :: k)) as -> by congruence. unfold sanitize.
  split_and!; [|apply cut_Forall, tidy_visible|by apply cut_length]. eapply prefix_clean; [apply cut_prefix|]. by apply (tidy_clean (lit "redacted")).
Qed.

Lemma rec_delete_run name n x n' :
  do c "DELETE" (zonesPath c ++ "/" ++ Url.PathEscape name) None n = (x, n') →
  (fw n' = fw n ∨ fw n' = delete name (fw n)) ∧ ((∃ raw, x.2 = Ok raw) ∨ x.1 = 404 ∨ x.1 = 422 → fw n' = delete name (fw n)).
Proof.
  intros H. apply rec_do_run in H as [(Hf & Hx & e & He)|(h & resp & t & Ht & Hd & H)].
  { split; [by left|]. intros [[raw ?]|[?|?]]; congruence. }
  apply api_delete in Hd. rewrite Ht in Hd. destruct resp as [r|].
  - destruct H as [Hs H]. destruct (success r); [by split; [right|]|]. destruct Hd as [Hd H0], H as [e He]. split; [by left|].
    intros [[raw ?]|Hst]; [congruence|]. rewrite Hs in Hst. unfold fw. rewrite Hd, delete_id; [done|by apply H0].
  - destruct H as [Hs [e1 He]]. split; [done|]. intros [[raw ?]|[?|?]]; congruence.
Qed.

(** [SyncForward] re-points one zone: whatever the API answers, no other
    forward changes; when it succeeds the zone's forward is exactly the
    authoritative server's address, an IP address with the configured port, and
    not a host name; when it fails the forward is the old one, the new one or,
    between the deletion and the creation, gone. *)
Theorem SyncForward_repoints zone n r n' :
  enabled c = true → SyncForward c zone n = (r, n') →
  match r with
  | Ok _ => ∃ t, points_at t ∧ fw n' = <[Recursor.canonicalForward zone := [t]]> (fw n)
  | Err _ => fw n' = fw n ∨ fw n' = delete (Recursor.canonicalForward zone) (fw n) ∨
             ∃ t, points_at t ∧ fw n' = <[Recursor.canonicalForward zone := [t]]> (fw n)
  end.
Proof.
  intros He H. unfold SyncForward in H. rewrite He in H. cbn [negb] in H.
  destruct (Recursor.canon zone) as [name|e] eqn:En; [|injection H as <- <-; by left].
  apply Recursor.canon_Ok in En as [-> _]. set (name := Recursor.canonicalForward zone) in *. unfold try_ in H. destruct (target c n) as [t n1] eqn:Et.
  apply target_run in Et as [Hf1 Ht]; [|done]. destruct t as [t|e]; [|injection H as <- <-; by left]. specialize (Ht t eq_refl).
  unfold mbind at 1, M_bind at 1 in H. destruct (do c "DELETE" _ _ n1) as [x n2] eqn:Ed. apply rec_delete_run in Ed as [Hd _]. rewrite Hf1 in Hd.
  unfold mbind at 1, M_bind at 1 in H. destruct (do c "POST" _ _ n2) as [y n3] eqn:Ep. injection H as <- <-.
  assert (Hins : <[name := [t]]> (fw n2) = <[name := [t]]> (fw n)) by (destruct Hd as [-> | ->]; [done|apply insert_delete_eq]).
  apply rec_do_run in Ep as [(Hp & _ & e & ->)|(h & resp & t0 & Ht0 & Hp & Hy)]; [rewrite Hp; tauto|].
  apply api_create in Hp. cbn [ZpName ZpServers] in Hp. fold (fw n3) in Hp. rewrite Ht0, Hins in Hp.
  destruct resp as [rs|].
  - destruct Hy as [_ Hy]. destruct (success rs).
    + destruct Hy as [raw ->]. exists t. by destruct Hp.
    + destruct Hy as [e ->]. rewrite Hp. tauto.
  - destruct Hy as [_ [e1 ->]]. destruct Hp as [-> | Hp]; [tauto|]. right. right. by exists t.
Qed.

(** A removal that succeeds leaves no forward of the zone; one that fails touches
    no other. *)
Theorem RemoveForward_removes zone n r n' :
  enabled c = true → RemoveForward c zone n = (r, n') →
  match r with
  | Ok _ => fw n' = delete (Recursor.canonicalForward zone) (fw n)
  | Err _ => fw n' = fw n ∨ fw n' = delete (Recursor.canonicalForward zone) (fw n)
  end.
Proof.
  intros He H. unfold RemoveForward in H. rewrite He in H. cbn [negb] in H.
  destruct (Recursor.canon zone) as [name|e] eqn:En; [|injection H as <- <-; by left]. apply Recursor.canon_Ok in En as [-> _].
  unfold mbind at 1, M_bind at 1 in H. destruct (do c "DELETE" _ _ n) as [x n1] eqn:Ed. apply rec_delete_run in Ed as [Hd Hok]. injection H as <- <-.
  destruct ((x.1 =? 404) || (x.1 =? 422)) eqn:E; [apply Hok; right; apply orb_true_iff in E as [E|E]; apply Z.eqb_eq in E; auto|]. destruct x.2 as [raw|e]; [|done]. apply Hok. left. eauto.
Qed.
End Spec.

(** ** A concrete recursor *)

Module Concrete.
#[local] Existing Instance unicode_min.
#[local] Instance parser : URLParser := λ s, Some (mkURL "http" "recursor" false [] [] s).
Definition client : HTTPClient := mkClient true "http://recursor:8082" "localhost" "pdns-auth" 5300.

#[local] Instance payload_eq : EqDecision zonePayload. Proof. solve_decision. Defined.
#[local] Instance payload_countable : Countable zonePayload :=
  inj_countable' (λ p, (ZpName p, ZpKind p, ZpServers p, ZpRecursionDesired p)) (λ '(a, b, c, d), mkPayload a b c d) ltac:(by intros []).
#[local] Instance codec : RecursorJSON := {| marshalZone := Codec.marshal; unmarshalZones _ := Ok [] |}.
Record Api := mkApi { entries : gmap str (list str) }.
Definition zone_at (url : str) : str := Url.PathUnescape (TrimPrefix url (base client ++ zonesPath client ++ "/")).
Definition serve (r : Request) (t : Api) : res Response * Api :=
  if bool_decide (Method r = lit "DELETE") then
    if bool_decide (is_Some (entries t !! zone_at (URL r)))
    then (Ok (mkResponse 204 [] false), mkApi (delete (zone_at (URL r)) (entries t))) else (Ok (mkResponse 404 "Not Found" false), t)
  else match Codec.unmarshal (default [] (ReqBody r)) with
  | Err e => (Ok (mkResponse 400 "Bad Request" false), t)
  | Ok p =>
    if bool_decide (is_Some (entries t !! ZpName p)) then (Ok (mkResponse 409 "Conflict" false), t)
    else (Ok (mkResponse 201 [] false), mkApi (<[ZpName p := ZpServers p]> (entries t)))
  end.
#[local] Instance api : Transport Api := {| t_Do := serve; t_Key t := (Ok (lit "key"), t) |}.
#[local] Instance names : Resolver Api := λ _ t, (Ok [Netip.V6 1 []; Netip.V4 2886991877], t).
#[local] Instance served : RecursorAPI Api client.
Proof.
  refine {| forwards := entries |}.
  - done.
  - intros host t r t' [= <- <-]. split; [done|]. intros l [= <-]. repeat constructor; by vm_compute.
  - intros name h t r t'. unfold t_Do, api, serve. cbn [Method URL ReqBody]. rewrite bool_decide_eq_true_2 by done.
    assert (Hz : zone_at (base client ++ zonesPath client ++ "/" ++ Url.PathEscape name) = name).
    { transitivity (Url.PathUnescape (Url.PathEscape name)); [|apply Url.PathUnescape_PathEscape]. unfold zone_at. apply (f_equal Url.PathUnescape). generalize (base client) (zonesPath client) (Url.PathEscape name). intros a b d. rewrite !app_assoc. apply TrimPrefix_app. }
    rewrite Hz. case_bool_decide as E; intros [= <- <-]; [done|]. split; [done|]. intros _. by apply eq_None_not_Some.
  - intros p h t r t'. unfold t_Do, api, serve. cbn [Method URL ReqBody default]. rewrite bool_decide_eq_false_2 by done.
    unfold marshalZone, codec. cbn [from_option id]. rewrite Codec.unmarshal_marshal. case_bool_decide as E; intros [= <- <-]; [done|].
    split; [by apply eq_None_not_Some|done].
Defined.

Definition net0 : Net Api := mkNet (mkApi {[ ("example.com." : str) := ["10.9.9.9:53" : str]; ("corp." : str) := ["10.0.0.1:53" : str] ]}) [].
Lemma SyncForward_repoints_witness :
  ∃ r n', SyncForward client "Example.COM" net0 = (Ok r, n') ∧ fw client n' = <[ ("example.com." : str) := ["172.20.0.5:5300" : str] ]> (fw client net0).
Proof.
  destruct (SyncForward client "Example.COM" net0) as [r n'] eqn:E.
  assert (Hb : built client) by (intros _; split; [reflexivity|split; apply Z.leb_le; reflexivity]).
  pose proof (SyncForward_repoints client Hb "Example.COM" net0 r n' eq_refl E) as H.
  assert (Hr : is_ok (SyncForward client "Example.COM" net0).1 = true) by (vm_compute; reflexivity). rewrite E in Hr.
  assert (Hl : entries (net (SyncForward client "Example.COM" net0).2) !! ("example.com." : str) = Some ["172.20.0.5:5300" : str]) by (vm_compute; reflexivity).
  rewrite E in Hl. cbn [snd] in Hl. destruct r as [x|]; [|discriminate Hr]. destruct H as (t & _ & H).
  assert (Hc : Recursor.canonicalForward "Example.COM" = "example.com.") by (vm_compute; reflexivity). rewrite Hc in H.
  exists x, n'. split; [reflexivity|]. unfold fw, forwards, served in H. rewrite H in Hl. rewrite lookup_insert_eq in Hl. injection Hl as Ht. rewrite Ht in H. exact H.
Defined.
End Concrete.
End RecursorHttpSpec.
