(* ===== verification/Secrets.v ===== *)
(** * The API keys ([internal/secrets/secrets.go])

    A reference names a warden secret or, in development, a file; [Resolver]
    fetches it and [Cached] keeps the value for a refresh interval, and longer
    while it cannot be fetched again.  The file system, the warden service and the
    clock are the environment [SecretEnv]. *)
From Stdlib Require Import Ascii.
From S2P Require Import Prelude GoStrings GoError Store Authz MemStore Pdns Recursor World Url HttpText PdnsHttp.
Local Open Scope Z_scope.

Module Secrets.

(** [os.ReadFile], [SecretsClient.GetPassword] with the token it is called with
    (an error is its status code), and [time.Now] in nanoseconds. *)
Class SecretEnv (T : Type) := {
  os_ReadFile : str → T → res str * T;
  GetPassword : str → str → T → (str + str) * T;
  time_Now : T → Z * T
}.

Section Fetching.
Context {T : Type} {SE : SecretEnv T}.

Definition Fetcher : Type := str → M T (res str).
Definition TokenFunc : Type := M T (res str).

Definition unavailable {A} (what : str) : res A := Err (Wrapf (New SecretsErrUnavailable) what).
Definition FileToken (path : str) : TokenFunc :=
  raw ← os_ReadFile path;
  mret match raw with
  | Err _ => unavailable "platform token unreadable"
  | Ok raw => if bool_decide (TrimSpace raw = []) then unavailable "platform token empty" else Ok (TrimSpace raw)
  end.

(** A warden fetcher may be built without a client or a token source. *)
Record Warden := mkWarden { HasClient : bool; Token : option TokenFunc }.
Definition WardenFetch (w : option Warden) (id : str) : M T (res str) :=
  match w with
  | Some (mkWarden true (Some token)) =>
    tok ←? token;
    r ← GetPassword ("Bearer " ++ tok) id;
    mret match r with inl code => unavailable ("warden: " ++ code) | inr password => Ok password end
  | _ => mret (Err (New SecretsErrUnavailable))
  end.

Record Resolver := mkResolver { RWarden : option Fetcher; AllowFile : bool }.
Definition Fetch (r : Resolver) (ref : str) : M T (res str) :=
  let ref := TrimSpace ref in
  if bool_decide (ref = []) then mret (Err (New SecretsErrNotConfigured))
  else if HasPrefix ref "file:" then
    if negb (AllowFile r) then mret (unavailable "file references are disabled")
    else
      raw ← os_ReadFile (TrimPrefix ref "file:");
      mret match raw with Err _ => unavailable "file reference unreadable" | Ok raw => Ok (TrimSpace raw) end
  else
    let id := TrimPrefix ref "warden:" in
    if bool_decide (id = []) then mret (Err (New SecretsErrNotConfigured))
    else match RWarden r with
    | None => mret (unavailable "warden not wired")
    | Some f => f id
    end.

(** ** The cache *)

Record entry := mkEntry { val : str; at_ : Z }.
Record CachedConfig := mkCachedConfig { CFetcher : option Fetcher; PDNSRef : str; RecursorRef : str; Refresh : Z; MaxStale : Z }.
(** The environment and the cache; [fetched] and [clock] are the history: what was
    stored, and the last reading of the clock. *)
Record Cached := mkCached { env : T; cache : gmap str entry; fetched : list (str * str * Z); clock : Z }.

Definition on_env {A} (m : M T A) : M Cached A := λ c, let '(a, t) := m (env c) in (a, mkCached t (cache c) (fetched c) (clock c)).
Definition now : M Cached Z := λ c, let '(n, t) := time_Now (env c) in (n, mkCached t (cache c) (fetched c) n).
Definition store (ref : str) (e : entry) : M Cached unit := λ c,
  ((), mkCached (env c) (<[ref := e]> (cache c)) (fetched c ++ [(ref, val e, at_ e)]) (clock c)).
(** [Time.Sub]: the difference, as close as 64 bits allow. *)
Definition Sub (t u : Z) : Z := Z.max (- 2 ^ 63) (Z.min (2 ^ 63 - 1) (t - u)).
Definition maxStale (cfg : CachedConfig) : Z := if MaxStale cfg <=? 0 then Http.int64 (10 * Refresh cfg) else MaxStale cfg.

Section Cache.
Context (cfg : CachedConfig).

Definition young (e : option entry) (limit : Z) : M Cached (option str) :=
  match e with
  | Some e => n ← now; mret (if Sub n (at_ e) <? limit then Some (val e) else None)
  | None => mret None
  end.
Definition get (ref : str) : M Cached (res str) :=
  if bool_decide (TrimSpace ref = []) then mret (Err (New SecretsErrNotConfigured))
  else λ c,
    let e := cache c !! ref in
    (hit ← young e (Refresh cfg);
     match hit with
     | Some v => mret (Ok v)
     | None =>
       match CFetcher cfg with
       | None => mret (Err (New SecretsErrUnavailable))
       | Some f =>
         v ← on_env (f ref);
         match (match v with Ok [] => Err (New SecretsErrEmpty) | v => v end) with
         | Ok v => n ← now; _ ← store ref (mkEntry v n); mret (Ok v)
         | Err x => stale ← young e (maxStale cfg); mret match stale with Some v => Ok v | None => Err x end
         end
       end
     end) c.
Definition PDNSAPIKey : M Cached (res str) := get (PDNSRef cfg).
Definition RecursorAPIKey : M Cached (res str) := get (RecursorRef cfg).
Definition Invalidate : M Cached unit := λ c, ((), mkCached (env c) ∅ (fetched c) (clock c)).
Definition NewCached (t : T) : Cached := mkCached t ∅ [] 0.

(** *** What is served *)

(** A cached value was fetched, is not empty, and is remembered with its time. *)
Definition cache_ok (c : Cached) : Prop := map_Forall (λ ref e, (ref, val e, at_ e) ∈ fetched c ∧ val e ≠ []) (cache c).

Lemma young_run e limit c o c' : young e limit c = (o, c') →
  cache c' = cache c ∧ fetched c' = fetched c ∧
  match e with
  | Some e => o = (if Sub (clock c') (at_ e) <? limit then Some (val e) else None)
  | None => o = None
  end.
Proof.
  unfold young. destruct e as [e|]; [|by intros [= <- <-]]. unfold mbind, M_bind, now. destruct (time_Now (env c)) as [n t]. by intros [= <- <-].
Qed.

Lemma cache_get_run ref c r c' : get ref c = (r, c') → cache_ok c → cache_ok c' ∧
  match r with
  | Ok v => v ≠ [] ∧ ∃ a, (ref, v, a) ∈ fetched c' ∧ (a = clock c' ∨ Sub (clock c') a < Refresh cfg ∨ Sub (clock c') a < maxStale cfg)
  | Err _ => TrimSpace ref = [] ∨ CFetcher cfg = None ∨ cache c !! ref = None ∨ ∃ e, cache c !! ref = Some e ∧ maxStale cfg ≤ Sub (clock c') (at_ e)
  end.
Proof.
  unfold get. case_bool_decide as Er; [intros [= <- <-]; auto|]. unfold mbind at 1, M_bind at 1. destruct (young (cache c !! ref) (Refresh cfg) c) as [hit c1] eqn:E1.
  apply young_run in E1 as (Hc1 & Hf1 & H1). intros H Hok. assert (Hok1 : cache_ok c1) by (unfold cache_ok; by rewrite Hc1, Hf1).
  destruct hit as [v|].
  { injection H as <- <-. split; [done|]. destruct (cache c !! ref) as [e|] eqn:Ee; [|done]. destruct (Sub (clock c1) (at_ e) <? Refresh cfg) eqn:Es; [|done]. injection H1 as ->.
    destruct (Hok ref e Ee) as [Hin Hne]. split; [done|]. exists (at_ e). rewrite Hf1. split; [done|]. apply Z.ltb_lt in Es. auto. }
  destruct (CFetcher cfg) as [f|]; [|injection H as <- <-; auto]. unfold mbind at 1, M_bind at 1, on_env in H. destruct (f ref (env c1)) as [v t].
  set (c2 := mkCached t _ _ _) in H. assert (Hok2 : cache_ok c2) by done.
  assert (Hmiss : ∀ x, (stale ← young (cache c !! ref) (maxStale cfg); mret match stale with Some v => Ok v | None => Err x end) c2 = (r, c') → cache_ok c' ∧
    match r with
    | Ok v => v ≠ [] ∧ ∃ a, (ref, v, a) ∈ fetched c' ∧ (a = clock c' ∨ Sub (clock c') a < Refresh cfg ∨ Sub (clock c') a < maxStale cfg)
    | Err _ => TrimSpace ref = [] ∨ Some f = None ∨ cache c !! ref = None ∨ ∃ e, cache c !! ref = Some e ∧ maxStale cfg ≤ Sub (clock c') (at_ e)
    end).
  { clear H. intros x H. unfold mbind, M_bind in H. destruct (young _ _ c2) as [stale c3] eqn:E3. apply young_run in E3 as (Hc3 & Hf3 & H3). injection H as <- <-.
    split; [unfold cache_ok; by rewrite Hc3, Hf3|]. destruct (cache c !! ref) as [e|] eqn:Ee; [|subst stale; auto]. rewrite H3. destruct (Sub (clock c3) (at_ e) <? maxStale cfg) eqn:Es.
    - destruct (Hok ref e Ee) as [Hin Hne]. split; [done|]. exists (at_ e). rewrite Hf3. cbn [c2 fetched]. rewrite Hf1. split; [done|]. apply Z.ltb_lt in Es. auto.
    - right. right. right. exists e. apply Z.ltb_ge in Es. auto. }
  destruct v as [[|v0 v]|x]; [by apply Hmiss in H| |by apply Hmiss in H]. unfold mbind, M_bind, now, store in H. destruct (time_Now (env c2)) as [n t']. injection H as <- <-.
  cbn [cache fetched clock val at_]. split; [|split; [done|]; exists n; split; [set_solver|by left]].
  unfold cache_ok. cbn [cache fetched]. intros ref' e. rewrite lookup_insert_Some. intros [[<- <-]|[_ He]]; [cbn [val at_]; set_solver|].
  destruct (Hok2 ref' e He). set_solver.
Qed.

Inductive step : Cached → Cached → Prop :=
  | step_get ref c : step c (get ref c).2
  | step_invalidate c : step c (Invalidate c).2
  | step_rest c t : step c (mkCached t (cache c) (fetched c) (clock c)).

Lemma reachable_ok t c : rtc step (NewCached t) c → cache_ok c.
Proof.
  intros H. assert (H0 : cache_ok (NewCached t)) by apply map_Forall_empty. revert H0. induction H as [|x y z Hxy _ IH]; intros Hx; [done|]. apply IH.
  destruct Hxy as [ref c|c|c t']; [|apply map_Forall_empty|done]. destruct (get ref c) as [r c'] eqn:E. by destruct (cache_get_run ref c r c' E Hx).
Qed.

(** The cache serves only recent keys and fails only without one: in any
    history of reads, invalidations and changes of the environment, a key that is
    served is not empty and was fetched for its reference just now, less than the
    refresh interval ago or, when it could not be fetched again, less than the
    stale limit ago; and a configured reference fails only when no value is kept
    or the kept one is as old as the stale limit. *)
Theorem get_fresh t c ref r c' :
  rtc step (NewCached t) c → get ref c = (r, c') →
  match r with
  | Ok v => v ≠ [] ∧ ∃ a, (ref, v, a) ∈ fetched c' ∧ (a = clock c' ∨ Sub (clock c') a < Refresh cfg ∨ Sub (clock c') a < maxStale cfg)
  | Err _ => TrimSpace ref = [] ∨ CFetcher cfg = None ∨ cache c !! ref = None ∨ ∃ e, cache c !! ref = Some e ∧ maxStale cfg ≤ Sub (clock c') (at_ e)
  end.
Proof. intros H%reachable_ok E. by destruct (cache_get_run ref c r c' E H). Qed.
End Cache.

(** Without [AllowFile] no reference reads a file: the outcome does not depend on
    the file system when the warden fetcher does not. *)
Lemma Fetch_no_file r ref t : AllowFile r = false → HasPrefix (TrimSpace ref) "file:" = true →
  ∃ e, Fetch r ref t = (Err e, t) ∧ only_kinds [SecretsErrUnavailable] e.
Proof.
  intros Ha Hp. unfold Fetch. rewrite Hp, Ha. rewrite bool_decide_eq_false_2 by (intros E; by rewrite E in Hp). cbn [negb]. eexists. split; [done|].
  intros s Hs. cbn in Hs. apply bool_decide_eq_true in Hs as ->. set_solver.
Qed.
End Fetching.

(** *** The in-memory source *)

Record Fake := mkFake { FPDNS : str; FRecursor : str; FErr : option error; PDNSHit : Z }.
Definition SetPDNS (v : str) (f : Fake) : Fake := mkFake v (FRecursor f) (FErr f) (PDNSHit f).
Definition SetErr (e : option error) (f : Fake) : Fake := mkFake (FPDNS f) (FRecursor f) e (PDNSHit f).
Definition fake_key (v : str) (e : option error) : res str :=
  match e with Some e => Err e | None => if bool_decide (v = []) then Err (New SecretsErrNotConfigured) else Ok v end.
Definition fakePDNSAPIKey (f : Fake) : res str * Fake :=
  (fake_key (FPDNS f) (FErr f), mkFake (FPDNS f) (FRecursor f) (FErr f) (PDNSHit f + 1)).
Definition fakeRecursorAPIKey (f : Fake) : res str * Fake := (fake_key (FRecursor f) (FErr f), f).
End Secrets.

(** ** The key of a request *)

Module SecretsSpec.
Import Secrets Http PdnsHttp PdnsHttpSpec.

(** A network with the cached source behind it, as the program wires the
    PowerDNS client. *)
Record Wired (Y T : Type) := mkWired { wire : Y; source : Cached (T := T) }.
Arguments mkWired {Y T}. Arguments wire {Y T}. Arguments source {Y T}.
Class Doer (Y : Type) := Do : Request → Y → res Response * Y.

Section Wiring.
Context {U : Unicode} {UP : URLParser} {JS : PdnsJSON} {Y T : Type} {DO : Doer Y} {SE : SecretEnv T}.
Context (cfg : CachedConfig (T := T)) (c : HTTPClient).

#[local] Instance wired : Transport (Wired Y T) := {|
  t_Do r w := let '(x, y) := Do r (wire w) in (x, mkWired y (source w));
  t_Key w := let '(k, s) := PDNSAPIKey cfg (source w) in (k, mkWired (wire w) s)
|}.

End Wiring.

(** ** A concrete source *)

Module Concrete.
#[local] Existing Instance unicode_min.
#[local] Existing Instance PdnsHttpSpec.Concrete.parser.
#[local] Existing Instance PdnsHttpSpec.Concrete.no_json.
(** A clock of one-second ticks and a warden that answers until it is down. *)
Record Env := mkEnv { ticks : Z; up : bool }.
#[local] Instance env_secrets : SecretEnv Env := {|
  os_ReadFile _ t := (Err (GoError.New FsErrNotExist), t);
  GetPassword _ _ t := (if up t then inr (lit "s3cr3tk3y") else inl (lit "Unavailable"), t);
  time_Now t := (ticks t, mkEnv (ticks t + 1) (up t))
|}.
Definition warden : Warden (T := Env) := mkWarden true (Some (λ t, (Ok (lit "token"), t))).
Definition cfg : CachedConfig (T := Env) :=
  mkCachedConfig (Some (Fetch (mkResolver (Some (WardenFetch (Some warden))) false))) "warden:pdns" [] 5 0.
Definition src0 : Cached (T := Env) := NewCached (mkEnv 0 true).
(** The key is fetched, then warden goes down and time passes. *)
Definition src1 : Cached (T := Env) := let c := (get cfg "warden:pdns" src0).2 in mkCached (mkEnv 20 false) (cache c) (fetched c) (clock c).
Lemma src1_reachable : rtc (step cfg) src0 src1.
Proof. eapply rtc_l; [apply step_get|]. apply rtc_once. apply step_rest. Qed.
Lemma get_fresh_witness :
  ∃ c', get cfg "warden:pdns" src1 = (Ok (lit "s3cr3tk3y"), c') ∧ ∃ a, (lit "warden:pdns", lit "s3cr3tk3y", a) ∈ fetched c' ∧ Sub (clock c') a < 50.
Proof.
  destruct (get cfg "warden:pdns" src1) as [r c'] eqn:E. pose proof (get_fresh cfg (mkEnv 0 true) src1 "warden:pdns" r c' src1_reachable E) as H.
  assert (Hr : (get cfg "warden:pdns" src1).1 = Ok (lit "s3cr3tk3y")) by (vm_compute; reflexivity). rewrite E in Hr. cbn [fst] in Hr. subst r.
  destruct H as (_ & a & Hin & Ha). exists c'. split; [reflexivity|]. exists a. split; [exact Hin|].
  change (Refresh cfg) with 5 in Ha. assert (Hm : maxStale cfg = 50) by (vm_compute; reflexivity). rewrite Hm in Ha.
  destruct Ha as [->|[Ha|Ha]]; [|lia|exact Ha]. unfold Sub. lia.
Defined.

#[local] Instance refusing : Doer unit := λ _ y, (Err (Plain "connection refused"), y).
#[local] Existing Instance wired.
Definition net1 : Net (Wired unit Env) := mkNet (mkWired () src1) [].
End Concrete.
End SecretsSpec.
