(* ===== verification/Sealed.v ===== *)
(** * Sealed settings ([internal/sealed/sealed.go])

    An envelope wraps a fresh data key with the key-encryption key and the
    settings with the data key, both bound to the associated data; credential
    fields are replaced by a marker in reads, kept by it in updates, and taken out
    of error texts.  AES-GCM, the random source and [encoding/json] are
    parameters; [encoding/base64] is modelled. *)
From Stdlib Require Import Ascii.
From S2P Require Import Prelude GoStrings GoError World HttpText Sha256.
Local Open Scope Z_scope.

(** ** [encoding/base64] *)

Module Base64.
Definition alphabet : str := "ABCDEFGHIJKLMNOPQRSTUVWXYZabcdefghijklmnopqrstuvwxyz0123456789+/".
Definition sextet (n : Z) : ascii := default "A"%char (alphabet !! Z.to_nat n).
Definition pad : ascii := "="%char.

Definition quad (v : Z) (n : nat) : str := take n [sextet (v / 262144); sextet ((v / 4096) `mod` 64); sextet ((v / 64) `mod` 64); sextet (v `mod` 64)].
Fixpoint encode (padded : bool) (s : str) : str :=
  match s with
  | a :: b :: c :: t => quad (code a * 65536 + code b * 256 + code c) 4 ++ encode padded t
  | [a; b] => quad (code a * 65536 + code b * 256) 3 ++ (if padded then [pad] else [])
  | [a] => quad (code a * 65536) 2 ++ (if padded then [pad; pad] else [])
  | [] => []
  end.
Definition EncodeToString (s : str) : str := encode true s.

Definition value (c : ascii) : option Z := (λ i, Z.of_nat i.1) <$> list_find (λ x, x = c) alphabet.
Definition triple (v : Z) (n : nat) : str := take n [chr (v / 65536); chr ((v / 256) `mod` 256); chr (v `mod` 256)].
(** Not strict: the bits of a last digit that belong to no byte are ignored. *)
Fixpoint decode (padded : bool) (s : str) : option str :=
  match s with
  | [] => Some []
  | a :: b :: c :: d :: t =>
    x ← value a; y ← value b;
    if padded && bool_decide (d = pad) then
      if bool_decide (t = []) then
        if bool_decide (c = pad) then Some (triple (x * 262144 + y * 4096) 1) else z ← value c; Some (triple (x * 262144 + y * 4096 + z * 64) 2)
      else None
    else
      z ← value c; u ← value d;
      r ← decode padded t; Some (triple (x * 262144 + y * 4096 + z * 64 + u) 3 ++ r)
  | [a; b; c] => if padded then None else x ← value a; y ← value b; z ← value c; Some (triple (x * 262144 + y * 4096 + z * 64) 2)
  | [a; b] => if padded then None else x ← value a; y ← value b; Some (triple (x * 262144 + y * 4096) 1)
  | [_] => None
  end.
Definition newline (c : ascii) : bool := (code c =? 10) || (code c =? 13).
Definition DecodeString (padded : bool) (s : str) : option str := decode padded (List.filter (λ c, negb (newline c)) s).

Lemma value_sextet n : 0 ≤ n < 64 → value (sextet n) = Some n ∧ sextet n ≠ pad ∧ newline (sextet n) = false.
Proof.
  intros Hn. assert (H : forallb (λ k, bool_decide (value (sextet (Z.of_nat k)) = Some (Z.of_nat k)) && negb (bool_decide (sextet (Z.of_nat k) = pad)) && negb (newline (sextet (Z.of_nat k)))) (seq 0 64) = true)
    by (vm_compute; reflexivity).
  rewrite forallb_forall in H. specialize (H (Z.to_nat n)). rewrite Z2Nat.id in H by lia. assert (In (Z.to_nat n) (seq 0 64)) as Hin by (apply in_seq; lia).
  apply H, andb_true_iff in Hin as [[H1 H2]%andb_true_iff H3]. apply bool_decide_eq_true in H1. apply negb_true_iff, bool_decide_eq_false in H2. by apply negb_true_iff in H3.
Qed.

(** A group of four digits and the bytes it stands for. *)
Lemma quad_digits v : 0 ≤ v < 16777216 →
  0 ≤ v / 262144 < 64 ∧ 0 ≤ (v / 4096) `mod` 64 < 64 ∧ 0 ≤ (v / 64) `mod` 64 < 64 ∧ 0 ≤ v `mod` 64 < 64 ∧
  v / 262144 * 262144 + (v / 4096) `mod` 64 * 4096 + (v / 64) `mod` 64 * 64 + v `mod` 64 = v.
Proof. intros Hv. Z.div_mod_to_equations. lia. Qed.
Lemma chr_code a : chr (code a) = a.
Proof. unfold chr, code. rewrite N2Z.id. apply ascii_N_embedding. Qed.
Lemma triple_bytes a b c : triple (code a * 65536 + code b * 256 + code c) 3 = [a; b; c].
Proof.
  pose proof (code_range a). pose proof (code_range b). pose proof (code_range c). unfold triple. cbn [take].
  assert (E1 : (code a * 65536 + code b * 256 + code c) / 65536 = code a) by (Z.div_mod_to_equations; lia).
  assert (E2 : ((code a * 65536 + code b * 256 + code c) / 256) `mod` 256 = code b) by (Z.div_mod_to_equations; lia).
  assert (E3 : (code a * 65536 + code b * 256 + code c) `mod` 256 = code c) by (Z.div_mod_to_equations; lia).
  by rewrite E1, E2, E3, !chr_code.
Qed.
Lemma pad_newline : newline pad = false.
Proof. reflexivity. Qed.

Lemma encode_ind (P : str → Prop) :
  P [] → (∀ a, P [a]) → (∀ a b, P [a; b]) → (∀ a b c t, P t → P (a :: b :: c :: t)) → ∀ s, P s.
Proof.
  intros H0 H1 H2 H3 s. assert (H : P s ∧ (∀ a, P (a :: s)) ∧ ∀ a b, P (a :: b :: s)); [|apply H].
  induction s as [|c s (I1 & I2 & I3)]; [auto|]. split_and!; [apply I2|intros a; apply (I3 a c)|]. intros a b. apply H3, I1.
Qed.
Lemma bytes_range a b c : 0 ≤ code a * 65536 + code b * 256 + code c < 16777216.
Proof. pose proof (code_range a). pose proof (code_range b). pose proof (code_range c). lia. Qed.
Lemma low_digits a b : (code a * 65536 + code b * 256) `mod` 64 = 0 ∧ ((code a * 65536) / 64) `mod` 64 = 0 ∧ (code a * 65536) `mod` 64 = 0.
Proof. split_and!; Z.div_mod_to_equations; lia. Qed.

(** The texts of both encodings read back. *)
Lemma decode_encode padded s : decode padded (encode padded s) = Some s.
Proof.
  induction s as [|a|a b|a b c t IH] using encode_ind; [done|..].
  - pose proof (bytes_range a zero zero) as Hr. change (code zero) with 0 in Hr. rewrite Z.add_0_r, Z.mul_0_l, Z.add_0_r in Hr.
    destruct (quad_digits _ Hr) as (D1 & D2 & D3 & D4 & E). destruct (low_digits a a) as (_ & L1 & L2). rewrite L1, L2 in E.
    destruct (value_sextet _ D1) as (V1 & _), (value_sextet _ D2) as (V2 & _). cbn [encode quad take app]. pose proof (triple_bytes a zero zero) as Ht.
    change (code zero) with 0 in Ht. rewrite Z.add_0_r, Z.mul_0_l, Z.add_0_r in Ht.
    destruct padded; cbn [decode app andb]; rewrite V1; cbn [mbind option_bind]; rewrite V2; cbn [mbind option_bind];
      rewrite ?(bool_decide_eq_true_2 (pad = pad)), ?(bool_decide_eq_true_2 (@nil ascii = [])) by done;
      replace (_ + _) with (code a * 65536) by lia; unfold triple in *; cbn [take] in *; by injection Ht as ->.
  - pose proof (bytes_range a b zero) as Hr. change (code zero) with 0 in Hr. rewrite Z.add_0_r in Hr.
    destruct (quad_digits _ Hr) as (D1 & D2 & D3 & D4 & E). destruct (low_digits a b) as (L1 & _). rewrite L1 in E.
    destruct (value_sextet _ D1) as (V1 & _), (value_sextet _ D2) as (V2 & _), (value_sextet _ D3) as (V3 & P3 & _). cbn [encode quad take app].
    pose proof (triple_bytes a b zero) as Ht. change (code zero) with 0 in Ht. rewrite Z.add_0_r in Ht.
    destruct padded; cbn [decode app andb]; rewrite V1; cbn [mbind option_bind]; rewrite V2; cbn [mbind option_bind];
      rewrite ?(bool_decide_eq_true_2 (pad = pad)), ?(bool_decide_eq_true_2 (@nil ascii = [])), ?(bool_decide_eq_false_2 _ P3), V3 by done;
      cbn [mbind option_bind]; replace (_ + _ + _) with (code a * 65536 + code b * 256) by lia; unfold triple in *; cbn [take] in *; by injection Ht as -> ->.
  - destruct (quad_digits _ (bytes_range a b c)) as (D1 & D2 & D3 & D4 & E).
    destruct (value_sextet _ D1) as (V1 & _), (value_sextet _ D2) as (V2 & _), (value_sextet _ D3) as (V3 & _), (value_sextet _ D4) as (V4 & P4 & _).
    cbn [encode quad take app decode]. rewrite V1. cbn [mbind option_bind]. rewrite V2. cbn [mbind option_bind]. rewrite (bool_decide_eq_false_2 _ P4), andb_false_r, V3.
    cbn [mbind option_bind]. rewrite V4. cbn [mbind option_bind]. rewrite IH. cbn [mbind option_bind]. by rewrite E, triple_bytes.
Qed.
Lemma encode_plain padded s : Forall (λ c, newline c = false ∧ c ≠ "["%char ∧ c ≠ "]"%char) (encode padded s).
Proof.
  assert (Hs : ∀ n, newline (sextet n) = false ∧ sextet n ≠ "["%char ∧ sextet n ≠ "]"%char).
  { intros n. unfold sextet. destruct (alphabet !! Z.to_nat n) as [x|] eqn:E; [|by vm_compute]. cbn [default].
    apply list_elem_of_lookup_2 in E. revert x E. apply Forall_forall. unfold alphabet. repeat constructor; by vm_compute. }
  induction s as [|a|a b|a b c t IH] using encode_ind; cbn [encode quad take app]; [by apply Forall_nil| | |do 4 (apply Forall_cons_2; [apply Hs|]); exact IH].
  all: repeat (apply Forall_cons_2; [apply Hs|]); destruct padded; repeat constructor; by vm_compute.
Qed.
Lemma DecodeString_encode padded s : DecodeString padded (encode padded s) = Some s.
Proof.
  unfold DecodeString. replace (List.filter _ _) with (encode padded s); [apply decode_encode|]. pose proof (encode_plain padded s) as H.
  induction H as [|c t [Hc _] _ IH]; [done|]. cbn [List.filter]. rewrite Hc. cbn [negb]. by f_equal.
Qed.
Example encode_text : EncodeToString "any carnal pleas" = "YW55IGNhcm5hbCBwbGVhcw==".
Proof. reflexivity. Qed.
End Base64.

(** ** Envelopes *)

Module Sealed.
Definition Marker : str := "__set__".
Definition MaxSettingsBytes : Z := 8192.
Definition NonceSize : nat := 12.
Definition Overhead : nat := 16.
Definition KeySize : nat := 32.

(** AES-256-GCM for a key, as [crypto/cipher] gives it. *)
Class AEAD := { gSeal : str → str → str → str → str; gOpen : str → str → str → str → option str }.
(** A sealed text opens to itself under its key, nonce and associated data; a text
    that opens is the one sealed from the result (the tag is recomputed); and it is
    16 bytes longer. *)
Class AEADLaws {G : AEAD} : Prop := {
  gOpen_gSeal k n p ad : gOpen k n (gSeal k n p ad) ad = Some p;
  gSeal_gOpen k n ct ad p : gOpen k n ct ad = Some p → ct = gSeal k n p ad;
  gSeal_length k n p ad : length (gSeal k n p ad) = (length p + Overhead)%nat
}.
(** [io.ReadFull] of the random source. *)
Class Random (R : Type) := {
  ReadFull : nat → R → res str * R;
  ReadFull_length n r s r' : ReadFull n r = (Ok s, r') → length s = n
}.

Record Envelope := mkEnvelope { kek : str }.
Definition NewEnvelope (k : str) : res Envelope := if negb (length k =? KeySize)%nat then Err (New SealedErrKEK) else Ok (mkEnvelope k).

Definition decodeKEK (raw : str) : res str :=
  let trimmed := TrimSpace raw in
  let whole (o : option str) := match o with Some b => (length b =? KeySize)%nat | None => false end in
  if whole (Base64.DecodeString true trimmed) then Ok (default [] (Base64.DecodeString true trimmed))
  else if whole (Base64.DecodeString false trimmed) then Ok (default [] (Base64.DecodeString false trimmed))
  else if (length raw =? KeySize)%nat then Ok raw
  else Err (New SealedErrKEK).
(** The files and the environment of the process are functions. *)
Definition LoadKEK (readFile : str → res str) (getenv : str → str) (source path env : str) : res str :=
  if bool_decide (source = "file") then
    match readFile path with Err e => Err (Wrap2 (Plain "sealed: kek") e []) | Ok b => decodeKEK b end
  else if bool_decide (source = "env") then
    if bool_decide (getenv env = []) then Err (Plain ("sealed: kek: environment variable " ++ goquote env ++ " is empty")) else decodeKEK (getenv env)
  else Err (Plain ("sealed: kek: unknown source " ++ goquote source)).

Section Envelopes.
Context {G : AEAD} {R : Type} {RD : Random R}.
Context (e : Envelope).

Definition Seal (plaintext ad : str) : M R (res str) :=
  if MaxSettingsBytes <? Z.of_nat (length plaintext) then mret (Err (New SealedErrTooLarge))
  else
    dek ←? ReadFull KeySize;
    n1 ←? ReadFull NonceSize;
    n2 ←? ReadFull NonceSize;
    mret (Ok (n1 ++ gSeal (kek e) n1 dek ad ++ n2 ++ gSeal dek n2 plaintext ad)).

Definition Open (blob ad : str) : res str :=
  let wrapLen := (KeySize + Overhead)%nat in
  if (length blob <? NonceSize + wrapLen + NonceSize + 16)%nat then Err (New SealedErrTampered)
  else match gOpen (kek e) (take NonceSize blob) (take wrapLen (drop NonceSize blob)) ad with
  | None => Err (New SealedErrTampered)
  | Some dek =>
    let rest := drop (NonceSize + wrapLen) blob in
    match gOpen dek (take NonceSize rest) (drop NonceSize rest) ad with
    | None => Err (New SealedErrTampered)
    | Some pt => Ok pt
    end
  end.

Definition SealString (s ad : str) : M R (res str) :=
  if bool_decide (s = []) then mret (Ok [])
  else ct ←? Seal s ad; mret (Ok (Base64.EncodeToString ct)).
Definition OpenString (enc ad : str) : res str :=
  if bool_decide (enc = []) then Ok []
  else match Base64.DecodeString true enc with
  | None => Err (New SealedErrTampered)
  | Some ct => Open ct ad
  end.

(** *** What opens *)

Context {GL : AEADLaws}.

(** An envelope of a text: a data key under the key-encryption key, and the text
    under the data key. *)
Definition envelope (n1 dek n2 pt ad : str) : str := n1 ++ gSeal (kek e) n1 dek ad ++ n2 ++ gSeal dek n2 pt ad.

Lemma Open_envelope n1 dek n2 pt ad :
  length n1 = NonceSize → length dek = KeySize → length n2 = NonceSize → Open (envelope n1 dek n2 pt ad) ad = Ok pt.
Proof.
  intros H1 Hd H2. unfold Open, envelope. set (w := gSeal (kek e) n1 dek ad). assert (Hw : length w = (KeySize + Overhead)%nat) by (unfold w; rewrite gSeal_length; lia).
  rewrite (proj2 (Nat.ltb_ge _ _)) by (rewrite !length_app, gSeal_length; unfold NonceSize, Overhead, KeySize in *; lia).
  rewrite take_app_length' by done. rewrite drop_app_length' by done. rewrite take_app_length' by done. unfold w at 1. rewrite gOpen_gSeal.
  rewrite (app_assoc n1 w). rewrite drop_app_length' by (rewrite length_app; lia). rewrite take_app_length' by done. rewrite drop_app_length' by done.
  by rewrite gOpen_gSeal.
Qed.

(** An envelope opens exactly to what was sealed: [Open] accepts a blob
    under some associated data if and only if it is a nonce, a 32-byte data key
    sealed with the key-encryption key, a nonce and the result sealed with that
    data key, both under that associated data; nothing else gives a result. *)
Theorem Open_exact blob ad pt :
  Open blob ad = Ok pt ↔
  ∃ n1 dek n2, length n1 = NonceSize ∧ length dek = KeySize ∧ length n2 = NonceSize ∧
    blob = n1 ++ gSeal (kek e) n1 dek ad ++ n2 ++ gSeal dek n2 pt ad.
Proof.
  split; [|intros (n1 & dek & n2 & H1 & Hd & H2 & ->); by apply Open_envelope].
  unfold Open. case_if as El; [done|]. apply Nat.ltb_ge in El. set (n1 := take NonceSize blob). set (w := take (KeySize + Overhead) (drop NonceSize blob)).
  destruct (gOpen (kek e) n1 w ad) as [dek|] eqn:E1; [|done]. set (rest := drop (NonceSize + (KeySize + Overhead)) blob).
  destruct (gOpen dek (take NonceSize rest) (drop NonceSize rest) ad) as [p|] eqn:E2; [|done]. intros [= <-].
  apply gSeal_gOpen in E1, E2. assert (Hw : length w = (KeySize + Overhead)%nat) by (unfold w; rewrite length_take, length_drop; unfold NonceSize, KeySize, Overhead in *; lia).
  exists n1, dek, (take NonceSize rest). split_and!.
  - unfold n1. rewrite length_take. unfold NonceSize in *. lia.
  - rewrite E1, gSeal_length in Hw. lia.
  - unfold rest. rewrite length_take, length_drop. unfold NonceSize, KeySize, Overhead in *. lia.
  - rewrite <- E1, <- E2, take_drop. unfold n1, w, rest. rewrite <- drop_drop, take_drop. by rewrite take_drop.
Qed.

Lemma Seal_run pt ad r blob r' : Seal pt ad r = (Ok blob, r') →
  ∃ n1 dek n2, length n1 = NonceSize ∧ length dek = KeySize ∧ length n2 = NonceSize ∧ blob = envelope n1 dek n2 pt ad.
Proof.
  unfold Seal. case_if as El; [done|]. unfold try_. destruct (ReadFull KeySize r) as [[dek|] r1] eqn:E1; [|done].
  destruct (ReadFull NonceSize r1) as [[n1|] r2] eqn:E2; [|done]. destruct (ReadFull NonceSize r2) as [[n2|] r3] eqn:E3; [|done]. intros [= <- _].
  apply ReadFull_length in E1, E2, E3. by exists n1, dek, n2.
Qed.

(** C30: a sealed text reads back: whatever the random source gave, what
    [SealString] stored [OpenString] returns under the same associated data, the
    empty text as itself; a text of more than 8 KiB is refused as too large. *)
Theorem SealString_roundtrip s ad r enc r' :
  SealString s ad r = (enc, r') →
  (∀ t, enc = Ok t → OpenString t ad = Ok s ∧ (t = [] ↔ s = [])) ∧
  (MaxSettingsBytes < Z.of_nat (length s) → enc = Err (New SealedErrTooLarge) ∧ r' = r).
Proof.
  unfold SealString. case_bool_decide as Es.
  { intros [= <- <-]. subst s. split; [|simpl; unfold MaxSettingsBytes; lia]. by intros t [= <-]. }
  unfold try_. destruct (Seal s ad r) as [ct r1] eqn:E. intros H. split.
  - intros t ->. destruct ct as [ct|]; [|done]. injection H as <- _. apply Seal_run in E as (n1 & dek & n2 & H1 & Hd & H2 & ->).
    assert (Hne : Base64.EncodeToString (envelope n1 dek n2 s ad) ≠ []).
    { intros Hn. pose proof (Base64.decode_encode true (envelope n1 dek n2 s ad)) as Hde. unfold Base64.EncodeToString in Hn. rewrite Hn in Hde. injection Hde as Hde.
      apply (f_equal length) in Hde. unfold envelope in Hde. rewrite length_app in Hde. unfold NonceSize in H1. simpl in Hde. lia. }
    unfold OpenString. rewrite bool_decide_eq_false_2 by done. unfold Base64.EncodeToString. rewrite Base64.DecodeString_encode. split; [by apply Open_envelope|done].
  - intros Hl. unfold Seal in E. rewrite (proj2 (Z.ltb_lt _ _) Hl) in E. injection E as <- <-. by injection H as <- <-.
Qed.
End Envelopes.

(** ** Associated data *)

Definition ADCA (id : str) : str := "ca:" ++ id.
Definition ADIssuer (id : str) : str := "issuer:" ++ id.
Definition ADSecret (id : str) : str := "secret:" ++ id.
Definition ADWebhook (id : str) : str := "webhook:" ++ id.
Definition ADCertKey (id : str) : str := "certkey:" ++ id.
Definition ADTarget (id : str) : str := "target:" ++ id.
Definition ADConfig (id : str) : str := "config:" ++ id.
Definition ADContact (kind id field : str) : str := "contact:" ++ kind ++ ":" ++ id ++ ":" ++ field.

(** The text before the first colon is the kind of row, and what follows the row;
    so values of different kinds or rows never share their associated data. *)
Definition ad_kinds : list (str * (str → str)) :=
  [(lit "ca", ADCA); (lit "issuer", ADIssuer); (lit "secret", ADSecret); (lit "webhook", ADWebhook);
   (lit "certkey", ADCertKey); (lit "target", ADTarget); (lit "config", ADConfig); (lit "contact", λ id, ADContact id [] [])].
Lemma AD_kind k f id : (k, f) ∈ ad_kinds → (":"%char ∉ k) ∧ ∃ rest, f id = k ++ ":"%char :: rest.
Proof.
  unfold ad_kinds. intros H. repeat (apply elem_of_cons in H as [[= -> ->]|H]; [split; [by apply (bool_decide_unpack _); vm_compute|by eexists]|]).
  by apply elem_of_nil in H.
Qed.
Lemma AD_separate k f g k' id id' : (k, f) ∈ ad_kinds → (k', g) ∈ ad_kinds → f id = g id' → k = k'.
Proof.
  intros [Hk [r Hr]]%(AD_kind _ _ id) [Hk' [r' Hr']]%(AD_kind _ _ id') E. rewrite Hr, Hr' in E. apply (f_equal (SplitByte ":"%char)) in E.
  rewrite !SplitByte_app in E by done. by injection E.
Qed.

(** ** Settings *)

(** A field's value: a text, or another JSON value. *)
Inductive value := VString (s : str) | VOther (json : str).
#[global] Instance value_eq_dec : EqDecision value.
Proof. solve_decision. Defined.
Abbreviation Settings := (gmap str value).
(** [v.(string)], empty for another value. *)
Definition text (v : value) : str := match v with VString s => s | VOther _ => [] end.

(** [encoding/json] on settings; [None] inside for the text [null]. *)
Class SettingsJSON := { unmarshalSettings : str → option (option Settings); marshalSettings : Settings → res str }.
Definition Decode `{SettingsJSON} (raw : str) : res Settings :=
  if MaxSettingsBytes <? Z.of_nat (length raw) then Err (New SealedErrTooLarge)
  else match unmarshalSettings raw with
  | Some (Some s) => Ok s
  | _ => Err (Plain "sealed: settings must be a JSON object")
  end.
Definition Encode `{SettingsJSON} (s : Settings) : res str :=
  b ← marshalSettings s;
  if MaxSettingsBytes <? Z.of_nat (length b) then Err (New SealedErrTooLarge) else Ok b.

Definition redact_field (out : Settings) (f : str) : Settings :=
  match out !! f with
  | Some v => if negb (bool_decide (text v = [])) then <[f := VString Marker]> out else delete f out
  | None => out
  end.
Definition Redact (s : Settings) (secretFields : list str) : Settings := fold_left redact_field secretFields s.
Definition Public (s : Settings) (secretFields : list str) : Settings := fold_left (λ out f, delete f out) secretFields s.

Definition merge_field (stored incoming out : Settings) (f : str) : Settings :=
  let kept := match stored !! f with Some old => <[f := old]> out | None => delete f out end in
  match incoming !! f with
  | None => kept
  | Some v => if bool_decide (text v = Marker) then kept else if bool_decide (text v = []) then delete f out else out
  end.
Definition Merge (stored incoming : Settings) (secretFields : list str) : Settings :=
  fold_left (merge_field stored incoming) secretFields incoming.

(** The text before the first line end. *)
Fixpoint first_line (t : str) : str := match t with c :: t => if Base64.newline c then [] else c :: first_line t | [] => [] end.
Definition scrub_field (stored : Settings) (t f : str) : str :=
  match stored !! f with
  | Some (VString v) =>
    if bool_decide (v = []) then t
    else
      let t := ReplaceAll t v (mark "REDACTED") in
      if bool_decide (Base64.EncodeToString v = []) then t else ReplaceAll t (Base64.EncodeToString v) (mark "REDACTED")
  | _ => t
  end.
Definition Scrub (t : str) (stored : Settings) (secretFields : list str) : str :=
  cut 1024 (fold_left (scrub_field stored) secretFields (first_line t)).

(** *** Reads and updates *)

Definition shown (s : Settings) (f : str) : option value := v ← s !! f; if bool_decide (text v = []) then None else Some (VString Marker).
Definition merged (stored incoming : Settings) (f : str) : option value :=
  match incoming !! f with
  | None => stored !! f
  | Some v => if bool_decide (text v = Marker) then stored !! f else if bool_decide (text v = []) then None else Some v
  end.

Lemma redact_field_lookup s g f : redact_field s g !! f = if bool_decide (f = g) then shown s f else s !! f.
Proof.
  unfold redact_field, shown. case_bool_decide as E.
  - subst g. destruct (s !! f) as [v|] eqn:Ef; [|done]. cbn. destruct (bool_decide (text v = [])); cbn [negb]; [apply lookup_delete_eq|apply lookup_insert_eq].
  - destruct (s !! g) as [v|]; [|done]. destruct (negb _); [by rewrite lookup_insert_ne|by rewrite lookup_delete_ne].
Qed.
Lemma Redact_lookup F s f : Redact s F !! f = if bool_decide (f ∈ F) then shown s f else s !! f.
Proof.
  unfold Redact. revert s. induction F as [|g F IH]; intros s; [done|]. cbn [fold_left]. rewrite IH. unfold shown at 1. rewrite redact_field_lookup.
  destruct (decide (f = g)) as [->|Hn].
  - rewrite (bool_decide_eq_true_2 (g = g)) by done. rewrite (bool_decide_eq_true_2 (g ∈ g :: F)) by set_solver. case_if as E; [|done]. unfold shown.
    destruct (s !! g) as [v|]; [|done]. cbn. destruct (bool_decide (text v = [])); done.
  - rewrite (bool_decide_eq_false_2 (f = g)) by done. fold (shown s f). rewrite (bool_decide_ext (f ∈ g :: F) (f ∈ F)) by set_solver. done.
Qed.

Lemma merge_field_lookup stored incoming out g f : merge_field stored incoming out g !! f =
  if bool_decide (f = g) then match incoming !! f with Some v => if bool_decide (text v = Marker) || bool_decide (text v = []) then merged stored incoming f else out !! f | None => merged stored incoming f end
  else out !! f.
Proof.
  unfold merge_field, merged. case_bool_decide as E.
  - subst g. assert (Hk : (match stored !! f with Some old => <[f := old]> out | None => delete f out end) !! f = stored !! f)
      by (destruct (stored !! f); [apply lookup_insert_eq|apply lookup_delete_eq]).
    destruct (incoming !! f) as [v|]; [|done]. case_bool_decide as E1; [done|]. case_bool_decide as E2; [apply lookup_delete_eq|done].
  - assert (Hk : (match stored !! g with Some old => <[g := old]> out | None => delete g out end) !! f = out !! f)
      by (destruct (stored !! g); [by rewrite lookup_insert_ne|by rewrite lookup_delete_ne]).
    destruct (incoming !! g) as [v|]; [|done]. case_bool_decide as E1; [done|]. case_bool_decide as E2; [by rewrite lookup_delete_ne|done].
Qed.
Lemma merge_fold F stored incoming out f : out !! f = incoming !! f ∨ out !! f = merged stored incoming f →
  fold_left (merge_field stored incoming) F out !! f = if bool_decide (f ∈ F) then merged stored incoming f else out !! f.
Proof.
  revert out. induction F as [|g F IH]; intros out Hout; [done|]. cbn [fold_left].
  assert (Hg : f = g → merge_field stored incoming out g !! f = merged stored incoming f).
  { intros <-. rewrite merge_field_lookup, bool_decide_eq_true_2 by done. destruct (incoming !! f) as [v|] eqn:Ei; [|done]. case_if as E; [done|].
    apply orb_false_iff in E as [E1 E2]. destruct Hout as [-> | ->]; [|done]. unfold merged. by rewrite Ei, E1, E2. }
  assert (Hne : f ≠ g → merge_field stored incoming out g !! f = out !! f) by (intros Hn; by rewrite merge_field_lookup, bool_decide_eq_false_2).
  destruct (decide (f = g)) as [Ef|Ef].
  - rewrite IH by (right; by apply Hg). rewrite (bool_decide_eq_true_2 (f ∈ g :: F)) by set_solver. rewrite Hg by done. by destruct (bool_decide _).
  - rewrite IH by (by rewrite Hne). rewrite Hne, (bool_decide_ext (f ∈ g :: F) (f ∈ F)) by set_solver. done.
Qed.
Lemma Merge_lookup stored incoming F f : Merge stored incoming F !! f = if bool_decide (f ∈ F) then merged stored incoming f else incoming !! f.
Proof. apply merge_fold. by left. Qed.

(** A read gives no credential away and its answer sent back changes
    nothing: every credential field of a redacted object is the marker or absent,
    the other fields are as they were, and merging the redacted object into the
    stored one gives back the stored one. *)
Theorem Redact_Merge s F :
  (∀ f, f ∈ F → Redact s F !! f = Some (VString Marker) ∨ Redact s F !! f = None) ∧
  (∀ f, f ∉ F → Redact s F !! f = s !! f) ∧ Merge s (Redact s F) F = s.
Proof.
  split_and!.
  - intros f Hf. rewrite Redact_lookup, bool_decide_eq_true_2 by done. unfold shown. destruct (s !! f) as [v|]; [|auto]. cbn. destruct (bool_decide (text v = [])); auto.
  - intros f Hf. by rewrite Redact_lookup, bool_decide_eq_false_2.
  - apply map_eq. intros f. rewrite Merge_lookup. unfold merged. rewrite Redact_lookup. case_bool_decide as Hf; [|done]. unfold shown.
    destruct (s !! f) as [v|]; [|done]. cbn. by destruct (bool_decide (text v = [])).
Qed.

(** *** Error texts *)

Lemma scrub_keeps w stored t f : opaque_in "REDACTED" w → Contains t w = false → Contains (scrub_field stored t f) w = false.
Proof.
  intros Hw Ht. unfold scrub_field. destruct (stored !! f) as [[v|]|]; [|done..]. case_bool_decide; [done|]. case_bool_decide; [by apply replace_keeps|].
  by apply replace_keeps, replace_keeps.
Qed.
Lemma scrub_takes w stored t f v : opaque_in "REDACTED" w → stored !! f = Some (VString v) → v ≠ [] → w = v ∨ w = Base64.EncodeToString v →
  Contains (scrub_field stored t f) w = false.
Proof.
  intros Hw Hf Hv Hwv. unfold scrub_field. rewrite Hf, bool_decide_eq_false_2 by done. destruct Hwv as [-> | ->].
  - case_bool_decide; [by apply replace_clean|]. apply replace_keeps; [done|]. by apply replace_clean.
  - rewrite bool_decide_eq_false_2 by (by destruct Hw). by apply replace_clean.
Qed.
Lemma first_line_clean t : Forall (λ c, Base64.newline c = false) (first_line t).
Proof. induction t as [|c t IH]; [constructor|]. cbn [first_line]. case_if as E; [constructor|]. by constructor. Qed.
Lemma replace_Forall (P : ascii → Prop) n s old new : Forall P s → Forall P new → Forall P (replace_loop n s old new).
Proof.
  revert s. induction n as [|n IH]; intros s Hs Hn; [done|]. destruct s as [|c s]; [done|]. cbn [replace_loop]. destruct (HasPrefix _ _).
  - apply Forall_app. split; [done|]. apply IH; [by apply Forall_drop|done].
  - apply Forall_cons in Hs as [Hc Hs]. constructor; auto.
Qed.

(** A credential does not leave through an error text: after scrubbing, the
    text has no stored credential value nor its base64 form, is a single line, and
    is at most 1024 bytes long. *)
Theorem Scrub_clean t stored F f v w :
  f ∈ F → stored !! f = Some (VString v) → v ≠ [] → w = v ∨ w = Base64.EncodeToString v → opaque_in "REDACTED" w →
  Contains (Scrub t stored F) w = false ∧ Forall (λ c, Base64.newline c = false) (Scrub t stored F) ∧ Z.of_nat (length (Scrub t stored F)) ≤ 1024.
Proof.
  intros Hf Hs Hv Hwv Hw. unfold Scrub. split_and!; [|apply cut_Forall|by apply cut_length].
  - eapply prefix_clean; [apply cut_prefix|]. generalize (first_line t). clear t. revert Hf. induction F as [|g F IH]; intros Hf u; [by apply elem_of_nil in Hf|].
    cbn [fold_left]. destruct (decide (f ∈ F)) as [Hin|Hn]; [by apply IH|]. apply elem_of_cons in Hf as [->|]; [|done].
    pose proof (scrub_takes w stored u g v Hw Hs Hv Hwv) as Hc. clear -Hc Hw. revert Hc. generalize (scrub_field stored u g). induction F as [|h F IH]; intros x Hx; [done|].
    cbn [fold_left]. apply IH. by apply scrub_keeps.
  - pose proof (first_line_clean t) as H. revert H. generalize (first_line t). clear. induction F as [|g F IH]; intros u Hu; [done|]. cbn [fold_left]. apply IH.
    assert (Hm : Forall (λ c, Base64.newline c = false) (mark "REDACTED")) by (repeat constructor).
    unfold scrub_field. destruct (stored !! g) as [[v|]|]; [|done..]. case_bool_decide; [done|]. case_bool_decide; [by apply replace_Forall|].
    by apply replace_Forall; [apply replace_Forall|].
Qed.

(** The comment of [Merge] says that a value other than the marker and the empty
    text replaces the stored one; one that is no text clears it. *)
Example merge_number_clears :
  Merge {[ ("password" : str) := VString "old" ]} {[ ("password" : str) := VOther "12345" ]} ["password" : str] = ∅.
Proof. apply (bool_decide_unpack _). vm_compute. exact I. Qed.

(** ** A concrete cipher *)

Module Concrete.
(** The text with a tag of 16 bytes in place of AES-GCM. *)
Definition tag (k n p ad : str) : str := take 16 (Sha256.hex (k ++ n ++ ad ++ p) ++ replicate 16 "0"%char).
#[local] Instance toy : AEAD := {|
  gSeal k n p ad := p ++ tag k n p ad;
  gOpen k n ct ad := let p := take (length ct - 16) ct in if bool_decide (ct = p ++ tag k n p ad) then Some p else None
|}.
Lemma tag_length k n p ad : length (tag k n p ad) = 16%nat.
Proof. unfold tag. rewrite length_take, length_app, length_replicate. lia. Qed.
#[local] Instance toy_laws : AEADLaws.
Proof.
  split; unfold gSeal, gOpen, toy; cbv zeta.
  - intros k n p ad. rewrite length_app, tag_length, take_app_length' by lia. by rewrite bool_decide_eq_true_2.
  - intros k n ct ad p. case_bool_decide as E; [|done]. by intros [= <-].
  - intros k n p ad. by rewrite length_app, tag_length.
Qed.
#[local] Instance counter : Random nat.
Proof. refine {| ReadFull n r := (Ok (replicate n (chr (Z.of_nat r))), Datatypes.S r) |}. intros n r s r' [= <- _]. apply length_replicate. Defined.

Definition env0 : Envelope := mkEnvelope (replicate 32 "k"%char).
Lemma Open_exact_witness :
  ∃ blob, (Seal env0 "hunter2" "config:1" 65%nat).1 = Ok blob ∧ Open env0 blob "config:1" = Ok (lit "hunter2").
Proof.
  eexists. split; [vm_compute; reflexivity|]. apply (Open_exact env0). exists (replicate 12 "B"%char), (replicate 32 "A"%char), (replicate 12 "C"%char).
  split; [reflexivity|]. split; [reflexivity|]. split; [reflexivity|]. vm_compute. reflexivity.
Defined.
Lemma SealString_roundtrip_witness :
  ∃ t, (SealString env0 "hunter2" "config:1" 65%nat).1 = Ok t ∧ OpenString env0 t "config:1" = Ok (lit "hunter2").
Proof.
  destruct (SealString env0 "hunter2" "config:1" 65%nat) as [enc r'] eqn:E.
  assert (Hk : is_ok (SealString env0 "hunter2" "config:1" 65%nat).1 = true) by (vm_compute; reflexivity). rewrite E in Hk.
  destruct (SealString_roundtrip env0 "hunter2" "config:1" 65%nat enc r' E) as [H _]. destruct enc as [t|]; [|discriminate Hk].
  exists t. split; [reflexivity|]. exact (proj1 (H t eq_refl)).
Defined.
Lemma Scrub_clean_witness :
  Scrub ("535 rejected hunter2sesame" ++ [chr 10]) {[ ("password" : str) := VString "hunter2sesame" ]} ["password" : str] = "535 rejected [REDACTED]" ∧
  Contains "535 rejected [REDACTED]" "hunter2sesame" = false.
Proof.
  assert (E : Scrub ("535 rejected hunter2sesame" ++ [chr 10]) {[ ("password" : str) := VString "hunter2sesame" ]} ["password" : str] = "535 rejected [REDACTED]")
    by (vm_compute; reflexivity).
  split; [exact E|]. rewrite <- E.
  apply (Scrub_clean ("535 rejected hunter2sesame" ++ [chr 10]) {[ ("password" : str) := VString "hunter2sesame" ]} ["password" : str] "password" "hunter2sesame" "hunter2sesame");
    [apply list_elem_of_here|reflexivity|discriminate|left; reflexivity|].
  split; [discriminate|]. split; [|reflexivity]. apply forallb_Forall. reflexivity.
Defined.
End Concrete.
End Sealed.
