(* ===== verification/ConfigFile.v ===== *)
(** * The start-up configuration ([internal/config/config.go], and what
    [internal/app/app.go] makes of it)

    The sections of the module's configuration, their defaults, the checks and the
    warnings, and how the parts of the program are built from them.  The framework
    configuration it embeds and the YAML decoder are parameters.  The theorems: a
    configuration that validates builds every client, and no accepted opt-out goes
    without its warning. *)
From Stdlib Require Import Ascii.
From S2P Require Import Prelude GoStrings GoError Store Netip RecordSets Authz MemStore Pdns Recursor World Backup Dnsconf ConfFiles Url ConfService HttpText PdnsHttp RecursorHttp Secrets.
Local Open Scope Z_scope.

Module ConfigFile.
Import Http.

(** ** Sections *)

Record DB := mkDB { DSN : str; MigrateDSN : str; MaxConns : Z }.
Record Valkey := mkValkey { VAddresses : list str; VUsername : str; VPassword : str; VAllowPlaintext : bool; VCAFile : str }.
Record KEK := mkKEK { KSource : str; KPath : str; KEnv : str }.
Record PDNS := mkPDNS {
  PAPIURL : str; PServerID : str; PAPIKeyRef : str; PTimeoutSeconds : Z; PMaxResponseBytes : Z; PAllowPlaintext : bool;
  AuthForwardHost : str; AuthForwardPort : Z
}.
Record RecursorSection := mkRecursorSection {
  RAPIURL : str; RServerID : str; RAPIKeyRef : str; RTimeoutSeconds : Z; RAllowPlaintext : bool; ReconcileIntervalSeconds : Z; StaticForwards : list str
}.
Record DockerSection := mkDockerSection { DkEnabled : bool; DkSocket : str; DkAuthContainer : str; DkRecursorContainer : str; DkTimeoutSeconds : Z }.
Record ManagedFiles := mkManagedFiles { RecursorPath : str; AuthPath : str }.
Record Metrics := mkMetrics { PrometheusURL : str; MTimeoutSeconds : Z }.
Record IPAMSync := mkIPAMSync { SEnabled : bool; STenants : list str; SService : str; SDefaultTTL : Z }.
Record ACME := mkACME { AllowedCaller : str; MaxAgeSeconds : Z }.
Record Records := mkRecords { RcMinTTL : Z; RcMaxTTL : Z; RcMaxValues : Z; RcMaxPageSize : Z }.
Record SecretsSection := mkSecretsSection { WardenService : str; TokenFile : str; RefreshSecs : Z }.
Record Gateway := mkGateway { GService : str; GIssuer : str }.
Record MeshEnroll := mkMeshEnroll {
  EEnabled : bool; EnrollURL : str; LCMGRPCTarget : str; ETenantID : str; ETokenFile : str; EStateFile : str; EInsecure : bool
}.
Record LimitsSection := mkLimitsSection { MaxRequestBytes : Z; MaxBackupBytes : Z; MaxExportBytes : Z; LMaxPageSize : Z }.

(** The framework configuration. *)
Class Framework (F : Type) := {
  f_Default : F; f_Validate : F → res unit; f_IsProduction : F → bool; f_Warnings : F → list str
}.
Record Config (F : Type) := mkConfig {
  cFramework : F; cDB : DB; cValkey : Valkey; cKEK : KEK; cPDNS : PDNS; cRecursor : RecursorSection; cDocker : DockerSection;
  cManagedFiles : ManagedFiles; cMetrics : Metrics; cIPAMSync : IPAMSync; cACME : ACME; cRecords : Records; cSecrets : SecretsSection;
  cEvents : bool; cGateway : Gateway; cMeshEnroll : MeshEnroll; cLimits : LimitsSection
}.
Arguments mkConfig {F}. Arguments cFramework {F}. Arguments cDB {F}. Arguments cValkey {F}. Arguments cKEK {F}. Arguments cPDNS {F}. Arguments cRecursor {F}.
Arguments cDocker {F}. Arguments cManagedFiles {F}. Arguments cMetrics {F}. Arguments cIPAMSync {F}. Arguments cACME {F}. Arguments cRecords {F}.
Arguments cSecrets {F}. Arguments cEvents {F}. Arguments cGateway {F}. Arguments cMeshEnroll {F}. Arguments cLimits {F}.

Definition host_byte (c : ascii) : bool := Url.alnum c || bool_decide (c ∈ lit ".-").
(** [^[a-zA-Z0-9]([a-zA-Z0-9.-]{0,251}[a-zA-Z0-9])?$] *)
Definition hostRE (s : str) : bool :=
  match s, last s with
  | c :: t, Some d => Url.alnum c && Url.alnum d && forallb host_byte t && (Z.of_nat (length s) <=? 253)
  | _, _ => false
  end.
Definition within (v lo hi : Z) : bool := (lo <=? v) && (v <=? hi).

Definition bad {A} (what : str) : res A := Err (Plain ("config: " ++ what)).
(** A check that must hold. *)
Definition need (b : bool) (what : str) : res unit := if b then Ok () else bad what.

Section Config.
Context {F : Type} {FW : Framework F} {UP : URLParser} {U : Unicode}.
Implicit Types c : Config F.

Definition Default : Config F := mkConfig f_Default
  (mkDB [] [] 16) (mkValkey [] [] [] false []) (mkKEK "file" [] [])
  (mkPDNS [] "localhost" [] 10 33554432 false "pdns-auth" 53)
  (mkRecursorSection [] "localhost" [] 10 false 300 [])
  (mkDockerSection false "/var/run/docker.sock" "freya-pdns-auth" "freya-pdns-recursor" 60)
  (mkManagedFiles [] []) (mkMetrics [] 10) (mkIPAMSync false [] "ipam" 3600) (mkACME "spiffe://example.org/svc/lcm" 3600)
  (mkRecords 60 604800 100 500) (mkSecretsSection "warden" [] 300) true (mkGateway "gateway" [])
  (mkMeshEnroll false [] [] [] [] [] false) (mkLimitsSection 1048576 67108864 33554432 100).

(** Reading the file and decoding it over the defaults are functions. *)
Definition Load (readFile : str → res str) (decode : str → Config F → res (Config F)) (path : str) : res (Config F) :=
  match readFile path with
  | Err e => Err (Wrap2 (Plain "config") e [])
  | Ok raw => match decode raw Default with Err e => Err (Wrap2 (Plain ("config: " ++ path)) e []) | Ok c => Ok c end
  end.

(** ** Checks *)

Definition IsProduction (c : Config F) : bool := f_IsProduction (cFramework c).
Definition RecursorEnabled (c : Config F) : bool := negb (bool_decide (TrimSpace (RAPIURL (cRecursor c)) = [])).

Definition validateInfra (c : Config F) : res unit :=
  let prod := IsProduction c in
  _ ← need (negb (bool_decide (DSN (cDB c) = []))) "db.dsn is required";
  _ ← need (negb (prod && negb (Contains (DSN (cDB c)) "sslmode=verify-full") && negb (Contains (DSN (cDB c)) "sslmode=verify-ca")))
        "db.dsn must use sslmode=verify-full (or verify-ca) in production";
  _ ← need (negb (bool_decide (VAddresses (cValkey c) = []))) "valkey.addresses is required";
  _ ← need (negb (prod && VAllowPlaintext (cValkey c))) "valkey.allow_plaintext is not permitted in production";
  if bool_decide (KSource (cKEK c) = "file") then need (negb (bool_decide (KPath (cKEK c) = []))) "kek.path is required for kek.source file"
  else if bool_decide (KSource (cKEK c) = "env") then need (negb (bool_decide (KEnv (cKEK c) = []))) "kek.env is required for kek.source env"
  else bad "kek.source must be file or env".

(** A URL with a host and nothing but a path behind it. *)
Definition base_url (u : URLParts) : bool :=
  negb (bool_decide (Host u = [])) && negb (HasUser u) && bool_decide (RawQuery u = []) && bool_decide (Fragment u = []).
Definition apiURL (field raw : str) (allowPlain : bool) : res unit :=
  match url_Parse raw with
  | Some u =>
    if negb (base_url u) then bad (field ++ " must be an http(s) base URL without credentials, query or fragment")
    else if bool_decide (Scheme u = "https") then Ok ()
    else if bool_decide (Scheme u = "http") then need allowPlain (field ++ " uses http; set allow_plaintext (internal network only) or use https")
    else bad (field ++ " must use http or https")
  | None => bad (field ++ " must be an http(s) base URL without credentials, query or fragment")
  end.

Definition validatePDNS (c : Config F) : res unit :=
  let p := cPDNS c in
  _ ← need (negb (bool_decide (TrimSpace (PAPIURL p) = []))) "pdns.api_url is required";
  _ ← apiURL "pdns.api_url" (PAPIURL p) (PAllowPlaintext p);
  _ ← need (negb (bool_decide (TrimSpace (PAPIKeyRef p) = []))) "pdns.api_key_ref is required (a secret reference for the PowerDNS API key)";
  _ ← need (serverIDRE (PServerID p)) "pdns.server_id must match [a-zA-Z0-9._-]{1,64}";
  _ ← need (within (PTimeoutSeconds p) 1 120) "pdns.timeout_seconds must be within [1, 120]";
  _ ← need (within (PMaxResponseBytes p) 65536 268435456) "pdns.max_response_bytes must be within [64 KiB, 256 MiB]";
  _ ← need (hostRE (AuthForwardHost p)) "pdns.auth_forward_host must be a host name or IP literal";
  need (within (AuthForwardPort p) 1 65535) "pdns.auth_forward_port must be within [1, 65535]".

Fixpoint static_forwards (zs : list str) : res unit :=
  match zs with
  | [] => Ok ()
  | z :: zs =>
    if bool_decide (z = lit ".") then static_forwards zs
    else if hostRE (TrimSuffix z ".") then static_forwards zs
    else bad ("recursor.static_forwards: " ++ goquote z ++ " is not a zone name")
  end.
Definition validateRecursor (c : Config F) : res unit :=
  let r := cRecursor c in
  if bool_decide (TrimSpace (RAPIURL r) = []) then Ok ()
  else
    _ ← apiURL "recursor.api_url" (RAPIURL r) (RAllowPlaintext r);
    _ ← need (negb (bool_decide (TrimSpace (RAPIKeyRef r) = []))) "recursor.api_key_ref is required when recursor.api_url is set";
    _ ← need (serverIDRE (RServerID r)) "recursor.server_id must match [a-zA-Z0-9._-]{1,64}";
    _ ← need (within (RTimeoutSeconds r) 1 120) "recursor.timeout_seconds must be within [1, 120]";
    _ ← need (within (ReconcileIntervalSeconds r) 10 86400) "recursor.reconcile_interval_seconds must be within [10, 86400]";
    _ ← need (Z.of_nat (length (StaticForwards r)) <=? 64) "recursor.static_forwards allows at most 64 entries";
    static_forwards (StaticForwards r).

(** The two names are checked in either order (a Go map). *)
Definition validateDocker (c : Config F) : res unit :=
  let d := cDocker c in
  if negb (DkEnabled d) then Ok ()
  else
    _ ← need (negb (bool_decide (DkSocket d = [])) && Filepath.IsAbs (DkSocket d) && bool_decide (Filepath.Clean (DkSocket d) = DkSocket d))
          "docker.socket must be an absolute, clean unix socket path";
    _ ← need (Restart.ContainerNameRE (DkAuthContainer d)) "docker.auth_container must match ^[a-zA-Z0-9][a-zA-Z0-9_.-]{0,127}$";
    _ ← need (Restart.ContainerNameRE (DkRecursorContainer d)) "docker.recursor_container must match ^[a-zA-Z0-9][a-zA-Z0-9_.-]{0,127}$";
    _ ← need (negb (bool_decide (DkAuthContainer d = DkRecursorContainer d))) "docker.auth_container and docker.recursor_container must differ";
    need (within (DkTimeoutSeconds d) 1 600) "docker.timeout_seconds must be within [1, 600]".

Definition path_ok (p : str) : bool := bool_decide (p = []) || (Filepath.IsAbs p && bool_decide (Filepath.Clean p = p)).
Definition validateFiles (c : Config F) : res unit :=
  let m := cManagedFiles c in
  _ ← need (path_ok (RecursorPath m)) "managed_files.recursor_path must be an absolute, clean path";
  _ ← need (path_ok (AuthPath m)) "managed_files.auth_path must be an absolute, clean path";
  need (negb (negb (bool_decide (RecursorPath m = [])) && bool_decide (RecursorPath m = AuthPath m))) "managed_files paths must differ".

Definition validateMetrics (c : Config F) : res unit :=
  let m := cMetrics c in
  let good := match url_Parse (PrometheusURL m) with
              | Some u => (bool_decide (Scheme u = "http") || bool_decide (Scheme u = "https")) && base_url u
              | None => false
              end in
  _ ← need (bool_decide (PrometheusURL m = []) || good) "metrics.prometheus_url must be an http(s) base URL without credentials, query or fragment";
  need (within (MTimeoutSeconds m) 1 60) "metrics.timeout_seconds must be within [1, 60]".

Definition SyncTenants (s : IPAMSync) (enrollTenant : str) : list str :=
  if negb (bool_decide (STenants s = [])) then STenants s else if Backup.isUUID enrollTenant then [enrollTenant] else [].
Fixpoint tenants_ok (ts : list str) : res unit :=
  match ts with
  | [] => Ok ()
  | t :: ts => if Backup.isUUID t then tenants_ok ts else bad ("ipam_sync.tenants: " ++ goquote t ++ " is not a tenant id")
  end.
Definition validateSync (c : Config F) : res unit :=
  let s := cIPAMSync c in
  _ ← tenants_ok (STenants s);
  if negb (SEnabled s) then Ok ()
  else
    _ ← need (negb (bool_decide (SService s = []))) "ipam_sync.service is required when ipam_sync.enabled";
    _ ← need (negb (bool_decide (SyncTenants s (ETenantID (cMeshEnroll c)) = []))) "ipam_sync.tenants (or mesh_enroll.tenant_id) is required when ipam_sync.enabled";
    need (within (SDefaultTTL s) (RcMinTTL (cRecords c)) (RcMaxTTL (cRecords c))) "ipam_sync.default_ttl must be within [records.min_ttl, records.max_ttl]".

Definition validateRest (c : Config F) : res unit :=
  let r := cRecords c in let l := cLimits c in
  _ ← need (HasPrefix (AllowedCaller (cACME c)) "spiffe://" && negb (ContainsAny (AllowedCaller (cACME c)) " *")) "acme.allowed_caller must be an exact spiffe:// ID";
  _ ← need (within (MaxAgeSeconds (cACME c)) 60 86400) "acme.max_age_seconds must be within [60, 86400]";
  _ ← need (within (RcMinTTL r) 1 (RcMaxTTL r) && within (RcMaxTTL r) (RcMinTTL r) 2147483647) "records.min_ttl/max_ttl must satisfy 1 <= min_ttl <= max_ttl";
  _ ← need (within (RcMaxValues r) 1 1000) "records.max_values must be within [1, 1000]";
  _ ← need (within (RcMaxPageSize r) 1 500) "records.max_page_size must be within [1, 500]";
  _ ← need (negb (bool_decide (WardenService (cSecrets c) = []))) "secrets.warden_service is required";
  _ ← need (within (RefreshSecs (cSecrets c)) 10 86400) "secrets.refresh_seconds must be within [10, 86400]";
  _ ← need (negb (bool_decide (GService (cGateway c) = []))) "gateway.service is required";
  _ ← need (match url_Parse (GIssuer (cGateway c)) with Some u => bool_decide (Scheme u = "https") && negb (bool_decide (Host u = [])) | None => false end)
        "gateway.issuer must be an https origin";
  _ ← need (negb (IsProduction c && EEnabled (cMeshEnroll c) && EInsecure (cMeshEnroll c))) "mesh_enroll.insecure is not permitted in production";
  _ ← need (within (MaxRequestBytes l) 1024 67108864) "limits_dns.max_request_bytes must be within [1 KiB, 64 MiB]";
  _ ← need (within (MaxBackupBytes l) 1024 268435456) "limits_dns.max_backup_bytes must be within [1 KiB, 256 MiB]";
  _ ← need (within (MaxExportBytes l) 1024 268435456) "limits_dns.max_export_bytes must be within [1 KiB, 256 MiB]";
  need (within (LMaxPageSize l) 1 100) "limits_dns.max_page_size must be within [1, 100]".

Definition Validate (c : Config F) : res unit :=
  _ ← f_Validate (cFramework c);
  _ ← validateInfra c; _ ← validatePDNS c; _ ← validateRecursor c; _ ← validateDocker c;
  _ ← validateFiles c; _ ← validateMetrics c; _ ← validateSync c; validateRest c.

(** ** Warnings *)

Definition isPlainHTTP (raw : str) : bool := HasPrefix (ToLower raw) "http://".
Definition isFileRef (ref : str) : bool := HasPrefix (TrimSpace ref) "file:".
Definition warn_valkey : str := "valkey.allow_plaintext: event-bus traffic without TLS (development only)".
Definition warn_enroll : str := "mesh_enroll.insecure: SVID enrollment without TLS (development only)".
Definition warn_pdns : str := "pdns.api_url is plaintext http: keep the PowerDNS API on the internal network only".
Definition warn_recursor : str := "recursor.api_url is plaintext http: keep the recursor API on the internal network only".
Definition warn_file : str := "secret reference uses file: (development only; use a warden reference)".
Definition warn_docker (d : DockerSection) : str :=
  "docker.enabled: the Docker Engine socket is mounted (root-equivalent on the host); restarts are limited to " ++
  DkAuthContainer d ++ " and " ++ DkRecursorContainer d ++ " — use an API-filtering socket proxy in production".
Definition warn_no_recursor : str := "recursor.api_url empty: resolver forwarding for managed zones is disabled".
Definition warn_no_metrics : str := "metrics.prometheus_url empty: the dashboard reports metrics unavailable".
Definition when (b : bool) (w : str) : list str := if b then [w] else [].
Definition Warnings (c : Config F) : list str :=
  f_Warnings (cFramework c) ++
  when (VAllowPlaintext (cValkey c)) warn_valkey ++
  when (EEnabled (cMeshEnroll c) && EInsecure (cMeshEnroll c)) warn_enroll ++
  when (isPlainHTTP (PAPIURL (cPDNS c))) warn_pdns ++
  when (RecursorEnabled c && isPlainHTTP (RAPIURL (cRecursor c))) warn_recursor ++
  when (isFileRef (PAPIKeyRef (cPDNS c)) || isFileRef (RAPIKeyRef (cRecursor c))) warn_file ++
  when (DkEnabled (cDocker c)) (warn_docker (cDocker c)) ++
  when (negb (RecursorEnabled c)) warn_no_recursor ++
  when (bool_decide (PrometheusURL (cMetrics c) = [])) warn_no_metrics.

(** ** Derived values *)

(** [time.Duration(n) * time.Second], in 64 bits. *)
Definition seconds (n : Z) : Z := int64 (n * 1000000000).
Definition PDNSTimeout (c : Config F) : Z := seconds (PTimeoutSeconds (cPDNS c)).
Definition RecursorTimeout (c : Config F) : Z := seconds (RTimeoutSeconds (cRecursor c)).
Definition ReconcileInterval (c : Config F) : Z := seconds (ReconcileIntervalSeconds (cRecursor c)).
Definition SecretRefresh (c : Config F) : Z := seconds (RefreshSecs (cSecrets c)).
Definition ChallengeMaxAge (c : Config F) : Z := seconds (MaxAgeSeconds (cACME c)).
Definition MetricsTimeout (c : Config F) : Z := seconds (MTimeoutSeconds (cMetrics c)).
Definition AuthForwardTarget (c : Config F) : str := RecursorHttp.JoinHostPort (AuthForwardHost (cPDNS c)) (Itoa (AuthForwardPort (cPDNS c))).
Definition AuthForwardIsIP (c : Config F) : bool := match Netip.ParseAddr (AuthForwardHost (cPDNS c)) with Some _ => true | None => false end.

(** ** What the program is built from *)

Definition record_limits (c : Config F) : RecordSets.Limits := RecordSets.mkLimits (RcMinTTL (cRecords c)) (RcMaxTTL (cRecords c)) (RcMaxValues (cRecords c)).
Definition pdns_config (c : Config F) : PdnsHttp.Config := PdnsHttp.mkConfig (PAPIURL (cPDNS c)) (PServerID (cPDNS c)) true (PMaxResponseBytes (cPDNS c)).
Definition recursor_config (c : Config F) : RecursorHttp.Config :=
  RecursorHttp.mkConfig (RAPIURL (cRecursor c)) (RServerID (cRecursor c)) true (AuthForwardHost (cPDNS c)) (AuthForwardPort (cPDNS c)).
Definition docker_config (c : Config F) : Restart.DockerConfig :=
  Restart.mkDockerConfig (DkEnabled (cDocker c)) (DkSocket (cDocker c)) (DkAuthContainer (cDocker c)) (DkRecursorContainer (cDocker c)).
Definition service_config (checker : option Authz.Checker) (c : Config F) : ConfService.Config :=
  ConfService.mkConfig checker true (RecursorPath (cManagedFiles c)) (AuthPath (cManagedFiles c)).
Definition secret_config {T} {SE : Secrets.SecretEnv T} (warden : Secrets.Fetcher (T := T)) (c : Config F) : Secrets.CachedConfig (T := T) :=
  Secrets.mkCachedConfig (Some (Secrets.Fetch (Secrets.mkResolver (Some warden) (negb (IsProduction c))))) (PAPIKeyRef (cPDNS c)) (RAPIKeyRef (cRecursor c)) (SecretRefresh c) 0.

(** ** A valid configuration starts *)

Lemma need_Ok b w : need b w = Ok () ↔ b = true.
Proof. unfold need. by destruct b. Qed.
Lemma need_bind {B} b w (k : unit → res B) x : (y ← need b w; k y) = Ok x ↔ b = true ∧ k () = Ok x.
Proof. unfold need. destruct b; cbn; naive_solver. Qed.
Lemma unit_bind {B} (m : res unit) (k : unit → res B) x : (y ← m; k y) = Ok x ↔ m = Ok () ∧ k () = Ok x.
Proof. destruct m as [[]|]; cbn; naive_solver. Qed.
Lemma within_spec v lo hi : within v lo hi = true ↔ lo ≤ v ≤ hi.
Proof. unfold within. rewrite andb_true_iff, !Z.leb_le. done. Qed.
Lemma negb_empty (s : str) : negb (bool_decide (s = [])) = true ↔ s ≠ [].
Proof. rewrite negb_true_iff, bool_decide_eq_false. done. Qed.

Lemma Validate_parts c : Validate c = Ok () ↔
  f_Validate (cFramework c) = Ok () ∧ validateInfra c = Ok () ∧ validatePDNS c = Ok () ∧ validateRecursor c = Ok () ∧ validateDocker c = Ok () ∧
  validateFiles c = Ok () ∧ validateMetrics c = Ok () ∧ validateSync c = Ok () ∧ validateRest c = Ok ().
Proof. unfold Validate. by rewrite !unit_bind. Qed.

Lemma apiURL_Ok field raw plain : apiURL field raw plain = Ok () ↔
  ∃ u, url_Parse raw = Some u ∧ base_url u = true ∧ (Scheme u = lit "https" ∨ Scheme u = lit "http" ∧ plain = true).
Proof.
  unfold apiURL. destruct (url_Parse raw) as [u|]; [|split; [done|by intros (? & ? & _)]]. destruct (base_url u) eqn:Eb; cbn [negb].
  - split.
    + intros H. exists u. split; [done|]. split; [done|]. case_bool_decide as E1; [by left|]. case_bool_decide as E2; [|done]. right. by apply need_Ok in H.
    + intros (u' & [= <-] & _ & H). case_bool_decide as E1; [done|]. destruct H as [?|[E2 ->]]; [done|]. by rewrite bool_decide_eq_true_2.
  - split; [done|]. intros (u' & [= <-] & ? & _). congruence.
Qed.
Lemma base_url_ok u : base_url u = true → Scheme u = lit "https" ∨ Scheme u = lit "http" → base_ok (Some u) = Some (Text u).
Proof.
  unfold base_url, base_ok. rewrite !andb_true_iff. intros [[[Hh Hu] _] _] Hs. apply negb_true_iff in Hh, Hu. rewrite Hh, Hu, !orb_false_r.
  destruct Hs as [-> | ->]; done.
Qed.

Lemma hostRE_wider s : hostRE s = true → RecursorHttp.hostRE s = true.
Proof.
  unfold hostRE, RecursorHttp.hostRE. destruct s as [|x s]; [done|]. destruct (last _); [|done]. rewrite !andb_true_iff. intros [[[? ?] Hf] ?]. split_and!; try done.
  rewrite forallb_forall in *. intros b Hb. specialize (Hf b Hb). revert Hf. clear. unfold host_byte, RecursorHttp.host_byte.
  rewrite !orb_true_iff, !bool_decide_eq_true. intros [?|H]; [by left|]. right. set_solver.
Qed.
Lemma seconds_exact n : 0 ≤ n ≤ 86400 → seconds n = n * 1000000000.
Proof. intros Hn. unfold seconds, int64. rewrite Z.mod_small by lia. lia. Qed.

(** The URLs are as they are used, without white space around them. *)
Definition trimmed (c : Config F) : Prop := TrimSpace (PAPIURL (cPDNS c)) = PAPIURL (cPDNS c) ∧ TrimSpace (RAPIURL (cRecursor c)) = RAPIURL (cRecursor c).

Lemma pdns_builds c : Validate c = Ok () → trimmed c → ∃ p, PdnsHttp.New (pdns_config c) = Ok p ∧ 65536 ≤ PdnsHttp.maxLarge p ≤ 268435456 ∧ serverIDRE (PdnsHttp.serverID p) = true.
Proof.
  intros (_ & _ & Hp & _)%Validate_parts [Ht _]. unfold validatePDNS in Hp. rewrite need_bind, unit_bind, !need_bind, apiURL_Ok in Hp.
  destruct Hp as (_ & (u & Hu & Hb & Hs) & _ & Hid & _ & Hm & _). apply within_spec in Hm. unfold PdnsHttp.New, pdns_config. cbn [PdnsHttp.BaseURL PdnsHttp.ServerID PdnsHttp.HasKey PdnsHttp.MaxResponseBytes].
  rewrite Ht, Hu, base_url_ok by (tauto || done). cbn [negb]. assert (Hne : PServerID (cPDNS c) ≠ []) by (intros E; by rewrite E in Hid).
  rewrite (bool_decide_eq_false_2 (PServerID (cPDNS c) = [])) by done. rewrite Hid. cbn [negb]. rewrite (proj2 (Z.leb_gt _ 0)) by lia. eexists. split; [reflexivity|]. by split.
Qed.
Lemma recursor_builds c : Validate c = Ok () → trimmed c → ∃ r, RecursorHttp.New (recursor_config c) = Ok r ∧ RecursorHttp.enabled r = RecursorEnabled c.
Proof.
  intros (_ & _ & Hp & Hr & _)%Validate_parts [_ Ht]. unfold validatePDNS in Hp. rewrite need_bind, unit_bind, !need_bind, need_Ok in Hp.
  destruct Hp as (_ & _ & _ & _ & _ & _ & Hh & Hport). apply within_spec in Hport. unfold RecursorHttp.New, recursor_config, RecursorEnabled, validateRecursor in *.
  cbn [RecursorHttp.BaseURL RecursorHttp.ServerID RecursorHttp.HasKey RecursorHttp.ForwardHost RecursorHttp.ForwardPort].
  destruct (bool_decide (TrimSpace (RAPIURL (cRecursor c)) = [])) eqn:E0; [by eexists|]. rewrite unit_bind, !need_bind, apiURL_Ok in Hr.
  destruct Hr as ((u & Hu & Hb & Hs) & _ & Hid & _). rewrite Ht, Hu, base_url_ok by (tauto || done). cbn [negb].
  assert (Hne : RServerID (cRecursor c) ≠ []) by (intros E; by rewrite E in Hid). assert (Hhe : AuthForwardHost (cPDNS c) ≠ []) by (intros E; by rewrite E in Hh).
  rewrite (bool_decide_eq_false_2 (RServerID (cRecursor c) = [])), (bool_decide_eq_false_2 (AuthForwardHost (cPDNS c) = [])) by done. rewrite (proj2 (Z.eqb_neq _ 0)) by lia.
  rewrite Hid, (hostRE_wider _ Hh), (proj2 (Z.ltb_ge _ 1)), (proj2 (Z.ltb_ge 65535 _)) by lia. by eexists.
Qed.
Lemma docker_builds {T} c (s : T) : Validate c = Ok () → ∃ d, Restart.NewDocker (docker_config c) s = Ok d.
Proof.
  intros (_ & _ & _ & _ & Hd & _)%Validate_parts. unfold validateDocker in Hd. unfold Restart.NewDocker, docker_config. cbn [Restart.DEnabled Restart.DSocket Restart.DAuthContainer Restart.DRecursorContainer].
  destruct (DkEnabled (cDocker c)); cbn [negb] in *; [|by eexists]. rewrite !need_bind, !andb_true_iff in Hd. destruct Hd as (((_ & Ha) & Hc) & H1 & H2 & H3 & _).
  rewrite Ha, Hc, H1, H2. apply negb_true_iff in H3. rewrite H3. by eexists.
Qed.

(** The checks are enough to start: for a configuration that validates, the
    PowerDNS client, the recursor client (enabled exactly when it has a URL) and the
    Docker client are built without an error; a reply's size limit plus one and
    every interval fit their 64 bits; the record limits are an interval of TTLs of
    at most 31 bits that contains the TTL of synchronised records; the managed
    files are different absolute paths; a cached key is kept for ten refresh
    intervals; and in production the database and the event bus use TLS, the
    enrolment too, and no secret is read from a file. *)
Theorem Validate_starts {T} {SE : Secrets.SecretEnv T} (warden : Secrets.Fetcher (T := T)) {S} (s : S) c :
  Validate c = Ok () → trimmed c →
  (∃ p, PdnsHttp.New (pdns_config c) = Ok p ∧ int64 (PdnsHttp.maxLarge p + 1) = PdnsHttp.maxLarge p + 1) ∧
  (∃ r, RecursorHttp.New (recursor_config c) = Ok r ∧ RecursorHttp.enabled r = RecursorEnabled c) ∧
  (∃ d, Restart.NewDocker (docker_config c) s = Ok d) ∧
  (let l := record_limits c in
   1 ≤ RecordSets.MinTTL l ≤ RecordSets.MaxTTL l ∧ RecordSets.MaxTTL l ≤ 2147483647 ∧ 1 ≤ RecordSets.MaxValues l ≤ 1000 ∧
   (SEnabled (cIPAMSync c) = true → RecordSets.MinTTL l ≤ SDefaultTTL (cIPAMSync c) ≤ RecordSets.MaxTTL l)) ∧
  (let m := service_config None c in
   (ConfService.cRecursorPath m ≠ [] → Filepath.IsAbs (ConfService.cRecursorPath m) = true ∧ ConfService.cRecursorPath m ≠ ConfService.cAuthPath m) ∧
   (ConfService.cAuthPath m ≠ [] → Filepath.IsAbs (ConfService.cAuthPath m) = true)) ∧
  (Secrets.Refresh (secret_config warden c) = RefreshSecs (cSecrets c) * 1000000000 ∧
   Secrets.maxStale (secret_config warden c) = 10 * (RefreshSecs (cSecrets c) * 1000000000)) ∧
  (IsProduction c = true →
     (Contains (DSN (cDB c)) "sslmode=verify-full" = true ∨ Contains (DSN (cDB c)) "sslmode=verify-ca" = true) ∧
     VAllowPlaintext (cValkey c) = false ∧ EEnabled (cMeshEnroll c) && EInsecure (cMeshEnroll c) = false ∧
     ∀ f ref t, Secrets.CFetcher (secret_config warden c) = Some f → HasPrefix (TrimSpace ref) "file:" = true → ∃ e, f ref t = (Err e, t)).
Proof.
  intros Hv Ht. destruct (pdns_builds c Hv Ht) as (p & Hp & Hm & _). destruct (recursor_builds c Hv Ht) as (r & Hr). destruct (docker_builds c s Hv) as (d & Hd).
  apply Validate_parts in Hv as (_ & Hi & _ & _ & _ & Hf & _ & Hsy & Hre). unfold validateInfra in Hi. rewrite !need_bind in Hi. destruct Hi as (_ & Hdsn & _ & Hvk & _).
  unfold validateFiles in Hf. rewrite !need_bind, need_Ok in Hf. destruct Hf as (Hf1 & Hf2 & Hf3). unfold validateRest in Hre. rewrite !need_bind, need_Ok in Hre.
  destruct Hre as (_ & _ & Httl & Hmv & _ & _ & Hrf & _ & _ & Hen & _). apply andb_true_iff in Httl as [Ht1 Ht2]. apply within_spec in Ht1, Ht2, Hmv, Hrf.
  unfold validateSync in Hsy. rewrite unit_bind in Hsy. destruct Hsy as [_ Hsy].
  assert (Hpath : ∀ q, path_ok q = true → q ≠ [] → Filepath.IsAbs q = true).
  { intros q Hq Hn. unfold path_ok in Hq. rewrite bool_decide_eq_false_2 in Hq by done. by apply andb_true_iff in Hq as [? _]. }
  split_and!.
  - exists p. split; [done|]. unfold int64. rewrite Z.mod_small by lia. lia.
  - by exists r.
  - by exists d.
  - cbn [record_limits RecordSets.MinTTL RecordSets.MaxTTL RecordSets.MaxValues]. split_and!; try lia. intros He. rewrite He in Hsy. cbn [negb] in Hsy.
    rewrite !need_bind, need_Ok in Hsy. destruct Hsy as (_ & _ & Hs). by apply within_spec in Hs.
  - cbn [service_config ConfService.cRecursorPath ConfService.cAuthPath]. split; [|by apply Hpath]. intros Hn. split; [by apply Hpath|].
    intros E. rewrite bool_decide_eq_false_2, bool_decide_eq_true_2 in Hf3 by done. done.
  - cbn. unfold SecretRefresh. rewrite seconds_exact by lia. done.
  - cbn. unfold Secrets.maxStale. cbn. unfold SecretRefresh. rewrite seconds_exact by lia. unfold int64. rewrite Z.mod_small by lia. lia.
  - intros Hprod. rewrite Hprod in Hdsn, Hvk, Hen. cbn [andb] in *. apply negb_true_iff in Hvk, Hen. split_and!; [|done|done|].
    + apply negb_true_iff, andb_false_iff in Hdsn as [H|H]; apply negb_false_iff in H; auto.
    + intros f ref t. cbn. rewrite Hprod. intros [= <-] Hpre. destruct (Secrets.Fetch_no_file (Secrets.mkResolver (Some warden) false) ref t eq_refl Hpre) as (e & He & _). by exists e.
Qed.

(** No accepted opt-out is silent: of a configuration that validates, a
    plaintext event bus, an enrolment without TLS, a plaintext PowerDNS or recursor
    API, a key read from a file, a mounted Docker socket, a missing resolver and a
    missing metrics endpoint each have their warning. *)
Theorem Warnings_complete c :
  (∀ raw u, url_Parse raw = Some u → Scheme u = lit "http" → Host u ≠ [] → isPlainHTTP raw = true) →
  Validate c = Ok () →
  (VAllowPlaintext (cValkey c) = true → warn_valkey ∈ Warnings c) ∧
  (EEnabled (cMeshEnroll c) && EInsecure (cMeshEnroll c) = true → warn_enroll ∈ Warnings c) ∧
  (∀ u, url_Parse (PAPIURL (cPDNS c)) = Some u → Scheme u ≠ lit "https" → warn_pdns ∈ Warnings c) ∧
  (∀ u, RecursorEnabled c = true → url_Parse (RAPIURL (cRecursor c)) = Some u → Scheme u ≠ lit "https" → warn_recursor ∈ Warnings c) ∧
  (isFileRef (PAPIKeyRef (cPDNS c)) = true ∨ isFileRef (RAPIKeyRef (cRecursor c)) = true → warn_file ∈ Warnings c) ∧
  (DkEnabled (cDocker c) = true → warn_docker (cDocker c) ∈ Warnings c) ∧
  (RecursorEnabled c = false → warn_no_recursor ∈ Warnings c) ∧ (PrometheusURL (cMetrics c) = [] → warn_no_metrics ∈ Warnings c).
Proof.
  intros Hlaw Hv. apply Validate_parts in Hv as (_ & _ & Hp & Hr & _).
  assert (Hin : ∀ b w l1 l2, b = true → w ∈ l1 ++ when b w ++ l2) by (intros b w l1 l2 ->; rewrite !elem_of_app; right; left; by apply list_elem_of_singleton).
  assert (Hskip : ∀ (w : str) l1 l2, w ∈ l2 → w ∈ l1 ++ l2) by (intros; rewrite elem_of_app; by right).
  assert (Hurl : ∀ field raw plain u, apiURL field raw plain = Ok () → url_Parse raw = Some u → Scheme u ≠ lit "https" → isPlainHTTP raw = true).
  { intros field raw plain u (u' & Hu & Hb & Hs)%apiURL_Ok Hu' Hn. assert (u' = u) as -> by congruence. destruct Hs as [?|[Hs _]]; [done|]. apply (Hlaw raw u); [done..|].
    unfold base_url in Hb. rewrite !andb_true_iff, negb_true_iff, bool_decide_eq_false in Hb. tauto. }
  unfold Warnings. split_and!.
  - intros H. by apply Hin.
  - intros H. by apply Hskip, Hin.
  - intros u Hu Hn. apply Hskip, Hskip, Hin. unfold validatePDNS in Hp. rewrite need_bind, unit_bind in Hp. destruct Hp as (_ & Ha & _). by eapply Hurl.
  - intros u He Hu Hn. apply Hskip, Hskip, Hskip, Hin. rewrite He. cbn [andb]. unfold validateRecursor in Hr. unfold RecursorEnabled in He. apply negb_true_iff in He. rewrite He in Hr.
    rewrite unit_bind in Hr. destruct Hr as [Ha _]. by eapply Hurl.
  - intros H. apply Hskip, Hskip, Hskip, Hskip, Hin. by apply orb_true_iff.
  - intros H. by apply Hskip, Hskip, Hskip, Hskip, Hskip, Hin.
  - intros H. apply Hskip, Hskip, Hskip, Hskip, Hskip, Hskip, Hin. by rewrite H.
  - intros H. do 7 apply Hskip. apply elem_of_app. right. rewrite bool_decide_eq_true_2 by done. by apply list_elem_of_singleton.
Qed.
End Config.

(** An IPv6 literal is no forward host, although the message says that an IP
    literal is and the recursor client takes one. *)
Example ipv6_forward_host : hostRE "2001:db8::53" = false ∧ RecursorHttp.hostRE "2001:db8::53" = true ∧ hostRE "192.0.2.53" = true.
Proof. exact (conj eq_refl (conj eq_refl eq_refl)). Qed.

(** ** A concrete configuration *)

Module Concrete.
#[local] Existing Instance unicode_min.
#[local] Instance plain_framework : Framework bool := {| f_Default := true; f_Validate _ := Ok (); f_IsProduction b := b; f_Warnings _ := [] |}.
(** URLs of the form scheme, host and path. *)
#[local] Instance parser : URLParser := λ s,
  let parts scheme rest := Some (mkURL scheme (default [] (head (SplitByte "/"%char rest))) false [] [] s) in
  if HasPrefix (ToLower s) "http://" then parts (lit "http") (drop 7 s)
  else if HasPrefix (ToLower s) "https://" then parts (lit "https") (drop 8 s)
  else None.
Lemma parser_plain raw u : url_Parse raw = Some u → Scheme u = lit "http" → Host u ≠ [] → isPlainHTTP raw = true.
Proof.
  unfold url_Parse, parser, isPlainHTTP. destruct (HasPrefix (ToLower raw) "http://"); [done|]. destruct (HasPrefix (ToLower raw) "https://"); [|done]. by intros [= <-].
Qed.

(** A production configuration, with a resolver, restarts and the IPAM sync. *)
Definition prod : Config bool := mkConfig true
  (mkDB "postgres://dns@db/dns?sslmode=verify-full" [] 16) (mkValkey [lit "valkey:6379"] [] [] false []) (mkKEK "file" "/run/kek" [])
  (mkPDNS "http://pdns-auth:8081" "localhost" "warden:pdns" 10 33554432 true "pdns-auth" 53)
  (mkRecursorSection "http://pdns-recursor:8082" "localhost" "warden:recursor" 10 true 300 [lit "corp.example."])
  (mkDockerSection true "/var/run/docker.sock" "freya-pdns-auth" "freya-pdns-recursor" 60)
  (mkManagedFiles "/etc/pdns/recursor.d/freya.yml" "/etc/pdns/pdns.d/freya.conf") (mkMetrics [] 10)
  (mkIPAMSync true [lit "aaaaaaaa-0000-4000-8000-000000000001"] "ipam" 3600) (mkACME "spiffe://example.org/svc/lcm" 3600)
  (mkRecords 60 604800 100 500) (mkSecretsSection "warden" [] 300) true (mkGateway "gateway" "https://gateway.example.org")
  (mkMeshEnroll false [] [] [] [] [] false) (mkLimitsSection 1048576 67108864 33554432 100).
Lemma prod_valid : Validate prod = Ok ().
Proof. vm_compute. reflexivity. Qed.

Lemma Validate_starts_witness :
  ∃ p r d, PdnsHttp.New (pdns_config prod) = Ok p ∧ RecursorHttp.New (recursor_config prod) = Ok r ∧ RecursorHttp.enabled r = true ∧
    Restart.NewDocker (docker_config prod) () = Ok d.
Proof.
  destruct (Validate_starts (SE := SecretsSpec.Concrete.env_secrets) (λ _ t, (Err (Plain "down"), t)) () prod prod_valid (conj eq_refl eq_refl))
    as ((p & Hp & _) & (r & Hr & He) & (d & Hd) & _).
  exists p, r, d. rewrite He. exact (conj Hp (conj Hr (conj eq_refl Hd))).
Defined.
Lemma Warnings_complete_witness : Validate prod = Ok () ∧ warn_pdns ∈ Warnings prod ∧ warn_docker (cDocker prod) ∈ Warnings prod ∧ warn_no_metrics ∈ Warnings prod.
Proof.
  destruct (Warnings_complete prod parser_plain prod_valid) as (_ & _ & Hp & _ & _ & Hd & _ & Hm). split; [exact prod_valid|].
  split; [apply (Hp (mkURL "http" "pdns-auth:8081" false [] [] "http://pdns-auth:8081")); [vm_compute; reflexivity|discriminate]|].
  split; [apply Hd; reflexivity|apply Hm; reflexivity].
Defined.
End Concrete.
End ConfigFile.
