(* ===== verification/IpamConsumer.v ===== *)
(** * The IPAM event consumer ([internal/ipamsync/consumer.go], [ipamclient.go])

    [Run] reads the event streams of the configured tenants from their tails on
    and hands the address events to the synchronisation.  The bus is the class
    [Bus]: streams that only grow, read in order.  The theorems: every entry behind
    the start position is dispatched exactly once and in order, whatever fails,
    and the consumer starts exactly when the tenants are distinct. *)
From Stdlib Require Import Ascii Sorted.
From stdpp Require Import sorting.
From S2P Require Import Prelude GoStrings GoError Store Names Netip Authz MemStore Pdns Recursor World IpamPlan IpamSync Stream.
Local Open Scope Z_scope.

Module IpamConsumer.
Import Stream.

Abbreviation Event := IpamPlan.Event.
Definition later (a b : Entry) : Prop := Less (EID a) (EID b) = true.
(** An id before every entry. *)
Definition zeroID : str := "0-0".

(** The bus as a consumer sees it: other services append to the streams while a
    call runs, and nothing is trimmed before it is read; the entries of a stream have increasing ids above zero; a read gives
    the next entries after an id, [count] at most; [XLast] is the id of the tail. *)
Class Bus (C : Type) := {
  log : C → str → list Entry;
  bus_XRead : str → str → Z → C → res (list Entry) * C;
  bus_XLast : str → C → res str * C;
  bus_ok c key : StronglySorted later (log c key) ∧ Forall (λ e, Less zeroID (EID e) = true ∧ EID e ≠ []) (log c key);
  bus_read_law key a n c r c' : bus_XRead key a n c = (r, c') →
    (∀ k, log c k `prefix_of` log c' k) ∧
    ∀ es, r = Ok es → es `prefix_of` List.filter (λ e, Less a (EID e)) (log c' key);
  bus_last_law key c r c' : bus_XLast key c = (r, c') →
    (∀ k, log c k `prefix_of` log c' k) ∧
    ∀ id, r = Ok id → id = match last (log c' key) with Some e => EID e | None => [] end
}.

Section Consumer.
Context {C W : Type} {BUS : Bus C}.
Context (handle : str → Event → M W (res unit)) (json_payload : str → option IpamPlan.payload).

(** The bus, the positions, the world behind the handler and the flag; the rest is
    the history: the stream a position started behind, the entries dispatched, the
    events handed over and the drops reported. *)
Record State := mkState {
  bus : C; positions : gmap str str; world : W; started : bool;
  behind : gmap str (list Entry); dispatched : list (str * Entry); handed : list (str * Event); dropped : list str
}.

Definition locate (t : str) (s : State) : State :=
  match positions s !! t with
  | Some _ => s
  | None =>
    let '(r, b) := bus_XLast (Key t) (bus s) in
    match r with
    | Err _ => mkState b (positions s) (world s) (started s) (behind s) (dispatched s) (handed s) (dropped s)
    | Ok id => mkState b (<[t := if bool_decide (id = []) then zeroID else id]> (positions s)) (world s) (started s)
                 (<[t := log b (Key t)]> (behind s)) (dispatched s) (handed s) (dropped s)
    end
  end.

Definition dispatch (t : str) (e : Entry) (s : State) : State :=
  match IpamPlan.Decode json_payload (EFields e) with
  | Err x => if Is x ErrIgnored then s
             else mkState (bus s) (positions s) (world s) (started s) (behind s) (dispatched s) (handed s) (dropped s ++ [lit "malformed"])
  | Ok ev => mkState (bus s) (positions s) (handle t ev (world s)).2 (started s) (behind s) (dispatched s) (handed s ++ [(t, ev)]) (dropped s)
  end.
Definition take_entry (t : str) (s : State) (e : Entry) : State :=
  dispatch t e (mkState (bus s) (<[t := EID e]> (positions s)) (world s) (started s) (behind s) (dispatched s ++ [(t, e)]) (handed s) (dropped s)).
Definition read (t : str) (s : State) : State :=
  let '(r, b) := bus_XRead (Key t) (default [] (positions s !! t)) 100 (bus s) in
  let s := mkState b (positions s) (world s) (started s) (behind s) (dispatched s) (handed s) (dropped s) in
  match r with Err _ => s | Ok es => fold_left (take_entry t) es s end.

(** One turn of the loop. *)
Definition pass (tenants : list str) (s : State) : State :=
  let s := fold_left (λ s t, locate t s) tenants s in
  if (size (positions s) <? length tenants)%nat then s
  else fold_left (λ s t, read t s) tenants
         (mkState (bus s) (positions s) (world s) true (behind s) (dispatched s) (handed s) (dropped s)).
Fixpoint turns (n : nat) (tenants : list str) (s : State) : State :=
  match n with O => s | Datatypes.S n => turns n tenants (pass tenants s) end.
(** [n] turns before the context ends. *)
Definition Run (n : nat) (tenants : list str) (s : State) : State := if bool_decide (tenants = []) then s else turns n tenants s.
Definition init (b : C) (w : W) : State := mkState b ∅ w false ∅ [] [] [].

(** ** Positions in a stream *)

Definition position (l : list Entry) : str := match last l with Some e => EID e | None => zeroID end.
Definition mine (t : str) (l : list (str * Entry)) : list Entry := omap (λ te, if bool_decide (te.1 = t) then Some te.2 else None) l.

Lemma not_later_refl a : Less a a = false.
Proof. apply not_true_iff_false. rewrite Less_key. lia. Qed.
(** Behind the last entry of a part of a sorted stream is the rest of it. *)
Lemma filter_position a b :
  StronglySorted later (a ++ b) → Forall (λ e, Less zeroID (EID e) = true ∧ EID e ≠ []) (a ++ b) →
  List.filter (λ e, Less (position a) (EID e)) (a ++ b) = b.
Proof.
  intros Hs Hz. assert (Hb : List.filter (λ e, Less (position a) (EID e)) b = b).
  { assert (Hall : Forall (λ e, Less (position a) (EID e) = true) b).
    { apply Forall_forall. intros e He. unfold position. destruct (last a) as [x|] eqn:El.
      - apply last_Some in El as [a' ->]. eapply (StronglySorted_app_1_elem_of later (a' ++ [x]) b x e); [done|set_solver|done].
      - rewrite Forall_forall in Hz. apply Hz. set_solver. }
    clear -Hall. revert Hall. generalize (position a). intros p Hall. induction Hall as [|e b He _ IH]; [done|]. cbn [List.filter]. rewrite He. by f_equal. }
  rewrite List.filter_app, Hb. replace (List.filter _ a) with (@nil Entry); [done|]. symmetry.
  assert (Hall : Forall (λ e, Less (position a) (EID e) = false) a).
  { apply Forall_forall. intros e He. unfold position. destruct (last a) as [x|] eqn:El; [|apply last_None in El as ->; by apply elem_of_nil in He].
    apply last_Some in El as [a' ->]. apply elem_of_app in He as [He|He]; [|apply list_elem_of_singleton in He as ->; apply not_later_refl].
    apply not_true_iff_false. intros Hl. assert (later e x) as Hex by (rewrite <- app_assoc in Hs; eapply (StronglySorted_app_1_elem_of later a' ([x] ++ b) e x); [done|done|set_solver]).
    pose proof (Less_trans _ _ _ Hl Hex) as Hr. by rewrite not_later_refl in Hr. }
  clear -Hall. revert Hall. generalize (position a). intros p Hall. induction Hall as [|e l He _ IH]; [done|]. cbn [List.filter]. by rewrite He.
Qed.

(** ** Every entry once *)

Definition decoded (te : str * Entry) : option (str * Event) :=
  match IpamPlan.Decode json_payload (EFields te.2) with Ok ev => Some (te.1, ev) | Err _ => None end.
Definition malformed (te : str * Entry) : bool :=
  match IpamPlan.Decode json_payload (EFields te.2) with Ok _ => false | Err x => negb (Is x ErrIgnored) end.

(** A located tenant has dispatched what follows its start, up to its position. *)
Definition followed (s : State) (t : str) : Prop :=
  match positions s !! t with
  | None => behind s !! t = None ∧ mine t (dispatched s) = []
  | Some id => ∃ a rest, behind s !! t = Some a ∧ log (bus s) (Key t) = a ++ mine t (dispatched s) ++ rest ∧ id = position (a ++ mine t (dispatched s))
  end.
(** The world after handling events in order. *)
Definition handled (evs : list (str * Event)) (w : W) : W := fold_left (λ w te, (handle te.1 te.2 w).2) evs w.
Variable w0 : W.
Record inv (tenants : list str) (s : State) : Prop := mkInv {
  in_followed t : followed s t;
  in_tenants : dom (positions s) ⊆ list_to_set tenants;
  in_handed : handed s = omap decoded (dispatched s);
  in_world : world s = handled (handed s) w0;
  in_dropped : length (dropped s) = length (List.filter malformed (dispatched s))
}.

Lemma grows_followed s b t : (∀ k, log (bus s) k `prefix_of` log b k) → followed s t →
  followed (mkState b (positions s) (world s) (started s) (behind s) (dispatched s) (handed s) (dropped s)) t.
Proof.
  intros Hg. unfold followed. cbn [positions behind dispatched bus]. destruct (positions s !! t); [|done]. intros (a & rest & Ha & Hl & Hp).
  destruct (Hg (Key t)) as [more E]. exists a, (rest ++ more). rewrite E, Hl. by rewrite <- !app_assoc.
Qed.
Lemma locate_inv tenants s t : t ∈ tenants → inv tenants s → inv tenants (locate t s).
Proof.
  intros Ht [Hf Hd Hh Hw Hdr]. unfold locate. destruct (positions s !! t) eqn:Ep; [by constructor|]. destruct (bus_XLast (Key t) (bus s)) as [r b] eqn:El.
  apply bus_last_law in El as [Hg Hr]. destruct r as [id|].
  - specialize (Hr id eq_refl). constructor; cbn [positions behind dispatched bus world handed dropped]; try done; [|rewrite dom_insert; set_solver].
    intros u. unfold followed. cbn [positions behind dispatched bus]. destruct (decide (u = t)) as [->|Hne].
    + rewrite !lookup_insert_eq. pose proof (Hf t) as H. unfold followed in H. rewrite Ep in H. destruct H as [_ Hm]. exists (log b (Key t)), []. rewrite Hm, !app_nil_r.
      split_and!; [done..|]. unfold position. subst id. destruct (last (log b (Key t))) as [e|] eqn:Ee; [|done]. rewrite bool_decide_eq_false_2; [done|].
      destruct (bus_ok b (Key t)) as [_ Hz]. rewrite Forall_forall in Hz. apply Hz. apply last_Some in Ee as [l ->]. set_solver.
    + rewrite !lookup_insert_ne by done. exact (grows_followed s b u Hg (Hf u)).
  - constructor; cbn [positions behind dispatched bus world handed dropped]; try done. intros u. exact (grows_followed s b u Hg (Hf u)).
Qed.

Lemma mine_snoc t l u e : mine t (l ++ [(u, e)]) = mine t l ++ (if bool_decide (u = t) then [e] else []).
Proof. unfold mine. rewrite omap_app. f_equal. cbn. by destruct (bool_decide (u = t)). Qed.

(** The next entry of a located tenant. *)
Lemma take_inv tenants s t e a rest :
  t ∈ tenants → inv tenants s → behind s !! t = Some a → log (bus s) (Key t) = a ++ mine t (dispatched s) ++ e :: rest →
  inv tenants (take_entry t s e) ∧ behind (take_entry t s e) !! t = Some a ∧ bus (take_entry t s e) = bus s ∧ mine t (dispatched (take_entry t s e)) = mine t (dispatched s) ++ [e].
Proof.
  intros Ht [Hf Hd Hh Hw Hdr] Ha Hl.
  assert (E : ∃ w h d, w = handled h w0 ∧ take_entry t s e = mkState (bus s) (<[t := EID e]> (positions s)) w (started s) (behind s) (dispatched s ++ [(t, e)]) h d ∧
    h = omap decoded (dispatched s ++ [(t, e)]) ∧ length d = length (List.filter malformed (dispatched s ++ [(t, e)]))).
  { unfold take_entry, dispatch. rewrite omap_app, List.filter_app, length_app. cbn [omap list_omap List.filter]. unfold decoded at 2, malformed at 2. cbn [fst snd].
    destruct (IpamPlan.Decode json_payload (EFields e)) as [ev|x]; [|destruct (Is x ErrIgnored); cbn [negb]]; (do 3 eexists); (split; [|split; [reflexivity|]]); cbn [handed dropped world];
      [rewrite ?Hw; unfold handled; by rewrite ?fold_left_app| |rewrite Hw; done| |rewrite Hw; done|]; rewrite ?app_nil_r, ?length_app, Hh; cbn [length]; (split; [done|]); lia. }
  destruct E as (w & h & d & Hw' & -> & Hh' & Hd'). cbn [behind bus dispatched]. rewrite mine_snoc, bool_decide_eq_true_2 by done. split_and!; try done.
  constructor; cbn [positions behind dispatched bus world handed dropped]; try done; [|rewrite dom_insert; set_solver].
  intros u. unfold followed. cbn [positions behind dispatched bus]. rewrite mine_snoc. destruct (decide (u = t)) as [->|Hne].
  - rewrite lookup_insert_eq, bool_decide_eq_true_2 by done. exists a, rest. split; [done|]. split; [rewrite Hl; by rewrite <- app_assoc|].
    unfold position. by rewrite app_assoc, last_snoc.
  - rewrite lookup_insert_ne, bool_decide_eq_false_2, app_nil_r by done. exact (Hf u).
Qed.
Lemma take_all tenants t es : ∀ s a rest, t ∈ tenants → inv tenants s → behind s !! t = Some a → log (bus s) (Key t) = a ++ mine t (dispatched s) ++ es ++ rest →
  inv tenants (fold_left (take_entry t) es s).
Proof.
  induction es as [|e es IH]; intros s a rest Ht Hi Ha Hl; [done|]. cbn [fold_left]. destruct (take_inv tenants s t e a (es ++ rest) Ht Hi Ha Hl) as (Hi' & Ha' & Hb & Hm).
  apply (IH _ a rest Ht Hi' Ha'). rewrite Hb, Hm, Hl. by rewrite <- !app_assoc.
Qed.
Lemma read_inv tenants s t : t ∈ tenants → is_Some (positions s !! t) → inv tenants s → inv tenants (read t s).
Proof.
  intros Ht [id Hid] Hi. unfold read. rewrite Hid. change (default [] (Some id)) with id. destruct (bus_XRead _ _ _ _) as [r b] eqn:Er. apply bus_read_law in Er as [Hg Hr].
  assert (Hi' : inv tenants (mkState b (positions s) (world s) (started s) (behind s) (dispatched s) (handed s) (dropped s))).
  { destruct Hi as [Hf Hd Hh Hw Hdr]. constructor; try done. intros u. exact (grows_followed s b u Hg (Hf u)). }
  destruct r as [es|]; [|done]. pose proof (in_followed _ _ Hi' t) as H. unfold followed in H. cbn [positions behind dispatched bus] in H. rewrite Hid in H.
  destruct H as (a & rest & Ha & Hl & ->). specialize (Hr es eq_refl). destruct (bus_ok b (Key t)) as [Hs Hz]. rewrite app_assoc in Hl.
  rewrite Hl in Hr, Hs, Hz. rewrite filter_position in Hr by done. destruct Hr as [more ->].
  apply (take_all tenants t es _ a more Ht Hi'); [done|]. cbn [bus dispatched]. rewrite Hl. by rewrite <- app_assoc.
Qed.

Lemma locate_all tenants l s : l ⊆ tenants → inv tenants s → inv tenants (fold_left (λ s t, locate t s) l s).
Proof. revert s. induction l as [|t l IH]; intros s Hl Hi; [done|]. cbn [fold_left]. apply IH; [set_solver|]. apply locate_inv; [set_solver|done]. Qed.
Lemma take_entry_positions t s e u : is_Some (positions s !! u) → is_Some (positions (take_entry t s e) !! u).
Proof.
  intros H. assert (E : positions (take_entry t s e) = <[t := EID e]> (positions s)).
  { unfold take_entry, dispatch. destruct (IpamPlan.Decode _ _) as [|x]; [done|]. by destruct (Is x ErrIgnored). }
  rewrite E. destruct (decide (u = t)) as [->|]; [by rewrite lookup_insert_eq|by rewrite lookup_insert_ne].
Qed.
Lemma read_positions t s u : is_Some (positions s !! u) → is_Some (positions (read t s) !! u).
Proof.
  intros H. unfold read. destruct (bus_XRead _ _ _ _) as [r b]. destruct r as [es|]; [|done].
  assert (Hgen : ∀ es s, is_Some (positions s !! u) → is_Some (positions (fold_left (take_entry t) es s) !! u)); [|by apply Hgen].
  clear. induction es as [|e es IH]; intros s H; [done|]. cbn [fold_left]. by apply IH, take_entry_positions.
Qed.
Lemma read_all tenants l s : l ⊆ tenants → (∀ t, t ∈ tenants → is_Some (positions s !! t)) → inv tenants s → inv tenants (fold_left (λ s t, read t s) l s).
Proof.
  revert s. induction l as [|t l IH]; intros s Hl Hp Hi; [done|]. cbn [fold_left]. apply IH; [set_solver| |apply read_inv; [set_solver| |done]; apply Hp; set_solver].
  intros u Hu. by apply read_positions, Hp.
Qed.
Lemma size_tenants (l : list str) : (size (list_to_set l : gset str) ≤ length l)%nat ∧ ((length l ≤ size (list_to_set l : gset str))%nat → NoDup l).
Proof.
  induction l as [|t l [IH1 IH2]]; [split; [done|constructor]|]. cbn [list_to_set length]. destruct (decide (t ∈ l)) as [Hin|Hn].
  - replace ({[t]} ∪ list_to_set l : gset str) with (list_to_set l : gset str) by set_solver. split; [lia|]. intros H. lia.
  - rewrite size_union, size_singleton by set_solver. split; [lia|]. intros H. constructor; [done|]. apply IH2. lia.
Qed.
(** As many positions as tenants: every tenant has one, and the tenants differ. *)
Lemma all_located tenants s : inv tenants s → (length tenants ≤ size (positions s))%nat → NoDup tenants ∧ ∀ t, t ∈ tenants → is_Some (positions s !! t).
Proof.
  intros Hi Hlen. pose proof (in_tenants _ _ Hi) as Hd. rewrite <- size_dom in Hlen. pose proof (subseteq_size _ _ Hd) as Hle.
  destruct (size_tenants tenants) as [Hs Hnd].
  assert (Heq : dom (positions s) = list_to_set tenants) by (apply set_subseteq_size_eq; [done|lia]).
  split; [apply Hnd; lia|]. intros t Ht. apply elem_of_dom. rewrite Heq. set_solver.
Qed.
Lemma begin_inv tenants s f : inv tenants s → inv tenants (mkState (bus s) (positions s) (world s) f (behind s) (dispatched s) (handed s) (dropped s)).
Proof. by intros [? ? ? ? ?]; constructor. Qed.
Lemma pass_inv tenants s : inv tenants s → inv tenants (pass tenants s).
Proof.
  intros Hi. unfold pass. pose proof (locate_all tenants tenants s ltac:(set_solver) Hi) as Hl. destruct (_ <? _)%nat eqn:E; [done|]. apply Nat.ltb_ge in E.
  apply read_all; [set_solver| |by apply begin_inv]. cbn [positions]. by apply (all_located tenants _ Hl).
Qed.
Lemma turns_inv tenants n s : inv tenants s → inv tenants (turns n tenants s).
Proof. revert s. induction n as [|n IH]; intros s Hi; [done|]. by apply IH, pass_inv. Qed.
Lemma init_inv tenants b : inv tenants (init b w0).
Proof. by constructor. Qed.
Lemma Run_inv tenants n b : inv tenants (Run n tenants (init b w0)).
Proof. unfold Run. case_bool_decide; [apply init_inv|apply turns_inv, init_inv]. Qed.


(** ** The start *)

(** A bus that answers, and is quiet from here on: a read gives up to [count] of
    what follows, and nothing is appended. *)
Definition answers : Prop := ∀ key c, ∃ id c', bus_XLast key c = (Ok id, c').
Lemma locates tenants s : answers → ∀ t, t ∈ tenants → is_Some (positions (fold_left (λ s t, locate t s) tenants s) !! t).
Proof.
  intros Ha. assert (Hkeep : ∀ l s u, is_Some (positions s !! u) → is_Some (positions (fold_left (λ s t, locate t s) l s) !! u)).
  { induction l as [|t l IH]; intros s0 u Hu; [done|]. cbn [fold_left]. apply IH. unfold locate. destruct (positions s0 !! t) eqn:Et; [done|].
    destruct (Ha (Key t) (bus s0)) as (id & c' & ->). cbn [positions]. destruct (decide (u = t)) as [->|]; [by rewrite lookup_insert_eq|by rewrite lookup_insert_ne]. }
  revert s. induction tenants as [|t l IH]; intros s u Hu; [by apply elem_of_nil in Hu|]. cbn [fold_left]. apply elem_of_cons in Hu as [->|Hu]; [|by apply IH].
  apply Hkeep. unfold locate. destruct (positions s !! t) eqn:Et; [done|]. destruct (Ha (Key t) (bus s)) as (id & c' & ->). cbn [positions]. by rewrite lookup_insert_eq.
Qed.
Lemma take_entry_started t s e : started (take_entry t s e) = started s.
Proof. unfold take_entry, dispatch. destruct (IpamPlan.Decode _ _) as [|x]; [done|]. by destruct (Is x ErrIgnored). Qed.
Lemma read_started t s : started (read t s) = started s.
Proof.
  unfold read. destruct (bus_XRead _ _ _ _) as [r b]. destruct r as [es|]; [|done].
  assert (Hgen : ∀ es s, started (fold_left (take_entry t) es s) = started s); [|by rewrite Hgen].
  clear. induction es as [|e es IH]; intros s; [done|]. cbn [fold_left]. by rewrite IH, take_entry_started.
Qed.
Lemma reads_started l s : started (fold_left (λ s t, read t s) l s) = started s.
Proof. revert s. induction l as [|t l IH]; intros s; [done|]. cbn [fold_left]. by rewrite IH, read_started. Qed.
Lemma locates_idle l s : started (fold_left (λ s t, locate t s) l s) = started s ∧ dispatched (fold_left (λ s t, locate t s) l s) = dispatched s.
Proof.
  revert s. induction l as [|t l IH]; intros s; [done|]. cbn [fold_left]. destruct (IH (locate t s)) as [-> ->]. unfold locate. destruct (positions s !! t); [done|].
  destruct (bus_XLast _ _) as [r b]. by destruct r.
Qed.
Lemma pass_starts tenants s : inv tenants s → NoDup tenants → answers → started (pass tenants s) = true.
Proof.
  intros Hi Hnd Ha. unfold pass. pose proof (locates tenants s Ha) as Hp. set (s' := fold_left _ tenants s) in *. destruct (_ <? _)%nat eqn:E; [|by rewrite reads_started].
  apply Nat.ltb_lt in E. exfalso. assert (list_to_set tenants ⊆ dom (positions s')) as Hsub.
  { intros t Ht. apply elem_of_dom, Hp. set_solver. }
  apply subseteq_size in Hsub. rewrite size_dom in Hsub. pose proof (size_list_to_set (C:=gset str) tenants Hnd). lia.
Qed.
Lemma pass_stuck tenants s : inv tenants s → ¬ NoDup tenants → started (pass tenants s) = started s ∧ dispatched (pass tenants s) = dispatched s.
Proof.
  intros Hi Hnd. unfold pass. pose proof (locate_all tenants tenants s ltac:(set_solver) Hi) as Hl. destruct (_ <? _)%nat eqn:E; [apply locates_idle|].
  apply Nat.ltb_ge in E. by destruct (all_located _ _ Hl E).
Qed.
Lemma pass_keeps_started tenants s : started s = true → started (pass tenants s) = true.
Proof. intros H. unfold pass. destruct (_ <? _)%nat; [by rewrite (proj1 (locates_idle _ _))|by rewrite reads_started]. Qed.
Lemma turns_keeps_started tenants n s : started s = true → started (turns n tenants s) = true.
Proof. revert s. induction n as [|n IH]; intros s H; [done|]. by apply IH, pass_keeps_started. Qed.
Lemma turns_stuck tenants n s : inv tenants s → ¬ NoDup tenants → started (turns n tenants s) = started s ∧ dispatched (turns n tenants s) = dispatched s.
Proof.
  intros Hi Hnd. revert s Hi. induction n as [|n IH]; intros s Hi; [done|]. destruct (IH (pass tenants s) (pass_inv _ _ Hi)) as [E1 E2]. cbn [turns]. rewrite E1, E2. by apply pass_stuck.
Qed.

(** On a bus that answers, the first turn starts the consumer exactly when
    the tenants are pairwise distinct; with a tenant listed twice it waits for ever
    and dispatches nothing. *)
Theorem consumer_starts tenants n b (Hn : (0 < n)%nat) (Ht : tenants ≠ []) (Ha : answers) :
  let s := Run n tenants (init b w0) in
  (started s = true ↔ NoDup tenants) ∧ (¬ NoDup tenants → dispatched s = []).
Proof.
  unfold Run. rewrite bool_decide_eq_false_2 by done. cbv zeta. set (s := turns n tenants (init b w0)). pose proof (init_inv tenants b) as Hi. split; [split|].
  - intros Hs. destruct (decide (NoDup tenants)) as [|Hnd]; [done|]. destruct (turns_stuck tenants n _ Hi Hnd) as [E _]. fold s in E. by rewrite Hs in E.
  - intros Hnd. subst s. destruct n as [|n]; [lia|]. cbn [turns]. by apply turns_keeps_started, pass_starts.
  - intros Hnd. exact (proj2 (turns_stuck tenants n _ Hi Hnd)).
Qed.

(** ** Catching up *)

(** A bus that is quiet on [Q]: a read answers with up to [count] of the entries
    that follow, and nothing is appended. *)
Definition quiet (Q : C → Prop) : Prop := ∀ c key a n, Q c → ∃ c',
  bus_XRead key a n c = (Ok (take (Z.to_nat n) (List.filter (λ e, Less a (EID e)) (log c' key))), c') ∧ Q c' ∧ ∀ k, log c' k = log c k.
(** How many entries of a tenant's stream wait to be dispatched. *)
Definition lag (t : str) (s : State) : nat :=
  (length (log (bus s) (Key t)) - length (default [] (behind s !! t)) - length (mine t (dispatched s)))%nat.
Definition ready (tenants : list str) (Q : C → Prop) (s : State) : Prop :=
  inv tenants s ∧ Q (bus s) ∧ ∀ t, t ∈ tenants → is_Some (positions s !! t).

Lemma take_entries_state t es s :
  bus (fold_left (take_entry t) es s) = bus s ∧ behind (fold_left (take_entry t) es s) = behind s ∧
  dispatched (fold_left (take_entry t) es s) = dispatched s ++ map (pair t) es.
Proof.
  revert s. induction es as [|e es IH]; intros s; [by rewrite app_nil_r|]. cbn [fold_left map]. destruct (IH (take_entry t s e)) as (-> & -> & ->).
  assert (E : bus (take_entry t s e) = bus s ∧ behind (take_entry t s e) = behind s ∧ dispatched (take_entry t s e) = dispatched s ++ [(t, e)]).
  { unfold take_entry, dispatch. destruct (IpamPlan.Decode _ _) as [|x]; [done|]. by destruct (Is x ErrIgnored). }
  destruct E as (-> & -> & ->). by rewrite <- app_assoc.
Qed.
Lemma mine_own t l es : mine t (l ++ map (pair t) es) = mine t l ++ es.
Proof.
  unfold mine. rewrite omap_app. f_equal. induction es as [|e es IH]; [done|]. cbn [map omap list_omap fst snd]. rewrite bool_decide_eq_true_2 by done. by f_equal.
Qed.
Lemma mine_other t u l es : u ≠ t → mine u (l ++ map (pair t) es) = mine u l.
Proof.
  intros Hne. unfold mine. rewrite omap_app. rewrite <- (app_nil_r (omap _ l)) at 2. f_equal. induction es as [|e es IH]; [done|].
  cbn [map omap list_omap fst snd]. by rewrite bool_decide_eq_false_2.
Qed.

(** A read of a quiet bus takes the next hundred entries of its tenant. *)
Lemma read_lag tenants Q t s : quiet Q → t ∈ tenants → ready tenants Q s →
  ready tenants Q (read t s) ∧ lag t (read t s) = (lag t s - 100)%nat ∧ ∀ u, u ≠ t → lag u (read t s) = lag u s.
Proof.
  intros HQ Ht (Hi & Hq & Hp). pose proof (read_inv tenants s t Ht (Hp t Ht) Hi) as Hri. pose proof (λ u Hu, read_positions t s u (Hp u Hu)) as Hrp.
  unfold ready, lag in *. revert Hri Hrp. unfold read. destruct (Hp t Ht) as [id Hid]. rewrite Hid. change (default [] (Some id)) with id.
  destruct (HQ (bus s) (Key t) id 100 Hq) as (c' & -> & Hq' & Hlog). set (es := take _ _). set (s' := mkState _ _ _ _ _ _ _ _).
  destruct (take_entries_state t es s') as (Eb & Eh & Ed). rewrite Eb, Eh, Ed. cbn [bus behind dispatched s']. intros Hri Hrp.
  split; [done|]. split; [|intros u Hu; by rewrite Hlog, mine_other].
  rewrite mine_own. pose proof (in_followed _ _ Hi t) as H. unfold followed in H. rewrite Hid in H. destruct H as (a & rest & Ha & Hl & Hpos).
  assert (Hes : es = take 100 rest).
  { subst es. rewrite Hlog, Hl, app_assoc, Hpos. destruct (bus_ok (bus s) (Key t)) as [Hs Hz]. rewrite Hl, app_assoc in Hs, Hz. by rewrite filter_position. }
  rewrite Hes, Hlog, Hl, Ha. change (default [] (Some a)) with a. rewrite !length_app, length_take. lia.
Qed.
Lemma reads_lag tenants Q l s : quiet Q → l ⊆ tenants → NoDup l → ready tenants Q s →
  ready tenants Q (fold_left (λ s t, read t s) l s) ∧ ∀ t, lag t (fold_left (λ s t, read t s) l s) = (if bool_decide (t ∈ l) then lag t s - 100 else lag t s)%nat.
Proof.
  intros HQ. revert s. induction l as [|t l IH]; intros s Hl Hnd Hr; [done|]. cbn [fold_left]. apply NoDup_cons in Hnd as [Hn Hnd].
  destruct (read_lag tenants Q t s HQ ltac:(set_solver) Hr) as (Hr' & Ht & Ho). destruct (IH (read t s) ltac:(set_solver) Hnd Hr') as [Hr'' Hlag]. split; [done|].
  intros u. rewrite Hlag. destruct (decide (u = t)) as [->|Hne].
  - rewrite bool_decide_eq_false_2, bool_decide_eq_true_2 by set_solver. done.
  - rewrite Ho by done. by rewrite (bool_decide_ext (u ∈ t :: l) (u ∈ l)) by set_solver.
Qed.
Lemma locates_done l s : (∀ t, t ∈ l → is_Some (positions s !! t)) → fold_left (λ s t, locate t s) l s = s.
Proof.
  induction l as [|t l IH]; intros H; [done|]. cbn [fold_left]. replace (locate t s) with s; [apply IH; set_solver|].
  unfold locate. by destruct (H t ltac:(set_solver)) as [? ->].
Qed.
Lemma pass_lag tenants Q s : quiet Q → NoDup tenants → ready tenants Q s →
  ready tenants Q (pass tenants s) ∧ ∀ t, t ∈ tenants → lag t (pass tenants s) = (lag t s - 100)%nat.
Proof.
  intros HQ Hnd (Hi & Hq & Hp). unfold pass. rewrite locates_done by done. destruct (_ <? _)%nat eqn:E.
  - apply Nat.ltb_lt in E. exfalso. assert (Hsub : list_to_set tenants ⊆ dom (positions s)) by (intros t Ht; apply elem_of_dom, Hp; set_solver).
    apply subseteq_size in Hsub. rewrite size_dom, size_list_to_set in Hsub by done. lia.
  - set (s' := mkState _ _ _ _ _ _ _ _). destruct (reads_lag tenants Q tenants s' HQ ltac:(set_solver) Hnd) as [Hr Hlag]; [split_and!; [by apply begin_inv|done..]|].
    split; [done|]. intros t Ht. rewrite Hlag. by rewrite bool_decide_eq_true_2.
Qed.
Lemma turns_lag tenants Q n s : quiet Q → NoDup tenants → ready tenants Q s →
  ready tenants Q (turns n tenants s) ∧ ∀ t, t ∈ tenants → lag t (turns n tenants s) = (lag t s - 100 * n)%nat.
Proof.
  intros HQ Hnd. revert s. induction n as [|n IH]; intros s Hr; [split; [done|]; intros t _; cbn [turns]; lia|].
  destruct (pass_lag tenants Q s HQ Hnd Hr) as [Hr' Hlag]. destruct (IH _ Hr') as [Hr'' Hlag']. split; [done|]. intros t Ht. cbn [turns]. rewrite Hlag', Hlag by done. lia.
Qed.
Lemma started_located tenants n s : inv tenants s → (started s = true → ∀ t, t ∈ tenants → is_Some (positions s !! t)) →
  started (turns n tenants s) = true → ∀ t, t ∈ tenants → is_Some (positions (turns n tenants s) !! t).
Proof.
  revert s. induction n as [|n IH]; intros s Hi Hs; [done|]. cbn [turns]. apply IH; [by apply pass_inv|]. unfold pass.
  pose proof (locate_all tenants tenants s ltac:(set_solver) Hi) as Hl. destruct (_ <? _)%nat eqn:E.
  - rewrite (proj1 (locates_idle _ _)). intros H. specialize (Hs H). by rewrite locates_done.
  - intros _. apply Nat.ltb_ge in E. destruct (all_located _ _ Hl E) as [_ Hp]. clear -Hp.
    set (s' := mkState _ _ _ _ _ _ _ _). assert (H : ∀ l s u, is_Some (positions s !! u) → is_Some (positions (fold_left (λ s t, read t s) l s) !! u)); [|intros t Ht; apply H, Hp, Ht].
    induction l as [|x l IH]; intros s0 u Hu; [done|]. cbn [fold_left]. by apply IH, read_positions.
Qed.

(** C25: a started consumer catches up: once the bus is quiet, enough turns (one
    per hundred waiting entries) leave no entry undispatched. *)
Theorem consumer_catches_up tenants Q k n b
    (HQ : quiet Q) (Hst : started (Run k tenants (init b w0)) = true) (Hq : Q (bus (Run k tenants (init b w0))))
    (Hn : ∀ t, t ∈ tenants → (lag t (Run k tenants (init b w0)) ≤ 100 * n)%nat) :
  let s := turns n tenants (Run k tenants (init b w0)) in
  ∀ t, t ∈ tenants → ∃ a, behind s !! t = Some a ∧ log (bus s) (Key t) = a ++ mine t (dispatched s).
Proof.
  pose proof (Run_inv tenants k b) as Hi.
  assert (Hp : ∀ t, t ∈ tenants → is_Some (positions (Run k tenants (init b w0)) !! t)).
  { revert Hst. unfold Run. case_bool_decide; [done|]. apply started_located; [apply init_inv|done]. }
  assert (Hnd : NoDup tenants).
  { destruct (decide (NoDup tenants)) as [|Hnd]; [done|]. exfalso. revert Hst. unfold Run. case_bool_decide; [done|].
    by rewrite (proj1 (turns_stuck tenants k _ (init_inv _ _) Hnd)). }
  intros s t Ht. destruct (turns_lag tenants Q n _ HQ Hnd (conj Hi (conj Hq Hp))) as [(Hi' & _ & Hp') Hlag]. specialize (Hlag t Ht). fold s in Hi', Hp', Hlag.
  destruct (Hp' t Ht) as [id Hid]. pose proof (in_followed _ _ Hi' t) as H. unfold followed in H. rewrite Hid in H. destruct H as (a & rest & Ha & Hl & _).
  exists a. split; [done|]. specialize (Hn t Ht). unfold lag at 1 in Hlag. rewrite Ha, Hl in Hlag. change (default [] (Some a)) with a in Hlag. rewrite !length_app in Hlag.
  assert (rest = []) as -> by (apply nil_length_inv; lia). by rewrite app_nil_r in Hl.
Qed.
End Consumer.

(** ** The adapter of the IPAM client *)

Module IpamClient.
Import IpamSync.

(** The gRPC client of the IPAM service, and the status code of an error. *)
Class AddressReader := {
  R_GetAddress : str → str → res Address;
  R_GetSubnet : str → str → res Subnet;
  status_Code : error → Z
}.
Definition codes_NotFound : Z := 5.

Definition client_GetAddress `{AddressReader} (tenantID id : str) : res Address :=
  match R_GetAddress tenantID id with
  | Err e => if status_Code e =? codes_NotFound then Err (New IpamErrNotFound) else Err e
  | Ok a => Ok (mkAddress (AdID a) (AdAddress a) (AdSubnetID a) (AdHostname a))
  end.
Definition client_GetSubnet `{AddressReader} (tenantID id : str) : res Subnet :=
  match R_GetSubnet tenantID id with Err e => Err e | Ok sn => Ok (mkSubnet (SnID sn) (SnCIDR sn)) end.
#[export] Instance Client `{AddressReader} : IPAM := { GetAddress := client_GetAddress; GetSubnet := client_GetSubnet }.

(** An address counts as released only when the service says that it is not found. *)
Lemma released_only_NotFound `{AddressReader} tenantID id e :
  (∀ e', R_GetAddress tenantID id = Err e' → Is e' IpamErrNotFound = false) →
  GetAddress tenantID id = Err e → (Is e IpamErrNotFound = true ↔ ∃ e', R_GetAddress tenantID id = Err e' ∧ status_Code e' = codes_NotFound).
Proof.
  intros Hn. cbn [GetAddress Client]. unfold client_GetAddress. destruct (R_GetAddress tenantID id) as [a|x] eqn:E; [done|]. destruct (Z.eqb_spec (status_Code x) codes_NotFound) as [Ec|Ec]; intros [= <-].
  - split; [intros _; by exists x|done].
  - rewrite Hn by done. split; [done|]. by intros (? & [= <-] & ?).
Qed.
End IpamClient.

(** ** A bus to run on *)

Module Concrete.
Import IpamPlan.
Definition acme : str := "acme".
Definition data (n : nat) : str := if bool_decide (n = 3%nat) then "junk" else "{}".
Definition entry (n : nat) : Entry :=
  mkEntry (ID (Z.of_nat n) 0) (<[("type" : str) := if bool_decide (n = 2%nat) then "dns.zone" : str else TypeCreated]> (<[("data" : str) := data n]> ∅)).
Definition entries : list Entry := map entry (List.seq 1 4).
(** One more entry of the tenant per call. *)
Definition stream_at (n : nat) (key : str) : list Entry := if bool_decide (key = Key acme) then take n entries else [].
Lemma stream_at_mono n m key : (n ≤ m)%nat → stream_at n key `prefix_of` stream_at m key.
Proof. intros H. unfold stream_at. case_bool_decide; [|done]. replace (take n entries) with (take n (take m entries)) by (rewrite take_take; f_equal; lia). apply prefix_take. Qed.
Lemma entries_sorted : StronglySorted later entries.
Proof. repeat constructor; vm_compute; reflexivity. Qed.
Lemma entries_above : Forall (λ e, Less zeroID (EID e) = true ∧ EID e ≠ []) entries.
Proof. repeat constructor; first [vm_compute; reflexivity|by vm_compute]. Qed.
Definition tail_at (n : nat) (key : str) : str := match last (stream_at n key) with Some e => EID e | None => [] end.
#[export, program] Instance ticking : Bus nat := {
  log := stream_at;
  bus_XRead key a n c := (Ok (take (Z.to_nat n) (List.filter (λ e, Less a (EID e)) (stream_at (Datatypes.S c) key))), Datatypes.S c);
  bus_XLast key c := (Ok (tail_at c key), c)
}.
Next Obligation.
  intros c key. unfold stream_at. case_bool_decide; [|split; constructor]. pose proof entries_sorted as Hs. pose proof entries_above as Hz. rewrite <- (take_drop c entries) in Hs, Hz. split.
  - by apply StronglySorted_app in Hs as (_ & ? & _).
  - by apply Forall_app in Hz as [? _].
Qed.
Next Obligation. intros key a n c r c' [= <- <-]. split; [intros k; apply stream_at_mono; lia|]. intros es [= <-]. apply prefix_take. Qed.
Next Obligation. intros key c r c' H. injection H as Hr Hc. subst c' r. split; [done|]. intros id H'. injection H' as <-. reflexivity. Qed.

Definition payload_of (s : str) : option payload := if bool_decide (s = "{}") then Some (mkPayload [] "a1" "192.0.2.1" [] "www") else None.
Definition count (t : str) (ev : Event) : M Z (res unit) := λ n, (Ok tt, n + 1).

Definition begun : State := Run count payload_of 3 [acme] (init 0%nat 0).
(** Four entries: an event, another type, junk, an event. *)
Example run_counts : world (turns count payload_of 1 [acme] begun) = 2 ∧ dropped (turns count payload_of 1 [acme] begun) = [lit "malformed"] ∧
  map EID (mine acme (dispatched begun)) = [lit "1-0"; lit "2-0"; lit "3-0"].
Proof. vm_compute. repeat split. Qed.

Lemma ticking_answers : answers (C:=nat).
Proof. intros key c. by eexists _, _. Qed.
(** A tenant listed twice is never read. *)
Lemma consumer_starts_witness : dispatched (Run count payload_of 1000 [acme; acme] (init 0%nat 0)) = [].
Proof.
  apply (consumer_starts count payload_of 0 [acme; acme] 1000 0%nat); [apply Nat.ltb_lt; reflexivity|discriminate|exact ticking_answers|].
  intros H. apply NoDup_cons in H as [H _]. apply H. left.
Defined.
Definition all_in (n : nat) : Prop := (4 ≤ n)%nat.
Lemma ticking_quiet : quiet all_in.
Proof.
  intros c key a n Hc. exists (Datatypes.S c). unfold all_in in *. split_and!; [reflexivity|lia|]. intros k. cbn [log ticking]. unfold stream_at. case_bool_decide; [|done].
  rewrite !take_ge by (cbn; lia). done.
Qed.
Lemma consumer_catches_up_witness : ∃ a, behind (turns count payload_of 1 [acme] (Run count payload_of 4 [acme] (init 0%nat 0))) !! acme = Some a ∧
  log (bus (turns count payload_of 1 [acme] (Run count payload_of 4 [acme] (init 0%nat 0)))) (Key acme) =
    a ++ mine acme (dispatched (turns count payload_of 1 [acme] (Run count payload_of 4 [acme] (init 0%nat 0)))).
Proof.
  apply (consumer_catches_up count payload_of 0 [acme] all_in 4 1 0%nat).
  - exact ticking_quiet.
  - vm_compute. reflexivity.
  - unfold all_in. apply Nat.leb_le. vm_compute. reflexivity.
  - intros t Ht. apply list_elem_of_singleton in Ht as ->. apply Nat.leb_le. vm_compute. reflexivity.
  - left.
Defined.
End Concrete.
End IpamConsumer.
