(* ===== verification/Dashboard.v ===== *)
(** * The dashboard ([internal/dashboard/catalogue.go], [dashboard.go])

    A fixed catalogue of panels is run against a metrics client: one goroutine per
    panel, a semaphore that bounds the queries in flight, a context that may end at
    any time.  [step] is the interleaving of those goroutines, one event at a time,
    and [Get] runs a whole schedule.  The theorems: whatever the schedule and the
    client do, only catalogue expressions are asked, within the window and the
    concurrency limit; every schedule ends and none gets stuck; and with a client
    whose answers do not depend on the order the result is that of running the
    panels one after the other. *)
From Stdlib Require Import Ascii.
From S2P Require Import Prelude GoStrings GoError Store Authz MemStore Pdns Recursor World.
Local Open Scope Z_scope.

Module Dashboard.

(** ** The catalogue *)

Definition KindStat : str := "stat".
Definition KindSeries : str := "series".
Record Query := mkQuery { QLabel : str; Expr : str }.
Record Panel := mkPanel { PnID : str; PnKind : str; PnUnit : str; Queries : list Query }.

Definition catalogue : list Panel := [
  mkPanel "recursor_qps" KindStat "qps" [mkQuery "questions" "sum(rate(pdns_recursor_questions[5m]))"];
  mkPanel "recursor_cache_hit" KindStat "%" [mkQuery "cache_hit"
    "100 * sum(pdns_recursor_cache_hits) / clamp_min(sum(pdns_recursor_cache_hits + pdns_recursor_cache_misses), 1)"];
  mkPanel "recursor_concurrent" KindStat "queries" [mkQuery "concurrent" "sum(pdns_recursor_concurrent_queries)"];
  mkPanel "recursor_uptime" KindStat "s" [mkQuery "uptime" "max(pdns_recursor_uptime)"];
  mkPanel "recursor_latency" KindSeries "qps" [
    mkQuery "0-1ms" "sum(rate(pdns_recursor_answers0_1[5m]))";
    mkQuery "1-10ms" "sum(rate(pdns_recursor_answers1_10[5m]))";
    mkQuery "10-100ms" "sum(rate(pdns_recursor_answers10_100[5m]))";
    mkQuery "100-1000ms" "sum(rate(pdns_recursor_answers100_1000[5m]))"];
  mkPanel "recursor_answers" KindSeries "qps" [
    mkQuery "noerror" "sum(rate(pdns_recursor_noerror_answers[5m]))";
    mkQuery "nxdomain" "sum(rate(pdns_recursor_nxdomain_answers[5m]))";
    mkQuery "servfail" "sum(rate(pdns_recursor_servfail_answers[5m]))"];
  mkPanel "recursor_questions_outqueries" KindSeries "qps" [
    mkQuery "questions" "sum(rate(pdns_recursor_questions[5m]))";
    mkQuery "outqueries" "sum(rate(pdns_recursor_all_outqueries[5m]))"];
  mkPanel "auth_qps" KindStat "qps" [mkQuery "queries" "sum(rate(pdns_auth_backend_queries[5m]))"];
  mkPanel "auth_packetcache_hit" KindStat "%" [mkQuery "packetcache_hit"
    "100 * sum(pdns_auth_packetcache_hit) / clamp_min(sum(pdns_auth_packetcache_hit + pdns_auth_packetcache_miss), 1)"];
  mkPanel "auth_querycache_hit" KindStat "%" [mkQuery "querycache_hit"
    "100 * sum(pdns_auth_query_cache_hit) / clamp_min(sum(pdns_auth_query_cache_hit + pdns_auth_query_cache_miss), 1)"];
  mkPanel "auth_queries" KindSeries "qps" [mkQuery "queries" "sum(rate(pdns_auth_backend_queries[5m]))"];
  mkPanel "auth_errors" KindSeries "pps" [
    mkQuery "servfail" "sum(rate(pdns_auth_servfail_packets[5m]))";
    mkQuery "nxdomain" "sum(rate(pdns_auth_nxdomain_packets[5m]))"]].
Definition Catalogue : list Panel := catalogue.

(** ** Windows and results *)

Definition second : Z := 1000000000.
Record Window := mkWindow { WName : str; WRange : Z; WStep : Z }.
Definition windows : list (str * Window) := [
  ("1h" : str, mkWindow "1h" (3600 * second) (60 * second));
  ("6h" : str, mkWindow "6h" (6 * 3600 * second) (300 * second));
  ("24h" : str, mkWindow "24h" (24 * 3600 * second) (900 * second))].
Definition ParseWindow (s : str) : res Window :=
  let s := if bool_decide (s = []) then ("1h" : str) else s in
  match find_first (λ kw, bool_decide (kw.1 = s)) windows with Some kw => Ok kw.2 | None => Err (New DashboardErrWindow) end.

(** A [float64]: a finite number stays its bits. *)
Inductive float64 := NaN | Inf (negative : bool) | Num (bits : Z).
#[global] Instance float64_eq_dec : EqDecision float64.
Proof. solve_decision. Defined.
Definition finite (v : float64) : bool := match v with Num _ => true | _ => false end.

Record Sample := mkSample { SLabels : gmap str str; SValue : float64 }.
Record Series := mkSeries { SrLabels : gmap str str; SrPoints : list (float64 * float64) }.
Record SeriesData := mkSeriesData { SdLabels : gmap str str; SdPoints : list (float64 * float64) }.
Record PanelData := mkPanelData { PdID : str; PdKind : str; PdUnit : str; PdValue : option float64; PdSeries : list SeriesData; Unavailable : bool }.
Record Result := mkResult { Available : bool; RWindow : str; StepSeconds : Z; RPanels : list PanelData }.

(** The metrics client: instant and range queries, at times in nanoseconds. *)
Class MetricsClient (C : Type) := {
  mc_Query : str → Z → C → res (list Sample) * C;
  mc_QueryRange : str → Z → Z → Z → C → res (list Series) * C
}.

Record Deps := mkDeps { HasClient : bool; DChecker : option Authz.Checker; Concurrency : Z; MaxSeries : Z }.
(** [New]'s defaults. *)
Definition New_ (d : Deps) : Deps :=
  mkDeps (HasClient d) (DChecker d) (if Concurrency d <=? 0 then 4 else Concurrency d) (if MaxSeries d <=? 0 then 20 else MaxSeries d).

(** ** One query *)

Definition empty_panel (p : Panel) : PanelData := mkPanelData (PnID p) (PnKind p) (PnUnit p) None [] false.
Definition lost (o : PanelData) : PanelData := mkPanelData (PdID o) (PdKind o) (PdUnit o) None [] true.
Definition with_value (samples : list Sample) (o : PanelData) : PanelData :=
  match find_first (λ s, finite (SValue s)) samples with
  | Some s => mkPanelData (PdID o) (PdKind o) (PdUnit o) (Some (SValue s)) (PdSeries o) (Unavailable o)
  | None => o
  end.
Definition series_data (label : str) (s : Series) : SeriesData :=
  mkSeriesData (<[("series" : str) := label]> (SrLabels s)) (List.filter (λ pt, finite pt.2) (SrPoints s)).
Fixpoint add_series (max : Z) (label : str) (series : list Series) (o : PanelData) : PanelData :=
  match series with
  | [] => o
  | s :: rest =>
    if max <=? Z.of_nat (length (PdSeries o)) then o
    else add_series max label rest
           (mkPanelData (PdID o) (PdKind o) (PdUnit o) (PdValue o) (PdSeries o ++ [series_data label s]) (Unavailable o))
  end.

(** A call of the client. *)
Inductive call := Instant (expr : str) (at_ : Z) | Range (expr : str) (start end_ step : Z).

Section Service.
Context {C : Type} {MC : MetricsClient C} (d : Deps).

Definition call_of (p : Panel) (q : Query) (end_ : Z) (w : Window) : call :=
  if bool_decide (PnKind p = KindStat) then Instant (Expr q) end_ else Range (Expr q) (end_ - WRange w) end_ (WStep w).
Definition run (o : PanelData) (p : Panel) (q : Query) (end_ : Z) (w : Window) : M C (res PanelData) :=
  if bool_decide (PnKind p = KindStat) then
    samples ←? mc_Query (Expr q) end_;
    mret (Ok (with_value samples o))
  else
    series ←? mc_QueryRange (Expr q) (end_ - WRange w) end_ (WStep w);
    mret (Ok (add_series (MaxSeries d) (QLabel q) series o)).

(** ** The goroutines *)

(** A panel's goroutine: the queries before it, and whether it holds a slot for the
    first; it is finished when none is left. *)
Record worker := mkWorker { wpanel : Panel; todo : list Query; asking : bool; wout : PanelData }.
Record Refresh := mkRefresh { client : C; workers : list worker; ended : bool; asked : list call }.

Inductive event := Acquire (i : nat) | Answer (i : nat) | GiveUp (i : nat) | End_.

#[global] Instance event_eq_dec : EqDecision event.
Proof. solve_decision. Defined.

Definition busy (s : Refresh) : nat := sum_list_with (λ w, if asking w then 1 else 0)%nat (workers s).
Definition set_worker (i : nat) (w : worker) (s : Refresh) : Refresh := mkRefresh (client s) (<[i := w]> (workers s)) (ended s) (asked s).
Definition step (end_ : Z) (wd : Window) (e : event) (s : Refresh) : option Refresh :=
  match e with
  | Acquire i =>
    w ← workers s !! i;
    match todo w, asking w with
    | _ :: _, false => if Z.of_nat (busy s) <? Concurrency d then Some (set_worker i (mkWorker (wpanel w) (todo w) true (wout w)) s) else None
    | _, _ => None
    end
  | Answer i =>
    w ← workers s !! i;
    match todo w, asking w with
    | q :: rest, true =>
      let '(r, c) := run (wout w) (wpanel w) q end_ wd (client s) in
      let w' := match r with Ok o => mkWorker (wpanel w) rest false o | Err _ => mkWorker (wpanel w) [] false (lost (wout w)) end in
      Some (mkRefresh c (<[i := w']> (workers s)) (ended s) (asked s ++ [call_of (wpanel w) q end_ wd]))
    | _, _ => None
    end
  | GiveUp i =>
    w ← workers s !! i;
    match todo w, asking w with
    | _ :: _, false => if ended s then Some (set_worker i (mkWorker (wpanel w) [] false (lost (wout w))) s) else None
    | _, _ => None
    end
  | End_ => if ended s then None else Some (mkRefresh (client s) (workers s) true (asked s))
  end.
Fixpoint steps (end_ : Z) (wd : Window) (evs : list event) (s : Refresh) : option Refresh :=
  match evs with [] => Some s | e :: evs => s ← step end_ wd e s; steps end_ wd evs s end.
Definition finished (s : Refresh) : bool := forallb (λ w, bool_decide (todo w = [])) (workers s).
Definition start_worker (p : Panel) : worker := mkWorker p (Queries p) false (empty_panel p).
Definition start (cat : list Panel) (c : C) : Refresh := mkRefresh c (map start_worker cat) false [].

(** [Get] at the time [now] over a whole schedule; [None] for a schedule that is
    not one of a complete refresh. *)
Definition gathered (w : Window) (panels : list PanelData) : Result :=
  if forallb Unavailable panels then mkResult false (WName w) (Z.quot (WStep w) second) [] else mkResult true (WName w) (Z.quot (WStep w) second) panels.
Definition Get (subj : Authz.Subjects) (window : str) (now : Z) (evs : list event) (c : C) : option (res Result * C * list call) :=
  match (match DChecker d with Some k => Authz.Require_ (Some k) subj Authz.DashboardRead | None => Ok () end) with
  | Err e => Some (Err e, c, [])
  | Ok _ =>
    match ParseWindow window with
    | Err e => Some (Err e, c, [])
    | Ok w =>
      if negb (HasClient d) then Some (Ok (mkResult false (WName w) (Z.quot (WStep w) second) []), c, [])
      else
        s ← steps now w evs (start Catalogue c);
        if finished s then Some (Ok (gathered w (map wout (workers s))), client s, asked s) else None
    end
  end.

(** A panel's queries one after the other, in one goroutine with a free slot. *)
Fixpoint panel_from (p : Panel) (qs : list Query) (o : PanelData) (end_ : Z) (w : Window) : M C PanelData :=
  match qs with
  | [] => mret o
  | q :: qs =>
    r ← run o p q end_ w;
    match r with Err _ => mret (lost o) | Ok o => panel_from p qs o end_ w end
  end.
Definition panel (p : Panel) (end_ : Z) (w : Window) : M C PanelData := panel_from p (Queries p) (empty_panel p) end_ w.

(** ** One event changes one goroutine *)

Lemma sum_insert {A} (f : A → nat) (l : list A) i x y :
  l !! i = Some x → (sum_list_with f (<[i := y]> l) + f x = sum_list_with f l + f y)%nat.
Proof.
  revert i. induction l as [|a l IH]; intros [|i] H; try done; [injection H as ->; cbn; lia|].
  specialize (IH i H). change (f a + sum_list_with f (<[i := y]> l) + f x = f a + sum_list_with f l + f y)%nat. lia.
Qed.
Lemma Forall2_update {A B} (P : A → B → Prop) l k i x y : Forall2 P l k → l !! i = Some x → P x y → Forall2 P l (<[i := y]> k).
Proof. intros H Hi Hp. rewrite <- (list_insert_id l i x Hi). by apply Forall2_insert. Qed.
Lemma Forall2_at {A B} (P : A → B → Prop) l k i y : Forall2 P l k → k !! i = Some y → ∃ x, l !! i = Some x ∧ P x y.
Proof. intros H Hi. destruct (Forall2_lookup_r _ _ _ _ _ H Hi) as (x & Hx & Hp). eauto. Qed.

(** What [step] does, as one goroutine's move. *)
Definition moved (end_ : Z) (wd : Window) (s s' : Refresh) : Prop :=
  (workers s' = workers s ∧ ended s = false ∧ ended s' = true ∧ client s' = client s ∧ asked s' = asked s) ∨
  ∃ i w q rest w', workers s !! i = Some w ∧ todo w = q :: rest ∧ workers s' = <[i := w']> (workers s) ∧ ended s' = ended s ∧ wpanel w' = wpanel w ∧
    ((asking w = false ∧ Z.of_nat (busy s) < Concurrency d ∧ w' = mkWorker (wpanel w) (todo w) true (wout w) ∧ client s' = client s ∧ asked s' = asked s) ∨
     (asking w = false ∧ ended s = true ∧ w' = mkWorker (wpanel w) [] false (lost (wout w)) ∧ client s' = client s ∧ asked s' = asked s) ∨
     (asking w = true ∧ asked s' = asked s ++ [call_of (wpanel w) q end_ wd] ∧ client s' = (run (wout w) (wpanel w) q end_ wd (client s)).2 ∧
      w' = match (run (wout w) (wpanel w) q end_ wd (client s)).1 with Ok o => mkWorker (wpanel w) rest false o | Err _ => mkWorker (wpanel w) [] false (lost (wout w)) end)).
Lemma step_moved end_ wd e s s' : step end_ wd e s = Some s' → moved end_ wd s s'.
Proof.
  intros H. destruct e as [i|i|i|]; cbn [step] in H; try (destruct (workers s !! i) as [w|] eqn:Ew; [|done]; cbn [mbind option_bind] in H;
    destruct (todo w) as [|q rest] eqn:Et, (asking w) eqn:Ea; try done).
  - destruct (Z.ltb_spec (Z.of_nat (busy s)) (Concurrency d)); [|done]. injection H as <-. right. exists i, w, q, rest. eexists. rewrite <- Et. eauto 12.
  - destruct (run _ _ _ _ _ _) as [r c] eqn:Er. injection H as <-. right. exists i, w, q, rest. eexists. split_and!; [done|done|reflexivity|done| |].
    + by destruct r.
    + right; right. rewrite Er. done.
  - destruct (ended s) eqn:Ee; [|done]. injection H as <-. right. exists i, w, q, rest. eexists. split_and!; [done|done|reflexivity|done|done|]. right; left. done.
  - destruct (ended s) eqn:Ee; [done|]. injection H as <-. left. done.
Qed.

Lemma run_run o p q end_ w c : ∃ r, (run o p q end_ w c).1 = r ∧
  match r with
  | Err _ => True
  | Ok o' => PdID o' = PdID o ∧ PdKind o' = PdKind o ∧ PdUnit o' = PdUnit o ∧ Unavailable o' = Unavailable o ∧
      ((∃ ss, o' = with_value ss o) ∨ ∃ ss, o' = add_series (MaxSeries d) (QLabel q) ss o)
  end.
Proof.
  eexists. split; [reflexivity|]. unfold run, try_. case_bool_decide.
  - destruct (mc_Query _ _ _) as [[ss|] c']; [|done]. cbn. assert (E : ∀ ss, let o' := with_value ss o in PdID o' = PdID o ∧ PdKind o' = PdKind o ∧ PdUnit o' = PdUnit o ∧ Unavailable o' = Unavailable o).
    { intros ss'. unfold with_value. by destruct (find_first _ ss'). }
    destruct (E ss) as (? & ? & ? & ?). split_and!; try done. eauto.
  - destruct (mc_QueryRange _ _ _ _ _) as [[ss|] c']; [|done]. cbn.
    assert (E : ∀ ss o, let o' := add_series (MaxSeries d) (QLabel q) ss o in PdID o' = PdID o ∧ PdKind o' = PdKind o ∧ PdUnit o' = PdUnit o ∧ Unavailable o' = Unavailable o).
    { clear. induction ss as [|x ss IH]; intros o; cbn; [done|]. destruct (_ <=? _); [done|].
      match goal with |- context [add_series _ _ ss ?o'] => exact (IH o') end. }
    destruct (E ss o) as (? & ? & ? & ?). split_and!; try done. eauto.
Qed.

(** ** What every schedule keeps *)

(** A panel's data is of the panel, bounded and finite, and empty when lost. *)
Definition data_ok (p : Panel) (o : PanelData) : Prop :=
  PdID o = PnID p ∧ PdKind o = PnKind p ∧ PdUnit o = PnUnit p ∧
  (Unavailable o = true → PdValue o = None ∧ PdSeries o = []) ∧
  match PdValue o with Some v => finite v = true | None => True end ∧
  Z.of_nat (length (PdSeries o)) ≤ Z.max 0 (MaxSeries d) ∧
  Forall (λ s, Forall (λ pt, finite pt.2 = true) (SdPoints s) ∧ ∃ q, q ∈ Queries p ∧ SdLabels s !! ("series" : str) = Some (QLabel q)) (PdSeries o).
Definition worker_ok (p : Panel) (w : worker) : Prop :=
  wpanel w = p ∧ (∃ before, Queries p = before ++ todo w) ∧ data_ok p (wout w) ∧ (todo w ≠ [] → Unavailable (wout w) = false) ∧ (asking w = true → todo w ≠ []).
Definition call_ok (cat : list Panel) (end_ : Z) (wd : Window) (c : call) : Prop := ∃ p q, p ∈ cat ∧ q ∈ Queries p ∧ c = call_of p q end_ wd.
Definition load (s : Refresh) : nat := sum_list_with (λ w, 2 * length (todo w) - (if asking w then 1 else 0))%nat (workers s).
Record sound (cat : list Panel) (end_ : Z) (wd : Window) (s : Refresh) : Prop := mkSound {
  so_workers : Forall2 worker_ok cat (workers s);
  so_busy : Z.of_nat (busy s) ≤ Z.max 0 (Concurrency d);
  so_asked : Forall (call_ok cat end_ wd) (asked s)
}.

Lemma lost_ok p o : data_ok p o → data_ok p (lost o).
Proof. intros (? & ? & ? & _). unfold data_ok, lost. cbn. split_and!; [done..|lia|constructor]. Qed.
Lemma find_first_finite ss s : find_first (λ s : Sample, finite (SValue s)) ss = Some s → finite (SValue s) = true.
Proof. intros H. by apply find_first_Some in H as [_ H]. Qed.
Lemma with_value_ok p ss o : Unavailable o = false → data_ok p o → data_ok p (with_value ss o).
Proof.
  intros Hu Ho. unfold with_value. destruct (find_first _ ss) as [s|] eqn:E; [|done]. apply find_first_finite in E. destruct Ho as (? & ? & ? & _ & _ & ? & ?).
  unfold data_ok. cbn. rewrite Hu. by split_and!.
Qed.
Lemma add_series_ok p q ss o : q ∈ Queries p → Unavailable o = false → data_ok p o → data_ok p (add_series (MaxSeries d) (QLabel q) ss o).
Proof.
  intros Hq. revert o. induction ss as [|x ss IH]; intros o Hu Ho; cbn [add_series]; [done|]. destruct (Z.leb_spec (MaxSeries d) (Z.of_nat (length (PdSeries o)))); [done|].
  apply IH; [done|]. destruct Ho as (? & ? & ? & _ & ? & ? & Hs). unfold data_ok. cbn. rewrite Hu. split_and!; try done.
  - rewrite length_app. cbn. lia.
  - apply Forall_app. split; [done|]. constructor; [|done]. cbn. split.
    + apply Forall_forall. intros pt Hpt. apply list_elem_of_In, filter_In in Hpt. tauto.
    + exists q. by rewrite lookup_insert_eq.
Qed.
Lemma run_ok p o q end_ w c o' : q ∈ Queries p → Unavailable o = false → data_ok p o → (run o p q end_ w c).1 = Ok o' → data_ok p o' ∧ Unavailable o' = false.
Proof.
  intros Hq Hu Ho E. destruct (run_run o p q end_ w c) as (r & Er & Hr). rewrite E in Er. subst r. destruct Hr as (_ & _ & _ & Hu' & [[ss ->]|[ss ->]]); (split; [|by rewrite Hu']).
  - by apply with_value_ok.
  - by apply add_series_ok.
Qed.
Lemma busy_insert s i w w' c e a : workers s !! i = Some w →
  (busy (mkRefresh c (<[i := w']> (workers s)) e a) + (if asking w then 1 else 0) = busy s + (if asking w' then 1 else 0))%nat.
Proof. intros H. unfold busy. cbn [workers]. exact (sum_insert (λ w, if asking w then 1 else 0)%nat _ i w w' H). Qed.

Lemma moved_sound cat end_ wd s s' : sound cat end_ wd s → moved end_ wd s s' → sound cat end_ wd s'.
Proof.
  intros [Hw Hb Ha] [(Ew & _ & _ & _ & Ea)|(i & w & q & rest & w' & Hi & Ht & Ew & _ & Hp & Hcase)].
  { constructor; unfold busy; rewrite ?Ew, ?Ea; done. }
  destruct (Forall2_at _ _ _ _ _ Hw Hi) as (p & Hpi & (<- & [before Hq] & Hd & Hu & Has)). rewrite Ht in Hq.
  assert (Hin : q ∈ Queries (wpanel w)) by (rewrite Hq; set_solver). assert (Hu' : Unavailable (wout w) = false) by (apply Hu; by rewrite Ht).
  pose proof (busy_insert s i w w' (client s') (ended s') (asked s') Hi) as Hbusy. rewrite <- Ew in Hbusy.
  assert (Hb' : busy s' = busy (mkRefresh (client s') (workers s') (ended s') (asked s'))) by done. rewrite <- Hb' in Hbusy.
  destruct Hcase as [(Hf & Hlt & -> & _ & Ea)|[(Hf & _ & -> & _ & Ea)|(Hf & Ea & _ & Hw')]].
  - constructor; rewrite ?Ew, ?Ea; [|cbn [asking] in Hbusy; rewrite Hf in Hbusy; lia|done]. eapply Forall2_update; [done..|]. split_and!; cbn; [done|exists before; by rewrite Ht|done|done|by rewrite Ht].
  - constructor; rewrite ?Ew, ?Ea; [|cbn [asking] in Hbusy; rewrite Hf in Hbusy; lia|done]. eapply Forall2_update; [done..|]. split_and!; cbn; [done|by exists (Queries (wpanel w)); rewrite app_nil_r|by apply lost_ok|done|done].
  - assert (Hok : worker_ok (wpanel w) w' ∧ asking w' = false).
    { destruct (run (wout w) (wpanel w) q end_ wd (client s)).1 as [o|] eqn:Er; subst w'; (split; [|done]).
      - destruct (run_ok _ _ _ _ _ _ _ Hin Hu' Hd Er) as [Ho Huo]. split_and!; cbn; [done|exists (before ++ [q]); by rewrite <- app_assoc|done|done|done].
      - split_and!; cbn; [done|by exists (Queries (wpanel w)); rewrite app_nil_r|by apply lost_ok|done|done]. }
    destruct Hok as [Hok Hfree]. constructor; rewrite ?Ew; [by eapply Forall2_update|rewrite Hfree, Hf in Hbusy; lia|].
    rewrite Ea. apply Forall_app. split; [done|]. constructor; [|done]. exists (wpanel w), q. split_and!; [by eapply list_elem_of_lookup_2|done|done].
Qed.
Lemma start_sound cat end_ wd c : sound cat end_ wd (start cat c).
Proof.
  constructor; cbn.
  - induction cat as [|p cat IH]; cbn; constructor; [|done]. split_and!; cbn; [done|by exists []| |done|done]. unfold data_ok. cbn. split_and!; try done; lia.
  - unfold busy. cbn. induction cat as [|p cat IH]; cbn; lia.
  - constructor.
Qed.
Lemma steps_sound cat end_ wd evs s s' : sound cat end_ wd s → steps end_ wd evs s = Some s' → sound cat end_ wd s'.
Proof.
  revert s. induction evs as [|e evs IH]; intros s Hs H; cbn in H; [by injection H as <-|]. destruct (step end_ wd e s) as [s1|] eqn:E; [|done].
  apply (IH s1); [|done]. eapply moved_sound; [done|]. by eapply step_moved.
Qed.

(** What every catalogue query keeps of the client, a refresh keeps. *)
Lemma steps_client cat end_ wd (I : C → Prop) evs s s' :
  (∀ p q o c, p ∈ cat → q ∈ Queries p → I c → I (run o p q end_ wd c).2) →
  sound cat end_ wd s → I (client s) → steps end_ wd evs s = Some s' → I (client s').
Proof.
  intros HI. revert s. induction evs as [|e evs IH]; intros s Hs Hc H; cbn in H; [by injection H as <-|]. destruct (step end_ wd e s) as [s1|] eqn:E; [|done].
  pose proof (step_moved _ _ _ _ _ E) as Hm. apply (IH s1); [by eapply moved_sound| |done].
  destruct Hm as [(_ & _ & _ & -> & _)|(i & w & q & rest & w' & Hi & Ht & _ & _ & _ & Hcase)]; [done|].
  destruct Hcase as [(_ & _ & _ & -> & _)|[(_ & _ & _ & -> & _)|(_ & _ & -> & _)]]; [done|done|].
  destruct (Forall2_at _ _ _ _ _ (so_workers _ _ _ _ Hs) Hi) as (p & Hp & (-> & [before Hq] & _)). rewrite Ht in Hq.
  apply HI; [by eapply list_elem_of_lookup_2|rewrite Hq; set_solver|done].
Qed.

(** ** Every schedule ends *)

Definition budget (s : Refresh) : nat := (load s + if ended s then 0 else 1)%nat.
Definition waiting (s : Refresh) : nat := sum_list_with (λ w, length (todo w)) (workers s).

Lemma moved_budget cat end_ wd s s' : sound cat end_ wd s → moved end_ wd s s' →
  (budget s' < budget s)%nat ∧ (length (asked s') + waiting s' ≤ length (asked s) + waiting s)%nat.
Proof.
  intros [Hw _ _] [(Ew & Ee & Ee' & _ & Ea)|(i & w & q & rest & w' & Hi & Ht & Ew & Ee & _ & Hcase)]; unfold budget, load, waiting.
  { rewrite Ew, Ee, Ee', Ea. lia. }
  pose proof (sum_insert (λ w, 2 * length (todo w) - (if asking w then 1 else 0))%nat _ i w w' Hi) as Hl.
  pose proof (sum_insert (λ w, length (todo w)) _ i w w' Hi) as Hn. rewrite Ew, Ee. cbn beta in Hl, Hn. rewrite Ht in Hl, Hn. cbn [length] in Hl, Hn.
  destruct Hcase as [(Hf & _ & -> & _ & ->)|[(Hf & _ & -> & _ & ->)|(Hf & -> & _ & Hw')]]; rewrite Hf in Hl; cbn [todo asking length] in Hl, Hn; rewrite ?length_app.
  - rewrite Ht in Hl, Hn |- *. cbn [length] in Hl, Hn. lia.
  - lia.
  - assert (Hshape : asking w' = false ∧ (length (todo w') ≤ length rest)%nat) by (subst w'; destruct (run _ _ _ _ _ _).1; cbn; split; [done|lia|done|lia]).
    destruct Hshape as [Hfree Hlen]. rewrite Hfree in Hl. cbn [length]. lia.
Qed.
Lemma steps_budget cat end_ wd evs s s' : sound cat end_ wd s → steps end_ wd evs s = Some s' →
  (budget s' + length evs ≤ budget s)%nat ∧ (length (asked s') + waiting s' ≤ length (asked s) + waiting s)%nat.
Proof.
  revert s. induction evs as [|e evs IH]; intros s Hs H; cbn in H; [injection H as <-; cbn; lia|]. destruct (step end_ wd e s) as [s1|] eqn:E; [|done].
  pose proof (step_moved _ _ _ _ _ E) as Hm. pose proof (moved_budget _ _ _ _ _ Hs Hm). pose proof (IH s1 (moved_sound _ _ _ _ _ Hs Hm) H). cbn [length]. lia.
Qed.
Lemma start_load cat c : load (start cat c) = (2 * waiting (start cat c))%nat ∧ waiting (start cat c) = sum_list_with (λ p, length (Queries p)) cat.
Proof. unfold load, waiting, start. cbn [workers]. induction cat as [|p cat IH]; cbn; [done|]. cbn in IH. lia. Qed.
Lemma steps_app end_ wd evs1 evs2 s : steps end_ wd (evs1 ++ evs2) s = (s ← steps end_ wd evs1 s; steps end_ wd evs2 s).
Proof. revert s. induction evs1 as [|e evs1 IH]; intros s; cbn; [done|]. destruct (step end_ wd e s); cbn; [apply IH|done]. Qed.

(** A goroutine that has a slot gets its answer; when none has, one can take it. *)
Lemma can_step cat end_ wd s : 0 < Concurrency d → sound cat end_ wd s → finished s = false → ∃ e s', step end_ wd e s = Some s'.
Proof.
  intros Hc Hs Hf. destruct (decide (Exists (λ w, asking w = true) (workers s))) as [Hx|Hx].
  - apply Exists_exists in Hx as (w & Hin & Ha). apply list_elem_of_lookup in Hin as [i Hi]. destruct (Forall2_at _ _ _ _ _ (so_workers _ _ _ _ Hs) Hi) as (p & _ & Hok).
    destruct Hok as (_ & _ & _ & _ & Ht). specialize (Ht Ha). destruct (todo w) as [|q rest] eqn:Et; [done|].
    exists (Answer i). cbn [step]. rewrite Hi. cbn [mbind option_bind]. rewrite Et, Ha. destruct (run _ _ _ _ _ _). eauto.
  - unfold finished in Hf. rewrite <- not_true_iff_false in Hf. rewrite <- Forall_Exists_neg in Hx.
    assert (Hy : Exists (λ w, todo w ≠ []) (workers s)).
    { destruct (decide (Exists (λ w, todo w ≠ []) (workers s))) as [|Hn]; [done|]. exfalso. apply Hf. rewrite <- Forall_Exists_neg in Hn. apply forallb_Forall.
      eapply Forall_impl; [exact Hn|]. cbn. intros w Hw. apply bool_decide_eq_true_2. by destruct (todo w); [|exfalso; apply Hw]. }
    apply Exists_exists in Hy as (w & Hin & Ht). rewrite Forall_forall in Hx. pose proof (Hx w Hin) as Ha. apply not_true_iff_false in Ha. apply list_elem_of_lookup in Hin as [i Hi].
    assert (Hb : busy s = 0%nat).
    { unfold busy. clear -Hx. induction (workers s) as [|w l IH]; [done|]. cbn. rewrite IH by (intros; apply Hx; set_solver). specialize (Hx w ltac:(set_solver)). by destruct (asking w). }
    exists (Acquire i). cbn [step]. rewrite Hi. cbn [mbind option_bind]. destruct (todo w); [done|]. rewrite Ha, Hb. destruct (Z.ltb_spec (Z.of_nat 0) (Concurrency d)); [eauto|lia].
Qed.
Lemma can_finish cat end_ wd s : 0 < Concurrency d → sound cat end_ wd s → ∃ evs s', steps end_ wd evs s = Some s' ∧ finished s' = true.
Proof.
  intros Hc. remember (budget s) as n eqn:En. revert s En. induction (lt_wf n) as [n _ IH]. intros s -> Hs. destruct (finished s) eqn:Ef; [by exists [], s|].
  destruct (can_step _ _ _ _ Hc Hs Ef) as (e & s1 & E). pose proof (step_moved _ _ _ _ _ E) as Hm. destruct (moved_budget _ _ _ _ _ Hs Hm) as [Hlt _].
  destruct (IH _ Hlt s1 eq_refl (moved_sound _ _ _ _ _ Hs Hm)) as (evs & s2 & H2 & Hf). exists (e :: evs), s2. cbn [steps]. by rewrite E.
Qed.

(** ** The order does not matter *)

(** A client whose answers depend on the call only. *)
Definition steady : Prop :=
  (∀ e t c c', (mc_Query e t c).1 = (mc_Query e t c').1) ∧ (∀ e a b st c c', (mc_QueryRange e a b st c).1 = (mc_QueryRange e a b st c').1).
Lemma steady_run o p q end_ w c c' : steady → (run o p q end_ w c).1 = (run o p q end_ w c').1.
Proof.
  intros [Hq Hr]. unfold run, try_. case_bool_decide.
  - specialize (Hq (Expr q) end_ c c'). destruct (mc_Query _ _ c) as [x ?], (mc_Query _ _ c') as [y ?]. cbn in Hq. subst y. by destruct x.
  - specialize (Hr (Expr q) (end_ - WRange w) end_ (WStep w) c c'). destruct (mc_QueryRange _ _ _ _ c) as [x ?], (mc_QueryRange _ _ _ _ c') as [y ?]. cbn in Hr. subst y. by destruct x.
Qed.
Lemma steady_panel p qs o end_ w c c' : steady → (panel_from p qs o end_ w c).1 = (panel_from p qs o end_ w c').1.
Proof.
  intros Hs. revert o c c'. induction qs as [|q qs IH]; intros o c c'; cbn [panel_from]; [done|]. unfold mbind, M_bind.
  pose proof (steady_run o p q end_ w c c' Hs) as E. destruct (run _ _ _ _ _ c) as [x ?], (run _ _ _ _ _ c') as [y ?]. cbn in E. subst y. destruct x; [apply IH|done].
Qed.
(** What a goroutine has still to do ends in its panel. *)
Definition on_course (end_ : Z) (wd : Window) (c0 : C) (p : Panel) (w : worker) : Prop :=
  wpanel w = p ∧ (panel_from p (todo w) (wout w) end_ wd c0).1 = (panel p end_ wd c0).1.
Lemma moved_on_course cat end_ wd c0 s s' : steady → moved end_ wd s s' → ended s' = false →
  Forall2 (on_course end_ wd c0) cat (workers s) → Forall2 (on_course end_ wd c0) cat (workers s').
Proof.
  intros Hst [(_ & _ & Ee & _)|(i & w & q & rest & w' & Hi & Ht & -> & Ee & Hp & Hcase)] He Hw; [by rewrite Ee in He|].
  destruct (Forall2_at _ _ _ _ _ Hw Hi) as (p & Hpi & (Hp0 & Hrun)). eapply Forall2_update; [done..|]. split; [by rewrite Hp|].
  destruct Hcase as [(_ & _ & -> & _)|[(_ & Hend & _)|(_ & _ & _ & Hw')]]; [done|by rewrite <- Ee, He in Hend|].
  rewrite Ht in Hrun. cbn [panel_from] in Hrun. unfold mbind, M_bind in Hrun. rewrite Hp0 in Hw'. rewrite (steady_run _ _ _ _ _ (client s) c0 Hst) in Hw'.
  destruct (run (wout w) p q end_ wd c0) as [r c1]. cbn [fst] in Hw'. rewrite <- Hrun. destruct r as [o|]; subst w'; cbn [todo wout]; [by apply steady_panel|done].
Qed.
Lemma steps_ended end_ wd evs s s' : steps end_ wd evs s = Some s' → ended s' = false → ended s = false.
Proof.
  revert s. induction evs as [|e evs IH]; intros s H He; cbn in H; [by injection H as <-|]. destruct (step end_ wd e s) as [s1|] eqn:E; [|done].
  specialize (IH _ H He). destruct (step_moved _ _ _ _ _ E) as [(_ & _ & E1 & _)|(? & ? & ? & ? & ? & _ & _ & _ & E1 & _)]; [by rewrite E1 in IH|by rewrite <- E1].
Qed.
Lemma steps_on_course cat end_ wd c0 evs s s' : steady → steps end_ wd evs s = Some s' → ended s' = false →
  Forall2 (on_course end_ wd c0) cat (workers s) → Forall2 (on_course end_ wd c0) cat (workers s').
Proof.
  intros Hst. revert s. induction evs as [|e evs IH]; intros s H He Hw; cbn in H; [by injection H as <-|]. destruct (step end_ wd e s) as [s1|] eqn:E; [|done].
  apply (IH s1 H He). eapply moved_on_course; [done|by eapply step_moved|by eapply steps_ended|done].
Qed.
Lemma no_end end_ wd evs s s' : End_ ∉ evs → steps end_ wd evs s = Some s' → ended s' = ended s.
Proof.
  revert s. induction evs as [|e evs IH]; intros s Hn H; cbn in H; [by injection H as <-|]. destruct (step end_ wd e s) as [s1|] eqn:E; [|done].
  rewrite (IH s1); [|set_solver|done]. destruct (step_moved _ _ _ _ _ E) as [(_ & E0 & E1 & _)|(? & ? & ? & ? & ? & _ & _ & _ & E1 & _)]; [|done].
  exfalso. apply Hn. destruct e; cbn in E; try (destruct (workers s !! i) as [w|]; [|done]; cbn in E; destruct (todo w), (asking w); try done); [..|left].
  - destruct (_ <? _); [|done]. injection E as <-. cbn in E1. by rewrite E0 in E1.
  - destruct (run _ _ _ _ _ _). injection E as <-. cbn in E1. by rewrite E0 in E1.
  - by rewrite E0 in E.
Qed.

(** ** [Get] *)

Lemma Get_run subj window now evs c r c' calls : Get subj window now evs c = Some (r, c', calls) →
  (match DChecker d with Some k => Authz.Require_ (Some k) subj Authz.DashboardRead = Ok () | None => True end ∧
   ∃ w, ParseWindow window = Ok w ∧
     ((HasClient d = false ∧ calls = [] ∧ c' = c ∧ r = Ok (mkResult false (WName w) (Z.quot (WStep w) second) [])) ∨
      (HasClient d = true ∧ ∃ s, steps now w evs (start Catalogue c) = Some s ∧ finished s = true ∧ r = Ok (gathered w (map wout (workers s))) ∧ c' = client s ∧ calls = asked s))) ∨
  (∃ e, r = Err e) ∧ calls = [] ∧ c' = c.
Proof.
  unfold Get. destruct (match DChecker d with Some _ => _ | None => _ end) as [[]|e] eqn:Ek; [|intros [= <- <- <-]; right; eauto].
  destruct (ParseWindow window) as [w|] eqn:Ew; [|intros [= <- <- <-]; right; eauto]. intros H. left. split; [by destruct (DChecker d)|]. exists w. split; [done|].
  destruct (HasClient d) eqn:Eh; cbn [negb] in H; [|injection H as <- <- <-; left; done]. right. split; [done|].
  destruct (steps now w evs (start Catalogue c)) as [s|] eqn:Es; [|done]. cbn [mbind option_bind] in H. destruct (finished s) eqn:Ef; [|done].
  injection H as <- <- <-. by exists s.
Qed.
Lemma ParseWindow_In s w : ParseWindow s = Ok w → (∃ k, (k, w) ∈ windows) ∧ ParseWindow (WName w) = Ok w.
Proof.
  unfold ParseWindow at 1. cbv zeta. destruct (find_first _ windows) as [[k w']|] eqn:E; [|done]. intros [= <-]. apply find_first_Some in E as [E _].
  split; [by exists k|]. cbn [snd]. unfold windows in E. rewrite !elem_of_cons, elem_of_nil in E. by destruct E as [[= -> ->]|[[= -> ->]|[[= -> ->]|[]]]].
Qed.


(** A refresh always ends and never gets stuck: a schedule has at most 39
    events (two per catalogue query and the end of the context), and wherever it
    stands, also after the context ended, it can be continued to a complete
    refresh, which has a result. *)
Theorem Get_total subj window now w evs c s
    (Hc : 0 < Concurrency d) (Hw : ParseWindow window = Ok w) (Hs : steps now w evs (start Catalogue c) = Some s) :
  (length evs ≤ 39)%nat ∧ ∃ rest x, Get subj window now (evs ++ rest) c = Some x.
Proof.
  pose proof (start_sound Catalogue now w c) as H0. split.
  - destruct (steps_budget _ now w evs _ s H0 Hs) as [Hb _]. unfold budget in Hb. destruct (start_load Catalogue c) as [El Ew]. rewrite El, Ew in Hb.
    change (sum_list_with (λ p, length (Queries p)) Catalogue) with 19%nat in Hb. cbn [start ended] in Hb. lia.
  - destruct (can_finish _ now w s Hc (steps_sound _ _ _ _ _ _ H0 Hs)) as (rest & s' & Hr & Hf). exists rest. unfold Get.
    destruct (match DChecker d with Some _ => _ | None => _ end); [|eauto]. rewrite Hw. destruct (HasClient d); cbn [negb]; [|eauto].
    rewrite steps_app, Hs. cbn [mbind option_bind]. rewrite Hr. cbn [mbind option_bind]. rewrite Hf. eauto.
Qed.

End Service.

(** ** The in-memory client *)

Record RangeCall := mkRangeCall { RcExpr : str; RcStart : Z; RcEnd : Z; RcStep : Z }.
(** [FHook] is what the hook of the tests answers, when there is one. *)
Record Fake := mkFake {
  FInstant : gmap str (list Sample); FRange : gmap str (list Series); FErrs : gmap str error;
  FHook : option (option error); exprs : list str; ranges : list RangeCall
}.
Definition NewFake : Fake := mkFake ∅ ∅ ∅ None [] [].
Definition fake_begin (expr : str) : M Fake (res unit) := λ f,
  (match FHook f with
   | Some (Some e) => Err e
   | _ => match FErrs f !! expr with Some e => Err e | None => Ok () end
   end, mkFake (FInstant f) (FRange f) (FErrs f) (FHook f) (exprs f ++ [expr]) (ranges f)).
Definition fake_Query (expr : str) (at_ : Z) : M Fake (res (list Sample)) :=
  _ ←? fake_begin expr;
  λ f, (Ok (default [] (FInstant f !! expr)), f).
Definition fake_QueryRange (expr : str) (start end_ step : Z) : M Fake (res (list Series)) :=
  _ ← (λ f, ((), mkFake (FInstant f) (FRange f) (FErrs f) (FHook f) (exprs f) (ranges f ++ [mkRangeCall expr start end_ step])));
  _ ←? fake_begin expr;
  λ f, (Ok (default [] (FRange f !! expr)), f).
#[export] Instance fake_client : MetricsClient Fake := {| mc_Query := fake_Query; mc_QueryRange := fake_QueryRange |}.

Module Concrete.
(** A client that answers all but one expression. *)
#[local] Instance flat : MetricsClient unit := {|
  mc_Query e t c := (if bool_decide (e = lit "max(pdns_recursor_uptime)") then Err (New DashboardErrQuery) else Ok [mkSample ∅ NaN; mkSample ∅ (Num 7)], c);
  mc_QueryRange e a b st c := (Ok [mkSeries ∅ [(Num 0, Num 1); (Num 1, Inf true)]], c)
|}.
Definition alice : Authz.Subjects := Authz.User "t1" "alice" [].
Definition deps : Deps := New_ (mkDeps true None 0 0).
Definition group (g : list nat) : list event := map Acquire g ++ map Answer (reverse g).
Definition schedule : list event := concat (map group [[0; 1; 2; 3]; [4; 5; 6; 7]; [8; 9; 10; 11]; [4; 5; 6; 11]; [4; 5]; [4]]%nat).
Definition outcome : option (res Result * unit * list call) := Get deps alice "" 90000000000000 schedule ().
(** Every panel but the failing one, and all nineteen calls. *)
Example outcome_shape : match outcome with
  | Some (Ok r, _, l) => Some (length l, Available r, map (λ o, (PdValue o, map (λ s, length (SdPoints s)) (PdSeries o), Unavailable o)) (take 5 (RPanels r)))
  | _ => None
  end = Some (19%nat, true, [(Some (Num 7), [], false); (Some (Num 7), [], false); (Some (Num 7), [], false); (None, [], true); (None, [1; 1; 1; 1]%nat, false)]).
Proof. vm_compute. reflexivity. Qed.
Lemma outcome_ok : ∃ r l, Get deps alice "" 90000000000000 schedule () = Some (Ok r, (), l).
Proof.
  assert (Hs : match Get deps alice "" 90000000000000 schedule () with Some (Ok _, _, _) => true | _ => false end = true) by (vm_compute; reflexivity).
  destruct (Get deps alice "" 90000000000000 schedule ()) as [[[[r|] []] l]|]; [eauto|done..].
Qed.


(** Four queries in flight when the context ends. *)
Definition cut_short : list event := map Acquire [0; 1; 2; 3]%nat ++ [End_; GiveUp 5; Answer 2].
Lemma Get_total_witness : ∃ rest x, Get deps alice "6h" 90000000000000 (cut_short ++ rest) () = Some x.
Proof.
  destruct (steps deps 90000000000000 (mkWindow "6h" (6 * 3600 * second) (300 * second)) cut_short (start Catalogue ())) as [s|] eqn:E; [|by vm_compute in E].
  apply (Get_total deps alice "6h" 90000000000000 (mkWindow "6h" (6 * 3600 * second) (300 * second)) cut_short () s).
  - apply Z.ltb_lt. reflexivity.
  - reflexivity.
  - exact E.
Defined.

Lemma flat_steady : steady (C := unit).
Proof. done. Qed.

(** Nobody without the permission, no other window. *)
Example refused : Get (C := unit) (mkDeps true (Some (λ _ _ _, false)) 4 20) alice "" 0 [] () =
    Some (Err (Authz.forbidden (Authz.DashboardRead ++ " required")), (), []) ∧
  Get deps alice "2h" 0 [] () = Some (Err (New DashboardErrWindow), (), []).
Proof. by vm_compute. Qed.
End Concrete.
End Dashboard.
