(* ===== verification/Prom.v ===== *)
(** * The Prometheus client ([internal/dashboard/prom.go])

    [Prom] turns the dashboard's queries into GET requests on the Prometheus HTTP
    API and its replies into finite samples or one of three errors.  The network is
    a [Transport]; [net/url]'s parser, [encoding/json] and [strconv.ParseFloat] are
    parameters.  The theorems: the server reads back exactly the expression and the
    times; a reply's text never reaches an error; and a whole refresh of the
    dashboard sends catalogue expressions only. *)
From Stdlib Require Import Ascii.
From S2P Require Import Prelude GoStrings GoError Store Authz MemStore Pdns Recursor World Url HttpText PdnsHttp Dashboard.
Local Open Scope Z_scope.

(** ** Query strings *)

Module UrlQuery.
Definition unreserved (c : ascii) : bool := Url.alnum c || bool_decide (c ∈ lit "-_.~").
Definition escape_byte (c : ascii) : str :=
  if unreserved c then [c]
  else if bool_decide (c = " "%char) then lit "+"
  else [Url.percent; Url.upperhex (Z.shiftr (code c) 4); Url.upperhex (Z.land (code c) 15)].
Definition QueryEscape (s : str) : str := concat (map escape_byte s).
(** [url.Values.Encode] of one value per key. *)
Definition Encode (kvs : list (str * str)) : str :=
  Join (map (λ kv, QueryEscape kv.1 ++ "=" ++ QueryEscape kv.2) (sort_by (λ a b, str_ltb a.1 b.1) kvs)) "&".

(** What a server makes of a query string. *)
Fixpoint QueryUnescape (s : str) : str :=
  match s with
  | [] => []
  | c :: s =>
    if bool_decide (c = Url.percent) then
      match s with a :: b :: s => chr (16 * Url.unhex a + Url.unhex b) :: QueryUnescape s | _ => c :: s end
    else (if bool_decide (c = "+"%char) then " "%char else c) :: QueryUnescape s
  end.
Fixpoint cut_eq (s : str) : str * str :=
  match s with [] => ([], []) | c :: t => if bool_decide (c = "="%char) then ([], t) else let '(a, b) := cut_eq t in (c :: a, b) end.
Definition ParseQuery (s : str) : list (str * str) :=
  map (λ kv, let '(k, v) := cut_eq kv in (QueryUnescape k, QueryUnescape v)) (SplitByte "&"%char s).

Definition safe (c : ascii) : bool := unreserved c || bool_decide (c ∈ lit "+%").
Lemma escape_safe s : Forall (λ c, safe c = true) (QueryEscape s).
Proof.
  unfold QueryEscape. apply Forall_concat, Forall_map, Forall_true. intros c. apply forallb_Forall. revert c. by_bytes.
Qed.
Lemma safe_not c x : safe c = true → x ∈ lit "&=#?/ " → c ≠ x.
Proof.
  intros Hc Hx ->. assert (H : ∀ c, negb (bool_decide (c ∈ lit "&=#?/ ")) || negb (safe c) = true) by by_bytes.
  specialize (H x). by rewrite bool_decide_eq_true_2, Hc in H.
Qed.
Lemma escape_no x s : x ∈ lit "&=#?/ " → x ∉ QueryEscape s.
Proof. intros Hx Hin. pose proof (escape_safe s) as H. rewrite Forall_forall in H. by eapply safe_not; [apply H|..]. Qed.
Lemma unescape_first c s : QueryUnescape (escape_byte c ++ s) = c :: QueryUnescape s.
Proof.
  unfold escape_byte. destruct (unreserved c) eqn:E; [|destruct (bool_decide (c = " "%char)) eqn:Es]; cbn [app QueryUnescape].
  - rewrite bool_decide_eq_false_2 by (intros ->; by vm_compute in E). rewrite bool_decide_eq_false_2 by (intros ->; by vm_compute in E). done.
  - apply bool_decide_eq_true in Es as ->. done.
  - rewrite bool_decide_eq_true_2 by done. f_equal. clear E Es s. revert c.
    assert (H : ∀ c, bool_decide (chr (16 * Url.unhex (Url.upperhex (Z.shiftr (code c) 4)) + Url.unhex (Url.upperhex (Z.land (code c) 15))) = c) = true) by by_bytes.
    intros c. specialize (H c). by apply bool_decide_eq_true in H.
Qed.
Lemma QueryUnescape_QueryEscape s : QueryUnescape (QueryEscape s) = s.
Proof. induction s as [|c s IH]; [done|]. cbn [QueryEscape map concat]. rewrite unescape_first. by rewrite <- IH at 2. Qed.
Lemma cut_eq_app a b : "="%char ∉ a → cut_eq (a ++ "="%char :: b) = (a, b).
Proof.
  induction a as [|c a IH]; intros H; cbn [app cut_eq]; [by rewrite bool_decide_eq_true_2|].
  rewrite bool_decide_eq_false_2 by set_solver. rewrite IH by set_solver. done.
Qed.
(** Nothing in a key or a value can end it or start another one. *)
Lemma ParseQuery_Encode kvs : kvs ≠ [] → ParseQuery (Encode kvs) = sort_by (λ a b, str_ltb a.1 b.1) kvs.
Proof.
  intros Hn. unfold ParseQuery, Encode. rewrite SplitByte_Join.
  - rewrite map_map. apply map_id_Forall, Forall_true. intros [k v]. cbn [fst snd].
    change (QueryEscape k ++ "=" ++ QueryEscape v) with (QueryEscape k ++ "="%char :: QueryEscape v). rewrite cut_eq_app by (apply escape_no; set_solver).
    by rewrite !QueryUnescape_QueryEscape.
  - intros H. apply map_eq_nil in H. pose proof (sort_by_perm (λ a b, str_ltb a.1 b.1) kvs) as Hp. rewrite H in Hp. by apply Permutation_nil_l in Hp.
  - apply Forall_map, Forall_true. intros [k v]. cbn [fst snd]. rewrite !not_elem_of_app. split_and!; [apply escape_no; set_solver| |apply escape_no; set_solver].
    vm_compute. intros H. by repeat (apply elem_of_cons in H as [H|H]; [done|]); apply elem_of_nil in H.
Qed.
End UrlQuery.

(** ** The client *)

Module Prom.
Import Http Dashboard.

Record PromConfig := mkPromConfig { BaseURL : str; MaxBytes : Z }.
Record Prom := mkProm { base : str; max : Z }.

(** [url.Parse] also tells a query and a fragment here. *)
Definition NewProm {UP : URLParser} (c : PromConfig) : res Prom :=
  match url_Parse (BaseURL c) with
  | Some u =>
    if (negb (bool_decide (Scheme u = "http")) && negb (bool_decide (Scheme u = "https"))) || bool_decide (Host u = []) || HasUser u
       || negb (bool_decide (RawQuery u = [])) || negb (bool_decide (Fragment u = []))
    then Err (Plain "dashboard: metrics URL must be an http(s) base URL without credentials, query or fragment")
    else Ok (mkProm (TrimSuffix (BaseURL c) "/") (if MaxBytes c <=? 0 then 4194304 else MaxBytes c))
  | None => Err (Plain "dashboard: metrics URL must be an http(s) base URL without credentials, query or fragment")
  end.

(** [encoding/json] on a reply and on the parts of a result, whose raw values stay
    text; [strconv.ParseFloat]. *)
Record apiResponse := mkApiResponse { Status : str; ResultType : str; ResultText : str }.
Class PromJSON := {
  unmarshalResponse : str → option apiResponse;
  unmarshalVector : str → option (list (gmap str str * list str));
  unmarshalScalar : str → option (list str);
  unmarshalMatrix : str → option (list (gmap str str * list (list str)));
  unmarshalFloat : str → option float64;
  unmarshalString : str → option str;
  ParseFloat : str → option float64
}.

Definition failed {A} (text : str) : res A := Err (Wrapf (New DashboardErrQuery) text).

Section Client.
Context {UP : URLParser} {JS : PromJSON} {T : Type} {TR : Transport T} (p : Prom).
Abbreviation N := (Net T).

Definition get (path : str) (q : list (str * str)) : M N (res apiResponse) :=
  let url := base p ++ path ++ "?" ++ UrlQuery.Encode q in
  match url_Parse url with
  | None => mret (failed "request")
  | Some _ =>
    resp ← send (mkRequest "GET" url [] None);
    mret match resp with
    | Err _ => Err (New DashboardErrUnreachable)
    | Ok resp =>
      let '(body, broken) := ReadLimited (int64 (max p + 1)) resp in
      if (broken : bool) then Err (New DashboardErrUnreachable)
      else if max p <? Z.of_nat (length body) then Err (New DashboardErrTooLarge)
      else if negb (StatusCode resp =? 200) then failed ("status " ++ Itoa (StatusCode resp))
      else match unmarshalResponse body with
      | Some r => if bool_decide (Status r = "success") then Ok r else failed "bad response"
      | None => failed "bad response"
      end
    end
  end.

(** A [[ts, "value"]] pair. *)
Definition point (raw : list str) : res (float64 * float64) :=
  match raw with
  | [t; v] =>
    match unmarshalFloat t, unmarshalString v with
    | Some ts, Some sv => match ParseFloat sv with Some v => Ok (ts, v) | None => failed "bad value" end
    | _, _ => failed "bad sample"
    end
  | _ => failed "bad sample"
  end.
Fixpoint samples (vec : list (gmap str str * list str)) : res (list Sample) :=
  match vec with
  | [] => Ok []
  | (m, raw) :: vec =>
    pt ← point raw;
    rest ← samples vec;
    Ok (if finite pt.2 then mkSample m pt.2 :: rest else rest)
  end.
Definition Unix (t : Z) : Z := t / second.
Definition Query_ (expr : str) (at_ : Z) : M N (res (list Sample)) :=
  r ←? get "/api/v1/query" [(lit "query", expr); (lit "time", Itoa (Unix at_))];
  mret (if bool_decide (ResultType r = "vector") then
          match unmarshalVector (ResultText r) with None => failed "bad vector" | Some vec => samples vec end
        else if bool_decide (ResultType r = "scalar") then
          match unmarshalScalar (ResultText r) with
          | None => failed "bad scalar"
          | Some raw => pt ← point raw; Ok (if finite pt.2 then [mkSample ∅ pt.2] else [])
          end
        else failed "unexpected result type").

Fixpoint points (raws : list (list str)) : res (list (float64 * float64)) :=
  match raws with
  | [] => Ok []
  | raw :: raws => pt ← point raw; rest ← points raws; Ok (if finite pt.2 then pt :: rest else rest)
  end.
Fixpoint series (mat : list (gmap str str * list (list str))) : res (list Series) :=
  match mat with
  | [] => Ok []
  | (m, raws) :: mat => pts ← points raws; rest ← series mat; Ok (mkSeries m pts :: rest)
  end.
Definition QueryRange (expr : str) (start end_ step : Z) : M N (res (list Series)) :=
  r ←? get "/api/v1/query_range"
         [(lit "query", expr); (lit "start", Itoa (Unix start)); (lit "end", Itoa (Unix end_)); (lit "step", Itoa (Z.quot step second))];
  mret (if negb (bool_decide (ResultType r = "matrix")) then failed "unexpected result type"
        else match unmarshalMatrix (ResultText r) with None => failed "unexpected result type" | Some mat => series mat end).

#[local] Instance prom_client : MetricsClient N := {| mc_Query := Query_; mc_QueryRange := QueryRange |}.

(** ** What is sent *)

(** A request whose query string the server reads as [kvs]. *)
Definition asks (path : str) (kvs : list (str * str)) (r : Request) : Prop :=
  Method r = "GET" ∧ Header r = [] ∧ ReqBody r = None ∧ ∃ q, URL r = base p ++ path ++ "?" ++ q ∧ UrlQuery.ParseQuery q = kvs.
Lemma get_request_run path q n r n' : q ≠ [] → get path q n = (r, n') →
  (sent n' = sent n ∧ r = failed "request") ∨ ∃ x, sent n' = sent n ++ [x] ∧ asks path (sort_by (λ a b, str_ltb a.1 b.1) q) x.
Proof.
  intros Hq. unfold get. destruct (url_Parse _); [|intros [= <- <-]; by left]. unfold mbind, M_bind, send. destruct (t_Do _ _) as [resp t].
  intros [= _ <-]. right. eexists. split; [reflexivity|]. split_and!; [done..|]. eexists. split; [reflexivity|]. by apply UrlQuery.ParseQuery_Encode.
Qed.

(** An error is one of the three and says nothing the server said. *)
Definition blind (e : error) : Prop :=
  e = New DashboardErrUnreachable ∨ e = New DashboardErrTooLarge ∨
  (∃ t, e = Wrapf (New DashboardErrQuery) t ∧
     (t ∈ [lit "request"; lit "bad response"; lit "bad sample"; lit "bad value"; lit "bad vector"; lit "bad scalar"; lit "unexpected result type"] ∨
      ∃ n, t = "status " ++ Itoa n)).
Lemma failed_blind t : t ∈ [lit "request"; lit "bad response"; lit "bad sample"; lit "bad value"; lit "bad vector"; lit "bad scalar"; lit "unexpected result type"] →
  blind (Wrapf (New DashboardErrQuery) t).
Proof. intros Ht. right; right. eauto. Qed.
Ltac blind_now := apply failed_blind; set_solver.
Lemma get_blind path q n r n' : get path q n = (r, n') → match r with Err e => blind e | Ok _ => True end.
Proof.
  unfold get. destruct (url_Parse _); [|intros [= <- _]; blind_now]. unfold mbind, M_bind, send. destruct (t_Do _ _) as [resp t].
  intros [= <- _]. destruct resp as [resp|]; [|by left]. destruct (ReadLimited _ _) as [body broken]. destruct broken; [by left|].
  destruct (_ <? _); [by right; left|]. destruct (negb _); [right; right; eexists; split; [reflexivity|]; right; eauto|].
  destruct (unmarshalResponse body) as [x|]; [case_bool_decide; [done|]|]; blind_now.
Qed.
Lemma point_run raw : match point raw with Err e => blind e | Ok _ => True end.
Proof.
  unfold point. destruct raw as [|t [|v [|? ?]]]; try (blind_now).
  destruct (unmarshalFloat t), (unmarshalString v) as [sv|]; try (blind_now).
  destruct (ParseFloat sv); [done|]. blind_now.
Qed.
Lemma samples_run vec : match samples vec with Err e => blind e | Ok l => Forall (λ s, finite (SValue s) = true) l end.
Proof.
  induction vec as [|[m raw] vec IH]; cbn [samples]; [constructor|]. pose proof (point_run raw) as Hp. destruct (point raw) as [pt|]; [|done]. unfold mbind, res_bind.
  destruct (samples vec) as [l|]; [|done]. destruct (finite pt.2) eqn:E; [by constructor|done].
Qed.
Lemma points_run raws : match points raws with Err e => blind e | Ok l => Forall (λ pt, finite pt.2 = true) l end.
Proof.
  induction raws as [|raw raws IH]; cbn [points]; [constructor|]. pose proof (point_run raw) as Hp. destruct (point raw) as [pt|]; [|done]. unfold mbind, res_bind.
  destruct (points raws) as [l|]; [|done]. destruct (finite pt.2) eqn:E; [by constructor|done].
Qed.
Lemma series_run mat : match series mat with Err e => blind e | Ok l => Forall (λ s, Forall (λ pt, finite pt.2 = true) (SrPoints s)) l end.
Proof.
  induction mat as [|[m raws] mat IH]; cbn [series]; [constructor|]. pose proof (points_run raws) as Hp. destruct (points raws) as [pts|]; [|done]. unfold mbind, res_bind.
  destruct (series mat) as [l|]; [|done]. by constructor.
Qed.

(** A query: its request, and its result or its blind error. *)
Definition sent_one (n n' : N) (x : Request → Prop) : Prop := sent n' = sent n ∨ ∃ r, sent n' = sent n ++ [r] ∧ x r.
Lemma Query_run expr at_ n r n' : Query_ expr at_ n = (r, n') →
  sent_one n n' (asks "/api/v1/query" [(lit "query", expr); (lit "time", Itoa (Unix at_))]) ∧
  match r with Err e => blind e | Ok l => Forall (λ s, finite (SValue s) = true) l end.
Proof.
  unfold Query_, try_. destruct (get _ _ n) as [g n1] eqn:E. pose proof (get_blind _ _ _ _ _ E) as Hb. apply get_request_run in E as Hs; [|done].
  assert (Hsent : sent_one n n1 (asks "/api/v1/query" [(lit "query", expr); (lit "time", Itoa (Unix at_))])).
  { destruct Hs as [[Hs _]|(x & Hs & Ha)]; [by left|right; by exists x]. }
  destruct g as [g|]; intros [= <- <-]; (split; [done|]); [|done]. case_bool_decide.
  - destruct (unmarshalVector _) as [vec|]; [apply samples_run|]. blind_now.
  - case_bool_decide; [|blind_now]. destruct (unmarshalScalar _) as [raw|]; [|blind_now].
    pose proof (point_run raw) as Hp. destruct (point raw) as [pt|]; [|done]. cbn. destruct (finite pt.2) eqn:Ef; [by repeat constructor|constructor].
Qed.
Lemma QueryRange_run expr a b st n r n' : QueryRange expr a b st n = (r, n') →
  sent_one n n' (asks "/api/v1/query_range" [(lit "end", Itoa (Unix b)); (lit "query", expr); (lit "start", Itoa (Unix a)); (lit "step", Itoa (Z.quot st second))]) ∧
  match r with Err e => blind e | Ok l => Forall (λ s, Forall (λ pt, finite pt.2 = true) (SrPoints s)) l end.
Proof.
  unfold QueryRange, try_. destruct (get _ _ n) as [g n1] eqn:E. pose proof (get_blind _ _ _ _ _ E) as Hb. apply get_request_run in E as Hs; [|done].
  assert (Hsent : sent_one n n1 (asks "/api/v1/query_range" [(lit "end", Itoa (Unix b)); (lit "query", expr); (lit "start", Itoa (Unix a)); (lit "step", Itoa (Z.quot st second))])).
  { destruct Hs as [[Hs _]|(x & Hs & Ha)]; [by left|right; by exists x]. }
  destruct g as [g|]; intros [= <- <-]; (split; [done|]); [|done]. destruct (negb _); [blind_now|].
  destruct (unmarshalMatrix _) as [mat|]; [apply series_run|]. blind_now.
Qed.

(** ** A whole refresh *)

(** A request of a refresh at [now]: a catalogue expression, instant or over the
    window. *)
Definition catalogue_request (now : Z) (w : Window) (r : Request) : Prop := ∃ pn q, pn ∈ catalogue ∧ q ∈ Queries pn ∧
  (asks "/api/v1/query" [(lit "query", Expr q); (lit "time", Itoa (Unix now))] r ∨
   asks "/api/v1/query_range" [(lit "end", Itoa (Unix now)); (lit "query", Expr q); (lit "start", Itoa (Unix (now - WRange w))); (lit "step", Itoa (Z.quot (WStep w) second))] r).
Definition grown (now : Z) (w : Window) (n0 n : N) : Prop := ∃ new, sent n = sent n0 ++ new ∧ Forall (catalogue_request now w) new.
Lemma sent_one_grown now w n0 n n' (x : Request → Prop) : grown now w n0 n → sent_one n n' x → (∀ r, x r → catalogue_request now w r) → grown now w n0 n'.
Proof.
  intros (new & E & Hn) [Hs|(r & Hs & Hx)] Hr; [exists new; by rewrite Hs|]. exists (new ++ [r]). rewrite Hs, E, app_assoc. split; [done|].
  apply Forall_app. split; [done|]. constructor; [by apply Hr|constructor].
Qed.
Lemma run_grown d now w n0 pn q o n : pn ∈ Catalogue → q ∈ Queries pn → grown now w n0 n → grown now w n0 (run d o pn q now w n).2.
Proof.
  intros Hp Hq Hg. unfold run, try_. cbn [mc_Query mc_QueryRange prom_client]. case_bool_decide.
  - destruct (Query_ _ _ n) as [r n'] eqn:E. apply Query_run in E as [Hs _]. assert (Hg' : grown now w n0 n') by (eapply sent_one_grown; [done..|]; intros x Hx; exists pn, q; eauto).
    by destruct r.
  - destruct (QueryRange _ _ _ _ n) as [r n'] eqn:E. apply QueryRange_run in E as [Hs _]. assert (Hg' : grown now w n0 n') by (eapply sent_one_grown; [done..|]; intros x Hx; exists pn, q; eauto).
    by destruct r.
Qed.

(** A refresh over Prometheus sends catalogue expressions only: whatever the
    server answers and however the goroutines interleave, every request of it is a
    GET without headers or body on the configured base URL, whose query string the
    server reads as exactly a catalogue expression and the times of the window; no
    text of a caller, and none of a reply, is in it; and without the permission or
    with another window nothing is sent. *)
Theorem refresh_requests d subj window now evs n r n' calls :
  Get d subj window now evs n = Some (r, n', calls) →
  match r with
  | Err _ => sent n' = sent n
  | Ok _ => ∃ w new, ParseWindow window = Ok w ∧ sent n' = sent n ++ new ∧ Forall (catalogue_request now w) new
  end.
Proof.
  intros H. destruct (Get_run _ _ _ _ _ _ _ _ _ H) as [(_ & w & Hw & Hcase)|([e ->] & _ & ->)]; [|done].
  destruct Hcase as [(_ & _ & -> & ->)|(_ & s & Hs & _ & -> & -> & _)]; exists w.
  - exists []. by rewrite app_nil_r.
  - destruct (steps_client d Catalogue now w (grown now w n) evs (start Catalogue n) s) as (new & E & Hn).
    + intros pn q o c Hp Hq Hc. by apply run_grown.
    + apply start_sound.
    + exists []. by rewrite app_nil_r.
    + done.
    + by exists new.
Qed.
End Client.

(** ** A server to ask *)

Module Concrete.
#[local] Instance echo : Transport unit := {| t_Do r t := (Ok (mkResponse 200 "{}" false), t); t_Key t := (Err (Plain "none"), t) |}.
#[local] Instance parser : URLParser := λ s, Some (mkURL "http" "prom" false [] [] s).
#[local] Instance json : PromJSON := {|
  unmarshalResponse _ := Some (mkApiResponse "success" "matrix" []); unmarshalVector _ := Some []; unmarshalScalar _ := None;
  unmarshalMatrix _ := Some [(∅, [[lit "1"; lit "2"]; [lit "2"; lit "NaN"]])]; unmarshalFloat _ := Some (Num 0); unmarshalString s := Some s;
  ParseFloat s := if bool_decide (s = "NaN") then Some NaN else Some (Num 1)
|}.
Definition prom : Prom := mkProm "http://prom:9090" 4194304.
#[local] Instance client : MetricsClient (Net unit) := prom_client prom.
Definition deps : Deps := mkDeps true None 4 20.
Definition n0 : Net unit := mkNet () [].
Example query_text : map URL (sent (Query_ prom "sum(a b&c=d)" 90500000000 n0).2) = [lit "http://prom:9090/api/v1/query?query=sum%28a+b%26c%3Dd%29&time=90"].
Proof. vm_compute. reflexivity. Qed.

(** The first panel asked, then the context ends. *)
Definition short : list event := [Acquire 0; Answer 0; End_] ++ map GiveUp (List.seq 1 11).
Lemma short_ok : ∃ x n' l, Get deps (Authz.User "t1" "alice" []) "1h" 90000000000000 short n0 = Some (Ok x, n', l).
Proof.
  assert (Hs : match Get deps (Authz.User "t1" "alice" []) "1h" 90000000000000 short n0 with Some (Ok _, _, _) => true | _ => false end = true) by (vm_compute; reflexivity).
  destruct (Get deps (Authz.User "t1" "alice" []) "1h" 90000000000000 short n0) as [[[[x|] n'] l]|]; [eauto|done..].
Qed.
Lemma refresh_requests_witness : ∃ x n' l w new, Get deps (Authz.User "t1" "alice" []) "1h" 90000000000000 short n0 = Some (Ok x, n', l) ∧
  sent n' = [] ++ new ∧ Forall (catalogue_request prom 90000000000000 w) new.
Proof.
  destruct short_ok as (x & n' & l & H). exists x, n', l.
  destruct (refresh_requests prom deps (Authz.User "t1" "alice" []) "1h" 90000000000000 short n0 (Ok x) n' l H) as (w & new & _ & E & Hn).
  exists w, new. split; [exact H|]. split; [exact E|exact Hn].
Defined.
End Concrete.
End Prom.
