(* ===== verification/Sse.v ===== *)
(** * Server-sent events and the rate limiter ([internal/stream/sse.go], [client.go])

    [Frame] and the loop of [ServeSSE] write a subscription to a browser as an
    event stream; the limiter counts calls per minute.  The theorems: a browser
    that parses the stream gets exactly the delivered events, in order, and keeps
    the id to resume from; and the limiter admits at most the limit per minute,
    nothing while its counter is down. *)
From Stdlib Require Import Ascii.
From S2P Require Import Prelude GoStrings GoError Store Authz MemStore Pdns Recursor World Stream.
Local Open Scope Z_scope.

Module Sse.
Import Stream.

Definition LF : ascii := chr 10.
Definition CR : ascii := chr 13.
Definition Retry : Z := 3000.
Definition nl (s : str) : str := s ++ [LF].
(** [strings.NewReplacer("\r", "", "\n", "")]. *)
Definition break (c : ascii) : bool := bool_decide (c = LF) || bool_decide (c = CR).
Definition one_line (s : str) : str := List.filter (λ c, negb (break c)) s.

Definition Frame (ev : Event) : str :=
  (if bool_decide (EvID ev = []) then [] else nl ("id: " ++ EvID ev)) ++ nl ("event: " ++ EvType ev) ++ nl (nl ("data: " ++ one_line (EvData ev))).

(** What the loop's [select] finds ready: the request's context, the deadline, the
    heartbeat, or the subscription's channel ([None] once it is closed). *)
Inductive signal := CtxDone | Deadline | Tick | Ready (ev : option Event).
Definition greeting (instance : str) : str := nl ("retry: " ++ Itoa Retry) ++ nl (nl (": connected " ++ instance)).
Definition bye : str := nl "event: bye" ++ nl (nl "data: {}").
Definition ping : str := nl (nl ": ping").
Fixpoint serve (sigs : list signal) : str :=
  match sigs with
  | [] => []
  | CtxDone :: _ | Ready None :: _ => []
  | Deadline :: _ => bye
  | Tick :: sigs => ping ++ serve sigs
  | Ready (Some ev) :: sigs => Frame ev ++ serve sigs
  end.
(** The body a client gets; a writer that cannot flush gets an error page instead. *)
Definition ServeSSE (flusher : bool) (instance : str) (sigs : list signal) : Z * str :=
  if negb flusher then (500, lit "streaming unsupported") else (200, greeting instance ++ serve sigs).

(** ** A browser *)

(** The [EventSource] algorithm: a message is the last event id, the type and the
    data. *)
Record message := mkMessage { MLast : str; MType : str; MData : str }.
Record parser := mkParser { p_id : str; p_type : str; p_data : option str; p_out : list message }.
Fixpoint cut_colon (s : str) : str * option str :=
  match s with [] => ([], None) | c :: t => if bool_decide (c = ":"%char) then ([], Some t) else let '(a, b) := cut_colon t in (c :: a, b) end.
Definition unspace (v : str) : str := match v with c :: t => if bool_decide (c = " "%char) then t else v | [] => [] end.
Definition feed (p : parser) (line : str) : parser :=
  if bool_decide (line = []) then
    match p_data p with
    | None => mkParser (p_id p) [] None (p_out p)
    | Some d => mkParser (p_id p) [] None (p_out p ++ [mkMessage (p_id p) (if bool_decide (p_type p = []) then lit "message" else p_type p) d])
    end
  else
    let '(field, value) := cut_colon line in
    let v := unspace (default [] value) in
    if bool_decide (field = "event") then mkParser (p_id p) v (p_data p) (p_out p)
    else if bool_decide (field = "data") then
      mkParser (p_id p) (p_type p) (Some (match p_data p with None => v | Some d => d ++ LF :: v end)) (p_out p)
    else if bool_decide (field = "id") then mkParser v (p_type p) (p_data p) (p_out p)
    else p.
(** Complete lines only. *)
Definition parse (p : parser) (s : str) : parser := fold_left feed (removelast (SplitByte LF s)) p.
Definition opened : parser := mkParser [] [] None [].

(** ** The events delivered before the stream ends *)

Fixpoint delivered (sigs : list signal) : list Event :=
  match sigs with
  | [] | CtxDone :: _ | Ready None :: _ => []
  | Deadline :: _ => [mkEvent [] "bye" "{}"]
  | Tick :: sigs => delivered sigs
  | Ready (Some ev) :: sigs => ev :: delivered sigs
  end.
Fixpoint messages (last : str) (evs : list Event) : list message :=
  match evs with
  | [] => []
  | ev :: evs => let last := if bool_decide (EvID ev = []) then last else EvID ev in mkMessage last (EvType ev) (one_line (EvData ev)) :: messages last evs
  end.
Definition resume (last : str) (evs : list Event) : str := fold_left (λ l ev, if bool_decide (EvID ev = []) then l else EvID ev) evs last.
(** Ids and types without line breaks, as stream ids and checked types are. *)
Definition plain_event (ev : Event) : Prop := Forall (λ c, break c = false) (EvID ev) ∧ Forall (λ c, break c = false) (EvType ev) ∧ EvType ev ≠ [].

Lemma parse_line p l s : LF ∉ l → parse p (nl l ++ s) = parse (feed p l) s.
Proof.
  intros H. unfold parse, nl. rewrite <- app_assoc. cbn [app]. rewrite SplitByte_app by done. pose proof (SplitByte_nonnil LF s). by destruct (SplitByte LF s).
Qed.
Lemma no_LF s : Forall (λ c, break c = false) s → (LF ∉ s) ∧ (CR ∉ s).
Proof. intros H. rewrite Forall_forall in H. split; intros Hin; specialize (H _ Hin); by vm_compute in H. Qed.
Lemma one_line_ok s : Forall (λ c, break c = false) (one_line s).
Proof. apply Forall_forall. intros c Hc. apply list_elem_of_In, filter_In in Hc as [_ Hc]. by apply negb_true_iff in Hc. Qed.
Lemma lit_line (pre : str) s : LF ∉ pre → LF ∉ s → LF ∉ pre ++ s.
Proof. intros ? ?. rewrite not_elem_of_app. done. Qed.
Ltac no_break := apply (bool_decide_unpack _); vm_compute; exact I.

Lemma feed_id p v : feed p ("id: " ++ v) = mkParser v (p_type p) (p_data p) (p_out p).
Proof. reflexivity. Qed.
Lemma feed_event p v : feed p ("event: " ++ v) = mkParser (p_id p) v (p_data p) (p_out p).
Proof. reflexivity. Qed.
Lemma feed_data p v : p_data p = None → feed p ("data: " ++ v) = mkParser (p_id p) (p_type p) (Some v) (p_out p).
Proof. intros H. transitivity (mkParser (p_id p) (p_type p) (Some (match p_data p with None => v | Some d => d ++ LF :: v end)) (p_out p)); [reflexivity|by rewrite H]. Qed.
Lemma feed_comment p v : feed p (": " ++ v) = p.
Proof. reflexivity. Qed.
Lemma idle_parser p : p_type p = [] → p_data p = None → p = mkParser (p_id p) [] None (p_out p).
Proof. destruct p; cbn. by intros -> ->. Qed.
Lemma parse_frame p ev s : plain_event ev → p_type p = [] → p_data p = None →
  let last := if bool_decide (EvID ev = []) then p_id p else EvID ev in
  parse p (Frame ev ++ s) = parse (mkParser last [] None (p_out p ++ [mkMessage last (EvType ev) (one_line (EvData ev))])) s.
Proof.
  intros (Hi & Ht & Hne) Hpt Hpd last. destruct (no_LF _ Hi) as [Hi' _], (no_LF _ Ht) as [Ht' _], (no_LF _ (one_line_ok (EvData ev))) as [Hd' _]. unfold Frame. rewrite <- !app_assoc.
  assert (E : parse p ((if bool_decide (EvID ev = []) then [] else nl ("id: " ++ EvID ev)) ++ nl ("event: " ++ EvType ev) ++ nl (nl ("data: " ++ one_line (EvData ev))) ++ s) =
              parse (mkParser last [] None (p_out p)) (nl ("event: " ++ EvType ev) ++ nl (nl ("data: " ++ one_line (EvData ev))) ++ s)).
  { subst last. destruct (bool_decide (EvID ev = [])); [rewrite (idle_parser p Hpt Hpd) at 1; reflexivity|]. rewrite parse_line by (apply lit_line; [no_break|done]). by rewrite feed_id, Hpt, Hpd. }
  rewrite E. rewrite parse_line by (apply lit_line; [no_break|done]). unfold nl at 1. rewrite <- app_assoc. rewrite parse_line by (apply lit_line; [no_break|done]).
  change ([LF] ++ s) with (nl [] ++ s). rewrite parse_line by set_solver. rewrite feed_event, feed_data by done.
  unfold feed. rewrite bool_decide_eq_true_2 by done. cbn [p_data p_type p_id p_out]. by rewrite bool_decide_eq_false_2.
Qed.
Lemma parse_ping p s : p_type p = [] → p_data p = None → parse p (ping ++ s) = parse p s.
Proof.
  intros Ht Hd. unfold ping. unfold nl at 1. rewrite <- app_assoc. rewrite parse_line by no_break. change ([LF] ++ s) with (nl [] ++ s). rewrite parse_line by set_solver.
  change (lit ": ping") with (": " ++ lit "ping"). rewrite feed_comment. f_equal. unfold feed. rewrite bool_decide_eq_true_2, Hd by done. symmetry. by apply idle_parser.
Qed.
Lemma bye_frame : bye = Frame (mkEvent [] "bye" "{}").
Proof. reflexivity. Qed.
Lemma bye_plain : plain_event (mkEvent [] "bye" "{}").
Proof. split_and!; [constructor|repeat constructor|done]. Qed.
Lemma parse_serve sigs p : Forall plain_event (delivered sigs) → p_type p = [] → p_data p = None →
  parse p (serve sigs) = mkParser (resume (p_id p) (delivered sigs)) [] None (p_out p ++ messages (p_id p) (delivered sigs)).
Proof.
  revert p. induction sigs as [|[| | |[ev|]] sigs IH]; intros p Hev Ht Hd; cbn [serve delivered messages resume fold_left] in *;
    try (rewrite app_nil_r; by apply idle_parser).
  - rewrite bye_frame. rewrite <- (app_nil_r (Frame _)). rewrite parse_frame by (done || apply bye_plain). reflexivity.
  - rewrite parse_ping by done. by apply IH.
  - apply Forall_cons in Hev as [He Hev]. rewrite parse_frame by done. rewrite IH by done. cbn [p_id p_out]. rewrite <- app_assoc. done.
Qed.

Lemma frame_clean ev : plain_event ev → CR ∉ Frame ev.
Proof.
  intros (Hi & Ht & _). destruct (no_LF _ Hi) as [_ Hi'], (no_LF _ Ht) as [_ Ht'], (no_LF _ (one_line_ok (EvData ev))) as [_ Hd']. unfold Frame, nl.
  assert ((CR ∉ lit "id: ") ∧ (CR ∉ lit "event: ") ∧ (CR ∉ lit "data: ") ∧ (CR ∉ [LF])) as (? & ? & ? & ?) by (split_and!; no_break).
  rewrite !not_elem_of_app. split_and!; try done. destruct (bool_decide _); [apply not_elem_of_nil|]. rewrite !not_elem_of_app. done.
Qed.
Lemma serve_clean sigs : Forall plain_event (delivered sigs) → CR ∉ serve sigs.
Proof.
  induction sigs as [|[| | |[ev|]] sigs IH]; intros Hev; cbn [serve delivered] in *; try apply not_elem_of_nil.
  - no_break.
  - rewrite not_elem_of_app. split; [no_break|by apply IH].
  - apply Forall_cons in Hev as [He Hev]. rewrite not_elem_of_app. split; [by apply frame_clean|by apply IH].
Qed.

(** C37: the stream carries exactly the events: for any sequence of heartbeats and
    events until the client leaves, the subscription closes or the deadline passes,
    a browser that parses the body gets each delivered event once, in order, with
    its type and its data on one line (and a last [bye] at the deadline), nothing
    else, and remembers the id of the last event that had one, from which it
    resumes; no carriage return, which a browser would take for a line end, is in
    the body. *)
Theorem stream_readable instance sigs :
  Forall (λ c, break c = false) instance → Forall plain_event (delivered sigs) →
  let '(status, body) := ServeSSE true instance sigs in
  status = 200 ∧ (CR ∉ body) ∧
  parse opened body = mkParser (resume [] (delivered sigs)) [] None (messages [] (delivered sigs)).
Proof.
  intros Hin Hev. cbn [ServeSSE negb]. split; [done|]. destruct (no_LF _ Hin) as [Hlf Hcr]. split.
  - unfold greeting, nl. rewrite !not_elem_of_app. split_and!; try no_break; [done|by apply serve_clean].
  - unfold greeting. rewrite <- app_assoc. rewrite parse_line by no_break. unfold nl at 1. rewrite <- app_assoc.
    rewrite parse_line by (apply lit_line; [no_break|done]). change ([LF] ++ serve sigs) with (nl [] ++ serve sigs). rewrite parse_line by set_solver. by rewrite parse_serve.
Qed.

(** ** The rate limiter *)

(** The counters of the in-process client: a count and when it expires ([0] for
    never). *)
Record counter := mkCounter { cn : Z; cexp : Z }.
Record Counters := mkCounters { counters : gmap str counter; cnow : Z; cerr : option error }.
Definition Incr (key : str) (ttl : Z) (m : Counters) : res Z * Counters :=
  match cerr m with
  | Some e => (Err e, m)
  | None =>
    let c := default (mkCounter 0 0) (counters m !! key) in
    let c := if (cn c =? 0) || (negb (cexp c =? 0) && (cexp c <=? cnow m)) then mkCounter 0 (if 0 <? ttl then cnow m + ttl else 0) else c in
    let c := mkCounter (cn c + 1) (cexp c) in
    (Ok (cn c), mkCounters (<[key := c]> (counters m)) (cnow m) (cerr m))
  end.
Definition minute : Z := 60 * 1000000000.
Definition RateKey (kind subject : str) (at_ : Z) : str := "dns:rl:" ++ kind ++ ":" ++ subject ++ ":" ++ Itoa (Z.quot (at_ / 1000000000) 60).
Definition Limited (kind subject : str) (limit at_ : Z) (m : Counters) : bool * option error * Counters :=
  if limit <=? 0 then (false, None, m)
  else match Incr (RateKey kind subject at_) (2 * minute) m with
  | (Err e, m) => (true, Some e, m)
  | (Ok n, m) => (limit <? n, None, m)
  end.

(** The time, and outages, between the calls of one subject in one minute. *)
Fixpoint calls (kind subject : str) (limit : Z) (times : list (Z * option error)) (m : Counters) : list bool :=
  match times with
  | [] => []
  | (t, e) :: times =>
    let '(b, _, m) := Limited kind subject limit t (mkCounters (counters m) t e) in b :: calls kind subject limit times m
  end.
Definition admitted (l : list bool) : nat := length (List.filter negb l).
Definition in_minute (t0 t : Z) : Prop := t0 ≤ t < t0 + minute.

Lemma RateKey_minute kind subject k t : 0 ≤ k → in_minute (k * minute) t → RateKey kind subject t = RateKey kind subject (k * minute).
Proof.
  intros Hk Ht. unfold in_minute, RateKey, minute in *. do 6 f_equal.
  assert (t / 1000000000 = 60 * k + (t - k * 60000000000) / 1000000000) as -> by (rewrite <- Z.div_add_l by lia; f_equal; lia).
  assert (k * (60 * 1000000000) / 1000000000 = 60 * k) as -> by (rewrite <- (Z.div_mul (60 * k) 1000000000) by lia; f_equal; lia).
  assert (0 ≤ (t - k * 60000000000) / 1000000000 < 60) by (split; [apply Z.div_pos; lia|apply Z.div_lt_upper_bound; lia]).
  rewrite !Z.quot_div_nonneg by lia. replace (60 * k) with (k * 60) by lia. rewrite Z.div_mul by lia. rewrite Z.div_add_l by lia. rewrite Z.div_small by lia. lia.
Qed.
Lemma calls_admitted kind subject limit t0 times m :
  0 < limit → Forall (λ te, RateKey kind subject te.1 = RateKey kind subject t0 ∧ in_minute t0 te.1) times →
  let key := RateKey kind subject t0 in
  (match counters m !! key with Some c => 1 ≤ cn c ∧ t0 + minute ≤ cexp c ∧ cexp c ≠ 0 | None => 0 < t0 + minute end) →
  Z.of_nat (admitted (calls kind subject limit times m)) ≤ Z.max 0 (limit - match counters m !! key with Some c => cn c | None => 0 end).
Proof.
  intros Hl Hall. cbv zeta. revert m. induction Hall as [|[t e] times [Hk Hm] _ IH]; intros m Hc; cbn [calls]; [cbn; lia|]. cbn [fst] in Hk, Hm. unfold in_minute, minute in *.
  unfold Limited, minute. destruct (Z.leb_spec limit 0); [lia|]. unfold Incr. cbv zeta. cbn [cerr counters cnow]. destruct e as [e|].
  - unfold admitted. cbn [List.filter negb]. specialize (IH (mkCounters (counters m) t (Some e)) Hc). exact IH.
  - rewrite Hk. set (key := RateKey kind subject t0) in *. destruct (counters m !! key) as [c|] eqn:Ec; cbn [from_option id].
    + destruct Hc as (Hn & He & Hz). destruct (Z.eqb_spec (cn c) 0); [lia|]. destruct (Z.leb_spec (cexp c) t); [lia|]. rewrite andb_false_r. cbn [orb cn cexp].
      match goal with |- context [calls _ _ _ times ?m'] => specialize (IH m') end. cbn [counters] in IH. rewrite lookup_insert_eq in IH. cbn [cn cexp] in IH. specialize (IH ltac:(lia)).
      unfold admitted in *. cbn [List.filter]. destruct (Z.ltb_spec limit (cn c + 1)); cbn [negb length]; lia.
    + cbn [cn cexp]. change (0 =? 0) with true. cbn [orb cn cexp]. change (0 <? 2 * (60 * 1000000000)) with true. cbn iota.
      match goal with |- context [calls _ _ _ times ?m'] => specialize (IH m') end. cbn [counters] in IH. rewrite lookup_insert_eq in IH. cbn [cn cexp] in IH. specialize (IH ltac:(lia)).
      unfold admitted in *. cbn [List.filter]. destruct (Z.ltb_spec limit (0 + 1)); cbn [negb length]; lia.
Qed.

(** The limiter holds: however many calls a subject makes within a minute, at
    whatever times, and whenever the counter is down, at most [limit] of them are
    admitted, and none while the counter is down. *)
Theorem limiter_holds kind subject limit k times m :
  0 < limit → 0 ≤ k → counters m !! RateKey kind subject (k * minute) = None →
  Forall (λ te, in_minute (k * minute) te.1) times →
  Z.of_nat (admitted (calls kind subject limit times m)) ≤ limit ∧
  ∀ t e m', (Limited kind subject limit t (mkCounters m' t (Some e))).1 = (true, Some e).
Proof.
  intros Hl Hk Hc Hall. split.
  - pose proof (calls_admitted kind subject limit (k * minute) times m Hl) as H. cbv zeta in H. rewrite Hc in H. etransitivity; [apply H|lia].
    + eapply Forall_impl; [exact Hall|]. intros te Ht. split; [by apply RateKey_minute|done].
    + unfold minute in *. lia.
  - intros t e m'. unfold Limited. destruct (Z.leb_spec limit 0); [lia|done].
Qed.

Module Concrete.
Definition ev (id data : str) : Event := mkEvent id "dns.zone" data.
Definition sigs : list signal := [Tick; Ready (Some (ev "5-0" ("{" ++ [CR; LF] ++ "}"))); Tick; Ready (Some (ev [] "x")); Deadline; Ready (Some (ev "6-0" "y"))].
Lemma stream_readable_witness : parse opened (ServeSSE true "host-1" sigs).2 =
  mkParser "5-0" [] None [mkMessage "5-0" "dns.zone" "{}"; mkMessage "5-0" "dns.zone" "x"; mkMessage "5-0" "bye" "{}"].
Proof.
  apply (stream_readable "host-1" sigs).
  - apply (bool_decide_unpack _). vm_compute. exact I.
  - repeat constructor; discriminate.
Defined.
Lemma limiter_holds_witness : Z.of_nat (admitted (calls "notify" "alice" 2 [(0, None); (1, None); (5, Some (Plain "down")); (6, None); (7, None)] (mkCounters ∅ 0 None))) ≤ 2.
Proof.
  apply (limiter_holds "notify" "alice" 2 0 [(0, None); (1, None); (5, Some (Plain "down")); (6, None); (7, None)] (mkCounters ∅ 0 None)).
  - apply Z.ltb_lt. reflexivity.
  - apply Z.leb_le. reflexivity.
  - apply lookup_empty.
  - repeat constructor; apply Z.leb_le || apply Z.ltb_lt; reflexivity.
Defined.
End Concrete.
End Sse.
