(* ===== verification/HttpApi.v ===== *)
(** * The HTTP API: errors, middleware and routes ([internal/httpapi])

    The declared operations are the OpenAPI document ([api/openapi/dns.yaml]) as
    data; a request goes through the security headers, the document's validation,
    the token check, the permission check and the router to its handler, which acts
    for the token's subject and answers with a value or with a reason of a closed
    vocabulary.  The OpenAPI validator, the token verifier, the JSON decoder and the
    list parameters' parser are classes; [net/http]'s router is modelled.  The
    federated user interface's files are left out. *)
From Stdlib Require Import Ascii.
From S2P Require Import Prelude GoStrings GoError Store Names Netip Content Masters Authz MemStore Pdns RecordSets Recursor World AuditLog Zones Supermasters Records Templates Backup Stream Dnsconf ConfFiles ConfService Dashboard.
Local Open Scope Z_scope.

Module HttpApi.
Import Store.

(** ** Refusals *)

Record Error := mkError { Status : Z; Reason : str }.
Definition ErrUnauthenticated := mkError 401 "unauthenticated".
Definition ErrForbidden := mkError 403 "forbidden".
Definition ErrNotFound := mkError 404 "not_found".
Definition ErrMalformed := mkError 400 "malformed_body".
Definition ErrBadRequest := mkError 400 "bad_request".
Definition ErrValidation := mkError 422 "validation_failed".
Definition ErrConflict := mkError 409 "conflict".
Definition ErrBodyTooLarge := mkError 413 "body_too_large".
Definition ErrRateLimited := mkError 429 "rate_limited".
Definition ErrUnavailable := mkError 503 "temporarily_unavailable".
Definition ErrNotImplemented := mkError 501 "not_implemented".
Definition ErrInvalidName := mkError 422 "invalid_name".
Definition ErrInvalidRecord := mkError 422 "invalid_record".
Definition ErrInvalidKind := mkError 422 "invalid_kind".
Definition ErrInvalidConfig := mkError 422 "invalid_config".
Definition ErrZoneNotFound := mkError 404 "zone_not_found".
Definition ErrRecordNotFound := mkError 404 "record_not_found".
Definition ErrTemplateNotFound := mkError 404 "template_not_found".
Definition ErrDuplicate := mkError 409 "duplicate".
Definition ErrPDNSUnavailable := mkError 503 "pdns_unavailable".
Definition ErrMetricsUnavailable := mkError 503 "metrics_unavailable".
Definition MethodNotAllowed := mkError 405 "method_not_allowed".
Definition vocabulary : list Error := [
  ErrUnauthenticated; ErrForbidden; ErrNotFound; ErrMalformed; ErrBadRequest; ErrValidation; ErrConflict; ErrBodyTooLarge; ErrRateLimited; ErrUnavailable;
  ErrNotImplemented; ErrInvalidName; ErrInvalidRecord; ErrInvalidKind; ErrInvalidConfig; ErrZoneNotFound; ErrRecordNotFound; ErrTemplateNotFound;
  ErrDuplicate; ErrPDNSUnavailable; ErrMetricsUnavailable; MethodNotAllowed].
Definition MaxBodyBytes : Z := 524288.
Definition MaxImportBytes : Z := 67108864.

(** An error a handler meets: a refusal, or an error of a service. *)
Inductive failure := Refused (e : Error) | Failed (e : error).

(** ** Responses *)

Inductive payload :=
  | PZone (z : Zone) | PDetail (d : Zones.Detail) | PExport (name content : str)
  | PZones (items : list Zone) (total : Z) | PRecord (v : Records.RecordSet) | PRecords (items : list Records.RecordSet) (total : Z)
  | PTemplate (t : Template) | PTemplates (items : list Template) (total : Z)
  | PSupermaster (s : Supermaster) | PSupermasters (items : list Supermaster) (total : Z)
  | PBackup (b : Backup.Backup) | PImport (r : Backup.Result)
  | PConfig (v : ConfService.View) | PApplied (r : ConfService.Result) | PDashboard (r : Dashboard.Result)
  | PHealth (status : str) (components : option (list (str * str))).
Inductive body := NoBody | JReason (reason : str) | JDetail (reason : str) (detail : list (str * str)) | JValue (v : payload) | Events (subscription : nat).
Record Response := mkResponse { Code : Z; Headers : list (str * str); Body : body }.

Definition WriteJSON (status : Z) (b : body) : Response := mkResponse status [(lit "Content-Type", lit "application/json"); (lit "Cache-Control", lit "no-store")] b.
Definition WriteError (e : Error) : Response := WriteJSON (Status e) (JReason (Reason e)).
Definition WriteDetail (e : Error) (detail : list (str * str)) : Response := WriteJSON (Status e) (JDetail (Reason e) detail).
Definition WriteHeader (status : Z) : Response := mkResponse status [] NoBody.

Definition StatusOf (f : failure) : Error :=
  match f with
  | Refused e => e
  | Failed e =>
    if Is e GoError.ErrForbidden then ErrForbidden
    else if Is e ErrName then ErrInvalidName
    else if Is e ErrMasters then ErrBadRequest
    else if Is e RepoErrNotFound then ErrNotFound
    else if Is e RepoErrConflict then ErrConflict
    else if Is e PdnsErrUnavailable then ErrPDNSUnavailable
    else ErrUnavailable
  end.
Definition Fail (f : failure) : Response := WriteError (StatusOf f).

Definition domainError (e : error) : failure :=
  if Is e ZonesErrNotFound then Refused ErrZoneNotFound
  else if Is e GoError.ErrDuplicate then Refused ErrDuplicate
  else if Is e GoError.ErrInvalidKind then Refused ErrInvalidKind
  else if Is e ZonesErrInvalid || Is e ErrRejected || Is e ErrExportTooLarge || Is e TemplatesErrInvalid || Is e SupermastersErrRejected then Refused ErrBadRequest
  else if Is e TemplatesErrDuplicate || Is e SupermastersErrDuplicate then Refused ErrConflict
  else if Is e SupermastersErrNotFound then Refused ErrNotFound
  else if Is e GoError.ErrTemplateNotFound then Refused ErrTemplateNotFound
  else if Is e RecordsErrNotFound then Refused ErrRecordNotFound
  else if Is e RecordsErrConflict then Refused ErrConflict
  else Failed e.

(** [^(?:[a-z ]+: )*validate: [a-z ]+: (?:validate: [a-z ]+: )*] is removed: words of
    lower-case letters and spaces, up to the last one [validate] and its word. *)
Definition word_byte (c : ascii) : bool := ((97 <=? code c) && (code c <=? 122)) || bool_decide (c = " "%char).
Fixpoint span_word (s : str) : str * str :=
  match s with [] => ([], []) | c :: t => if word_byte c then let '(a, b) := span_word t in (c :: a, b) else ([], s) end.
Definition segment (s : str) : option (str * str) :=
  match span_word s with
  | ([], _) => None
  | (w, rest) => if HasPrefix rest ": " then Some (w, drop 2 rest) else None
  end.
Fixpoint strip (fuel : nat) (s : str) : option str :=
  match fuel with
  | O => None
  | Datatypes.S fuel =>
    match segment s with
    | None => None
    | Some (w, r) =>
      match strip fuel r with
      | Some x => Some x
      | None => if bool_decide (w = "validate") then snd <$> segment r else None
      end
    end
  end.
Definition message (e : error) : str := let t := GoError.Error e in default t (strip (length t) t).

(** ** Requests *)

Record Identity := mkIdentity { IdUserID : str; IdTenantID : str; IdRoles : list str }.
(** [ContentLength] is unknown for a chunked body; [Context] carries the identity the
    token check established, [PathID] what the router found for [{id}]. *)
Record Request := mkRequest {
  Method : str; Path : str; Query : list (str * str); Authorization : str; RBody : str; Chunked : bool; BodyLimit : option Z;
  Context_ : option Identity; PathID : str
}.
Definition Get (r : Request) (k : str) : str := match find_first (λ kv, bool_decide (kv.1 = k)) (Query r) with Some kv => kv.2 | None => [] end.

Definition Caller (r : Request) : failure + Identity :=
  match Context_ r with
  | Some id => if bool_decide (IdUserID id = []) || bool_decide (IdTenantID id = []) then inl (Refused ErrUnauthenticated) else inr id
  | None => inl (Refused ErrUnauthenticated)
  end.
Definition Subjects (r : Request) : failure + Authz.Subjects :=
  match Caller r with inl f => inl f | inr id => inr (Authz.User (IdTenantID id) (IdUserID id) (IdRoles id)) end.

(** ** The document *)

Definition Prefix : str := "/api/dns/v1".
(** A declared operation: its method, its path below the prefix as segments, its
    permission, whether it is public and its body limit. *)
Record Operation := mkOperation { OMethod : str; OPath : str; OPermission : option str; OPublic : bool; OLimit : option Z }.
#[global] Instance operation_eq_dec : EqDecision Operation.
Proof. solve_decision. Defined.
Definition op (m p perm : str) : Operation := mkOperation m (Prefix ++ p) (Some perm) false None.
Definition document : list Operation := [
  op "GET" "/zones" "zones:read"; op "POST" "/zones" "zones:manage";
  op "GET" "/zones/{id}" "zones:read"; op "PUT" "/zones/{id}" "zones:manage"; op "DELETE" "/zones/{id}" "zones:manage";
  op "GET" "/zones/{id}/export" "zones:manage"; op "POST" "/zones/{id}/notify" "zones:manage";
  op "GET" "/zones/{id}/records" "zones:read"; op "POST" "/zones/{id}/records" "zones:manage";
  op "PUT" "/zones/{id}/records" "zones:manage"; op "DELETE" "/zones/{id}/records" "zones:manage";
  op "GET" "/templates" "zones:read"; op "POST" "/templates" "templates:manage";
  op "GET" "/templates/{id}" "zones:read"; op "PUT" "/templates/{id}" "templates:manage"; op "DELETE" "/templates/{id}" "templates:manage";
  op "GET" "/supermasters" "supermasters:manage"; op "POST" "/supermasters" "supermasters:manage";
  op "GET" "/supermasters/{id}" "supermasters:manage"; op "DELETE" "/supermasters/{id}" "supermasters:manage";
  op "GET" "/config" "config:manage"; op "PUT" "/config" "config:manage"; op "GET" "/dashboard" "dashboard:read"; op "GET" "/stream" "zones:read";
  op "POST" "/backup/export" "backup:manage";
  mkOperation "POST" (Prefix ++ "/backup/import") (Some (lit "backup:manage")) false (Some 67108864);
  mkOperation "GET" (Prefix ++ "/health") None true None].
Definition Route : Type := str * str.
Definition route (o : Operation) : Route := (OMethod o, OPath o).
Definition route_String (rt : Route) : str := rt.1 ++ " " ++ rt.2.
Definition DeclaredRoutes : list Route := sort_by (λ a b, str_ltb (route_String a) (route_String b)) (map route document).
Definition find_op (rt : Route) : option Operation := find_first (λ o, bool_decide (route o = rt)) document.
Definition IsPublic (rt : Route) : bool := match find_op rt with Some o => OPublic o | None => false end.
Definition protected_ (rt : Route) : bool := match find_op rt with Some o => negb (OPublic o) | None => false end.
Definition Permission (rt : Route) : option str := o ← find_op rt; OPermission o.

(** ** The router of [net/http] on the declared patterns *)

Definition slash : ascii := "/"%char.
Fixpoint match_segments (pat path : list str) : option str :=
  match pat, path with
  | [], [] => Some []
  | p :: pat, s :: path =>
    if bool_decide (p = "{id}") then
      if bool_decide (s = []) then None else (λ _, s) <$> match_segments pat path
    else if bool_decide (p = s) then match_segments pat path else None
  | _, _ => None
  end.
(** A [GET] pattern serves [HEAD] too. *)
Definition matches (o : Operation) (method path : str) : option str :=
  if bool_decide (OMethod o = method) || (bool_decide (OMethod o = "GET") && bool_decide (method = "HEAD"))
  then match_segments (SplitByte slash (OPath o)) (SplitByte slash path) else None.
Fixpoint mux_find (ops : list Operation) (method path : str) : option (Route * str) :=
  match ops with
  | [] => None
  | o :: ops => match matches o method path with Some id => Some (route o, id) | None => mux_find ops method path end
  end.
(** [cleanPath]. *)
Definition cleanPath (p : str) : str :=
  if bool_decide (p = []) then [slash]
  else
    let p := if HasPrefix p [slash] then p else slash :: p in
    let c := Filepath.Clean p in
    if HasSuffix p [slash] && negb (HasSuffix c [slash]) then c ++ [slash] else c.

(** ** The chain *)

(** The OpenAPI router and validator, and the token verifier behind
    [authclient.BearerToken]. *)
Inductive found := FoundRoute (o : Operation) | PathNotFound | OtherError.
Record invalid := mkInvalid { VParam : option (str * str); VMaxBytes : bool; VText : str; VParse : bool }.
Class OpenAPI := { FindRoute : Request → found; ValidateRequest : Request → Operation → bool → option invalid }.
Class Verifier := Verify : str → res Identity.

Definition listParam (v : invalid) : str :=
  match VParam v with
  | Some (place, name) =>
    if bool_decide (place = "query") && bool_decide (name ∈ [lit "page"; lit "page_size"; lit "sort"; lit "order"]) then name else []
  | None => []
  end.
Definition invalid_response (v : invalid) : Response :=
  if negb (bool_decide (listParam v = [])) then WriteDetail ErrValidation [(lit "param", listParam v)]
  else if VMaxBytes v || Contains (VText v) "request body too large" then WriteError ErrBodyTooLarge
  else if VParse v then WriteError ErrMalformed
  else WriteError ErrValidation.

Section Server.
Context {OA : OpenAPI} {W : Type}.
Context (verifier : option Verifier) (checker : option Authz.Checker).
Definition Handler : Type := Request → M W Response.
Context (handlers : list (Route * Handler)).

Definition handler_of (rt : Route) : option Handler := snd <$> find_first (λ kh, bool_decide (kh.1 = rt)) handlers.
(** [Handle]: an undeclared route is refused; a handler replaces the one before it. *)
Definition isDeclared (rt : Route) : bool := bool_decide (rt ∈ DeclaredRoutes).
Definition Handle (rt : Route) (h : Handler) (hs : list (Route * Handler)) : option (list (Route * Handler)) :=
  if isDeclared rt then Some ((rt, h) :: List.filter (λ kh, negb (bool_decide (kh.1 = rt))) hs) else None.
(** [Missing]: the declared routes without a handler. *)
Definition Missing : list Route := List.filter (λ rt, match handler_of rt with Some _ => false | None => true end) DeclaredRoutes.
(** The router's answer for a pattern; the catch-all is no route. *)
Definition mux (rt : option (Route * str)) : Handler := λ r,
  match rt with
  | None => mret (WriteError ErrNotFound)
  | Some (rt, id) =>
    if negb (bool_decide (cleanPath (Path r) = Path r)) then mret (mkResponse 301 [(lit "Location", cleanPath (Path r))] NoBody)
    else match handler_of rt with
    | None => mret (WriteError ErrNotImplemented)
    | Some h => h (mkRequest (Method r) (Path r) (Query r) (Authorization r) (RBody r) (Chunked r) (BodyLimit r) (Context_ r) id)
    end
  end.
Definition pattern (r : Request) : option (Route * str) := mux_find document (Method r) (cleanPath (Path r)).

Definition authorize (rt : option (Route * str)) (next : Handler) : Handler := λ r,
  match rt with
  | Some (p, _) =>
    match Permission p with
    | Some perm =>
      if negb (protected_ p) then next r
      else match Subjects r with
      | inl _ => mret (WriteError ErrUnauthenticated)
      | inr subj => match Authz.Require_ checker subj perm with
                    | Err _ => mret (WriteError ErrForbidden)
                    | Ok _ => next r
                    end
      end
    | None => next r
    end
  | None => next r
  end.
Definition with_identity (id : Identity) (r : Request) : Request :=
  mkRequest (Method r) (Path r) (Query r) (Authorization r) (RBody r) (Chunked r) (BodyLimit r) (Some id) (PathID r).
Definition challenge : Response := let w := WriteError ErrUnauthenticated in
  mkResponse (Code w) ((lit "WWW-Authenticate", lit "Bearer realm=" ++ [chr 34] ++ lit "freya" ++ [chr 34]) :: Headers w) (Body w).
Definition authenticate (rt : option (Route * str)) (next : Handler) : Handler := λ r,
  match rt with
  | Some (p, _) =>
    if negb (protected_ p) then next r
    else match verifier with
    | None => mret (WriteError ErrUnauthenticated)
    | Some v =>
      match @Verify v (Authorization r) with
      | Err _ => mret challenge
      | Ok id => if bool_decide (IdUserID id = []) || bool_decide (IdTenantID id = []) then mret challenge else next (with_identity id r)
      end
    end
  | None => next r
  end.
Definition limit_of (o : Operation) : Z * bool :=
  match OLimit o with Some n => if 0 <? n then (n, true) else (MaxBodyBytes, false) | None => (MaxBodyBytes, false) end.
Definition validate (next : Handler) : Handler := λ r,
  match FindRoute r with
  | PathNotFound => next r
  | OtherError => mret (WriteError MethodNotAllowed)
  | FoundRoute o =>
    let '(limit, binary) := limit_of o in
    let r := mkRequest (Method r) (Path r) (Query r) (Authorization r) (RBody r) (Chunked r) (Some limit) (Context_ r) (PathID r) in
    match ValidateRequest r o binary with
    | Some v => mret (invalid_response v)
    | None => next r
    end
  end.
Definition secure (next : Handler) : Handler := λ r,
  w ← next r;
  mret (mkResponse (Code w)
    ([(lit "X-Content-Type-Options", lit "nosniff"); (lit "Referrer-Policy", lit "no-referrer"); (lit "X-Frame-Options", lit "DENY"); (lit "Cache-Control", lit "no-store")]
     ++ Headers w) (Body w)).
(** A request arrives without an identity. *)
Definition serve : Handler := secure (validate (λ r, authenticate (pattern r) (authorize (pattern r) (mux (pattern r))) r)).

(** ** Who reaches a handler *)

Lemma mux_find_declared method path rt id : mux_find document method path = Some (rt, id) → ∃ o, o ∈ document ∧ rt = route o.
Proof.
  induction document as [|o ops IH]; cbn [mux_find]; [done|]. destruct (matches o method path); [intros [= <- _]; exists o; set_solver|].
  intros (o' & Hin & E)%IH. exists o'. set_solver.
Qed.
(** In the document every route is declared once, and public or under a known
    permission. *)
Lemma document_closed o : o ∈ document → find_op (route o) = Some o ∧ (OPublic o = true ∨ ∃ p, OPermission o = Some p ∧ Authz.Known p = true ∧ OPublic o = false).
Proof.
  assert (H : forallb (λ o, bool_decide (find_op (route o) = Some o) && (OPublic o || match OPermission o with Some p => Authz.Known p | None => false end)) document = true)
    by (vm_compute; reflexivity).
  intros Hin. apply forallb_Forall in H. rewrite Forall_forall in H. apply H in Hin as [Hf Hp]%andb_true_iff. split; [by apply bool_decide_eq_true in Hf|].
  destruct (OPublic o); [by left|right]. destruct (OPermission o) as [p|]; [by exists p|done].
Qed.

(** A refusal: a reason of the vocabulary, with at most the name of a list
    parameter, or a redirection to the clean path. *)
Definition refusal (w : Response) : Prop :=
  Code w = 301 ∧ Body w = NoBody ∨
  ∃ e, e ∈ vocabulary ∧ Code w = Status e ∧ (Body w = JReason (Reason e) ∨ ∃ p, p ∈ [lit "page"; lit "page_size"; lit "sort"; lit "order"] ∧ Status e < 500 ∧ Body w = JDetail (Reason e) [(lit "param", p)]).
Lemma WriteError_refusal e : e ∈ vocabulary → refusal (WriteError e).
Proof. intros H. right. exists e. auto. Qed.
Lemma challenge_refusal : refusal challenge.
Proof. right. exists ErrUnauthenticated. split_and!; [left|done|by left]. Qed.
Ltac refuse := apply WriteError_refusal; apply list_elem_of_In; cbn; tauto.
Lemma invalid_refusal v : refusal (invalid_response v).
Proof.
  unfold invalid_response. case_bool_decide as E; cbn [negb].
  - destruct (_ || _); [refuse|]. destruct (VParse v); refuse.
  - right. exists ErrValidation. split_and!; [apply list_elem_of_In; cbn; tauto|done|]. right. exists (listParam v). split; [|by split]. unfold listParam in *.
    destruct (VParam v) as [[place name]|]; [|done]. destruct (bool_decide (place = "query")); [|done]. by case_bool_decide.
Qed.

(** What a handler is given. *)
Definition handed (r : Request) (limit : option Z) (id : option Identity) (path : str) : Request :=
  mkRequest (Method r) (Path r) (Query r) (Authorization r) (RBody r) (Chunked r) limit id path.
(** A caller that may use a route. *)
Definition admitted (rt : Route) (r : Request) (id : option Identity) : Prop :=
  match id with
  | None => IsPublic rt = true
  | Some id => ∃ v perm, verifier = Some v ∧ @Verify v (Authorization r) = Ok id ∧ IdUserID id ≠ [] ∧ IdTenantID id ≠ [] ∧
      Permission rt = Some perm ∧ Authz.Known perm = true ∧ Authz.Require_ checker (Authz.User (IdTenantID id) (IdUserID id) (IdRoles id)) perm = Ok ()
  end.

Lemma mux_run rt id r w resp w' : mux (Some (rt, id)) r w = (resp, w') →
  (w' = w ∧ refusal resp) ∨ ∃ h, handler_of rt = Some h ∧ cleanPath (Path r) = Path r ∧ h (handed r (BodyLimit r) (Context_ r) id) w = (resp, w').
Proof.
  unfold mux. case_bool_decide as Ec; cbn [negb]; [|intros [= <- <-]; left; split; [done|by left]].
  destruct (handler_of rt) as [h|]; [|intros [= <- <-]; left; split; [done|refuse]]. intros H. right. by exists h.
Qed.
Lemma chain_run r w resp w' : Context_ r = None → authenticate (pattern r) (authorize (pattern r) (mux (pattern r))) r w = (resp, w') →
  (w' = w ∧ refusal resp) ∨
  ∃ rt path id h, pattern r = Some (rt, path) ∧ rt ∈ DeclaredRoutes ∧ handler_of rt = Some h ∧ admitted rt r id ∧ cleanPath (Path r) = Path r ∧
    h (handed r (BodyLimit r) id path) w = (resp, w').
Proof.
  intros Hc. unfold authenticate. destruct (pattern r) as [[rt path]|] eqn:Ep; [|intros [= <- <-]; left; split; [done|refuse]].
  unfold pattern in Ep. destruct (mux_find_declared _ _ _ _ Ep) as (o & Hin & ->). destruct (document_closed o Hin) as [Ho Hperm].
  assert (Hdecl : route o ∈ DeclaredRoutes) by (apply elem_of_sort_by, list_elem_of_In, in_map, list_elem_of_In, Hin).
  destruct Hperm as [Hpub|(perm & Hperm & Hknown & Hpub)]; unfold protected_; rewrite Ho, Hpub; cbn [negb].
  - unfold authorize. destruct (Permission (route o)); [unfold protected_; rewrite Ho, Hpub; cbn [negb]|]; (intros [?|(h & Hh & Hcl & H)]%mux_run; [by left|]); right; exists (route o), path, None, h;
      rewrite Hc in H; split_and!; try done; unfold admitted, IsPublic; by rewrite Ho.
  - destruct verifier as [v|] eqn:Evf; [|intros [= <- <-]; left; split; [done|refuse]].
    destruct (@Verify v (Authorization r)) as [id|] eqn:Ev; [|intros [= <- <-]; left; split; [done|apply challenge_refusal]].
    destruct (bool_decide (IdUserID id = [])) eqn:Eu; [intros [= <- <-]; left; split; [done|apply challenge_refusal]|]. apply bool_decide_eq_false in Eu.
    destruct (bool_decide (IdTenantID id = [])) eqn:Et; [intros [= <- <-]; left; split; [done|apply challenge_refusal]|]. apply bool_decide_eq_false in Et.
    cbn [orb]. unfold authorize, Permission. rewrite Ho. cbn [mbind option_bind]. rewrite Hperm. unfold protected_. rewrite Ho, Hpub. cbn [negb].
    unfold Subjects, Caller. cbn [Context_ with_identity]. rewrite !bool_decide_eq_false_2 by done. cbn [orb].
    destruct (Authz.Require_ checker _ perm) as [[]|] eqn:Er; [|intros [= <- <-]; left; split; [done|refuse]].
    intros [?|(h & Hh & Hcl & H)]%mux_run; [by left|]. right. exists (route o), path, (Some id), h. split_and!; try done. unfold admitted. exists v, perm.
    split_and!; try done. unfold Permission. by rewrite Ho.
Qed.

Lemma serve_run r w resp w' :
  Context_ r = None → serve r w = (resp, w') →
  [(lit "X-Content-Type-Options", lit "nosniff"); (lit "Referrer-Policy", lit "no-referrer"); (lit "X-Frame-Options", lit "DENY"); (lit "Cache-Control", lit "no-store")] `prefix_of` Headers resp ∧
  ((w' = w ∧ refusal resp) ∨
   ∃ rt path id limit h resp0, pattern r = Some (rt, path) ∧ rt ∈ DeclaredRoutes ∧ handler_of rt = Some h ∧ admitted rt r id ∧
     h (handed r limit id path) w = (resp0, w') ∧ Code resp = Code resp0 ∧ Body resp = Body resp0).
Proof.
  intros Hc. unfold serve, secure, mbind, M_bind. destruct (validate _ r w) as [resp0 w0] eqn:E. intros [= <- <-]. split; [eexists; reflexivity|].
  cbn [Code Body]. unfold refusal. cbn [Code Body]. fold (refusal resp0). unfold validate in E.
  destruct (FindRoute r) as [o| |]; [|apply chain_run in E as [?|(rt & path & id & h & ? & ? & ? & ? & _ & H)]; [by left|right; by exists rt, path, id, (BodyLimit r), h, resp0|done]
    |injection E as <- <-; left; split; [done|refuse]].
  destruct (limit_of o) as [limit binary]. cbv zeta in E. destruct (ValidateRequest _ o binary) as [v|]; [injection E as <- <-; left; split; [done|apply invalid_refusal]|].
  apply chain_run in E as [?|(rt & path & id & h & Hp & ? & ? & Ha & _ & H)]; [by left| |done]. right. exists rt, path, id, (Some limit), h, resp0. by split_and!.
Qed.

(** C7: nobody reaches a handler past the checks: a request either is answered
    with a refusal of the closed vocabulary and nothing was changed, or it reached
    the handler of a declared route, which is public, or whose declared permission
    the checker granted to the user and tenant of the token that the verifier
    accepted; the handler is given exactly that identity, never one of the request,
    and every answer carries the security headers. *)
Theorem serve_guarded r w resp w' :
  Context_ r = None → serve r w = (resp, w') →
  [(lit "X-Content-Type-Options", lit "nosniff"); (lit "Referrer-Policy", lit "no-referrer"); (lit "X-Frame-Options", lit "DENY"); (lit "Cache-Control", lit "no-store")] `prefix_of` Headers resp ∧
  ((w' = w ∧ refusal resp) ∨
   ∃ rt path id limit h resp0, pattern r = Some (rt, path) ∧ rt ∈ DeclaredRoutes ∧ handler_of rt = Some h ∧ admitted rt r id ∧
     h (handed r limit id path) w = (resp0, w') ∧ Code resp = Code resp0 ∧ Body resp = Body resp0).
Proof. apply serve_run. Qed.
End Server.
End HttpApi.
