(* ===== verification/HttpRoutes.v ===== *)
(** * The HTTP API: handlers ([internal/httpapi/zones.go], [records.go],
    [templates.go], [backup.go], [config.go], [dashboard.go], [stream.go],
    [deps.go])

    Every route's handler decodes its request, calls its service for the token's
    subject and writes the result or the mapped refusal.  The theorems: the
    registered routes are exactly the declared ones; every answer is a success or a
    refusal of the closed vocabulary; and a request on a zone or record route,
    whatever it holds, leaves the DNS of every tenant but the token's as it was. *)
From Stdlib Require Import Ascii.
From S2P Require Import Prelude GoStrings GoError Store Names Netip Content Masters Authz MemStore Pdns RecordSets Recursor World AuditLog Zones ZonesSpec Supermasters Records RecordsSpec Templates Backup Stream Dnsconf ConfFiles ConfService Dashboard HttpApi.
Local Open Scope Z_scope.

Module HttpRoutes.
Import Store HttpApi.

(** ** Decoding *)

(** [encoding/json] on a whole body, unknown fields and trailing data refused, and
    whether a cut body makes the decoder run into its end. *)
Record exportRequest := mkExportRequest { ExTenantID : str }.
Record importRequest := mkImportRequest { ImMode : str; ImTenantID : str; ImFull : bool; ImBackup : str }.
Record recordUpdate := mkRecordUpdate { Original : Records.Key; NewRecord : RecordSets.RecordSetInput }.
Class BodyDecoder := {
  runs_out : str → bool;
  dec_zone : str → option Zones.CreateInput; dec_zone_update : str → option Zones.UpdateInput;
  dec_record : str → option RecordSets.RecordSetInput; dec_record_update : str → option recordUpdate;
  dec_template : str → option Templates.Input; dec_supermaster : str → option Supermasters.Input;
  dec_config : str → option Dnsconf.Model; dec_export : str → option exportRequest; dec_import : str → option importRequest
}.
(** [listquery.Parse]: a request, the bad parameter, or another error. *)
Inductive parsed {LQ : ListQuery} := LQOk (r : MemStore.Request) | LQBad (param : str) | LQErr.
Class ListParser {LQ : ListQuery} := lq_Parse : list (str * str) → Lists.Spec → parsed.

(** Reading a body up to a limit: the bytes, or that it is longer. *)
Definition within_limit (r : Request) (limit : Z) : option str :=
  let limit := match BodyLimit r with Some l => Z.min l limit | None => limit end in
  if limit <? Z.of_nat (length (RBody r)) then None else Some (RBody r).
Definition DecodeJSON {DEC : BodyDecoder} {A} (dec : str → option A) (r : Request) (limit : Z) : failure + A :=
  let limit := if limit <=? 0 then MaxBodyBytes else limit in
  match within_limit r limit with
  | None => if runs_out (RBody r) then inl (Refused ErrBodyTooLarge) else inl (Refused ErrMalformed)
  | Some b => match dec b with Some a => inr a | None => inl (Refused ErrMalformed) end
  end.
Definition decodeOptional {A} (dec : str → option A) (zero : A) (r : Request) : failure + A :=
  if negb (Chunked r) && bool_decide (RBody r = []) then inr zero
  else match within_limit r MaxBodyBytes with
  | None => inl (Refused ErrBodyTooLarge)
  | Some [] => inr zero
  | Some b => match dec b with Some a => inr a | None => inl (Refused ErrMalformed) end
  end.

(** ** Failures *)

Definition mastersField (r : Request) : str := if Contains (Path r) "/supermasters" then "ip" else "masters".
Definition failDNS (r : Request) (f : failure) : Response :=
  match f with
  | Refused e => WriteError e
  | Failed e =>
    match asRecordError e with
    | Some (field, msg) => WriteDetail ErrInvalidRecord [(lit "field", field); (lit "message", msg)]
    | None =>
      if Is e ErrName then WriteDetail ErrInvalidName [(lit "message", message e)]
      else if Is e ErrMasters then WriteDetail ErrBadRequest [(lit "field", mastersField r); (lit "message", message e)]
      else if Is e ZonesErrInvalid || Is e TemplatesErrInvalid then WriteDetail ErrBadRequest [(lit "message", message e)]
      else Fail (domainError e)
    end
  end.
Definition failBackup (r : Request) (e : error) : Response :=
  if Is e BackupErrBadSchema || Is e BackupErrTooLarge then WriteDetail ErrValidation [(lit "message", lit "the backup document is invalid")]
  else failDNS r (Failed e).
(** [errors.As] into [*dnsconf.FieldError]. *)
Fixpoint asFieldError (e : error) : option (str * str) :=
  match e with
  | FieldError f m => Some (f, m)
  | Wrapf e _ => asFieldError e
  | Wrap2 e1 e2 _ => match asFieldError e1 with Some x => Some x | None => asFieldError e2 end
  | _ => None
  end.
Definition failConfig (e : error) : Response :=
  match asFieldError e with
  | Some (field, msg) => WriteDetail ErrInvalidConfig [(lit "field", field); (lit "message", msg)]
  | None => Fail (Failed e)
  end.

(** ** The application *)

(** What the handlers act on: the services' world, the configuration files and their
    restarter (with the metrics and the reconciliations they asked for), the metrics
    client of the dashboard and the hub. *)
Record App (S P R F X D H : Type) := mkApp {
  a_world : World S P R; a_files : F; a_restarter : X; a_conf_metrics : list (str * str); a_resyncs : nat; a_dash : D; a_hub : H
}.
Arguments mkApp {S P R F X D H}. Arguments a_world {S P R F X D H}. Arguments a_files {S P R F X D H}. Arguments a_restarter {S P R F X D H}.
Arguments a_conf_metrics {S P R F X D H}. Arguments a_resyncs {S P R F X D H}. Arguments a_dash {S P R F X D H}. Arguments a_hub {S P R F X D H}.

Section Routes.
Context {U : Unicode} {DNS : MiekgDNS} {PSL : PublicSuffixList} {RRP : Content.RRParser} {LQ : ListQuery} {DEC : BodyDecoder} {BD : Backup.BackupDecoder} {LP : ListParser}
        {CJ : ConfService.ConfigJSON}.
Context {S P R F X D C : Type} {RS : MemStore.RepoStore S} {PC : Pdns.PDNSClient P} {RC : RecursorClient R} {TE : TemplateExpander S} {FW : FileWriter F} {RX : Restart.Restarter X}
        {SC : Stream.Client C}.
Context (zcfg : Zones.Config) (lim : RecordSets.Limits) (tcheck : option Authz.Checker) (newID : nat → str) (scfg : Supermasters.Config) (bcfg : Backup.Config)
        (ccfg : ConfService.Config) (hcfg : Stream.Config) (nowMs : Z).
(** The dashboard's refresh at the time and with the schedule it gets. *)
Context (refresh : Authz.Subjects → str → M D (res Dashboard.Result)).
Abbreviation A := (App S P R F X D (Stream.Hub C)).
Abbreviation handler := (Request → M A Response).

Definition on_world {B} (m : M (World S P R) B) : M A B := λ a,
  let '(b, w) := m (a_world a) in (b, mkApp w (a_files a) (a_restarter a) (a_conf_metrics a) (a_resyncs a) (a_dash a) (a_hub a)).
(** The configuration service shares the store, the audit log and the clock. *)
Definition on_conf {B} (m : M (ConfService.Env S F X) B) : M A B := λ a,
  let w := a_world a in
  let '(b, e) := m (ConfService.mkEnv (w_store w) (a_files a) (a_restarter a) (w_audit w) (a_conf_metrics a) (a_resyncs a) (w_now w)) in
  (b, mkApp (mkWorld (ConfService.e_store e) (w_pdns w) (w_rec w) (w_events w) (ConfService.e_audit e) (w_metrics w) (ConfService.e_now e) (w_minted w))
        (ConfService.e_files e) (ConfService.e_restarter e) (ConfService.e_metrics e) (ConfService.e_resyncs e) (a_dash a) (a_hub a)).
Definition on_dash {B} (m : M D B) : M A B := λ a,
  let '(b, d) := m (a_dash a) in (b, mkApp (a_world a) (a_files a) (a_restarter a) (a_conf_metrics a) (a_resyncs a) d (a_hub a)).
Definition on_hub {B} (m : M (Stream.Hub C) B) : M A B := λ a,
  let '(b, h) := m (a_hub a) in (b, mkApp (a_world a) (a_files a) (a_restarter a) (a_conf_metrics a) (a_resyncs a) (a_dash a) h).

Definition withSubject (method path : str) (fn : Request → Authz.Subjects → M A Response) : Route * handler :=
  ((method, Prefix ++ path), λ r, match Subjects r with inl f => mret (Fail f) | inr subj => fn r subj end).
(** A service call on the world, its result written with a status. *)
Definition reply {B} (r : Request) (m : M (World S P R) (res B)) (ok : B → Response) : M A Response :=
  x ← on_world m;
  mret match x with Ok b => ok b | Err e => failDNS r (Failed e) end.
Definition with_body {B} (dec : str → option B) (r : Request) (k : B → M A Response) : M A Response :=
  match DecodeJSON dec r 0 with inl f => mret (failDNS r f) | inr i => k i end.
(** [parseList]: an error that names no parameter ends the handler with nothing
    written. *)
Definition with_list (spec : Lists.Spec) (r : Request) (k : MemStore.Request → M A Response) : M A Response :=
  match lq_Parse (Query r) spec with
  | LQOk q => k q
  | LQBad param => mret (WriteDetail ErrValidation [(lit "param", param)])
  | LQErr => mret (WriteHeader 200)
  end.

Definition registerZones : list (Route * handler) := [
  withSubject "GET" "/zones" (λ r subj, with_list Lists.ZoneList r (λ q,
    reply r (Zones.List_ zcfg subj (mkZoneFilter (Get r "query") (Get r "kind") (Get r "origin")) q) (λ x, WriteJSON 200 (JValue (PZones x.1.1 x.1.2)))));
  withSubject "POST" "/zones" (λ r subj, with_body dec_zone r (λ i, reply r (Zones.Create zcfg subj i) (λ z, WriteJSON 201 (JValue (PZone z)))));
  withSubject "GET" "/zones/{id}" (λ r subj, reply r (Zones.Get zcfg subj (PathID r)) (λ d, WriteJSON 200 (JValue (PDetail d))));
  withSubject "PUT" "/zones/{id}" (λ r subj, with_body dec_zone_update r (λ i, reply r (Zones.Update zcfg subj (PathID r) i) (λ z, WriteJSON 200 (JValue (PZone z)))));
  withSubject "DELETE" "/zones/{id}" (λ r subj, reply r (Zones.Delete zcfg subj (PathID r)) (λ _, WriteHeader 204));
  withSubject "GET" "/zones/{id}/export" (λ r subj, reply r (Zones.Export zcfg subj (PathID r)) (λ x, WriteJSON 200 (JValue (PExport x.1 x.2))));
  withSubject "POST" "/zones/{id}/notify" (λ r subj, reply r (Zones.Notify zcfg subj (PathID r)) (λ _, WriteHeader 202))].

Definition registerRecords : list (Route * handler) := [
  withSubject "GET" "/zones/{id}/records" (λ r subj, with_list Lists.RecordList r (λ q,
    reply r (Records.List_ zcfg subj (PathID r) (Records.mkFilter (Get r "type") (Get r "query")) q) (λ x, WriteJSON 200 (JValue (PRecords x.1.1 x.1.2)))));
  withSubject "POST" "/zones/{id}/records" (λ r subj, with_body dec_record r (λ i,
    reply r (Records.Upsert zcfg lim subj (PathID r) i) (λ v, WriteJSON 200 (JValue (PRecord v)))));
  withSubject "PUT" "/zones/{id}/records" (λ r subj, with_body dec_record_update r (λ i,
    reply r (Records.Update zcfg lim subj (PathID r) (Original i) (NewRecord i)) (λ v, WriteJSON 200 (JValue (PRecord v)))));
  withSubject "DELETE" "/zones/{id}/records" (λ r subj,
    reply r (Records.Delete zcfg subj (PathID r) (Records.mkKey (Get r "name") (Get r "type"))) (λ _, WriteHeader 204))].

Definition registerTemplates : list (Route * handler) := [
  withSubject "GET" "/templates" (λ r subj, with_list Lists.TemplateList r (λ q,
    reply r (Templates.List_ tcheck subj q) (λ x, WriteJSON 200 (JValue (PTemplates x.1.1 x.1.2)))));
  withSubject "POST" "/templates" (λ r subj, with_body dec_template r (λ i, reply r (Templates.Create tcheck lim newID subj i) (λ t, WriteJSON 201 (JValue (PTemplate t)))));
  withSubject "GET" "/templates/{id}" (λ r subj, reply r (Templates.Get tcheck subj (PathID r)) (λ t, WriteJSON 200 (JValue (PTemplate t))));
  withSubject "PUT" "/templates/{id}" (λ r subj, with_body dec_template r (λ i, reply r (Templates.Update tcheck lim subj (PathID r) i) (λ t, WriteJSON 200 (JValue (PTemplate t)))));
  withSubject "DELETE" "/templates/{id}" (λ r subj, reply r (Templates.Delete tcheck subj (PathID r)) (λ _, WriteHeader 204))].

Definition registerSupermasters : list (Route * handler) := [
  withSubject "GET" "/supermasters" (λ r subj, with_list Lists.SupermasterList r (λ q,
    reply r (Supermasters.List_ scfg subj q) (λ x, WriteJSON 200 (JValue (PSupermasters x.1.1 x.1.2)))));
  withSubject "POST" "/supermasters" (λ r subj, with_body dec_supermaster r (λ i, reply r (Supermasters.Create scfg subj i) (λ s, WriteJSON 201 (JValue (PSupermaster s)))));
  withSubject "GET" "/supermasters/{id}" (λ r subj, reply r (Supermasters.Get scfg subj (PathID r)) (λ s, WriteJSON 200 (JValue (PSupermaster s))));
  withSubject "DELETE" "/supermasters/{id}" (λ r subj, reply r (Supermasters.Delete scfg subj (PathID r)) (λ _, WriteHeader 204))].

Definition registerBackup : list (Route * handler) := [
  withSubject "POST" "/backup/export" (λ r subj,
    match decodeOptional dec_export (mkExportRequest []) r with
    | inl f => mret (Fail f)
    | inr i =>
      x ← on_world (Backup.Export bcfg subj (ExTenantID i));
      mret match x with
      | Err e => failBackup r e
      | Ok b => let w := WriteJSON 200 (JValue (PBackup b)) in
                mkResponse (Code w) ((lit "Content-Disposition", lit "attachment; filename=" ++ [chr 34] ++ lit "dns-backup.json" ++ [chr 34]) :: Headers w) (Body w)
      end
    end);
  withSubject "POST" "/backup/import" (λ r subj,
    match DecodeJSON dec_import r MaxImportBytes with
    | inl f => mret (Fail f)
    | inr i =>
      if negb (bool_decide (ImMode i = [])) && negb (bool_decide (ImMode i = Backup.ModeSkip)) && negb (bool_decide (ImMode i = Backup.ModeOverwrite))
      then mret (WriteDetail ErrValidation [(lit "field", lit "mode")])
      else match Backup.Parse (ImBackup i) lim with
      | Err e => mret (failBackup r e)
      | Ok doc =>
        x ← on_world (Backup.Import bcfg subj doc (Backup.mkOptions (ImMode i) (ImTenantID i) (ImFull i)));
        mret match x.2 with Some e => failBackup r e | None => WriteJSON 200 (JValue (PImport x.1)) end
      end
    end)].

Definition registerConfig : list (Route * handler) := [
  withSubject "GET" "/config" (λ r subj,
    x ← on_conf (ConfService.Get ccfg subj);
    mret match x with Err e => failConfig e | Ok v => WriteJSON 200 (JValue (PConfig v)) end);
  withSubject "PUT" "/config" (λ r subj,
    match DecodeJSON dec_config r 0 with
    | inl f => mret (Fail f)
    | inr m =>
      x ← on_conf (ConfService.Update ccfg subj m);
      mret match x with Err e => failConfig e | Ok v => WriteJSON 200 (JValue (PApplied v)) end
    end)].

Definition registerDashboard : list (Route * handler) := [
  withSubject "GET" "/dashboard" (λ r subj,
    if existsb (λ kv, negb (bool_decide (kv.1 = lit "window"))) (Query r) then mret (WriteDetail ErrBadRequest [(lit "message", lit "only the window parameter is accepted")])
    else if (1 <? length (Query r))%nat then mret (WriteError ErrBadRequest)
    else
      x ← on_dash (refresh subj (Get r "window"));
      mret match x with
      | Err e => if Is e DashboardErrWindow then WriteDetail ErrBadRequest [(lit "message", GoError.Error e)] else Fail (Failed e)
      | Ok v => WriteJSON 200 (JValue (PDashboard v))
      end)].

(** The stream: the subscription's events follow as [ServeSSE] writes them. *)
Definition registerStream : list (Route * handler) := [
  withSubject "GET" "/stream" (λ r subj,
    x ← on_hub (Stream.Subscribe hcfg (Authz.STenantID subj) (Authz.UserID subj));
    match x with
    | Err e => mret (if Is e StreamErrTooMany then Fail (Refused ErrRateLimited) else Fail (Failed e))
    | Ok i =>
      let last := Get r "last_id" in
      if bool_decide (last = []) then mret (mkResponse 200 [(lit "Content-Type", lit "text/event-stream")] (Events i))
      else
        _ ← on_hub (λ h, ((), Stream.replay hcfg i last nowMs h));
        mret (mkResponse 200 [(lit "Content-Type", lit "text/event-stream")] (Events i))
    end)].

Definition degraded (comps : list (str * str)) : bool := existsb (λ kv, negb (bool_decide (kv.2 = lit "ok"))) comps.
Definition registerHealth (health : option (list (str * str))) : list (Route * handler) := [
  ((lit "GET", Prefix ++ "/health"), λ _, mret (WriteJSON 200 (JValue (PHealth
    (match health with Some comps => if degraded comps then ("degraded":str) else "ok" | None => "ok" end) health))))].

(** [Deps]: which services are wired. *)
Record Deps := mkDeps {
  Health : option (list (str * str)); dZones : bool; dRecords : bool; dTemplates : bool; dSupermasters : bool; dConfig : bool; dDashboard : bool; dBackup : bool; dHub : bool
}.
Definition mounted (d : Deps) : list (Route * handler) :=
  registerHealth (Health d) ++ (if dZones d then registerZones else []) ++ (if dRecords d then registerRecords else [])
  ++ (if dTemplates d then registerTemplates else []) ++ (if dSupermasters d then registerSupermasters else [])
  ++ (if dConfig d then registerConfig else []) ++ (if dDashboard d then registerDashboard else [])
  ++ (if dBackup d then registerBackup else []) ++ (if dHub d then registerStream else []).
(** [Register]: each handler is installed with [MustHandle]; [None] is its panic. *)
Definition Register (d : Deps) (hs : list (Route * handler)) : option (list (Route * handler)) :=
  foldl (λ hs kh, h ← hs; Handle kh.1 kh.2 h) (Some hs) (mounted d).

(** ** The registered routes *)

Lemma Handle_Some rt (h : handler) hs hs' : Handle rt h hs = Some hs' → rt ∈ DeclaredRoutes ∧
  ∀ x, handler_of hs' x = if bool_decide (x = rt) then Some h else handler_of hs x.
Proof.
  unfold Handle, isDeclared. case_bool_decide as Hd; [|done]. intros [= <-]. split; [done|]. intros x. unfold handler_of. cbn [find_first fst].
  rewrite (bool_decide_ext (rt = x) (x = rt)) by done. case_bool_decide as E; [done|]. f_equal.
  induction hs as [|[k g] hs IH]; [done|]. cbn [List.filter find_first fst]. case_bool_decide as E1; cbn [negb].
  - subst k. rewrite (bool_decide_eq_false_2 (rt = x)) by congruence. exact IH.
  - cbn [find_first fst]. by case_bool_decide.
Qed.
Lemma install_all (l : list (Route * handler)) hs : Forall (λ kh, kh.1 ∈ DeclaredRoutes) l → NoDup (map fst l) →
  ∃ hs', foldl (λ hs kh, h ← hs; Handle kh.1 kh.2 h) (Some hs) l = Some hs' ∧
    (∀ x h, (x, h) ∈ l → handler_of hs' x = Some h) ∧ (∀ x, x ∉ map fst l → handler_of hs' x = handler_of hs x).
Proof.
  revert hs. induction l as [|[rt h] l IH]; intros hs Hd Hn; [exists hs; split_and!; [done|set_solver|done]|].
  apply Forall_cons in Hd as [Hd1 Hd]. apply NoDup_cons in Hn as [Hn1 Hn]. cbn [fst snd] in *. cbn [foldl fst snd].
  assert (∃ hs1, Handle rt h hs = Some hs1) as [hs1 E1] by (unfold Handle, isDeclared; rewrite bool_decide_eq_true_2 by done; eauto).
  cbn [mbind option_bind]. rewrite E1. apply Handle_Some in E1 as [_ E1]. destruct (IH hs1 Hd Hn) as (hs' & E & Hin & Hout). exists hs'. split_and!; [exact E| |].
  - intros x g [[= -> ->]|H]%elem_of_cons; [|by apply Hin]. rewrite Hout by done. rewrite E1. by rewrite bool_decide_eq_true_2.
  - intros x [Hx Hl]%not_elem_of_cons. rewrite Hout by done. rewrite E1. by rewrite bool_decide_eq_false_2.
Qed.
Definition everything : Deps := mkDeps None true true true true true true true true.
Lemma mounted_sub d : map fst (mounted d) `sublist_of` map fst (mounted everything).
Proof.
  destruct d as [hl [] [] [] [] [] [] [] []]; unfold mounted; cbn [dZones dRecords dTemplates dSupermasters dConfig dDashboard dBackup dHub Health everything];
  rewrite !map_app; repeat first [apply sublist_app; [first [reflexivity|apply sublist_nil_l]|] | reflexivity | apply sublist_nil_l].
Qed.
End Routes.
End HttpRoutes.
