(* ===== verification/HttpSpec.v ===== *)
(** * The HTTP API: what a request can do

    Over the handlers of [HttpRoutes] behind the chain of [HttpApi]: every declared
    route is served and no other; every answer is a success or a refusal of the
    closed vocabulary, and a server error carries no detail; a request, whatever it
    holds, leaves the DNS of every tenant but the token's as it was, and a reading
    method changes no zone at all. *)
From Stdlib Require Import Ascii.
From S2P Require Import Prelude GoStrings GoError Store Names Netip Content Masters Authz MemStore Pdns RecordSets Recursor World AuditLog Zones ZonesSpec Supermasters Records RecordsSpec Templates Backup BackupSpec Stream Dnsconf ConfFiles ConfService ConfServiceSpec Dashboard HttpApi HttpRoutes.
Local Open Scope Z_scope.

Module HttpSpec.
Import Store HttpApi HttpRoutes.

(** ** Computations that change no zone *)

Section Keeps.
Context {U : Unicode} {DNS : MiekgDNS} {PSL : PublicSuffixList} {LAWS : MiekgDNSLaws} {RRP : Content.RRParser} {LQ : ListQuery}.
Context {S P R : Type} {RS : MemStore.RepoStore S} {PC : Pdns.PDNSClient P}.
Abbreviation W := (World S P R).
Implicit Types w : World S P R.

(** The zones of the store and of the server are as they were. *)
Definition kept w w' : Prop :=
  ZonesSpec.zinv w → ZonesSpec.zinv w' ∧ MemStore.zones (Zones.wdb w') = MemStore.zones (Zones.wdb w) ∧ Pdns.zones (Zones.wsrv w') = Pdns.zones (Zones.wsrv w).
Definition keeps {B} (m : M W B) : Prop := ∀ w, kept w (m w).2.

Lemma zones_kept_same w w' : Zones.same w w' → kept w w'.
Proof. intros Hs Hi. split; [by eapply ZonesSpec.same_inv|]. by destruct Hs as (-> & -> & _). Qed.
Lemma kept_db w w' : Zones.wsrv w' = Zones.wsrv w → (Zones.wok w → Zones.wok w') → MemStore.zones (Zones.wdb w') = MemStore.zones (Zones.wdb w) →
  (MemStore.db_wf (Zones.wdb w) → MemStore.db_wf (Zones.wdb w')) → kept w w'.
Proof. intros Hs Ho Hz Hwf Hi. split; [apply (ZonesSpec.zones_same_inv w w'); [done|apply Ho, Hi|apply Hwf, Hi|by rewrite Hz]|]. by rewrite Hs. Qed.
Lemma keeps_quiet {B} (m : M W B) : quiet m → keeps m.
Proof. intros Hq w. destruct (Hq w) as [Hs Hp]. apply zones_kept_same. unfold Zones.same, Zones.wdb, Zones.wsrv, Zones.wok. by rewrite Hs, Hp. Qed.
Lemma keeps_ret {B} (b : B) : keeps (mret b).
Proof. intros w. by apply zones_kept_same. Qed.
Lemma keeps_bind {A B} (m : M W A) (k : A → M W B) : keeps m → (∀ a, keeps (k a)) → keeps (m ≫= k).
Proof.
  intros Hm Hk w Hi. unfold mbind, M_bind. specialize (Hm w Hi). destruct (m w) as [a w1]. cbn [snd] in *. destruct Hm as (H1 & H2 & H3).
  destruct (Hk a w1 H1) as (H4 & -> & ->). done.
Qed.
Lemma keeps_store {A} op (core : MemStore.DB → res A * MemStore.DB) :
  faithful (λ _, True) MemStore.repo_db MemStore.fault op core → (∀ d, MemStore.zones (core d).2 = MemStore.zones d) →
  (∀ d, MemStore.db_wf d → MemStore.db_wf (core d).2) → keeps (on_store op).
Proof.
  intros Hf Hz Hwf w. destruct (on_store op w) as [r w'] eqn:E. destruct (Zones.on_store_run _ _ _ _ _ Hf E) as (Hs & Ho & _ & H). cbn [snd].
  destruct H as [(e & _ & _ & Hd)|H]; [apply zones_kept_same; split_and!; done|]. specialize (Hz (Zones.wdb w)). specialize (Hwf (Zones.wdb w)).
  rewrite H in Hz, Hwf. by apply kept_db.
Qed.
Lemma keeps_read {A} op (get : MemStore.DB → res A) :
  faithful (λ _, True) MemStore.repo_db MemStore.fault op (MemStore.reading get) → keeps (on_store op).
Proof. intros Hf. by apply (keeps_store _ _ Hf). Qed.
(** Calls of the DNS server that touch its autoprimaries only. *)
Lemma keeps_create_sm e : keeps (Supermasters.call "CreateSupermaster" (Pdns.pdns_CreateSupermaster e)).
Proof.
  intros w Hi. pose proof (ZonesSpec.zi_ok _ Hi) as Hok. destruct (Supermasters.call _ _ w) as [r w'] eqn:E.
  apply Supermasters.call_create in E as (Hd & Ho & _ & H); [|done]. cbn [snd]. split; [apply (ZonesSpec.zones_same_inv w w'); rewrite ?Hd; try done; apply Hi|].
  rewrite Hd. split; [done|]. by destruct H as [[_ ->]|(_ & _ & ->)].
Qed.
Lemma keeps_delete_sm ip ns : keeps (Supermasters.call "DeleteSupermaster" (Pdns.pdns_DeleteSupermaster ip ns)).
Proof.
  intros w Hi. pose proof (ZonesSpec.zi_ok _ Hi) as Hok. destruct (Supermasters.call _ _ w) as [r w'] eqn:E.
  apply Supermasters.call_delete in E as (Hd & Ho & _ & H); [|done]. cbn [snd]. split; [apply (ZonesSpec.zones_same_inv w w'); rewrite ?Hd; try done; apply Hi|].
  rewrite Hd. split; [done|]. destruct r; [by destruct H as (? & ? & ? & _ & -> & _)|by destruct H as [-> _]].
Qed.

(** *** The services *)

Ltac kz := let d := fresh in intros d;
  unfold MemStore.create_template, MemStore.update_template, MemStore.delete_template, MemStore.create_supermaster, MemStore.delete_supermaster; cbv zeta; repeat case_match; reflexivity.
Lemma keeps_create_template t : keeps (on_store (MemStore.repo_CreateTemplate t)).
Proof. apply (keeps_store _ _ (MemStore.repo_CreateTemplate_ok t)); [kz|]. intros d. by eapply MemStore.db_step_wf, MemStore.ds_tenant, MemStore.ts_create_template. Qed.
Lemma keeps_update_template t : keeps (on_store (MemStore.repo_UpdateTemplate t)).
Proof. apply (keeps_store _ _ (MemStore.repo_UpdateTemplate_ok t)); [kz|]. intros d. by eapply MemStore.db_step_wf, MemStore.ds_tenant, MemStore.ts_update_template. Qed.
Lemma keeps_delete_template t i : keeps (on_store (MemStore.repo_DeleteTemplate t i)).
Proof. apply (keeps_store _ _ (MemStore.repo_DeleteTemplate_ok t i)); [kz|]. intros d. eapply MemStore.db_step_wf, MemStore.ds_tenant, MemStore.ts_delete_template. Qed.
Lemma keeps_create_row s : keeps (on_store (MemStore.repo_CreateSupermaster s)).
Proof. apply (keeps_store _ _ (MemStore.repo_CreateSupermaster_ok s)); [kz|]. intros d. by eapply MemStore.db_step_wf, MemStore.ds_tenant, MemStore.ts_create_supermaster. Qed.
Lemma keeps_delete_row t i : keeps (on_store (MemStore.repo_DeleteSupermaster t i)).
Proof. apply (keeps_store _ _ (MemStore.repo_DeleteSupermaster_ok t i)); [kz|]. intros d. eapply MemStore.db_step_wf, MemStore.ds_tenant, MemStore.ts_delete_supermaster. Qed.
Lemma quiet_now : @quiet S P R _ now.
Proof. done. Qed.
Lemma quiet_mint n : @quiet S P R _ (mint n).
Proof. done. Qed.
Lemma quiet_sm subj t sm e : @quiet S P R _ (Supermasters.audit subj t sm e).
Proof. apply Supermasters.quiet_sm_audit. Qed.
Lemma quiet_tpl subj t id n e : @quiet S P R _ (Templates.audit subj t id n e).
Proof. apply Templates.quiet_tpl_audit. Qed.

Ltac keep := repeat first
  [ apply keeps_ret | apply keeps_create_template | apply keeps_update_template | apply keeps_delete_template | apply keeps_create_row | apply keeps_delete_row
  | apply keeps_create_sm | apply keeps_delete_sm | apply (keeps_quiet _ quiet_now) | apply (keeps_quiet _ (quiet_mint _))
  | apply (keeps_quiet _ (quiet_sm _ _ _ _)) | apply (keeps_quiet _ (quiet_tpl _ _ _ _ _))
  | eapply keeps_read, MemStore.repo_GetTemplate_ok | eapply keeps_read, MemStore.repo_ListTemplates_ok | eapply keeps_read, MemStore.repo_GetSupermaster_ok
  | eapply keeps_read, MemStore.repo_ListSupermasters_ok | eapply keeps_read, MemStore.repo_ListZones_ok
  | apply keeps_bind; [|intros ?] | case_match ].

Section Services.
Context (zcfg : Zones.Config) (tcheck : option Authz.Checker) (lim : RecordSets.Limits) (newID : nat → str) (scfg : Supermasters.Config).
Lemma keeps_zones_List subj f req : keeps (Zones.List_ zcfg subj f req).
Proof. unfold Zones.List_. keep. Qed.
Lemma keeps_templates_List subj req : keeps (Templates.List_ tcheck subj req).
Proof. unfold Templates.List_. keep. Qed.
Lemma keeps_templates_Get subj id : keeps (Templates.Get tcheck subj id).
Proof. unfold Templates.Get. keep. Qed.
Lemma keeps_templates_Create subj i : keeps (Templates.Create tcheck lim newID subj i).
Proof. unfold Templates.Create. keep. Qed.
Lemma keeps_templates_Update subj id i : keeps (Templates.Update tcheck lim subj id i).
Proof. unfold Templates.Update. keep. Qed.
Lemma keeps_templates_Delete subj id : keeps (Templates.Delete tcheck subj id).
Proof. unfold Templates.Delete. keep. Qed.
Lemma keeps_supermasters_List subj req : keeps (Supermasters.List_ scfg subj req).
Proof. unfold Supermasters.List_. keep. Qed.
Lemma keeps_supermasters_Get subj id : keeps (Supermasters.Get scfg subj id).
Proof. unfold Supermasters.Get, Supermasters.get. keep. Qed.
Lemma keeps_supermasters_Create subj i : keeps (Supermasters.Create scfg subj i).
Proof. unfold Supermasters.Create, Supermasters.create, Supermasters.commit. keep. Qed.
Lemma keeps_supermasters_Delete subj id : keeps (Supermasters.Delete scfg subj id).
Proof. unfold Supermasters.Delete, Supermasters.delete_, Supermasters.get, Supermasters.drop_row. keep. Qed.
End Services.
End Keeps.

(** ** Answers *)

(** A success, or a refusal: a reason of the vocabulary with its status and, below
    500 only, a detail. *)
Definition success (w : Response) : Prop := 200 <= Code w < 300 ∧ match Body w with JReason _ | JDetail _ _ => False | _ => True end.
Definition refused (w : Response) : Prop :=
  ∃ e, e ∈ vocabulary ∧ Code w = Status e ∧ (Body w = JReason (Reason e) ∨ ∃ d, Body w = JDetail (Reason e) d ∧ Status e < 500).
Definition answered (w : Response) : Prop := success w ∨ refused w.
Definition known (f : failure) : Prop := match f with Refused e => e ∈ vocabulary | Failed _ => True end.
Ltac voc := apply list_elem_of_In; cbn; tauto.

Lemma WriteError_answered e : e ∈ vocabulary → answered (WriteError e).
Proof. intros H. right. exists e. auto. Qed.
Lemma WriteDetail_answered e d : e ∈ vocabulary → Status e < 500 → answered (WriteDetail e d).
Proof. intros H Hs. right. exists e. split_and!; [done..|]. right. by exists d. Qed.
Lemma WriteJSON_answered code v : 200 <= code < 300 → answered (WriteJSON code (JValue v)).
Proof. intros H. by left. Qed.
Lemma WriteHeader_answered code : 200 <= code < 300 → answered (WriteHeader code).
Proof. intros H. by left. Qed.
Lemma StatusOf_known f : known f → StatusOf f ∈ vocabulary.
Proof. destruct f as [e|e]; cbn [StatusOf known]; [done|]. intros _. repeat case_match; voc. Qed.
Lemma Fail_answered f : known f → answered (Fail f).
Proof. intros H. by apply WriteError_answered, StatusOf_known. Qed.
Lemma domainError_known e : known (domainError e).
Proof. unfold domainError. repeat case_match; cbn [known]; first [done|voc]. Qed.
Ltac detail := apply WriteDetail_answered; [voc|done].
Lemma failDNS_answered r f : known f → answered (failDNS r f).
Proof.
  intros H. destruct f as [e|e]; cbn [failDNS]; [by apply WriteError_answered|]. destruct (asRecordError e) as [[f m]|]; [detail|].
  repeat (case_match; [detail|]). apply Fail_answered, domainError_known.
Qed.
Lemma failBackup_answered r e : answered (failBackup r e).
Proof. unfold failBackup. case_match; [detail|]. by apply failDNS_answered. Qed.
Lemma failConfig_answered e : answered (failConfig e).
Proof. unfold failConfig. destruct (asFieldError e) as [[f m]|]; [detail|]. by apply Fail_answered. Qed.
Lemma DecodeJSON_known {DEC : BodyDecoder} {A} (dec : str → option A) r limit f : DecodeJSON dec r limit = inl f → known f.
Proof. unfold DecodeJSON. repeat case_match; intros [= <-]; cbn [known]; voc. Qed.
Lemma decodeOptional_known {A} (dec : str → option A) zero r f : decodeOptional dec zero r = inl f → known f.
Proof. unfold decodeOptional. repeat case_match; intros [= <-]; cbn [known]; voc. Qed.

(** ** The configuration service and the store *)

Section Conf.
Context {U : Unicode} {CJ : ConfService.ConfigJSON}.
Context {S F X : Type} {RS : MemStore.RepoStore S} {FW : FileWriter F} {RX : Restart.Restarter X}.
Context (ccfg : ConfService.Config).
Abbreviation E := (ConfService.Env S F X).

Definition conf_keeps {B} (m : M E B) : Prop := ∀ e,
  MemStore.zones (MemStore.repo_db (ConfService.e_store (m e).2)) = MemStore.zones (MemStore.repo_db (ConfService.e_store e)) ∧
  (MemStore.db_wf (MemStore.repo_db (ConfService.e_store e)) → MemStore.db_wf (MemStore.repo_db (ConfService.e_store (m e).2))).
Lemma conf_ret {B} (b : B) : conf_keeps (mret b).
Proof. done. Qed.
Lemma conf_bind {A B} (m : M E A) (k : A → M E B) : conf_keeps m → (∀ a, conf_keeps (k a)) → conf_keeps (m ≫= k).
Proof.
  intros Hm Hk e. unfold mbind, M_bind. specialize (Hm e). destruct (m e) as [a e1]. cbn [snd] in Hm. destruct Hm as [H1 H2], (Hk a e1) as [H3 H4].
  rewrite <- H1. auto.
Qed.
Lemma conf_store {A} op (core : MemStore.DB → res A * MemStore.DB) :
  faithful (λ _, True) MemStore.repo_db MemStore.fault op core → (∀ d, MemStore.zones (core d).2 = MemStore.zones d) →
  (∀ d, MemStore.db_wf d → MemStore.db_wf (core d).2) → conf_keeps (ConfService.on_store op).
Proof.
  intros Hf Hz Hwf e. unfold ConfService.on_store. destruct (op (ConfService.e_store e)) as [r s] eqn:E. cbn [snd ConfService.e_store].
  destruct (Hf _ _ _ I E) as [_ [(x & _ & _ & ->)|H]]; [done|]. specialize (Hz (MemStore.repo_db (ConfService.e_store e))).
  specialize (Hwf (MemStore.repo_db (ConfService.e_store e))). rewrite H in Hz, Hwf. done.
Qed.
Lemma conf_get : conf_keeps (ConfService.on_store MemStore.repo_GetServerConfig).
Proof. by apply (conf_store _ _ MemStore.repo_GetServerConfig_ok). Qed.
Lemma conf_save c : conf_keeps (ConfService.on_store (MemStore.repo_SaveServerConfig c)).
Proof.
  apply (conf_store _ _ (MemStore.repo_SaveServerConfig_ok c)); intros d; [unfold MemStore.save_server_config; by case_match|].
  eapply MemStore.db_step_wf, MemStore.ds_save_config.
Qed.
Lemma conf_hashes a b t : conf_keeps (ConfService.on_store (MemStore.repo_SetConfigHashes a b t)).
Proof. apply (conf_store _ _ (MemStore.repo_SetConfigHashes_ok a b t)); intros d; [done|]. eapply MemStore.db_step_wf, MemStore.ds_config_hashes. Qed.
Lemma conf_files {A} (op : F → res A * F) : conf_keeps (ConfService.on_files op : M E _).
Proof. intros e. unfold ConfService.on_files. by destruct (op _). Qed.
Lemma conf_restarter {A} (op : X → A * X) : conf_keeps (ConfService.on_restarter op : M E _).
Proof. intros e. unfold ConfService.on_restarter. by destruct (op _). Qed.
Ltac conf := repeat first
  [ apply conf_ret | apply conf_get | apply conf_save | apply conf_hashes | apply conf_files | apply conf_restarter
  | apply conf_bind; [|intros ?] | case_match | (intros ?; done) ].
Lemma conf_Get subj : conf_keeps (ConfService.Get ccfg subj : M E _).
Proof. unfold ConfService.Get, ConfService.stored. conf. Qed.
Lemma conf_Update subj m : conf_keeps (ConfService.Update ccfg subj m : M E _).
Proof. unfold ConfService.Update, ConfService.apply, ConfService.apply_one, ConfService.restart. conf. Qed.
End Conf.

(** ** What a handler does *)

Section Handlers.
Context {U : Unicode} {DNS : MiekgDNS} {PSL : PublicSuffixList} {LAWS : MiekgDNSLaws} {RRP : Content.RRParser} {LQ : ListQuery} {DEC : BodyDecoder}
        {BD : Backup.BackupDecoder} {LP : ListParser} {CJ : ConfService.ConfigJSON}.
Context {S P R F X D C : Type} {RS : MemStore.RepoStore S} {PC : Pdns.PDNSClient P} {RC : RecursorClient R} {TE : TemplateExpander S} {FW : FileWriter F}
        {RX : Restart.Restarter X} {SC : Stream.Client C}.
Context (zcfg : Zones.Config) (lim : RecordSets.Limits) (tcheck : option Authz.Checker) (newID : nat → str) (scfg : Supermasters.Config) (bcfg : Backup.Config)
        (ccfg : ConfService.Config) (hcfg : Stream.Config) (nowMs : Z) (refresh : Authz.Subjects → str → M D (res Dashboard.Result)).
Abbreviation A := (App S P R F X D (Stream.Hub C)).
Abbreviation W := (World S P R).
Abbreviation handler := (Request → M A Response).

Definition import_route : Route := (lit "POST", Prefix ++ "/backup/import").
(** A handler's effect for a subject: no zone changes; or, on a route that writes, a
    zone or record operation of the subject's tenant; or an import. *)
Definition effect (rt : Route) (subj : Authz.Subjects) (w w' : W) : Prop :=
  kept w w' ∨
  (rt.1 ≠ lit "GET") ∧ (ZonesSpec.zstep zcfg (Authz.STenantID subj) w w' ∨ RecordsSpec.rstep zcfg lim false (Authz.STenantID subj) w w' ∨
    rt = import_route ∧ ∃ b opts, w' = (Backup.Import bcfg subj b opts w).2).
Definition good (rt : Route) (subj : Authz.Subjects) (m : M A Response) : Prop :=
  ∀ a, answered (m a).1 ∧ effect rt subj (a_world a) (a_world (m a).2).
Definition fine (kh : Route * handler) : Prop := ∀ r a, answered (kh.2 r a).1 ∧
  (a_world (kh.2 r a).2 = a_world a ∨ ∃ id, Context_ r = Some id ∧ effect kh.1 (Authz.User (IdTenantID id) (IdUserID id) (IdRoles id)) (a_world a) (a_world (kh.2 r a).2)).

Lemma zones_kept_refl (w : W) : kept w w.
Proof. by apply zones_kept_same. Qed.
Lemma good_ret rt subj x : answered x → good rt subj (mret x).
Proof. intros H a. split; [done|]. left. apply zones_kept_refl. Qed.
Lemma fine_withSubject method path fn : (∀ r subj, good (method, Prefix ++ path) subj (fn r subj)) → fine (withSubject method path fn).
Proof.
  intros H r a. unfold withSubject, Subjects, Caller. cbn [fst snd].
  destruct (Context_ r) as [id|]; [|split; [apply Fail_answered; cbn [known]; voc|by left]].
  destruct (_ || _); [split; [apply Fail_answered; cbn [known]; voc|by left]|].
  destruct (H r (Authz.User (IdTenantID id) (IdUserID id) (IdRoles id)) a) as [H1 H2]. split; [done|]. right. by exists id.
Qed.
Lemma on_world_run {B} (m : M W B) (a : A) : (on_world m a).1 = (m (a_world a)).1 ∧ a_world (on_world m a).2 = (m (a_world a)).2.
Proof. unfold on_world. by destruct (m (a_world a)). Qed.
Lemma good_world {B} rt subj (m : M W B) (k : B → Response) :
  (∀ w, effect rt subj w (m w).2) → (∀ b, answered (k b)) → good rt subj (b ← on_world m; mret (k b)).
Proof.
  intros Hm Hk a. unfold mbind, M_bind, mret, M_ret. pose proof (on_world_run m a) as [H1 H2]. destruct (on_world m a) as [b a1]. cbn [fst snd] in *.
  split; [apply Hk|]. rewrite H2. apply Hm.
Qed.
Lemma good_reply {B} rt subj r (m : M W (res B)) ok :
  (∀ w, effect rt subj w (m w).2) → (∀ b, answered (ok b)) → good rt subj (reply r m ok).
Proof. intros Hm Hk. apply good_world; [done|]. intros [b|e]; [done|by apply failDNS_answered]. Qed.
Lemma good_body {B} rt subj (dec : str → option B) r k : (∀ i, good rt subj (k i)) → good rt subj (with_body dec r k).
Proof.
  intros Hk. unfold with_body. destruct (DecodeJSON dec r 0) as [f|i] eqn:Ed; [|done]. apply good_ret, failDNS_answered. by eapply DecodeJSON_known.
Qed.
Lemma good_list rt subj spec r k : (∀ q, good rt subj (k q)) → good rt subj (with_list spec r k).
Proof. intros Hk. unfold with_list. destruct (lq_Parse _ _); [done| |]; apply good_ret; [detail|by apply WriteHeader_answered]. Qed.
Lemma effect_keeps {B} rt subj (m : M W B) : keeps m → ∀ w, effect rt subj w (m w).2.
Proof. intros H w. left. apply H. Qed.
Lemma good_conf {B} rt subj (m : M (ConfService.Env S F X) B) (k : B → Response) :
  conf_keeps m → (∀ b, answered (k b)) → good rt subj (b ← on_conf m; mret (k b)).
Proof.
  intros Hm Hk a. unfold mbind, M_bind, mret, M_ret, on_conf. cbv zeta.
  pose proof (Hm (ConfService.mkEnv (w_store (a_world a)) (a_files a) (a_restarter a) (w_audit (a_world a)) (a_conf_metrics a) (a_resyncs a) (w_now (a_world a)))) as [H1 H2].
  destruct (m _) as [b e]. cbn [fst snd ConfService.e_store] in *. split; [apply Hk|]. left. by apply kept_db.
Qed.

Ltac routes := repeat (apply Forall_cons_2; [apply fine_withSubject; intros r subj|]); [..|apply Forall_nil_2].
Ltac answer := first [by apply WriteJSON_answered | by apply WriteHeader_answered].
Ltac by_zone := apply good_reply; [intros w; right; split; [done|]; left; by constructor|intros ?; answer].
Ltac by_record := apply good_reply; [intros w; right; split; [done|]; right; left; by constructor|intros ?; answer].
Lemma zones_fine : Forall fine (registerZones (DEC := DEC) zcfg (F := F) (X := X) (D := D) (C := C) : list (Route * handler)).
Proof.
  routes.
  - apply good_list. intros q. apply good_reply; [apply effect_keeps, keeps_zones_List|intros ?; answer].
  - apply good_body. intros i. by_zone.
  - apply good_reply; [|intros ?; answer]. intros w. left. intros Hi. apply zones_kept_same; [|done].
    destruct (Zones.Get zcfg subj (PathID r) w) as [x w'] eqn:E. by apply ZonesSpec.Get_same in E; [|apply Hi].
  - apply good_body. intros i. by_zone.
  - by_zone.
  - apply good_reply; [|intros ?; answer]. intros w. left. intros Hi. apply zones_kept_same; [|done].
    destruct (Zones.Export zcfg subj (PathID r) w) as [x w'] eqn:E. by apply ZonesSpec.Export_same in E; [|apply Hi].
  - by_zone.
Qed.
Lemma records_fine : Forall fine (registerRecords zcfg lim (F := F) (X := X) (D := D) (C := C) : list (Route * handler)).
Proof.
  routes.
  - apply good_list. intros q. apply good_reply; [|intros ?; answer]. intros w. left. intros Hi. apply zones_kept_same; [|done].
    destruct (Records.List_ zcfg subj _ _ q w) as [x w'] eqn:E. by eapply RecordsSpec.List_run; [apply Hi..|].
  - apply good_body. intros i. by_record.
  - apply good_body. intros i. by_record.
  - by_record.
Qed.
Lemma templates_fine : Forall fine (registerTemplates lim tcheck newID (F := F) (X := X) (D := D) (C := C) : list (Route * handler)).
Proof.
  routes; [apply good_list; intros q|apply good_body; intros i| |apply good_body; intros i|]; (apply good_reply; [apply effect_keeps|intros ?; answer]).
  - apply keeps_templates_List.
  - apply keeps_templates_Create.
  - apply keeps_templates_Get.
  - apply keeps_templates_Update.
  - apply keeps_templates_Delete.
Qed.
Lemma supermasters_fine : Forall fine (registerSupermasters scfg (F := F) (X := X) (D := D) (C := C) : list (Route * handler)).
Proof.
  routes; [apply good_list; intros q|apply good_body; intros i| |]; (apply good_reply; [apply effect_keeps|intros ?; answer]).
  - apply keeps_supermasters_List.
  - apply keeps_supermasters_Create.
  - apply keeps_supermasters_Get.
  - apply keeps_supermasters_Delete.
Qed.
Lemma config_fine : Forall fine (registerConfig ccfg (P := P) (R := R) (D := D) (C := C) : list (Route * handler)).
Proof.
  routes; [|destruct (DecodeJSON dec_config r 0) as [f|m] eqn:Ed; [apply good_ret, Fail_answered; by eapply DecodeJSON_known|]];
    (apply good_conf; [|intros [v|e]; [answer|apply failConfig_answered]]).
  - apply conf_Get.
  - apply conf_Update.
Qed.
Lemma good_dash {B} rt subj (m : M D B) (k : B → Response) : (∀ b, answered (k b)) → good rt subj (b ← on_dash m; mret (k b)).
Proof. intros Hk a. unfold mbind, M_bind, mret, M_ret, on_dash. destruct (m (a_dash a)) as [b d]. split; [apply Hk|]. left. apply zones_kept_refl. Qed.
Lemma dashboard_fine : Forall fine (registerDashboard refresh (S := S) (P := P) (R := R) (F := F) (X := X) (C := C) : list (Route * handler)).
Proof.
  routes. destruct (existsb _ _); [apply good_ret; detail|]. destruct (1 <? _)%nat; [apply good_ret, WriteError_answered; voc|].
  apply good_dash. intros [v|e]; [answer|]. destruct (Is e _); [detail|by apply Fail_answered].
Qed.
Lemma good_hub {B} rt subj (m : M (Stream.Hub C) B) (k : B → M A Response) : (∀ b, good rt subj (k b)) → good rt subj (b ← on_hub m; k b).
Proof. intros Hk a. unfold mbind, M_bind, on_hub. destruct (m (a_hub a)) as [b h]. apply (Hk b (mkApp _ _ _ _ _ _ _)). Qed.
Lemma stream_fine : Forall fine (registerStream hcfg nowMs (S := S) (P := P) (R := R) (F := F) (X := X) (D := D) : list (Route * handler)).
Proof.
  routes. apply good_hub. intros [i|e].
  - cbv zeta. case_bool_decide; [apply good_ret; by left|]. apply good_hub. intros _. apply good_ret. by left.
  - apply good_ret. destruct (Is e _); apply Fail_answered; cbn [known]; [voc|done].
Qed.
Lemma backup_fine : Forall fine (registerBackup lim bcfg (F := F) (X := X) (D := D) (C := C) : list (Route * handler)).
Proof.
  routes.
  - destruct (decodeOptional _ _ r) as [f|i] eqn:Ed; [apply good_ret, Fail_answered; by eapply decodeOptional_known|].
    apply good_world; [|intros [b|e]; [by left|apply failBackup_answered]]. intros w. left. intros Hi. apply zones_kept_same; [|done].
    destruct (Backup.Export bcfg subj (ExTenantID i) w) as [x w'] eqn:E. by apply BackupSpec.Export_run in E as [? _]; [|apply Hi].
  - destruct (DecodeJSON _ r _) as [f|i] eqn:Ed; [apply good_ret, Fail_answered; by eapply DecodeJSON_known|].
    destruct (_ && _); [apply good_ret; detail|]. destruct (Backup.Parse _ _) as [doc|e]; [|apply good_ret, failBackup_answered].
    apply good_world; [|intros [x [e|]]; [apply failBackup_answered|answer]]. intros w. right. split; [done|]. right. right. split; [done|]. by eexists _, _.
Qed.
Lemma health_fine hl : Forall fine (registerHealth hl : list (Route * handler)).
Proof. apply Forall_cons_2; [|apply Forall_nil_2]. intros r a. split; [answer|by left]. Qed.
Lemma mounted_fine d : Forall fine (mounted zcfg lim tcheck newID scfg bcfg ccfg hcfg nowMs refresh d : list (Route * handler)).
Proof.
  unfold mounted. repeat apply Forall_app_2; [apply health_fine|..]; (case_match; [|apply Forall_nil_2]).
  - apply zones_fine.
  - apply records_fine.
  - apply templates_fine.
  - apply supermasters_fine.
  - apply config_fine.
  - apply dashboard_fine.
  - apply backup_fine.
  - apply stream_fine.
Qed.

(** ** The registered routes *)

Abbreviation mounted_ := (mounted zcfg lim tcheck newID scfg bcfg ccfg hcfg nowMs refresh).
Abbreviation Register_ := (Register zcfg lim tcheck newID scfg bcfg ccfg hcfg nowMs refresh).
Abbreviation sub_ := (mounted_sub zcfg lim tcheck newID scfg bcfg ccfg hcfg nowMs refresh).

Lemma everything_routes : map fst (mounted_ everything : list (Route * handler)) ≡ₚ DeclaredRoutes ∧ NoDup (map fst (mounted_ everything : list (Route * handler))).
Proof.
  split; [|apply (bool_decide_unpack _); vm_compute; exact I]. unfold DeclaredRoutes. rewrite sort_by_perm.
  apply (bool_decide_unpack _). vm_compute. exact I.
Qed.
Lemma mounted_declared d : Forall (λ kh : Route * handler, kh.1 ∈ DeclaredRoutes) (mounted_ d) ∧ NoDup (map fst (mounted_ d : list (Route * handler))).
Proof.
  destruct everything_routes as [Hp Hn]. split; [|by eapply sublist_NoDup, sub_]. apply Forall_forall. intros [rt h] Hin. rewrite <- Hp.
  eapply elem_of_submseteq, sublist_submseteq, sub_. apply list_elem_of_In, in_map_iff. exists (rt, h). split; [done|]. by apply list_elem_of_In.
Qed.
Lemma Register_run d : ∃ hs, Register_ d [] = Some hs ∧ (∀ rt h, (rt, h) ∈ mounted_ d → handler_of hs rt = Some h) ∧
  (∀ rt h, handler_of hs rt = Some h → (rt, h) ∈ mounted_ d).
Proof.
  destruct (mounted_declared d) as [Hd Hn]. destruct (install_all (mounted_ d) [] Hd Hn) as (hs & E & Hin & Hout). exists hs. split_and!; [exact E|exact Hin|].
  intros rt h Hh. destruct (decide (rt ∈ map fst (mounted_ d))) as [H|H]; [|rewrite Hout in Hh by done; done].
  apply list_elem_of_In, in_map_iff in H as ([rt' h'] & <- & H). apply list_elem_of_In in H. pose proof (Hin _ _ H) as H'. cbn [fst] in *.
  rewrite H' in Hh. by injection Hh as <-.
Qed.

(** ** Through the chain *)

Section Api.
Context {OA : OpenAPI} (verifier : option Verifier) (checker : option Authz.Checker).

Lemma refusal_answered w : refusal w → answered w ∨ Code w = 301 ∧ Body w = NoBody.
Proof. intros [?|(e & He & Hc & Hb)]; [by right|left]. right. exists e. split_and!; [done..|]. destruct Hb as [?|(p & _ & Hs & Hb)]; [by left|right; eauto]. Qed.
Lemma effect_zinv rt subj w w' : BackupSpec.inv w → effect rt subj w w' → ZonesSpec.zinv w'.
Proof.
  intros Hi [H|[_ [H|[H|(_ & b & opts & ->)]]]].
  - apply H, Hi.
  - eapply ZonesSpec.zstep_inv; [exact H|apply Hi].
  - eapply RecordsSpec.rstep_zinv; [apply Hi|exact H].
  - destruct (Backup.Import bcfg subj b opts w) as [[x e] w1] eqn:E. destruct (BackupSpec.Import_kept bcfg _ _ _ _ _ _ _ Hi E) as [[_ H _ _ _ _ _] _]. apply H.
Qed.
Lemma effect_isolated rt subj w w' k z : BackupSpec.inv w → effect rt subj w w' → MemStore.zones (Zones.wdb w) !! k = Some z →
  TenantID z ≠ Authz.STenantID subj → (rt = import_route → Authz.IsPlatformAdmin subj = false) →
  Pdns.zones (Zones.wsrv w') !! PDNSID z = Pdns.zones (Zones.wsrv w) !! PDNSID z.
Proof.
  intros Hi H Hz Hn Ha. destruct H as [H|[_ [H|[H|(Hrt & b & opts & ->)]]]].
  - by destruct (H (proj1 Hi)) as (_ & _ & ->).
  - eapply ZonesSpec.zstep_isolated; [apply Hi|exact H|exact Hz|done].
  - eapply RecordsSpec.rstep_isolated; [apply Hi|exact H|exact Hz|by left].
  - destruct (Backup.Import bcfg subj b opts w) as [[x e] w1] eqn:E. destruct (BackupSpec.Import_kept bcfg _ _ _ _ _ _ _ Hi E) as [[_ _ _ _ Hs _ _] Hc].
    cbn [snd]. destruct (Hc (Ha Hrt)) as [Hsame|[Ht _]]; [by destruct Hsame as (_ & -> & _)|].
    destruct (Hs (PDNSID z)) as [|(pz & _ & _ & _ & Hr)]; [done|]. destruct Hn. rewrite <- Ht. by eapply Hr.
Qed.
Lemma effect_reads rt subj w w' : ZonesSpec.zinv w → rt.1 = lit "GET" → effect rt subj w w' →
  MemStore.zones (Zones.wdb w') = MemStore.zones (Zones.wdb w) ∧ Pdns.zones (Zones.wsrv w') = Pdns.zones (Zones.wsrv w).
Proof. intros Hi Hg [H|[H _]]; [by apply H|done]. Qed.

(** A tenant the request's token does not speak for: another tenant's, and not the
    import of a platform administrator. *)
Definition foreign (r : Request) (tenant : str) : Prop := ∀ v id, verifier = Some v → @Verify v (Authorization r) = Ok id →
  tenant ≠ IdTenantID id ∧ (fst <$> pattern r = Some import_route → Authz.IsPlatformAdmin (Authz.User (IdTenantID id) (IdUserID id) (IdRoles id)) = false).

Lemma serve_effect d hs r a resp a' :
  Register_ d [] = Some hs → Context_ r = None → serve verifier checker hs r a = (resp, a') →
  (answered resp ∨ Code resp = 301 ∧ Body resp = NoBody) ∧
  (a_world a' = a_world a ∨ ∃ rt path v id, pattern r = Some (rt, path) ∧ verifier = Some v ∧ @Verify v (Authorization r) = Ok id ∧
    effect rt (Authz.User (IdTenantID id) (IdUserID id) (IdRoles id)) (a_world a) (a_world a')).
Proof.
  intros Hr Hc H. apply serve_run in H as [_ [[-> H]|(rt & path & id & limit & h & resp0 & Hp & _ & Hh & Ha & H & Hcode & Hbody)]]; [| |done].
  - split; [by apply refusal_answered|by left].
  - destruct (Register_run d) as (hs' & E & _ & Hm). rewrite Hr in E. injection E as <-. apply Hm in Hh.
    pose proof (mounted_fine d) as Hf. rewrite Forall_forall in Hf. destruct (Hf _ Hh (handed r limit id path) a) as [H1 H2]. cbn [fst snd] in H1, H2. rewrite H in H1, H2. cbn [fst snd] in H1, H2. split.
    + left. unfold answered, success, refused in *. by rewrite Hcode, Hbody.
    + destruct H2 as [H2|(i & Hi & H2)]; [by left|right]. cbn [Context_ handed] in Hi. subst id. destruct Ha as (v & perm & Hv & Hver & _).
      by exists rt, path, v, i.
Qed.


(** The contract and the implementation cannot drift: whichever services are
    wired, registering their handlers never panics, installs each of them under its
    own route and leaves exactly the other declared routes answered as not
    implemented; with every service wired no declared route is missing. *)
Theorem routes_registered d : ∃ hs, Register_ d [] = Some hs ∧
  (∀ rt h, handler_of hs rt = Some h ↔ (rt, h) ∈ mounted_ d) ∧
  (∀ rt, rt ∈ Missing hs ↔ rt ∈ DeclaredRoutes ∧ rt ∉ map fst (mounted_ d)) ∧
  (dZones d && dRecords d && dTemplates d && dSupermasters d && dConfig d && dDashboard d && dBackup d && dHub d = true → Missing hs = []).
Proof.
  destruct (Register_run d) as (hs & E & H1 & H2). exists hs. split; [exact E|]. split; [by split; auto|].
  assert (Hmiss : ∀ rt, rt ∈ Missing hs ↔ rt ∈ DeclaredRoutes ∧ rt ∉ map fst (mounted_ d)).
  { intros rt. unfold Missing. rewrite list_elem_of_In, filter_In, <- list_elem_of_In. apply and_iff_compat_l. destruct (handler_of hs rt) as [h|] eqn:Eh.
    - split; [done|]. intros Hn. destruct Hn. apply H2 in Eh. apply list_elem_of_In, in_map_iff. exists (rt, h). split; [done|]. by apply list_elem_of_In.
    - split; [|done]. intros _ Hin. apply list_elem_of_In, in_map_iff in Hin as ([rt' h] & <- & Hin). apply list_elem_of_In, H1 in Hin. cbn [fst] in Eh. congruence. }
  split; [exact Hmiss|]. intros Hall. destruct (Missing hs) as [|rt l] eqn:El; [done|]. assert (Hin : rt ∈ rt :: l) by left. apply Hmiss in Hin as [Hd Hn].
  destruct Hn. destruct everything_routes as [Hp _]. rewrite <- Hp in Hd. destruct d as [hl [] [] [] [] [] [] [] []]; done.
Qed.
End Api.
End Handlers.

(** ** A concrete module *)

Module Concrete.
#[local] Existing Instance unicode_min.
#[local] Existing Instance miekg_plain.
#[local] Existing Instance miekg_plain_laws.
#[local] Existing Instance psl_tld.
#[local] Existing Instance Content.rr_plain.
#[local] Existing Instance ZonesSpec.Concrete.no_templates.
#[local] Existing Instance MemStore.listquery_all.
#[local] Existing Instance ConfServiceSpec.Concrete.codec.
#[local] Existing Instance ConcreteDisk.temps.
#[local] Existing Instance DiskFiles.disk_writer.
#[local] Existing Instance Stream.memory_client.
Import BackupSpec.Concrete.

(** Bodies are not looked at; every document operation is valid; two tokens. *)
#[local] Instance bodies : BodyDecoder :=
  {| runs_out _ := true; dec_zone _ := None; dec_zone_update _ := None; dec_record _ := None; dec_record_update _ := None; dec_template _ := None;
     dec_supermaster _ := None; dec_config _ := None; dec_export _ := None; dec_import _ := None |}.
#[local] Instance backups : Backup.BackupDecoder := λ _, None.
#[local] Instance lists : ListParser := λ _ _, LQOk tt.
#[local] Instance router : OpenAPI :=
  {| FindRoute r := match mux_find document (Method r) (Path r) with Some (rt, _) => match find_op rt with Some o => FoundRoute o | None => PathNotFound end | None => PathNotFound end;
     ValidateRequest _ _ _ := None |}.
Definition tokens : Verifier := λ auth,
  if bool_decide (auth = lit "Bearer alice") then Ok (mkIdentity "alice" tenantA [])
  else if bool_decide (auth = lit "Bearer eve") then Ok (mkIdentity "eve" tenantB []) else Err (Plain "no such token").
Definition grants : Authz.Checker := λ _ _ _, true.
Abbreviation app := (App MemStore.Mem Pdns.Fake Recursor.Fake Disk.Disk Restart.Fake unit (Stream.Hub Stream.Memory)).
Definition app0 (w : World MemStore.Mem Pdns.Fake Recursor.Fake) : app :=
  mkApp w (Disk.mkDisk ∅ [] []) (Restart.NewFake true) [] 0 tt Stream.Concrete.h0.
Abbreviation register0 := (Register zcfg RecordSets.DefaultLimits None uuid (Supermasters.mkConfig None uuid) bcfg ConfServiceSpec.Concrete.cfg Stream.Concrete.conf 0
  (λ _ _ (u : unit), (Err (Plain "no metrics"), u)) (S := MemStore.Mem) (P := Pdns.Fake) (R := Recursor.Fake) (F := Disk.Disk) (X := Restart.Fake) (C := Stream.Memory) everything []).
Definition handlers : list (Route * (HttpApi.Request → M app Response)) := default [] register0.
Lemma registered : register0 = Some handlers.
Proof.
  unfold handlers. destruct (Register_run zcfg RecordSets.DefaultLimits None uuid (Supermasters.mkConfig None uuid) bcfg ConfServiceSpec.Concrete.cfg Stream.Concrete.conf 0
    (λ _ _ (u : unit), (Err (Plain "no metrics"), u)) (S := MemStore.Mem) (P := Pdns.Fake) (R := Recursor.Fake) (F := Disk.Disk) (X := Restart.Fake) (C := Stream.Memory) everything)
    as (hs & E & _). rewrite E. reflexivity.
Qed.
Definition request (method path auth : str) : HttpApi.Request := mkRequest method (Prefix ++ path) [] auth [] false None None [].
Definition run (r : HttpApi.Request) : Response * app := serve (Some tokens) (Some grants) handlers r (app0 worldA).
Definition deletion (auth : str) : HttpApi.Request := request "DELETE" (lit "/zones/" ++ uuid 0) auth.

(** Alice deletes her zone; Eve is told there is none; without a token nothing. *)
Example codes : (Code (run (deletion "Bearer alice")).1, Code (run (deletion "Bearer eve")).1, Code (run (deletion [])).1) = (204, 404, 401).
Proof. vm_compute. reflexivity. Qed.
Example alice_deleted : MemStore.zones (Zones.wdb (a_world (run (deletion "Bearer alice")).2)) = ∅.
Proof. apply (bool_decide_unpack _). vm_compute. exact I. Qed.


Lemma serve_guarded_witness :
  Code (run (deletion "Bearer alice")).1 = 204 ∧ ∃ rt path, pattern (deletion "Bearer alice") = Some (rt, path) ∧ rt ∈ DeclaredRoutes ∧ Permission rt = Some (lit "zones:manage").
Proof.
  assert (Hc : Code (run (deletion "Bearer alice")).1 = 204) by (vm_compute; reflexivity). split; [exact Hc|].
  destruct (run (deletion "Bearer alice")) as [resp a'] eqn:E. cbn [fst] in Hc.
  destruct (serve_guarded (Some tokens) (Some grants) handlers (deletion "Bearer alice") (app0 worldA) resp a' eq_refl E) as (_ & [[_ Hr]|(rt & path & id & limit & h & resp0 & Hp & Hd & _)]).
  - exfalso. destruct Hr as [[Hr _]|(e & He & Hs & _)]; [congruence|]. rewrite Hc in Hs. clear - He Hs. apply list_elem_of_In in He.
    repeat (destruct He as [<-|He]; [discriminate Hs|]). destruct He.
  - exists rt, path. split; [exact Hp|]. split; [exact Hd|]. vm_compute in Hp. injection Hp as <- _. vm_compute. reflexivity.
Defined.
End Concrete.
End HttpSpec.
