(* ===== verification/SqlStore.v ===== *)
(** * The SQL store ([internal/repo/repodb/db.go], [internal/store/store.go])

    The tables are those of [MemStore.DB], one map per table; a nullable uuid column
    holds the empty text for NULL.  A statement is what its SQL text and the schema
    ([internal/store/migrations]) make of the tables: it binds its parameters,
    applies row-level security, the checks and the unique keys, and answers rows or a
    PostgreSQL error code.  [Tx] runs a method in a transaction under its scope; every
    call of the driver may fail, and a transaction that fails leaves nothing behind.
    PostgreSQL's conversions are the class [Postgres]. *)
From Stdlib Require Import Ascii.
From S2P Require Import Prelude GoStrings GoError Store Netip MemStore World.
Local Open Scope Z_scope.

Module SqlStore.
Import Store MemStore.

(** ** PostgreSQL *)

Definition hexdigit (c : ascii) : bool := digit c || ((97 <=? code c) && (code c <=? 102)) || ((65 <=? code c) && (code c <=? 70)).
(** [uuidRE]. *)
Definition isUUID (s : str) : bool :=
  match SplitByte "-" s with
  | [a; b; c; d; e] => bool_decide (map length [a; b; c; d; e] = [8; 4; 4; 4; 12]%nat) && forallb (forallb hexdigit) [a; b; c; d; e]
  | _ => false
  end.

(** The input conversions of the column types, and [lower] and the collation of text:
    a uuid in its canonical form, whether a text is valid in the encoding, an instant
    in microseconds, an address as [host] prints it, a JSON text as jsonb prints it, and what a template's records
    and an audit detail are when they were marshalled, stored and read back. *)
Class Postgres := {
  uuid_in : str → option str;
  text_in : str → bool;
  pg_lower : str → str;
  text_ltb : str → str → bool;
  timestamptz : time → time;
  inet_host : Netip.Addr → str;
  jsonb_in : str → option str;
  jsonb_records : list TemplateRecord → option (list TemplateRecord);
  jsonb_detail : list (str * any) → option (list (str * any))
}.
Class PostgresLaws {PG : Postgres} : Prop := {
  uuid_in_lower s : isUUID s = true → uuid_in s = Some (map lower_byte s);
  uuid_in_canonical s u : uuid_in s = Some u → isUUID u = true ∧ map lower_byte u = u;
  pg_lower_ascii s : isASCII s = true → pg_lower s = map lower_byte s;
  uuid_collation a b : isUUID a = true → isUUID b = true → text_ltb a b = str_ltb a b;
  jsonb_nonempty s j : jsonb_in s = Some j → j ≠ []
}.

(** [LIKE] with the escape character [\]; a character is a byte, which is the same
    for the patterns of this module. *)
Fixpoint like (p s : str) {struct p} : bool :=
  match p with
  | [] => bool_decide (s = [])
  | c :: p' =>
    if bool_decide (c = "%"%char) then (fix any (s : str) : bool := like p' s || match s with [] => false | _ :: t => any t end) s
    else if bool_decide (c = "_"%char) then match s with [] => false | _ :: t => like p' t end
    else if bool_decide (c = "\"%char) then
      match p', s with e :: p'', x :: t => bool_decide (x = e) && like p'' t | _, _ => false end
    else match s with [] => false | x :: t => bool_decide (x = c) && like p' t end
  end.
(** [right(s, n)] of characters. *)
Definition right_ (s : str) (n : Z) : list Z := let r := runes s in drop (length r - Z.to_nat n) r.

(** An answer of the driver that is no result. *)
Inductive dberr := ErrNoRows | PgError (code : str) | DriverError (e : error).
Definition raw (e : dberr) : error :=
  match e with ErrNoRows => Plain "no rows in result set" | PgError c => Plain ("SQLSTATE " ++ c) | DriverError e => e end.
Definition mapErr (e : dberr) : error :=
  match e with
  | ErrNoRows => New RepoErrNotFound
  | PgError c =>
    if bool_decide (c = "23505") then New RepoErrConflict
    else if bool_decide (c = "23503") || bool_decide (c = "22P02") then New RepoErrNotFound
    else raw e
  | DriverError e => e
  end.

(** ** Transactions *)

(** What the next calls of the driver meet: an error of their own, or none. *)
Record Sql := mkSql { tables : DB; outcomes : list (option error) }.
Record Scope := mkScope { ScTenant : str; ScSystem : bool }.
(** [app.tenant_id] and [app.system] of the session. *)
Record Session := mkSession { app_tenant : str; app_system : bool }.

Definition driver {A} (f : DB → (dberr + A) * DB) : M Sql (dberr + A) := λ s,
  match outcomes s with
  | Some e :: rest => (inl (DriverError e), mkSql (tables s) rest)
  | o => let '(r, d) := f (tables s) in (r, mkSql d (tail o))
  end.
Definition nothing : M Sql (dberr + unit) := driver (λ d, (inr (), d)).
Definition rollback {A} (d : DB) (e : error) : M Sql (res A) := λ s, (Err e, mkSql d (outcomes s)).

Section Store.
Context {U : Unicode} {PG : Postgres}.

(** A uuid column's value for a parameter. *)
Definition uuid (s : str) : str := default [] (uuid_in s).
Definition session (sc : Scope) : Session :=
  mkSession (if bool_decide (ScTenant sc = []) then if ScSystem sc then NilTenant else [] else uuid (ScTenant sc)) (ScSystem sc).
(** The policy [tenant_isolation]. *)
Definition rls (ss : Session) (tenant : str) : bool := bool_decide (tenant = app_tenant ss) || app_system ss.

Definition Tx {A} (sc : Scope) (fn : Session → M Sql (res A)) : M Sql (res A) := λ s0,
  (b ← nothing;
   match b with
   | inl e => rollback (tables s0) (raw e)
   | inr _ =>
     c ← (if bool_decide (ScTenant sc = []) then mret (inr ()) else nothing);
     match c with
     | inl e => rollback (tables s0) (raw e)
     | inr _ =>
       c ← (if ScSystem sc then nothing else mret (inr ()));
       match c with
       | inl e => rollback (tables s0) (raw e)
       | inr _ =>
         c ← (if ScSystem sc && bool_decide (ScTenant sc = []) then nothing else mret (inr ()));
         match c with
         | inl e => rollback (tables s0) (raw e)
         | inr _ =>
           r ← fn (session sc);
           match r with
           | Err e => rollback (tables s0) e
           | Ok a => c ← nothing; match c with inl e => rollback (tables s0) (raw e) | inr _ => mret (Ok a) end
           end
         end
       end
     end
   end) s0.
Definition tenant {A} (tid : str) (fn : Session → M Sql (res A)) : M Sql (res A) :=
  if negb (isUUID tid) then mret NotFound else Tx (mkScope tid false) fn.
Definition system {A} (fn : Session → M Sql (res A)) : M Sql (res A) := Tx (mkScope [] true) fn.

(** One statement whose error is mapped, and one that must affect a row. *)
Definition stmt {A} (f : DB → (dberr + A) * DB) : M Sql (res A) :=
  r ← driver f; mret match r with inl e => Err (mapErr e) | inr a => Ok a end.
Definition affected (f : DB → (dberr + nat) * DB) : M Sql (res unit) :=
  r ← driver f; mret match r with inl e => Err (mapErr e) | inr n => if bool_decide (n = 0%nat) then NotFound else Ok () end.

(** ** Parameters and rows *)

Inductive param := PUuid (s : str) | PText (s : str) | PTexts (l : list str) | PInet (s : str) | PJson (ok : bool) (code : str).
Definition bind_one (p : param) : option dberr :=
  match p with
  | PUuid s => match uuid_in s with Some _ => None | None => Some (PgError "22P02") end
  | PText s => if text_in s then None else Some (PgError "22021")
  | PTexts l => if forallb text_in l then None else Some (PgError "22021")
  | PInet s => match Netip.ParseAddr s with Some a => if bool_decide (Netip.zone_of a = []) then None else Some (PgError "22P02") | None => Some (PgError "22P02") end
  | PJson ok code => if ok then None else Some (PgError code)
  end.
Fixpoint bind (ps : list param) : option dberr :=
  match ps with [] => None | p :: ps => match bind_one p with Some e => Some e | None => bind ps end end.
(** A statement after its parameters are bound. *)
Definition with_params {A} (ps : list param) (f : DB → (dberr + A) * DB) : DB → (dberr + A) * DB := λ d,
  match bind ps with Some e => (inl e, d) | None => f d end.
Definition failing {A} (code : str) (d : DB) : (dberr + A) * DB := (inl (PgError code), d).

(** SELECT, UPDATE and DELETE of the rows a condition selects; a row that is not
    visible under the policy is not selected. *)
Definition rows {A} (p : A → bool) (m : gmap str A) : list A := List.filter p (values_of m).
Definition update_rows {A} (p : A → bool) (f : A → A) (m : gmap str A) : gmap str A := (λ x, if p x then f x else x) <$> m.
Definition delete_rows {A} (p : A → bool) (m : gmap str A) : gmap str A := filter (λ kx, p kx.2 = false) m.
Definition first_row {A} (l : list A) : dberr + A := match l with [] => inl ErrNoRows | x :: _ => inr x end.

Definition orNow (t : time) : M Sql time := λ s, (MemStore.orNow t (Now (tables s)), s).

(** ** Zones *)

Definition zone_check (z : Zone) : bool :=
  bool_decide (Name z = pg_lower (Name z)) && like "%_." (Name z) && (RuneCountInString (Name z) <=? 254)
  && negb (bool_decide (PDNSID z = [])) && (RuneCountInString (PDNSID z) <=? 300)
  && contains Kinds (Kind z) && (RuneCountInString (Description z) <=? 1000) && contains [OriginManual; OriginIPAM] (Origin z).
Definition insert_zone (ss : Session) (z : Zone) : DB → (dberr + unit) * DB :=
  with_params ([PUuid (ID z); PUuid (TenantID z); PText (Name z); PText (PDNSID z); PText (Kind z); PTexts (Masters z); PText (Description z)]
    ++ (if bool_decide (TemplateID z = []) then [] else [PUuid (TemplateID z)]) ++ [PText (Origin z); PTexts (Nameservers z); PText (CreatedBy z)])
  (λ d,
    let row := mkZone (uuid (ID z)) (uuid (TenantID z)) (Name z) (PDNSID z) (Kind z) (Masters z) (DNSSEC z) (Description z)
      (if bool_decide (TemplateID z = []) then [] else uuid (TemplateID z)) (Origin z) (Nameservers z) (CreatedBy z) (timestamptz (CreatedAt z)) (timestamptz (UpdatedAt z)) in
    if negb (rls ss (TenantID row)) then failing "42501" d
    else if negb (zone_check row) then failing "23514" d
    else if any_value (λ x, bool_decide (ID x = ID row) || (bool_decide (Name x = Name row) || bool_decide (PDNSID x = PDNSID row))) (zones d) then failing "23505" d
    else (inr (), set_zones (<[ID row := row]> (zones d)) d)).
Definition CreateZone (z : Zone) : M Sql (res unit) :=
  let kind := if bool_decide (Kind z = []) then KindNative else Kind z in
  let origin := if bool_decide (Origin z = []) then OriginManual else Origin z in
  let tpl := if isUUID (TemplateID z) then TemplateID z else [] in
  created ← orNow (CreatedAt z);
  let updated := if IsZero (UpdatedAt z) then created else UpdatedAt z in
  tenant (TenantID z) (λ ss, stmt (insert_zone ss
    (mkZone (ID z) (TenantID z) (Name z) (PDNSID z) kind (Masters z) (DNSSEC z) (Description z) tpl origin (Nameservers z) (CreatedBy z) created updated))).

Definition select_zone (ss : Session) (ps : list param) (p : Zone → bool) : DB → (dberr + Zone) * DB :=
  with_params ps (λ d, (first_row (rows (λ z, rls ss (TenantID z) && p z) (zones d)), d)).
Definition GetZone (tenantID id : str) : M Sql (res Zone) :=
  if negb (isUUID id) then mret NotFound
  else tenant tenantID (λ ss, stmt (select_zone ss [PUuid tenantID; PUuid id] (λ z, bool_decide (TenantID z = uuid tenantID) && bool_decide (ID z = uuid id)))).
Definition GetZoneByName (tenantID name : str) : M Sql (res Zone) :=
  tenant tenantID (λ ss, stmt (select_zone ss [PUuid tenantID; PText name] (λ z, bool_decide (TenantID z = uuid tenantID) && bool_decide (Name z = name)))).

Definition update_zone_stmt (ss : Session) (z : Zone) : DB → (dberr + Zone) * DB :=
  with_params [PUuid (TenantID z); PUuid (ID z); PText (Kind z); PTexts (Masters z); PText (Description z)] (λ d,
    let p x := rls ss (TenantID x) && (bool_decide (TenantID x = uuid (TenantID z)) && bool_decide (ID x = uuid (ID z))) in
    let set x := mkZone (ID x) (TenantID x) (Name x) (PDNSID x) (Kind z) (Masters z) (DNSSEC z) (Description z) (TemplateID x) (Origin x) (Nameservers x)
                   (CreatedBy x) (CreatedAt x) (timestamptz (UpdatedAt z)) in
    let updated := rows p (zones d) in
    if negb (forallb (λ x, zone_check (set x)) updated) then failing "23514" d
    else (first_row (map set updated), set_zones (update_rows p set (zones d)) d)).
Definition UpdateZone (z : Zone) : M Sql (res Zone) :=
  if negb (isUUID (ID z)) then mret NotFound
  else
    t ← orNow (UpdatedAt z);
    tenant (TenantID z) (λ ss, stmt (update_zone_stmt ss
      (mkZone (ID z) (TenantID z) (Name z) (PDNSID z) (Kind z) (Masters z) (DNSSEC z) (Description z) (TemplateID z) (Origin z) (Nameservers z) (CreatedBy z) (CreatedAt z) t))).

(** The foreign key takes the challenges of a deleted zone with it. *)
Definition delete_zone_stmt (ss : Session) (tenantID id : str) : DB → (dberr + nat) * DB :=
  with_params [PUuid tenantID; PUuid id] (λ d,
    let p x := rls ss (TenantID x) && (bool_decide (TenantID x = uuid tenantID) && bool_decide (ID x = uuid id)) in
    let gone := rows p (zones d) in
    (inr (length gone), set_challenges (delete_rows (λ c, existsb (λ z, bool_decide (ChTenantID c = TenantID z ∧ ChZoneID c = ID z)) gone) (challenges d))
                          (set_zones (delete_rows p (zones d)) d))).
Definition DeleteZone (tenantID id : str) : M Sql (res unit) :=
  if negb (isUUID id) then mret NotFound else tenant tenantID (λ ss, affected (delete_zone_stmt ss tenantID id)).

(** [dns_zone_conflict], which runs under the system scope. *)
Definition dns_zone_conflict (p_name p_tenant : str) (d : DB) : bool :=
  let dotted s := runes ("." ++ s) in
  any_value (λ z, negb (bool_decide (TenantID z = p_tenant)) &&
    (bool_decide (Name z = pg_lower p_name)
     || bool_decide (right_ (pg_lower p_name) (RuneCountInString (Name z) + 1) = dotted (Name z))
     || bool_decide (right_ (Name z) (RuneCountInString p_name + 1) = dotted (pg_lower p_name)))) (zones d).
Definition ZoneConflict (tenantID name : str) : M Sql (res bool) :=
  tenant tenantID (λ _, stmt (with_params [PText (ToLower name); PUuid tenantID] (λ d, (inr (dns_zone_conflict (ToLower name) (uuid tenantID) d), d)))).
(** [dns_zone_names] in byte order. *)
Definition AllZoneNames : M Sql (res (list str)) :=
  Tx (mkScope [] false) (λ _, stmt (λ d, (inr (sort_by str_ltb (map Name (values_of (zones d)))), d))).
Definition ZonesForTenant (tenantID : str) : M Sql (res (list Zone)) :=
  tenant tenantID (λ ss, stmt (with_params [PUuid tenantID] (λ d,
    (inr (sort_by (λ a b, str_ltb (Name a) (Name b)) (rows (λ z, rls ss (TenantID z) && bool_decide (TenantID z = uuid tenantID)) (zones d))), d)))).

(** ** Templates *)

Definition template_check (t : Template) : bool :=
  negb (forallb (λ c, bool_decide (c = " "%char)) (TplName t)) && (RuneCountInString (TplName t) <=? 100) && (RuneCountInString (TplDescription t) <=? 1000)
  && (Z.of_nat (length (TplRecords t)) <=? 200).
Definition same_name (t x : Template) : bool := bool_decide (TplTenantID x = TplTenantID t) && bool_decide (pg_lower (TplName x) = pg_lower (TplName t)).
(** The records as the column gives them back. *)
Definition records_of (t : Template) : list TemplateRecord := default [] (jsonb_records (TplRecords t)).
Definition json_ok {A} (j : option A) : bool := match j with Some _ => true | None => false end.
Definition insert_template (ss : Session) (t : Template) : DB → (dberr + unit) * DB :=
  with_params [PUuid (TplID t); PUuid (TplTenantID t); PText (TplName t); PText (TplDescription t); PJson (json_ok (jsonb_records (TplRecords t))) "22P05"] (λ d,
    let row := mkTemplate (uuid (TplID t)) (uuid (TplTenantID t)) (TplName t) (TplDescription t) (records_of t) (timestamptz (TplCreatedAt t)) (timestamptz (TplUpdatedAt t)) in
    if negb (rls ss (TplTenantID row)) then failing "42501" d
    else if negb (template_check row) then failing "23514" d
    else if any_value (λ x, bool_decide (TplID x = TplID row) || same_name row x) (templates d) then failing "23505" d
    else (inr (), set_templates (<[TplID row := row]> (templates d)) d)).
Definition CreateTemplate (t : Template) : M Sql (res unit) :=
  created ← orNow (TplCreatedAt t);
  let updated := if IsZero (TplUpdatedAt t) then created else TplUpdatedAt t in
  tenant (TplTenantID t) (λ ss, stmt (insert_template ss (mkTemplate (TplID t) (TplTenantID t) (TplName t) (TplDescription t) (TplRecords t) created updated))).
Definition GetTemplate (tenantID id : str) : M Sql (res Template) :=
  if negb (isUUID id) then mret NotFound
  else tenant tenantID (λ ss, stmt (with_params [PUuid tenantID; PUuid id] (λ d,
    (first_row (rows (λ t, rls ss (TplTenantID t) && (bool_decide (TplTenantID t = uuid tenantID) && bool_decide (TplID t = uuid id))) (templates d)), d)))).
Definition update_template_stmt (ss : Session) (t : Template) : DB → (dberr + Template) * DB :=
  with_params [PUuid (TplTenantID t); PUuid (TplID t); PText (TplName t); PText (TplDescription t); PJson (json_ok (jsonb_records (TplRecords t))) "22P05"] (λ d,
    let p x := rls ss (TplTenantID x) && (bool_decide (TplTenantID x = uuid (TplTenantID t)) && bool_decide (TplID x = uuid (TplID t))) in
    let set x := mkTemplate (TplID x) (TplTenantID x) (TplName t) (TplDescription t) (records_of t) (TplCreatedAt x) (timestamptz (TplUpdatedAt t)) in
    let updated := rows p (templates d) in
    if negb (forallb (λ x, template_check (set x)) updated) then failing "23514" d
    else if existsb (λ x, any_value (λ y, negb (bool_decide (TplID y = TplID x)) && same_name (set x) y) (templates d)) updated then failing "23505" d
    else (first_row (map set updated), set_templates (update_rows p set (templates d)) d)).
Definition UpdateTemplate (t : Template) : M Sql (res Template) :=
  if negb (isUUID (TplID t)) then mret NotFound
  else
    n ← orNow (TplUpdatedAt t);
    tenant (TplTenantID t) (λ ss, stmt (update_template_stmt ss
      (mkTemplate (TplID t) (TplTenantID t) (TplName t) (TplDescription t) (TplRecords t) (TplCreatedAt t) n))).
Definition DeleteTemplate (tenantID id : str) : M Sql (res unit) :=
  if negb (isUUID id) then mret NotFound
  else tenant tenantID (λ ss, affected (with_params [PUuid tenantID; PUuid id] (λ d,
    let p x := rls ss (TplTenantID x) && (bool_decide (TplTenantID x = uuid tenantID) && bool_decide (TplID x = uuid id)) in
    (inr (length (rows p (templates d))), set_templates (delete_rows p (templates d)) d)))).
(** In byte order of the lower-case names, then of the ids. *)
Definition lower_ltb (x y : Template) : bool :=
  let a := pg_lower (TplName x) in let b := pg_lower (TplName y) in
  if negb (bool_decide (a = b)) then str_ltb a b else str_ltb (TplID x) (TplID y).
Definition AllTemplates (tenantID : str) : M Sql (res (list Template)) :=
  tenant tenantID (λ ss, stmt (with_params [PUuid tenantID] (λ d,
    (inr (sort_by lower_ltb (rows (λ t, rls ss (TplTenantID t) && bool_decide (TplTenantID t = uuid tenantID)) (templates d))), d)))).

(** ** Supermasters *)

Definition supermaster_check (s : Supermaster) : bool := bool_decide (SmNameserver s = pg_lower (SmNameserver s)) && like "%_." (SmNameserver s).
(** An inet column holds the text of its address; [host] prints it. *)
Definition host (s : str) : str := match Netip.ParseAddr s with Some a => inet_host a | None => s end.
Definition sm_row (s : Supermaster) : Supermaster := mkSupermaster (SmID s) (SmTenantID s) (host (SmIP s)) (SmNameserver s) (SmCreatedBy s) (SmCreatedAt s).
Definition insert_supermaster (ss : Session) (s : Supermaster) : DB → (dberr + unit) * DB :=
  with_params [PUuid (SmID s); PUuid (SmTenantID s); PInet (SmIP s); PText (SmNameserver s); PText (SmCreatedBy s)] (λ d,
    let row := mkSupermaster (uuid (SmID s)) (uuid (SmTenantID s)) (SmIP s) (SmNameserver s) (SmCreatedBy s) (timestamptz (SmCreatedAt s)) in
    if negb (rls ss (SmTenantID row)) then failing "42501" d
    else if negb (supermaster_check row) then failing "23514" d
    else if any_value (λ x, bool_decide (SmID x = SmID row) || bool_decide (SmIP x = SmIP row ∧ SmNameserver x = SmNameserver row)) (supermasters d) then failing "23505" d
    else (inr (), set_supermasters (<[SmID row := row]> (supermasters d)) d)).
Definition CreateSupermaster (s : Supermaster) : M Sql (res unit) :=
  let ip := canonIP (SmIP s) in
  if bool_decide (ip = []) then mret Conflict
  else
    t ← orNow (SmCreatedAt s);
    tenant (SmTenantID s) (λ ss, stmt (insert_supermaster ss (mkSupermaster (SmID s) (SmTenantID s) ip (SmNameserver s) (SmCreatedBy s) t))).
Definition GetSupermaster (tenantID id : str) : M Sql (res Supermaster) :=
  if negb (isUUID id) then mret NotFound
  else tenant tenantID (λ ss, stmt (with_params [PUuid tenantID; PUuid id] (λ d,
    (first_row (map sm_row (rows (λ s, rls ss (SmTenantID s) && (bool_decide (SmTenantID s = uuid tenantID) && bool_decide (SmID s = uuid id))) (supermasters d))), d)))).
Definition DeleteSupermaster (tenantID id : str) : M Sql (res unit) :=
  if negb (isUUID id) then mret NotFound
  else tenant tenantID (λ ss, affected (with_params [PUuid tenantID; PUuid id] (λ d,
    let p x := rls ss (SmTenantID x) && (bool_decide (SmTenantID x = uuid tenantID) && bool_decide (SmID x = uuid id)) in
    (inr (length (rows p (supermasters d))), set_supermasters (delete_rows p (supermasters d)) d)))).
(** In the order of the inet type, which for hosts is by family and number, then in
    byte order of the nameservers. *)
Definition AllSupermasters (tenantID : str) : M Sql (res (list Supermaster)) :=
  tenant tenantID (λ ss, stmt (with_params [PUuid tenantID] (λ d,
    (inr (map sm_row (sort_by supermaster_ltb (rows (λ s, rls ss (SmTenantID s) && bool_decide (SmTenantID s = uuid tenantID)) (supermasters d)))), d)))).

(** ** Server configuration *)

Definition GetServerConfig : M Sql (res ServerConfig) :=
  system (λ _, stmt (λ d, (match config d with Some c => inr c | None => inl ErrNoRows end, d))).
Definition SaveServerConfig (c : ServerConfig) : M Sql (res unit) :=
  t ← orNow (ScUpdatedAt c);
  let r := jsonb_in (jsonOr (ScRecursor c)) in
  let a := jsonb_in (jsonOr (ScAuthoritative c)) in
  system (λ _, stmt (with_params [PJson (json_ok r) "22P02"; PJson (json_ok a) "22P02"; PText (ScUpdatedBy c)] (λ d,
    let '(rh, ah) := match config d with Some o => (ScRecursorHash o, ScAuthHash o) | None => ([], []) end in
    (inr (), set_config (Some (mkServerConfig (default [] r) (default [] a) rh ah (ScUpdatedBy c) (timestamptz t))) d)))).
Definition SetConfigHashes (recursorHash authHash : str) (at_ : time) : M Sql (res unit) :=
  t ← orNow at_;
  system (λ _, stmt (with_params [PText recursorHash; PText authHash] (λ d,
    (inr (), set_config (Some match config d with
       | Some c => mkServerConfig (ScRecursor c) (ScAuthoritative c) recursorHash authHash (ScUpdatedBy c) (ScUpdatedAt c)
       | None => mkServerConfig "{}" "{}" recursorHash authHash [] (timestamptz t)
       end) d)))).

(** ** IPAM sync state *)

Definition is_row (t i : str) (x : IPAMSync) : bool := bool_decide (SyTenantID x = t) && bool_decide (SyIPAddressID x = i).
Definition sync_row (s : IPAMSync) : IPAMSync :=
  mkIPAMSync (SyTenantID s) (SyIPAddressID s) (host (SyAddress s)) (SyHostname s) (SyForwardZoneID s) (SyForwardName s) (SyForwardType s)
    (SyReverseZoneID s) (SyReverseName s) (SyLastEvent s) (SyUpdatedAt s).
Definition GetIPAMSync (tenantID ipAddressID : str) : M Sql (res IPAMSync) :=
  tenant tenantID (λ ss, stmt (with_params [PUuid tenantID; PText ipAddressID] (λ d,
    (first_row (map sync_row (rows (λ x, rls ss (SyTenantID x) && is_row (uuid tenantID) ipAddressID x) (sync d))), d)))).
Definition nullUUID (s : str) : str := if isUUID s then s else [].
Definition null_param (s : str) : list param := if bool_decide (s = []) then [] else [PUuid s].
Definition null_column (s : str) : str := if bool_decide (s = []) then [] else uuid s.
Definition sync_check (s : IPAMSync) : bool :=
  negb (bool_decide (SyIPAddressID s = [])) && (RuneCountInString (SyIPAddressID s) <=? 64) && contains [lit ""; lit "A"; lit "AAAA"] (SyForwardType s)
  && contains [SyncCreated; SyncUpdated; SyncScanned; SyncDeleted; SyncReconciled] (SyLastEvent s).
(** The row of the key is inserted, or updated in every column. *)
Definition upsert_sync (ss : Session) (s : IPAMSync) : DB → (dberr + unit) * DB :=
  with_params ([PUuid (SyTenantID s); PText (SyIPAddressID s); PInet (SyAddress s); PText (SyHostname s)] ++ null_param (SyForwardZoneID s)
    ++ [PText (SyForwardName s); PText (SyForwardType s)] ++ null_param (SyReverseZoneID s) ++ [PText (SyReverseName s); PText (SyLastEvent s)]) (λ d,
    let row := mkIPAMSync (uuid (SyTenantID s)) (SyIPAddressID s) (SyAddress s) (SyHostname s) (null_column (SyForwardZoneID s)) (SyForwardName s) (SyForwardType s)
      (null_column (SyReverseZoneID s)) (SyReverseName s) (SyLastEvent s) (timestamptz (SyUpdatedAt s)) in
    if negb (rls ss (SyTenantID row)) then failing "42501" d
    else if negb (sync_check row) then failing "23514" d
    else (inr (), set_sync (<[syncKey (SyTenantID row) (SyIPAddressID row) := row]> (sync d)) d)).
Definition UpsertIPAMSync (s : IPAMSync) : M Sql (res unit) :=
  let ip := canonIP (SyAddress s) in
  if bool_decide (ip = []) || bool_decide (SyIPAddressID s = []) then mret Conflict
  else
    let event := if bool_decide (SyLastEvent s = []) then SyncCreated else SyLastEvent s in
    t ← orNow (SyUpdatedAt s);
    tenant (SyTenantID s) (λ ss, stmt (upsert_sync ss
      (mkIPAMSync (SyTenantID s) (SyIPAddressID s) ip (SyHostname s) (nullUUID (SyForwardZoneID s)) (SyForwardName s) (SyForwardType s)
         (nullUUID (SyReverseZoneID s)) (SyReverseName s) event t))).
Definition DeleteIPAMSync (tenantID ipAddressID : str) : M Sql (res unit) :=
  tenant tenantID (λ ss, affected (with_params [PUuid tenantID; PText ipAddressID] (λ d,
    let p x := rls ss (SyTenantID x) && is_row (uuid tenantID) ipAddressID x in
    (inr (length (rows p (sync d))), set_sync (delete_rows p (sync d)) d)))).
Definition clear_forward (x : IPAMSync) : IPAMSync :=
  mkIPAMSync (SyTenantID x) (SyIPAddressID x) (SyAddress x) (SyHostname x) [] [] [] (SyReverseZoneID x) (SyReverseName x) (SyLastEvent x) (SyUpdatedAt x).
Definition clear_reverse (x : IPAMSync) : IPAMSync :=
  mkIPAMSync (SyTenantID x) (SyIPAddressID x) (SyAddress x) (SyHostname x) (SyForwardZoneID x) (SyForwardName x) (SyForwardType x) [] [] (SyLastEvent x) (SyUpdatedAt x).
Definition ClearSyncZone (tenantID zoneID : str) : M Sql (res unit) :=
  if negb (isUUID zoneID) then mret (Ok ())
  else tenant tenantID (λ ss,
    r ← stmt (with_params [PUuid tenantID; PUuid zoneID] (λ d,
      (inr (), set_sync (update_rows (λ x, rls ss (SyTenantID x) && (bool_decide (SyTenantID x = uuid tenantID) && bool_decide (SyForwardZoneID x = uuid zoneID)))
                           clear_forward (sync d)) d)));
    match r with
    | Err e => mret (Err e)
    | Ok _ =>
      stmt (with_params [PUuid tenantID; PUuid zoneID] (λ d,
        (inr (), set_sync (update_rows (λ x, rls ss (SyTenantID x) && (bool_decide (SyTenantID x = uuid tenantID) && bool_decide (SyReverseZoneID x = uuid zoneID)))
                             clear_reverse (sync d)) d)))
    end).

(** ** ACME challenges *)

Definition challenge_check (c : Challenge) : bool :=
  bool_decide (ChFQDN c = pg_lower (ChFQDN c)) && like "\_acme-challenge.%" (ChFQDN c) && (1 <=? RuneCountInString (ChValue c)) && (RuneCountInString (ChValue c) <=? 128).
(** The unique keys are checked when the row is inserted, the foreign key after it. *)
Definition insert_challenge_stmt (ss : Session) (c : Challenge) : DB → (dberr + unit) * DB :=
  with_params [PUuid (ChID c); PUuid (ChTenantID c); PUuid (ChZoneID c); PText (ChFQDN c); PText (ChValue c); PText (ChRequestedBy c)] (λ d,
    let row := mkChallenge (uuid (ChID c)) (uuid (ChTenantID c)) (uuid (ChZoneID c)) (ChFQDN c) (ChValue c) (ChRequestedBy c) (timestamptz (ChCreatedAt c)) in
    if negb (rls ss (ChTenantID row)) then failing "42501" d
    else if negb (challenge_check row) then failing "23514" d
    else if any_value (λ x, bool_decide (ChID x = ChID row) || bool_decide (ChTenantID x = ChTenantID row ∧ ChFQDN x = ChFQDN row ∧ ChValue x = ChValue row)) (challenges d)
    then failing "23505" d
    else if negb (any_value (λ z, bool_decide (TenantID z = ChTenantID row ∧ ID z = ChZoneID row)) (zones d)) then failing "23503" d
    else (inr (), set_challenges (<[ChID row := row]> (challenges d)) d)).
Definition InsertChallenge (c : Challenge) : M Sql (res unit) :=
  if negb (isUUID (ChZoneID c)) then mret NotFound
  else
    t ← orNow (ChCreatedAt c);
    tenant (ChTenantID c) (λ ss, stmt (insert_challenge_stmt ss
      (mkChallenge (ChID c) (ChTenantID c) (ChZoneID c) (ChFQDN c) (ChValue c) (ChRequestedBy c) t))).
Definition DeleteChallenge (tenantID fqdn value : str) : M Sql (res unit) :=
  tenant tenantID (λ ss, affected (with_params [PUuid tenantID; PText fqdn; PText value] (λ d,
    let p x := rls ss (ChTenantID x) && bool_decide (ChTenantID x = uuid tenantID ∧ ChFQDN x = fqdn ∧ ChValue x = value) in
    (inr (length (rows p (challenges d))), set_challenges (delete_rows p (challenges d)) d)))).
Definition ChallengesOlderThan (before : time) (limit : Z) : M Sql (res (list Challenge)) :=
  let limit := if limit <=? 0 then 1000 else limit in
  system (λ ss, stmt (λ d,
    (inr (take (Z.to_nat limit) (sort_by challenge_ltb (rows (λ c, rls ss (ChTenantID c) && (ChCreatedAt c <? timestamptz before)) (challenges d)))), d))).

(** ** Backup and audit *)

Definition TenantIDs : M Sql (res (list str)) :=
  system (λ ss, stmt (λ d,
    (inr (sort_by text_ltb (remove_dups (map TenantID (rows (λ z, rls ss (TenantID z)) (zones d)) ++ map TplTenantID (rows (λ t, rls ss (TplTenantID t)) (templates d))
                                          ++ map SmTenantID (rows (λ s, rls ss (SmTenantID s)) (supermasters d))))), d))).
Definition AppendAudit (row : AuditRow) : M Sql (res unit) :=
  let tid := if bool_decide (ArTenantID row = []) then NilTenant else ArTenantID row in
  t ← orNow (ArAt row);
  let detail := if bool_decide (ArDetail row = []) then Some [] else jsonb_detail (ArDetail row) in
  system (λ _, stmt (with_params [PUuid (ArID row); PUuid tid; PText (ArActorKind row); PText (ArActorID row); PText (ArAction row); PText (ArSubjectKind row);
      PText (ArSubjectID row); PText (ArOutcome row); PText (ArReason row); PJson (json_ok detail) "22P05"]
    (λ d, (inr (), (append_audit (mkAuditRow (uuid (ArID row)) (uuid tid) (timestamptz t) (ArActorKind row) (ArActorID row) (ArAction row) (ArSubjectKind row) (ArSubjectID row)
       (ArOutcome row) (ArReason row) (default [] detail)) d).2)))).

(** ** Lists *)

(** [likePattern]. *)
Definition escape_byte (c : ascii) : str := if bool_decide (c ∈ lit "\%_") then ["\"%char; c] else [c].
Definition likePattern (q : str) : str := "%" ++ concat (map escape_byte (ToLower (TrimSpace q))) ++ "%".

(** The SQL side of [listquery]: the page's bounds, and the rows in the order of the
    clause that [OrderBy] gives for the list. *)
Class ListSQL {LQ : ListQuery} := {
  Clamp : MemStore.Request → Z → MemStore.Request;
  Limit : MemStore.Request → Z;
  Offset : MemStore.Request → Z;
  Ordered : ∀ {A}, Lists.Spec → MemStore.Request → list A → list A
}.
Context {LQ : ListQuery} {LS : ListSQL}.
Definition list_rows {A} (spec : Lists.Spec) (tenantID : str) (ps : list param) (where_ : Session → DB → list A) (req : MemStore.Request)
    : M Sql (res (list A * Z * MemStore.Request)) :=
  tenant tenantID (λ ss,
    n ← stmt (with_params (PUuid tenantID :: ps) (λ d, (inr (Z.of_nat (length (where_ ss d))), d)));
    match n with
    | Err e => mret (Err e)
    | Ok total =>
      let req := Clamp req total in
      l ← stmt (with_params (PUuid tenantID :: ps) (λ d, (inr (take (Z.to_nat (Limit req)) (drop (Z.to_nat (Offset req)) (Ordered spec req (where_ ss d)))), d)));
      mret match l with Err e => Err e | Ok items => Ok (items, total, req) end
    end).
Definition zone_filter (f : ZoneFilter) (q : str) (z : Zone) : bool :=
  (bool_decide (FKind f = []) || bool_decide (Kind z = FKind f)) && (bool_decide (FOrigin f = []) || bool_decide (Origin z = FOrigin f))
  && (bool_decide (q = []) || like q (Name z)).
Definition ListZones (tenantID : str) (f : ZoneFilter) (req : MemStore.Request) : M Sql (res (list Zone * Z * MemStore.Request)) :=
  let q := if bool_decide (TrimSpace (FQuery f) = []) then [] else likePattern (FQuery f) in
  list_rows Lists.ZoneList tenantID [PText (FKind f); PText (FOrigin f); PText q]
    (λ ss d, rows (λ z, rls ss (TenantID z) && (bool_decide (TenantID z = uuid tenantID) && zone_filter f q z)) (zones d)) req.
Definition ListTemplates (tenantID : str) (req : MemStore.Request) : M Sql (res (list Template * Z * MemStore.Request)) :=
  list_rows Lists.TemplateList tenantID []
    (λ ss d, rows (λ t, rls ss (TplTenantID t) && bool_decide (TplTenantID t = uuid tenantID)) (templates d)) req.
Definition ListSupermasters (tenantID : str) (req : MemStore.Request) : M Sql (res (list Supermaster * Z * MemStore.Request)) :=
  list_rows Lists.SupermasterList tenantID []
    (λ ss d, map sm_row (rows (λ s, rls ss (SmTenantID s) && bool_decide (SmTenantID s = uuid tenantID)) (supermasters d))) req.
End Store.
End SqlStore.
