(* ===== verification/SqlSpec.v ===== *)
(** * The SQL store refines the store interface

    On well-formed tables every method of [SqlStore] either fails for a reason of
    its own and leaves the tables as they were, or refuses an id that is no UUID, or
    answers and changes exactly what the function of [MemStore] does for the
    normalised arguments (UUIDs in lower case, instants in microseconds, JSON as the
    column prints it); and the tables stay well-formed.  Row-level security never
    hides a row a method is meant to see, and the search pattern matches literally. *)
From Stdlib Require Import Ascii.
From S2P Require Import Prelude GoStrings GoError Store Netip MemStore World SqlStore.
Local Open Scope Z_scope.

Module SqlSpec.
Import Store MemStore SqlStore.

(** ** The search pattern *)

Lemma like_any p s : like ("%"%char :: p) s = true ↔ ∃ k t, s = k ++ t ∧ like p t = true.
Proof.
  assert (E : ∀ s, like ("%"%char :: p) s = like p s || match s with [] => false | _ :: t => like ("%"%char :: p) t end) by (by intros []).
  induction s as [|c s IH]; rewrite E.
  - rewrite orb_false_r. split; [intros H; by exists [], []|]. by intros (k & t & [_ ->]%eq_sym%app_eq_nil & H).
  - rewrite orb_true_iff, IH. split.
    + intros [H|(k & t & -> & H)]; [by exists [], (c :: s)|by exists (c :: k), t].
    + intros ([|c' k] & t & Hs & H); [left; by rewrite Hs|right]. injection Hs as -> ->. by exists k, t.
Qed.
Lemma like_escaped c p s : like (escape_byte c ++ p) s = true ↔ ∃ t, s = c :: t ∧ like p t = true.
Proof.
  unfold escape_byte. case_bool_decide as Hc; cbn [app].
  - destruct s as [|x s]; [split; [done|naive_solver]|]. cbn [like]. do 2 (rewrite bool_decide_eq_false_2 by done).
    rewrite (bool_decide_eq_true_2 ("\"%char = "\"%char)) by done. rewrite andb_true_iff, bool_decide_eq_true. naive_solver.
  - assert (c ≠ "%"%char ∧ c ≠ "_"%char ∧ c ≠ "\"%char) as (H1 & H2 & H3) by (split_and!; intros ->; apply Hc; apply (bool_decide_unpack _); vm_compute; exact I).
    destruct s as [|x s]; cbn [like]; rewrite (bool_decide_eq_false_2 (c = "%"%char)), (bool_decide_eq_false_2 (c = "_"%char)), (bool_decide_eq_false_2 (c = "\"%char)) by done;
      [split; [done|naive_solver]|]. rewrite andb_true_iff, bool_decide_eq_true. naive_solver.
Qed.
Lemma like_literal q p s : like (concat (map escape_byte q) ++ p) s = true ↔ ∃ t, s = q ++ t ∧ like p t = true.
Proof.
  revert s. induction q as [|c q IH]; intros s; cbn [map concat]; [naive_solver|]. rewrite <- app_assoc, like_escaped. setoid_rewrite IH. naive_solver.
Qed.
Lemma like_all s : like "%" s = true.
Proof. apply like_any. exists s, []. by rewrite app_nil_r. Qed.

Section Spec.
Context {U : Unicode} {PG : Postgres} {LAWS : PostgresLaws}.

Lemma likePattern_spec q s : like (likePattern q) s = Contains s (ToLower (TrimSpace q)).
Proof.
  apply eq_true_iff_eq. unfold likePattern. change (lit "%") with ["%"%char]. cbn [app]. rewrite like_any, Contains_spec. setoid_rewrite like_literal. split.
  - intros (k & t & -> & t' & -> & _). by exists k, t'.
  - intros (k1 & k2 & ->). exists k1, (ToLower (TrimSpace q) ++ k2). split; [done|]. exists k2. split; [done|]. apply like_all.
Qed.
(** The WHERE clause of the zone list is the filter. *)
Lemma zone_filter_Matches f z : zone_filter f (if bool_decide (TrimSpace (FQuery f) = []) then [] else likePattern (FQuery f)) z = Matches f z.
Proof.
  assert (Hq : (bool_decide ((if bool_decide (TrimSpace (FQuery f) = []) then [] else likePattern (FQuery f)) = []) ||
    like (if bool_decide (TrimSpace (FQuery f) = []) then [] else likePattern (FQuery f)) (Name z)) = bool_decide (ToLower (TrimSpace (FQuery f)) = []) || Contains (Name z) (ToLower (TrimSpace (FQuery f)))).
  { destruct (decide (TrimSpace (FQuery f) = [])) as [Eq|Eq]; [by rewrite Eq|]. rewrite (bool_decide_eq_false_2 (TrimSpace _ = [])) by done.
    rewrite (bool_decide_eq_false_2 (likePattern _ = [])) by (unfold likePattern; destruct (concat _); discriminate). cbn [orb]. rewrite likePattern_spec.
    case_bool_decide as El; [|done]. rewrite El. by destruct (Name z). }
  unfold zone_filter. rewrite Hq. unfold Matches. cbv zeta.
  by destruct (bool_decide (FKind f = [])), (bool_decide (Kind z = FKind f)), (bool_decide (FOrigin f = [])), (bool_decide (Origin z = FOrigin f)), (bool_decide (ToLower _ = [])), (Contains _ _).
Qed.

(** ** Transactions *)

Definition faults_ok (s : Sql) : Prop := Forall (λ o, match o with Some e => fault e | None => True end) (outcomes s).
Definition failed {A} (s : Sql) (r : res A) (s' : Sql) : Prop := ∃ e, r = Err e ∧ fault e ∧ tables s' = tables s.

Lemma driver_run {A} (f : DB → (dberr + A) * DB) s r s' : faults_ok s → driver f s = (r, s') →
  faults_ok s' ∧ ((∃ e, r = inl (DriverError e) ∧ fault e ∧ tables s' = tables s) ∨ f (tables s) = (r, tables s')).
Proof.
  unfold driver, faults_ok. destruct (outcomes s) as [|[e|] os] eqn:Eo; intros Hf.
  - destruct (f (tables s)) as [x d]. intros [= <- <-]. split; [by constructor|by right].
  - apply Forall_cons in Hf as [He Hf]. intros [= <- <-]. split; [done|]. left. by exists e.
  - apply Forall_cons in Hf as [_ Hf]. destruct (f (tables s)) as [x d]. intros [= <- <-]. split; [done|by right].
Qed.
(** A call of the driver that sets up the session or ends the transaction. *)
Definition idle (m : M Sql (dberr + unit)) : Prop := ∀ s x s1, faults_ok s → m s = (x, s1) →
  faults_ok s1 ∧ tables s1 = tables s ∧ (x = inr () ∨ ∃ e, x = inl (DriverError e) ∧ fault e).
Lemma idle_nothing : idle nothing.
Proof. intros s x s1 Hf H. apply driver_run in H as [H1 [(e & -> & He & Ht)|[= <- <-]]]; [| |done]; split_and!; try done; [right; by exists e|by left]. Qed.
Lemma idle_if (b : bool) : idle (if b then mret (inr ()) else nothing).
Proof. destruct b; [|apply idle_nothing]. intros s x s1 Hf [= <- <-]. auto. Qed.
Lemma idle_if' (b : bool) : idle (if b then nothing else mret (inr ())).
Proof. destruct b; [apply idle_nothing|]. intros s x s1 Hf [= <- <-]. auto. Qed.
(** Going on after such a call, or rolling back. *)
Lemma idle_bind {A} m (d : DB) (k : M Sql (res A)) s r s' : idle m → faults_ok s → tables s = d →
  (x ← m; match x with inl e => rollback d (raw e) | inr _ => k end) s = (r, s') →
  (∃ e, r = Err e ∧ fault e ∧ tables s' = d ∧ faults_ok s') ∨ ∃ s1, faults_ok s1 ∧ tables s1 = d ∧ k s1 = (r, s').
Proof.
  intros Hm Hf <- H. unfold mbind, M_bind in H. destruct (m s) as [x s1] eqn:E. apply Hm in E as (Hf1 & Ht & [->|(e & -> & He)]); [| |done].
  - right. by exists s1.
  - injection H as <- <-. left. by exists e.
Qed.
Lemma Tx_run {A} sc (fn : Session → M Sql (res A)) s r s' : faults_ok s → Tx sc fn s = (r, s') →
  (failed s r s' ∧ faults_ok s') ∨ ∃ s1 r1 s2, faults_ok s1 ∧ tables s1 = tables s ∧ fn (session sc) s1 = (r1, s2) ∧
    (faults_ok s2 → faults_ok s' ∧ match r1 with Err e => r = Err e ∧ tables s' = tables s | Ok a => failed s r s' ∨ r = Ok a ∧ tables s' = tables s2 end).
Proof.
  intros Hf H. unfold Tx in H.
  apply idle_bind in H as [(e & -> & He & Ht & Hf')|(s1 & Hf1 & Ht1 & H)]; [left; split; [by exists e|done]| |apply idle_nothing|done|done].
  apply idle_bind in H as [(e & -> & He & Ht & Hf')|(s2 & Hf2 & Ht2 & H)]; [left; split; [by exists e|done]| |apply idle_if|done|done].
  apply idle_bind in H as [(e & -> & He & Ht & Hf')|(s3 & Hf3 & Ht3 & H)]; [left; split; [by exists e|done]| |apply idle_if'|done|done].
  apply idle_bind in H as [(e & -> & He & Ht & Hf')|(s4 & Hf4 & Ht4 & H)]; [left; split; [by exists e|done]| |apply idle_if'|done|done].
  unfold mbind at 1, M_bind at 1 in H. destruct (fn (session sc) s4) as [r1 s5] eqn:E. right. exists s4, r1, s5. split_and!; [done..|]. intros Hf5.
  destruct r1 as [a|e]; [|injection H as <- <-; done].
  unfold mbind, M_bind in H. destruct (nothing s5) as [x s6] eqn:E6. apply idle_nothing in E6 as (Hf6 & Ht6 & Hx); [|done].
  destruct Hx as [->|(e & -> & He)]; injection H as <- <-; split; try done; [by right|left]. by exists e.
Qed.

(** One statement in a tenant's transaction, or in the system's. *)
Definition answer {A} (x : dberr + A) (y : res A) : Prop := match x with inl e => y = Err (mapErr e) | inr a => y = Ok a end.
Definition committed {A} (x : (dberr + A) * DB) (s : Sql) (y : res A) (s' : Sql) : Prop :=
  answer x.1 y ∧ tables s' = match x.1 with inl _ => tables s | inr _ => x.2 end.
Lemma stmt_run {A} (f : DB → (dberr + A) * DB) s r s' : faults_ok s → stmt f s = (r, s') →
  faults_ok s' ∧ ((∃ e, r = Err e ∧ fault e ∧ tables s' = tables s) ∨ answer (f (tables s)).1 r ∧ tables s' = (f (tables s)).2).
Proof.
  intros Hf H. unfold stmt, mbind, M_bind in H. destruct (driver f s) as [x s1] eqn:E. apply driver_run in E as [Hf1 E]; [|done]. injection H as <- <-. split; [done|].
  destruct E as [(e & -> & He & Ht)|E]; [left; by exists e|right]. rewrite E. by destruct x.
Qed.
Lemma Tx_stmt {A} sc fn (f : Session → DB → (dberr + A) * DB) s r s' : (∀ ss s, fn ss s = stmt (f ss) s) → faults_ok s → Tx sc fn s = (r, s') →
  faults_ok s' ∧ (failed s r s' ∨ committed (f (session sc) (tables s)) s r s').
Proof.
  intros Hfn Hf H. apply Tx_run in H as [[H Hf']|(s1 & r1 & s2 & Hf1 & Ht1 & E & H)]; [by split; [|left]| |done].
  rewrite Hfn in E. apply stmt_run in E as [Hf2 E]; [|done]. destruct (H Hf2) as [Hf' H']. split; [done|].
  destruct E as [(e & -> & He & Ht)|[Ha Ht]]; [left; destruct H' as [-> ?]; by exists e|]. rewrite Ht1 in Ha, Ht. unfold committed.
  destruct (f (session sc) (tables s)) as [[e|a] d]; cbn [fst snd answer] in *; subst r1.
  - right. destruct H' as [-> ?]. done.
  - destruct H' as [?|[-> ->]]; [by left|right]. by rewrite Ht.
Qed.

Definition counted (x : dberr + nat) : dberr + unit := match x with inl e => inl e | inr n => if bool_decide (n = 0%nat) then inl ErrNoRows else inr () end.
Lemma affected_stmt f s : affected f s = stmt (λ d, (counted (f d).1, (f d).2)) s.
Proof.
  unfold affected, stmt, driver, mbind, M_bind. destruct (outcomes s) as [|[e|] os]; try done; destruct (f (tables s)) as [[e|n] d]; cbn; try done; by case_bool_decide.
Qed.

(** ** The operations *)

Inductive op : Type → Type :=
  | OCreateZone (z : Zone) : op unit | OGetZone (t i : str) : op Zone | OGetZoneByName (t n : str) : op Zone | OUpdateZone (z : Zone) : op Zone
  | ODeleteZone (t i : str) : op unit | OZoneConflict (t n : str) : op bool | OAllZoneNames : op (list str) | OZonesForTenant (t : str) : op (list Zone)
  | OCreateTemplate (t : Template) : op unit | OGetTemplate (t i : str) : op Template | OUpdateTemplate (t : Template) : op Template | ODeleteTemplate (t i : str) : op unit
  | OAllTemplates (t : str) : op (list Template)
  | OCreateSupermaster (s : Supermaster) : op unit | OGetSupermaster (t i : str) : op Supermaster | ODeleteSupermaster (t i : str) : op unit
  | OAllSupermasters (t : str) : op (list Supermaster)
  | OGetServerConfig : op ServerConfig | OSaveServerConfig (c : ServerConfig) : op unit | OSetConfigHashes (r a : str) (t : time) : op unit
  | OGetIPAMSync (t i : str) : op IPAMSync | OUpsertIPAMSync (s : IPAMSync) : op unit | ODeleteIPAMSync (t i : str) : op unit | OClearSyncZone (t z : str) : op unit
  | OInsertChallenge (c : Challenge) : op unit | ODeleteChallenge (t f v : str) : op unit | OChallengesOlderThan (before : time) (limit : Z) : op (list Challenge)
  | OTenantIDs : op (list str) | OAppendAudit (row : AuditRow) : op unit.

Definition sql {A} (o : op A) : M Sql (res A) :=
  match o in op A return M Sql (res A) with
  | OCreateZone z => CreateZone z | OGetZone t i => GetZone t i | OGetZoneByName t n => GetZoneByName t n | OUpdateZone z => UpdateZone z
  | ODeleteZone t i => DeleteZone t i | OZoneConflict t n => ZoneConflict t n | OAllZoneNames => AllZoneNames | OZonesForTenant t => ZonesForTenant t
  | OCreateTemplate t => CreateTemplate t | OGetTemplate t i => GetTemplate t i | OUpdateTemplate t => UpdateTemplate t | ODeleteTemplate t i => DeleteTemplate t i
  | OAllTemplates t => AllTemplates t
  | OCreateSupermaster s => CreateSupermaster s | OGetSupermaster t i => GetSupermaster t i | ODeleteSupermaster t i => DeleteSupermaster t i | OAllSupermasters t => AllSupermasters t
  | OGetServerConfig => GetServerConfig | OSaveServerConfig c => SaveServerConfig c | OSetConfigHashes r a t => SetConfigHashes r a t
  | OGetIPAMSync t i => GetIPAMSync t i | OUpsertIPAMSync s => UpsertIPAMSync s | ODeleteIPAMSync t i => DeleteIPAMSync t i | OClearSyncZone t z => ClearSyncZone t z
  | OInsertChallenge c => InsertChallenge c | ODeleteChallenge t f v => DeleteChallenge t f v | OChallengesOlderThan b l => ChallengesOlderThan b l
  | OTenantIDs => TenantIDs | OAppendAudit row => AppendAudit row
  end.
(** The function of [MemStore] for each. *)
Definition mem {A} (o : op A) : DB → res A * DB :=
  match o in op A return DB → res A * DB with
  | OCreateZone z => create_zone z | OGetZone t i => reading (zone t i) | OGetZoneByName t n => reading (get_zone_by_name t n) | OUpdateZone z => update_zone z
  | ODeleteZone t i => delete_zone t i | OZoneConflict t n => reading (λ d, Ok (zone_conflict t n d)) | OAllZoneNames => reading (λ d, Ok (all_zone_names d))
  | OZonesForTenant t => reading (λ d, Ok (tenantZones t d))
  | OCreateTemplate t => create_template t | OGetTemplate t i => reading (template t i) | OUpdateTemplate t => update_template t | ODeleteTemplate t i => delete_template t i
  | OAllTemplates t => reading (λ d, Ok (tenantTemplates t d))
  | OCreateSupermaster s => create_supermaster s | OGetSupermaster t i => reading (supermaster t i) | ODeleteSupermaster t i => delete_supermaster t i
  | OAllSupermasters t => reading (λ d, Ok (tenantSupermasters t d))
  | OGetServerConfig => reading get_server_config | OSaveServerConfig c => save_server_config c | OSetConfigHashes r a t => set_config_hashes r a t
  | OGetIPAMSync t i => reading (get_ipam_sync t i) | OUpsertIPAMSync s => upsert_ipam_sync s | ODeleteIPAMSync t i => delete_ipam_sync t i | OClearSyncZone t z => clear_sync_zone t z
  | OInsertChallenge c => insert_challenge c | ODeleteChallenge t f v => delete_challenge t f v | OChallengesOlderThan b l => reading (λ d, Ok (challenges_older_than b l d))
  | OTenantIDs => reading (λ d, Ok (tenant_ids d)) | OAppendAudit row => append_audit row
  end.

(** The arguments as the columns hold them, with the clock for a zero instant. *)
Definition instant (t now : time) : time := timestamptz (MemStore.orNow t now).
Definition norm {A} (now : time) (o : op A) : op A :=
  match o in op A return op A with
  | OCreateZone z =>
    OCreateZone (mkZone (uuid (ID z)) (uuid (TenantID z)) (Name z) (PDNSID z) (Kind z) (Masters z) (DNSSEC z) (Description z)
      (null_column (nullUUID (TemplateID z))) (Origin z) (Nameservers z) (CreatedBy z) (instant (CreatedAt z) now) (instant (UpdatedAt z) (MemStore.orNow (CreatedAt z) now)))
  | OGetZone t i => OGetZone (uuid t) (uuid i) | OGetZoneByName t n => OGetZoneByName (uuid t) n
  | OUpdateZone z =>
    OUpdateZone (mkZone (uuid (ID z)) (uuid (TenantID z)) (Name z) (PDNSID z) (Kind z) (Masters z) (DNSSEC z) (Description z) (TemplateID z) (Origin z) (Nameservers z)
      (CreatedBy z) (CreatedAt z) (instant (UpdatedAt z) now))
  | ODeleteZone t i => ODeleteZone (uuid t) (uuid i) | OZoneConflict t n => OZoneConflict (uuid t) n | OAllZoneNames => OAllZoneNames
  | OZonesForTenant t => OZonesForTenant (uuid t)
  | OCreateTemplate t =>
    OCreateTemplate (mkTemplate (uuid (TplID t)) (uuid (TplTenantID t)) (TplName t) (TplDescription t) (records_of t) (instant (TplCreatedAt t) now)
      (instant (TplUpdatedAt t) (MemStore.orNow (TplCreatedAt t) now)))
  | OGetTemplate t i => OGetTemplate (uuid t) (uuid i)
  | OUpdateTemplate t =>
    OUpdateTemplate (mkTemplate (uuid (TplID t)) (uuid (TplTenantID t)) (TplName t) (TplDescription t) (records_of t) (TplCreatedAt t) (instant (TplUpdatedAt t) now))
  | ODeleteTemplate t i => ODeleteTemplate (uuid t) (uuid i) | OAllTemplates t => OAllTemplates (uuid t)
  | OCreateSupermaster s =>
    OCreateSupermaster (mkSupermaster (uuid (SmID s)) (uuid (SmTenantID s)) (SmIP s) (SmNameserver s) (SmCreatedBy s) (instant (SmCreatedAt s) now))
  | OGetSupermaster t i => OGetSupermaster (uuid t) (uuid i) | ODeleteSupermaster t i => ODeleteSupermaster (uuid t) (uuid i) | OAllSupermasters t => OAllSupermasters (uuid t)
  | OGetServerConfig => OGetServerConfig
  | OSaveServerConfig c =>
    OSaveServerConfig (mkServerConfig (default [] (jsonb_in (jsonOr (ScRecursor c)))) (default [] (jsonb_in (jsonOr (ScAuthoritative c)))) (ScRecursorHash c) (ScAuthHash c)
      (ScUpdatedBy c) (instant (ScUpdatedAt c) now))
  | OSetConfigHashes r a t => OSetConfigHashes r a (instant t now)
  | OGetIPAMSync t i => OGetIPAMSync (uuid t) i
  | OUpsertIPAMSync s =>
    OUpsertIPAMSync (mkIPAMSync (uuid (SyTenantID s)) (SyIPAddressID s) (SyAddress s) (SyHostname s) (null_column (nullUUID (SyForwardZoneID s))) (SyForwardName s)
      (SyForwardType s) (null_column (nullUUID (SyReverseZoneID s))) (SyReverseName s) (SyLastEvent s) (instant (SyUpdatedAt s) now))
  | ODeleteIPAMSync t i => ODeleteIPAMSync (uuid t) i
  | OClearSyncZone t z => OClearSyncZone (uuid t) (if isUUID z then uuid z else z)
  | OInsertChallenge c =>
    OInsertChallenge (mkChallenge (uuid (ChID c)) (uuid (ChTenantID c)) (uuid (ChZoneID c)) (ChFQDN c) (ChValue c) (ChRequestedBy c) (instant (ChCreatedAt c) now))
  | ODeleteChallenge t f v => ODeleteChallenge (uuid t) f v | OChallengesOlderThan b l => OChallengesOlderThan (timestamptz b) l | OTenantIDs => OTenantIDs
  | OAppendAudit row =>
    OAppendAudit (mkAuditRow (uuid (ArID row)) (uuid (if bool_decide (ArTenantID row = []) then NilTenant else ArTenantID row)) (instant (ArAt row) now) (ArActorKind row)
      (ArActorID row) (ArAction row) (ArSubjectKind row) (ArSubjectID row) (ArOutcome row) (ArReason row)
      (default [] (if bool_decide (ArDetail row = []) then Some [] else jsonb_detail (ArDetail row))))
  end.

(** ** Well-formed tables and arguments *)

(** Tenants are UUIDs, names ASCII, addresses those PostgreSQL prints as Go does. *)
Record sql_ok (d : DB) : Prop := {
  ok_wf : db_wf d;
  ok_challenges : map_Forall (λ k c, ChID c = k) (challenges d);
  ok_zones : map_Forall (λ _ z, isUUID (TenantID z) = true ∧ isASCII (Name z) = true) (zones d);
  ok_templates : map_Forall (λ _ t, isUUID (TplTenantID t) = true ∧ isASCII (TplName t) = true) (templates d);
  ok_supermasters : map_Forall (λ _ s, isUUID (SmTenantID s) = true ∧ host (SmIP s) = SmIP s) (supermasters d);
  ok_sync : map_Forall (λ _ x, isUUID (SyTenantID x) = true ∧ host (SyAddress x) = SyAddress x ∧ (SyForwardZoneID x = [] ∨ isUUID (SyForwardZoneID x) = true) ∧
                               (SyReverseZoneID x = [] ∨ isUUID (SyReverseZoneID x) = true)) (sync d);
  ok_config : ∀ c, config d = Some c → ScRecursor c ≠ [] ∧ ScAuthoritative c ≠ []
}.

(** A parameter PostgreSQL cannot read as its type. *)
Definition bad (p : param) : bool := match bind_one p with Some (PgError c) => bool_decide (c = "22P02") | _ => false end.
Definition malformed {A} (o : op A) : bool :=
  match o with
  | OCreateZone z => negb (isUUID (TenantID z)) || bad (PUuid (ID z))
  | OGetZone t i | ODeleteZone t i | OGetTemplate t i | ODeleteTemplate t i | OGetSupermaster t i | ODeleteSupermaster t i => negb (isUUID t) || negb (isUUID i)
  | OGetZoneByName t _ | OZoneConflict t _ | OZonesForTenant t | OAllTemplates t | OAllSupermasters t | OGetIPAMSync t _ | ODeleteIPAMSync t _
  | OClearSyncZone t _ | ODeleteChallenge t _ _ => negb (isUUID t)
  | OUpdateZone z => negb (isUUID (TenantID z)) || negb (isUUID (ID z))
  | OCreateTemplate t => negb (isUUID (TplTenantID t)) || bad (PUuid (TplID t))
  | OUpdateTemplate t => negb (isUUID (TplTenantID t)) || negb (isUUID (TplID t))
  | OCreateSupermaster s => negb (isUUID (SmTenantID s)) || bad (PUuid (SmID s)) || bad (PInet (canonIP (SmIP s)))
  | OSaveServerConfig c => negb (json_ok (jsonb_in (jsonOr (ScRecursor c)))) || negb (json_ok (jsonb_in (jsonOr (ScAuthoritative c))))
  | OUpsertIPAMSync s => negb (isUUID (SyTenantID s)) || bad (PInet (canonIP (SyAddress s)))
  | OInsertChallenge c => negb (isUUID (ChTenantID c)) || negb (isUUID (ChZoneID c)) || bad (PUuid (ChID c))
  | OAppendAudit row => bad (PUuid (ArID row)) || bad (PUuid (if bool_decide (ArTenantID row = []) then NilTenant else ArTenantID row))
  | _ => false
  end.
(** Where the two stores are meant to agree: no instant that the column rounds to the
    zero one, ASCII names, an address printed alike; the zone whose references are
    cleared is named; a challenge is not both a duplicate and without a zone; a
    positive limit. *)
Definition proper {A} (o : op A) (d : DB) : Prop :=
  match o with
  | OCreateZone z => instant (CreatedAt z) (Now d) ≠ 0 ∧ instant (UpdatedAt z) (MemStore.orNow (CreatedAt z) (Now d)) ≠ 0 ∧ isASCII (Name z) = true
  | OUpdateZone z => instant (UpdatedAt z) (Now d) ≠ 0
  | OZoneConflict _ n => isASCII n = true
  | OCreateTemplate t => instant (TplCreatedAt t) (Now d) ≠ 0 ∧ instant (TplUpdatedAt t) (MemStore.orNow (TplCreatedAt t) (Now d)) ≠ 0 ∧ isASCII (TplName t) = true
  | OUpdateTemplate t => instant (TplUpdatedAt t) (Now d) ≠ 0 ∧ isASCII (TplName t) = true
  | OCreateSupermaster s => instant (SmCreatedAt s) (Now d) ≠ 0 ∧ host (canonIP (SmIP s)) = canonIP (SmIP s)
  | OSaveServerConfig c => instant (ScUpdatedAt c) (Now d) ≠ 0
  | OSetConfigHashes _ _ t => instant t (Now d) ≠ 0
  | OUpsertIPAMSync s => instant (SyUpdatedAt s) (Now d) ≠ 0 ∧ host (canonIP (SyAddress s)) = canonIP (SyAddress s)
  | OClearSyncZone _ z => z ≠ []
  | OInsertChallenge c => instant (ChCreatedAt c) (Now d) ≠ 0 ∧
      (is_ok (zone (uuid (ChTenantID c)) (uuid (ChZoneID c)) d) = true ∨
       map_Forall (λ _ x, ChID x ≠ uuid (ChID c) ∧ ¬ (ChTenantID x = uuid (ChTenantID c) ∧ ChFQDN x = ChFQDN c ∧ ChValue x = ChValue c)) (challenges d))
  | OChallengesOlderThan _ l => 0 < l
  | _ => True
  end.

(** ** Parameters *)

Definition known_codes (p : param) : Prop := match p with PJson _ c => c = lit "22P02" ∨ c = lit "22P05" | _ => True end.
Lemma fault_Plain t : fault (Plain t).
Proof. intros x. done. Qed.
Lemma bind_one_error p e : known_codes p → bind_one p = Some e → fault (mapErr e) ∨ bad p = true ∧ mapErr e = New RepoErrNotFound.
Proof.
  unfold bad. intros Hk E. rewrite E. destruct p as [u|u|l|u|ok c]; cbn [bind_one] in E; repeat case_match; simplify_eq;
    try (right; split; [reflexivity|reflexivity]); try (left; apply fault_Plain).
  destruct Hk as [-> | ->]; [by right|left; apply fault_Plain].
Qed.
Lemma bind_error ps e : Forall known_codes ps → bind ps = Some e → fault (mapErr e) ∨ (∃ p, p ∈ ps ∧ bad p = true) ∧ mapErr e = New RepoErrNotFound.
Proof.
  induction ps as [|p ps IH]; [done|]. intros [Hk Hks]%Forall_cons. cbn [bind]. destruct (bind_one p) as [e'|] eqn:E.
  - intros [= ->]. apply bind_one_error in E as [?|[? ?]]; [by left| |done]. right. split; [|done]. exists p. split; [by left|done].
  - intros [?|[(q & Hq & ?) ?]]%IH; [by left| |done]. right. split; [|done]. exists q. split; [by right|done].
Qed.
Lemma bind_None ps p : bind ps = None → p ∈ ps → bind_one p = None.
Proof.
  induction ps as [|q ps IH]; [intros _ []%not_elem_of_nil|]. cbn [bind]. destruct (bind_one q) eqn:E; [done|]. intros H [->|Hp]%elem_of_cons; auto.
Qed.
Lemma bind_good ps p : bind ps = None → p ∈ ps → bad p = false.
Proof. intros H Hp. unfold bad. by rewrite (bind_None _ _ H Hp). Qed.
Lemma uuid_bound ps s : bind ps = None → PUuid s ∈ ps → uuid_in s = Some (uuid s) ∧ isUUID (uuid s) = true.
Proof.
  intros H Hp. apply (bind_None _ _ H) in Hp. unfold uuid. cbn [bind_one] in Hp. destruct (uuid_in s) as [u|] eqn:E; [|done]. split; [done|]. by apply uuid_in_canonical in E as [? _].
Qed.
Lemma isUUID_uuid s : isUUID s = true → uuid_in s = Some (uuid s) ∧ isUUID (uuid s) = true.
Proof. intros H. unfold uuid. pose proof (uuid_in_lower _ H) as E. rewrite E. split; [done|]. by apply uuid_in_canonical in E as [? _]. Qed.
Lemma isUUID_good s : isUUID s = true → bad (PUuid s) = false.
Proof. intros H. unfold bad. cbn [bind_one]. by destruct (isUUID_uuid s H) as [-> _]. Qed.
Lemma isUUID_nonempty s : isUUID s = true → s ≠ [].
Proof. by intros H ->. Qed.
Lemma rls_tenant t : isUUID t = true → ∀ x, rls (session (mkScope t false)) x = bool_decide (x = uuid t).
Proof. intros H x. unfold rls, session. cbn [ScTenant ScSystem app_tenant app_system]. rewrite (bool_decide_eq_false_2 (t = [])) by (by apply isUUID_nonempty). by rewrite orb_false_r. Qed.

(** ** Rows *)

Lemma rows_empty {A} (p : A → bool) (m : gmap str A) : (∀ j y, m !! j = Some y → p y = false) → rows p m = [].
Proof.
  intros H. unfold rows. destruct (List.filter p (values_of m)) as [|x l] eqn:E; [done|]. assert (Hx : In x (List.filter p (values_of m))) by (rewrite E; by left).
  apply filter_In in Hx as [Hx Hp]. apply list_elem_of_In, elem_of_values_of in Hx as [k Hk]. rewrite (H k x Hk) in Hp. done.
Qed.
#[local] Instance filter_perm {A} (p : A → bool) : Proper (Permutation ==> Permutation) (List.filter p).
Proof.
  intros l l' H. induction H as [|x l l' _ IH|x y l|l1 l2 l3 _ IH1 _ IH2]; cbn [List.filter]; [done| | |by rewrite IH1].
  - destruct (p x); by rewrite IH.
  - destruct (p x), (p y); try done. apply Permutation_swap.
Qed.
Lemma rows_unique {A} (p : A → bool) (m : gmap str A) (k : str) (x : A) : m !! k = Some x → p x = true → (∀ j y, m !! j = Some y → p y = true → j = k) → rows p m = [x].
Proof.
  intros Hk Hp Hu. unfold rows, values_of.
  assert (Hperm : map snd (map_to_list m) ≡ₚ x :: map snd (map_to_list (delete k m))).
  { rewrite <- (insert_delete_id m k x Hk) at 1. rewrite map_to_list_insert by apply lookup_delete_eq. done. }
  apply Permutation_singleton_r. rewrite Hperm. cbn [List.filter]. rewrite Hp. constructor.
  change (rows p (delete k m) ≡ₚ []). rewrite rows_empty; [done|]. intros j y [Hjk Hj]%lookup_delete_Some. destruct (p y) eqn:Ey; [|done]. destruct Hjk. by rewrite (Hu j y Hj Ey).
Qed.
Lemma update_unique {A} (p : A → bool) (f : A → A) (m : gmap str A) (k : str) (x : A) : m !! k = Some x → p x = true → (∀ j y, m !! j = Some y → p y = true → j = k) → update_rows p f m = <[k := f x]> m.
Proof.
  intros Hk Hp Hu. apply map_eq. intros j. unfold update_rows. rewrite lookup_fmap. destruct (decide (j = k)) as [->|Hn].
  - rewrite Hk, lookup_insert_eq. cbn [fmap option_fmap option_map]. by rewrite Hp.
  - rewrite lookup_insert_ne by done. destruct (m !! j) as [y|] eqn:Ej; [|done]. cbn [fmap option_fmap option_map]. destruct (p y) eqn:Ey; [|done]. by destruct Hn; eapply Hu.
Qed.
Lemma delete_unique {A} (p : A → bool) (m : gmap str A) (k : str) (x : A) : m !! k = Some x → p x = true → (∀ j y, m !! j = Some y → p y = true → j = k) → delete_rows p m = delete k m.
Proof.
  intros Hk Hp Hu. apply map_eq. intros j. unfold delete_rows. destruct (decide (j = k)) as [->|Hn].
  - rewrite lookup_delete_eq. apply map_lookup_filter_None. right. intros y Hy. cbn. rewrite Hk in Hy. injection Hy as <-. by rewrite Hp.
  - rewrite lookup_delete_ne by done. destruct (m !! j) as [y|] eqn:Ej.
    + apply map_lookup_filter_Some. split; [done|]. cbn. destruct (p y) eqn:Ey; [|done]. by destruct Hn; eapply Hu.
    + apply map_lookup_filter_None. by left.
Qed.
Lemma rows_ext {A} (p q : A → bool) (m : gmap str A) : (∀ j y, m !! j = Some y → p y = q y) → rows p m = rows q m.
Proof.
  intros H. unfold rows. apply filter_ext_in. intros y Hy. apply list_elem_of_In, elem_of_values_of in Hy as [k Hk]. eauto.
Qed.

(** The row with an id, under a tenant. *)
Lemma by_id {A} (T I : A → str) (m : gmap str A) (t i : str) (r : str → bool) :
  map_Forall (λ k x, I x = k) m → r t = true → let p x := r (T x) && (bool_decide (T x = t) && bool_decide (I x = i)) in
  (∃ x, m !! i = Some x ∧ T x = t ∧ rows p m = [x] ∧ (∀ f, update_rows p f m = <[i := f x]> m) ∧ delete_rows p m = delete i m) ∨
  ((∀ x, m !! i = Some x → T x ≠ t) ∧ rows p m = []).
Proof.
  intros Hid Hr p. assert (Hp : ∀ j y, m !! j = Some y → p y = true → j = i).
  { intros j y Hy. unfold p. rewrite !andb_true_iff, !bool_decide_eq_true. intros (_ & _ & <-). symmetry. exact (Hid j y Hy). }
  destruct (m !! i) as [x|] eqn:Ei.
  - destruct (decide (T x = t)) as [Ht|Ht].
    + left. exists x. assert (Hx : p x = true) by (unfold p; rewrite Ht, Hr, bool_decide_eq_true_2 by done; by rewrite bool_decide_eq_true_2 by (exact (Hid i x Ei))).
      split_and!; [done..|by eapply rows_unique|intros f; by eapply update_unique|by eapply delete_unique].
    + right. split; [by intros ? [= <-]|]. apply rows_empty. intros j y Hy. destruct (p y) eqn:Ey; [|done]. pose proof (Hp j y Hy Ey) as ->. rewrite Ei in Hy. injection Hy as <-.
      unfold p in Ey. rewrite (bool_decide_eq_false_2 (T x = t)) in Ey by done. by rewrite andb_false_r in Ey.
  - right. split; [done|]. apply rows_empty. intros j y Hy. destruct (p y) eqn:Ey; [|done]. pose proof (Hp j y Hy Ey) as ->. congruence.
Qed.

(** ** Statements *)

(** What a statement's answer means for an operation. *)
Definition resolved {A} (o : op A) (d : DB) (x : (dberr + A) * DB) : Prop :=
  match x.1 with
  | inl e => fault (mapErr e) ∨ (malformed o = true ∧ mapErr e = New RepoErrNotFound) ∨ mem (norm (Now d) o) d = (Err (mapErr e), d)
  | inr a => mem (norm (Now d) o) d = (Ok a, x.2) ∧ (x.2 = d ∨ malformed o = false)
  end.
Definition passes {A} (o : op A) (p : param) : Prop := known_codes p ∧ (bad p = true → malformed o = true).
Lemma resolved_params {A} (o : op A) d ps f : Forall (passes o) ps → (bind ps = None → resolved o d (f d)) → resolved o d (with_params ps f d).
Proof.
  intros Hp Hn. unfold with_params. destruct (bind ps) as [e|] eqn:E; [|auto]. unfold resolved. cbn [fst].
  apply bind_error in E as [?|[(p & Hin & Hbad) ?]]; [by left| |by eapply Forall_impl; [exact Hp|intros ? []]]. rewrite Forall_forall in Hp. right. left. split; [|done].
  by apply (Hp p Hin).
Qed.
Lemma passes_text {A} (o : op A) x : passes o (PText x).
Proof. split; [done|]. unfold bad. cbn [bind_one]. by destruct (text_in x). Qed.
Lemma passes_texts {A} (o : op A) l : passes o (PTexts l).
Proof. split; [done|]. unfold bad. cbn [bind_one]. by destruct (forallb text_in l). Qed.
Lemma passes_uuid {A} (o : op A) x : isUUID x = true → passes o (PUuid x).
Proof. intros H. split; [done|]. by rewrite isUUID_good. Qed.
Lemma passes_null {A} (o : op A) x : Forall (passes o) (null_param (nullUUID x)).
Proof. unfold null_param, nullUUID. destruct (isUUID x) eqn:E; [|done]. case_bool_decide; [done|]. constructor; [by apply passes_uuid|done]. Qed.
Lemma passes_json {A B} (o : op A) (j : option B) : passes o (PJson (json_ok j) "22P05").
Proof. split; [by right|]. unfold bad. cbn [bind_one]. by destruct (json_ok j). Qed.
Lemma resolved_failing {A} (o : op A) d code : fault (mapErr (PgError code)) → resolved o d (failing code d).
Proof. intros H. by left. Qed.
Lemma resolved_conflict {A} (o : op A) d : mem (norm (Now d) o) d = (Conflict, d) → resolved o d (failing "23505" d).
Proof. intros H. right. by right. Qed.
Lemma resolved_missing {A} (o : op A) d x : mem (norm (Now d) o) d = (NotFound, d) → resolved o d (inl ErrNoRows, x).
Proof. intros H. right. by right. Qed.

(** The outcome of a method. *)
Definition refines {A} (o : op A) (s : Sql) (r : res A) (s' : Sql) : Prop :=
  failed s r s' ∨ (malformed o = true ∧ r = NotFound ∧ tables s' = tables s) ∨
  mem (norm (Now (tables s)) o) (tables s) = (r, tables s') ∧ (tables s' = tables s ∨ malformed o = false).
Lemma Tx_refines {A} (o : op A) sc fn f s r s' : (∀ ss s, fn ss s = stmt (f ss) s) → faults_ok s → resolved o (tables s) (f (session sc) (tables s)) →
  Tx sc fn s = (r, s') → faults_ok s' ∧ refines o s r s'.
Proof.
  intros Hfn Hf Hr H. apply (Tx_stmt _ _ f) in H as [Hf' [H|[Ha Ht]]]; [by split; [|left]| |done..]. split; [done|]. unfold resolved in Hr.
  destruct (f (session sc) (tables s)) as [[e|a] d]; cbn [fst snd answer] in *; subst r.
  - destruct Hr as [Hr|[[Hm ->]|Hr]]; [left; by eexists|right; by left|right; right]. rewrite Ht. auto.
  - right. right. by rewrite Ht.
Qed.
Lemma tenant_gate {A} (o : op A) tid fn f s r s' : (∀ ss s, fn ss s = stmt (f ss) s) → faults_ok s → (isUUID tid = false → malformed o = true) →
  (isUUID tid = true → resolved o (tables s) (f (session (mkScope tid false)) (tables s))) → tenant tid fn s = (r, s') → faults_ok s' ∧ refines o s r s'.
Proof.
  intros Hfn Hf Hg Hr H. unfold tenant in H. destruct (isUUID tid) eqn:E; cbn [negb] in H; [by eapply Tx_refines; eauto|].
  injection H as <- <-. split; [done|]. right. left. auto.
Qed.
Lemma tenant_refines {A} (o : op A) tid f s r s' : faults_ok s → (isUUID tid = false → malformed o = true) →
  (isUUID tid = true → resolved o (tables s) (f (session (mkScope tid false)) (tables s))) → tenant tid (λ ss, stmt (f ss)) s = (r, s') →
  faults_ok s' ∧ refines o s r s'.
Proof. intros. by eapply (tenant_gate o tid (λ ss, stmt (f ss)) f). Qed.
Lemma tenant_affects (o : op unit) tid f s r s' : faults_ok s → (isUUID tid = false → malformed o = true) →
  (isUUID tid = true → resolved o (tables s) (counted (f (session (mkScope tid false)) (tables s)).1, (f (session (mkScope tid false)) (tables s)).2)) →
  tenant tid (λ ss, affected (f ss)) s = (r, s') → faults_ok s' ∧ refines o s r s'.
Proof. intros. eapply (tenant_gate o tid (λ ss, affected (f ss)) (λ ss d, (counted (f ss d).1, (f ss d).2))); [intros; apply affected_stmt|done..]. Qed.
Lemma system_refines {A} (o : op A) f s r s' : faults_ok s → resolved o (tables s) (f (session (mkScope [] true)) (tables s)) →
  system (λ ss, stmt (f ss)) s = (r, s') → faults_ok s' ∧ refines o s r s'.
Proof. intros. by eapply (Tx_refines o _ (λ ss, stmt (f ss)) f). Qed.
Lemma counted_params {A} (o : op A) (g : dberr + nat → dberr + A) d ps f : (∀ e, g (inl e) = inl e) → Forall (passes o) ps →
  (bind ps = None → resolved o d (g (f d).1, (f d).2)) → resolved o d (g (with_params ps f d).1, (with_params ps f d).2).
Proof.
  intros Hg Hp Hn. pose proof (resolved_params o d ps (λ d, (g (f d).1, (f d).2)) Hp) as H. unfold with_params in *. destruct (bind ps) as [e|]; [|auto].
  cbn [fst snd]. rewrite Hg. by apply H.
Qed.

(** ** Zones *)

Lemma any_value_key {A} (I : A → str) (q : A → bool) (m : gmap str A) i : map_Forall (λ k x, I x = k) m →
  any_value (λ x, bool_decide (I x = i) || q x) m = bool_decide (is_Some (m !! i)) || any_value q m.
Proof.
  intros Hid. apply eq_true_iff_eq. rewrite orb_true_iff, bool_decide_eq_true, !any_value_true. split.
  - intros (k & x & Hx & H). apply orb_true_iff in H as [H%bool_decide_eq_true|H]; [left; exists x; by rewrite <- H, (Hid k x Hx)|right; eauto].
  - intros [[x Hx]|(k & x & Hx & H)]; [exists i, x|exists k, x]; (split; [done|]); [rewrite bool_decide_eq_true_2; [done|exact (Hid i x Hx)]|by rewrite H, orb_true_r].
Qed.
Lemma instant_kept t now now' : instant t now ≠ 0 → MemStore.orNow (instant t now) now' = instant t now.
Proof. intros H. unfold MemStore.orNow, IsZero. by rewrite (proj2 (Z.eqb_neq _ _) H). Qed.
Lemma check_fault code : bool_decide (code ∈ [lit "23514"; lit "42501"]) = true → fault (mapErr (PgError code)).
Proof. intros H%bool_decide_eq_true. rewrite elem_of_cons, list_elem_of_singleton in H. destruct H as [-> | ->]; apply fault_Plain. Qed.
Ltac accepted := cbn [malformed]; repeat match goal with H : isUUID _ = true |- _ => rewrite H; clear H end; cbn [negb orb]; rewrite ?orb_false_r;
  repeat match goal with H : bind ?ps = None |- context [bad ?p] => rewrite (bind_good ps p H) by set_solver end; reflexivity.
Ltac read_ := split; [done|by left].
Ltac wrote := split; [done|right; accepted].
Ltac check := apply resolved_failing; apply check_fault; vm_compute; reflexivity.
Ltac param := first [apply passes_text | apply passes_texts | apply passes_json | apply passes_uuid; assumption | idtac].
Ltac params := repeat first [apply Forall_app_2 | apply passes_null | apply Forall_cons_2; [param|] | apply Forall_nil_2].

Lemma CreateZone_refines z s r s' : faults_ok s → sql_ok (tables s) → proper (OCreateZone z) (tables s) → CreateZone z s = (r, s') →
  faults_ok s' ∧ refines (OCreateZone z) s r s'.
Proof.
  intros Hf Hok (Hc & Hu & _) H. unfold CreateZone, orNow in H. unfold mbind at 1, M_bind at 1 in H. cbv zeta in H.
  revert H. apply tenant_refines; [done|cbn [malformed]; by intros ->|]. intros Ht. unfold insert_zone. apply resolved_params.
  { params. split; [done|]. cbn [malformed ID]. intros ->. by rewrite orb_true_r. }
  intros Hb. cbv zeta. cbn [TenantID]. rewrite rls_tenant by done. rewrite bool_decide_eq_true_2 by done. cbn [negb].
  destruct (zone_check _); [|check]. cbn [negb ID Name PDNSID].
  rewrite (any_value_key ID) by apply Hok. unfold resolved, mem, norm, create_zone. cbn [ID Name PDNSID Kind Origin TenantID Masters DNSSEC Description TemplateID Nameservers CreatedBy CreatedAt UpdatedAt].
  destruct (bool_decide (is_Some _)); [right; by right|]. cbn [orb]. destruct (any_value _ _); [right; by right|]. cbn [fst snd].
  rewrite !instant_kept by done. wrote.
Qed.

Lemma gate_refines {A} (o : op A) i (m : M Sql (res A)) s r s' : faults_ok s → (isUUID i = false → malformed o = true) →
  (isUUID i = true → m s = (r, s') → faults_ok s' ∧ refines o s r s') → (if negb (isUUID i) then mret NotFound else m : M Sql (res A)) s = (r, s') → faults_ok s' ∧ refines o s r s'.
Proof. intros Hf Hg Hm H. destruct (isUUID i) eqn:E; [by apply Hm|]. injection H as <- <-. split; [done|]. right. left. auto. Qed.
Ltac gate := apply gate_refines; [done|cbn [malformed]; intros ->; by rewrite ?orb_true_r|intros Hid].
Ltac by_tenant := apply tenant_refines; [done|cbn [malformed]; by intros ->|intros Ht].
Lemma rls_own t : isUUID t = true → rls (session (mkScope t false)) (uuid t) = true.
Proof. intros H. rewrite rls_tenant by done. by apply bool_decide_eq_true. Qed.
Lemma first_row_find {A} (p : A → bool) (m : gmap str A) : first_row (rows p m) = match find_first p (values_of m) with Some x => inr x | None => inl ErrNoRows end.
Proof. unfold rows. induction (values_of m) as [|x l IH]; [done|]. cbn [List.filter find_first]. by destruct (p x). Qed.
Lemma find_first_ext {A} (p q : A → bool) l : (∀ x, x ∈ l → p x = q x) → find_first p l = find_first q l.
Proof. induction l as [|x l IH]; intros H; [done|]. cbn [find_first]. rewrite (H x) by left. destruct (q x); [done|]. apply IH. intros y Hy. apply H. by right. Qed.

Lemma GetZone_refines t i s r s' : faults_ok s → sql_ok (tables s) → GetZone t i s = (r, s') → faults_ok s' ∧ refines (OGetZone t i) s r s'.
Proof.
  intros Hf Hok. unfold GetZone. gate. by_tenant. apply resolved_params; [params|]. intros _.
  destruct (by_id TenantID ID (zones (tables s)) (uuid t) (uuid i) (rls (session (mkScope t false))) (wf_zone_id _ (ok_wf _ Hok)) (rls_own t Ht)) as [(x & Hx & Hxt & -> & _)|[Hn ->]].
  - unfold resolved, mem, norm, reading, zone. cbn [first_row fst snd]. rewrite Hx, bool_decide_eq_true_2 by done. read_.
  - apply resolved_missing. unfold mem, norm, reading, zone. destruct (zones _ !! _) as [x|] eqn:Ex; [|done]. rewrite bool_decide_eq_false_2; [done|by apply Hn].
Qed.
Lemma GetZoneByName_refines t n s r s' : faults_ok s → GetZoneByName t n s = (r, s') → faults_ok s' ∧ refines (OGetZoneByName t n) s r s'.
Proof.
  intros Hf. unfold GetZoneByName. by_tenant. apply resolved_params; [params|]. intros _. unfold resolved, mem, norm, reading, get_zone_by_name. rewrite first_row_find.
  rewrite (find_first_ext _ (λ z, bool_decide (TenantID z = uuid t ∧ Name z = n))).
  - destruct (find_first _ _); [read_|]. right. by right.
  - intros x _. rewrite rls_tenant by done. apply eq_true_iff_eq. rewrite !andb_true_iff, !bool_decide_eq_true. naive_solver.
Qed.
Lemma UpdateZone_refines z s r s' : faults_ok s → sql_ok (tables s) → proper (OUpdateZone z) (tables s) → UpdateZone z s = (r, s') → faults_ok s' ∧ refines (OUpdateZone z) s r s'.
Proof.
  intros Hf Hok Hu. unfold UpdateZone. gate. unfold orNow. unfold mbind at 1, M_bind at 1. by_tenant. unfold update_zone_stmt. apply resolved_params; [params|]. intros _. cbv zeta.
  cbn [TenantID ID].
  destruct (by_id TenantID ID (zones (tables s)) (uuid (TenantID z)) (uuid (ID z)) (rls (session (mkScope (TenantID z) false))) (wf_zone_id _ (ok_wf _ Hok)) (rls_own _ Ht))
    as [(x & Hx & Hxt & -> & Hup & _)|[Hn ->]].
  - rewrite Hup. cbn [forallb map]. destruct (zone_check _); [|check]. cbn [andb negb]. unfold resolved, mem, norm, update_zone, zone. cbn [first_row fst snd TenantID ID].
    rewrite Hx, bool_decide_eq_true_2 by done. cbn [Kind Masters DNSSEC Description UpdatedAt]. rewrite instant_kept by done.
    pose proof (wf_zone_id _ (ok_wf _ Hok) _ _ Hx) as Hxid. cbn in Hxid. rewrite Hxid. wrote.
  - cbn [forallb negb map first_row]. apply resolved_missing. unfold mem, norm, update_zone, zone. cbn [TenantID ID]. destruct (zones _ !! _) as [x|] eqn:Ex; [|done].
    rewrite bool_decide_eq_false_2; [done|by apply Hn].
Qed.
Ltac by_tenant' := apply tenant_affects; [done|cbn [malformed]; by intros ->|intros Ht]; apply (counted_params _ counted); [done|params|intros _].
Lemma DeleteZone_refines t i s r s' : faults_ok s → sql_ok (tables s) → DeleteZone t i s = (r, s') → faults_ok s' ∧ refines (ODeleteZone t i) s r s'.
Proof.
  intros Hf Hok. unfold DeleteZone. gate. unfold delete_zone_stmt. by_tenant'. cbv zeta. cbn [fst snd].
  destruct (by_id TenantID ID (zones (tables s)) (uuid t) (uuid i) (rls (session (mkScope t false))) (wf_zone_id _ (ok_wf _ Hok)) (rls_own t Ht)) as [(x & Hx & Hxt & -> & _ & ->)|[Hn ->]].
  - unfold resolved, mem, norm, delete_zone, zone. rewrite Hx, bool_decide_eq_true_2 by done. split; [|right; cbn [malformed]; by rewrite Ht, Hid]. cbn. do 2 f_equal. unfold delete_rows. apply map_filter_ext. intros k c Hc. cbn.
    pose proof (wf_zone_id _ (ok_wf _ Hok) _ _ Hx) as Hxid. cbn in Hxid. rewrite Hxt, Hxid, orb_false_r, bool_decide_eq_false. done.
  - apply resolved_missing. unfold mem, norm, delete_zone, zone. destruct (zones _ !! _) as [x|] eqn:Ex; [|done]. rewrite bool_decide_eq_false_2; [done|by apply Hn].
Qed.
Lemma right_suffix a b : isASCII a = true → isASCII b = true → bool_decide (right_ a (RuneCountInString b + 1) = runes ("." ++ b)) = HasSuffix a ("." ++ b).
Proof.
  intros Ha Hb. unfold right_, RuneCountInString. assert (Hd : isASCII ("." ++ b) = true) by exact Hb. rewrite !runes_ascii, !length_map by done.
  replace (Z.to_nat (Z.of_nat (length b) + 1)) with (length (lit "." ++ b)) by (rewrite length_app; change (length (lit ".")) with 1%nat; lia). apply eq_true_iff_eq. rewrite bool_decide_eq_true, HasSuffix_spec.
  rewrite List.skipn_map. split.
  - intros H0. pose proof (inj (fmap code) _ _ H0) as H. exists (take (length a - length (lit "." ++ b)) a). pose proof (take_drop (length a - length (lit "." ++ b)) a) as Htd. rewrite H in Htd. by symmetry.
  - intros [k ->]. f_equal. rewrite length_app. replace (length k + _ - _)%nat with (length k) by lia. by rewrite drop_app_length.
Qed.

Lemma lower_ascii a : isASCII a = true → isASCII (map lower_byte a) = true ∧ map lower_byte (map lower_byte a) = map lower_byte a.
Proof.
  assert (H : ∀ c, (if code c <? 128 then (code (lower_byte c) <? 128) else true) && bool_decide (lower_byte (lower_byte c) = lower_byte c) = true)
    by (apply byte_dec; vm_compute; reflexivity).
  unfold isASCII. induction a as [|c a IH]; [done|]. cbn [forallb map]. intros [Hc Ha]%andb_true_iff. specialize (H c). rewrite Hc in H. apply andb_true_iff in H as [H1 H2%bool_decide_eq_true].
  destruct (IH Ha) as [-> ->]. by rewrite H1, H2.
Qed.
Lemma any_value_ext {A} (p q : A → bool) (m : gmap str A) : (∀ k x, m !! k = Some x → p x = q x) → any_value p m = any_value q m.
Proof.
  intros H. apply eq_true_iff_eq. rewrite !any_value_true. split; intros (k & x & Hx & Hp); exists k, x; (split; [done|]); [rewrite <- (H k x Hx)|rewrite (H k x Hx)]; done.
Qed.
Lemma ZoneConflict_refines t n s r s' : faults_ok s → sql_ok (tables s) → proper (OZoneConflict t n) (tables s) → ZoneConflict t n s = (r, s') →
  faults_ok s' ∧ refines (OZoneConflict t n) s r s'.
Proof.
  intros Hf Hok Hn. cbn [proper] in Hn. unfold ZoneConflict. apply (tenant_refines _ _ (λ _, _)); [done|cbn [malformed]; by intros ->|intros Ht]. apply resolved_params; [params|]. intros _.
  unfold resolved, mem, norm, reading, zone_conflict, dns_zone_conflict. cbn [fst snd]. split; [|by left]. do 2 f_equal. rewrite (ToLower_ascii n) by done. destruct (lower_ascii n Hn) as [Hl Hll].
  rewrite pg_lower_ascii, Hll by done. apply any_value_ext. intros k z Hz. destruct (ok_zones _ Hok _ _ Hz) as [_ Ha]. f_equal.
  rewrite !right_suffix by done. unfold Overlaps. by rewrite (bool_decide_ext (map lower_byte n = Name z) (Name z = map lower_byte n)) by done.
Qed.
Lemma AllZoneNames_refines s r s' : faults_ok s → AllZoneNames s = (r, s') → faults_ok s' ∧ refines OAllZoneNames s r s'.
Proof. intros Hf. unfold AllZoneNames. apply (Tx_refines OAllZoneNames _ _ (λ _ d, (inr (sort_by str_ltb (map Name (values_of (zones d)))), d))); [done..|read_]. Qed.
Lemma ZonesForTenant_refines t s r s' : faults_ok s → ZonesForTenant t s = (r, s') → faults_ok s' ∧ refines (OZonesForTenant t) s r s'.
Proof.
  intros Hf. unfold ZonesForTenant. by_tenant. apply resolved_params; [params|]. intros _. unfold resolved, mem, norm, reading, tenantZones. cbn [fst snd]. split; [|by left]. do 3 f_equal.
  apply rows_ext. intros k z _. rewrite rls_tenant by done. by destruct (bool_decide _).
Qed.

(** ** Templates *)

Lemma fold_lower a b : isASCII a = true → isASCII b = true → EqualFold a b = bool_decide (pg_lower a = pg_lower b).
Proof. intros Ha Hb. rewrite !pg_lower_ascii by done. by apply EqualFold_ascii. Qed.
Lemma name_taken t d : sql_ok d → isASCII (TplName t) = true →
  templateNameTaken t d = any_value (λ y, negb (bool_decide (TplID y = TplID t)) && same_name t y) (templates d).
Proof.
  intros Hok Ha. apply any_value_ext. intros k x Hx. destruct (ok_templates _ Hok _ _ Hx) as [_ Hax]. unfold same_name. rewrite fold_lower by done.
  by destruct (bool_decide (TplTenantID x = TplTenantID t)), (bool_decide (TplID x = TplID t)).
Qed.
Lemma CreateTemplate_refines t s r s' : faults_ok s → sql_ok (tables s) → proper (OCreateTemplate t) (tables s) → CreateTemplate t s = (r, s') →
  faults_ok s' ∧ refines (OCreateTemplate t) s r s'.
Proof.
  intros Hf Hok (Hc & Hu & Ha). unfold CreateTemplate, orNow. unfold mbind at 1, M_bind at 1. cbv zeta. by_tenant. unfold insert_template. apply resolved_params.
  { params. split; [done|]. cbn [malformed TplID]. intros ->. by rewrite orb_true_r. }
  intros Hb. cbv zeta. cbn [TplTenantID]. rewrite rls_own by done. cbn [negb]. destruct (template_check _); [|check]. cbn [negb TplID].
  rewrite (any_value_key TplID) by apply Hok. unfold resolved, mem, norm, create_template. cbv zeta. rewrite name_taken by done.
  cbn [TplID TplTenantID TplName TplDescription TplRecords TplCreatedAt TplUpdatedAt].
  case_bool_decide as Hs; cbn [orb]; [right; by right|].
  rewrite (any_value_ext (same_name _) (λ y, negb (bool_decide (TplID y = uuid (TplID t))) && same_name (mkTemplate (uuid (TplID t)) (uuid (TplTenantID t)) (TplName t) (TplDescription t)
    (records_of t) (instant (TplCreatedAt t) (Now (tables s))) (instant (TplUpdatedAt t) (MemStore.orNow (TplCreatedAt t) (Now (tables s))))) y)).
  2: { intros k x Hx. rewrite bool_decide_eq_false_2; [done|]. intros Hid. destruct Hs. pose proof (wf_template_id _ (ok_wf _ Hok) _ _ Hx) as Hk. cbn in Hk. rewrite <- Hid, Hk. eauto. }
  destruct (any_value _ _); [right; by right|]. cbn [fst snd]. rewrite !instant_kept by done. wrote.
Qed.
Lemma GetTemplate_refines t i s r s' : faults_ok s → sql_ok (tables s) → GetTemplate t i s = (r, s') → faults_ok s' ∧ refines (OGetTemplate t i) s r s'.
Proof.
  intros Hf Hok. unfold GetTemplate. gate. by_tenant. apply resolved_params; [params|]. intros _.
  destruct (by_id TplTenantID TplID (templates (tables s)) (uuid t) (uuid i) (rls (session (mkScope t false))) (wf_template_id _ (ok_wf _ Hok)) (rls_own t Ht)) as [(x & Hx & Hxt & -> & _)|[Hn ->]].
  - unfold resolved, mem, norm, reading, template. cbn [first_row fst snd]. rewrite Hx, bool_decide_eq_true_2 by done. read_.
  - apply resolved_missing. unfold mem, norm, reading, template. destruct (templates _ !! _) as [x|] eqn:Ex; [|done]. rewrite bool_decide_eq_false_2; [done|by apply Hn].
Qed.
Lemma UpdateTemplate_refines t s r s' : faults_ok s → sql_ok (tables s) → proper (OUpdateTemplate t) (tables s) → UpdateTemplate t s = (r, s') →
  faults_ok s' ∧ refines (OUpdateTemplate t) s r s'.
Proof.
  intros Hf Hok [Hu Ha]. unfold UpdateTemplate. gate. unfold orNow. unfold mbind at 1, M_bind at 1. by_tenant. unfold update_template_stmt. apply resolved_params; [params|]. intros _. cbv zeta.
  cbn [TplTenantID TplID].
  destruct (by_id TplTenantID TplID (templates (tables s)) (uuid (TplTenantID t)) (uuid (TplID t)) (rls (session (mkScope (TplTenantID t) false))) (wf_template_id _ (ok_wf _ Hok)) (rls_own _ Ht))
    as [(x & Hx & Hxt & -> & Hup & _)|[Hn ->]].
  - rewrite Hup. cbn [forallb map existsb]. destruct (template_check _); [|check]. cbn [andb negb]. rewrite orb_false_r.
    pose proof (wf_template_id _ (ok_wf _ Hok) _ _ Hx) as Hxid. cbn in Hxid. unfold resolved, mem, norm, update_template, template. cbn [TplTenantID TplID].
    rewrite Hx, bool_decide_eq_true_2 by done. rewrite name_taken by done. cbn [TplTenantID TplID]. rewrite Hxid. unfold same_name. cbn [TplTenantID TplName]. rewrite Hxt.
    destruct (any_value _ _); [right; by right|]. cbn [first_row fst snd TplName TplDescription TplRecords TplUpdatedAt]. rewrite instant_kept by done. wrote.
  - cbn [forallb negb map first_row existsb]. apply resolved_missing. unfold mem, norm, update_template, template. cbn [TplTenantID TplID]. destruct (templates _ !! _) as [x|] eqn:Ex; [|done].
    rewrite bool_decide_eq_false_2; [done|by apply Hn].
Qed.
Lemma DeleteTemplate_refines t i s r s' : faults_ok s → sql_ok (tables s) → DeleteTemplate t i s = (r, s') → faults_ok s' ∧ refines (ODeleteTemplate t i) s r s'.
Proof.
  intros Hf Hok. unfold DeleteTemplate. gate. by_tenant'. cbv zeta. cbn [fst snd].
  destruct (by_id TplTenantID TplID (templates (tables s)) (uuid t) (uuid i) (rls (session (mkScope t false))) (wf_template_id _ (ok_wf _ Hok)) (rls_own t Ht)) as [(x & Hx & Hxt & -> & _ & ->)|[Hn ->]].
  - unfold resolved, mem, norm, delete_template, template. rewrite Hx, bool_decide_eq_true_2 by done. wrote.
  - apply resolved_missing. unfold mem, norm, delete_template, template. destruct (templates _ !! _) as [x|] eqn:Ex; [|done]. rewrite bool_decide_eq_false_2; [done|by apply Hn].
Qed.
Lemma sort_by_ext {A} (lt lt' : A → A → bool) l : (∀ x y, x ∈ l → y ∈ l → lt x y = lt' x y) → sort_by lt l = sort_by lt' l.
Proof.
  assert (Hins : ∀ x l, (∀ y, y ∈ l → lt y x = lt' y x) → insert_by lt x l = insert_by lt' x l).
  { intros x l0. induction l0 as [|y l0 IH]; intros H; [done|]. cbn [insert_by]. rewrite (H y) by left. destruct (lt' y x); [|done]. f_equal. apply IH. intros z Hz. apply H. by right. }
  unfold sort_by. induction l as [|x l IH]; intros H; [done|]. cbn [foldr]. rewrite IH by (intros; apply H; by right). apply Hins.
  intros y Hy. apply elem_of_sort_by in Hy. apply H; [by right|left].
Qed.
Lemma elem_of_rows {A} (p : A → bool) (m : gmap str A) x : x ∈ rows p m → ∃ k, m !! k = Some x ∧ p x = true.
Proof. unfold rows. rewrite list_elem_of_In, filter_In, <- list_elem_of_In, elem_of_values_of. intros [[k ?] ?]. by exists k. Qed.
Lemma AllTemplates_refines t s r s' : faults_ok s → sql_ok (tables s) → AllTemplates t s = (r, s') → faults_ok s' ∧ refines (OAllTemplates t) s r s'.
Proof.
  intros Hf Hok. unfold AllTemplates. by_tenant. apply resolved_params; [params|]. intros _. unfold resolved, mem, norm, reading, tenantTemplates. cbn [fst snd]. split; [|by left]. do 2 f_equal.
  rewrite (rows_ext (λ t0, rls _ _ && _) (λ x, bool_decide (TplTenantID x = uuid t))) by (intros k z _; rewrite rls_tenant by done; by destruct (bool_decide _)).
  apply sort_by_ext. intros x y (k & Hx & _)%elem_of_rows (k' & Hy & _)%elem_of_rows. destruct (ok_templates _ Hok _ _ Hx) as [_ Hax], (ok_templates _ Hok _ _ Hy) as [_ Hay].
  unfold template_ltb, lower_ltb. by rewrite !ToLower_ascii, !pg_lower_ascii by done.
Qed.

(** ** Supermasters *)

Lemma conflict_refines {A} (o : op A) (b : bool) (m : M Sql (res A)) s r s' : faults_ok s → (b = true → mem (norm (Now (tables s)) o) (tables s) = (Conflict, tables s)) →
  (b = false → m s = (r, s') → faults_ok s' ∧ refines o s r s') → (if b then mret Conflict else m : M Sql (res A)) s = (r, s') → faults_ok s' ∧ refines o s r s'.
Proof. intros Hf Hc Hm. destruct b; [|by apply Hm]. intros [= <- <-]. split; [done|]. right. right. auto. Qed.
Lemma sm_row_id s : host (SmIP s) = SmIP s → sm_row s = s.
Proof. intros H. destruct s. unfold sm_row. cbn in *. by rewrite H. Qed.
Lemma CreateSupermaster_refines x s r s' : faults_ok s → sql_ok (tables s) → proper (OCreateSupermaster x) (tables s) → CreateSupermaster x s = (r, s') →
  faults_ok s' ∧ refines (OCreateSupermaster x) s r s'.
Proof.
  intros Hf Hok [Hc Hp]. unfold CreateSupermaster. apply conflict_refines; [done| |].
  { intros Hb. unfold mem, norm, create_supermaster. cbn [SmIP]. by rewrite Hb. }
  intros Hb. unfold orNow. unfold mbind at 1, M_bind at 1. apply tenant_refines; [done|cbn [malformed]; by intros ->|intros Ht]. unfold insert_supermaster. apply resolved_params.
  { params; (split; [done|]); cbn [malformed SmID SmIP]; intros ->; by rewrite !orb_true_r. }
  intros Hbd. cbv zeta. cbn [SmTenantID]. rewrite rls_own by done. cbn [negb]. destruct (supermaster_check _); [|check]. cbn [negb SmID SmIP SmNameserver].
  rewrite (any_value_key SmID) by apply Hok. unfold resolved, mem, norm, create_supermaster. cbn [SmIP SmID SmTenantID SmNameserver SmCreatedBy SmCreatedAt]. rewrite Hb.
  destruct (bool_decide (is_Some _)); [right; by right|]. cbn [orb]. destruct (any_value _ _); [right; by right|]. cbn [fst snd]. rewrite instant_kept by done. wrote.
Qed.
Lemma GetSupermaster_refines t i s r s' : faults_ok s → sql_ok (tables s) → GetSupermaster t i s = (r, s') → faults_ok s' ∧ refines (OGetSupermaster t i) s r s'.
Proof.
  intros Hf Hok. unfold GetSupermaster. gate. by_tenant. apply resolved_params; [params|]. intros _.
  destruct (by_id SmTenantID SmID (supermasters (tables s)) (uuid t) (uuid i) (rls (session (mkScope t false))) (wf_supermaster_id _ (ok_wf _ Hok)) (rls_own t Ht)) as [(x & Hx & Hxt & -> & _)|[Hn ->]].
  - unfold resolved, mem, norm, reading, supermaster. cbn [first_row map fst snd]. rewrite sm_row_id by apply (ok_supermasters _ Hok _ _ Hx). rewrite Hx, bool_decide_eq_true_2 by done. read_.
  - apply resolved_missing. unfold mem, norm, reading, supermaster. destruct (supermasters _ !! _) as [x|] eqn:Ex; [|done]. rewrite bool_decide_eq_false_2; [done|by apply Hn].
Qed.
Lemma DeleteSupermaster_refines t i s r s' : faults_ok s → sql_ok (tables s) → DeleteSupermaster t i s = (r, s') → faults_ok s' ∧ refines (ODeleteSupermaster t i) s r s'.
Proof.
  intros Hf Hok. unfold DeleteSupermaster. gate. by_tenant'. cbv zeta. cbn [fst snd].
  destruct (by_id SmTenantID SmID (supermasters (tables s)) (uuid t) (uuid i) (rls (session (mkScope t false))) (wf_supermaster_id _ (ok_wf _ Hok)) (rls_own t Ht)) as [(x & Hx & Hxt & -> & _ & ->)|[Hn ->]].
  - unfold resolved, mem, norm, delete_supermaster, supermaster. rewrite Hx, bool_decide_eq_true_2 by done. wrote.
  - apply resolved_missing. unfold mem, norm, delete_supermaster, supermaster. destruct (supermasters _ !! _) as [x|] eqn:Ex; [|done]. rewrite bool_decide_eq_false_2; [done|by apply Hn].
Qed.
Lemma map_id_on {A} (f : A → A) l : (∀ x, x ∈ l → f x = x) → map f l = l.
Proof. induction l as [|x l IH]; intros H; [done|]. cbn [map]. rewrite H by left. f_equal. apply IH. intros y Hy. apply H. by right. Qed.
Lemma AllSupermasters_refines t s r s' : faults_ok s → sql_ok (tables s) → AllSupermasters t s = (r, s') → faults_ok s' ∧ refines (OAllSupermasters t) s r s'.
Proof.
  intros Hf Hok. unfold AllSupermasters. by_tenant. apply resolved_params; [params|]. intros _. unfold resolved, mem, norm, reading, tenantSupermasters. cbn [fst snd]. split; [|by left]. do 2 f_equal.
  rewrite (rows_ext (λ s0, rls _ _ && _) (λ x, bool_decide (SmTenantID x = uuid t))) by (intros k z _; rewrite rls_tenant by done; by destruct (bool_decide _)).
  symmetry. apply map_id_on. intros x Hx. apply elem_of_sort_by, elem_of_rows in Hx as (k & Hk & _). apply sm_row_id, (ok_supermasters _ Hok _ _ Hk).
Qed.

(** ** Server configuration *)

Lemma jsonOr_id x : x ≠ [] → jsonOr x = x.
Proof. intros H. unfold jsonOr. by rewrite bool_decide_eq_false_2. Qed.
Lemma GetServerConfig_refines s r s' : faults_ok s → sql_ok (tables s) → GetServerConfig s = (r, s') → faults_ok s' ∧ refines OGetServerConfig s r s'.
Proof.
  intros Hf Hok. unfold GetServerConfig. apply (system_refines OGetServerConfig (λ _ d, (match config d with Some c => inr c | None => inl ErrNoRows end, d))); [done|].
  unfold resolved, mem, norm, reading, get_server_config. cbn [fst snd]. destruct (config (tables s)) as [c|] eqn:Ec; [|right; by right].
  destruct (ok_config _ Hok c Ec) as [H1 H2]. rewrite !jsonOr_id by done. destruct c. read_.
Qed.
Lemma SaveServerConfig_refines c s r s' : faults_ok s → proper (OSaveServerConfig c) (tables s) → SaveServerConfig c s = (r, s') → faults_ok s' ∧ refines (OSaveServerConfig c) s r s'.
Proof.
  intros Hf Hu. cbn [proper] in Hu. unfold SaveServerConfig, orNow. unfold mbind at 1, M_bind at 1. cbv zeta. apply (system_refines _ (λ _, _)); [done|]. apply resolved_params.
  { repeat apply Forall_cons_2; [..|apply passes_text|apply Forall_nil_2]; (split; [by left|]); unfold bad; cbn [bind_one malformed]; destruct (json_ok _); cbn; try done. by rewrite orb_true_r. }
  intros Hb. destruct (jsonb_in (jsonOr (ScRecursor c))) as [jr|] eqn:Er; [|done]. destruct (jsonb_in (jsonOr (ScAuthoritative c))) as [ja|] eqn:Ea; [|done].
  unfold resolved, mem, norm, save_server_config. rewrite Er, Ea. cbn [default ScRecursor ScAuthoritative ScUpdatedBy ScUpdatedAt].
  rewrite !jsonOr_id, instant_kept by (done || by eapply jsonb_nonempty). destruct (config (tables s)); (split; [done|right; cbn [malformed]; by rewrite Er, Ea]).
Qed.
Lemma SetConfigHashes_refines a b t s r s' : faults_ok s → proper (OSetConfigHashes a b t) (tables s) → SetConfigHashes a b t s = (r, s') →
  faults_ok s' ∧ refines (OSetConfigHashes a b t) s r s'.
Proof.
  intros Hf Hu. cbn [proper] in Hu. unfold SetConfigHashes, orNow. unfold mbind at 1, M_bind at 1. apply (system_refines _ (λ _, _)); [done|]. apply resolved_params; [params|]. intros _.
  unfold resolved, mem, norm, set_config_hashes. cbn [fst snd]. rewrite instant_kept by done. split; [by destruct (config (tables s))|by right].
Qed.

(** ** IPAM sync state *)

Lemma uuid_no_bar s : isUUID s = true → "|"%char ∉ s.
Proof.
  unfold isUUID. pose proof (Join_SplitByte "-" s) as Hj. destruct (SplitByte "-" s) as [|a [|b [|c [|d [|e [|]]]]]]; try done. intros [_ H]%andb_true_iff. rewrite <- Hj. clear Hj.
  assert (Hw : ∀ w, forallb hexdigit w = true → "|"%char ∉ w).
  { intros w Hw Hin. apply forallb_Forall in Hw. rewrite Forall_forall in Hw. apply Hw in Hin. vm_compute in Hin. done. }
  cbn [forallb] in H. rewrite !andb_true_iff in H. destruct H as (Ha & Hb & Hc & Hd & He & _). cbn [Join].
  pose proof (Hw a Ha). pose proof (Hw b Hb). pose proof (Hw c Hc). pose proof (Hw d Hd). pose proof (Hw e He).
  intros Hin. rewrite !elem_of_app, !list_elem_of_singleton in Hin. destruct_or! Hin; done.
Qed.
Lemma by_sync (d : DB) (t i : str) ss : sql_ok d → isUUID t = true → rls ss t = true → let p x := rls ss (SyTenantID x) && is_row t i x in
  (∃ x, sync d !! syncKey t i = Some x ∧ host (SyAddress x) = SyAddress x ∧ rows p (sync d) = [x] ∧ delete_rows p (sync d) = delete (syncKey t i) (sync d)) ∨
  (sync d !! syncKey t i = None ∧ rows p (sync d) = []).
Proof.
  intros Hok Ht Hr p. assert (Hp : ∀ j y, sync d !! j = Some y → p y = true → j = syncKey t i).
  { intros j y Hy. unfold p, is_row. rewrite !andb_true_iff, !bool_decide_eq_true. intros (_ & <- & <-). symmetry. exact (wf_sync_key _ (ok_wf _ Hok) j y Hy). }
  destruct (sync d !! syncKey t i) as [x|] eqn:Ex.
  - left. exists x. destruct (ok_sync _ Hok _ _ Ex) as (Hu & Hh & _). pose proof (wf_sync_key _ (ok_wf _ Hok) _ _ Ex) as Hk. cbn in Hk.
    apply syncKey_inj in Hk as [Ht' Hi']; [|by apply uuid_no_bar..]. assert (Hx : p x = true) by (unfold p, is_row; rewrite Ht', Hi', Hr; by rewrite !bool_decide_eq_true_2).
    split_and!; [done..|by eapply rows_unique|by eapply delete_unique].
  - right. split; [done|]. apply rows_empty. intros j y Hy. destruct (p y) eqn:Ey; [|done]. pose proof (Hp j y Hy Ey) as ->. congruence.
Qed.
Lemma GetIPAMSync_refines t i s r s' : faults_ok s → sql_ok (tables s) → GetIPAMSync t i s = (r, s') → faults_ok s' ∧ refines (OGetIPAMSync t i) s r s'.
Proof.
  intros Hf Hok. unfold GetIPAMSync. by_tenant. apply resolved_params; [params|]. intros _. destruct (isUUID_uuid t Ht) as [_ Hu].
  destruct (by_sync (tables s) (uuid t) i (session (mkScope t false)) Hok Hu (rls_own t Ht)) as [(x & Hx & Hh & -> & _)|[Hn ->]].
  - unfold resolved, mem, norm, reading, get_ipam_sync. cbn [map first_row fst snd]. rewrite Hx. split; [|by left]. do 2 f_equal. destruct x. unfold sync_row. cbn in *. by rewrite Hh.
  - apply resolved_missing. unfold mem, norm, reading, get_ipam_sync. by rewrite Hn.
Qed.
Lemma DeleteIPAMSync_refines t i s r s' : faults_ok s → sql_ok (tables s) → DeleteIPAMSync t i s = (r, s') → faults_ok s' ∧ refines (ODeleteIPAMSync t i) s r s'.
Proof.
  intros Hf Hok. unfold DeleteIPAMSync. by_tenant'. cbv zeta. cbn [fst snd]. destruct (isUUID_uuid t Ht) as [_ Hu].
  destruct (by_sync (tables s) (uuid t) i (session (mkScope t false)) Hok Hu (rls_own t Ht)) as [(x & Hx & Hh & -> & ->)|[Hn ->]].
  - unfold resolved, mem, norm, delete_ipam_sync. rewrite Hx. wrote.
  - apply resolved_missing. unfold mem, norm, delete_ipam_sync. by rewrite Hn.
Qed.
Lemma UpsertIPAMSync_refines x s r s' : faults_ok s → sql_ok (tables s) → proper (OUpsertIPAMSync x) (tables s) → UpsertIPAMSync x s = (r, s') →
  faults_ok s' ∧ refines (OUpsertIPAMSync x) s r s'.
Proof.
  intros Hf Hok [Hc Hp]. unfold UpsertIPAMSync. cbv zeta. apply conflict_refines; [done| |].
  { intros Hb. unfold mem, norm, upsert_ipam_sync. cbn [SyAddress SyIPAddressID]. by rewrite Hb. }
  intros Hb. unfold orNow. unfold mbind at 1, M_bind at 1. by_tenant. unfold upsert_sync. apply resolved_params.
  { params. split; [done|]. cbn [malformed SyAddress]. intros ->. by rewrite !orb_true_r. }
  intros Hbd. cbv zeta. cbn [SyTenantID]. rewrite rls_own by done. cbn [negb]. destruct (sync_check _); [|check]. cbn [negb].
  unfold resolved, mem, norm, upsert_ipam_sync.
  cbn [SyTenantID SyIPAddressID SyAddress SyHostname SyForwardZoneID SyForwardName SyForwardType SyReverseZoneID SyReverseName SyLastEvent SyUpdatedAt fst snd]. rewrite Hb. rewrite instant_kept by done. wrote.
Qed.
Lemma clear_two (t z : str) (ss : Session) (m : gmap str IPAMSync) : (∀ x, rls ss x = bool_decide (x = t)) → z ≠ [] →
  update_rows (λ x, rls ss (SyTenantID x) && (bool_decide (SyTenantID x = t) && bool_decide (SyReverseZoneID x = z))) clear_reverse
    (update_rows (λ x, rls ss (SyTenantID x) && (bool_decide (SyTenantID x = t) && bool_decide (SyForwardZoneID x = z))) clear_forward m) = clear_one t z <$> m.
Proof.
  intros Hr Hz. unfold update_rows. rewrite <- map_fmap_compose. apply map_fmap_ext. intros k x _. cbn. rewrite !Hr. unfold clear_one.
  destruct (bool_decide (SyTenantID x = t)) eqn:Et; cbn [andb negb]; [|by rewrite Et].
  destruct (bool_decide (SyForwardZoneID x = z)) eqn:Ef; unfold clear_forward, clear_reverse; cbn; rewrite Et; cbn; destruct (bool_decide (SyReverseZoneID x = z)); by destruct x.
Qed.
Lemma ClearSyncZone_refines t z s r s' : faults_ok s → sql_ok (tables s) → proper (OClearSyncZone t z) (tables s) → ClearSyncZone t z s = (r, s') →
  faults_ok s' ∧ refines (OClearSyncZone t z) s r s'.
Proof.
  intros Hf Hok Hz. cbn [proper] in Hz. unfold ClearSyncZone. destruct (isUUID z) eqn:Ez; cbn [negb].
  - unfold tenant. destruct (isUUID t) eqn:Ht; cbn [negb]; [|intros [= <- <-]; split; [done|]; right; left; cbn [malformed]; by rewrite Ht].
    destruct (isUUID_uuid t Ht) as [Hut _], (isUUID_uuid z Ez) as [Huz Hzz].
    assert (Hb : bind [PUuid t; PUuid z] = None) by (cbn [bind bind_one]; by rewrite Hut, Huz).
    intros H. apply Tx_run in H as [[H Hf']|(s1 & r1 & s2 & Hf1 & Ht1 & E & H)]; [by split; [|left]| |done].
    unfold mbind, M_bind in E. destruct (stmt _ s1) as [x s3] eqn:E3 in E. apply stmt_run in E3 as [Hf3 E3]; [|done]. unfold with_params in E3. rewrite Hb in E3. cbn [fst snd answer] in E3.
    destruct E3 as [(e & -> & He & _)|[-> Ht3]].
    { injection E as <- <-. destruct (H Hf3) as [Hf' [-> Ht']]. split; [done|]. left. by exists e. }
    apply stmt_run in E as [Hf4 E]; [|done]. unfold with_params in E. rewrite Hb in E. cbn [fst snd answer] in E. destruct (H Hf4) as [Hf' H']. split; [done|].
    destruct E as [(e & -> & He & _)|[-> Ht4]]; [left; destruct H' as [-> ?]; by exists e|]. destruct H' as [?|[-> Ht']]; [by left|]. right. right.
    unfold mem, norm, clear_sync_zone. rewrite Ez, Ht', Ht4, Ht3, Ht1. unfold set_sync. cbn [zones templates supermasters config sync challenges audit Now]. rewrite (clear_two (uuid t) (uuid z)); [|by apply rls_tenant|by apply isUUID_nonempty]. split; [done|right]. cbn [malformed]. by rewrite Ht.
  - intros [= <- <-]. split; [done|]. right. right. split; [|by left]. unfold mem, norm, clear_sync_zone. rewrite Ez. f_equal. destruct (tables s) as [zs ts sms cf sy ch au nw] eqn:Ed. unfold set_sync. cbn. f_equal.
    rewrite <- (map_fmap_id sy) at 2. apply map_fmap_ext. intros k x Hx. destruct (ok_sync _ Hok k x Hx) as (_ & _ & Hfz & Hrz). unfold clear_one.
    case_bool_decide; [|done]. cbn [negb]. rewrite !bool_decide_eq_false_2 by (intros <-; naive_solver congruence). by destruct x.
Qed.

(** ** ACME challenges *)

Lemma zone_exists t i d : db_wf d → any_value (λ z, bool_decide (TenantID z = t ∧ ID z = i)) (zones d) = is_ok (zone t i d).
Proof.
  intros Hwf. apply eq_true_iff_eq. rewrite any_value_true. split.
  - intros (k & z & Hz & [Ht Hi]%bool_decide_eq_true). pose proof (wf_zone_id _ Hwf _ _ Hz) as Hk. cbn in Hk. rewrite Hi in Hk. subst k.
    by rewrite (proj2 (zone_Ok t i d z)).
  - destruct (zone t i d) as [z|] eqn:E; [|done]. apply zone_Ok in E as [Hz Ht]. intros _. exists i, z. split; [done|]. apply bool_decide_eq_true. split; [done|].
    exact (wf_zone_id _ Hwf _ _ Hz).
Qed.
Lemma InsertChallenge_refines c s r s' : faults_ok s → sql_ok (tables s) → proper (OInsertChallenge c) (tables s) → InsertChallenge c s = (r, s') →
  faults_ok s' ∧ refines (OInsertChallenge c) s r s'.
Proof.
  intros Hf Hok [Hc Hd]. unfold InsertChallenge. apply gate_refines; [done|cbn [malformed]; intros ->; by rewrite orb_true_r|intros Hid]. unfold orNow. unfold mbind at 1, M_bind at 1.
  apply tenant_refines; [done|cbn [malformed]; by intros ->|intros Ht]. unfold insert_challenge_stmt. apply resolved_params.
  { params. split; [done|]. cbn [malformed ChID]. intros ->. by rewrite orb_true_r. }
  intros Hbd. cbv zeta. cbn [ChTenantID]. rewrite rls_own by done. cbn [negb]. destruct (challenge_check _); [|check]. cbn [negb ChID ChFQDN ChValue ChZoneID].
  rewrite (any_value_key ChID) by apply Hok. rewrite zone_exists by apply Hok.
  unfold resolved, mem, norm, insert_challenge. cbn [ChID ChTenantID ChZoneID ChFQDN ChValue ChRequestedBy ChCreatedAt].
  destruct (is_ok _) eqn:Ez; cbn [negb].
  - destruct (bool_decide (is_Some _)); [right; by right|]. cbn [orb]. destruct (any_value _ _); [right; by right|]. cbn [fst snd]. rewrite instant_kept by done. wrote.
  - destruct Hd as [Hd|Hd]; [cbn in Hd; congruence|]. rewrite bool_decide_eq_false_2.
    2: { intros [x Hx]. destruct (Hd _ _ Hx) as [Hne _]. apply Hne. exact (ok_challenges _ Hok _ _ Hx). }
    rewrite (proj2 (any_value_false _ _)); [right; by right|]. intros k x Hx. apply bool_decide_eq_false. by destruct (Hd _ _ Hx).
Qed.
Lemma DeleteChallenge_refines t f v s r s' : faults_ok s → sql_ok (tables s) → DeleteChallenge t f v s = (r, s') → faults_ok s' ∧ refines (ODeleteChallenge t f v) s r s'.
Proof.
  intros Hf Hok. unfold DeleteChallenge. by_tenant'. cbv zeta. cbn [fst snd].
  assert (Hp : ∀ c, rls (session (mkScope t false)) (ChTenantID c) && bool_decide (ChTenantID c = uuid t ∧ ChFQDN c = f ∧ ChValue c = v) = bool_decide (ChTenantID c = uuid t ∧ ChFQDN c = f ∧ ChValue c = v)).
  { intros c. rewrite rls_tenant by done. apply eq_true_iff_eq. rewrite andb_true_iff, !bool_decide_eq_true. naive_solver. }
  unfold resolved, mem, norm, delete_challenge.
  destruct (find_first _ (map_to_list _)) as [[k c]|] eqn:E.
  - apply find_first_Some in E as [Hin Hm]. cbn in Hm. pose proof Hm as Hm'. apply elem_of_map_to_list in Hin. apply bool_decide_eq_true in Hm as (Ht' & Hf' & Hv').
    assert (Hu : ∀ j y, challenges (tables s) !! j = Some y →
      rls (session (mkScope t false)) (ChTenantID y) && bool_decide (ChTenantID y = uuid t ∧ ChFQDN y = f ∧ ChValue y = v) = true → j = k).
    { intros j y Hy Hpy. rewrite Hp in Hpy. apply bool_decide_eq_true in Hpy as (? & ? & ?). apply (wf_challenge_uniq _ (ok_wf _ Hok) j k y c Hy Hin). unfold same_challenge. split_and!; congruence. }
    rewrite (rows_unique _ _ k c Hin) by (rewrite ?Hp; done). rewrite (delete_unique _ _ k c Hin) by (rewrite ?Hp; done). wrote.
  - rewrite rows_empty; [right; by right|]. intros j y Hy. rewrite Hp. rewrite find_first_None, Forall_forall in E. apply (E (j, y)). by apply elem_of_map_to_list.
Qed.
Lemma rls_system x : rls (session (mkScope [] true)) x = true.
Proof. unfold rls. cbn [session app_system ScSystem]. apply orb_true_r. Qed.
Lemma ChallengesOlderThan_refines b l s r s' : faults_ok s → proper (OChallengesOlderThan b l) (tables s) → ChallengesOlderThan b l s = (r, s') →
  faults_ok s' ∧ refines (OChallengesOlderThan b l) s r s'.
Proof.
  intros Hf Hl. cbn [proper] in Hl. unfold ChallengesOlderThan. rewrite (proj2 (Z.leb_gt _ _) Hl). cbv zeta.
  apply (system_refines _ (λ ss d, (inr (take (Z.to_nat l) (sort_by challenge_ltb (rows (λ c, rls ss (ChTenantID c) && (ChCreatedAt c <? timestamptz b)) (challenges d)))), d))); [done|].
  unfold resolved, mem, norm, reading, challenges_older_than. cbn [fst snd]. split; [|by left]. do 2 f_equal. rewrite (proj2 (Z.ltb_lt _ _) Hl). cbn [andb].
  rewrite (rows_ext (λ c, rls _ _ && _) (λ c, ChCreatedAt c <? timestamptz b)) by (intros; by rewrite rls_system).
  change (List.filter (λ c, ChCreatedAt c <? timestamptz b) (values_of (challenges (tables s)))) with (rows (λ c, ChCreatedAt c <? timestamptz b) (challenges (tables s))).
  case_match eqn:E; [done|]. apply Z.ltb_ge in E. rewrite take_ge by lia. done.
Qed.

(** ** Backup and audit *)

Lemma rows_all {A} (p : A → bool) (m : gmap str A) : (∀ x, p x = true) → rows p m = values_of m.
Proof. intros H. unfold rows. induction (values_of m) as [|x l IH]; [done|]. cbn [List.filter]. by rewrite H, IH. Qed.
Lemma TenantIDs_refines s r s' : faults_ok s → sql_ok (tables s) → TenantIDs s = (r, s') → faults_ok s' ∧ refines OTenantIDs s r s'.
Proof.
  intros Hf Hok. unfold TenantIDs.
  apply (system_refines OTenantIDs (λ ss d, (inr (sort_by text_ltb (remove_dups (map TenantID (rows (λ z, rls ss (TenantID z)) (zones d)) ++ map TplTenantID (rows (λ t, rls ss (TplTenantID t)) (templates d))
                                          ++ map SmTenantID (rows (λ s, rls ss (SmTenantID s)) (supermasters d))))), d))); [done|].
  unfold resolved, mem, norm, reading, tenant_ids. cbn [fst snd]. split; [|by left]. do 2 f_equal. rewrite !rows_all by (intros; apply rls_system).
  assert (Hu : ∀ x, x ∈ remove_dups (map TenantID (values_of (zones (tables s))) ++ map TplTenantID (values_of (templates (tables s))) ++ map SmTenantID (values_of (supermasters (tables s)))) → isUUID x = true).
  { intros x. rewrite elem_of_remove_dups, !elem_of_app, !list_elem_of_fmap.
    intros [(z & -> & [k Hk]%elem_of_values_of)|[(z & -> & [k Hk]%elem_of_values_of)|(z & -> & [k Hk]%elem_of_values_of)]];
      [apply (ok_zones _ Hok _ _ Hk)|apply (ok_templates _ Hok _ _ Hk)|apply (ok_supermasters _ Hok _ _ Hk)]. }
  symmetry. apply sort_by_ext. intros x y Hx Hy. apply uuid_collation; auto.
Qed.
Lemma AppendAudit_refines row s r s' : faults_ok s → AppendAudit row s = (r, s') → faults_ok s' ∧ refines (OAppendAudit row) s r s'.
Proof.
  intros Hf. unfold AppendAudit, orNow. cbv zeta. unfold mbind at 1, M_bind at 1. apply (system_refines _ (λ _, _)); [done|]. apply resolved_params; [|intros Hb; wrote].
  params; (split; [done|]); cbn [malformed]; intros ->; by rewrite ?orb_true_r.
Qed.

(** ** The tables stay well-formed *)

Lemma mem_wf {A} (o : op A) d : db_wf d → db_wf (mem o d).2.
Proof.
  intros H. destruct o; cbn [mem]; unfold reading; cbn [snd]; try done; (eapply db_step_wf; [|exact H]);
    first [apply ds_save_config | apply ds_config_hashes | apply ds_audit | eapply ds_tenant].
  all: first [by apply ts_create_zone | by apply ts_update_zone | apply ts_delete_zone | by apply ts_create_template | by apply ts_update_template | apply ts_delete_template
    | by apply ts_create_supermaster | apply ts_delete_supermaster | by apply ts_upsert_sync | apply ts_delete_sync | apply ts_clear_sync | by apply ts_insert_challenge | apply ts_delete_challenge].
Qed.
Lemma bad_uuid x : bad (PUuid x) = false → isUUID (uuid x) = true.
Proof. unfold bad, uuid. cbn [bind_one]. destruct (uuid_in x) as [u|] eqn:E; [|done]. intros _. by apply uuid_in_canonical in E as [? _]. Qed.
Lemma null_ok x : null_column (nullUUID x) = [] ∨ isUUID (null_column (nullUUID x)) = true.
Proof. unfold null_column, nullUUID. destruct (isUUID x) eqn:E; [|by left]. case_bool_decide; [by left|right]. by apply isUUID_uuid. Qed.
Lemma clear_one_ok t z x : (SyForwardZoneID x = [] ∨ isUUID (SyForwardZoneID x) = true) ∧ (SyReverseZoneID x = [] ∨ isUUID (SyReverseZoneID x) = true) →
  SyTenantID (clear_one t z x) = SyTenantID x ∧ SyAddress (clear_one t z x) = SyAddress x ∧
  (SyForwardZoneID (clear_one t z x) = [] ∨ isUUID (SyForwardZoneID (clear_one t z x)) = true) ∧ (SyReverseZoneID (clear_one t z x) = [] ∨ isUUID (SyReverseZoneID (clear_one t z x)) = true).
Proof. intros [H1 H2]. unfold clear_one. case_bool_decide; [|done]. cbn. split_and!; try done; case_bool_decide; auto. Qed.

Lemma mem_ok {A} (o : op A) d r d' : sql_ok d → proper o d → malformed o = false → mem (norm (Now d) o) d = (r, d') → sql_ok d'.
Proof.
  intros Hok Hp Hm H. pose proof (mem_wf (norm (Now d) o) d (ok_wf _ Hok)) as Hwf. rewrite H in Hwf. cbn [snd] in Hwf. destruct Hok as [Hw Hc Hz Ht Hs Hy Hcf].
  destruct o; cbn [malformed] in Hm; rewrite ?orb_false_iff, ?negb_false_iff in Hm; cbn [norm mem] in H; unfold reading in H; try (injection H as _ <-; by constructor).
  - destruct Hm as [Hm _]. unfold create_zone in H.
    destruct (bool_decide (is_Some _)); [injection H as _ <-; by constructor|]. destruct (any_value _ _); injection H as _ <-; [by constructor|].
    constructor; try done. cbn [zones set_zones]. apply map_Forall_insert_2; [|done]. cbn. split; [by apply isUUID_uuid|apply Hp].
  - unfold update_zone in H. destruct (zone _ _ d) as [c|] eqn:E; [|injection H as _ <-; by constructor]. apply zone_Ok in E as [E _]. injection H as _ <-.
    constructor; try done. cbn [zones set_zones]. apply map_Forall_insert_2; [|done]. cbn. exact (Hz _ _ E).
  - unfold delete_zone in H. destruct (zone _ _ d); injection H as _ <-; [|by constructor]. constructor; try done; cbn; [|by apply map_Forall_delete].
    intros k x Hx. apply map_lookup_filter_Some in Hx as [Hx _]. exact (Hc k x Hx).
  - unfold create_template in H. destruct (_ || _); injection H as _ <-; [by constructor|]. constructor; try done. cbn. apply map_Forall_insert_2; [|done]. cbn.
    destruct Hm as [Hm _]. split; [by apply isUUID_uuid|apply Hp].
  - unfold update_template in H. destruct (template _ _ d) as [c|] eqn:E; [|injection H as _ <-; by constructor]. apply template_Ok in E as [E _].
    destruct (templateNameTaken _ d); injection H as _ <-; [by constructor|]. constructor; try done. cbn. apply map_Forall_insert_2; [|done]. cbn. split; [exact (proj1 (Ht _ _ E))|apply Hp].
  - unfold delete_template in H. destruct (template _ _ d); injection H as _ <-; [|by constructor]. constructor; try done. cbn. by apply map_Forall_delete.
  - unfold create_supermaster in H. cbv zeta in H. destruct (bool_decide (_ = [])); [injection H as _ <-; by constructor|].
    destruct (bool_decide (is_Some _)); [injection H as _ <-; by constructor|]. destruct (any_value _ _); injection H as _ <-; [by constructor|]. constructor; try done. cbn. apply map_Forall_insert_2; [|done]. cbn.
    destruct Hm as [[Hm _] _]. split; [by apply isUUID_uuid|apply Hp].
  - unfold delete_supermaster in H. destruct (supermaster _ _ d); injection H as _ <-; [|by constructor]. constructor; try done. cbn. by apply map_Forall_delete.
  - unfold save_server_config in H. case_match. injection H as _ <-. constructor; try done. cbn. intros c' [= <-]. cbn. unfold jsonOr. split; case_bool_decide; done.
  - unfold set_config_hashes in H. injection H as _ <-. constructor; try done. cbn. intros c' [= <-]. cbn. destruct (config d) as [c|]; [by apply Hcf|done].
  - unfold upsert_ipam_sync in H. cbv zeta in H. destruct (_ || _); injection H as _ <-; [by constructor|]. constructor; try done. cbn. apply map_Forall_insert_2; [|done]. cbn.
    destruct Hm as [Hm _]. split_and!; [by apply isUUID_uuid|apply Hp|apply null_ok|apply null_ok].
  - unfold delete_ipam_sync in H. case_match; injection H as _ <-; [|by constructor]. constructor; try done. cbn. by apply map_Forall_delete.
  - unfold clear_sync_zone in H. injection H as _ <-. constructor; try done. cbn. intros k x Hx. apply lookup_fmap_Some in Hx as (y & <- & Hx). destruct (Hy k y Hx) as (H1 & H2 & H3 & H4).
    destruct (clear_one_ok (uuid t) (if isUUID z then uuid z else z) y (conj H3 H4)) as (-> & -> & ? & ?). done.
  - unfold insert_challenge in H. destruct (negb _); [injection H as _ <-; by constructor|]. destruct (bool_decide _); [injection H as _ <-; by constructor|].
    destruct (any_value _ _); injection H as _ <-; [by constructor|]. constructor; try done. cbn. by apply map_Forall_insert_2.
  - unfold delete_challenge in H. destruct (find_first _ _) as [[k c]|]; injection H as _ <-; [|by constructor]. constructor; try done. cbn. by apply map_Forall_delete.
Qed.

(** C4: the SQL store is the in-memory store on a database that may fail: on
    well-formed tables every method ends in one of three ways: a failure that is no
    sentinel of the store, with nothing changed, however many statements ran before
    it; a refusal as not found because an id, an address or a JSON text cannot be
    read as its column's type, with nothing changed; or exactly the answer and the
    tables that the function of the in-memory store gives for the normalised
    arguments, the conflicts and missing rows included.  The tables stay
    well-formed. *)
Theorem sql_refines A (o : op A) s r s' :
  faults_ok s → sql_ok (tables s) → proper o (tables s) → sql o s = (r, s') →
  faults_ok s' ∧ sql_ok (tables s') ∧
  ((∃ e, r = Err e ∧ fault e ∧ tables s' = tables s) ∨ (malformed o = true ∧ r = Err (New RepoErrNotFound) ∧ tables s' = tables s) ∨
   mem (norm (Now (tables s)) o) (tables s) = (r, tables s')).
Proof.
  intros Hf Hok Hp H.
  assert (Hr : faults_ok s' ∧ refines o s r s').
  { destruct o; cbn [sql] in H; revert H.
    - by apply CreateZone_refines. - by apply GetZone_refines. - by apply GetZoneByName_refines. - by apply UpdateZone_refines. - by apply DeleteZone_refines.
    - by apply ZoneConflict_refines. - by apply AllZoneNames_refines. - by apply ZonesForTenant_refines. - by apply CreateTemplate_refines. - by apply GetTemplate_refines.
    - by apply UpdateTemplate_refines. - by apply DeleteTemplate_refines. - by apply AllTemplates_refines. - by apply CreateSupermaster_refines. - by apply GetSupermaster_refines.
    - by apply DeleteSupermaster_refines. - by apply AllSupermasters_refines. - by apply GetServerConfig_refines. - by apply SaveServerConfig_refines. - by apply SetConfigHashes_refines.
    - by apply GetIPAMSync_refines. - by apply UpsertIPAMSync_refines. - by apply DeleteIPAMSync_refines. - by apply ClearSyncZone_refines. - by apply InsertChallenge_refines.
    - by apply DeleteChallenge_refines. - by apply ChallengesOlderThan_refines. - by apply TenantIDs_refines. - by apply AppendAudit_refines. }
  destruct Hr as [Hf' [(e & Hr & He & Ht)|[(Hm & Hr & Ht)|[Hr Ht]]]]; (split; [done|]).
  - rewrite Ht. split; [done|]. left. by exists e.
  - rewrite Ht. split; [done|]. right. by left.
  - split; [|by right; right]. destruct Ht as [->|Hm]; [done|by eapply mem_ok].
Qed.

(** ** Lists *)

Context {LQ : ListQuery} {LS : ListSQL}.
Lemma list_rows_run {A} spec tid ps (where_ : Session → DB → list A) req s page total req' s' :
  faults_ok s → list_rows spec tid ps where_ req s = (Ok (page, total, req'), s') →
  isUUID tid = true ∧ tables s' = tables s ∧ let l := where_ (session (mkScope tid false)) (tables s) in
  total = Z.of_nat (length l) ∧ req' = Clamp req total ∧ page = take (Z.to_nat (Limit req')) (drop (Z.to_nat (Offset req')) (Ordered spec req' l)).
Proof.
  intros Hf H. unfold list_rows, tenant in H. destruct (isUUID tid) eqn:Ht; [|done]. cbn [negb] in H. split; [done|].
  apply Tx_run in H as [[(e & He & _) _]|(s1 & r1 & s2 & Hf1 & Ht1 & E & H)]; [done| |done].
  unfold mbind, M_bind in E. destruct (stmt _ s1) as [[n|e] s3] eqn:E3 in E; apply stmt_run in E3 as [Hf3 E3]; try done; cycle 1.
  { injection E as <- <-. destruct (H Hf3) as [_ [? _]]. done. }
  destruct E3 as [(e & ? & _)|[E3 Ht3]]; [done|]. unfold with_params in E3, Ht3. destruct (bind _) as [e|] eqn:Eb in E3; [done|]. rewrite Eb in Ht3. cbn [fst snd answer] in E3, Ht3. injection E3 as ->.
  destruct (stmt _ s3) as [[items|e] s4] eqn:E4 in E; apply stmt_run in E4 as [Hf4 E4]; try done; injection E as <- <-; cycle 1.
  { destruct (H Hf4) as [_ [? _]]. done. }
  destruct E4 as [(e & ? & _)|[E4 Ht4]]; [done|]. unfold with_params in E4, Ht4. rewrite Eb in E4, Ht4. cbn [fst snd answer] in E4, Ht4. injection E4 as ->.
  destruct (H Hf4) as [_ [(e & ? & _)|[Hr Ht']]]; [done|]. injection Hr as -> -> ->. rewrite Ht', Ht4, Ht3, Ht1. done.
Qed.
(** The zone list is the filter: a successful call changes nothing, counts
    exactly the tenant's zones that the filter of the in-memory store accepts, the
    search text matched literally and without case whatever wildcards it holds, and
    answers the page of those rows that the clamped request names, in the order of
    its clause. *)
Theorem ListZones_selects t f req s page total req' s' :
  faults_ok s → ListZones t f req s = (Ok (page, total, req'), s') →
  isUUID t = true ∧ tables s' = tables s ∧
  let l := List.filter (Matches f) (List.filter (λ z, bool_decide (TenantID z = uuid t)) (values_of (zones (tables s)))) in
  total = Z.of_nat (length l) ∧ req' = Clamp req total ∧
  page = take (Z.to_nat (Limit req')) (drop (Z.to_nat (Offset req')) (Ordered Lists.ZoneList req' l)).
Proof.
  intros Hf H. unfold ListZones in H. cbv zeta in H. apply list_rows_run in H as (Ht & Htab & H); [|done]. split; [done|]. split; [done|]. cbv zeta in H |- *.
  assert (E : ∀ l, List.filter (λ z, rls (session (mkScope t false)) (TenantID z) &&
      (bool_decide (TenantID z = uuid t) && zone_filter f (if bool_decide (TrimSpace (FQuery f) = []) then [] else likePattern (FQuery f)) z)) l
    = List.filter (Matches f) (List.filter (λ z, bool_decide (TenantID z = uuid t)) l)).
  { induction l as [|z l IH]; [done|]. cbn [List.filter]. rewrite rls_tenant, zone_filter_Matches by done. destruct (bool_decide (TenantID z = uuid t)); cbn [andb List.filter]; [|done].
    by rewrite IH. }
  unfold rows in H. rewrite E in H. done.
Qed.
End Spec.

(** ** A concrete database *)

Module Concrete.
#[local] Existing Instance unicode_min.
#[local] Existing Instance listquery_all.

Definition micros (t : time) : time := t / 1000 * 1000.
#[local] Instance pg : Postgres := {|
  uuid_in s := if isUUID s then Some (map lower_byte s) else None; text_in s := bool_decide (chr 0 ∉ s); pg_lower := map lower_byte; text_ltb := str_ltb;
  timestamptz := micros; inet_host := Netip.String; jsonb_in s := if bool_decide (s = []) then None else Some s; jsonb_records := Some; jsonb_detail := Some |}.
#[local] Instance whole_list : ListSQL := {| Clamp r _ := r; Limit _ := 100; Offset _ := 0; Ordered _ _ _ l := l |}.

Lemma SplitByte_lower s : SplitByte "-" (map lower_byte s) = map (map lower_byte) (SplitByte "-" s).
Proof.
  assert (H : ∀ c, bool_decide (bool_decide (lower_byte c = "-"%char) = bool_decide (c = "-"%char)) = true) by (apply byte_dec; vm_compute; reflexivity).
  induction s as [|c s IH]; [done|]. cbn [map SplitByte]. rewrite IH. specialize (H c). apply bool_decide_eq_true in H. rewrite H.
  destruct (bool_decide (c = _)); [reflexivity|]. by destruct (SplitByte "-" s).
Qed.
Lemma isUUID_lower s : isUUID s = true → isUUID (map lower_byte s) = true ∧ map lower_byte (map lower_byte s) = map lower_byte s.
Proof.
  assert (H : ∀ c, (if hexdigit c then hexdigit (lower_byte c) else true) && bool_decide (lower_byte (lower_byte c) = lower_byte c) = true)
    by (apply byte_dec; vm_compute; reflexivity).
  intros Hs. split.
  - unfold isUUID in *. rewrite SplitByte_lower. destruct (SplitByte "-" s) as [|a [|b [|c [|d [|e [|]]]]]]; try done. cbn [map] in *. rewrite !length_map.
    apply andb_true_iff in Hs as [-> Hs]. cbn [andb]. assert (Hw : ∀ w, forallb hexdigit w = true → forallb hexdigit (map lower_byte w) = true).
    { induction w as [|x w IH]; [done|]. cbn [forallb map]. intros [Hx Hw]%andb_true_iff. specialize (H x). rewrite Hx in H. apply andb_true_iff in H as [-> _]. by apply IH. }
    cbn [forallb] in *. rewrite !andb_true_iff in *. naive_solver.
  - rewrite map_map. apply map_ext. intros c. specialize (H c). apply andb_true_iff in H as [_ H]. by apply bool_decide_eq_true in H.
Qed.
#[local] Instance pg_laws : PostgresLaws.
Proof.
  constructor.
  - intros s Hs. cbn. by rewrite Hs.
  - intros s u. cbn. destruct (isUUID s) eqn:E; [|done]. intros [= <-]. by apply isUUID_lower.
  - done.
  - done.
  - intros s j. cbn. case_bool_decide; [done|]. by intros [= <-].
Qed.

Definition tenantA : str := "AAAAAAAA-0000-4000-8000-000000000001".
Definition zone1 : Zone := mkZone "CCCCCCCC-0000-4000-8000-000000000001" tenantA "example.com." "example.com." "native" [] false "a_zone" [] "manual" [] "alice" 1234567 0.
Definition start : Sql := mkSql (empty_db 5000000) [].
Definition created := CreateZone zone1 start.
(** The row has the canonical ids and whole microseconds. *)
Definition row1 : Zone :=
  mkZone "cccccccc-0000-4000-8000-000000000001" "aaaaaaaa-0000-4000-8000-000000000001" "example.com." "example.com." "native" [] false "a_zone" [] "manual" [] "alice" 1234000 1234000.
Example created_row : created.1 = Ok () ∧ values_of (zones (tables created.2)) = [row1].
Proof. vm_compute. auto. Qed.
(** A commit that fails leaves nothing behind; a second row of the name is a conflict. *)
Example lost_commit : CreateZone zone1 (mkSql (empty_db 5000000) [None; None; None; Some (Plain "connection reset")]) = (Err (Plain "connection reset"), mkSql (empty_db 5000000) []).
Proof. vm_compute. reflexivity. Qed.
(** A wildcard of the search text is literal. *)
Example search_literal : zone_filter (mkZoneFilter "_" [] []) (likePattern "_") row1 = false ∧ zone_filter (mkZoneFilter "AMPLE" [] []) (likePattern "AMPLE") row1 = true.
Proof. vm_compute. auto. Qed.

Definition all_rows : MemStore.Request := tt.
Lemma start_ok : faults_ok start ∧ sql_ok (tables start).
Proof. split; [apply Forall_nil_2|]. constructor; try (apply map_Forall_empty); [apply empty_wf|done]. Qed.
Lemma sql_refines_witness : sql_ok (tables created.2) ∧ mem (norm 5000000 (OCreateZone zone1)) (tables start) = (Ok (), tables created.2).
Proof.
  assert (E : sql (OCreateZone zone1) start = (Ok (), created.2)) by (vm_compute; reflexivity).
  assert (Hp : proper (OCreateZone zone1) (tables start)) by (split_and!; vm_compute; done).
  destruct (sql_refines unit (OCreateZone zone1) start (Ok ()) created.2 (proj1 start_ok) (proj2 start_ok) Hp E) as (_ & Hok & [(e & ? & _)|[(Hm & _)|H]]); [done|by vm_compute in Hm|].
  split; [exact Hok|exact H].
Defined.
Lemma ListZones_selects_witness : ∃ page s', ListZones tenantA (mkZoneFilter "AMPLE" [] []) all_rows created.2 = (Ok (page, 1, all_rows), s') ∧ tables s' = tables created.2.
Proof.
  destruct (ListZones tenantA (mkZoneFilter "AMPLE" [] []) all_rows created.2) as [r s'] eqn:E.
  assert (Hr : r = (ListZones tenantA (mkZoneFilter "AMPLE" [] []) all_rows created.2).1) by (rewrite E; reflexivity). vm_compute in Hr. subst r.
  eexists _, s'. split; [reflexivity|].
  assert (Ho : outcomes created.2 = []) by (vm_compute; reflexivity). assert (Hf : faults_ok created.2) by (unfold faults_ok; rewrite Ho; apply Forall_nil_2).
  apply (ListZones_selects _ _ _ _ _ _ _ _ Hf E).
Defined.
End Concrete.
End SqlSpec.
