(* ===== verification/Grpc.v ===== *)
(** * The module-to-module API ([internal/grpcapi])

    The two gRPC servers of [dns.v1] over the zone and challenge services.  The peer
    is the identity the transport verified ([callerFunc]); an error of a service is
    never itself a gRPC status, so [GRPCError] starts at its switch.  A message
    is the record of its fields, an unset sub-message [None]. *)
From Stdlib Require Import Ascii.
From S2P Require Import Prelude GoStrings GoError Store Names Content Masters Authz MemStore Pdns RecordSets Recursor World Zones Records Acme.
Local Open Scope Z_scope.

Module Grpc.
Import Store.

(** ** gRPC statuses ([google.golang.org/grpc/codes], [status]) *)

Inductive Code := Canceled | Unknown | InvalidArgument | DeadlineExceeded | NotFound | AlreadyExists | PermissionDenied | ResourceExhausted
  | FailedPrecondition | Aborted | OutOfRange | Unimplemented | Internal | Unavailable | DataLoss | Unauthenticated.
#[global] Instance Code_eq_dec : EqDecision Code.
Proof. solve_decision. Defined.
Record Status := mkStatus { SCode : Code; SMessage : str }.
#[global] Instance Status_eq_dec : EqDecision Status.
Proof. solve_decision. Defined.
Abbreviation reply A := (Status + A)%type.

(** ** Messages ([api/proto/dns/v1/dns.proto]) *)

Record ChallengeRequest := mkChallengeRequest { CrTenantId : str; CrDomain : str; CrFqdn : str; CrValue : str }.
Record ChallengeResponse := mkChallengeResponse { CrZone : str }.
Record ZoneMsg := mkZoneMsg { PbId : str; PbName : str; PbKind : str; PbDnssec : bool; PbOrigin : str; PbDescription : str;
  PbMasters : list str; PbCreatedAt : option Z; PbUpdatedAt : option Z }.
Record ListZonesRequest := mkListZonesRequest { LrTenantId : str; LrQuery : str; LrPage : Z; LrPageSize : Z }.
Record ListZonesResponse := mkListZonesResponse { LrItems : list ZoneMsg; LrTotal : Z }.
Record GetZoneRequest := mkGetZoneRequest { GrTenantId : str; GrId : str; GrName : str }.
Record FindForNameRequest := mkFindForNameRequest { FrTenantId : str; FrName : str }.

(** ** Errors *)

Definition GRPCError (e : error) : Status :=
  if Is e ErrForbidden then mkStatus PermissionDenied "forbidden"
  else if Is e RepoErrNotFound || Is e PdnsErrNotFound then mkStatus NotFound "not_found"
  else if Is e ErrName || Is e ErrMasters then mkStatus InvalidArgument "invalid_name"
  else if Is e RepoErrConflict || Is e PdnsErrConflict then mkStatus FailedPrecondition "conflict"
  else if Is e PdnsErrUnavailable then mkStatus Unavailable "pdns_unavailable"
  else mkStatus Unavailable "temporarily_unavailable".
Definition zoneError (e : error) : Status :=
  if Is e ZonesErrNotFound then mkStatus NotFound "zone_not_found" else GRPCError e.
Definition challengeError (e : error) : Status :=
  if Is e AcmeErrInvalid then mkStatus InvalidArgument "invalid_challenge"
  else if Is e AcmeErrNotFound then mkStatus NotFound "zone_not_found"
  else if Is e AcmeErrPrecondition then mkStatus FailedPrecondition "precondition_failed"
  else if Is e PdnsErrUnavailable then mkStatus Unavailable "pdns_unavailable"
  else GRPCError e.

(** ** Zones and instants on the wire *)

Definition second : Z := 1000000000.
Definition Unix (t : time) : Z := t / second.
Definition timestamp (t : time) : option Z := if IsZero t then None else Some (Unix t).
Definition toProto (z : Zone) : ZoneMsg :=
  mkZoneMsg (ID z) (Name z) (Kind z) (DNSSEC z) (Origin z) (Description z) (Masters z) (timestamp (CreatedAt z)) (timestamp (UpdatedAt z)).

(** What the server uses of [listquery] beside the store: the largest page, the
    request for a page (its error is discarded), and the page of a request. *)
Class ListNew {LQ : ListQuery} := {
  MaxPageSize : Z;
  lq_New : Z → Z → str → str → Lists.Spec → MemStore.Request;
  Page : MemStore.Request → Z
}.
Definition pageRequest `{ListNew} (page size : Z) : MemStore.Request :=
  lq_New (Z.max page 0) (Z.min (Z.max size 0) MaxPageSize) [] [] Lists.ZoneList.

(** ** The servers *)

Record Deps := mkDeps { AllowedChallengeCaller : str; dZones : bool; dChallenges : bool }.

Section Server.
Context {U : Unicode} {DNS : MiekgDNS} {PSL : PublicSuffixList} {RRP : Content.RRParser} {LQ : ListQuery} {LN : ListNew}.
Context {S P R : Type} {RS : MemStore.RepoStore S} {PC : Pdns.PDNSClient P}.
Context (cfg : Zones.Config) (lim : RecordSets.Limits) (allowedCaller : str) (ttl : Z) (d : Deps) (peer : option str).
Abbreviation W := (World S P R).

Definition Caller (tenantID : str) : reply Authz.Subjects :=
  match peer with
  | None | Some [] => inl (mkStatus Unauthenticated "service identity required")
  | Some id => if negb (Acme.uuidRE tenantID) then inl (mkStatus InvalidArgument "tenant_id must be a uuid") else inr (Authz.ModuleSubject tenantID id)
  end.

(** A method of the zone server: the service has to be wired, the caller known. *)
Definition answer {A B} (f : A → B) (x : res A) : reply B := match x with Ok a => inr (f a) | Err e => inl (zoneError e) end.
Definition zones_method {A} (tenantID : str) (body : Authz.Subjects → M W (reply A)) : M W (reply A) :=
  if negb (dZones d) then mret (inl (mkStatus Unimplemented "zones not wired"))
  else match Caller tenantID with inl st => mret (inl st) | inr subj => body subj end.

Definition List_ (req : ListZonesRequest) : M W (reply ListZonesResponse) :=
  zones_method (LrTenantId req) (λ subj,
    let want := pageRequest (LrPage req) (LrPageSize req) in
    x ← Zones.List_ cfg subj (mkZoneFilter (LrQuery req) [] []) want;
    mret (answer (λ '(items, total, got),
      mkListZonesResponse (if bool_decide (Page got = Page want) then map toProto items else []) total) x)).
Definition Get (req : GetZoneRequest) : M W (reply ZoneMsg) :=
  zones_method (GrTenantId req) (λ subj,
    if negb (bool_decide (GrId req = [])) then x ← Zones.Owned cfg subj (GrId req); mret (answer toProto x)
    else if negb (bool_decide (TrimSpace (GrName req) = [])) then x ← Zones.ByName cfg subj (GrName req); mret (answer toProto x)
    else mret (inl (mkStatus InvalidArgument "id or name required"))).
Definition FindForName (req : FindForNameRequest) : M W (reply ZoneMsg) :=
  zones_method (FrTenantId req) (λ subj,
    if bool_decide (TrimSpace (FrName req) = []) then mret (inl (mkStatus InvalidArgument "name required"))
    else x ← Zones.FindForName cfg subj (FrName req); mret (answer toProto x)).

(** The verified peer against the configured identity, before anything else. *)
Definition admits : bool :=
  match peer with
  | None => false
  | Some p => negb (bool_decide (p = [])) && negb (bool_decide (AllowedChallengeCaller d = [])) && bool_decide (p = AllowedChallengeCaller d)
  end.
Definition admit_ (tenantID : str) : M W (reply Authz.Subjects) :=
  if negb admits then
    _ ← Acme.Refused (default [] peer) tenantID;
    mret (inl (mkStatus PermissionDenied "forbidden"))
  else mret (Caller tenantID).
Definition request (req : ChallengeRequest) : Acme.Request := Acme.mkRequest (CrDomain req) (CrFqdn req) (CrValue req).
Definition challenge_method (op : Authz.Subjects → Acme.Request → M W (res str)) (req : ChallengeRequest) : M W (reply ChallengeResponse) :=
  if negb (dChallenges d) then mret (inl (mkStatus Unimplemented "challenges not wired"))
  else
    a ← admit_ (CrTenantId req);
    match a with
    | inl st => mret (inl st)
    | inr subj =>
      x ← op subj (request req);
      mret match x with Ok zone => inr (mkChallengeResponse zone) | Err e => inl (challengeError e) end
    end.
Definition Present : ChallengeRequest → M W (reply ChallengeResponse) := challenge_method (Acme.Present cfg lim allowedCaller ttl).
Definition CleanUp : ChallengeRequest → M W (reply ChallengeResponse) := challenge_method (Acme.CleanUp cfg lim allowedCaller).
End Server.
End Grpc.
