(* ===== verification/Dnsclient.v ===== *)
(** * The module client ([pkg/dnsclient])

    The typed client other modules use, over the generated stubs of a connection; and
    a connection to the servers of [Grpc] that may lose a request or an answer. *)
From Stdlib Require Import Ascii.
From S2P Require Import Prelude GoStrings GoError Store Names Content Masters Authz MemStore Pdns RecordSets Recursor World Zones Records Acme Grpc.
Local Open Scope Z_scope.

Module Dnsclient.
Import Store Grpc.

(** The sentinel of an error with the code printed behind it. *)
Inductive kind := ErrNotFound | ErrPermissionDenied | ErrInvalid | ErrPrecondition | ErrUnavailable | ErrFailed.
#[global] Instance kind_eq_dec : EqDecision kind.
Proof. solve_decision. Defined.
Record Error := mkError { EKind : kind; ECode : Code }.

Definition mapErr (st : Status) : Error :=
  mkError match SCode st with
    | NotFound => ErrNotFound
    | PermissionDenied | Unauthenticated => ErrPermissionDenied
    | InvalidArgument => ErrInvalid
    | FailedPrecondition => ErrPrecondition
    | Unavailable | DeadlineExceeded => ErrUnavailable
    | _ => ErrFailed
    end (SCode st).

Record Zone := mkZone { ID : str; Name : str; Kind : str; DNSSEC : bool; Origin : str; Description : str; Masters : list str; CreatedAt : time; UpdatedAt : time }.
Definition toTime (t : option Z) : time := match t with Some u => if u =? 0 then 0 else u * second | None => 0 end.
Definition toZone (z : ZoneMsg) : Zone :=
  mkZone (PbId z) (PbName z) (PbKind z) (PbDnssec z) (PbOrigin z) (PbDescription z) (PbMasters z) (toTime (PbCreatedAt z)) (toTime (PbUpdatedAt z)).

(** The generated stubs over a connection. *)
Class Conn (St : Type) := {
  conn_Present : ChallengeRequest → M St (reply ChallengeResponse);
  conn_CleanUp : ChallengeRequest → M St (reply ChallengeResponse);
  conn_List : ListZonesRequest → M St (reply ListZonesResponse);
  conn_Get : GetZoneRequest → M St (reply ZoneMsg);
  conn_FindForName : FindForNameRequest → M St (reply ZoneMsg)
}.

Section Client.
Context {St : Type} {C : Conn St}.
Abbreviation result A := (Error + A)%type.

Definition returns {A B} (f : A → B) (x : reply A) : result B := match x with inl st => inl (mapErr st) | inr a => inr (f a) end.
Definition Present (tenantID domain fqdn value : str) : M St (result unit) :=
  x ← conn_Present (mkChallengeRequest tenantID domain fqdn value); mret (returns (λ _, ()) x).
Definition CleanUp (tenantID domain fqdn value : str) : M St (result unit) :=
  x ← conn_CleanUp (mkChallengeRequest tenantID domain fqdn value); mret (returns (λ _, ()) x).
Definition ListZones (tenantID query : str) (page pageSize : Z) : M St (result (list Zone * Z)) :=
  x ← conn_List (mkListZonesRequest tenantID query page pageSize); mret (returns (λ r, (map toZone (LrItems r), LrTotal r)) x).
Definition GetZone (tenantID id : str) : M St (result Zone) :=
  x ← conn_Get (mkGetZoneRequest tenantID id []); mret (returns toZone x).
Definition GetZoneByName (tenantID name : str) : M St (result Zone) :=
  x ← conn_Get (mkGetZoneRequest tenantID [] name); mret (returns toZone x).
Definition FindForName (tenantID name : str) : M St (result Zone) :=
  x ← conn_FindForName (mkFindForNameRequest tenantID name); mret (returns toZone x).
End Client.

(** A connection to the servers: a request may not arrive, and an answer may be lost
    after the server has acted; both end in a status of the transport. *)
Inductive link := Up | Unsent (st : Status) | Dropped (st : Status).

Section Connected.
Context {U : Unicode} {DNS : MiekgDNS} {PSL : PublicSuffixList} {RRP : Content.RRParser} {LQ : ListQuery} {LN : ListNew}.
Context {S P R : Type} {RS : MemStore.RepoStore S} {PC : Pdns.PDNSClient P}.
Context (cfg : Zones.Config) (lim : RecordSets.Limits) (allowedCaller : str) (ttl : Z) (d : Deps) (peer : option str).
Abbreviation W := (World S P R).
Abbreviation St := (list link * W)%type.

Definition over {A} (h : M W (reply A)) : M St (reply A) := λ '(ls, w),
  match ls with
  | [] => let '(x, w') := h w in (x, ([], w'))
  | Up :: ls => let '(x, w') := h w in (x, (ls, w'))
  | Unsent st :: ls => (inl st, (ls, w))
  | Dropped st :: ls => let '(_, w') := h w in (inl st, (ls, w'))
  end.
Definition connected : Conn St := {|
  conn_Present r := over (Grpc.Present cfg lim allowedCaller ttl d peer r);
  conn_CleanUp r := over (Grpc.CleanUp cfg lim allowedCaller d peer r);
  conn_List r := over (Grpc.List_ cfg d peer r);
  conn_Get r := over (Grpc.Get cfg d peer r);
  conn_FindForName r := over (Grpc.FindForName cfg d peer r)
|}.
End Connected.
End Dnsclient.
