(* ===== verification/GrpcSpec.v ===== *)
(** * What the module-to-module API promises

    Challenges are for the configured identity only and everyone else is refused and
    recorded before anything is read; a status carries a stable reason and nothing
    else; what a client reads is the row of the tenant it named, to the second, and
    paging until a page is empty reads every matching zone exactly once. *)
From Stdlib Require Import Ascii.
From S2P Require Import Prelude GoStrings GoError Store Names Content Masters Authz MemStore Pdns RecordSets Recursor World Zones ZonesSpec Records RecordsSpec BackupSpec Acme AcmeSpec Grpc Dnsclient.
Local Open Scope Z_scope.

Module GrpcSpec.
Import Store Grpc.

(** ** The vocabulary of the statuses *)

Definition vocabulary : list Status :=
  [mkStatus Unauthenticated "service identity required"; mkStatus InvalidArgument "tenant_id must be a uuid"; mkStatus InvalidArgument "id or name required";
   mkStatus InvalidArgument "name required"; mkStatus InvalidArgument "invalid_name"; mkStatus InvalidArgument "invalid_challenge"; mkStatus PermissionDenied "forbidden";
   mkStatus NotFound "not_found"; mkStatus NotFound "zone_not_found"; mkStatus FailedPrecondition "conflict"; mkStatus FailedPrecondition "precondition_failed";
   mkStatus Unavailable "pdns_unavailable"; mkStatus Unavailable "temporarily_unavailable"; mkStatus Unimplemented "zones not wired"; mkStatus Unimplemented "challenges not wired"].
Lemma in_vocabulary st : bool_decide (st ∈ vocabulary) = true → st ∈ vocabulary.
Proof. by rewrite bool_decide_eq_true. Qed.
Ltac stable := apply in_vocabulary; vm_compute; reflexivity.
Lemma GRPCError_stable e : GRPCError e ∈ vocabulary.
Proof. unfold GRPCError. destruct (Is e _); [stable|]. do 3 (destruct (Is e _ || Is e _); [stable|]). destruct (Is e _); stable. Qed.
Lemma zoneError_stable e : zoneError e ∈ vocabulary.
Proof. unfold zoneError. destruct (Is e _); [stable|apply GRPCError_stable]. Qed.
Lemma challengeError_stable e : challengeError e ∈ vocabulary.
Proof. unfold challengeError. do 4 (destruct (Is e _); [stable|]). apply GRPCError_stable. Qed.

(** A fault of the store is no sentinel: it reads as a passing failure. *)
Lemma fault_zoneError e : MemStore.fault e → zoneError e = mkStatus Unavailable "temporarily_unavailable".
Proof.
  intros H. assert (Hn : ∀ s, Is e s = false) by (intros s; eapply only_kinds_not; [exact H|apply not_elem_of_nil]).
  unfold zoneError, GRPCError. by rewrite !Hn.
Qed.

Section Server.
Context {U : Unicode} {DNS : MiekgDNS} {PSL : PublicSuffixList} {LAWS : MiekgDNSLaws} {RRP : Content.RRParser} {TXTL : AcmeSpec.TXTLaws} {LQ : ListQuery} {LN : ListNew}.
Context {S P R : Type} {RS : MemStore.RepoStore S} {PC : Pdns.PDNSClient P}.
Context (cfg : Zones.Config) (lim : RecordSets.Limits) (allowedCaller : str) (ttl : Z) (d : Deps) (peer : option str).
Abbreviation W := (World S P R).

Lemma Caller_run t x : Caller peer t = x →
  match x with
  | inl st => st ∈ vocabulary
  | inr subj => ∃ id, peer = Some id ∧ id ≠ [] ∧ Acme.uuidRE t = true ∧ subj = Authz.ModuleSubject t id
  end.
Proof.
  intros <-. unfold Caller. destruct peer as [[|c p]|]; [stable| |stable]. destruct (Acme.uuidRE t); cbn [negb]; [|stable]. by exists (c :: p).
Qed.
Lemma admits_peer : admits d peer = true → peer = Some (AllowedChallengeCaller d) ∧ AllowedChallengeCaller d ≠ [].
Proof. unfold admits. destruct peer as [p|]; [|done]. rewrite !andb_true_iff, !negb_true_iff, !bool_decide_eq_false, bool_decide_eq_true. by intros [[? ?] ->]. Qed.

(** ** Challenges *)

Inductive rpc := RPresent | RCleanUp.
Definition challenge (op : rpc) : ChallengeRequest → M W (reply ChallengeResponse) :=
  match op with RPresent => Present cfg lim allowedCaller ttl d peer | RCleanUp => CleanUp cfg lim allowedCaller d peer end.
Definition entry_after (op : rpc) (v : str) : option (Z * list Pdns.Record_) → option (Z * list Pdns.Record_) :=
  match op with RPresent => AcmeSpec.with_value ttl v | RCleanUp => AcmeSpec.without_value v end.

(** What a refused call leaves: one record of the refusal and one count. *)
Definition refusal (t : str) : AuditEvent.Event :=
  AuditEvent.mkEvent (if Acme.uuidRE t then t else NilTenant) Acme.ChallengeRefused Authz.ActorModule
    (if bool_decide (default [] peer = []) then lit "unknown" else default [] peer) AuditEvent.SubjectChallenge [] AuditEvent.OutcomeRefused "forbidden" [].

Definition service (op : rpc) : Authz.Subjects → Acme.Request → M W (res str) :=
  match op with RPresent => Acme.Present cfg lim allowedCaller ttl | RCleanUp => Acme.CleanUp cfg lim allowedCaller end.
Lemma challenge_method_op op req : challenge op req = challenge_method d peer (service op) req.
Proof. by destruct op. Qed.
Lemma challenge_op op subj r w x w' :
  ZonesSpec.zinv w → AcmeSpec.txt_clean w →
  service op subj r w = (x, w') →
  match x with
  | Err _ => Zones.wsrv w' = Zones.wsrv w ∧ Zones.wdb w' = Zones.wdb w
  | Ok zn => ∃ z fqdn n pz, Name z = zn ∧ AcmeSpec.admitted allowedCaller subj r w z fqdn ∧ Validate.RecordName (Name z) fqdn = Ok n ∧
      AcmeSpec.txt_now z n w w' pz (entry_after op (Acme.RqValue r) (Pdns.meaning (Pdns.PRRsets pz) !! (n, Acme.TXT)))
  end.
Proof.
  destruct op; cbn [entry_after].
  - apply (AcmeSpec.operation_run cfg allowedCaller (λ ws z fqdn, Acme.present cfg lim ttl ws z fqdn (Acme.RqValue r)) (AcmeSpec.with_value ttl (Acme.RqValue r))).
    intros *. apply AcmeSpec.present_run.
  - apply (AcmeSpec.operation_run cfg allowedCaller (λ ws z fqdn, Acme.remove lim ws z fqdn (Acme.RqValue r)) (AcmeSpec.without_value (Acme.RqValue r))).
    intros *. intros Hok Hfix _. by apply AcmeSpec.remove_value_run.
Qed.

(** C8: challenges are for the certificate service only.  A call whose verified
    peer is not the configured identity is answered "forbidden" and leaves the store,
    PowerDNS, the recursor and the events exactly as they were, whatever it asks for;
    one audit record names the peer.  Any failure carries a stable reason and leaves
    the tables and the server as they were.  A success was for the configured
    identity and a tenant id that is a UUID, and of all entries of all zones exactly
    the TXT entry of the challenge name of that tenant's most specific zone changed,
    by the one value. *)
Theorem challenges_guarded op req w x w' :
  dChallenges d = true → ZonesSpec.zinv w → AcmeSpec.txt_clean w → challenge op req w = (x, w') →
  (admits d peer = false → x = inl (mkStatus PermissionDenied "forbidden") ∧
     w_store w' = w_store w ∧ w_pdns w' = w_pdns w ∧ w_rec w' = w_rec w ∧ w_events w' = w_events w ∧ w_audit w' = w_audit w ++ [refusal (CrTenantId req)]) ∧
  match x with
  | inl st => st ∈ vocabulary ∧ Zones.wsrv w' = Zones.wsrv w ∧ Zones.wdb w' = Zones.wdb w
  | inr resp => peer = Some (AllowedChallengeCaller d) ∧ Acme.uuidRE (CrTenantId req) = true ∧
      ∃ z fqdn n pz, Name z = CrZone resp ∧
        AcmeSpec.admitted allowedCaller (Authz.ModuleSubject (CrTenantId req) (AllowedChallengeCaller d)) (request req) w z fqdn ∧
        Validate.RecordName (Name z) fqdn = Ok n ∧
        AcmeSpec.txt_now z n w w' pz (entry_after op (CrValue req) (Pdns.meaning (Pdns.PRRsets pz) !! (n, Acme.TXT)))
  end.
Proof.
  intros Hd Hi Hc H. rewrite challenge_method_op in H. unfold challenge_method, admit_ in H. rewrite Hd in H. cbn [negb] in H.
  destruct (admits d peer) eqn:Ea; cbn [negb] in H; cycle 1.
  { injection H as <- <-. split; [done|]. split; [stable|done]. }
  split; [done|]. apply admits_peer in Ea as [Hp _]. Zones.run_bind H a w1 E. injection E as <- <-.
  pose proof (Caller_run (CrTenantId req) _ eq_refl) as Hr. destruct (Caller peer _) as [st|subj]; [by injection H as <- <-|].
  destruct Hr as (id & Hid & _ & Hu & ->). rewrite Hp in Hid. injection Hid as <-.
  Zones.run_bind H y w2 E. apply challenge_op in E; [|done..]. injection H as <- <-.
  destruct y as [zn|e]; [by split_and!|]. split; [apply challengeError_stable|done].
Qed.
End Server.

(** ** What a client reads *)

(** The row as a client sees it: its instants are whole seconds. *)
Definition seconds (t : time) : time := t / second * second.
Definition view (z : Zone) : Dnsclient.Zone :=
  Dnsclient.mkZone (ID z) (Name z) (Kind z) (DNSSEC z) (Origin z) (Description z) (Masters z) (seconds (CreatedAt z)) (seconds (UpdatedAt z)).
Lemma timestamp_roundtrip t : Dnsclient.toTime (timestamp t) = seconds t.
Proof.
  unfold timestamp, IsZero, seconds, Unix. destruct (Z.eqb_spec t 0) as [->|_]; [done|]. cbn [Dnsclient.toTime].
  destruct (Z.eqb_spec (t / second) 0) as [->|_]; lia.
Qed.
Lemma toZone_toProto z : Dnsclient.toZone (toProto z) = view z.
Proof. unfold Dnsclient.toZone, toProto, view. cbn. by rewrite !timestamp_roundtrip. Qed.

Section Client.
Context {U : Unicode} {DNS : MiekgDNS} {PSL : PublicSuffixList} {LAWS : MiekgDNSLaws} {RRP : Content.RRParser} {LQ : ListQuery} {LN : ListNew}.
Context {S P R : Type} {RS : MemStore.RepoStore S} {PC : Pdns.PDNSClient P}.
Context (cfg : Zones.Config) (lim : RecordSets.Limits) (allowedCaller : str) (ttl : Z) (d : Deps) (peer : option str).
Abbreviation W := (World S P R).
#[local] Instance conn : Dnsclient.Conn (list Dnsclient.link * W) := Dnsclient.connected cfg lim allowedCaller ttl d peer.

Definition up (ls : list Dnsclient.link) : Prop := Forall (λ l, l = Dnsclient.Up) ls.
(** The server acts at most once, and the client gets its answer or a status of the
    transport. *)
Lemma over_run {A} (h : M W (reply A)) ls w x ls' w' :
  Dnsclient.over h (ls, w) = (x, (ls', w')) →
  ((w' = w ∧ ∃ st, x = inl st ∧ ¬ up ls) ∨ ∃ y, h w = (y, w') ∧ (x = y ∨ ∃ st, x = inl st ∧ ¬ up ls)) ∧ (up ls → up ls').
Proof.
  assert (Hn : ∀ l k, l ≠ Dnsclient.Up → ¬ up (l :: k)) by (intros l k Hl [? _]%Forall_cons_1; done).
  unfold Dnsclient.over. destruct ls as [|[|st|st] ls].
  - destruct (h w) as [y w1] eqn:E. intros [= <- <- <-]. split; [right; by exists y; auto|done].
  - destruct (h w) as [y w1] eqn:E. intros [= <- <- <-]. split; [right; by exists y; auto|]. by intros [_ ?]%Forall_cons_1.
  - intros [= <- <- <-]. split; [left; split; [done|]; exists st; auto|]. by intros [_ ?]%Forall_cons_1.
  - destruct (h w) as [y w1] eqn:E. intros [= <- <- <-]. split; [|by intros [_ ?]%Forall_cons_1]. right. exists y. split; [done|right]. exists st. auto.
Qed.

(** A peer that presents an identity, a tenant id that is a UUID, a wired service. *)
Definition known (t : str) : Prop := dZones d = true ∧ (∃ id, peer = Some id ∧ id ≠ []) ∧ Acme.uuidRE t = true.
Lemma guard_module t id : Acme.uuidRE t = true → id ≠ [] → Zones.guard cfg (Authz.ModuleSubject t id) Authz.ZonesRead = Ok ().
Proof.
  intros Ht Hid. unfold Zones.guard, Authz.Require_. cbn [Authz.STenantID Authz.ModuleSubject Authz.ActorKind Authz.PeerSPIFFE].
  rewrite (bool_decide_eq_false_2 (t = [])) by (intros ->; by vm_compute in Ht). rewrite (bool_decide_eq_false_2 (id = [])) by done.
  by destruct (Zones.cChecker cfg).
Qed.

(** A method of the zone server refuses with a stable reason and without reading, or
    runs for the tenant that was named. *)
Lemma zones_method_run {A} t (body : Authz.Subjects → M W (reply A)) w x w' :
  zones_method d peer t body w = (x, w') →
  (∃ st, x = inl st ∧ st ∈ vocabulary ∧ w' = w ∧ ¬ known t) ∨
  ∃ id, known t ∧ Zones.guard cfg (Authz.ModuleSubject t id) Authz.ZonesRead = Ok () ∧ body (Authz.ModuleSubject t id) w = (x, w').
Proof.
  unfold zones_method. destruct (dZones d) eqn:Ed; cbn [negb]; cycle 1.
  { intros [= <- <-]. left. eexists. split_and!; [done|stable|done|]. intros [? _]. congruence. }
  destruct (Caller peer t) as [st|subj] eqn:Ec; intros H; pose proof (Caller_run peer t _ Ec) as Hc; cbn beta iota in Hc.
  - injection H as <- <-. left. exists st. split_and!; try done. intros (_ & (id & Hp & Hid) & Hu). unfold Caller in Ec. rewrite Hp, Hu in Ec. by destruct id.
  - destruct Hc as (id & Hp & Hid & Hu & ->). right. exists id. split; [|split; [by apply guard_module|done]]. split; [done|]. split; [by exists id|done].
Qed.

Inductive query := ById (id : str) | ByName (name : str) | ForName (name : str).
Definition read (t : str) (q : query) : M (list Dnsclient.link * W) (Dnsclient.Error + Dnsclient.Zone) :=
  match q with
  | ById id => Dnsclient.GetZone t id
  | ByName name => Dnsclient.GetZoneByName t name
  | ForName name => Dnsclient.FindForName t name
  end.
(** The zone of the tenant a query names. *)
Definition found {A} (x : res A) : option A := match x with Ok a => Some a | Err _ => None end.
Definition named (t : str) (q : query) (db : MemStore.DB) : option Zone :=
  match q with
  | ById id => found (MemStore.zone t id db)
  | ByName name => n ← Zones.canonicalFQDN name; found (MemStore.get_zone_by_name t n db)
  | ForName name => n ← Zones.canonicalFQDN name; LongestZone (MemStore.tenantZones t db) n
  end.
Definition asked (q : query) : Prop := match q with ById id => id ≠ [] | ByName name | ForName name => TrimSpace name ≠ [] end.

(** One lookup of the zone service for a module: it reads, and finds the row, or
    there is none, or the store failed. *)
Definition looked_up (o : option Zone) (x : res Zone) : Prop :=
  match x with
  | Ok z => o = Some z
  | Err e => zoneError e = mkStatus Unavailable "temporarily_unavailable" ∨ zoneError e = mkStatus NotFound "zone_not_found" ∧ o = None
  end.
Lemma lookup_run (m : M W (res Zone)) (o : option Zone) (w : W) (y : reply ZoneMsg) (w' : W) :
  (∀ x w', m w = (x, w') → Zones.same w w' ∧ looked_up o x) → (x ← m; mret (answer toProto x)) w = (y, w') →
  Zones.same w w' ∧ match y with
    | inr msg => ∃ z, o = Some z ∧ msg = toProto z
    | inl st => st = mkStatus Unavailable "temporarily_unavailable" ∨ st = mkStatus NotFound "zone_not_found" ∧ o = None
    end.
Proof.
  intros Hm H. Zones.run_bind H v w1 E. injection H as <- <-. destruct (Hm _ _ eq_refl) as [Hs Hl]. split; [done|].
  destruct v as [z|e]; cbn [answer]; [by exists z|done].
Qed.
Lemma none_looked_up (o : option Zone) : o = None → looked_up o (Err (New ZonesErrNotFound)).
Proof. by right. Qed.
Lemma fault_looked_up (o : option Zone) e : MemStore.fault e → looked_up o (Err e).
Proof. left. by apply fault_zoneError. Qed.

Lemma Owned_lookup t id i (w : W) x w' :
  Zones.guard cfg (Authz.ModuleSubject t i) Authz.ZonesRead = Ok () → Zones.Owned cfg (Authz.ModuleSubject t i) id w = (x, w') →
  Zones.same w w' ∧ looked_up (named t (ById id) (Zones.wdb w)) x.
Proof.
  intros Hg H. unfold Zones.Owned in H. rewrite Hg in H. unfold Zones.owned in H. Zones.run_bind H y w1 E. injection H as <- <-.
  apply (Zones.on_store_read _ _ _ _ _ (MemStore.repo_GetZone_ok _ _)) in E as (Hs & _ & [(e & -> & He)| ->]); (split; [done|]).
  - destruct (MemStore.fault_kinds e He) as [-> _]. by apply fault_looked_up.
  - cbn [named Authz.ModuleSubject Authz.STenantID]. unfold MemStore.zone. destruct (MemStore.zones _ !! id) as [z|]; [|by apply none_looked_up].
    case_bool_decide; [done|by apply none_looked_up].
Qed.
Lemma ByName_lookup t name i (w : W) x w' :
  Zones.guard cfg (Authz.ModuleSubject t i) Authz.ZonesRead = Ok () → Zones.ByName cfg (Authz.ModuleSubject t i) name w = (x, w') →
  Zones.same w w' ∧ looked_up (named t (ByName name) (Zones.wdb w)) x.
Proof.
  intros Hg H. unfold Zones.ByName in H. rewrite Hg in H. cbn [named]. destruct (Zones.canonicalFQDN name) as [n|]; cbn [mbind option_bind].
  2:{ injection H as <- <-. split; [done|]. by apply none_looked_up. }
  Zones.run_bind H y w1 E. injection H as <- <-.
  apply (Zones.on_store_read _ _ _ _ _ (MemStore.repo_GetZoneByName_ok _ _)) in E as (Hs & _ & [(e & -> & He)| ->]); (split; [done|]).
  - destruct (MemStore.fault_kinds e He) as [-> _]. by apply fault_looked_up.
  - cbn [Authz.ModuleSubject Authz.STenantID]. unfold MemStore.get_zone_by_name. destruct (find_first _ _); [done|by apply none_looked_up].
Qed.
Lemma FindForName_lookup t name i (w : W) x w' :
  Zones.guard cfg (Authz.ModuleSubject t i) Authz.ZonesRead = Ok () → Zones.FindForName cfg (Authz.ModuleSubject t i) name w = (x, w') →
  Zones.same w w' ∧ looked_up (named t (ForName name) (Zones.wdb w)) x.
Proof.
  intros Hg H. unfold Zones.FindForName in H. rewrite Hg in H. cbn [named]. destruct (Zones.canonicalFQDN name) as [n|]; cbn [mbind option_bind].
  2:{ injection H as <- <-. split; [done|]. by apply none_looked_up. }
  Zones.run_bind H y w1 E. apply (Zones.on_store_read _ _ _ _ _ (MemStore.repo_ZonesForTenant_ok _)) in E as (Hs & _ & [(e & -> & He)| ->]); injection H as <- <-; (split; [done|]).
  - by apply fault_looked_up.
  - cbn [Authz.ModuleSubject Authz.STenantID]. destruct (LongestZone _ n) as [z|]; [done|by apply none_looked_up].
Qed.

Definition serve_query (t : str) (q : query) : M W (reply ZoneMsg) :=
  match q with
  | ById id => Get cfg d peer (mkGetZoneRequest t id [])
  | ByName name => Get cfg d peer (mkGetZoneRequest t [] name)
  | ForName name => FindForName cfg d peer (mkFindForNameRequest t name)
  end.
Lemma read_over t q : read t q = (x ← Dnsclient.over (serve_query t q); mret (Dnsclient.returns Dnsclient.toZone x)).
Proof. by destruct q. Qed.
Lemma serve_query_run t q (w : W) y w' :
  serve_query t q w = (y, w') →
  Zones.same w w' ∧ match y with
    | inr msg => known t ∧ ∃ z, named t q (Zones.wdb w) = Some z ∧ msg = toProto z
    | inl st => known t → asked q → st = mkStatus Unavailable "temporarily_unavailable" ∨ st = mkStatus NotFound "zone_not_found" ∧ named t q (Zones.wdb w) = None
    end.
Proof.
  intros H. assert (Hb : ∃ body, serve_query t q = zones_method d peer t body ∧ ∀ i, Zones.guard cfg (Authz.ModuleSubject t i) Authz.ZonesRead = Ok () →
      ∀ y w', body (Authz.ModuleSubject t i) w = (y, w') → (¬ asked q ∧ w' = w ∧ ∃ st, y = inl st) ∨
      Zones.same w w' ∧ match y with
        | inr msg => ∃ z, named t q (Zones.wdb w) = Some z ∧ msg = toProto z
        | inl st => st = mkStatus Unavailable "temporarily_unavailable" ∨ st = mkStatus NotFound "zone_not_found" ∧ named t q (Zones.wdb w) = None
        end).
  { destruct q as [id|name|name]; (eexists; split; [reflexivity|]); intros i Hg y0 w0; cbn [GrId GrName FrName asked].
    - case_bool_decide as Hi; cbn [negb].
      + intros [= <- <-]. left. split; [auto|]. eauto.
      + intros E. right. eapply lookup_run; [|exact E]. intros *. by apply Owned_lookup.
    - rewrite (bool_decide_eq_true_2 ([] = [])) by done. cbn [negb]. case_bool_decide as Hi; cbn [negb].
      + intros [= <- <-]. left. split; [auto|]. eauto.
      + intros E. right. eapply lookup_run; [|exact E]. intros *. by apply ByName_lookup.
    - case_bool_decide as Hi.
      + intros [= <- <-]. left. split; [auto|]. eauto.
      + intros E. right. eapply lookup_run; [|exact E]. intros *. by apply FindForName_lookup. }
  destruct Hb as (body & Eb & Hb). rewrite Eb in H. apply zones_method_run in H as [(st & -> & _ & -> & Hn)|(i & Hk & Hg & H)].
  - split; [done|]. by intros ?%Hn.
  - apply Hb in H as [(Ha & -> & st & ->)|[Hs H]]; [|split; [done|by destruct y; auto]|done]. split; [done|]. by intros _ ?%Ha.
Qed.

(** C23: what a module reads is the row.  Reading a zone through the client changes
    nothing, whatever the connection loses.  An answer is the zone of the tenant the
    caller named, by its id, by its name or as the most specific one that holds the
    name, field by field and to the second; and on a connection that loses nothing a
    known caller that asks for something is told "not found" only when the tenant
    has no such zone, and "unavailable" otherwise. *)
Theorem client_reads t q ls (w : W) x ls' w' :
  read t q (ls, w) = (x, (ls', w')) →
  Zones.same w w' ∧ match x with
  | inr cz => known t ∧ ∃ z, named t q (Zones.wdb w) = Some z ∧ cz = view z
  | inl e => up ls → known t → asked q →
      Dnsclient.EKind e = Dnsclient.ErrUnavailable ∨ Dnsclient.EKind e = Dnsclient.ErrNotFound ∧ named t q (Zones.wdb w) = None
  end.
Proof.
  rewrite read_over. intros H. Zones.run_bind H y s1 E. destruct s1 as [ls1 w1]. injection H as <- <- <-.
  apply over_run in E as [[(-> & st & -> & Hn)|(y' & E & Hy)] _].
  - split; [done|]. by intros ?%Hn.
  - apply serve_query_run in E as [Hs E]. split; [done|]. destruct Hy as [->|(st & -> & Hn)]; [|by intros ?%Hn].
    destruct y' as [st|msg]; cbn [Dnsclient.returns].
    + intros _ Hk Ha. destruct (E Hk Ha) as [->|[-> Hnone]]; [by left|by right].
    + destruct E as (Hk & z & Hz & ->). split; [done|]. exists z. split; [done|]. apply toZone_toProto.
Qed.

(** ** Paging *)

(** The documented behaviour of [listquery] for a bounded page of the default order:
    a page beyond the last is the last, the window is the slice of the page, and the
    order does not depend on the page. *)
Definition last_page {A} (l : list A) (n : Z) : Z := Z.max 1 ((Z.of_nat (length l) + n - 1) / n).
Definition slice {A} (l : list A) (n p : Z) : list A := take (Z.to_nat n) (drop (Z.to_nat ((p - 1) * n)) l).
Class ListPaging : Prop := {
  lq_Page p n sp : 1 ≤ p → 1 ≤ n ≤ MaxPageSize → Page (lq_New p n [] [] sp) = p;
  lq_Window {A} (l : list A) p n sp : 1 ≤ p → 1 ≤ n ≤ MaxPageSize →
    (Window l (lq_New p n [] [] sp)).1.1 = slice l n (Z.min p (last_page l n)) ∧ Page (Window l (lq_New p n [] [] sp)).2 = Z.min p (last_page l n);
  lq_order {A} (l : list A) p p' n sp k t : SortSlice l (lq_New p n [] [] sp) k t = SortSlice l (lq_New p' n [] [] sp) k t
}.
Context {LQL : ListQueryLaws} {LP : ListPaging}.

Definition matching (t q : str) (db : MemStore.DB) : list Zone := List.filter (Matches (mkZoneFilter q [] [])) (MemStore.tenantZones t db).
Definition ordered (t q : str) (n : Z) (db : MemStore.DB) : list Zone :=
  SortSlice (matching t q db) (lq_New 1 n [] [] Lists.ZoneList) MemStore.zoneKey ID.

Lemma slice_beyond {A} (l : list A) n p : 1 ≤ n → last_page l n < p → slice l n p = [].
Proof.
  unfold last_page, slice. intros Hn Hp. rewrite drop_ge; [apply take_nil|]. apply Nat2Z.inj_le.
  assert (Hq : (Z.of_nat (length l) + n - 1) / n ≤ p - 1) by lia. pose proof (Z.div_mod (Z.of_nat (length l) + n - 1) n ltac:(lia)) as Hd.
  pose proof (Z.mod_pos_bound (Z.of_nat (length l) + n - 1) n ltac:(lia)) as Hm. rewrite Z2Nat.id; nia.
Qed.
Lemma list_page_run t q p n (w : W) y w' :
  1 ≤ p → 1 ≤ n ≤ MaxPageSize → List_ cfg d peer (mkListZonesRequest t q p n) w = (y, w') →
  Zones.same w w' ∧ match y with
    | inr r => LrItems r = map toProto (slice (ordered t q n (Zones.wdb w)) n p)
    | inl st => known t → st = mkStatus Unavailable "temporarily_unavailable"
    end.
Proof.
  intros Hp Hn H. unfold List_ in H. cbn [LrTenantId LrPage LrPageSize LrQuery] in H.
  apply zones_method_run in H as [(st & -> & _ & -> & Hk)|(i & Hk & Hg & H)]; [split; [done|by intros ?%Hk]|].
  cbv zeta in H. unfold pageRequest in H. rewrite (Z.max_l p 0), (Z.max_l n 0), (Z.min_l n) in H by lia.
  Zones.run_bind H x w1 E. injection H as <- <-. unfold Zones.List_ in E. rewrite Hg in E.
  apply (Zones.on_store_read _ _ _ _ _ (MemStore.repo_ListZones_ok _ _ _)) in E as (Hs & _ & [(e & -> & He)| ->]); (split; [done|]); cbn [answer].
  - intros _. by apply fault_zoneError.
  - cbn [Authz.ModuleSubject Authz.STenantID]. unfold MemStore.list_zones. rewrite (lq_order _ p 1 n). fold (matching t q (Zones.wdb w)). fold (ordered t q n (Zones.wdb w)).
    destruct (lq_Window (ordered t q n (Zones.wdb w)) p n Lists.ZoneList Hp Hn) as [Hw Hpg]. destruct (Window _ _) as [[items total] got]. cbn [fst snd LrItems] in *.
    rewrite lq_Page by done. subst items. rewrite Hpg. case_bool_decide as Hq.
    + by rewrite Hq.
    + by rewrite slice_beyond by lia.
Qed.

(** A caller that asks for page after page until one is empty; [None] when it gave up. *)
Fixpoint pages (t q : str) (n : Z) (fuel : nat) (p : Z) : M (list Dnsclient.link * W) (option (Dnsclient.Error + list Dnsclient.Zone)) :=
  match fuel with
  | O => mret None
  | Datatypes.S fuel =>
    x ← Dnsclient.ListZones t q p n;
    match x with
    | inl e => mret (Some (inl e))
    | inr ([], _) => mret (Some (inr []))
    | inr (items, _) => y ← pages t q n fuel (p + 1); mret match y with Some (inr rest) => Some (inr (items ++ rest)) | o => o end
    end
  end.
Definition paged (l : list Zone) (n p : Z) : list Zone := drop (Z.to_nat ((p - 1) * n)) l.
Lemma paged_step l n p : 1 ≤ p → 1 ≤ n → paged l n p = slice l n p ++ paged l n (p + 1).
Proof.
  intros Hp Hn. unfold paged, slice. replace (Z.to_nat ((p + 1 - 1) * n)) with (Z.to_nat ((p - 1) * n) + Z.to_nat n)%nat by nia.
  by rewrite <- drop_drop, take_drop.
Qed.
Lemma pages_run t q n fuel : 1 ≤ n ≤ MaxPageSize → ∀ p ls (w : W) x ls' w', 1 ≤ p →
  pages t q n fuel p (ls, w) = (x, (ls', w')) → let l := ordered t q n (Zones.wdb w) in
  Zones.same w w' ∧ match x with
    | None => (fuel ≤ length (paged l n p))%nat
    | Some (inr zs) => zs = map view (paged l n p)
    | Some (inl e) => up ls → known t → Dnsclient.EKind e = Dnsclient.ErrUnavailable
    end.
Proof.
  intros Hn. induction fuel as [|fuel IH]; intros p ls w x ls' w' Hp H; cbn [pages] in H; cbv zeta.
  { injection H as <- <- <-. split; [done|lia]. }
  Zones.run_bind H r s1 E. unfold Dnsclient.ListZones in E. Zones.run_bind E y s2 E2. destruct s2 as [ls2 w2]. injection E as <- <-.
  cbn [conn Dnsclient.conn_List Dnsclient.connected] in E2. apply over_run in E2 as [E2 Hup].
  assert (Hserved : Zones.same w w2 ∧ match y with
    | inr r => LrItems r = map toProto (slice (ordered t q n (Zones.wdb w)) n p)
    | inl st => up ls → known t → SCode st = Unavailable end).
  { destruct E2 as [(-> & st & -> & Hl)|(y' & E2 & Hy)]; [split; [done|by intros ?%Hl]|]. apply list_page_run in E2 as [Hs E2]; [|done..]. split; [done|].
    destruct Hy as [->|(st & -> & Hl)]; [|by intros ?%Hl]. destruct y'; [|done]. intros _ Hk. by rewrite (E2 Hk). }
  clear E2. destruct Hserved as [Hs Hy]. destruct y as [st|resp]; cbn [Dnsclient.returns] in H.
  { injection H as <- <- <-. split; [done|]. intros Hu Hk. unfold Dnsclient.mapErr. cbn [Dnsclient.EKind]. by rewrite (Hy Hu Hk). }
  rewrite Hy, map_map, (map_ext _ _ toZone_toProto) in H. set (l := ordered t q n (Zones.wdb w)) in *.
  pose proof (paged_step l n p Hp ltac:(lia)) as Hstep. destruct (slice l n p) as [|z zs] eqn:Esl; cbn [map] in H.
  - injection H as <- <- <-. split; [done|]. unfold slice in Esl. destruct (paged l n p) as [|z0 rest] eqn:Epg; [done|]. exfalso.
    unfold paged in Epg. rewrite Epg in Esl. replace (Z.to_nat n) with (Datatypes.S (Z.to_nat n - 1)) in Esl by lia. done.
  - Zones.run_bind H o s3 E3. destruct s3 as [ls3 w3]. injection H as <- <- <-. apply IH in E3 as [Hs3 E3]; [|lia].
    assert (Hl : ordered t q n (Zones.wdb w2) = l) by (unfold l; by rewrite (proj1 Hs)). rewrite Hl in E3. split; [by eapply Zones.same_trans|].
    rewrite Hstep. destruct o as [[e|rest]|]; [auto|subst rest; by rewrite map_app|]. rewrite length_app. cbn [length]. lia.
Qed.

(** C22: a caller that pages until a page is empty has read every zone of the
    tenant whose name matches exactly once, in one order, whatever the page size.  It
    never asks for more than one page beyond the number of those zones, reads change
    nothing, and on a connection that loses nothing only a failing store stops it. *)
Theorem client_pages t q n fuel ls (w : W) x ls' w' :
  1 ≤ n ≤ MaxPageSize → (length (matching t q (Zones.wdb w)) < fuel)%nat → pages t q n fuel 1 (ls, w) = (x, (ls', w')) →
  Zones.same w w' ∧ match x with
  | None => False
  | Some (inr zs) => zs = map view (ordered t q n (Zones.wdb w)) ∧ zs ≡ₚ map view (matching t q (Zones.wdb w))
  | Some (inl e) => up ls → known t → Dnsclient.EKind e = Dnsclient.ErrUnavailable
  end.
Proof.
  intros Hn Hf H. apply pages_run in H as [Hs H]; [|done|lia]. cbv zeta in H. split; [done|].
  assert (Hperm : ordered t q n (Zones.wdb w) ≡ₚ matching t q (Zones.wdb w)) by apply SortSlice_perm.
  assert (Hall : paged (ordered t q n (Zones.wdb w)) n 1 = ordered t q n (Zones.wdb w)) by (unfold paged; by rewrite drop_0). rewrite Hall in H.
  destruct x as [[e|zs]|]; [done| |].
  - split; [done|]. rewrite H. by apply Permutation_map.
  - apply Permutation_length in Hperm. lia.
Qed.
End Client.

(** ** A concrete deployment *)

Module Concrete.
Import BackupSpec.Concrete.
#[local] Existing Instance unicode_min.
#[local] Existing Instance miekg_plain.
#[local] Existing Instance miekg_plain_laws.
#[local] Existing Instance psl_tld.
#[local] Existing Instance Content.rr_plain.
#[local] Existing Instance AcmeSpec.Concrete.rr_plain_txt.
#[local] Existing Instance ZonesSpec.Concrete.no_templates.

(** Pages of an unsorted list. *)
#[local] Instance listquery_pages : ListQuery := {|
  Request := (Z * Z)%type; SortSlice A l _ _ _ := l;
  Window A l r := let q := Z.min r.1 (last_page l r.2) in (slice l r.2 q, Z.of_nat (length l), (q, r.2)) |}.
#[local] Instance new_pages : ListNew := {| MaxPageSize := 100; lq_New p n _ _ _ := (Z.max p 1, if n =? 0 then 25 else n); Page r := r.1 |}.
#[local] Instance pages_laws : ListQueryLaws.
Proof.
  split; [done| |done]. intros A l [p n] x. cbn. unfold slice. intros [i Hi]%list_elem_of_lookup. apply lookup_take_Some in Hi as [Hi _].
  rewrite lookup_drop in Hi. by apply list_elem_of_lookup_2 in Hi.
Qed.
#[local] Instance pages_paging : ListPaging.
Proof.
  split.
  - intros p n sp Hp Hn. cbn. lia.
  - intros A l p n sp Hp Hn. cbn. rewrite (proj2 (Z.eqb_neq n 0)), Z.max_l by lia. done.
  - done.
Qed.

Definition lcm : str := "spiffe://tangra/lcm".
Definition deps : Deps := mkDeps lcm true true.
Definition lim : RecordSets.Limits := RecordSets.DefaultLimits.
Definition asks : ChallengeRequest := mkChallengeRequest tenantA "example.com" "_acme-challenge.example.com" AcmeSpec.Concrete.token.
Definition presents (peer : str) := challenge zcfg lim lcm 60 deps (Some peer) (R := Recursor.Fake) RPresent asks worldA.
Lemma worldA_clean : AcmeSpec.txt_clean worldA.
Proof. apply AcmeSpec.Concrete.world_cleanb_spec; [apply worldA_zinv|vm_compute; reflexivity]. Qed.

(** The certificate service presents its value; another module is refused. *)
Example presented_by : (presents lcm).1 = inr (mkChallengeResponse "example.com.") ∧ (presents "spiffe://tangra/ipam").1 = inl (mkStatus PermissionDenied "forbidden").
Proof. split; vm_compute; reflexivity. Qed.
Lemma challenges_guarded_witness :
  (∃ z n pz, AcmeSpec.txt_now z n worldA (presents lcm).2 pz (AcmeSpec.with_value 60 AcmeSpec.Concrete.token (Pdns.meaning (Pdns.PRRsets pz) !! (n, Acme.TXT)))) ∧
  w_audit (presents "spiffe://tangra/ipam").2 = w_audit worldA ++ [refusal (Some (lit "spiffe://tangra/ipam")) tenantA].
Proof.
  split.
  - destruct (presents lcm) as [x w'] eqn:E. assert (Hx : x = (presents lcm).1) by (by rewrite E). rewrite (proj1 presented_by) in Hx. subst x.
    destruct (challenges_guarded zcfg lim lcm 60 deps (Some lcm) RPresent asks worldA _ w' eq_refl worldA_zinv worldA_clean E) as (_ & _ & _ & z & fqdn & n & pz & _ & _ & _ & H).
    exists z, n, pz. exact H.
  - destruct (presents (lit "spiffe://tangra/ipam")) as [x w'] eqn:E.
    apply (challenges_guarded zcfg lim lcm 60 deps (Some (lit "spiffe://tangra/ipam")) RPresent asks worldA x w' eq_refl worldA_zinv worldA_clean E). vm_compute. reflexivity.
Defined.

(** A module reads Alice's zone by a name inside it, and pages her zones. *)
Definition reads := read zcfg lim lcm 60 deps (Some (lit "spiffe://tangra/ipam")) (R := Recursor.Fake) tenantA (ForName "www.Example.com") ([], worldA).
Lemma client_reads_witness : ∃ z, reads.1 = inr (view z) ∧ named tenantA (ForName "www.Example.com") (Zones.wdb worldA) = Some z ∧ Zones.same worldA reads.2.2.
Proof.
  assert (Hok : match reads.1 with inr _ => true | inl _ => false end = true) by (vm_compute; reflexivity). destruct reads as [x [ls' w']] eqn:E.
  destruct (client_reads zcfg lim lcm 60 deps (Some (lit "spiffe://tangra/ipam")) tenantA (ForName "www.Example.com") [] worldA x ls' w' E) as [Hs H].
  destruct x as [e|cz]; [discriminate Hok|]. destruct H as (_ & z & Hz & ->). exists z. by split_and!.
Defined.
Definition collected := pages zcfg lim lcm 60 deps (Some (lit "spiffe://tangra/ipam")) (R := Recursor.Fake) tenantA "example" 1 2 1 ([], worldA).
Example collected_once : match collected.1 with Some (inr [z]) => bool_decide (Dnsclient.Name z = "example.com.") | _ => false end = true.
Proof. vm_compute. reflexivity. Qed.
Lemma client_pages_witness : ∃ zs, collected.1 = Some (inr zs) ∧ zs ≡ₚ map view (matching tenantA "example" (Zones.wdb worldA)).
Proof.
  assert (Hok : match collected.1 with Some (inr _) => true | _ => false end = true) by (vm_compute; reflexivity). destruct collected as [x [ls' w']] eqn:E.
  assert (Hn : 1 ≤ 1 ≤ MaxPageSize) by (cbn; lia). assert (Hl : (length (matching tenantA "example" (Zones.wdb worldA)) < 2)%nat) by (vm_compute; lia).
  unfold collected in E. destruct (client_pages zcfg lim lcm 60 deps (Some (lit "spiffe://tangra/ipam")) tenantA "example" 1 2 [] worldA x ls' w' Hn Hl E) as [_ H].
  destruct x as [[e|zs]|]; [discriminate Hok| |discriminate Hok]. exists zs. split; [done|apply H].
Defined.
End Concrete.
End GrpcSpec.
