(* ===== verification/Manifest.v ===== *)
(** * What the module registers ([pkg/dnsmanifest], [internal/app/permissions.go])

    The gateway is told the routes of the API document with their permissions, the
    module's permissions, abilities and navigation; the auth service its roles and
    the grants of the built-in roles, and is asked what a user may do.  The document
    is a Go map of operations: an enumeration of it in any order.  A number of the
    document is a rational. *)
From Stdlib Require Import Ascii QArith Qround.
From S2P Require Import Prelude GoStrings GoError Store Authz MemStore World HttpApi.
Local Open Scope Z_scope.

Module Dnsmanifest.

Definition lits (l : list String.string) : list str := map lit l.

Definition Module_ : str := "dns".
Definition DisplayName : str := "DNS".
Definition Version : str := "1.0.0".
Definition APIPrefix : str := "/api/dns".
Definition PermissionExtension : str := "x-freya-permission".
Definition PublicExtension : str := "x-freya-public".
Definition BodyLimitExtension : str := "x-freya-max-body-bytes".
Definition TimeoutExtension : str := "x-freya-timeout-seconds".

(** ** Permissions, roles, abilities and navigation *)

Record Permission := mkPermission { Resource : str; Action : str; PDescription : str }.
Definition Permissions : list Permission := [
  mkPermission "zones" "read" "List and read zones, record sets and templates, and the live stream";
  mkPermission "zones" "manage" "Create, edit and delete zones and record sets; export zones and send NOTIFY";
  mkPermission "templates" "manage" "Manage zone templates";
  mkPermission "supermasters" "manage" "View supermasters (create/delete also need platform administration)";
  mkPermission "dashboard" "read" "Read the DNS health dashboard";
  mkPermission "backup" "manage" "Export and import tenant DNS data";
  mkPermission "config" "manage" "Edit the DNS server configuration (platform administrators only)"].
Definition ref (p : Permission) : str := Resource p ++ ":" ++ Action p.
Definition PermissionRefs : list str := map ref Permissions.
Definition TenantPermissions : list str := List.filter (λ p : str, negb (bool_decide (p = "config:manage"))) PermissionRefs.
Definition adminPermissions : list str := TenantPermissions.
Definition viewerPermissions : list str := lits ["zones:read"; "dashboard:read"].

Record ModuleRole := mkModuleRole { Slug : str; RDisplayName : str; RDescription : str; RPermissions : list str }.
Definition Roles : list ModuleRole := [
  mkModuleRole "administrator" (DisplayName ++ " administrator") "Manage zones, record sets, templates, supermasters and backups, and read the dashboard" adminPermissions;
  mkModuleRole "viewer" (DisplayName ++ " viewer") "Read zones, record sets, templates and the dashboard" viewerPermissions].
Definition Grants : list (str * list str) := [
  ("owner" : str, adminPermissions); ("admin" : str, adminPermissions);
  ("operator" : str, viewerPermissions); ("member" : str, viewerPermissions); ("auditor" : str, viewerPermissions)].
Definition BuiltinRoles : list str := lits ["owner"; "admin"; "member"; "auditor"; "operator"].

Record Ability := mkAbility { AAction : list str; ASubject : list str; ARequires : str }.
Definition Abilities : list Ability := [
  mkAbility (lits ["read"]) (lits ["DnsZone"; "DnsRecord"; "DnsTemplate"]) "zones:read";
  mkAbility (lits ["create"; "update"; "delete"; "export"; "notify"]) (lits ["DnsZone"; "DnsRecord"]) "zones:manage";
  mkAbility (lits ["manage"]) (lits ["DnsTemplate"]) "templates:manage";
  mkAbility (lits ["read"]) (lits ["DnsSupermaster"]) "supermasters:manage";
  mkAbility (lits ["create"; "delete"]) (lits ["DnsSupermaster"]) "config:manage";
  mkAbility (lits ["read"]) (lits ["DnsDashboard"]) "dashboard:read";
  mkAbility (lits ["manage"]) (lits ["DnsBackup"]) "backup:manage";
  mkAbility (lits ["manage"]) (lits ["DnsConfig"]) "config:manage"].
Record NavEntry := mkNavEntry { Title : str; NPath : str; Icon : str; Order : Z; NRequires : str }.
Definition Nav : list NavEntry := [
  mkNavEntry "Zones" "/dns" "mdi-dns-outline" 980 "zones:read";
  mkNavEntry "Templates" "/dns/templates" "mdi-file-document-multiple-outline" 982 "zones:read";
  mkNavEntry "Supermasters" "/dns/supermasters" "mdi-server-network" 984 "supermasters:manage";
  mkNavEntry "Dashboard" "/dns/dashboard" "mdi-chart-line" 986 "dashboard:read";
  mkNavEntry "Configuration" "/dns/configuration" "mdi-cog-outline" 988 "config:manage"].

(** ** Routes *)

(** The value of an extension of an operation. *)
Inductive extension := EString (s : str) | EBool (b : bool) | ENumber (n : Q) | EOther.
Record Operation := mkOperation { Method : str; Path : str; Extensions : list (str * extension) }.
Definition lookup (k : str) (o : Operation) : option extension := snd <$> find_first (λ kv, bool_decide (kv.1 = k)) (Extensions o).
Definition second : Z := 1000000000.
Record Route := mkRoute { RMethod : str; RPath : str; RPublic : bool; RPermission : str; MaxBodyBytes : Z; Timeout : Z }.
Definition route_key (r : Route) : str := RMethod r ++ " " ++ RPath r.

Definition refuse {A} (o : Operation) (why : str) : res A := Err (Plain ("dnsmanifest: " ++ Method o ++ " " ++ Path o ++ why)).
Definition access (o : Operation) : res (bool * str) :=
  let perm := match lookup PermissionExtension o with Some (EString p) => p | _ => [] end in
  let public := match lookup PublicExtension o with Some (EBool b) => b | _ => false end in
  if public then Ok (true, [])
  else if bool_decide (perm = []) then refuse o " declares no permission"
  else if negb (bool_decide (perm ∈ PermissionRefs)) then refuse o (" uses undeclared permission " ++ goquote perm)
  else Ok (false, perm).
Definition body_limit (o : Operation) : res Z :=
  match lookup BodyLimitExtension o with
  | None => Ok 0
  | Some (ENumber n) => if Qle_bool n 0 then refuse o " has a bad body limit" else Ok (Qfloor n)
  | Some _ => refuse o " has a bad body limit"
  end.
Definition timeout (o : Operation) : res Z :=
  match lookup TimeoutExtension o with
  | None => Ok 0
  | Some (ENumber n) => if Qle_bool n 0 || negb (Qle_bool n 600) then refuse o " has a bad timeout" else Ok (Qfloor n * second)
  | Some _ => refuse o " has a bad timeout"
  end.
Definition route_of (o : Operation) : res Route :=
  a ← access o;
  limit ← body_limit o;
  t ← timeout o;
  Ok (mkRoute (Method o) (Path o) a.1 a.2 limit t).
Fixpoint collect (doc : list Operation) : res (list Route) :=
  match doc with
  | [] => Ok []
  | o :: doc => r ← route_of o; rs ← collect doc; Ok (r :: rs)
  end.
Definition route_ltb (a b : Route) : bool := str_ltb (route_key a) (route_key b).
Definition Routes (doc : list Operation) : res (list Route) := rs ← collect doc; Ok (sort_by route_ltb rs).

(** ** The manifest and the registration *)

Record Manifest_ := mkManifest { MModule : str; MDisplayName : str; MVersion : str; MPrefixes : list str; MRoutes : list Route; MMethods : list str;
  MPermissions : list Permission; MAbilities : list Ability; MExposes : list str; MNav : list NavEntry }.
(** [Load] is the parse of the embedded text. *)
Definition Manifest (Load : res (list Operation)) : res Manifest_ :=
  doc ← Load;
  routes ← Routes doc;
  Ok (mkManifest Module_ DisplayName Version [APIPrefix] routes [] Permissions Abilities (lits ["./routes"; "./nav"]) Nav).
Record Registration_ := mkRegistration { GModule : str; GDisplayName : str; GRoles : list ModuleRole; GBuiltinGrants : list (str * list str); GPermissions : list Permission }.
Definition Registration : Registration_ := mkRegistration Module_ DisplayName Roles Grants Permissions.

(** ** What auth answers *)

(** [authz.Split]: the text before the first colon and what follows it. *)
Fixpoint Cut (s : str) : option (str * str) :=
  match s with
  | [] => None
  | c :: s => if bool_decide (c = ":"%char) then Some ([], s) else (λ ab, (c :: ab.1, ab.2)) <$> Cut s
  end.
Definition Split (perm : str) : option (str * str) :=
  match Cut perm with Some (r, a) => if bool_decide (r = []) || bool_decide (a = []) then None else Some (r, a) | None => None end.
(** [Authorization/Check]: tenant, user, resource, action; [None] when the call fails. *)
Definition Has (Client : option (str → str → str → str → option bool)) : Authz.Checker := λ tenant user perm,
  match Split perm, Client with
  | Some (r, a), Some check => match check tenant user r a with Some b => b | None => false end
  | _, _ => false
  end.

(** The embedded document: the operations the server serves, with their timeouts. *)
Definition timeouts : list (str * Q) := [
  ("GET " ++ HttpApi.Prefix ++ "/zones/{id}/export", 60); ("PUT " ++ HttpApi.Prefix ++ "/config", 120); ("GET " ++ HttpApi.Prefix ++ "/dashboard", 30);
  ("GET " ++ HttpApi.Prefix ++ "/stream", 300); ("POST " ++ HttpApi.Prefix ++ "/backup/export", 120); ("POST " ++ HttpApi.Prefix ++ "/backup/import", 300)]%Q.
Definition embedded (o : HttpApi.Operation) : Operation :=
  mkOperation (HttpApi.OMethod o) (HttpApi.OPath o)
    (match HttpApi.OPermission o with Some p => [(PermissionExtension, EString p)] | None => [] end ++ (if HttpApi.OPublic o then [(PublicExtension, EBool true)] else [])
     ++ match HttpApi.OLimit o with Some n => [(BodyLimitExtension, ENumber (inject_Z n))] | None => [] end
     ++ match find_first (λ kt, bool_decide (kt.1 = HttpApi.route_String (HttpApi.route o))) timeouts with Some (_, t) => [(TimeoutExtension, ENumber t)] | None => [] end).
Definition DNS : list Operation := map embedded HttpApi.document.

(** ** The routes do not depend on the order of the map *)

Lemma collect_perm doc doc' rs : doc ≡ₚ doc' → collect doc = Ok rs → ∃ rs', collect doc' = Ok rs' ∧ rs ≡ₚ rs'.
Proof.
  intros Hp. revert rs. induction Hp as [|o l l' Hp IH|a b l|l1 l2 l3 Hp1 IH1 Hp2 IH2]; intros rs; cbn [collect].
  - intros [= <-]. by exists [].
  - intros (r & Hr & (rs1 & H1 & [= <-])%bind_Ok)%bind_Ok. destruct (IH rs1 H1) as (rs' & H' & Hrs). exists (r :: rs'). split; [by rewrite Hr; cbn; rewrite H'|by constructor].
  - intros (r & Hr & (x & (r2 & H2 & (rs1 & H1 & [= <-])%bind_Ok)%bind_Ok & [= <-])%bind_Ok)%bind_Ok. exists (r2 :: r :: rs1).
    split; [rewrite H2; cbn; rewrite Hr; cbn; by rewrite H1|apply Permutation_swap].
  - intros (rs2 & H2 & P2)%IH1. destruct (IH2 rs2 H2) as (rs3 & H3 & P3). exists rs3. split; [done|by rewrite P2].
Qed.
Lemma NoDup_map_inj {A B} (f : A → B) l a b : NoDup (map f l) → a ∈ l → b ∈ l → f a = f b → a = b.
Proof.
  induction l as [|x l IH]; [set_solver|]. cbn [map]. rewrite NoDup_cons, !elem_of_cons. intros [Hx Hd] [->|Ha] [->|Hb] E; [done| | |by apply IH].
  - destruct Hx. rewrite E. by apply list_elem_of_In, in_map, list_elem_of_In.
  - destruct Hx. rewrite <- E. by apply list_elem_of_In, in_map, list_elem_of_In.
Qed.
Lemma Routes_perm doc doc' rs : NoDup (map route_key rs) → doc ≡ₚ doc' → Routes doc = Ok rs → Routes doc' = Ok rs.
Proof.
  unfold Routes. intros Hd Hp (l & Hl & [= <-])%bind_Ok. destruct (collect_perm _ _ _ Hp Hl) as (l' & -> & Hll). cbn. f_equal.
  rewrite sort_by_perm in Hd. symmetry. apply sort_by_unique; [intros a b c; apply str_ltb_trans| |by eapply NoDup_fmap_1|done].
  intros a b Ha Hb Hne. apply str_ltb_total. intros E. apply Hne. by eapply NoDup_map_inj.
Qed.

(** ** The manifest agrees with the server *)

Definition served (r : Route) : bool :=
  let rt := (RMethod r, RPath r) in
  bool_decide (RPublic r = HttpApi.IsPublic rt) && (RPublic r || bool_decide (HttpApi.Permission rt = Some (RPermission r)) && Authz.Known (RPermission r))
  && match HttpApi.find_op rt with Some o => bool_decide (MaxBodyBytes r = default 0 (HttpApi.OLimit o)) | None => false end.
Definition embedded_routes : list Route := match Routes DNS with Ok rs => rs | Err _ => [] end.
Lemma embedded_run : Routes DNS = Ok embedded_routes ∧ NoDup (map route_key embedded_routes) ∧
  map (λ r, (RMethod r, RPath r)) embedded_routes = HttpApi.DeclaredRoutes ∧ forallb served embedded_routes = true.
Proof.
  split; [vm_compute; reflexivity|]. split; [apply (bool_decide_unpack _); vm_compute; exact I|]. split; vm_compute; reflexivity.
Qed.
(** Every permission that is named somewhere. *)
Definition granted : list str := concat (map RPermissions (GRoles Registration)) ++ concat (map snd (GBuiltinGrants Registration)).
Definition required (m : Manifest_) : list str := map ARequires (MAbilities m) ++ map NRequires (MNav m).

(** C39: the gateway, the auth service and the server are told the same.  Whatever
    order the document's map is walked in, the manifest is built; its routes are
    exactly the routes the server declares, in order, each public exactly when the
    server serves it without a token, and otherwise under the very permission the
    server asks the checker for, with the body limit the server enforces; the
    registered permissions are those the authorization knows; abilities, navigation,
    roles and grants name only these; and no role and no built-in role is granted
    config:manage. *)
Theorem manifest_agrees doc : doc ≡ₚ DNS →
  ∃ m, Manifest (Ok doc) = Ok m ∧ map (λ r, (RMethod r, RPath r)) (MRoutes m) = HttpApi.DeclaredRoutes ∧
  (∀ r, r ∈ MRoutes m → served r = true) ∧ map ref (MPermissions m) = Authz.Permissions ∧
  (∀ p, p ∈ required m ++ granted → p ∈ map ref (MPermissions m)) ∧ map fst (GBuiltinGrants Registration) ≡ₚ BuiltinRoles ∧ Authz.ConfigManage ∉ granted.
Proof.
  intros Hp. destruct embedded_run as (Hr & Hd & Hdecl & Hs). symmetry in Hp. pose proof (Routes_perm DNS doc _ Hd Hp Hr) as Hr'.
  eexists. split; [unfold Manifest; cbn; by rewrite Hr'|]. cbn [MRoutes MPermissions MAbilities MNav].
  split; [exact Hdecl|]. split; [intros r Hin; apply forallb_Forall in Hs; by eapply Forall_forall in Hs|]. split; [vm_compute; reflexivity|]. split.
  - intros p Hin. apply (proj1 (Forall_forall (λ p, p ∈ PermissionRefs) _)) with (x := p) in Hin; [done|]. apply (bool_decide_unpack _). vm_compute. exact I.
  - split; [|apply (bool_decide_unpack _); vm_compute; exact I].
    change (map lit ["owner"; "admin"; "operator"; "member"; "auditor"]%string ≡ₚ map lit ["owner"; "admin"; "member"; "auditor"; "operator"]%string).
    apply Permutation_map. do 2 constructor. apply (Permutation_app_comm ["operator"] ["member"; "auditor"])%string.
Qed.

(** ** Who may configure the servers *)

Section Gate.
Context {OA : HttpApi.OpenAPI} {W : Type} (verifier : option HttpApi.Verifier) (handlers : list (HttpApi.Route * HttpApi.Handler (W := W))).

Lemma Cut_app s r a : Cut s = Some (r, a) → s = r ++ ":"%char :: a.
Proof.
  revert r. induction s as [|c s IH]; intros r; cbn [Cut]; [done|]. case_bool_decide as E; [by intros [= <- <-]; rewrite E|].
  destruct (Cut s) as [[r' a']|]; [|done]. intros [= <- <-]. cbn [app]. f_equal. by apply IH.
Qed.
(** Asking auth fails closed: a permission is held only when auth said so. *)
Lemma Has_asked Client t u perm : Has Client t u perm = true → ∃ check r a, Client = Some check ∧ perm = r ++ ":" ++ a ∧ check t u r a = Some true.
Proof.
  unfold Has, Split. destruct (Cut perm) as [[r a]|] eqn:E; [|done]. apply Cut_app in E. destruct (_ || _); [done|]. destruct Client as [check|]; [|done].
  destruct (check t u r a) as [[]|] eqn:Ec; [|done..]. intros _. by exists check, r, a.
Qed.

End Gate.

(** ** A concrete gate *)

Module Concrete.
#[local] Instance router : HttpApi.OpenAPI := {| HttpApi.FindRoute _ := HttpApi.PathNotFound; HttpApi.ValidateRequest _ _ _ := None |}.
Definition tokens : HttpApi.Verifier := λ _, Ok (HttpApi.mkIdentity "alice" "t1" (lits ["platform-admin"])).
(** Auth with every user an owner. *)
Definition owners (t u res act : str) : option bool := Some (bool_decide (res ++ ":" ++ act ∈ granted)).
Definition put_config : HttpApi.Request := HttpApi.mkRequest "PUT" "/api/dns/v1/config" [] "Bearer alice" [] false None None [].
Definition served_by (r : HttpApi.Request) := HttpApi.serve (Some tokens) (Some (Has (Some owners))) [(("PUT" : str, "/api/dns/v1/config" : str), λ _ n, (HttpApi.WriteError HttpApi.ErrNotImplemented, n + 1))] r 0.
Lemma manifest_agrees_witness : ∃ m, Manifest (Ok (rev DNS)) = Ok m ∧ length (MRoutes m) = 27%nat.
Proof.
  assert (Hp : rev DNS ≡ₚ DNS) by (symmetry; apply Permutation_rev). destruct (manifest_agrees (rev DNS) Hp) as (m & Hm & Hr & _). exists m. split; [exact Hm|].
  rewrite <- (length_map (λ r, (RMethod r, RPath r))), Hr. vm_compute. reflexivity.
Defined.
End Concrete.
End Dnsmanifest.
