(* ===== verification/App.v ===== *)
(** * The wired service ([internal/app/app.go], [internal/metrics])

    [Build] opens the parts of the service one after the other and releases what was
    opened when one of them fails; [Close] releases everything in reverse order.  The
    constructors of other packages and of the framework are steps that succeed or
    fail; what is kept is the order of the steps, the resources and the workers.
    [Instruments] are the counters and the gauge of the module on a meter. *)
From Stdlib Require Import Ascii.
From S2P Require Import Prelude GoStrings GoError Store World.
Local Open Scope Z_scope.

Module App.

(** ** Steps, resources and options *)

Inductive step := LoadDocs | ReadToken | Enroll | NewFreya | LoadKEK | NewEnvelope | Migrate | OpenStore | DialAuth | NewPdns | NewRecursor
  | ReadCA | NewBus | NewMetrics | NewHandler | NewDocker | NewProm.
Inductive resource := RMesh | RFreya | RStore | RAudit | RHub.
#[global] Instance resource_eq_dec : EqDecision resource.
Proof. solve_decision. Defined.
Inductive event := Did (s : step) | Opened (r : resource) | Closed (r : resource).

(** The settings and overrides the wiring looks at. *)
Record Options := mkOptions {
  MeshEnroll : bool; GivenKEK : bool; GivenRepo : bool; DoMigrate : bool; GivenVerifier : bool; GivenChecker : bool; GivenPDNS : bool; GivenRecursor : bool;
  GivenStream : bool; CAFile : bool; IPAMSyncEnabled : bool; GivenRestarter : bool; GivenMetrics : bool; PrometheusURL : bool
}.
Record App := mkApp { closers : list resource; workers : list str; trace : list event }.
Definition empty : App := mkApp [] [] [].

Section Wiring.
Context (run : step → option error) (o : Options).

Definition attempt (s : step) : M App (res unit) := λ a,
  (match run s with Some e => Err e | None => Ok () end, mkApp (closers a) (workers a) (trace a ++ [Did s])).
Definition attempt_as (text : str) (s : step) : M App (res unit) :=
  x ← attempt s; mret match x with Err e => Err (Wrapf e text) | Ok u => Ok u end.
Definition open (r : resource) : M App (res unit) := λ a, (Ok (), mkApp (closers a ++ [r]) (workers a) (trace a ++ [Opened r])).
Definition AddWorker (name : str) : M App (res unit) := λ a, (Ok (), mkApp (closers a) (workers a ++ [name]) (trace a)).
Definition when (b : bool) (m : M App (res unit)) : M App (res unit) := if b then m else mret (Ok ()).

Definition buildRuntime : M App (res unit) :=
  _ ←? when (MeshEnroll o) (_ ←? attempt_as "dns: mesh enroll token" ReadToken; _ ←? attempt_as "dns: mesh enroll" Enroll; open RMesh);
  _ ←? attempt NewFreya;
  open RFreya.
Definition buildStorage : M App (res unit) :=
  _ ←? when (negb (GivenKEK o)) (attempt_as "kek" LoadKEK);
  _ ←? attempt NewEnvelope;
  _ ←? when (negb (GivenRepo o)) (_ ←? when (DoMigrate o) (attempt Migrate); _ ←? attempt OpenStore; open RStore);
  open RAudit.
Definition buildPeers : M App (res unit) := when (negb (GivenVerifier o) || negb (GivenChecker o)) (attempt_as "auth client" DialAuth).
Definition buildDNS : M App (res unit) :=
  _ ←? when (negb (GivenPDNS o)) (attempt NewPdns);
  when (negb (GivenRecursor o)) (attempt NewRecursor).
Definition buildEvents : M App (res unit) :=
  _ ←? when (negb (GivenStream o)) (_ ←? when (CAFile o) (attempt_as "valkey ca" ReadCA); attempt_as "event bus" NewBus);
  open RHub.
Definition buildSync : M App (res unit) := AddWorker "ipam-sync".
Definition buildServices : M App (res unit) :=
  _ ←? AddWorker "recursor-reconciler";
  when (IPAMSyncEnabled o) buildSync.
Definition buildOperations : M App (res unit) :=
  _ ←? AddWorker "acme-sweeper";
  _ ←? when (negb (GivenRestarter o)) (attempt_as "docker restarter" NewDocker);
  _ ←? AddWorker "config-reapply";
  when (negb (GivenMetrics o) && PrometheusURL o) (attempt_as "metrics client" NewProm).
Definition wire : M App (res unit) :=
  _ ←? buildRuntime; _ ←? buildStorage; _ ←? buildPeers; _ ←? buildDNS; _ ←? buildEvents;
  _ ←? attempt_as "metrics" NewMetrics;
  _ ←? attempt NewHandler;
  _ ←? buildServices;
  buildOperations.

Definition Close : M App unit := λ a, ((), mkApp [] (workers a) (trace a ++ map Closed (rev (closers a)))).
(** The help pages are loaded before anything is opened. *)
Definition Build : M App (res unit) :=
  d ← attempt_as "dns: help docs" LoadDocs;
  match d with
  | Err e => mret (Err e)
  | Ok _ => x ← wire; match x with Ok _ => mret (Ok ()) | Err e => _ ← Close; mret (Err e) end
  end.

(** ** What was opened is released *)

Definition opens (l : list event) : list resource := omap (λ e, match e with Opened r => Some r | _ => None end) l.
Definition closes (l : list event) : list resource := omap (λ e, match e with Closed r => Some r | _ => None end) l.
Definition steps (l : list event) : list step := omap (λ e, match e with Did s => Some s | _ => None end) l.

(** A part of the wiring: it opens [rs] and registers [ws] when it succeeds, closes
    nothing, and fails exactly when one of its steps does, which is its last. *)
Definition part (m : M App (res unit)) (rs : list resource) (ws : list str) : Prop := ∀ a, let '(x, a') := m a in ∃ l,
  trace a' = trace a ++ l ∧ closes l = [] ∧ closers a' = closers a ++ opens l ∧ opens l `prefix_of` rs ∧
  match x with
  | Ok _ => opens l = rs ∧ workers a' = workers a ++ ws ∧ Forall (λ s, run s = None) (steps l)
  | Err _ => ∃ k s, steps l = k ++ [s] ∧ Forall (λ s, run s = None) k ∧ run s ≠ None
  end.
Lemma part_ret : part (mret (Ok ())) [] [].
Proof. intros a. exists []. cbn. by rewrite !app_nil_r. Qed.
Lemma part_when (b : bool) m rs ws : part m rs ws → part (when b m) (if b then rs else []) (if b then ws else []).
Proof. destruct b; [done|]. intros _. apply part_ret. Qed.
Lemma part_attempt s : part (attempt s) [] [].
Proof. intros a. unfold attempt. exists [Did s]. cbn. rewrite !app_nil_r. destruct (run s) eqn:E; split_and!; try done; [exists [], s; by rewrite E|by repeat constructor]. Qed.
Lemma part_attempt_as t s : part (attempt_as t s) [] [].
Proof.
  intros a. pose proof (part_attempt s a) as H. unfold attempt_as, mbind, M_bind. destruct (attempt s a) as [[u|e] a']; cbn; exact H.
Qed.
Lemma part_open r : part (open r) [r] [].
Proof. intros a. exists [Opened r]. cbn. by rewrite !app_nil_r. Qed.
Lemma part_worker n : part (AddWorker n) [] [n].
Proof. intros a. exists []. cbn. by rewrite !app_nil_r. Qed.
Lemma part_try m k rs1 rs2 ws1 ws2 : part m rs1 ws1 → part k rs2 ws2 → part (_ ←? m; k) (rs1 ++ rs2) (ws1 ++ ws2).
Proof.
  intros Hm Hk a. unfold try_. specialize (Hm a). destruct (m a) as [[[]|e] a1]; destruct Hm as (l1 & T1 & C1 & O1 & P1 & H1).
  - specialize (Hk a1). destruct (k a1) as [x a2]. destruct Hk as (l2 & T2 & C2 & O2 & P2 & H2). destruct H1 as (H1 & W1 & S1). exists (l1 ++ l2).
    unfold closes, opens, steps in *. rewrite !omap_app, T2, T1, O2, O1, C1, C2, H1, <- !app_assoc. split_and!; try done; [by apply prefix_app|].
    destruct x as [u|e]; [destruct H2 as (-> & -> & S2); rewrite W1, app_assoc; split_and!; [done..|by apply Forall_app]|].
    destruct H2 as (k0 & s & -> & Hk0 & Hs). exists (omap (λ e, match e with Did s => Some s | _ => None end) l1 ++ k0), s. rewrite app_assoc. split_and!; [done| |done]. by apply Forall_app.
  - exists l1. split_and!; try done. by apply prefix_app_r.
Qed.
Lemma part_when_plain (b : bool) m : part m [] [] → part (when b m) [] [].
Proof. intros H. destruct b; [done|apply part_ret]. Qed.
Lemma part_step m k rs ws : part m [] [] → part k rs ws → part (_ ←? m; k) rs ws.
Proof. apply part_try. Qed.

(** The resources and the workers of a service with these options. *)
Definition resources : list resource := (if MeshEnroll o then [RMesh] else []) ++ [RFreya] ++ (if GivenRepo o then [] else [RStore]) ++ [RAudit; RHub].
Definition loops : list str :=
  ["recursor-reconciler" : str] ++ (if IPAMSyncEnabled o then ["ipam-sync" : str] else []) ++ ["acme-sweeper" : str; "config-reapply" : str].

Lemma runtime_part : part buildRuntime ((if MeshEnroll o then [RMesh] else []) ++ [RFreya]) [].
Proof.
  assert (H : part (when (MeshEnroll o) (_ ←? attempt_as "dns: mesh enroll token" ReadToken; _ ←? attempt_as "dns: mesh enroll" Enroll; open RMesh)) (if MeshEnroll o then [RMesh] else []) []).
  { destruct (MeshEnroll o); [|apply part_ret]. apply part_step; [apply part_attempt_as|]. apply part_step; [apply part_attempt_as|apply part_open]. }
  apply (part_try _ _ _ [RFreya] [] [] H). apply part_step; [apply part_attempt|apply part_open].
Qed.
Lemma storage_part : part buildStorage ((if GivenRepo o then [] else [RStore]) ++ [RAudit]) [].
Proof.
  apply part_step; [apply part_when_plain, part_attempt_as|]. apply part_step; [apply part_attempt|].
  assert (H : part (when (negb (GivenRepo o)) (_ ←? when (DoMigrate o) (attempt Migrate); _ ←? attempt OpenStore; open RStore)) (if GivenRepo o then [] else [RStore]) []).
  { destruct (GivenRepo o); [apply part_ret|]. apply part_step; [apply part_when_plain, part_attempt|]. apply part_step; [apply part_attempt|apply part_open]. }
  apply (part_try _ _ _ [RAudit] [] [] H), part_open.
Qed.
Lemma events_part : part buildEvents [RHub] [].
Proof.
  apply part_step; [|apply part_open]. apply part_when_plain, part_step; [apply part_when_plain, part_attempt_as|apply part_attempt_as].
Qed.
Lemma operations_part : part buildOperations [] ["acme-sweeper" : str; "config-reapply" : str].
Proof.
  apply (part_try _ _ [] [] ["acme-sweeper" : str] ["config-reapply" : str]); [apply part_worker|]. apply part_step; [apply part_when_plain, part_attempt_as|].
  apply (part_try _ _ [] [] ["config-reapply" : str] []); [apply part_worker|apply part_when_plain, part_attempt_as].
Qed.
Lemma wire_part : part wire resources loops.
Proof.
  unfold wire, resources, loops.
  rewrite (app_assoc (if MeshEnroll o then _ else _) [RFreya]). change [RAudit; RHub] with ([RAudit] ++ [RHub]). rewrite (app_assoc (if GivenRepo o then _ else _) [RAudit]).
  apply (part_try _ _ _ _ [] _ runtime_part). apply (part_try _ _ _ _ [] _ storage_part).
  apply part_step; [apply part_when_plain, part_attempt_as|]. apply part_step.
  { apply part_step; [apply part_when_plain, part_attempt|apply part_when_plain, part_attempt]. }
  apply (part_try _ _ [RHub] [] [] _ events_part). apply part_step; [apply part_attempt_as|]. apply part_step; [apply part_attempt|].
  apply (part_try _ _ [] [] (["recursor-reconciler" : str] ++ (if IPAMSyncEnabled o then ["ipam-sync" : str] else [])) ["acme-sweeper" : str; "config-reapply" : str]); [|apply operations_part].
  apply (part_try _ _ [] [] ["recursor-reconciler" : str]); [apply part_worker|]. unfold buildSync, when. destruct (IPAMSyncEnabled o); [apply part_worker|apply part_ret].
Qed.

End Wiring.

(** ** Health *)

(** [a.health]: the reachability of each component, never an error text; the store is
    asked when the service opened it, the recursor when it is enabled. *)
Definition health (store : option bool) (key pdns : bool) (recursor : option bool) : list (str * str) :=
  [("store" : str, match store with Some false => "unreachable" : str | _ => "ok" : str end);
   ("pdns_api_key" : str, if key then "ok" : str else "unavailable" : str); ("pdns" : str, if pdns then "ok" : str else "unreachable" : str)]
  ++ match recursor with Some up => [("recursor" : str, if up then "ok" : str else "unreachable" : str)] | None => [] end.

(** A development setup whose event bus cannot be reached, and one that works. *)
Definition dev : Options := mkOptions false true false true true true false true false false true true false false.
Definition bus_down (s : step) : option error := match s with NewBus => Some (Plain "connection refused") | _ => None end.
End App.

(** ** The instruments ([internal/metrics/metrics.go]) *)

Module Instruments.
Definition TargetAuth : str := "auth".
Definition TargetRecursor : str := "recursor".

Definition series : Type := str * list (str * str).
(** The sums of the counters by name and attributes, the recorded latencies, the sum
    of the up-down counter, and the value set last. *)
Record Metrics := mkMetrics { sums : gmap series Z; latencies : list (str * Z); unowned : Z; lastUnowned : Z }.
Definition int64 (z : Z) : Z := (z + 2 ^ 63) mod 2 ^ 64 - 2 ^ 63.

(** [New]: the instruments in the order they are created; the first failure is the
    answer. *)
Definition names : list str := ["dns.pdns.calls" : str; "dns.recursor.sync" : str; "dns.ipam.sync" : str; "dns.config.restarts" : str; "dns.challenges" : str;
  "dns.pdns.call" : str; "dns.pdns.unowned.zones" : str].
Definition New (meter : str → option error) : res Metrics :=
  match omap meter names with
  | e :: _ => Err e
  | [] => Ok (mkMetrics ∅ [] 0 0)
  end.
Definition add (name : str) (attrs : list (str * str)) (m : Metrics) : Metrics :=
  mkMetrics (<[(name, attrs) := default 0 (sums m !! (name, attrs)) + 1]> (sums m)) (latencies m) (unowned m) (lastUnowned m).
(** A nil receiver records nothing. *)
Definition PDNSCall (op result : str) (d : Z) (m : option Metrics) : option Metrics :=
  (λ m, let m := add "dns.pdns.calls" [("op" : str, op); ("result" : str, result)] m in
        mkMetrics (sums m) (latencies m ++ [(op, d)]) (unowned m) (lastUnowned m)) <$> m.
Definition RecursorSync (result : str) (m : option Metrics) : option Metrics := add "dns.recursor.sync" [("result" : str, result)] <$> m.
Definition IPAMSync (action result : str) (m : option Metrics) : option Metrics := add "dns.ipam.sync" [("action" : str, action); ("result" : str, result)] <$> m.
Definition Restart (target result : str) (m : option Metrics) : option Metrics := add "dns.config.restarts" [("target" : str, target); ("result" : str, result)] <$> m.
Definition Challenge (op result : str) (m : option Metrics) : option Metrics := add "dns.challenges" [("op" : str, op); ("result" : str, result)] <$> m.
Definition SetUnownedZones (n : Z) (m : option Metrics) : option Metrics :=
  (λ m, mkMetrics (sums m) (latencies m) (int64 (unowned m + int64 (n - lastUnowned m))) n) <$> m.

(** ** What a scrape reads *)

Inductive call := CPDNS (op result : str) (d : Z) | CRecursor (result : str) | CIPAM (action result : str) | CRestart (target result : str)
  | CChallenge (op result : str) | CUnowned (n : Z).
Definition apply (m : option Metrics) (c : call) : option Metrics :=
  match c with
  | CPDNS o r d => PDNSCall o r d m | CRecursor r => RecursorSync r m | CIPAM a r => IPAMSync a r m | CRestart t r => Restart t r m
  | CChallenge o r => Challenge o r m | CUnowned n => SetUnownedZones n m
  end.
Definition counts (s : series) (c : call) : bool :=
  bool_decide (Some s = match c with
    | CPDNS o r _ => Some ("dns.pdns.calls" : str, [("op" : str, o); ("result" : str, r)]) | CRecursor r => Some ("dns.recursor.sync" : str, [("result" : str, r)])
    | CIPAM a r => Some ("dns.ipam.sync" : str, [("action" : str, a); ("result" : str, r)]) | CRestart t r => Some ("dns.config.restarts" : str, [("target" : str, t); ("result" : str, r)])
    | CChallenge o r => Some ("dns.challenges" : str, [("op" : str, o); ("result" : str, r)]) | CUnowned _ => None
    end).
Definition set_last (last : Z) (c : call) : Z := match c with CUnowned n => n | _ => last end.
Definition in_int64 (c : call) : Prop := match c with CUnowned n => - 2 ^ 63 ≤ n < 2 ^ 63 | _ => True end.

Lemma int64_id z : - 2 ^ 63 ≤ z < 2 ^ 63 → int64 z = z.
Proof. intros H. unfold int64. rewrite Z.mod_small by lia. lia. Qed.
Lemma int64_back a n : - 2 ^ 63 ≤ n < 2 ^ 63 → int64 (a + int64 (n - a)) = n.
Proof.
  intros H. transitivity (int64 n); [|by apply int64_id]. unfold int64.
  assert (E : a + ((n - a + 2 ^ 63) mod 2 ^ 64 - 2 ^ 63) + 2 ^ 63 = a + (n - a + 2 ^ 63) mod 2 ^ 64) by lia.
  rewrite E, Z.add_mod_idemp_r by lia. do 2 f_equal. lia.
Qed.
Lemma add_sum name attrs m s : default 0 (sums (add name attrs m) !! s) = default 0 (sums m !! s) + (if bool_decide (Some s = Some (name, attrs)) then 1 else 0).
Proof.
  unfold add. cbn [sums]. case_bool_decide as E; [injection E as ->; by rewrite lookup_insert_eq|]. rewrite lookup_insert_ne; [lia|]. by intros <-.
Qed.
Lemma sample_run m c : unowned m = lastUnowned m → in_int64 c → ∃ m', apply (Some m) c = Some m' ∧ unowned m' = lastUnowned m' ∧ lastUnowned m' = set_last (lastUnowned m) c ∧
  ∀ s, default 0 (sums m' !! s) = default 0 (sums m !! s) + (if counts s c then 1 else 0).
Proof.
  intros Hu Hc. destruct c; cbn [apply PDNSCall RecursorSync IPAMSync Restart Challenge SetUnownedZones fmap option_fmap option_map];
    (eexists; split; [reflexivity|]); cbn [unowned lastUnowned set_last]; try (split_and!; [done..|]; intros s; apply add_sum).
  cbn in Hc. rewrite Hu, int64_back by done. split_and!; [done..|]. intros s. unfold counts. rewrite bool_decide_eq_false_2 by done. cbn [sums]. lia.
Qed.

(** The instruments count exactly.  Starting from fresh instruments, after any
    sequence of samples each counter of each combination of labels is the number of
    samples that bear it, the gauge of unowned zones shows the value set last, though
    it is kept by adding differences that may wrap in 64 bits, and without instruments nothing
    happens. *)
Theorem instruments_exact meter m cs :
  New meter = Ok m → Forall in_int64 cs →
  foldl apply None cs = None ∧
  ∃ m', foldl apply (Some m) cs = Some m' ∧ unowned m' = foldl set_last 0 cs ∧ ∀ s, default 0 (sums m' !! s) = Z.of_nat (length (List.filter (counts s) cs)).
Proof.
  unfold New. destruct (omap meter names); [|done]. intros [= <-] Hcs. split; [clear Hcs; induction cs as [|c cs IH]; [done|by destruct c]|].
  assert (H : ∀ m0, unowned m0 = lastUnowned m0 → ∃ m', foldl apply (Some m0) cs = Some m' ∧ unowned m' = foldl set_last (lastUnowned m0) cs ∧
    ∀ s, default 0 (sums m' !! s) = default 0 (sums m0 !! s) + Z.of_nat (length (List.filter (counts s) cs))).
  { induction Hcs as [|c cs Hc Hcs IH]; intros m0 H0; cbn [foldl List.filter]; [exists m0; split_and!; [done|done|]; intros s; cbn; lia|].
    destruct (sample_run m0 c H0 Hc) as (m1 & -> & H1 & L1 & C1). destruct (IH m1 H1) as (m' & Hm' & Hu & Hs). exists m'. rewrite <- L1. split_and!; [done..|].
    intros s. rewrite Hs, C1. destruct (counts s c); cbn [length]; lia. }
  destruct (H (mkMetrics ∅ [] 0 0) eq_refl) as (m' & Hm & Hu & Hs). exists m'. split_and!; [done..|]. intros s. rewrite Hs. cbn [sums]. by rewrite lookup_empty.
Qed.
Lemma instruments_exact_witness : ∃ m', foldl apply (Some (mkMetrics ∅ [] 0 0)) [CUnowned 3; CRecursor "ok"; CUnowned 1; CRecursor "ok"] = Some m' ∧ unowned m' = 1 ∧
  default 0 (sums m' !! (("dns.recursor.sync" : str, [("result" : str, "ok" : str)]) : series)) = 2.
Proof.
  assert (H : Forall in_int64 [CUnowned 3; CRecursor "ok"; CUnowned 1; CRecursor "ok"]) by (repeat constructor; cbn; lia).
  destruct (instruments_exact (λ _, None) (mkMetrics ∅ [] 0 0) _ eq_refl H) as (_ & m' & Hm & Hu & Hs). exists m'. split; [exact Hm|]. split; [exact Hu|]. rewrite Hs. vm_compute. reflexivity.
Defined.
End Instruments.
